(* ===== verification/_CoqProject ===== *)
-Q . S2P
Prelude.v
Define.v
SessionBuffer.v
ReadWriteBuffer.v
PacketInterface.v
Base64.v
Sha1.v
Websocket.v
HttpFormat.v
Sha1Report.v
Utilities.v
HttpParser.v
HttpParserFacts.v
HttpRequest.v
HttpUpgrade.v
HttpUrl.v
PacketHttp.v
HttpDelivery.v
SessionTable.v
Iobridge.v
Timer.v
Tms.v
Modules.v
Communication.v
WorkThread.v
Dispatch.v
SessionCalls.v
TcpSession.v
EndpointTables.v
UdpServer.v
KcpServer.v
Ikcp.v
IkcpFacts.v
IkcpMessages.v
IkcpNet.v
IkcpInstance.v
TcpClientSession.v
UdpClientSession.v
TtyServer.v
TlsSession.v
TlsClientSession.v
IoContextPool.v
Listeners.v
TlsListener.v
PacketLoader.v
Delivery.v
QueueService.v
SessionService.v
TestLogic.v
ServerConfig.v
ServerService.v
Template.v
LogicMaker.v
