(* ===== verification/Prelude.v ===== *)
(** * PSS_ASIO: a verification development

    PSS_ASIO is a C++ server framework on top of asio.  Bytes arrive on IO sessions (TCP, UDP, KCP,
    TLS, serial); a packet parser plugin cuts the receive buffer of a session into packets; the
    packets go to a fixed set of work threads, which give them to the logic plugins that registered
    their command ids and write the answers back to the session.  A session may instead be bridged
    to another one, and the server may keep connections of its own to other servers.

<<
    socket --> CTcpSession --> packet parser --> CWorkThreadLogic --> TMS queues --> plugins
               (receive buffer)  (plugin)         |   |    |    \--> sync handlers      |
                    ^                             |   |    +--> timers                  |
                    |   <-- bridge (CIoBridge) ---+   +--> CCommunicationService        |
                    +------------------------- answers, in order <----------------------+
>>

    ** Files and the sources they model

    - [Prelude] (this file): integers at their width ([u8] ... [u64], [i8] ... [i64]), byte lists with
      offsets in [Z] ([zlen], [ztake], [zdrop], bounds-checked copies), the [outcome] of an operation
      ([Ok], or [Fault] for an access outside an allocation or through a null pointer), the
      [pss] hint database and the lemmas on lists and integers the components share.
    - [Define]: src/Common/define.h.  Enumerations, command ids, client addresses with their
      comparison operators, packets, [string_split].
    - [SessionBuffer]: src/Common/SessionBuffer.hpp.  An allocation and its fill level; [contents]
      is the byte queue it stands for.
    - [ReadWriteBuffer] (Modules [Reader] and [Writer]): src/Common/ReadBuffer.hpp and WriteBuffer.hpp, the
      typed stream operators of the plugins.
    - [PacketInterface]: src/PacketParse_Interface/PacketParse_Interface.cpp, the default parser
      (40-byte header and body), its stream and datagram paths.
    - [Base64], [Sha1], [Websocket], [HttpFormat], [PacketHttp]: src/PacketParse_Http, the HTTP and
      websocket parser: Base64.hpp, SHA1.hpp, WebsocketFormat.hpp (frames and handshake),
      HttpFormat.cpp (callbacks of the parser, requests, response texts), PacketParse_Http.cpp
      (the protocol of each connection and the three ways to treat its bytes).
    - [HttpParser]: src/PacketParse_Http/http_parser.c.  [http_parser_execute] is a loop over characters; [step] is
      what it does for one of them in each state.  [HttpParserFacts] shows that it is safe, [HttpRequest] and
      [HttpUpgrade] what it makes of requests; [HttpDelivery] puts it together with [HttpFormat] and [PacketHttp].
      [HttpUrl]: its function for URLs, which the server does not call.
    - [Sha1Report]: the functions of SHA1.hpp that hash files and write hashes as text.
    - [Utilities]: consoleoutput.hpp, TimeStamp.hpp, PerformanceCheck.hpp, CoreTimer.hpp and the functions of
      define.h for dates and processors, a Module for each.
    - [SessionTable]: ISession.h as the class [ISession]; SessionInterface.cpp (sessions of a work
      thread, timeout sweep); SessionAddrList.cpp.
    - [Iobridge]: IotoIo.cpp and Iobridge.cpp.  The calls on sessions are effects in order.
    - [Timer]: TimerManager.hpp.  The timer thread is a program counter over the points where its
      locks are free; [step] is the relation of all threads.  std::priority_queue is the class
      [PriorityQueue] with the documented contract of push, pop and top, and an instance by insertion.
    - [Tms]: ThreadQueue.h and tms.hpp.  A logic thread is a program counter ([svc_step]); the callbacks
      of delayed messages are data run by [timer_callback].
    - [Modules]: FrameObject.hpp, LoadModule.cpp, ModuleInterfalce.cpp, SyncLogic.cpp.
    - [Communication]: ICommunicationService.h as the class [ICommunicationInterface] and
      CommunicationService.cpp as an instance of it.
    - [WorkThread]: ModuleLogic.cpp, the whole of CModuleLogic and CWorkThreadLogic.  The closures the
      source queues are the constructors of [task] and [timer_task]; [run_task] gives their bodies.
      [wt_step] is the set of calls and thread steps, [wt_reachable] the states after a start.
    - [Dispatch]: the properties of [WorkThread].
    - [SessionCalls]: what all sessions share: the calls a session makes on the framework
      ([app_call]), the parser plugin as a session calls it ([parser_call]), the receive path up to the
      packets ([receive_data]) and the send buffer.
    - [TcpSession]: TcpSession.cpp.  [tcp_op] lists the calls and the completions of asynchronous
      operations; what the session tells other components is recorded in [calls].
    - [TcpClientSession], [UdpClientSession]: the connections the server itself opens.
    - [EndpointTables], [UdpServer], [KcpServer]: UdpServer.cpp and KcpServer.cpp with the two tables
      between endpoints and connections they both keep.  The engine ikcp is the class [KCP].
    - [Ikcp]: src/third_include/kcp/ikcp.c, every function of the protocol on a control block.  [IkcpFacts] and
      [IkcpMessages] have its properties for one control block, [IkcpNet] those of two that are joined by a
      network; [IkcpInstance] makes it an instance of [KCP].
    - [TtyServer], [TlsSession], [TlsClientSession]: serial ports and TLS.
    - [IoContextPool], [Listeners], [PacketLoader]: IoContextPool.cpp; NetSvrManager.cpp with TcpServer.cpp;
      LoadPacketParse.cpp.  [TlsListener]: TcpSSLServer.cpp, which is compiled in with SSL_SUPPORT.
    - [QueueService]: Queueservice.cpp and src/third_include/shm_queue, the message queues between processes.
      A step that has to wait is [None].
    - [SessionService]: SessionService.cpp, the object plugins are given; [process] puts the work
      threads, the bridge, the queues and the listeners together.
    - [ServerConfig], [ServerService]: serverconfig.cpp and ServerService.cpp, from the configuration to a
      running process and its end.
    - [Delivery]: the path of a request through [TcpSession], [PacketInterface] and [WorkThread].
    - [TestLogic]: src/Module_Logic/Test_Logic, the plugin that comes with the server, on that path.
    - [Template], [LogicMaker]: src/PSS_PLUGIN_LOGIC_MAKER, the tool that writes the sources of a plugin from a
      description of its messages.

    ** What is proved

    - End to end: what a client sends in chunks that the parser can wait on is answered once each and in
      order ([requests_answered]), and with the example plugin every frame comes back as it was sent
      ([frames_echoed]); a server starts from every sound configuration ([service_starts]), no
      call of a plugin breaks a component in any state reached from there, under the conditions that
      [plugin_calls_safe] names, and it stops in order ([service_stops]).  What is read of a configuration is
      what the file holds, with values that fit ([config_reading_sound]).
    - Bytes in: the receive buffer is a bounded byte queue ([session_buffer_refines_queue]); the default
      parser reassembles a stream unless a cut falls into the last 40 bytes of a frame ([stream_reassembly]), and what it
      does on every content is known ([stream_outcomes]); it refuses illegal lengths and treats datagrams one at a time.
    - Values: what the writer wrote the reader reads back ([read_write_roundtrip]) and no bytes
      make the reader leave the buffer ([reader_memory_safe]); splitting and joining strings,
      addresses as map keys, dates as texts ([date_delay_roundtrip]) and hashes of files ([hash_file_correct]).
    - Websocket and HTTP: frames round-trip and the decoder stays inside the received bytes
      ([ws_frame_roundtrip], [ws_decoder_safe]); base64 round-trips; the streaming hash is SHA-1 as
      FIPS 180-4 defines it, stated as a separate reference function ([sha1_correct]); the parser
      returns on all bytes, in every state ([parser_returns]); a request with a body is delivered once
      with its body ([http_post_delivered]), one that asks for a websocket is answered as RFC 6455
      demands and turns the connection over ([websocket_opened]); delivery of a stream of frames
      ([ws_stream_delivery]); URLs are cut into the parts they were made of ([url_roundtrip]); the protocol of
      a connection only moves forward
      ([http_protocol_monotone]); announced response lengths.
    - Threads: messages of a logic thread run once, and in order unless a [Start] replays the waiting ones meanwhile
      ([tms_fifo]); timers fire at most once and not after their cancellation under every interleaving, and none is lost or
      early when additions do not fall between two steps of the thread and no wake-up is stray ([timers_fire_correctly]).
    - Dispatch: every start succeeds, no operation faults and all work of a connection stays on the
      thread [connect_id mod n] ([connection_affinity]); each received packet is handled once, the
      answers are written in order, bridged data is forwarded or reported.
    - Tables: modules and their commands agree after any loads and unloads; the timeout
      sweep is exact; a bridge only forwards what a mapping asks for ([bridge_forwarding_sound]); one connection attempt per
      server at a time.
    - Output: a TCP session sends what it was asked to, in order, and closes when all is confirmed, if no data was refused
      ([tcp_graceful_close]); writes under way complete in any order; the bytes of a TCP client, a UDP client (as a refinement of a byte queue),
      a serial port and a TLS session stay in order and in their buffers ([tcp_client_output],
      [udp_client_refines_queue], [tty_memory_safe], [tls_output_in_order]).
    - Datagrams: the endpoint tables of the UDP and KCP servers are inverse to each other
      ([udp_connections_consistent], [kcp_connections_consistent]) and what arrives is handed on once
      ([udp_datagram_handled], [kcp_message_delivered]; in order, segment after segment, [kcp_segment_to_parser]).
    - KCP: over a network that loses, repeats and reorders datagrams, what one side receives is the first
      of what the other sent ([kcp_reliable]); a message whose fragments have arrived in any order is
      received as it was sent ([kcp_reassembles]);
      no datagram makes a control block leave its buffers ([kcp_input_safe]) and none it sends is longer
      than the mtu ([kcp_update_mtu]).
    - Tools: the generator of plugins writes files that dispatch exactly the described commands
      ([plugin_generated]).
    - Listeners, loaders and queues: the tables of listeners are sound ([listener_tables_sound]), parser
      libraries are opened and closed in balance, I/O contexts are given out in turn; messages between
      processes are neither lost nor reordered ([queue_fifo]) and closing a queue drains it
      ([queue_close_drains]).
    - Behaviour of the code that its callers should know, proved where it can be met: a packet without
      its last bytes is read past the buffer ([stream_incomplete_packet_overread]), the first
      fragment of a websocket message is dropped, a POST body in two reads is duplicated
      ([http_post_split_duplicated]), a request cut behind its first line is taken as complete, a
      negative read offset moves forward, a timer added while the thread is about to execute
      another can be lost, a stray wake-up fires a timer early ([stray_wakeup_fires_early]), the initial delay of a loop can be forgotten, a delayed message for a closed
      thread dereferences null, a failed write keeps a session from closing, and a connection
      attempt that never reports blocks later ones; an empty datagram stops a UDP listener, a reset
      connection stops a TCP listener, several KCP messages in a datagram overwrite each other, a request with an upgrade to
      another protocol loses the next one ([http_upgrade_loses_next]), a queue
      closed while its receive function sends is never closed ([queue_close_deadlock]).

    ** Bounds, fuel and assumptions

    The loops of the two parsers and of [string_split] are structural on a fuel: one more than the size
    of the allocation (default parser), than the received bytes (websocket) or than the length of the
    string; each round of the default parser consumes at least one byte until a length wraps around, after which it reads past the
    received bytes ([stream_outcomes]), and the websocket loop always ends ([ws_parser_total]).  The loop of [http_parser_execute] has a fuel of
    five rounds for a character and five more: [parser_returns] shows that this is enough.  Theorems that count bytes assume that a
    64-bit counter does not wrap ([< 2 ^ 64]) and that a receive buffer is smaller than [2 ^ 32] bytes, the
    width of the parsers' offsets; the number of work threads is positive and fits 16 bits, as in the
    configuration.  Time is a [Z] of nanoseconds.

    Parameters: the plugins ([dlopen], with the state [W] their functions share), the HTTP parser
    in [HttpFormat] and [PacketHttp] (the callbacks it makes for a text; [HttpParser.run_request] is put in
    [HttpDelivery]), the random mask bytes
    of websocket frames, uninitialised memory ([junk]), the start of a client session
    ([start_client]), the parser plugin of a session ([parse], [format]), the sessions
    themselves where the work threads use them ([ISession]), the KCP engine ([KCP], with
    the instance of [IkcpInstance]), the parser libraries ([library]), the size of a kernel queue and what
    a receive function sends ([qbytes], [logic]), and the machine a server starts on ([environment]).  Theorems hold for all of them.

    ** Not modelled

    The names of the methods, states and errors of http_parser; the Windows variant of the message queue; the command line, signals, daemon mode and the texts in the log;
    the wrapper of dlopen; the byte swapping behind a
    switch that is off; asio, spdlog, jemalloc, openssl and the other vendored libraries of general purpose,
    except for the operations of nlohmann::json and shm_queue that are used; the test client and the unit
    tests. *)

From Stdlib Require Import ZArith Lia.
From stdpp Require Import base numbers list gmap strings sorting.
From coqutil Require Import Tactics.RecordEta.

Local Open Scope Z_scope.

(** ** Machine-width integers

    A [w]-bit unsigned integer of the source is a [Z]; every arithmetic operation of
    the source that can wrap is written with one of the functions below. *)

Definition uwrap (w : Z) (z : Z) : Z := z mod 2 ^ w.
Definition swrap (w : Z) (z : Z) : Z := (z + 2 ^ (w - 1)) mod 2 ^ w - 2 ^ (w - 1).

Definition u8 : Z → Z := uwrap 8.
Definition u16 : Z → Z := uwrap 16.
Definition u32 : Z → Z := uwrap 32.
Definition u64 : Z → Z := uwrap 64.
Definition i8 : Z → Z := swrap 8.
Definition i16 : Z → Z := swrap 16.
Definition i32 : Z → Z := swrap 32.
Definition i64 : Z → Z := swrap 64.

Declare Scope mach_scope.
Delimit Scope mach_scope with mach.
Notation "x '+u32' y" := (u32 (x + y)) (at level 50, left associativity) : mach_scope.
Notation "x '-u32' y" := (u32 (x - y)) (at level 50, left associativity) : mach_scope.
Notation "x '+u64' y" := (u64 (x + y)) (at level 50, left associativity) : mach_scope.
Notation "x '-u64' y" := (u64 (x - y)) (at level 50, left associativity) : mach_scope.
#[global] Open Scope mach_scope.

Definition fits_u (w : Z) (z : Z) : Prop := 0 <= z < 2 ^ w.
Definition fits_s (w : Z) (z : Z) : Prop := - 2 ^ (w - 1) <= z < 2 ^ (w - 1).

(** The automation shared by the components. *)
Create HintDb pss discriminated.
Create Rewrite HintDb pss_len.

(** [mach] unfolds the machine-integer wrappers and calls [lia] on constant moduli. *)
Ltac mach_unfold :=
  unfold u8, u16, u32, u64, i8, i16, i32, i64, uwrap, swrap, fits_u, fits_s in *;
  change (2 ^ 8) with 256 in *; change (2 ^ 16) with 65536 in *;
  change (2 ^ 32) with 4294967296 in *;
  change (2 ^ 64) with 18446744073709551616 in *;
  change (2 ^ (8 - 1)) with 128 in *; change (2 ^ (16 - 1)) with 32768 in *;
  change (2 ^ (32 - 1)) with 2147483648 in *;
  change (2 ^ (64 - 1)) with 9223372036854775808 in *;
  cbn [Z.of_nat Pos.of_succ_nat Pos.succ Z.mul Pos.mul Pos.add] in *;
  change (256 ^ 1) with 256 in *; change (256 ^ 2) with 65536 in *;
  change (256 ^ 4) with 4294967296 in *;
  change (256 ^ 8) with 18446744073709551616 in *.
Ltac mach := mach_unfold; Z.to_euclidean_division_equations; lia.

Lemma uwrap_small w z : 0 <= z < 2 ^ w → uwrap w z = z.
Proof. intros. by apply Z.mod_small. Qed.

Lemma uwrap_range w z : 0 <= w → 0 <= uwrap w z < 2 ^ w.
Proof. intros. apply Z.mod_pos_bound. by apply Z.pow_pos_nonneg. Qed.

Lemma u32_small z : 0 <= z < 4294967296 → u32 z = z.
Proof. mach. Qed.

Lemma u64_small z : 0 <= z < 18446744073709551616 → u64 z = z.
Proof. mach. Qed.

Lemma u16_small z : 0 <= z < 65536 → u16 z = z.
Proof. mach. Qed.

Lemma i32_small z : -2147483648 <= z < 2147483648 → i32 z = z.
Proof. mach. Qed.

Lemma u32_range z : 0 <= u32 z < 4294967296.
Proof. mach. Qed.

Lemma u64_range z : 0 <= u64 z < 18446744073709551616.
Proof. mach. Qed.

(** ** Outcomes

    [Fault] stands for a point where the C++ program has undefined behaviour (an access
    outside an allocation, a null dereference) or leaves the function by an exception. *)

Inductive outcome (A : Type) : Type :=
| Ok (a : A)
| Fault.
Arguments Ok {A} a.
Arguments Fault {A}.

Definition obind {A B} (m : outcome A) (f : A → outcome B) : outcome B :=
  match m with Ok a => f a | Fault => Fault end.

Declare Scope outcome_scope.
Delimit Scope outcome_scope with outcome.
Notation "'let*' x ':=' m 'in' k" := (obind m (fun x => k))
  (at level 200, x name, m at level 100, k at level 200) : outcome_scope.
Notation "'let*' ' x ':=' m 'in' k" := (obind m (fun x => k))
  (at level 200, x strict pattern, m at level 100, k at level 200) : outcome_scope.
#[global] Open Scope outcome_scope.

Definition is_ok {A} (m : outcome A) : bool := match m with Ok _ => true | Fault => false end.

(** ** Bytes and byte strings

    A [char]/[uint8_t] is a [Z] in [0, 256); a [std::string] used as a byte container and
    a block of memory are lists of bytes. *)

Definition is_byte (b : Z) : Prop := 0 <= b < 256.
Definition wf_bytes (l : list Z) : Prop := Forall is_byte l.

Definition zlen {A} (l : list A) : Z := Z.of_nat (length l).
Definition ztake {A} (n : Z) (l : list A) : list A := take (Z.to_nat n) l.
Definition zdrop {A} (n : Z) (l : list A) : list A := drop (Z.to_nat n) l.

(** [mem_read m pos n]: the [n] bytes at offset [pos] of the allocation [m]. *)
Definition mem_read (m : list Z) (pos n : Z) : outcome (list Z) :=
  if (0 <=? pos) && (0 <=? n) && (pos + n <=? zlen m)
  then Ok (ztake n (zdrop pos m)) else Fault.

(** [mem_write m pos d]: store [d] at offset [pos] of the allocation [m]. *)
Definition mem_write (m : list Z) (pos : Z) (d : list Z) : outcome (list Z) :=
  if (0 <=? pos) && (pos + zlen d <=? zlen m)
  then Ok (ztake pos m ++ d ++ zdrop (pos + zlen d) m) else Fault.

(** Little-endian representation of an integer in [n] bytes, and back: what [memcpy]
    between an integer and a byte array does on the supported platforms. *)
Fixpoint le_bytes (n : nat) (z : Z) : list Z :=
  match n with
  | O => []
  | S n => z mod 256 :: le_bytes n (z / 256)
  end.

Fixpoint le_val (l : list Z) : Z :=
  match l with
  | [] => 0
  | b :: l => b + 256 * le_val l
  end.

Lemma length_le_bytes n z : length (le_bytes n z) = n.
Proof. revert z. induction n; intros; simpl; auto. Qed.

Lemma le_bytes_wf n z : wf_bytes (le_bytes n z).
Proof.
  revert z. induction n as [|n IH]; intros z; simpl; [constructor|].
  constructor; [|apply IH]. unfold is_byte. apply Z.mod_pos_bound. lia.
Qed.

Lemma le_val_le_bytes n z : le_val (le_bytes n z) = z mod 256 ^ Z.of_nat n.
Proof.
  revert z. induction n as [|n IH]; intros z; cbn [le_bytes le_val].
  - by rewrite Z.mod_1_r.
  - rewrite IH, Nat2Z.inj_succ, Z.pow_succ_r by lia.
    rewrite Z.rem_mul_r; lia.
Qed.

Lemma le_val_range l : wf_bytes l → 0 <= le_val l < 256 ^ zlen l.
Proof.
  unfold zlen. induction 1 as [|b l Hb _ IH]; cbn [le_val length]; [lia|].
  rewrite Nat2Z.inj_succ, Z.pow_succ_r by lia. unfold is_byte in Hb. lia.
Qed.

Lemma le_bytes_mod n z : le_bytes n (z mod 256 ^ Z.of_nat n) = le_bytes n z.
Proof.
  revert z. induction n as [|n IH]; intros z; cbn [le_bytes]; [done|].
  rewrite Nat2Z.inj_succ, Z.pow_succ_r by lia. rewrite Z.rem_mul_r by lia.
  f_equal.
  - rewrite (Z.mul_comm 256), Z.mod_add by lia. apply Z.mod_mod. lia.
  - rewrite (Z.mul_comm 256), Z.div_add by lia.
    rewrite (Z.div_small (z mod 256)) by (apply Z.mod_pos_bound; lia).
    rewrite Z.add_0_l. apply IH.
Qed.

Lemma le_val_app l1 l2 : le_val (l1 ++ l2) = le_val l1 + 256 ^ zlen l1 * le_val l2.
Proof.
  unfold zlen. induction l1 as [|b l1 IH]; cbn [le_val app length]; [lia|].
  rewrite IH, Nat2Z.inj_succ, Z.pow_succ_r by lia. lia.
Qed.

(** ** Lists indexed by machine integers *)

Lemma zlen_nonneg {A} (l : list A) : 0 <= zlen l.
Proof. unfold zlen. lia. Qed.

Lemma zlen_app {A} (l1 l2 : list A) : zlen (l1 ++ l2) = zlen l1 + zlen l2.
Proof. unfold zlen. rewrite length_app. lia. Qed.

Lemma zlen_cons {A} (x : A) l : zlen (x :: l) = 1 + zlen l.
Proof. unfold zlen. cbn [length]. lia. Qed.

Lemma zlen_nil {A} : zlen (@nil A) = 0.
Proof. done. Qed.

Lemma zlen_zero {A} (l : list A) : zlen l = 0 → l = [].
Proof. destruct l; [done|]. rewrite zlen_cons. pose proof (zlen_nonneg l). lia. Qed.

Lemma zlen_ztake {A} n (l : list A) : 0 <= n <= zlen l → zlen (ztake n l) = n.
Proof. unfold zlen, ztake. rewrite length_take. lia. Qed.

Lemma zlen_ztake_le {A} n (l : list A) : 0 <= n → zlen (ztake n l) <= n.
Proof. unfold zlen, ztake. rewrite length_take. lia. Qed.

Lemma zlen_zdrop {A} n (l : list A) : 0 <= n <= zlen l → zlen (zdrop n l) = zlen l - n.
Proof. unfold zlen, zdrop. rewrite length_drop. lia. Qed.

Lemma ztake_zdrop {A} n (l : list A) : ztake n l ++ zdrop n l = l.
Proof. apply take_drop. Qed.

Lemma ztake_app_le {A} n (l1 l2 : list A) : n <= zlen l1 → ztake n (l1 ++ l2) = ztake n l1.
Proof. unfold zlen, ztake. intros. apply take_app_le. lia. Qed.

Lemma ztake_app_eq {A} n (l1 l2 : list A) : n = zlen l1 → ztake n (l1 ++ l2) = l1.
Proof. unfold zlen, ztake. intros ->. rewrite Nat2Z.id. apply take_app_length. Qed.

Lemma ztake_all {A} n (l : list A) : zlen l <= n → ztake n l = l.
Proof. unfold zlen, ztake. intros. apply take_ge. lia. Qed.

Lemma zdrop_app_eq {A} n (l1 l2 : list A) : n = zlen l1 → zdrop n (l1 ++ l2) = l2.
Proof. unfold zlen, zdrop. intros ->. rewrite Nat2Z.id. apply drop_app_length. Qed.

Lemma zdrop_app_le {A} n (l1 l2 : list A) :
  n <= zlen l1 → zdrop n (l1 ++ l2) = zdrop n l1 ++ l2.
Proof. unfold zlen, zdrop. intros. apply drop_app_le. lia. Qed.

Lemma zdrop_0 {A} (l : list A) : zdrop 0 l = l.
Proof. done. Qed.

Lemma zdrop_all {A} n (l : list A) : zlen l <= n → zdrop n l = [].
Proof. unfold zlen, zdrop. intros. apply drop_ge. lia. Qed.

Lemma zdrop_zdrop {A} n m (l : list A) :
  0 <= n → 0 <= m → zdrop n (zdrop m l) = zdrop (m + n) l.
Proof. unfold zdrop. intros. rewrite drop_drop. f_equal. lia. Qed.

Lemma ztake_ztake {A} n m (l : list A) : n <= m → ztake n (ztake m l) = ztake n l.
Proof. unfold ztake. intros. rewrite take_take. f_equal. lia. Qed.

Lemma zdrop_ztake {A} n m (l : list A) :
  0 <= n → 0 <= m → zdrop n (ztake (n + m) l) = ztake m (zdrop n l).
Proof.
  unfold ztake, zdrop. intros.
  replace (Z.to_nat (n + m)) with (Z.to_nat n + Z.to_nat m)%nat by lia.
  by rewrite <- take_drop_commute.
Qed.

Lemma wf_bytes_app l1 l2 : wf_bytes (l1 ++ l2) ↔ wf_bytes l1 ∧ wf_bytes l2.
Proof. apply Forall_app. Qed.

Lemma wf_bytes_ztake n l : wf_bytes l → wf_bytes (ztake n l).
Proof. apply Forall_take. Qed.

Lemma wf_bytes_zdrop n l : wf_bytes l → wf_bytes (zdrop n l).
Proof. apply Forall_drop. Qed.

#[export] Hint Resolve wf_bytes_ztake wf_bytes_zdrop le_bytes_wf zlen_nonneg : pss.
#[export] Hint Rewrite @zlen_app @zlen_cons @zlen_nil : pss_len.

(** Solve length side conditions. *)
Ltac zlen_solve :=
  autorewrite with pss_len in *;
  repeat match goal with
  | |- context [zlen (ztake ?n ?l)] => rewrite (zlen_ztake n l) by zlen_solve
  | |- context [zlen (zdrop ?n ?l)] => rewrite (zlen_zdrop n l) by zlen_solve
  | |- context [zlen (le_bytes ?n ?z)] => unfold zlen; rewrite (length_le_bytes n z)
  end; unfold zlen in *; lia.

Lemma zlen_le_bytes n z : zlen (le_bytes n z) = Z.of_nat n.
Proof. unfold zlen. by rewrite length_le_bytes. Qed.

Lemma mem_read_ok m pos n :
  0 <= pos → 0 <= n → pos + n <= zlen m → mem_read m pos n = Ok (ztake n (zdrop pos m)).
Proof.
  intros. unfold mem_read.
  rewrite (proj2 (Z.leb_le _ _)), (proj2 (Z.leb_le 0 n)), (proj2 (Z.leb_le (pos + n) _)) by lia.
  done.
Qed.

Lemma mem_read_fault m pos n : zlen m < pos + n → mem_read m pos n = Fault.
Proof.
  intros. unfold mem_read. rewrite (proj2 (Z.leb_gt (pos + n) _)) by lia.
  by rewrite andb_false_r.
Qed.

Lemma mem_read_app_middle l1 l2 l3 :
  mem_read (l1 ++ l2 ++ l3) (zlen l1) (zlen l2) = Ok l2.
Proof.
  rewrite mem_read_ok; autorewrite with pss_len; try pose proof (zlen_nonneg l3); auto with pss; try lia.
  by rewrite zdrop_app_eq, ztake_app_eq.
Qed.

(** ** Text and bytes *)

Definition bytes_of_string (s : string) : list Z :=
  map (fun a => Z.of_N (Ascii.N_of_ascii a)) (String.list_ascii_of_string s).

(** [prefix_b p l]: [p] is a prefix of [l]. *)
Fixpoint prefix_b (p l : list Z) : bool :=
  match p, l with
  | [], _ => true
  | _ :: _, [] => false
  | a :: p, b :: l => (a =? b) && prefix_b p l
  end.

(** [find_sub p l]: [std::string::find], the first position where [p] occurs in [l]. *)
Fixpoint find_sub (p l : list Z) : option nat :=
  if prefix_b p l then Some O
  else match l with
       | [] => None
       | _ :: l => option_map S (find_sub p l)
       end.

(** The characters a [const char*] argument denotes: those before the first NUL. *)
Fixpoint c_str (l : list Z) : list Z :=
  match l with
  | [] => []
  | b :: l => if b =? 0 then [] else b :: c_str l
  end.

Lemma prefix_b_spec p l : prefix_b p l = true ↔ ∃ r, l = p ++ r.
Proof.
  revert l. induction p as [|a p IH]; intros l; simpl; [naive_solver|].
  destruct l as [|b l]; [naive_solver|]. rewrite andb_true_iff, IH, Z.eqb_eq. naive_solver.
Qed.

Lemma find_sub_Some p l n :
  find_sub p l = Some n → ∃ r, l = take n l ++ p ++ r ∧ (n <= length l)%nat.
Proof.
  revert n. induction l as [|b l IH]; intros n; simpl; destruct (prefix_b p _) eqn:E.
  - intros [= <-]. apply prefix_b_spec in E as [r E]. exists r. split; [exact E|lia].
  - done.
  - intros [= <-]. apply prefix_b_spec in E as [r E]. exists r. split; [exact E|lia].
  - destruct (find_sub p l) as [m|] eqn:F; [|done]. intros [= <-].
    destruct (IH m eq_refl) as (r & Hr & Hm). exists r. simpl. rewrite <- Hr. split; [done|lia].
Qed.

Lemma find_sub_length p l n : find_sub p l = Some n → (n + length p <= length l)%nat.
Proof.
  intros H. apply find_sub_Some in H as (r & E & Hn). apply (f_equal length) in E.
  rewrite !length_app, length_take in E. lia.
Qed.

(** The position found is the first one: no earlier suffix starts with [p]. *)
Lemma find_sub_first_char b l n : find_sub [b] l = Some n → b ∉ take n l.
Proof.
  revert n. induction l as [|a l IH]; intros n; cbn [find_sub prefix_b]; [done|].
  rewrite andb_true_r. destruct (Z.eqb_spec b a) as [->|Hne].
  - intros [= <-]. simpl. apply not_elem_of_nil.
  - destruct (find_sub [b] l) as [m|] eqn:F; [|done]. intros [= <-]. cbn [take].
    rewrite not_elem_of_cons. split; [done|]. by apply IH.
Qed.

Lemma find_sub_char_None b l : find_sub [b] l = None ↔ b ∉ l.
Proof.
  induction l as [|a l IH]; cbn [find_sub prefix_b].
  - split; [intros _; apply not_elem_of_nil|done].
  - rewrite andb_true_r, not_elem_of_cons. destruct (Z.eqb_spec b a) as [->|Hne].
    + naive_solver.
    + destruct (find_sub [b] l); simpl; naive_solver.
Qed.

(** ** Properties of all bytes by evaluation *)

Definition all_bytes : list Z := map Z.of_nat (seq 0 256).

Lemma byte_forall (P : Z → bool) : forallb P all_bytes = true → ∀ b, is_byte b → P b = true.
Proof.
  intros H b Hb. rewrite forallb_forall in H. apply H. unfold all_bytes, is_byte in *.
  apply in_map_iff. exists (Z.to_nat b). split; [lia|]. apply in_seq. lia.
Qed.

(** An equation between functions of one byte, checked on the 256 values. *)
Lemma byte_eq (f g : Z → Z) :
  forallb (fun b => f b =? g b) all_bytes = true → ∀ b, is_byte b → f b = g b.
Proof. intros H b Hb. apply Z.eqb_eq. by apply (byte_forall _ H). Qed.

(** Induction on lists three (four) elements at a time. *)
Lemma list_ind3 {A} (P : list A → Prop) :
  P [] → (∀ a, P [a]) → (∀ a b, P [a; b]) →
  (∀ a b c l, P l → P (a :: b :: c :: l)) → ∀ l, P l.
Proof.
  intros H0 H1 H2 H3. fix IH 1. intros [|a [|b [|c l]]]; [done|apply H1|apply H2|].
  apply H3, IH.
Qed.

(** ** Field update

    [r <| f := v |>] is the record [r] with the field [f] changed; the setter of a field is found
    by instance search and reduces by [cbn] to the constructor applied to the fields. *)

Class Field {R E : Type} (getter : R → E) := set_field : (E → E) → R → R.
Arguments set_field {R E} getter {Field} _ _ /.

Ltac field_setter R getter :=
  let etaR := eta R in
  lazymatch eval pattern getter in etaR with
  | ?updateR _ =>
      let u := eval cbv beta in (fun f => updateR (fun r => f (getter r))) in exact u
  end.
#[export] Hint Extern 1 (@Field ?R ?E ?getter) => field_setter R getter : typeclass_instances.

Notation "r <| f := v |>" := (set_field f (λ _, v) r)
  (at level 12, left associativity, f at level 10, v at level 200, format "r  <| f  :=  v |>").

(** ** The entries of an ordered map, in the order of their keys *)

Definition entry_le {A} (x y : Z * A) : Prop := x.1 <= y.1.
#[export] Instance entry_le_dec {A} : RelDecision (entry_le (A:=A)).
Proof. intros x y. unfold entry_le. apply _. Defined.

Definition map_entries {A} (m : gmap Z A) : list (Z * A) := merge_sort entry_le (map_to_list m).

Lemma map_entries_perm {A} (m : gmap Z A) : map_entries m ≡ₚ map_to_list m.
Proof. apply merge_sort_Permutation. Qed.

Lemma elem_of_map_entries {A} (m : gmap Z A) k x : (k, x) ∈ map_entries m ↔ m !! k = Some x.
Proof. rewrite map_entries_perm. apply elem_of_map_to_list. Qed.

Lemma map_entries_keys_NoDup {A} (m : gmap Z A) : NoDup (map fst (map_entries m)).
Proof. rewrite map_entries_perm. apply NoDup_fst_map_to_list. Qed.
