(* ===== verification/Define.v ===== *)
(** * Shared types and constants (src/Common/define.h)

    The enumerations, the value classes passed between components, the reserved command
    ids and the string helper every plugin uses. *)

From Stdlib Require Import ZArith Lia.
From S2P Require Import Prelude.
From stdpp Require Import base numbers list gmap strings.
Local Open Scope Z_scope.

(** ** Enumerations *)

Inductive ENUM_IO_BRIDGE_TYPE :=
| IO_BRIDGE_BATH | IO_BRIDGE_FROM | IO_BRIDGE_TO | IO_BRIDGE_NONE.

Inductive ENUM_WHILE_STATE := WHILE_STATE_CONTINUE | WHILE_STATE_BREAK.

Inductive EM_CONNECT_IO_TYPE :=
| CONNECT_IO_TCP | CONNECT_IO_UDP | CONNECT_IO_KCP | CONNECT_IO_TTY | CONNECT_IO_SSL
| CONNECT_IO_SERVER_TCP | CONNECT_IO_SERVER_UDP | CONNECT_IO_FRAME
| COMMAND_UPDATE | WORKTHREAD_CLOSE.

Inductive EM_NET_TYPE := NET_TYPE_POINT_TO_POINT | NET_TYPE_BROADCAST.

Inductive EM_SESSION_STATE := SESSION_IO_LOGIC | SESSION_IO_BRIDGE.

#[export] Instance ENUM_IO_BRIDGE_TYPE_eq_dec : EqDecision ENUM_IO_BRIDGE_TYPE.
Proof. solve_decision. Defined.
#[export] Instance EM_CONNECT_IO_TYPE_eq_dec : EqDecision EM_CONNECT_IO_TYPE.
Proof. solve_decision. Defined.
#[export] Instance EM_NET_TYPE_eq_dec : EqDecision EM_NET_TYPE.
Proof. solve_decision. Defined.
#[export] Instance EM_SESSION_STATE_eq_dec : EqDecision EM_SESSION_STATE.
Proof. solve_decision. Defined.

(** ** Value classes *)

Record CConfigNetIO := mkConfigNetIO {
  ip_ : string;
  port_ : Z;                       (* io_port_type = uint16_t *)
  protocol_type_ : EM_CONNECT_IO_TYPE;
  packet_parse_id_ : Z;
  recv_buff_size_ : Z;
  send_buff_size_ : Z;
  ssl_server_password_ : string;
  ssl_server_pem_file_ : string;
  ssl_dh_pem_file_ : string;
  em_net_type_ : EM_NET_TYPE;
}.

Definition CConfigNetIO_default : CConfigNetIO :=
  mkConfigNetIO EmptyString 0 CONNECT_IO_TCP 0 1024 1024 EmptyString EmptyString EmptyString
    NET_TYPE_POINT_TO_POINT.

Record ClientIPInfo := mkClientIPInfo {
  m_strClientIP : string;
  m_u2Port : Z;                    (* uint16 *)
}.

Definition ClientIPInfo_default : ClientIPInfo := mkClientIPInfo "unset ip" 0.

#[export] Instance ClientIPInfo_eq_dec : EqDecision ClientIPInfo.
Proof. solve_decision. Defined.

Record CMessage_Source := mkSource {
  work_thread_id_ : Z;             (* uint16 *)
  connect_id_ : Z;                 (* uint32 *)
  connect_mark_id_ : Z;            (* uint32 *)
  type_ : EM_CONNECT_IO_TYPE;
  local_ip_ : ClientIPInfo;
  remote_ip_ : ClientIPInfo;
}.

Definition CMessage_Source_default : CMessage_Source :=
  mkSource 0 0 0 CONNECT_IO_SERVER_TCP ClientIPInfo_default ClientIPInfo_default.

Record CMessage_Packet := mkPacket {
  param_arg_ : list string;
  pbuffer_ : list Z;               (* buffer_, as bytes *)
  command_id_ : Z;                 (* uint16 *)
}.

Record CFrame_Message_Delay := mkDelay {
  delay_seconds_ : Z;
  timer_id_ : Z;                   (* uint64 *)
}.

Record CConnect_IO_Info := mkConnectIOInfo {
  server_id : Z;                   (* uint32 *)
  server_ip : string;
  server_port : Z;
  client_ip : string;
  client_port : Z;
  packet_parse_id : Z;
  recv_size : Z;
  send_size : Z;
  client_pem_file : string;
  is_need_reconnect : bool;
}.

(** ** Reserved command ids *)

Definition LOGIC_COMMAND_CONNECT : Z := 1.
Definition LOGIC_COMMAND_DISCONNECT : Z := 2.
Definition LOGIC_CONNECT_SERVER_ERROR : Z := 3.
Definition LOGIC_LISTEN_SERVER_ERROR : Z := 4.
Definition LOGIC_THREAD_DEAD_LOCK : Z := 5.
Definition LOGIC_THREAD_WRITE_IO_ERROR : Z := 6.
Definition LOGIC_IOTOIO_CONNECT_NO_EXIST : Z := 7.
Definition LOGIC_IOTOIO_DATA_ERROR : Z := 8.
Definition LOGIC_MAX_FRAME_COMMAND : Z := 16.

(** ** [_ClientIPInfo] comparison operators *)

Definition ClientIPInfo_eqb (a b : ClientIPInfo) : bool :=
  String.eqb (m_strClientIP a) (m_strClientIP b) && (m_u2Port a =? m_u2Port b).

Definition ClientIPInfo_ltb (a b : ClientIPInfo) : bool :=
  if String.ltb (m_strClientIP a) (m_strClientIP b) then true
  else if String.ltb (m_strClientIP b) (m_strClientIP a) then false
  else if m_u2Port a <? m_u2Port b then true
  else false.

Definition ClientIPInfo_gtb (a b : ClientIPInfo) : bool :=
  if String.ltb (m_strClientIP b) (m_strClientIP a) then true
  else if String.ltb (m_strClientIP a) (m_strClientIP b) then false
  else if m_u2Port b <? m_u2Port a then true
  else false.

(** ** [string_split]

    The loop of the source; [fuel] bounds the iterations ([S (length srcStr)] is enough,
    each iteration drops at least one character).  [substr(nPos + 1)] throws when the
    position is past the end, which is the [Fault] below. *)
Fixpoint string_split_loop (fuel : nat) (strtmp delim : list Z) (vec : list (list Z))
  : outcome (list (list Z)) :=
  match fuel with
  | O => Fault
  | S fuel =>
      match find_sub (c_str delim) strtmp with
      | Some nPos =>
          if Nat.leb (S nPos) (length strtmp)
          then string_split_loop fuel (drop (S nPos) strtmp) delim (vec ++ [take nPos strtmp])
          else Fault
      | None => Ok (vec ++ [strtmp])
      end
  end.

Definition string_split (srcStr delim : list Z) : outcome (list (list Z)) :=
  string_split_loop (S (length srcStr)) srcStr delim [].

(** [join d ps]: the pieces with [d] between them. *)
Fixpoint join (d : Z) (ps : list (list Z)) : list Z :=
  match ps with
  | [] => []
  | [p] => p
  | p :: ps => p ++ d :: join d ps
  end.

Lemma join_cons d p ps : ps ≠ [] → join d (p :: ps) = p ++ d :: join d ps.
Proof. by destruct ps. Qed.

Lemma string_split_loop_char fuel d : ∀ s vec,
  d ≠ 0 → (length s < fuel)%nat →
  ∃ ps, string_split_loop fuel s [d] vec = Ok (vec ++ ps) ∧ ps ≠ [] ∧
        join d ps = s ∧ Forall (fun p => d ∉ p) ps.
Proof.
  induction fuel as [|fuel IH]; intros s vec Hd Hf; [lia|]. cbn [string_split_loop c_str].
  destruct (Z.eqb_spec d 0); [done|].
  destruct (find_sub [d] s) as [n1|] eqn:F.
  - pose proof (find_sub_length _ _ _ F) as Hlen. simpl in Hlen.
    rewrite (proj2 (Nat.leb_le _ _)) by lia.
    destruct (IH (drop (S n1) s) (vec ++ [take n1 s])) as (ps & E & Hne & Hj & Hall);
      [done|rewrite length_drop; lia|].
    exists (take n1 s :: ps). split; [rewrite E; by rewrite <- app_assoc|].
    split; [done|]. split.
    + rewrite join_cons, Hj by done.
      destruct (find_sub_Some _ _ _ F) as (r & Hs & _).
      rewrite Hs at 3. f_equal. simpl. f_equal.
      rewrite Hs, drop_app_ge; rewrite length_take; [|lia].
      replace (S n1 - n1 `min` length s)%nat with 1%nat by lia. done.
    + constructor; [by apply find_sub_first_char|done].
  - exists [s]. split; [done|]. split; [done|]. split; [done|].
    constructor; [by apply find_sub_char_None|constructor].
Qed.

Lemma ClientIPInfo_eqb_spec a b : ClientIPInfo_eqb a b = true ↔ a = b.
Proof.
  unfold ClientIPInfo_eqb. rewrite andb_true_iff, String.eqb_eq, Z.eqb_eq.
  destruct a, b; naive_solver.
Qed.

Lemma string_ltb_antisym s t : String.ltb s t = true → String.ltb t s = false.
Proof.
  unfold String.ltb. rewrite (String.compare_antisym t s).
  destruct (String.compare s t); simpl; congruence.
Qed.

Lemma string_ltb_total s t :
  String.ltb s t = true ∨ String.ltb t s = true ∨ s = t.
Proof.
  unfold String.ltb. rewrite (String.compare_antisym t s).
  destruct (String.compare s t) eqn:E; simpl; auto.
  apply String.compare_eq_iff in E. auto.
Qed.

Lemma string_ltb_irrefl s : String.ltb s s = false.
Proof. destruct (String.ltb s s) eqn:E; [|done]. by rewrite (string_ltb_antisym _ _ E) in E. Qed.

Lemma ascii_compare_trans a b c :
  Ascii.compare a b = Lt → Ascii.compare b c = Lt → Ascii.compare a c = Lt.
Proof. unfold Ascii.compare. rewrite !N.compare_lt_iff. lia. Qed.

Lemma string_compare_trans s : ∀ t u,
  String.compare s t = Lt → String.compare t u = Lt → String.compare s u = Lt.
Proof.
  induction s as [|a s IH]; intros [|b t] [|c u]; simpl; try done.
  destruct (Ascii.compare a b) eqn:Eab, (Ascii.compare b c) eqn:Ebc; try done; intros H1 H2.
  - apply Ascii.compare_eq_iff in Eab as ->. rewrite Ebc. eauto.
  - apply Ascii.compare_eq_iff in Eab as ->. by rewrite Ebc.
  - apply Ascii.compare_eq_iff in Ebc as ->. by rewrite Eab.
  - by rewrite (ascii_compare_trans _ _ _ Eab Ebc).
Qed.

Lemma string_ltb_trans s t u :
  String.ltb s t = true → String.ltb t u = true → String.ltb s u = true.
Proof.
  unfold String.ltb. destruct (String.compare s t) eqn:E1, (String.compare t u) eqn:E2;
    try done; intros _ _. by rewrite (string_compare_trans _ _ _ E1 E2).
Qed.

Lemma ClientIPInfo_ltb_alt a b :
  ClientIPInfo_ltb a b = true ↔
    String.ltb (m_strClientIP a) (m_strClientIP b) = true ∨
    m_strClientIP a = m_strClientIP b ∧ m_u2Port a < m_u2Port b.
Proof.
  unfold ClientIPInfo_ltb. destruct (string_ltb_total (m_strClientIP a) (m_strClientIP b)) as [E|[E|E]].
  - rewrite E. naive_solver.
  - rewrite (string_ltb_antisym _ _ E), E. split; [done|]. intros [?|[He _]]; [done|].
    by rewrite He, string_ltb_irrefl in E.
  - rewrite E, !string_ltb_irrefl. destruct (Z.ltb_spec (m_u2Port a) (m_u2Port b)); naive_solver lia.
Qed.

Lemma ClientIPInfo_gtb_flip a b : ClientIPInfo_gtb a b = ClientIPInfo_ltb b a.
Proof. done. Qed.

(** ** Properties *)

(** Splitting on a one-character delimiter loses nothing: the pieces joined with the
    delimiter are the source string, and no piece contains the delimiter. *)
Theorem string_split_char_roundtrip s d :
  d ≠ 0 →
  ∃ ps, string_split s [d] = Ok ps ∧ join d ps = s ∧ Forall (fun p => d ∉ p) ps ∧ ps ≠ [].
Proof.
  intros Hd. unfold string_split.
  destruct (string_split_loop_char (S (length s)) d s [] Hd) as (ps & E & ? & ? & ?); [lia|].
  eauto.
Qed.

Lemma string_split_char_roundtrip_witness :
  ∃ ps, string_split [49; 44; 44; 50] [44] = Ok ps ∧ join 44 ps = [49; 44; 44; 50] ∧
        Forall (fun p => 44 ∉ p) ps ∧ ps ≠ [].
Proof. apply (string_split_char_roundtrip [49; 44; 44; 50] 44). lia. Defined.

(** [_ClientIPInfo]'s [<] is a strict total order whose equivalence is [==], and [>] is
    its converse, so the class is a valid ordered-container key. *)
Theorem ClientIPInfo_strict_total_order a b c :
  ClientIPInfo_ltb a a = false ∧
  (ClientIPInfo_ltb a b = true → ClientIPInfo_ltb b c = true → ClientIPInfo_ltb a c = true) ∧
  (ClientIPInfo_ltb a b = true ∨ ClientIPInfo_eqb a b = true ∨ ClientIPInfo_ltb b a = true) ∧
  (ClientIPInfo_ltb a b = true → ClientIPInfo_ltb b a = false ∧ ClientIPInfo_eqb a b = false) ∧
  ClientIPInfo_gtb a b = ClientIPInfo_ltb b a.
Proof.
  assert (Hirr : ∀ x, ClientIPInfo_ltb x x = false).
  { intros x. unfold ClientIPInfo_ltb. by rewrite string_ltb_irrefl, Z.ltb_irrefl. }
  assert (Htr : ∀ x y z, ClientIPInfo_ltb x y = true → ClientIPInfo_ltb y z = true →
                         ClientIPInfo_ltb x z = true).
  { intros x y z. rewrite !ClientIPInfo_ltb_alt.
    intros [H1|[E1 H1]] [H2|[E2 H2]]; rewrite ?E1, <- ?E2; eauto using string_ltb_trans.
    right. split; [done|lia]. }
  split_and!; auto; try exact (Htr a b c).
  - rewrite ClientIPInfo_eqb_spec, !ClientIPInfo_ltb_alt.
    destruct (string_ltb_total (m_strClientIP a) (m_strClientIP b)) as [?|[?|E]]; auto.
    destruct (Z.lt_total (m_u2Port a) (m_u2Port b)) as [?|[E2|?]]; auto.
    right; left. destruct a, b; simpl in *; congruence.
  - intros H. split; apply not_true_iff_false.
    + intros H2. pose proof (Htr _ _ _ H H2) as H3. by rewrite Hirr in H3.
    + intros ->%ClientIPInfo_eqb_spec. by rewrite Hirr in H.
Qed.
