(* ===== verification/SessionBuffer.v ===== *)
(** * CSessionBuffer (src/Common/SessionBuffer.hpp)

    The fixed-size receive/send buffer of a session: an allocation of [max_buff_size_]
    bytes whose first [write_size_] bytes are valid.  The abstract view of a buffer is the
    byte queue [contents]; the theorems show that the operations implement a bounded
    queue whose producer is the socket and whose consumer is the packet parser. *)

From S2P Require Import Prelude.
From Stdlib Require Import ZArith Lia.
From stdpp Require Import base numbers list.

Local Open Scope Z_scope.

Record CSessionBuffer := mkSessionBuffer {
  buffer_ : list Z;          (* the allocation [buffer_.get()] points to *)
  write_size_ : Z;           (* size_t *)
  max_buff_size_ : Z;        (* size_t *)
}.

(** [CSessionBuffer() = default]: no allocation yet. *)
Definition CSessionBuffer_default : CSessionBuffer := mkSessionBuffer [] 0 0.

(** [Init]: [new char[_size]] gives memory of indeterminate content, here [junk]. *)
Definition Init (junk : nat → Z) (_size : Z) : CSessionBuffer :=
  mkSessionBuffer (map junk (seq 0 (Z.to_nat _size))) 0 _size.

Definition set_write_data (b : CSessionBuffer) (length : Z) : bool * CSessionBuffer :=
  if max_buff_size_ b <? write_size_ b +u64 length then (false, b)
  else (true, mkSessionBuffer (buffer_ b) (write_size_ b +u64 length) (max_buff_size_ b)).

(** [get_curr_write_ptr]: an offset into the allocation. *)
Definition get_curr_write_ptr (b : CSessionBuffer) : Z := write_size_ b.

Definition get_buffer_size (b : CSessionBuffer) : Z := max_buff_size_ b -u64 write_size_ b.

(** [read]: the start of the allocation. *)
Definition read (b : CSessionBuffer) : list Z := buffer_ b.

Definition get_write_size (b : CSessionBuffer) : Z := write_size_ b.

(** [move]: the second branch is a [memmove] of the live tail to the front. *)
Definition move (b : CSessionBuffer) (_length : Z) : outcome CSessionBuffer :=
  if write_size_ b <=? _length
  then Ok (mkSessionBuffer (buffer_ b) 0 (max_buff_size_ b))
  else
    let move_length := write_size_ b -u64 _length in
    let* live := mem_read (buffer_ b) _length move_length in
    let* mem := mem_write (buffer_ b) 0 live in
    Ok (mkSessionBuffer mem move_length (max_buff_size_ b)).

(** ** What a read completion or a [memcpy] at the write pointer does: the bytes land at
    [get_curr_write_ptr()] and [set_write_data] accounts for them. *)
Definition recv_into (b : CSessionBuffer) (data : list Z) : outcome (bool * CSessionBuffer) :=
  let* mem := mem_write (buffer_ b) (get_curr_write_ptr b) data in
  Ok (set_write_data (mkSessionBuffer mem (write_size_ b) (max_buff_size_ b)) (zlen data)).

(** ** Abstract view and invariant *)

Definition contents (b : CSessionBuffer) : list Z := ztake (write_size_ b) (buffer_ b).

Record wf (b : CSessionBuffer) : Prop := {
  wf_len : zlen (buffer_ b) = max_buff_size_ b;
  wf_write : 0 <= write_size_ b <= max_buff_size_ b;
  wf_max : max_buff_size_ b < 2 ^ 63;
}.

Lemma contents_len b : wf b → zlen (contents b) = write_size_ b.
Proof. intros [? ? ?]. unfold contents. apply zlen_ztake. lia. Qed.

Lemma buffer_split b : buffer_ b = contents b ++ zdrop (write_size_ b) (buffer_ b).
Proof. symmetry. apply ztake_zdrop. Qed.

Lemma Init_wf junk n : 0 <= n < 2 ^ 63 → wf (Init junk n) ∧ contents (Init junk n) = [].
Proof.
  intros Hn. split; [split|]; unfold Init; simpl; try done; try lia.
  unfold zlen. rewrite length_map, length_seq. lia.
Qed.

Lemma get_buffer_size_wf b : wf b → get_buffer_size b = max_buff_size_ b - zlen (contents b).
Proof. intros H. rewrite contents_len by done. destruct H. unfold get_buffer_size. mach. Qed.

(** What a read into the free part of the buffer can bring. *)
Lemma fit_le b (d : list Z) : wf b → zlen (ztake (get_buffer_size b) d) <= get_buffer_size b.
Proof. intros Hb. apply zlen_ztake_le. rewrite get_buffer_size_wf, contents_len by done. destruct Hb. lia. Qed.

Lemma set_write_data_wf b n :
  wf b → 0 <= n < 2 ^ 63 →
  set_write_data b n =
    if max_buff_size_ b <? write_size_ b + n then (false, b)
    else (true, mkSessionBuffer (buffer_ b) (write_size_ b + n) (max_buff_size_ b)).
Proof.
  intros [? ? ?] ?. unfold set_write_data.
  assert (write_size_ b +u64 n = write_size_ b + n) as -> by mach. done.
Qed.

(** Receiving [data] that fits appends it to the queue. *)
Lemma recv_into_fits b data :
  wf b → zlen data <= get_buffer_size b →
  ∃ b', recv_into b data = Ok (true, b') ∧ wf b' ∧
        contents b' = contents b ++ data ∧ max_buff_size_ b' = max_buff_size_ b.
Proof.
  intros Hwf Hfit. rewrite get_buffer_size_wf, contents_len in Hfit by done.
  pose proof Hwf as [Hl Hw Hm]. pose proof (zlen_nonneg data).
  unfold recv_into, get_curr_write_ptr, mem_write.
  rewrite (proj2 (Z.leb_le 0 _)), (proj2 (Z.leb_le (_ + _) _)) by lia. simpl.
  set (mem := ztake (write_size_ b) (buffer_ b) ++ data ++ _).
  assert (Hmem : zlen mem = max_buff_size_ b).
  { unfold mem. autorewrite with pss_len.
    rewrite zlen_ztake, zlen_zdrop by lia. lia. }
  rewrite set_write_data_wf; [|split; simpl; lia|lia]. simpl.
  rewrite (proj2 (Z.ltb_ge _ _)) by lia. eexists; split; [done|]. split; [split; simpl; lia|].
  split; [|done]. unfold contents; simpl. unfold mem. rewrite app_assoc.
  rewrite ztake_app_eq; [done|].
  autorewrite with pss_len. rewrite zlen_ztake; lia.
Qed.

(** Data that does not fit is written past the end of the memory. *)
Lemma recv_into_overflow b data : wf b → get_buffer_size b < zlen data → recv_into b data = Fault.
Proof.
  intros Hwf Hfit. rewrite get_buffer_size_wf, contents_len in Hfit by done. pose proof Hwf as [Hl Hw Hm].
  unfold recv_into, get_curr_write_ptr, mem_write. rewrite (proj2 (Z.leb_gt (_ + _) _)) by lia. by rewrite andb_false_r.
Qed.

(** Consuming [n] bytes drops them from the front of the queue; asking for more than is
    there empties it. *)
Lemma move_contents b n :
  wf b → 0 <= n →
  ∃ b', move b n = Ok b' ∧ wf b' ∧ contents b' = zdrop n (contents b) ∧
        max_buff_size_ b' = max_buff_size_ b.
Proof.
  intros Hwf Hn. pose proof Hwf as [Hl Hw Hm]. unfold move.
  destruct (write_size_ b <=? n) eqn:E.
  - apply Z.leb_le in E. eexists; split; [done|]. split; [split; simpl; lia|]. split; [|done].
    rewrite zdrop_all; [done|]. rewrite contents_len; done.
  - apply Z.leb_gt in E. assert (write_size_ b -u64 n = write_size_ b - n) as -> by mach.
    rewrite mem_read_ok by lia. simpl. unfold mem_write.
    rewrite (zlen_ztake (write_size_ b - n)) by (rewrite zlen_zdrop; lia).
    rewrite (proj2 (Z.leb_le (0 + _) _)) by lia. simpl.
    eexists; split; [done|]. split; [split; simpl|].
    + autorewrite with pss_len. rewrite !zlen_ztake, zlen_zdrop; try rewrite zlen_zdrop; lia.
    + lia.
    + lia.
    + split; [|done]. unfold contents; simpl.
      rewrite ztake_app_eq by (rewrite zlen_ztake; [done|]; rewrite zlen_zdrop; lia).
      rewrite <- zdrop_ztake by lia. do 2 f_equal. lia.
Qed.

(** ** The bounded byte queue the buffer implements *)

Inductive buf_op :=
| Recv (data : list Z)        (* a read completion of [zlen data] bytes *)
| Consume (n : Z).            (* [move(n)] after parsing *)

Definition spec_step (cap : Z) (q : list Z) (o : buf_op) : option (list Z) :=
  match o with
  | Recv d => if zlen q + zlen d <=? cap then Some (q ++ d) else None
  | Consume n => if 0 <=? n then Some (zdrop n q) else None
  end.

Definition impl_step (b : CSessionBuffer) (o : buf_op) : outcome CSessionBuffer :=
  match o with
  | Recv d => let* r := recv_into b d in if fst r : bool then Ok (snd r) else Fault
  | Consume n => move b n
  end.

Fixpoint spec_run (cap : Z) (q : list Z) (os : list buf_op) : option (list Z) :=
  match os with
  | [] => Some q
  | o :: os => match spec_step cap q o with Some q' => spec_run cap q' os | None => None end
  end.

Fixpoint impl_run (b : CSessionBuffer) (os : list buf_op) : outcome CSessionBuffer :=
  match os with
  | [] => Ok b
  | o :: os => let* b' := impl_step b o in impl_run b' os
  end.

Lemma impl_step_simulates b o q :
  wf b → spec_step (max_buff_size_ b) (contents b) o = Some q →
  ∃ b', impl_step b o = Ok b' ∧ wf b' ∧ contents b' = q ∧
        max_buff_size_ b' = max_buff_size_ b.
Proof.
  intros Hwf. destruct o as [d|n]; simpl; intros H; case_match; simplify_eq.
  - destruct (recv_into_fits b d) as (b' & E & ? & ? & ?); [done| |].
    + rewrite get_buffer_size_wf by done. lia.
    + rewrite E. simpl. eauto.
  - apply move_contents; [done|lia].
Qed.

Lemma impl_run_simulates os : ∀ b q,
  wf b → spec_run (max_buff_size_ b) (contents b) os = Some q →
  ∃ b', impl_run b os = Ok b' ∧ wf b' ∧ contents b' = q ∧
        max_buff_size_ b' = max_buff_size_ b.
Proof.
  induction os as [|o os IH]; simpl; intros b q Hwf H; [simplify_eq; eauto|].
  case_match eqn:E; [|done].
  destruct (impl_step_simulates b o _ Hwf E) as (b1 & -> & Hwf1 & <- & Hm). simpl.
  rewrite <- Hm in H. destruct (IH _ _ Hwf1 H) as (b2 & -> & ? & ? & ?).
  exists b2. rewrite <- Hm. eauto.
Qed.

(** ** Properties *)

(** C10: started from [Init], a session buffer driven by any sequence of read completions
    and [move]s behaves as a bounded byte queue: it never touches memory outside its
    allocation, holds exactly the queued bytes and reports the free space exactly. *)
Theorem session_buffer_refines_queue junk cap os q :
  0 <= cap < 2 ^ 63 → spec_run cap [] os = Some q →
  ∃ b, impl_run (Init junk cap) os = Ok b ∧ wf b ∧ contents b = q ∧
       get_buffer_size b = cap - zlen q.
Proof.
  intros Hcap Hs. destruct (Init_wf junk cap Hcap) as [Hwf He].
  destruct (impl_run_simulates os (Init junk cap) q Hwf) as (b & ? & Hb & <- & Hm);
    [by rewrite He|].
  exists b. split_and!; try done. by rewrite get_buffer_size_wf, Hm.
Qed.

Lemma session_buffer_refines_queue_witness :
  ∃ b, impl_run (Init (fun _ => 0) 8) [Recv [1; 2; 3; 4; 5]; Consume 2; Recv [6; 7; 8; 9; 10]] = Ok b ∧
       wf b ∧ contents b = [3; 4; 5; 6; 7; 8; 9; 10] ∧ get_buffer_size b = 0.
Proof.
  apply (session_buffer_refines_queue (fun _ => 0) 8
           [Recv [1; 2; 3; 4; 5]; Consume 2; Recv [6; 7; 8; 9; 10]]
           [3; 4; 5; 6; 7; 8; 9; 10]); [lia|reflexivity].
Defined.
