(* ===== verification/ReadWriteBuffer.v ===== *)
(** * CReadBuffer and CWriteBuffer (src/Common/ReadBuffer.hpp, src/Common/WriteBuffer.hpp)

    The typed readers and writers plugins use to (de)serialise message bodies.
    [BYTE_SORT_SWITCH_STATE] is [BYTE_SORT_SWITCH_OFF] in define.h, so the byte-order
    branches are compiled out: [is_net_sort_] is stored and never consulted.
    A [float]/[double] is carried as its 32/64-bit representation. *)

From Stdlib Require Import ZArith Lia.
From S2P Require Import Prelude.
From stdpp Require Import base numbers list strings.
Local Open Scope Z_scope.

(** ** CReadBuffer *)
Module Reader.

Record CReadBuffer := mkRead {
  buffer_ : list Z;        (* the pointed-to [std::string] *)
  read_ptr_ : Z;           (* uint32 *)
  write_ptr_ : Z;          (* uint32 *)
  is_net_sort_ : bool;
}.

(** [CReadBuffer(buffer)] and [append(buffer)]; the constructor starts at offset 0, while
    [append] keeps the current [read_ptr_]. *)
Definition CReadBuffer_new (buffer : list Z) : CReadBuffer :=
  mkRead buffer 0 (u32 (zlen buffer)) false.

Definition append (r : CReadBuffer) (buffer : list Z) : CReadBuffer :=
  mkRead buffer (read_ptr_ r) (u32 (zlen buffer)) (is_net_sort_ r).

Definition set_net_sort (r : CReadBuffer) (net_sort : bool) : CReadBuffer :=
  mkRead (buffer_ r) (read_ptr_ r) (write_ptr_ r) net_sort.

Definition advance (r : CReadBuffer) (n : Z) : CReadBuffer :=
  mkRead (buffer_ r) (read_ptr_ r +u32 n) (write_ptr_ r) (is_net_sort_ r).

(** [c_str() + read_ptr_]: the bytes of the string and its terminating NUL. *)
Definition c_str_mem (r : CReadBuffer) : list Z := buffer_ r ++ [0].

Definition remaining (r : CReadBuffer) : Z := write_ptr_ r -u32 read_ptr_ r.

(** The pattern shared by the fixed-width extraction operators: [n] bytes are copied when
    the unsigned difference of the pointers allows it, else the value stays 0. *)
Definition read_raw (r : CReadBuffer) (n : nat) : outcome (Z * CReadBuffer) :=
  if Z.of_nat n <=? remaining r
  then let* bs := mem_read (c_str_mem r) (read_ptr_ r) (Z.of_nat n) in
       Ok (le_val bs, advance r (Z.of_nat n))
  else Ok (0, r).

Definition read_uint8 (r : CReadBuffer) : outcome (Z * CReadBuffer) := read_raw r 1.
Definition read_uint16 (r : CReadBuffer) : outcome (Z * CReadBuffer) := read_raw r 2.
Definition read_uint32 (r : CReadBuffer) : outcome (Z * CReadBuffer) := read_raw r 4.
Definition read_uint64 (r : CReadBuffer) : outcome (Z * CReadBuffer) := read_raw r 8.
Definition read_int8 (r : CReadBuffer) : outcome (Z * CReadBuffer) :=
  let* x := read_raw r 1 in Ok (i8 (fst x), snd x).
Definition read_int16 (r : CReadBuffer) : outcome (Z * CReadBuffer) :=
  let* x := read_raw r 2 in Ok (i16 (fst x), snd x).
Definition read_int32 (r : CReadBuffer) : outcome (Z * CReadBuffer) :=
  let* x := read_raw r 4 in Ok (i32 (fst x), snd x).
Definition read_int64 (r : CReadBuffer) : outcome (Z * CReadBuffer) :=
  let* x := read_raw r 8 in Ok (i64 (fst x), snd x).
Definition read_float32 (r : CReadBuffer) : outcome (Z * CReadBuffer) := read_raw r 4.
Definition read_float64 (r : CReadBuffer) : outcome (Z * CReadBuffer) := read_raw r 8.

(** [operator >> (std::string&)]: a 32-bit length and that many bytes; [str] is the value
    the destination had, kept when nothing is read. *)
Definition read_string (r : CReadBuffer) (str : list Z) : outcome (list Z * CReadBuffer) :=
  let* x := read_uint32 r in
  let u4Len := fst x in
  let r := snd x in
  if negb (u4Len =? 0) && (u4Len <=? remaining r)
  then let* bs := mem_read (c_str_mem r) (read_ptr_ r) u4Len in
       Ok (bs, advance r u4Len)
  else Ok (str, r).

(** [read_data]: returns the bytes copied to the front of [data] ([None]: nothing copied
    because the destination is too small). *)
Definition read_data (r : CReadBuffer) (size length : Z)
  : outcome (option (list Z) * CReadBuffer) :=
  if size <? length then Ok (None, r)
  else
    let length := if remaining r <? length then remaining r else length in
    let* bs := mem_read (c_str_mem r) (read_ptr_ r) length in
    Ok (Some bs, advance r length).

(** [read_data_to_string]: [length] is an [int]; a negative one other than -1 reaches
    [std::string::append] as a huge size and throws. *)
Definition read_data_to_string (r : CReadBuffer) (data : list Z) (length : Z)
  : outcome (list Z * CReadBuffer) :=
  let length := if length =? -1 then i32 (remaining r) else length in
  let length := if i32 (remaining r) <? length then i32 (remaining r) else length in
  let* bs := mem_read (c_str_mem r) (read_ptr_ r) length in
  Ok (data ++ bs, advance r length).

(** [read_offset]: in the negative branch the sum is unsigned, and the pointer is then
    moved by [-= offset_size]. *)
Definition read_offset (r : CReadBuffer) (offset_size : Z) : bool * CReadBuffer :=
  if (offset_size <=? i32 (remaining r)) && (0 <? offset_size)
  then (true, advance r offset_size)
  else if offset_size <? 0
  then if 0 <? read_ptr_ r +u32 offset_size
       then (true, mkRead (buffer_ r) (read_ptr_ r -u32 offset_size) (write_ptr_ r) (is_net_sort_ r))
       else (true, mkRead (buffer_ r) 0 (write_ptr_ r) (is_net_sort_ r))
  else (false, r).

End Reader.

(** ** CWriteBuffer *)
Module Writer.

Record CWriteBuffer := mkWrite {
  buffer_ : list Z;        (* the pointed-to [std::string] *)
  write_ptr_ : Z;          (* uint32 *)
  is_net_sort_ : bool;
}.

Definition CWriteBuffer_new (buffer : list Z) : CWriteBuffer :=
  mkWrite buffer (u32 (zlen buffer)) false.

Definition append (w : CWriteBuffer) (buffer : list Z) : CWriteBuffer :=
  mkWrite buffer (u32 (zlen buffer)) (is_net_sort_ w).

Definition set_net_sort (w : CWriteBuffer) (net_sort : bool) : CWriteBuffer :=
  mkWrite (buffer_ w) (write_ptr_ w) net_sort.

(** [buffer_->append((char* )&data, n); write_ptr_ += n]. *)
Definition write_raw (w : CWriteBuffer) (n : nat) (z : Z) : CWriteBuffer :=
  mkWrite (buffer_ w ++ le_bytes n z) (write_ptr_ w +u32 Z.of_nat n) (is_net_sort_ w).

Definition write_uint8 (w : CWriteBuffer) (z : Z) : CWriteBuffer := write_raw w 1 z.
Definition write_uint16 (w : CWriteBuffer) (z : Z) : CWriteBuffer := write_raw w 2 z.
Definition write_uint32 (w : CWriteBuffer) (z : Z) : CWriteBuffer := write_raw w 4 z.
Definition write_uint64 (w : CWriteBuffer) (z : Z) : CWriteBuffer := write_raw w 8 z.
Definition write_int8 (w : CWriteBuffer) (z : Z) : CWriteBuffer := write_raw w 1 z.
Definition write_int16 (w : CWriteBuffer) (z : Z) : CWriteBuffer := write_raw w 2 z.
Definition write_int32 (w : CWriteBuffer) (z : Z) : CWriteBuffer := write_raw w 4 z.
Definition write_int64 (w : CWriteBuffer) (z : Z) : CWriteBuffer := write_raw w 8 z.
Definition write_float32 (w : CWriteBuffer) (z : Z) : CWriteBuffer := write_raw w 4 z.
Definition write_float64 (w : CWriteBuffer) (z : Z) : CWriteBuffer := write_raw w 8 z.

(** [operator << (std::string&)]: the last statement adds [sizeof(str.length())], the size
    of a [size_t] (8), not the length. *)
Definition write_string (w : CWriteBuffer) (str : list Z) : CWriteBuffer :=
  let w := write_uint32 w (u32 (zlen str)) in
  mkWrite (buffer_ w ++ str) (write_ptr_ w +u32 8) (is_net_sort_ w).

(** [write_data(data, size)]; [size] bytes are read from the array [data]. *)
Definition write_data (w : CWriteBuffer) (data : list Z) (size : Z) : outcome CWriteBuffer :=
  let* bs := mem_read data 0 size in
  Ok (mkWrite (buffer_ w ++ bs) (write_ptr_ w +u32 size) (is_net_sort_ w)).

Definition write_data_from_string (w : CWriteBuffer) (data : list Z) : CWriteBuffer :=
  mkWrite (buffer_ w ++ data) (write_ptr_ w +u32 u32 (zlen data)) (is_net_sort_ w).

End Writer.

(** Unfold the fixed-width extraction operators to [read_raw]. *)
Ltac unfold_reads :=
  unfold Reader.read_uint8, Reader.read_uint16, Reader.read_uint32, Reader.read_uint64,
    Reader.read_int8, Reader.read_int16, Reader.read_int32, Reader.read_int64,
    Reader.read_float32, Reader.read_float64 in *.

(** ** Invariant of a reader whose pointer never went backwards *)

Record rwf (r : Reader.CReadBuffer) : Prop := {
  rwf_size : zlen (Reader.buffer_ r) < 2 ^ 32;
  rwf_write : Reader.write_ptr_ r = zlen (Reader.buffer_ r);
  rwf_read : 0 <= Reader.read_ptr_ r <= Reader.write_ptr_ r;
  rwf_bytes : wf_bytes (Reader.buffer_ r);
}.

(** The unread suffix of the buffer. *)
Definition unread (r : Reader.CReadBuffer) : list Z := zdrop (Reader.read_ptr_ r) (Reader.buffer_ r).

Lemma rwf_new buf : zlen buf < 2 ^ 32 → wf_bytes buf → rwf (Reader.CReadBuffer_new buf).
Proof.
  intros H Hb. pose proof (zlen_nonneg buf). unfold Reader.CReadBuffer_new.
  rewrite u32_small by lia. split; cbn [Reader.buffer_ Reader.write_ptr_ Reader.read_ptr_]; (done || lia).
Qed.

Lemma unread_wf r : rwf r → wf_bytes (unread r).
Proof. intros []. unfold unread. auto with pss. Qed.

Lemma remaining_wf r : rwf r → Reader.remaining r = zlen (unread r).
Proof.
  intros [? ? ? ?]. unfold Reader.remaining, unread. rewrite zlen_zdrop by lia. mach.
Qed.

Lemma advance_wf r n : rwf r → 0 <= n <= Reader.remaining r →
  rwf (Reader.advance r n) ∧ unread (Reader.advance r n) = zdrop n (unread r).
Proof.
  intros Hr Hn. rewrite remaining_wf in Hn by done. destruct Hr as [? ? ? ?].
  unfold unread in Hn. rewrite zlen_zdrop in Hn by lia. split.
  - unfold Reader.advance. rewrite u32_small by lia. split; cbn; done || lia.
  - unfold unread; simpl. rewrite u32_small by lia. by rewrite zdrop_zdrop by lia.
Qed.

Lemma reader_mem_read r n : rwf r → 0 <= n <= Reader.remaining r →
  mem_read (Reader.c_str_mem r) (Reader.read_ptr_ r) n = Ok (ztake n (unread r)).
Proof.
  intros Hr Hn. rewrite remaining_wf in Hn by done. destruct Hr as [? ? ? ?].
  unfold unread in *. rewrite zlen_zdrop in Hn by lia. unfold Reader.c_str_mem.
  rewrite mem_read_ok; [|lia|lia|autorewrite with pss_len; lia].
  rewrite zdrop_app_le by lia. rewrite ztake_app_le; [done|]. rewrite zlen_zdrop; lia.
Qed.

(** Every fixed-width read of a well-formed reader succeeds: with enough bytes left it
    decodes and consumes them, otherwise it yields 0 and consumes nothing. *)
Lemma read_raw_spec r n : rwf r →
  ∃ v r', Reader.read_raw r n = Ok (v, r') ∧ rwf r' ∧
    if Z.of_nat n <=? zlen (unread r)
    then v = le_val (ztake (Z.of_nat n) (unread r)) ∧ unread r' = zdrop (Z.of_nat n) (unread r)
    else v = 0 ∧ r' = r.
Proof.
  intros Hr. unfold Reader.read_raw. rewrite remaining_wf by done.
  destruct (Z.of_nat n <=? zlen (unread r)) eqn:E; [|by eauto 10].
  apply Z.leb_le in E. rewrite <- remaining_wf in E by done.
  rewrite reader_mem_read by (done || lia). simpl.
  destruct (advance_wf r (Z.of_nat n) Hr) as [? ?]; [lia|]. eauto 8.
Qed.

Lemma read_raw_prefix r n bs post : rwf r → unread r = bs ++ post → zlen bs = Z.of_nat n →
  ∃ r', Reader.read_raw r n = Ok (le_val bs, r') ∧ rwf r' ∧ unread r' = post.
Proof.
  intros Hr Hu Hl. destruct (read_raw_spec r n Hr) as (v & r' & E & Hr' & Hif).
  rewrite Hu in Hif. autorewrite with pss_len in Hif. pose proof (zlen_nonneg post).
  rewrite (proj2 (Z.leb_le _ _)) in Hif by lia. destruct Hif as [-> Hu'].
  rewrite ztake_app_eq in E by lia. rewrite zdrop_app_eq in Hu' by lia. eauto.
Qed.

Lemma read_raw_nonneg r n v r' : rwf r → Reader.read_raw r n = Ok (v, r') → 0 <= v.
Proof.
  intros Hr E. destruct (read_raw_spec r n Hr) as (v' & r1 & E' & _ & Hif).
  rewrite E in E'. simplify_eq. case_match; destruct Hif as [-> _]; [|lia].
  apply le_val_range, wf_bytes_ztake, unread_wf, Hr.
Qed.

Lemma read_string_total r str : rwf r →
  ∃ s r', Reader.read_string r str = Ok (s, r') ∧ rwf r'.
Proof.
  intros Hr. unfold Reader.read_string, Reader.read_uint32.
  destruct (read_raw_spec r 4 Hr) as (v & r1 & E & Hr1 & _).
  pose proof (read_raw_nonneg _ _ _ _ Hr E). rewrite E. simpl.
  case_match eqn:Hc; [|by eauto].
  apply andb_true_iff in Hc as [_ Hc]. apply Z.leb_le in Hc.
  rewrite reader_mem_read by (done || lia). simpl.
  destruct (advance_wf r1 v Hr1) as [? _]; [lia|]. eauto.
Qed.

Lemma read_data_total r size length : rwf r → 0 <= length →
  ∃ d r', Reader.read_data r size length = Ok (d, r') ∧ rwf r'.
Proof.
  intros Hr Hl. unfold Reader.read_data. case_match; [by eauto|].
  pose proof (remaining_wf r Hr) as Hrem. pose proof (zlen_nonneg (unread r)).
  set (n := if _ <? _ then _ else _).
  assert (0 <= n <= Reader.remaining r) as Hn
    by (unfold n; destruct (Z.ltb_spec (Reader.remaining r) length); lia).
  rewrite reader_mem_read by done. simpl. destruct (advance_wf r n Hr Hn). eauto.
Qed.

Lemma read_data_to_string_total r data length :
  rwf r → zlen (Reader.buffer_ r) < 2 ^ 31 → -1 <= length →
  ∃ d r', Reader.read_data_to_string r data length = Ok (d, r') ∧ rwf r'.
Proof.
  intros Hr Hs Hl. unfold Reader.read_data_to_string.
  pose proof (remaining_wf r Hr) as Hrem. pose proof (zlen_nonneg (unread r)).
  assert (zlen (unread r) <= zlen (Reader.buffer_ r)).
  { destruct Hr. unfold unread. rewrite zlen_zdrop; lia. }
  assert (i32 (Reader.remaining r) = Reader.remaining r) as -> by mach.
  set (n0 := if length =? -1 then _ else _). set (n := if _ <? n0 then _ else n0).
  assert (0 <= n <= Reader.remaining r) as Hn.
  { unfold n, n0. destruct (Z.eqb_spec length (-1)); case_match; lia. }
  rewrite reader_mem_read by done. simpl. destruct (advance_wf r n Hr Hn). eauto.
Qed.

(** ** Messages as sequences of typed fields *)

Inductive ntype := TU8 | TU16 | TU32 | TU64 | TI8 | TI16 | TI32 | TI64 | TF32 | TF64.

Inductive ftype := FNum (t : ntype) | FStr.
Inductive value := VNum (t : ntype) (z : Z) | VStr (s : list Z).

Definition type_of (v : value) : ftype := match v with VNum t _ => FNum t | VStr _ => FStr end.

Definition write_num (t : ntype) : Writer.CWriteBuffer → Z → Writer.CWriteBuffer :=
  match t with
  | TU8 => Writer.write_uint8 | TU16 => Writer.write_uint16
  | TU32 => Writer.write_uint32 | TU64 => Writer.write_uint64
  | TI8 => Writer.write_int8 | TI16 => Writer.write_int16
  | TI32 => Writer.write_int32 | TI64 => Writer.write_int64
  | TF32 => Writer.write_float32 | TF64 => Writer.write_float64
  end.

Definition read_num (t : ntype) : Reader.CReadBuffer → outcome (Z * Reader.CReadBuffer) :=
  match t with
  | TU8 => Reader.read_uint8 | TU16 => Reader.read_uint16
  | TU32 => Reader.read_uint32 | TU64 => Reader.read_uint64
  | TI8 => Reader.read_int8 | TI16 => Reader.read_int16
  | TI32 => Reader.read_int32 | TI64 => Reader.read_int64
  | TF32 => Reader.read_float32 | TF64 => Reader.read_float64
  end.

Definition write_value (w : Writer.CWriteBuffer) (v : value) : Writer.CWriteBuffer :=
  match v with VNum t z => write_num t w z | VStr s => Writer.write_string w s end.

(** Fields are read into fresh variables (a default-constructed string is empty). *)
Definition read_value (r : Reader.CReadBuffer) (t : ftype) : outcome (value * Reader.CReadBuffer) :=
  match t with
  | FNum t => let* x := read_num t r in Ok (VNum t (fst x), snd x)
  | FStr => let* x := Reader.read_string r [] in Ok (VStr (fst x), snd x)
  end.

Fixpoint read_values (r : Reader.CReadBuffer) (ts : list ftype)
  : outcome (list value * Reader.CReadBuffer) :=
  match ts with
  | [] => Ok ([], r)
  | t :: ts => let* x := read_value r t in
               let* y := read_values (snd x) ts in Ok (fst x :: fst y, snd y)
  end.

Definition nsize (t : ntype) : nat :=
  match t with
  | TU8 | TI8 => 1 | TU16 | TI16 => 2 | TU32 | TI32 | TF32 => 4 | TU64 | TI64 | TF64 => 8
  end.

Definition is_signed (t : ntype) : bool :=
  match t with TI8 | TI16 | TI32 | TI64 => true | _ => false end.

(** The values a C++ variable of the type can hold. *)
Definition value_ok (v : value) : Prop :=
  match v with
  | VNum t z => (if is_signed t then fits_s else fits_u) (8 * Z.of_nat (nsize t)) z
  | VStr s => wf_bytes s
  end.

Definition encode (v : value) : list Z :=
  match v with
  | VNum t z => le_bytes (nsize t) z
  | VStr s => le_bytes 4 (u32 (zlen s)) ++ s
  end.

Definition encode_all (vs : list value) : list Z := concat (map encode vs).

Lemma write_value_buffer w v :
  Writer.buffer_ (write_value w v) = Writer.buffer_ w ++ encode v.
Proof.
  destruct v as [t z|s]; [by destruct t|]. simpl. by rewrite <- !app_assoc.
Qed.

Lemma write_values_buffer vs w :
  Writer.buffer_ (fold_left write_value vs w) = Writer.buffer_ w ++ encode_all vs.
Proof.
  revert w. induction vs as [|v vs IH]; intros w; simpl; [by rewrite app_nil_r|].
  rewrite IH, write_value_buffer. unfold encode_all. cbn [map concat]. by rewrite app_assoc.
Qed.

Lemma encode_wf v : value_ok v → wf_bytes (encode v).
Proof.
  destruct v as [t z|s]; cbn [encode value_ok]; [auto with pss|]. intros.
  apply wf_bytes_app. auto with pss.
Qed.

Lemma encode_all_wf vs : Forall value_ok vs → wf_bytes (encode_all vs).
Proof.
  induction 1; [constructor|]. unfold encode_all. cbn [map concat].
  apply wf_bytes_app. auto using encode_wf.
Qed.

Lemma le_val_le_bytes_small n z : 0 <= z < 256 ^ Z.of_nat n → le_val (le_bytes n z) = z.
Proof. intros. rewrite le_val_le_bytes. by apply Z.mod_small. Qed.

Lemma read_num_encode r t z post :
  rwf r → value_ok (VNum t z) → unread r = le_bytes (nsize t) z ++ post →
  ∃ r', read_num t r = Ok (z, r') ∧ rwf r' ∧ unread r' = post.
Proof.
  intros Hr Hok Hu.
  destruct (read_raw_prefix r (nsize t) _ post Hr Hu) as (r' & E & Hr' & Hu');
    [apply zlen_le_bytes|]. rewrite le_val_le_bytes in E.
  exists r'. split; [|done]. destruct t; cbn [value_ok is_signed nsize] in Hok, E;
    cbn [read_num];
    unfold_reads;
    rewrite E; cbn [obind fst snd]; do 2 f_equal; mach.
Qed.

Lemma read_string_encode r s post :
  rwf r → wf_bytes s → unread r = encode (VStr s) ++ post →
  ∃ r', Reader.read_string r [] = Ok (s, r') ∧ rwf r' ∧ unread r' = post.
Proof.
  intros Hr Hs Hu. cbn [encode] in Hu. rewrite <- app_assoc in Hu.
  assert (zlen s < 2 ^ 32) as Hlen.
  { destruct Hr as [? ? ? _]. apply (f_equal zlen) in Hu. unfold unread in Hu.
    rewrite zlen_zdrop in Hu by lia. autorewrite with pss_len in Hu.
    rewrite zlen_le_bytes in Hu. pose proof (zlen_nonneg post). lia. }
  pose proof (zlen_nonneg s). rewrite u32_small in Hu by lia.
  destruct (read_raw_prefix r 4 _ _ Hr Hu) as (r1 & E & Hr1 & Hu1); [apply zlen_le_bytes|].
  rewrite le_val_le_bytes_small in E by (cbn; lia).
  unfold Reader.read_string, Reader.read_uint32. rewrite E. cbn [obind fst snd].
  rewrite remaining_wf, Hu1 by done. autorewrite with pss_len. pose proof (zlen_nonneg post).
  rewrite (proj2 (Z.leb_le (zlen s) _)), andb_true_r by lia.
  destruct (Z.eqb_spec (zlen s) 0) as [E0|E0]; simpl.
  - apply zlen_zero in E0 as ->. eauto.
  - assert (0 <= zlen s <= Reader.remaining r1).
    { rewrite remaining_wf, Hu1 by done. autorewrite with pss_len. lia. }
    rewrite reader_mem_read, Hu1, ztake_app_eq by done. simpl.
    destruct (advance_wf r1 (zlen s) Hr1) as [? Hu2]; [done|].
    rewrite Hu1, zdrop_app_eq in Hu2 by done. eauto.
Qed.

Lemma read_value_encode r v post :
  rwf r → value_ok v → unread r = encode v ++ post →
  ∃ r', read_value r (type_of v) = Ok (v, r') ∧ rwf r' ∧ unread r' = post.
Proof.
  intros Hr Hok Hu. destruct v as [t z|s]; cbn [read_value type_of].
  - destruct (read_num_encode r t z post Hr Hok Hu) as (r' & -> & ? & ?). simpl. eauto.
  - destruct (read_string_encode r s post Hr Hok Hu) as (r' & -> & ? & ?). simpl. eauto.
Qed.

Lemma read_values_encode vs : ∀ r post,
  rwf r → Forall value_ok vs → unread r = encode_all vs ++ post →
  ∃ r', read_values r (map type_of vs) = Ok (vs, r') ∧ rwf r' ∧ unread r' = post.
Proof.
  induction vs as [|v vs IH]; intros r post Hr Hok Hu; [by simpl; eauto|].
  inversion Hok; subst. unfold encode_all in Hu. cbn [map concat] in Hu.
  rewrite <- app_assoc in Hu. cbn [read_values map].
  destruct (read_value_encode r v _ Hr ltac:(done) Hu) as (r1 & -> & Hr1 & Hu1).
  cbn [obind snd fst]. destruct (IH r1 post Hr1 ltac:(done) Hu1) as (r2 & -> & ? & ?).
  simpl. eauto.
Qed.

(** ** Arbitrary uses of a reader *)

Inductive read_op :=
| RValue (t : ftype)
| RData (size length : Z)
| RToString (length : Z)
| ROffset (n : Z).

Definition run_read_op (r : Reader.CReadBuffer) (o : read_op) : outcome Reader.CReadBuffer :=
  match o with
  | RValue t => let* x := read_value r t in Ok (snd x)
  | RData size length => let* x := Reader.read_data r size length in Ok (snd x)
  | RToString length => let* x := Reader.read_data_to_string r [] length in Ok (snd x)
  | ROffset n => Ok (snd (Reader.read_offset r n))
  end.

Fixpoint run_read_ops (r : Reader.CReadBuffer) (os : list read_op) : outcome Reader.CReadBuffer :=
  match os with
  | [] => Ok r
  | o :: os => let* r := run_read_op r o in run_read_ops r os
  end.

(** The uses the buffer is safe for: forward offsets, sizes that are sizes. *)
Definition read_op_ok (o : read_op) : Prop :=
  match o with
  | RValue _ => True
  | RData _ length => 0 <= length
  | RToString length => -1 <= length
  | ROffset n => 0 <= n
  end.

Lemma read_value_total r t : rwf r → ∃ v r', read_value r t = Ok (v, r') ∧ rwf r'.
Proof.
  intros Hr. destruct t as [t|]; cbn [read_value].
  - destruct (read_raw_spec r (nsize t) Hr) as (v & r' & E & ? & _).
    destruct t; cbn [read_num nsize] in *;
      unfold_reads; rewrite E; simpl; eauto.
  - destruct (read_string_total r [] Hr) as (s & r' & -> & ?). simpl. eauto.
Qed.

Lemma read_offset_forward r n : rwf r → zlen (Reader.buffer_ r) < 2 ^ 31 → 0 <= n →
  rwf (snd (Reader.read_offset r n)).
Proof.
  intros Hr Hs Hn. unfold Reader.read_offset. pose proof (remaining_wf r Hr) as Hrem.
  assert (zlen (unread r) <= zlen (Reader.buffer_ r)).
  { destruct Hr. unfold unread. rewrite zlen_zdrop; lia. }
  pose proof (zlen_nonneg (unread r)).
  assert (i32 (Reader.remaining r) = Reader.remaining r) as -> by mach.
  destruct (_ && _) eqn:E; simpl.
  - apply andb_true_iff in E as [E%Z.leb_le _]. by apply advance_wf.
  - by rewrite (proj2 (Z.ltb_ge n 0)) by lia.
Qed.

Lemma read_op_buffer r o r' : run_read_op r o = Ok r' → Reader.buffer_ r' = Reader.buffer_ r.
Proof.
  assert (Hraw : ∀ n v r1, Reader.read_raw r n = Ok (v, r1) → Reader.buffer_ r1 = Reader.buffer_ r).
  { intros n v r1. unfold Reader.read_raw. case_match; [|naive_solver].
    unfold mem_read. case_match; naive_solver. }
  destruct o as [[t|]|size len|len|n]; simpl.
  - intros E. destruct t; cbn in E;
      unfold_reads;
      (destruct (Reader.read_raw r _) as [[v r1]|] eqn:E1; [|done]); cbn in E; simplify_eq;
      eapply Hraw, E1.
  - unfold Reader.read_string, Reader.read_uint32.
    destruct (Reader.read_raw r 4) as [[v r1]|] eqn:E; [|done]. apply Hraw in E. simpl.
    case_match; [|naive_solver]. unfold mem_read. case_match; naive_solver.
  - unfold Reader.read_data. case_match; [naive_solver|]. unfold mem_read. case_match; naive_solver.
  - unfold Reader.read_data_to_string, mem_read. case_match; naive_solver.
  - unfold Reader.read_offset. repeat case_match; naive_solver.
Qed.

Lemma read_op_step r o : rwf r → zlen (Reader.buffer_ r) < 2 ^ 31 → read_op_ok o →
  ∃ r', run_read_op r o = Ok r' ∧ rwf r'.
Proof.
  intros Hr Hs Ho. destruct o as [t|size len|len|n]; cbn [run_read_op read_op_ok] in *.
  - destruct (read_value_total r t Hr) as (v & r' & -> & ?). simpl. eauto.
  - destruct (read_data_total r size len Hr Ho) as (d & r' & -> & ?). simpl. eauto.
  - destruct (read_data_to_string_total r [] len Hr Hs Ho) as (d & r' & -> & ?). simpl. eauto.
  - eauto using read_offset_forward.
Qed.

(** ** Properties *)

(** C21: a message written field by field with [CWriteBuffer] is read back unchanged, and
    completely, by the matching sequence of [CReadBuffer] extractions. *)
Theorem read_write_roundtrip vs :
  Forall value_ok vs → zlen (encode_all vs) < 2 ^ 32 →
  ∃ r', read_values
          (Reader.CReadBuffer_new
             (Writer.buffer_ (fold_left write_value vs (Writer.CWriteBuffer_new []))))
          (map type_of vs) = Ok (vs, r') ∧ unread r' = [].
Proof.
  intros Hok Hlen. rewrite write_values_buffer. simpl.
  destruct (read_values_encode vs (Reader.CReadBuffer_new (encode_all vs)) [])
    as (r' & ? & ? & ?); [| |by rewrite app_nil_r|eauto].
  - apply rwf_new; [done|]. by apply encode_all_wf.
  - done.
Qed.

Definition demo_fields : list value :=
  [VNum TU8 200; VNum TI16 (-2); VStr [104; 105]; VNum TF64 4614253070214989087; VStr []].

Lemma read_write_roundtrip_witness :
  ∃ r', read_values
          (Reader.CReadBuffer_new
             (Writer.buffer_ (fold_left write_value demo_fields (Writer.CWriteBuffer_new []))))
          (map type_of demo_fields) = Ok (demo_fields, r') ∧ unread r' = [].
Proof.
  apply (read_write_roundtrip demo_fields).
  - repeat constructor; cbn; unfold is_byte; lia.
  - vm_compute. reflexivity.
Defined.

(** A reader over any byte string shorter than 2^31 never accesses memory outside the
    string, whatever sequence of extractions, bounded copies and forward offsets it is
    used for and whatever lengths the bytes claim. *)
Theorem reader_memory_safe buf os :
  wf_bytes buf → zlen buf < 2 ^ 31 → Forall read_op_ok os →
  ∃ r', run_read_ops (Reader.CReadBuffer_new buf) os = Ok r' ∧ rwf r' ∧ Reader.buffer_ r' = buf.
Proof.
  intros Hb Hl Hos. assert (Hr : rwf (Reader.CReadBuffer_new buf)) by (apply rwf_new; [lia|done]).
  assert (He : Reader.buffer_ (Reader.CReadBuffer_new buf) = buf) by done. revert Hr He.
  generalize (Reader.CReadBuffer_new buf). induction Hos as [|o os Ho _ IH]; intros r Hr He;
    cbn [run_read_ops]; [eauto|].
  destruct (read_op_step r o Hr) as (r1 & E & Hr1); [by rewrite He|done|].
  rewrite E. apply IH; [done|]. by rewrite (read_op_buffer _ _ _ E).
Qed.

Lemma reader_memory_safe_witness :
  ∃ r', run_read_ops (Reader.CReadBuffer_new [255; 255; 255; 255; 7])
          [RValue FStr; ROffset 9; RToString (-1); RValue (FNum TU64)] = Ok r' ∧ rwf r' ∧
        Reader.buffer_ r' = [255; 255; 255; 255; 7].
Proof.
  apply (reader_memory_safe [255; 255; 255; 255; 7]
           [RValue FStr; ROffset 9; RToString (-1); RValue (FNum TU64)]).
  - repeat constructor; unfold is_byte; lia.
  - vm_compute. reflexivity.
  - repeat constructor; cbn; lia.
Defined.

(** A negative [read_offset] that does not land exactly on offset 0 moves the read
    pointer forward by the amount it was asked to go back. *)
Theorem read_offset_negative_moves_forward r n :
  rwf r → n < 0 → Reader.read_ptr_ r + n ≠ 0 → Reader.read_ptr_ r - n < 2 ^ 32 → - 2 ^ 31 <= n →
  Reader.read_ptr_ (snd (Reader.read_offset r n)) = Reader.read_ptr_ r - n.
Proof.
  intros Hr Hn Hne Hmax Hmin. destruct Hr as [? ? ? _]. unfold Reader.read_offset.
  rewrite (proj2 (Z.ltb_ge 0 n)), andb_false_r by lia. rewrite (proj2 (Z.ltb_lt n 0)) by lia.
  rewrite (proj2 (Z.ltb_lt 0 _)) by mach. cbn [snd Reader.read_ptr_]. mach.
Qed.

Lemma read_offset_negative_moves_forward_witness :
  Reader.read_ptr_ (snd (Reader.read_offset (Reader.mkRead [1; 2; 3; 4; 5; 6] 5 6 false) (-2))) = 7.
Proof.
  rewrite (read_offset_negative_moves_forward (Reader.mkRead [1; 2; 3; 4; 5; 6] 5 6 false) (-2));
    [reflexivity| |lia|cbn; lia|cbn; lia|lia].
  split; cbn; try lia; try done. repeat constructor; unfold is_byte; lia.
Defined.
