(* ===== verification/PacketInterface.v ===== *)
(** * The default packet parser (src/PacketParse_Interface/PacketParse_Interface.cpp)

    Splits the receive buffer of a session into packets: a 40-byte header (version 2,
    command id 2, body length 4, session 32) followed by the body. *)

From Stdlib Require Import ZArith Lia.
From S2P Require Import Prelude Define SessionBuffer.
From stdpp Require Import base numbers list.
Local Open Scope Z_scope.

(** [is_need_send_format] and [parse_packet_format_send_buffer] of this plugin. *)
Definition is_need_send_format : bool := false.
Definition parse_packet_format_send_buffer (message : CMessage_Packet) : option CMessage_Packet := None.

(** The header fields the parser uses, decoded from 40 bytes. *)
Definition hdr_command_id (hdr : list Z) : Z := le_val (ztake 2 (zdrop 2 hdr)).
Definition hdr_body_length (hdr : list Z) : Z := le_val (ztake 4 (zdrop 4 hdr)).

Definition parse_result : Type := bool * CSessionBuffer * list CMessage_Packet.

(** [buffer->move(pos); break;] then [return true]. *)
Definition stop_at (buffer : CSessionBuffer) (pos : Z) (message_list : list CMessage_Packet)
  : outcome parse_result :=
  let* b := move buffer pos in Ok (true, b, message_list).

(** The [while (true)] of [parse_packet_from_recv_buffer_stream]: [packet_pos] is a
    [uint32], [buff_length] a [size_t].  [None]: the fuel ran out. *)
Fixpoint stream_loop (fuel : nat) (buffer : CSessionBuffer) (packet_pos buff_length : Z)
    (message_list : list CMessage_Packet) : option (outcome parse_result) :=
  match fuel with
  | O => None
  | S fuel =>
      if buff_length <? 40 then Some (stop_at buffer packet_pos message_list)
      else
        match mem_read (read buffer) packet_pos 40 with
        | Fault => Some Fault
        | Ok hdr =>
            let command_id := hdr_command_id hdr in
            let packet_body_length := hdr_body_length hdr in
            if 1024000 <=? packet_body_length then Some (Ok (false, buffer, message_list))
            else if packet_body_length =? 0 then
              stream_loop fuel buffer (packet_pos +u32 40) (buff_length -u64 40)
                (message_list ++ [mkPacket [] hdr command_id])
            else if buff_length <? packet_body_length
            then Some (stop_at buffer packet_pos message_list)
            else
              match mem_read (read buffer) packet_pos (40 + packet_body_length) with
              | Fault => Some Fault
              | Ok data =>
                  let curr_packet_size := 40 +u32 packet_body_length in
                  stream_loop fuel buffer (packet_pos +u32 curr_packet_size)
                    (buff_length -u64 curr_packet_size)
                    (message_list ++ [mkPacket [] data command_id])
              end
        end
  end.

(** Enough iterations: each one advances by at least 40 bytes of the allocation. *)
Definition stream_fuel (buffer : CSessionBuffer) : nat := S (Z.to_nat (max_buff_size_ buffer)).

Definition parse_packet_from_recv_buffer_stream (buffer : CSessionBuffer)
    (message_list : list CMessage_Packet) : option (outcome parse_result) :=
  stream_loop (stream_fuel buffer) buffer 0 (get_write_size buffer) message_list.

(** The datagram variant: one packet per call. *)
Definition parse_packet_from_recv_buffer_single (buffer : CSessionBuffer)
    (message_list : list CMessage_Packet) : outcome parse_result :=
  let buff_length := get_write_size buffer in
  let drop_all := let* b := move buffer buff_length in Ok (false, b, message_list) in
  if buff_length <? 40 then drop_all
  else
    let* hdr := mem_read (read buffer) 0 40 in
    let command_id := hdr_command_id hdr in
    let packet_body_length := hdr_body_length hdr in
    if 1024000 <=? packet_body_length then drop_all
    else if packet_body_length =? 0 then
      let* b := move buffer (buff_length -u64 40) in
      Ok (true, b, message_list ++ [mkPacket [] hdr command_id])
    else if buff_length <? packet_body_length then drop_all
    else
      let* data := mem_read (read buffer) 0 (40 + packet_body_length) in
      let* b := move buffer (buff_length -u64 (40 +u32 packet_body_length)) in
      Ok (true, b, message_list ++ [mkPacket [] data command_id]).

Definition parse_packet_from_recv_buffer (buffer : CSessionBuffer)
    (message_list : list CMessage_Packet) (emIOType : EM_CONNECT_IO_TYPE)
  : option (outcome parse_result) :=
  match emIOType with
  | CONNECT_IO_SERVER_TCP | CONNECT_IO_TCP =>
      parse_packet_from_recv_buffer_stream buffer message_list
  | CONNECT_IO_SERVER_UDP | CONNECT_IO_UDP | CONNECT_IO_KCP =>
      Some (parse_packet_from_recv_buffer_single buffer message_list)
  | _ => parse_packet_from_recv_buffer_stream buffer message_list
  end.

(** ** The wire format *)

Record frame := mkFrame {
  f_version : Z;
  f_command : Z;
  f_session : list Z;
  f_body : list Z;
}.

Definition frame_ok (f : frame) : Prop :=
  fits_u 16 (f_version f) ∧ fits_u 16 (f_command f) ∧
  zlen (f_session f) = 32 ∧ wf_bytes (f_session f) ∧
  zlen (f_body f) < 1024000 ∧ wf_bytes (f_body f).

Definition header_bytes (f : frame) : list Z :=
  le_bytes 2 (f_version f) ++ le_bytes 2 (f_command f) ++
  le_bytes 4 (zlen (f_body f)) ++ f_session f.

Definition frame_bytes (f : frame) : list Z := header_bytes f ++ f_body f.

Definition frame_packet (f : frame) : CMessage_Packet :=
  mkPacket [] (frame_bytes f) (f_command f).

(** A suffix the parser waits on: no full header yet, or a header announcing more bytes
    than all that was received. *)
Definition waiting (rest : list Z) : Prop :=
  zlen rest < 40 ∨
  0 < hdr_body_length (ztake 40 rest) < 1024000 ∧ zlen rest < hdr_body_length (ztake 40 rest).

Lemma header_len f : frame_ok f → zlen (header_bytes f) = 40.
Proof.
  intros (_ & _ & Hs & _). unfold header_bytes. autorewrite with pss_len. rewrite Hs.
  unfold zlen. by rewrite !length_le_bytes.
Qed.

Lemma frame_len f : frame_ok f → zlen (frame_bytes f) = 40 + zlen (f_body f).
Proof. intros. unfold frame_bytes. rewrite zlen_app, header_len; done. Qed.

Lemma header_fields f : frame_ok f →
  hdr_command_id (header_bytes f) = f_command f ∧
  hdr_body_length (header_bytes f) = zlen (f_body f).
Proof.
  intros (_ & Hc & _ & _ & Hb & _). unfold hdr_command_id, hdr_body_length, header_bytes. split.
  - rewrite zdrop_app_eq by done. rewrite ztake_app_eq by done.
    rewrite le_val_le_bytes. mach.
  - rewrite app_assoc, zdrop_app_eq by done. rewrite ztake_app_eq by done.
    rewrite le_val_le_bytes. pose proof (zlen_nonneg (f_body f)). mach.
Qed.

(** On a proper prefix of a frame: the parser waits except when the header is complete and
    at most 40 bytes are missing. *)
Lemma waiting_prefix f p q : frame_ok f → frame_bytes f = p ++ q → q ≠ [] →
  (waiting p ↔ zlen p < 40 ∨ 40 < zlen q).
Proof.
  intros Hf E Hq. pose proof (frame_len f Hf) as Hl. pose proof (header_len f Hf) as Hh.
  assert (0 < zlen q) by (destruct q; [done|rewrite zlen_cons; pose proof (zlen_nonneg q); lia]).
  rewrite E, zlen_app in Hl. unfold waiting.
  destruct (Z.lt_ge_cases (zlen p) 40) as [|H40]; [tauto|].
  assert (Hp : ztake 40 p = header_bytes f).
  { rewrite <- (ztake_app_le 40 p q), <- E by lia. unfold frame_bytes. by apply ztake_app_eq. }
  assert (zlen (f_body f) < 1024000) by apply Hf. pose proof (zlen_nonneg (f_body f)).
  rewrite Hp. destruct (header_fields f Hf) as [_ ->]. lia.
Qed.

(** ** The stream loop on well-formed input *)

Lemma mem_read_prefix l1 l2 l3 n :
  0 <= n <= zlen l2 → mem_read (l1 ++ l2 ++ l3) (zlen l1) n = Ok (ztake n l2).
Proof.
  intros. rewrite mem_read_ok; [|apply zlen_nonneg|lia|].
  - by rewrite zdrop_app_eq, ztake_app_le by (done || lia).
  - autorewrite with pss_len. pose proof (zlen_nonneg l3). lia.
Qed.

Lemma stream_loop_frame fuel b pre f post len msgs :
  read b = pre ++ frame_bytes f ++ post → zlen (read b) < 2 ^ 32 → frame_ok f →
  zlen (frame_bytes f) <= len < 2 ^ 63 →
  stream_loop (S fuel) b (zlen pre) len msgs =
  stream_loop fuel b (zlen (pre ++ frame_bytes f)) (len - zlen (frame_bytes f))
    (msgs ++ [frame_packet f]).
Proof.
  intros Hm Hmax Hf Hlen. pose proof (frame_len f Hf) as Hfl.
  pose proof (header_len f Hf) as Hhl. destruct (header_fields f Hf) as [Hc Hb].
  pose proof (zlen_nonneg (f_body f)). pose proof (zlen_nonneg pre). pose proof (zlen_nonneg post).
  rewrite Hm in Hmax. autorewrite with pss_len in Hmax. autorewrite with pss_len.
  assert (Hbl : zlen (f_body f) < 1024000) by apply Hf.
  cbn [stream_loop]. rewrite (proj2 (Z.ltb_ge len 40)) by lia. rewrite Hm.
  rewrite mem_read_prefix by lia.
  replace (ztake 40 (frame_bytes f)) with (header_bytes f)
    by (unfold frame_bytes; by rewrite ztake_app_eq).
  rewrite Hc, Hb. rewrite (proj2 (Z.leb_gt _ _)) by lia.
  destruct (Z.eqb_spec (zlen (f_body f)) 0) as [E0|E0].
  - rewrite (u32_small (zlen pre + 40)), (u64_small (len - 40)) by lia.
    rewrite Hfl, E0. unfold frame_packet, frame_bytes. apply zlen_zero in E0 as ->.
    by rewrite app_nil_r.
  - rewrite (proj2 (Z.ltb_ge len _)) by lia.
    rewrite mem_read_prefix by lia. rewrite ztake_all by lia.
    rewrite (u32_small (40 + _)), u32_small, u64_small, Hfl by lia. done.
Qed.

Lemma stream_loop_frames fs : ∀ fuel b pre post len msgs,
  read b = pre ++ concat (map frame_bytes fs) ++ post → zlen (read b) < 2 ^ 32 →
  Forall frame_ok fs → zlen (concat (map frame_bytes fs)) <= len < 2 ^ 63 →
  stream_loop (length fs + fuel) b (zlen pre) len msgs =
  stream_loop fuel b (zlen (pre ++ concat (map frame_bytes fs)))
    (len - zlen (concat (map frame_bytes fs))) (msgs ++ map frame_packet fs).
Proof.
  induction fs as [|f fs IH]; intros fuel b pre post len msgs Hm Hmax Hf Hlen;
    cbn [map concat length Nat.add] in *.
  - by rewrite !app_nil_r, Z.sub_0_r.
  - inversion Hf; subst. autorewrite with pss_len in Hlen. rewrite <- app_assoc in Hm.
    pose proof (zlen_nonneg (frame_bytes f)).
    pose proof (zlen_nonneg (concat (map frame_bytes fs))).
    rewrite (stream_loop_frame _ b pre f (concat (map frame_bytes fs) ++ post)) by (done || lia).
    rewrite (IH fuel b _ post) by
      (first [done | lia | rewrite <- app_assoc; done]).
    rewrite <- !app_assoc. f_equal. rewrite zlen_app. lia.
Qed.

Lemma stream_loop_waiting fuel b pre rest post msgs :
  read b = pre ++ rest ++ post → waiting rest →
  stream_loop (S fuel) b (zlen pre) (zlen rest) msgs = Some (stop_at b (zlen pre) msgs).
Proof.
  intros Hm [Hw|[Hw1 Hw2]]; cbn [stream_loop].
  - by rewrite (proj2 (Z.ltb_lt _ 40)).
  - destruct (Z.ltb_spec (zlen rest) 40) as [|H40]; [done|].
    rewrite Hm, mem_read_prefix by lia.
    rewrite (proj2 (Z.leb_gt 1024000 _)) by lia.
    rewrite (proj2 (Z.eqb_neq _ 0)) by lia. by rewrite (proj2 (Z.ltb_lt (zlen rest) _)).
Qed.

Lemma frames_len fs : Forall frame_ok fs →
  40 * Z.of_nat (length fs) <= zlen (concat (map frame_bytes fs)).
Proof.
  induction 1 as [|f fs Hf _ IH]; cbn [map concat length]; [unfold zlen; simpl; lia|].
  rewrite zlen_app, frame_len by done. pose proof (zlen_nonneg (f_body f)). lia.
Qed.

Lemma stream_fuel_frames b fs rest :
  wf b → contents b = concat (map frame_bytes fs) ++ rest → Forall frame_ok fs →
  ∃ fuel, stream_fuel b = (length fs + S fuel)%nat.
Proof.
  intros Hwf Hc Hf. pose proof (frames_len fs Hf) as Hle.
  pose proof (contents_len b Hwf) as Hl. rewrite Hc, zlen_app in Hl.
  pose proof (zlen_nonneg rest). destruct Hwf as [? ? ?].
  exists (Z.to_nat (max_buff_size_ b) - length fs)%nat. unfold stream_fuel. lia.
Qed.

(** The functional correctness of the stream parser. *)
Lemma stream_parse_frames b fs rest msgs :
  wf b → max_buff_size_ b < 2 ^ 32 → Forall frame_ok fs → waiting rest →
  contents b = concat (map frame_bytes fs) ++ rest →
  ∃ b', parse_packet_from_recv_buffer_stream b msgs =
          Some (Ok (true, b', msgs ++ map frame_packet fs)) ∧
        wf b' ∧ contents b' = rest ∧ max_buff_size_ b' = max_buff_size_ b.
Proof.
  intros Hwf Hmax Hf Hw Hc. unfold parse_packet_from_recv_buffer_stream, get_write_size.
  destruct (stream_fuel_frames b fs rest Hwf Hc Hf) as [fuel ->].
  pose proof (contents_len b Hwf) as Hl. pose proof Hwf as [Hb ? ?].
  assert (Hm : read b = concat (map frame_bytes fs) ++ rest ++ zdrop (write_size_ b) (buffer_ b)).
  { unfold read. rewrite (buffer_split b) at 1. by rewrite Hc, <- app_assoc. }
  rewrite Hc, zlen_app in Hl. pose proof (zlen_nonneg rest).
  pose proof (zlen_nonneg (concat (map frame_bytes fs))).
  change 0 with (zlen (@nil Z)).
  rewrite (stream_loop_frames fs (S fuel) b [] (rest ++ zdrop (write_size_ b) (buffer_ b)) (write_size_ b) msgs)
    by (done || (unfold read; lia) || lia).
  rewrite app_nil_l.
  replace (write_size_ b - zlen (concat (map frame_bytes fs))) with (zlen rest) by lia.
  erewrite stream_loop_waiting by done. unfold stop_at.
  destruct (move_contents b (zlen (concat (map frame_bytes fs))) Hwf) as (b' & -> & ? & Hc' & ?);
    [lia|]. simpl. exists b'. split_and!; try done.
  rewrite Hc', Hc. by apply zdrop_app_eq.
Qed.

(** ** Feeding a stream in chunks *)

(** One read completion on a TCP session: the chunk lands in the buffer, the parser runs. *)
Definition feed (b : CSessionBuffer) (chunk : list Z) (msgs : list CMessage_Packet)
  : option (outcome parse_result) :=
  match recv_into b chunk with
  | Ok (true, b1) => parse_packet_from_recv_buffer_stream b1 msgs
  | _ => Some Fault
  end.

Fixpoint feed_all (b : CSessionBuffer) (chunks : list (list Z)) (msgs : list CMessage_Packet)
  : option (outcome parse_result) :=
  match chunks with
  | [] => Some (Ok (true, b, msgs))
  | c :: chunks =>
      match feed b c msgs with
      | Some (Ok (true, b', msgs')) => feed_all b' chunks msgs'
      | r => r
      end
  end.

(** How a sequence of chunks cuts a sequence of frames: after each chunk the unconsumed
    suffix is one the parser waits on, and it fits the buffer. *)
Inductive chunked (cap : Z) : list Z → list (list Z) → list frame → list Z → Prop :=
| chunked_nil rest : chunked cap rest [] [] rest
| chunked_cons rest0 c chunks fs0 rest1 fs rest :
    rest0 ++ c = concat (map frame_bytes fs0) ++ rest1 →
    zlen (rest0 ++ c) <= cap → waiting rest1 → Forall frame_ok fs0 →
    chunked cap rest1 chunks fs rest →
    chunked cap rest0 (c :: chunks) (fs0 ++ fs) rest.

Lemma feed_all_chunked cap rest0 chunks fs rest :
  chunked cap rest0 chunks fs rest → ∀ b msgs,
  wf b → max_buff_size_ b = cap → cap < 2 ^ 32 → contents b = rest0 →
  ∃ b', feed_all b chunks msgs = Some (Ok (true, b', msgs ++ map frame_packet fs)) ∧
        wf b' ∧ contents b' = rest.
Proof.
  induction 1 as [|rest0 c chunks fs0 rest1 fs rest Heq Hcap Hw Hf _ IH];
    intros b msgs Hwf Hmax Hc32 Hc; cbn [feed_all].
  - rewrite app_nil_r. eauto.
  - unfold feed. destruct (recv_into_fits b c Hwf) as (b1 & -> & Hwf1 & Hc1 & Hm1).
    { rewrite get_buffer_size_wf, Hc, Hmax by done. autorewrite with pss_len in Hcap. lia. }
    rewrite Hc, Heq in Hc1.
    destruct (stream_parse_frames b1 fs0 rest1 msgs Hwf1) as (b2 & -> & Hwf2 & Hc2 & Hm2);
      [lia|done..|].
    destruct (IH b2 (msgs ++ map frame_packet fs0) Hwf2) as (b3 & -> & ? & ?); [lia|done..|].
    exists b3. by rewrite map_app, app_assoc.
Qed.

(** ** Termination and the error paths *)

Lemma hdr_body_length_range hdr : wf_bytes hdr → 0 <= hdr_body_length hdr.
Proof. intros. unfold hdr_body_length. apply le_val_range. auto with pss. Qed.

Lemma mem_read_Ok m pos n l : mem_read m pos n = Ok l →
  0 <= pos ∧ 0 <= n ∧ pos + n <= zlen m ∧ l = ztake n (zdrop pos m).
Proof.
  unfold mem_read. case_match eqn:E; [|done]. intros [= <-].
  rewrite !andb_true_iff, !Z.leb_le in E. naive_solver lia.
Qed.

Lemma stream_loop_terminates b fuel : ∀ pos len msgs,
  wf_bytes (read b) → zlen (read b) < 2 ^ 32 →
  0 <= pos → Z.max 0 (zlen (read b) - pos) < Z.of_nat fuel →
  stream_loop fuel b pos len msgs ≠ None.
Proof.
  induction fuel as [|fuel IH]; intros pos len msgs Hb Hmax Hpos Hf; [lia|]. cbn [stream_loop].
  case_match; [done|]. case_match eqn:E; [|done].
  apply mem_read_Ok in E as (_ & _ & Hle & ->).
  pose proof (hdr_body_length_range (ztake 40 (zdrop pos (read b))) ltac:(auto with pss)).
  repeat case_match; try done.
  - apply IH; rewrite ?u32_small by lia; (done || lia).
  - match goal with H : mem_read _ _ _ = Ok _ |- _ => apply mem_read_Ok in H as (_ & _ & Hle2 & _) end.
    apply IH; rewrite ?(u32_small (40 + _)), ?u32_small by lia; (done || lia).
Qed.

Lemma stream_parse_total b msgs :
  wf b → wf_bytes (buffer_ b) → max_buff_size_ b < 2 ^ 32 →
  parse_packet_from_recv_buffer_stream b msgs ≠ None.
Proof.
  intros [Hl ? ?] Hb Hmax. apply stream_loop_terminates; [done|unfold read; lia|lia|].
  unfold read, stream_fuel. lia.
Qed.

(** A header announcing a body of 1024000 bytes or more makes the parser return false with
    the buffer untouched, after delivering the frames before it. *)
Lemma stream_loop_illegal fuel b pre hdr post len msgs :
  read b = pre ++ hdr ++ post → zlen hdr = 40 → 40 <= len → 1024000 <= hdr_body_length hdr →
  stream_loop (S fuel) b (zlen pre) len msgs = Some (Ok (false, b, msgs)).
Proof.
  intros Hm Hh Hl Hi. cbn [stream_loop]. rewrite (proj2 (Z.ltb_ge len 40)) by lia.
  rewrite Hm, mem_read_prefix, ztake_all by lia. by rewrite (proj2 (Z.leb_le _ _)).
Qed.

Lemma stream_parse_illegal b fs hdr rest msgs :
  wf b → max_buff_size_ b < 2 ^ 32 → Forall frame_ok fs →
  zlen hdr = 40 → 1024000 <= hdr_body_length hdr →
  contents b = concat (map frame_bytes fs) ++ hdr ++ rest →
  parse_packet_from_recv_buffer_stream b msgs =
    Some (Ok (false, b, msgs ++ map frame_packet fs)).
Proof.
  intros Hwf Hmax Hf Hh Hi Hc. unfold parse_packet_from_recv_buffer_stream, get_write_size.
  destruct (stream_fuel_frames b fs _ Hwf Hc Hf) as [fuel ->].
  pose proof (contents_len b Hwf) as Hl. pose proof Hwf as [Hb ? ?].
  assert (Hm : read b = concat (map frame_bytes fs) ++ hdr ++ rest ++ zdrop (write_size_ b) (buffer_ b)).
  { unfold read. rewrite (buffer_split b) at 1. by rewrite Hc, <- !app_assoc. }
  rewrite Hc, !zlen_app in Hl. pose proof (zlen_nonneg rest).
  pose proof (zlen_nonneg (concat (map frame_bytes fs))).
  change 0 with (zlen (@nil Z)).
  rewrite (stream_loop_frames fs (S fuel) b [] (hdr ++ rest ++ zdrop (write_size_ b) (buffer_ b)) (write_size_ b) msgs)
    by (done || (unfold read; lia) || lia).
  rewrite app_nil_l. by erewrite stream_loop_illegal by (done || lia).
Qed.

(** The completeness test compares the received length with the body length alone: a
    frame with its header and all but the last 1..40 bytes received is taken as complete,
    and the copy of [40 + body] bytes runs past the received data. *)
Lemma stream_gap_overreads b msgs :
  let L := hdr_body_length (ztake 40 (read b)) in
  wf b → 40 <= write_size_ b → 0 < L < 1024000 → L <= write_size_ b →
  max_buff_size_ b < 40 + L →
  parse_packet_from_recv_buffer_stream b msgs = Some Fault.
Proof.
  intros L [Hl ? ?] H40 HL Hge Hmax.
  unfold parse_packet_from_recv_buffer_stream, stream_fuel, get_write_size. cbn [stream_loop].
  rewrite (proj2 (Z.ltb_ge _ 40)) by lia.
  rewrite mem_read_ok by (unfold read; lia). rewrite zdrop_0. fold L.
  rewrite (proj2 (Z.leb_gt 1024000 _)) by lia. rewrite (proj2 (Z.eqb_neq L 0)) by lia.
  rewrite (proj2 (Z.ltb_ge _ L)) by lia.
  by rewrite mem_read_fault by (unfold read; lia).
Qed.

(** Every byte string is a sequence of frames followed by a rest on which the parser
    waits, which it refuses, or which is a frame short of at most 40 bytes. *)
Lemma le_bytes_le_val n l : wf_bytes l → length l = n → le_bytes n (le_val l) = l.
Proof.
  intros Hb <-. induction Hb as [|b l Hb _ IH]; cbn [le_val length le_bytes]; [done|]. unfold is_byte in Hb.
  rewrite Z.mul_comm, Z.mod_add, Z.mod_small, Z.div_add, Z.div_small, Z.add_0_l, IH by lia. done.
Qed.

Lemma zsplit {A} n (l : list A) : 0 <= n <= zlen l → ∃ l1 l2, l = l1 ++ l2 ∧ zlen l1 = n.
Proof. intros. exists (ztake n l), (zdrop n l). rewrite ztake_zdrop. by rewrite zlen_ztake. Qed.

Lemma first_frame l :
  let L := hdr_body_length (ztake 40 l) in
  wf_bytes l → 40 <= zlen l → L < 1024000 → 40 + L <= zlen l →
  ∃ f l', frame_ok f ∧ l = frame_bytes f ++ l'.
Proof.
  cbn zeta. intros Hb H40 HL Hlen.
  destruct (zsplit 2 l) as (v & l1 & -> & Hv); [lia|]. autorewrite with pss_len in *.
  destruct (zsplit 2 l1) as (c & l2 & -> & Hc); [lia|]. autorewrite with pss_len in *.
  destruct (zsplit 4 l2) as (n & l3 & -> & Hn); [lia|]. autorewrite with pss_len in *.
  destruct (zsplit 32 l3) as (ss & l4 & -> & Hs); [lia|]. autorewrite with pss_len in *.
  assert (E : hdr_body_length (ztake 40 (v ++ c ++ n ++ ss ++ l4)) = le_val n).
  { rewrite !app_assoc, ztake_app_eq by (rewrite !zlen_app; lia). unfold hdr_body_length.
    rewrite <- !app_assoc, (app_assoc v), zdrop_app_eq by (rewrite zlen_app; lia).
    by rewrite ztake_app_eq. }
  rewrite E in *. unfold wf_bytes in Hb. rewrite !Forall_app in Hb.
  destruct Hb as (Hbv & Hbc & Hbn & Hbs & Hbl).
  pose proof (le_val_range n Hbn). pose proof (le_val_range v Hbv). pose proof (le_val_range c Hbc).
  destruct (zsplit (le_val n) l4) as (d & l5 & -> & Hd); [lia|]. rewrite Forall_app in Hbl.
  exists (mkFrame (le_val v) (le_val c) ss d), l5. split.
  - unfold frame_ok; cbn [f_version f_command f_session f_body]. rewrite Hv, Hc in *.
    unfold fits_u. split_and!; try done; try lia; apply Hbl.
  - unfold frame_bytes, header_bytes; cbn [f_version f_command f_session f_body]. rewrite Hd.
    unfold zlen in Hv, Hc, Hn.
    rewrite !le_bytes_le_val by (done || lia).
    by rewrite <- !app_assoc.
Qed.

Lemma frames_of l : wf_bytes l →
  ∃ fs rest, Forall frame_ok fs ∧ l = concat (map frame_bytes fs) ++ rest ∧
    let L := hdr_body_length (ztake 40 rest) in
    (waiting rest ∨ (40 <= zlen rest ∧ 1024000 <= L) ∨
     (40 <= zlen rest ∧ 0 < L < 1024000 ∧ L <= zlen rest < 40 + L)).
Proof.
  remember (length l) as n eqn:En. revert l En.
  induction n as [n IH] using lt_wf_ind; intros l -> Hb. cbn zeta.
  pose proof (hdr_body_length_range (ztake 40 l) ltac:(auto with pss)) as HL0.
  set (L := hdr_body_length (ztake 40 l)) in *.
  destruct (Z.lt_ge_cases (zlen l) 40);
    [exists [], l; split_and!; [constructor|done|left; left; lia]|].
  destruct (Z.le_gt_cases 1024000 L);
    [exists [], l; split_and!; [constructor|done|right; left; done]|].
  destruct (Z.le_gt_cases (40 + L) (zlen l)) as [Hfull|].
  - destruct (first_frame l Hb) as (f & l' & Hf & ->); [fold L; lia..|].
    pose proof (frame_len f Hf) as Hfl. pose proof (zlen_nonneg (f_body f)).
    destruct (IH (length l')) with (l := l') as (fs & rest & ? & -> & ?); [| done | |].
    + unfold zlen in *. rewrite length_app. lia.
    + unfold wf_bytes in *. rewrite Forall_app in Hb. apply Hb.
    + exists (f :: fs), rest. split_and!; [by constructor|cbn [map concat]; by rewrite <- app_assoc|done].
  - exists [], l. split_and!; [constructor|done|]. fold L.
    destruct (Z.lt_ge_cases (zlen l) L); [left; right; fold L; lia|right; right; lia].
Qed.

(** Once the remaining length has wrapped around, the loop can no longer stop by itself. *)
Lemma stream_loop_wrapped b fuel : ∀ pos len msgs,
  wf_bytes (read b) → zlen (read b) < 2 ^ 32 → 0 <= pos <= zlen (read b) →
  2 ^ 63 <= len + pos → len < 2 ^ 64 → zlen (read b) - pos < Z.of_nat fuel →
  stream_loop fuel b pos len msgs = Some Fault ∨
  ∃ more, stream_loop fuel b pos len msgs = Some (Ok (false, b, msgs ++ more)).
Proof.
  induction fuel as [|fuel IH]; intros pos len msgs Hb Hmax Hpos Hlen Hl64 Hf; [lia|].
  cbn [stream_loop]. rewrite (proj2 (Z.ltb_ge len 40)) by lia.
  case_match eqn:E; [|by left]. apply mem_read_Ok in E as (_ & _ & Hle & ->).
  pose proof (hdr_body_length_range (ztake 40 (zdrop pos (read b))) ltac:(auto with pss)).
  case_match; [right; exists []; by rewrite app_nil_r|]. rewrite Z.leb_gt in *.
  assert (Hgo : ∀ k m, 0 < k → pos + k <= zlen (read b) →
    stream_loop fuel b (u32 (pos + k)) (u64 (len - k)) (msgs ++ [m]) = Some Fault ∨
    ∃ more, stream_loop fuel b (u32 (pos + k)) (u64 (len - k)) (msgs ++ [m]) =
              Some (Ok (false, b, msgs ++ more))).
  { intros k m Hk Hle'. rewrite u32_small, u64_small by lia.
    destruct (IH (pos + k) (len - k) (msgs ++ [m])) as [|[more ->]]; [done|done|lia..|by left|].
    right. exists (m :: more). by rewrite <- app_assoc. }
  case_match; [apply Hgo; lia|]. rewrite (proj2 (Z.ltb_ge len _)) by lia.
  case_match eqn:E; [|by left]. apply mem_read_Ok in E as (_ & _ & Hle2 & _).
  rewrite (u32_small (40 + _)) by lia. apply Hgo; lia.
Qed.

(** A frame short of at most 40 bytes after complete ones. *)
Lemma stream_parse_gap b fs rest msgs :
  let L := hdr_body_length (ztake 40 rest) in
  let r := parse_packet_from_recv_buffer_stream b msgs in
  wf b → wf_bytes (buffer_ b) → max_buff_size_ b < 2 ^ 32 → Forall frame_ok fs →
  contents b = concat (map frame_bytes fs) ++ rest →
  40 <= zlen rest → 0 < L < 1024000 → L <= zlen rest < 40 + L →
  if max_buff_size_ b <? zlen (concat (map frame_bytes fs)) + 40 + L then r = Some Fault
  else ∃ more, r = Some Fault ∨
         r = Some (Ok (false, b, (msgs ++ map frame_packet fs) ++
                mkPacket [] (rest ++ ztake (40 + L - zlen rest) (zdrop (write_size_ b) (buffer_ b)))
                  (hdr_command_id (ztake 40 rest)) :: more)).
Proof.
  intros L r Hwf Hb Hmax Hf Hc H40 HL Hgap. subst r.
  unfold parse_packet_from_recv_buffer_stream, get_write_size.
  destruct (stream_fuel_frames b fs rest Hwf Hc Hf) as [fuel Hfuel]. rewrite Hfuel.
  pose proof (contents_len b Hwf) as Hl. pose proof Hwf as [Hbl ? ?].
  set (tl := zdrop (write_size_ b) (buffer_ b)) in *.
  set (pre := concat (map frame_bytes fs)) in *.
  assert (Hm : read b = pre ++ rest ++ tl).
  { unfold read, tl. rewrite (buffer_split b) at 1. by rewrite Hc, <- app_assoc. }
  rewrite Hc, zlen_app in Hl. pose proof (zlen_nonneg pre). pose proof (zlen_nonneg tl).
  assert (Htot : zlen (read b) = max_buff_size_ b) by (unfold read; lia).
  change (stream_loop _ b 0) with (stream_loop (length fs + S fuel) b (zlen (@nil Z))).
  rewrite (stream_loop_frames fs (S fuel) b [] (rest ++ tl) (write_size_ b) msgs)
    by (first [done | fold pre; lia]).
  fold pre. rewrite app_nil_l. cbn [stream_loop].
  rewrite (proj2 (Z.ltb_ge _ 40)) by lia. rewrite Hm, mem_read_prefix by lia. fold L.
  rewrite (proj2 (Z.leb_gt 1024000 L)), (proj2 (Z.eqb_neq L 0)), (proj2 (Z.ltb_ge _ L)) by lia.
  rewrite <- Hm. destruct (Z.ltb_spec (max_buff_size_ b) (zlen pre + 40 + L)).
  - by rewrite mem_read_fault by lia.
  - rewrite mem_read_ok, (u32_small (40 + L)), u32_small by lia.
    rewrite Hm, zdrop_app_eq by done.
    replace (ztake (40 + L) (rest ++ tl)) with (rest ++ ztake (40 + L - zlen rest) tl).
    2: { rewrite <- (ztake_app_eq (40 + L) (rest ++ ztake (40 + L - zlen rest) tl) (zdrop (40 + L - zlen rest) tl)).
         - by rewrite <- app_assoc, ztake_zdrop.
         - rewrite Hm, !zlen_app in Htot. rewrite zlen_app, zlen_ztake; lia. }
    assert (Hw : u64 (write_size_ b - zlen pre - (40 + L)) = write_size_ b - zlen pre - (40 + L) + 2 ^ 64).
    { unfold u64. symmetry. apply Z.mod_unique with (-1); lia. }
    rewrite Hw. unfold stream_fuel in Hfuel.
    destruct (stream_loop_wrapped b fuel (zlen pre + (40 + L)) (write_size_ b - zlen pre - (40 + L) + 2 ^ 64)
      ((msgs ++ map frame_packet fs) ++ [mkPacket [] (rest ++ ztake (40 + L - zlen rest) tl) (hdr_command_id (ztake 40 rest))]))
      as [->|[more ->]]; try done; try lia.
    + assert (40 * Z.of_nat (length fs) <= zlen pre) by (by apply frames_len). lia.
    + exists []. by left.
    + exists more. right. by rewrite <- app_assoc.
Qed.

(** ** The datagram parser *)

Lemma single_frame b f extra msgs :
  wf b → frame_ok f → contents b = frame_bytes f ++ extra →
  ∃ b', parse_packet_from_recv_buffer_single b msgs = Ok (true, b', msgs ++ [frame_packet f]) ∧
        wf b' ∧ contents b' = zdrop (zlen extra) (contents b).
Proof.
  intros Hwf Hf Hc. pose proof (contents_len b Hwf) as Hl. pose proof Hwf as [Hb ? ?].
  pose proof (frame_len f Hf) as Hfl. pose proof (header_len f Hf) as Hhl.
  destruct (header_fields f Hf) as [Hcmd Hbody]. assert (zlen (f_body f) < 1024000) by apply Hf.
  pose proof (zlen_nonneg (f_body f)). pose proof (zlen_nonneg extra).
  assert (Hm : read b = [] ++ frame_bytes f ++ extra ++ zdrop (write_size_ b) (buffer_ b)).
  { unfold read. rewrite (buffer_split b) at 1. by rewrite Hc, <- app_assoc. }
  rewrite Hc, zlen_app in Hl. unfold parse_packet_from_recv_buffer_single, get_write_size.
  destruct (move_contents b (zlen extra) Hwf) as (b' & Hmv & Hwf' & Hc' & _); [done|].
  rewrite (proj2 (Z.ltb_ge _ 40)) by lia. change 0 with (zlen (@nil Z)) at 1 3.
  rewrite Hm, mem_read_prefix by lia. cbn [obind].
  replace (ztake 40 (frame_bytes f)) with (header_bytes f)
    by (unfold frame_bytes; by rewrite ztake_app_eq).
  rewrite Hcmd, Hbody. rewrite (proj2 (Z.leb_gt _ _)) by lia.
  destruct (Z.eqb_spec (zlen (f_body f)) 0) as [E0|E0].
  - rewrite u64_small by lia. replace (write_size_ b - 40) with (zlen extra) by lia.
    rewrite Hmv. cbn [obind]. exists b'. split_and!; try done.
    unfold frame_packet, frame_bytes. apply zlen_zero in E0 as ->. by rewrite app_nil_r.
  - rewrite (proj2 (Z.ltb_ge _ (zlen (f_body f)))) by lia.
    rewrite mem_read_prefix, ztake_all by lia. cbn [obind].
    rewrite (u32_small (40 + _)), u64_small by lia.
    replace (write_size_ b - (40 + zlen (f_body f))) with (zlen extra) by lia.
    rewrite Hmv. cbn [obind]. eauto.
Qed.

Lemma single_short b msgs :
  wf b → zlen (contents b) < 40 →
  ∃ b', parse_packet_from_recv_buffer_single b msgs = Ok (false, b', msgs) ∧ wf b' ∧ contents b' = [].
Proof.
  intros Hwf Hs. pose proof (contents_len b Hwf) as Hl. pose proof Hwf as [? ? ?].
  unfold parse_packet_from_recv_buffer_single, get_write_size.
  rewrite (proj2 (Z.ltb_lt _ 40)) by lia.
  destruct (move_contents b (write_size_ b) Hwf) as (b' & -> & ? & Hc & _); [lia|].
  cbn [obind]. exists b'. split_and!; try done. rewrite Hc. apply zdrop_all. lia.
Qed.

(** ** Properties *)

(** C2: reassembly.  A TCP stream of well-formed frames is cut into read completions such
    that after each one (a) the pending bytes fit the receive buffer and (b) the frame that
    is still incomplete has either less than its 40-byte header or lacks more than 40 of
    its bytes ([chunked], [waiting]).  Then the parser delivers exactly the frames, in
    order, each once, and keeps the incomplete suffix.  The last conjunct says that (b)
    excludes exactly the cuts in the last 40 bytes of a frame whose header is complete:
    there the parser does not wait and reads past the received data
    ([stream_outcomes] says what it does). *)
Theorem stream_reassembly junk cap chunks fs rest :
  0 <= cap < 2 ^ 32 → chunked cap [] chunks fs rest →
  (∃ b', feed_all (Init junk cap) chunks [] = Some (Ok (true, b', map frame_packet fs)) ∧
         contents b' = rest) ∧
  ∀ f p q, frame_ok f → frame_bytes f = p ++ q → q ≠ [] →
    (waiting p ↔ zlen p < 40 ∨ 40 < zlen q).
Proof.
  intros Hcap Hch. split; [|by apply waiting_prefix].
  destruct (Init_wf junk cap) as [Hwf Hc]; [lia|].
  destruct (feed_all_chunked cap [] chunks fs rest Hch (Init junk cap) [] Hwf) as (b' & -> & ? & ?);
    [done|lia|done|eauto].
Qed.

Definition demo_frame : frame := mkFrame 1 4097 (replicate 32 97) [9; 8; 7; 6; 5].

Lemma demo_frame_ok : frame_ok demo_frame.
Proof.
  unfold frame_ok. split_and!; try (vm_compute; intuition congruence);
    repeat constructor; unfold is_byte; lia.
Qed.

Lemma stream_reassembly_witness :
  ∃ b', feed_all (Init (fun _ => 0) 1024)
          [ztake 10 (frame_bytes demo_frame);
           zdrop 10 (frame_bytes demo_frame) ++ ztake 39 (frame_bytes demo_frame)] []
        = Some (Ok (true, b', [frame_packet demo_frame])) ∧
        contents b' = ztake 39 (frame_bytes demo_frame).
Proof.
  refine (proj1 (stream_reassembly (fun _ => 0) 1024
    [ztake 10 (frame_bytes demo_frame);
     zdrop 10 (frame_bytes demo_frame) ++ ztake 39 (frame_bytes demo_frame)]
    [demo_frame] (ztake 39 (frame_bytes demo_frame)) _ _)); [lia|].
  apply (chunked_cons 1024 [] _ _ [] (ztake 10 (frame_bytes demo_frame)));
    [reflexivity|vm_compute; congruence|left; reflexivity|constructor|].
  apply (chunked_cons 1024 _ _ _ [demo_frame] (ztake 39 (frame_bytes demo_frame)) []);
    [reflexivity|vm_compute; congruence|left; reflexivity
    |constructor; [apply demo_frame_ok|constructor]|constructor].
Defined.

(** C35: what one run of the stream parser does, on every buffer content.  The received
    bytes are some well-formed frames followed by a rest that is not one more complete
    frame, the frames are delivered in order, and
    (1) if the rest is less than a header, or announces a body longer than the rest, the
        parser returns true and keeps exactly the rest;
    (2) if the rest announces a body of 1024000 bytes or more, the parser returns false
        with the buffer untouched;
    (3) if the rest is a frame that lacks between 1 and 40 of its bytes, the parser does
        not wait for them: it reads past the received data.  When the allocation ends
        before the frame does, that read is out of bounds; otherwise a packet made of the
        rest and of bytes that were never received is delivered, the remaining length
        wraps around, and the loop ends only by an out-of-bounds read or by refusing the
        connection: the parser cannot return true any more. *)
Theorem stream_outcomes b msgs :
  wf b → wf_bytes (buffer_ b) → max_buff_size_ b < 2 ^ 32 →
  ∃ fs rest, Forall frame_ok fs ∧ contents b = concat (map frame_bytes fs) ++ rest ∧
    let L := hdr_body_length (ztake 40 rest) in
    let r := parse_packet_from_recv_buffer_stream b msgs in
    (waiting rest ∧
       ∃ b', r = Some (Ok (true, b', msgs ++ map frame_packet fs)) ∧ contents b' = rest) ∨
    (40 <= zlen rest ∧ 1024000 <= L ∧ r = Some (Ok (false, b, msgs ++ map frame_packet fs))) ∨
    (40 <= zlen rest ∧ 0 < L < 1024000 ∧ L <= zlen rest < 40 + L ∧
       if max_buff_size_ b <? zlen (concat (map frame_bytes fs)) + 40 + L then r = Some Fault
       else ∃ more, r = Some Fault ∨
              r = Some (Ok (false, b, (msgs ++ map frame_packet fs) ++
                     mkPacket [] (rest ++ ztake (40 + L - zlen rest) (zdrop (write_size_ b) (buffer_ b)))
                       (hdr_command_id (ztake 40 rest)) :: more))).
Proof.
  intros Hwf Hb Hmax.
  destruct (frames_of (contents b)) as (fs & rest & Hf & Hc & Hrest);
    [unfold contents; auto with pss|].
  exists fs, rest. split_and!; [done..|]. cbn zeta.
  destruct Hrest as [Hw|[[H40 Hi]|(H40 & HL & Hgap)]].
  - left. split; [done|].
    destruct (stream_parse_frames b fs rest msgs Hwf Hmax Hf Hw Hc) as (b' & -> & _ & ? & _). eauto.
  - right; left. split_and!; [done..|].
    apply (stream_parse_illegal b fs (ztake 40 rest) (zdrop 40 rest)); try done.
    + rewrite zlen_ztake; lia.
    + by rewrite ztake_zdrop.
  - right; right. split_and!; try lia. by apply stream_parse_gap.
Qed.

Lemma stream_outcomes_witness :
  ∃ fs rest, Forall frame_ok fs ∧
    contents (mkSessionBuffer (replicate 100 7) 100 100) = concat (map frame_bytes fs) ++ rest ∧
    (waiting rest ∨ 40 <= zlen rest).
Proof.
  destruct (stream_outcomes (mkSessionBuffer (replicate 100 7) 100 100) [])
    as (fs & rest & ? & ? & Hr).
  - split; cbn; lia || reflexivity.
  - apply Forall_replicate. unfold is_byte. lia.
  - cbn. lia.
  - exists fs, rest. split_and!; [done..|].
    destruct Hr as [[? _]|[(? & _)|(? & _)]]; [by left|by right..].
Defined.

(** C36: a header announcing a body of 1024000 bytes or more is refused: the frames before
    it are delivered, the buffer is left as it was and the session is told to close. *)
Theorem stream_illegal_length_rejected b fs hdr rest msgs :
  wf b → max_buff_size_ b < 2 ^ 32 → Forall frame_ok fs →
  zlen hdr = 40 → 1024000 <= hdr_body_length hdr →
  contents b = concat (map frame_bytes fs) ++ hdr ++ rest →
  parse_packet_from_recv_buffer b msgs CONNECT_IO_TCP =
    Some (Ok (false, b, msgs ++ map frame_packet fs)).
Proof. intros. cbn [parse_packet_from_recv_buffer]. eauto using stream_parse_illegal. Qed.

Definition illegal_header : list Z := [1; 0; 1; 16; 255; 255; 255; 255] ++ replicate 32 0.

Lemma stream_illegal_length_rejected_witness :
  parse_packet_from_recv_buffer
    (mkSessionBuffer (illegal_header ++ replicate 10 0) 40 50) [] CONNECT_IO_TCP =
  Some (Ok (false, mkSessionBuffer (illegal_header ++ replicate 10 0) 40 50, [])).
Proof.
  apply (stream_illegal_length_rejected
           (mkSessionBuffer (illegal_header ++ replicate 10 0) 40 50) [] illegal_header [] []);
    [split; cbn; lia || reflexivity|cbn; lia|constructor|reflexivity|vm_compute; congruence|reflexivity].
Defined.

(** The completeness test of the stream parser ignores the 40 header bytes: when the
    announced body length is at most the received length but the packet is not complete
    and the allocation ends before it, the parser reads outside its buffer. *)
Theorem stream_incomplete_packet_overread b msgs :
  wf b → 40 <= write_size_ b →
  0 < hdr_body_length (ztake 40 (read b)) < 1024000 →
  hdr_body_length (ztake 40 (read b)) <= write_size_ b →
  max_buff_size_ b < 40 + hdr_body_length (ztake 40 (read b)) →
  parse_packet_from_recv_buffer b msgs CONNECT_IO_TCP = Some Fault.
Proof. intros. cbn [parse_packet_from_recv_buffer]. by apply stream_gap_overreads. Qed.

Lemma stream_incomplete_packet_overread_witness :
  parse_packet_from_recv_buffer
    (mkSessionBuffer (ztake 44 (frame_bytes demo_frame)) 44 44) [] CONNECT_IO_TCP = Some Fault.
Proof.
  apply stream_incomplete_packet_overread;
    [split; cbn; lia || reflexivity|cbn; lia|vm_compute; intuition congruence
    |vm_compute; congruence|vm_compute; reflexivity].
Defined.

(** A datagram holding one well-formed frame (and possibly trailing bytes) yields that
    frame; after the server's own [move] of the datagram length the buffer is empty, so
    the next datagram starts on a clean buffer.  A datagram shorter than a header is
    refused and dropped. *)
Theorem datagram_delivery b f extra msgs :
  wf b → frame_ok f → contents b = frame_bytes f ++ extra →
  ∃ b1 b2, parse_packet_from_recv_buffer b msgs CONNECT_IO_UDP =
             Some (Ok (true, b1, msgs ++ [frame_packet f])) ∧
           move b1 (zlen (contents b)) = Ok b2 ∧ contents b2 = [].
Proof.
  intros Hwf Hf Hc. cbn [parse_packet_from_recv_buffer].
  destruct (single_frame b f extra msgs Hwf Hf Hc) as (b1 & -> & Hwf1 & Hc1).
  pose proof (zlen_nonneg (contents b)). pose proof (zlen_nonneg extra).
  destruct (move_contents b1 (zlen (contents b)) Hwf1) as (b2 & Hm & _ & Hc2 & _); [lia|].
  exists b1, b2. split_and!; try done. rewrite Hc2. apply zdrop_all. rewrite Hc1.
  destruct (Z.le_gt_cases (zlen extra) (zlen (contents b))).
  - rewrite zlen_zdrop; lia.
  - rewrite zdrop_all by lia. unfold zlen; simpl; lia.
Qed.

Lemma datagram_delivery_witness :
  ∃ b1 b2, parse_packet_from_recv_buffer
             (mkSessionBuffer (frame_bytes demo_frame ++ [0; 0; 0]) 45 48) [] CONNECT_IO_UDP =
             Some (Ok (true, b1, [] ++ [frame_packet demo_frame])) ∧
           move b1 (zlen (contents (mkSessionBuffer (frame_bytes demo_frame ++ [0; 0; 0]) 45 48))) = Ok b2 ∧
           contents b2 = [].
Proof.
  apply (datagram_delivery (mkSessionBuffer (frame_bytes demo_frame ++ [0; 0; 0]) 45 48) demo_frame []).
  - split; cbn; lia || reflexivity.
  - exact demo_frame_ok.
  - reflexivity.
Defined.
