(* ===== verification/Base64.v ===== *)
(** * Base64 (src/PacketParse_Http/Base64.hpp)

    The two conversion loops with their staging arrays.  [char_array_3] and
    [char_array_4] are kept as the list of the first [i] elements: the loops never read
    an element they have not stored since [i] was last zero. *)

From Stdlib Require Import ZArith Lia.
From S2P Require Import Prelude.
From stdpp Require Import base numbers list strings.
Local Open Scope Z_scope.

Definition base64_chars : list Z :=
  bytes_of_string "ABCDEFGHIJKLMNOPQRSTUVWXYZabcdefghijklmnopqrstuvwxyz0123456789+/".

Definition isalnum (c : Z) : bool :=
  ((48 <=? c) && (c <=? 57)) || ((65 <=? c) && (c <=? 90)) || ((97 <=? c) && (c <=? 122)).

Definition is_base64 (c : Z) : bool := isalnum c || (c =? 43) || (c =? 47).

(** [base64_chars[k]]. *)
Definition base64_char (k : Z) : Z := nth (Z.to_nat k) base64_chars 0.

(** [(unsigned char)base64_chars.find(c)]: [npos] becomes 255. *)
Definition base64_find (c : Z) : Z :=
  match find_sub [c] base64_chars with Some n => Z.of_nat n | None => 255 end.

(** The four sextets of three bytes. *)
Definition enc4 (a b c : Z) : list Z :=
  [ Z.shiftr (Z.land a 252) 2;
    u8 (Z.shiftl (Z.land a 3) 4 + Z.shiftr (Z.land b 240) 4);
    u8 (Z.shiftl (Z.land b 15) 2 + Z.shiftr (Z.land c 192) 6);
    Z.land c 63 ].

(** The tail after the loop: [acc] holds the last [i] bytes. *)
Definition encode_tail (acc : list Z) : list Z :=
  match acc with
  | [] => []
  | _ :: _ =>
      let i := length acc in
      let char_array_3 := acc ++ replicate (3 - i) 0 in
      let char_array_4 := enc4 (nth 0 char_array_3 0) (nth 1 char_array_3 0) (nth 2 char_array_3 0) in
      map base64_char (take (i + 1) char_array_4) ++ replicate (3 - i) 61
  end.

Fixpoint encode_loop (bytes acc ret : list Z) : list Z :=
  match bytes with
  | [] => ret ++ encode_tail acc
  | b :: bytes =>
      match acc ++ [b] with
      | [x; y; z] => encode_loop bytes [] (ret ++ map base64_char (enc4 x y z))
      | acc => encode_loop bytes acc ret
      end
  end.

Definition base64_encode (bytes_to_encode : list Z) : list Z := encode_loop bytes_to_encode [] [].

(** The three bytes of four sextets, truncated to [unsigned char]. *)
Definition dec3 (a b c d : Z) : list Z :=
  [ u8 (Z.shiftl a 2 + Z.shiftr (Z.land b 48) 4);
    u8 (Z.shiftl (Z.land b 15) 4 + Z.shiftr (Z.land c 60) 2);
    u8 (Z.shiftl (Z.land c 3) 6 + d) ].

Definition decode_tail (acc : list Z) : list Z :=
  match acc with
  | [] => []
  | _ :: _ =>
      let i := length acc in
      let char_array_4 := map base64_find (acc ++ replicate (4 - i) 0) in
      take (i - 1) (dec3 (nth 0 char_array_4 0) (nth 1 char_array_4 0)
                         (nth 2 char_array_4 0) (nth 3 char_array_4 0))
  end.

(** [in_len] is an [int]; reading at the end of the string yields its NUL terminator,
    which [is_base64] refuses. *)
Fixpoint decode_loop (s : list Z) (in_len : Z) (acc ret : list Z) : list Z :=
  match s with
  | [] => ret ++ decode_tail acc
  | c :: s =>
      if negb (in_len =? 0) && negb (c =? 61) && is_base64 c then
        match acc ++ [c] with
        | [w; x; y; z] =>
            decode_loop s (i32 (in_len - 1)) []
              (ret ++ dec3 (base64_find w) (base64_find x) (base64_find y) (base64_find z))
        | acc => decode_loop s (i32 (in_len - 1)) acc ret
        end
      else ret ++ decode_tail acc
  end.

Definition base64_decode (encoded_string : list Z) : list Z :=
  decode_loop encoded_string (i32 (zlen encoded_string)) [] [].

(** ** Facts about the alphabet, by evaluation *)

Definition sextet (k : Z) : Prop := 0 <= k < 64.

Lemma base64_char_facts k : sextet k →
  base64_find (base64_char k) = k ∧ is_base64 (base64_char k) = true ∧ base64_char k ≠ 61.
Proof.
  intros Hk.
  assert (H : (if k <? 64 then (base64_find (base64_char k) =? k) && is_base64 (base64_char k)
               && negb (base64_char k =? 61) else true) = true).
  { apply (byte_forall (fun k => if k <? 64 then (base64_find (base64_char k) =? k) &&
      is_base64 (base64_char k) && negb (base64_char k =? 61) else true)); [vm_compute; done|].
    unfold is_byte, sextet in *; lia. }
  rewrite (proj2 (Z.ltb_lt k 64)) in H by apply Hk.
  rewrite !andb_true_iff, negb_true_iff, Z.eqb_eq, Z.eqb_neq in H. tauto.
Qed.

Lemma byte_bits b : is_byte b →
  Z.shiftr (Z.land b 252) 2 = b / 4 ∧ Z.land b 3 = b mod 4 ∧
  Z.shiftr (Z.land b 240) 4 = b / 16 ∧ Z.land b 15 = b mod 16 ∧
  Z.shiftr (Z.land b 192) 6 = b / 64 ∧ Z.land b 63 = b mod 64 ∧
  Z.shiftr (Z.land b 48) 4 = b / 16 mod 4 ∧ Z.shiftr (Z.land b 60) 2 = b / 4 mod 16.
Proof.
  intros Hb. split_and!.
  - apply (byte_eq (fun b => Z.shiftr (Z.land b 252) 2) (fun b => b / 4)); [vm_compute; done|done].
  - apply (byte_eq (fun b => Z.land b 3) (fun b => b mod 4)); [vm_compute; done|done].
  - apply (byte_eq (fun b => Z.shiftr (Z.land b 240) 4) (fun b => b / 16)); [vm_compute; done|done].
  - apply (byte_eq (fun b => Z.land b 15) (fun b => b mod 16)); [vm_compute; done|done].
  - apply (byte_eq (fun b => Z.shiftr (Z.land b 192) 6) (fun b => b / 64)); [vm_compute; done|done].
  - apply (byte_eq (fun b => Z.land b 63) (fun b => b mod 64)); [vm_compute; done|done].
  - apply (byte_eq (fun b => Z.shiftr (Z.land b 48) 4) (fun b => b / 16 mod 4)); [vm_compute; done|done].
  - apply (byte_eq (fun b => Z.shiftr (Z.land b 60) 2) (fun b => b / 4 mod 16)); [vm_compute; done|done].
Qed.

(** The sextets as arithmetic. *)
Lemma enc4_arith a b c : is_byte a → is_byte b → is_byte c →
  enc4 a b c = [a / 4; a mod 4 * 16 + b / 16; b mod 16 * 4 + c / 64; c mod 64].
Proof.
  intros Ha Hb Hc. unfold enc4.
  destruct (byte_bits a Ha) as (-> & -> & _). destruct (byte_bits b Hb) as (_ & _ & -> & -> & _).
  destruct (byte_bits c Hc) as (_ & _ & _ & _ & -> & -> & _).
  rewrite !Z.shiftl_mul_pow2 by lia. unfold is_byte in *. repeat f_equal; mach.
Qed.

Lemma dec3_arith a b c d : is_byte b → is_byte c →
  dec3 a b c d = [u8 (a * 4 + b / 16 mod 4); u8 (b mod 16 * 16 + c / 4 mod 16); u8 (c mod 4 * 64 + d)].
Proof.
  intros Hb Hc. unfold dec3.
  destruct (byte_bits b Hb) as (_ & _ & _ & -> & _ & _ & -> & _).
  destruct (byte_bits c Hc) as (_ & -> & _ & _ & _ & _ & _ & ->).
  rewrite !Z.shiftl_mul_pow2 by lia. done.
Qed.

Lemma enc4_sextets a b c : is_byte a → is_byte b → is_byte c → Forall sextet (enc4 a b c).
Proof.
  intros Ha Hb Hc. rewrite enc4_arith by done. unfold is_byte, sextet in *.
  repeat constructor; Z.to_euclidean_division_equations; lia.
Qed.

(** ** The loops on whole groups *)

Lemma encode_loop_group a b c l ret :
  encode_loop (a :: b :: c :: l) [] ret = encode_loop l [] (ret ++ map base64_char (enc4 a b c)).
Proof. done. Qed.

(** Generalising the accumulator. *)
Lemma encode_loop_ret l : ∀ acc ret, encode_loop l acc ret = ret ++ encode_loop l acc [].
Proof.
  induction l as [|b l IH]; intros acc ret; [done|]. cbn [encode_loop].
  destruct (acc ++ [b]) as [|x [|y [|z [|]]]]; try apply IH.
  rewrite IH, (IH [] ([] ++ _)), <- app_assoc. done.
Qed.

Lemma decode_loop_ret s : ∀ n acc ret, decode_loop s n acc ret = ret ++ decode_loop s n acc [].
Proof.
  induction s as [|c s IH]; intros n acc ret; [done|]. cbn [decode_loop].
  destruct (negb (n =? 0) && negb (c =? 61) && is_base64 c); [|done].
  destruct (acc ++ [c]) as [|w [|x [|y [|z [|]]]]]; try apply IH.
  rewrite IH, (IH _ [] ([] ++ _)), <- app_assoc. done.
Qed.

(** One character of the alphabet is consumed and staged. *)
Lemma decode_loop_char k s n acc ret :
  sextet k → 0 < n < 2 ^ 31 → (length acc < 3)%nat →
  decode_loop (base64_char k :: s) n acc ret = decode_loop s (n - 1) (acc ++ [base64_char k]) ret.
Proof.
  intros Hk Hn Ha. destruct (base64_char_facts k Hk) as (_ & Hb & Hne). cbn [decode_loop].
  rewrite (proj2 (Z.eqb_neq n 0)), (proj2 (Z.eqb_neq _ 61)), Hb by (done || lia). cbn [negb andb].
  replace (i32 (n - 1)) with (n - 1) by mach.
  destruct acc as [|w [|x [|y [|z acc]]]]; simpl in Ha; done || lia.
Qed.

Lemma decode_loop_last k w x y s n ret :
  sextet k → 0 < n < 2 ^ 31 →
  decode_loop (base64_char k :: s) n [w; x; y] ret =
  decode_loop s (n - 1) []
    (ret ++ dec3 (base64_find w) (base64_find x) (base64_find y) (base64_find (base64_char k))).
Proof.
  intros Hk Hn. destruct (base64_char_facts k Hk) as (_ & Hb & Hne). cbn [decode_loop].
  rewrite (proj2 (Z.eqb_neq n 0)), (proj2 (Z.eqb_neq _ 61)), Hb by (done || lia). cbn [negb andb app].
  by replace (i32 (n - 1)) with (n - 1) by mach.
Qed.

(** Four characters of the alphabet decode to three bytes. *)
Lemma decode_loop_group a b c d s n ret :
  Forall sextet [a; b; c; d] → 4 <= n < 2 ^ 31 →
  decode_loop (map base64_char [a; b; c; d] ++ s) n [] ret =
  decode_loop s (n - 4) [] (ret ++ dec3 a b c d).
Proof.
  intros Hf Hn. cbn [map app]. repeat rewrite Forall_cons in Hf. destruct Hf as (Ha & Hb & Hc & Hd & _).
  do 3 (rewrite decode_loop_char by (done || lia || (simpl; lia)); cbn [app]).
  rewrite decode_loop_last by (done || lia).
  rewrite !(fun k H => proj1 (base64_char_facts k H)) by done. f_equal. lia.
Qed.

Lemma decode_loop_stop s n acc ret : decode_loop (61 :: s) n acc ret = ret ++ decode_tail acc.
Proof. cbn [decode_loop]. by rewrite andb_false_r. Qed.

Lemma dec3_enc4 a b c : is_byte a → is_byte b → is_byte c →
  match enc4 a b c with [w; x; y; z] => dec3 w x y z = [a; b; c] | _ => False end.
Proof.
  intros Ha Hb Hc. rewrite enc4_arith by done. unfold is_byte in *.
  rewrite dec3_arith by (unfold is_byte; Z.to_euclidean_division_equations; lia).
  repeat f_equal; mach.
Qed.

Lemma encode_len l : zlen (base64_encode l) = 4 * ((zlen l + 2) / 3).
Proof.
  unfold base64_encode. induction l as [| | |a b c l IH] using list_ind3; try done.
  rewrite encode_loop_group, encode_loop_ret, app_nil_l, zlen_app, IH, !zlen_cons.
  change (zlen (map base64_char (enc4 a b c))) with 4.
  pose proof (zlen_nonneg l). Z.to_euclidean_division_equations; lia.
Qed.

(** Decoding inverts encoding, from any remaining-length counter that covers the text. *)
Lemma decode_encode_loop l : wf_bytes l → ∀ n,
  zlen (base64_encode l) <= n < 2 ^ 31 → decode_loop (base64_encode l) n [] [] = l.
Proof.
  unfold base64_encode. induction l as [|a|a b|a b c l IH] using list_ind3; intros Hwf n Hn.
  - done.
  - inversion_clear Hwf as [|? ? Ha _].
    assert (H0 : is_byte 0) by (unfold is_byte; lia).
    pose proof (enc4_sextets a 0 0 Ha H0 H0) as Hs. pose proof (dec3_enc4 a 0 0 Ha H0 H0) as Hd.
    change (zlen (encode_loop [a] [] [])) with 4 in Hn.
    cbn [encode_loop app encode_tail length replicate nth Nat.sub Nat.add].
    destruct (enc4 a 0 0) as [|w [|x [|y [|z [|]]]]]; try done. cbn [take map app].
    repeat rewrite Forall_cons in Hs. destruct Hs as (Hw & Hx & _).
    do 2 (rewrite decode_loop_char by (done || lia || (simpl; lia)); cbn [app]).
    rewrite decode_loop_stop. cbn [app decode_tail length Nat.sub replicate map nth take].
    rewrite !(fun k H => proj1 (base64_char_facts k H)) by done.
    unfold dec3 in *. cbn [take]. congruence.
  - inversion_clear Hwf as [|? ? Ha Hwf']. inversion_clear Hwf' as [|? ? Hb _].
    assert (H0 : is_byte 0) by (unfold is_byte; lia).
    pose proof (enc4_sextets a b 0 Ha Hb H0) as Hs. pose proof (dec3_enc4 a b 0 Ha Hb H0) as Hd.
    change (zlen (encode_loop [a; b] [] [])) with 4 in Hn.
    cbn [encode_loop app encode_tail length replicate nth Nat.sub Nat.add].
    destruct (enc4 a b 0) as [|w [|x [|y [|z [|]]]]]; try done. cbn [take map app].
    repeat rewrite Forall_cons in Hs. destruct Hs as (Hw & Hx & Hy & _).
    do 3 (rewrite decode_loop_char by (done || lia || (simpl; lia)); cbn [app]).
    rewrite decode_loop_stop. cbn [app decode_tail length Nat.sub replicate map nth take].
    rewrite !(fun k H => proj1 (base64_char_facts k H)) by done.
    unfold dec3 in *. cbn [take]. congruence.
  - inversion_clear Hwf as [|? ? Ha Hwf']. inversion_clear Hwf' as [|? ? Hb Hwf].
    inversion_clear Hwf as [|? ? Hc Hl].
    rewrite encode_loop_group, encode_loop_ret, app_nil_l in *.
    pose proof (enc4_sextets a b c Ha Hb Hc) as Hs. pose proof (dec3_enc4 a b c Ha Hb Hc) as Hd.
    rewrite zlen_app in Hn. change (zlen (map base64_char (enc4 a b c))) with 4 in Hn.
    pose proof (zlen_nonneg (encode_loop l [] [])).
    destruct (enc4 a b c) as [|w [|x [|y [|z [|]]]]]; try done.
    rewrite decode_loop_group, app_nil_l, decode_loop_ret, IH, Hd by (done || lia). done.
Qed.

(** ** Property *)

(** Base64 round trip.  Encoding any byte string of less than 2^30 bytes and decoding
    the text gives the bytes back; the text has four characters per started group of
    three bytes. *)
Theorem base64_roundtrip l :
  wf_bytes l → zlen l < 2 ^ 30 →
  base64_decode (base64_encode l) = l ∧ zlen (base64_encode l) = 4 * ((zlen l + 2) / 3).
Proof.
  intros Hwf Hl. pose proof (encode_len l) as He. split; [|done]. unfold base64_decode.
  pose proof (zlen_nonneg l).
  assert (0 <= zlen (base64_encode l) < 2 ^ 31)
    by (rewrite He; Z.to_euclidean_division_equations; lia).
  replace (i32 (zlen (base64_encode l))) with (zlen (base64_encode l)) by mach.
  apply decode_encode_loop; [done|lia].
Qed.

Lemma base64_roundtrip_witness :
  base64_encode (bytes_of_string "hello") = bytes_of_string "aGVsbG8=" ∧
  base64_decode (base64_encode (bytes_of_string "hello")) = bytes_of_string "hello".
Proof.
  split; [vm_compute; reflexivity|]. apply base64_roundtrip.
  - repeat constructor; vm_compute; congruence.
  - vm_compute; reflexivity.
Defined.
