(* ===== verification/Sha1.v ===== *)
(** * SHA-1 (src/PacketParse_Http/SHA1.hpp)

    The [CSHA1] class as the handshake of a websocket uses it: the unrolled compression
    function on a 16-word circular schedule, the streaming [Update], the padding of
    [Final], and the digest.  The second half states the algorithm of FIPS 180-4 and proves
    that the class computes it for every message and every way of cutting it up. *)

From Stdlib Require Import ZArith Lia Btauto.
From S2P Require Import Prelude.
From stdpp Require Import base numbers list strings.
Local Open Scope Z_scope.

(** ** The class *)

(** The five working words; [pState] and [m_state] are such quintuples. *)
Record words5 := mkWords { wa : Z; wb : Z; wc : Z; wd : Z; we : Z }.

Record CSHA1 := mkSHA1 {
  m_state : words5;
  m_count0 : Z;
  m_count1 : Z;
  m_buffer : list Z;
  m_digest : list Z;
}.

Definition ROL32 (x n : Z) : Z := Z.lor (u32 (Z.shiftl x n)) (Z.shiftr x (32 - n)).

(** [m_block->l[i]]. *)
Definition blk_get (blk : list Z) (i : Z) : Z := nth (Z.to_nat i) blk 0.
Definition blk_set (blk : list Z) (i v : Z) : list Z := <[Z.to_nat i := v]> blk.

(** [SHABLK0]: swap the bytes of word [i] in place.  [SHABLK]: the next schedule word. *)
Definition SHABLK0 (blk : list Z) (i : Z) : Z * list Z :=
  let l := blk_get blk i in
  let v := Z.lor (Z.land (ROL32 l 24) 4278255360) (Z.land (ROL32 l 8) 16711935) in
  (v, blk_set blk i v).

Definition SHABLK (blk : list Z) (i : Z) : Z * list Z :=
  let v := ROL32 (Z.lxor (Z.lxor (Z.lxor (blk_get blk (Z.land (i + 13) 15))
                                         (blk_get blk (Z.land (i + 8) 15)))
                                 (blk_get blk (Z.land (i + 2) 15)))
                         (blk_get blk (Z.land i 15))) 1 in
  (v, blk_set blk (Z.land i 15) v).

(** The round macros: the new values of [z] and [w] and of the block. *)
Definition S_R0 (v w x y z i : Z) (blk : list Z) : Z * Z * list Z :=
  let '(k, blk) := SHABLK0 blk i in
  (u32 (z + (Z.lxor (Z.land w (Z.lxor x y)) y + k + 1518500249 + ROL32 v 5)), ROL32 w 30, blk).
Definition S_R1 (v w x y z i : Z) (blk : list Z) : Z * Z * list Z :=
  let '(k, blk) := SHABLK blk i in
  (u32 (z + (Z.lxor (Z.land w (Z.lxor x y)) y + k + 1518500249 + ROL32 v 5)), ROL32 w 30, blk).
Definition S_R2 (v w x y z i : Z) (blk : list Z) : Z * Z * list Z :=
  let '(k, blk) := SHABLK blk i in
  (u32 (z + (Z.lxor (Z.lxor w x) y + k + 1859775393 + ROL32 v 5)), ROL32 w 30, blk).
Definition S_R3 (v w x y z i : Z) (blk : list Z) : Z * Z * list Z :=
  let '(k, blk) := SHABLK blk i in
  (u32 (z + (Z.lor (Z.land (Z.lor w x) y) (Z.land w x) + k + 2400959708 + ROL32 v 5)), ROL32 w 30, blk).
Definition S_R4 (v w x y z i : Z) (blk : list Z) : Z * Z * list Z :=
  let '(k, blk) := SHABLK blk i in
  (u32 (z + (Z.lxor (Z.lxor w x) y + k + 3395469782 + ROL32 v 5)), ROL32 w 30, blk).

(** The macro used at round [i] of the unrolled code. *)
Definition S_R (v w x y z i : Z) (blk : list Z) : Z * Z * list Z :=
  if i <? 16 then S_R0 v w x y z i blk
  else if i <? 20 then S_R1 v w x y z i blk
  else if i <? 40 then S_R2 v w x y z i blk
  else if i <? 60 then S_R3 v w x y z i blk
  else S_R4 v w x y z i blk.

(** Rounds [i .. i+4]: the register names return to their places every five rounds. *)
Definition five_rounds (s : words5 * list Z) (i : Z) : words5 * list Z :=
  let '(mkWords a b c d e, blk) := s in
  let '(e, b, blk) := S_R a b c d e i blk in
  let '(d, a, blk) := S_R e a b c d (i + 1) blk in
  let '(c, e, blk) := S_R d e a b c (i + 2) blk in
  let '(b, d, blk) := S_R c d e a b (i + 3) blk in
  let '(a, c, blk) := S_R b c d e a (i + 4) blk in
  (mkWords a b c d e, blk).

Definition round_starts : list Z := [0; 5; 10; 15; 20; 25; 30; 35; 40; 45; 50; 55; 60; 65; 70; 75].

Definition add_words (s t : words5) : words5 :=
  mkWords (wa s +u32 wa t) (wb s +u32 wb t) (wc s +u32 wc t) (wd s +u32 wd t) (we s +u32 we t).

(** The 16 little-endian words of 64 bytes: [memcpy(m_block, pBuffer, 64)]. *)
Definition le_words (buf : list Z) : list Z :=
  map (fun i => le_val (take 4 (drop (4 * i) buf))) (seq 0 16).

Definition Transform (pState : words5) (pBuffer : list Z) : words5 :=
  let '(s, _) := fold_left five_rounds round_starts (pState, le_words pBuffer) in
  add_words pState s.

Definition H0 : words5 := mkWords 1732584193 4023233417 2562383102 271733878 3285377520.

Definition Reset (s : CSHA1) : CSHA1 := mkSHA1 H0 0 0 (m_buffer s) (m_digest s).

(** The constructor: the arrays hold whatever the memory held. *)
Definition CSHA1_new (junk : CSHA1) : CSHA1 := Reset junk.

(** [for (; (i + 63) < uLen; i += 64) Transform(m_state, &pbData[i]);] *)
Fixpoint update_loop (fuel : nat) (st : words5) (pbData : list Z) (i uLen : Z) : outcome (words5 * Z) :=
  match fuel with
  | O => Fault
  | S fuel =>
      if (i +u32 63) <? uLen then
        let* blk := mem_read pbData i 64 in
        update_loop fuel (Transform st blk) pbData (i +u32 64) uLen
      else Ok (st, i)
  end.

Definition Update (s : CSHA1) (pbData : list Z) (uLen : Z) : outcome CSHA1 :=
  let j := Z.land (Z.shiftr (m_count0 s) 3) 63 in
  let add := u32 (Z.shiftl uLen 3) in
  let c0 := m_count0 s +u32 add in
  let c1 := if c0 <? add then m_count1 s +u32 1 else m_count1 s in
  let c1 := c1 +u32 Z.shiftr uLen 29 in
  let* '(st, buf, j, i) :=
    if 63 <? (j +u32 uLen) then
      let i := 64 -u32 j in
      let* d := mem_read pbData 0 i in
      let* buf := mem_write (m_buffer s) j d in
      let* '(st, i) := update_loop (S (Z.to_nat uLen)) (Transform (m_state s) buf) pbData i uLen in
      Ok (st, buf, 0, i)
    else Ok (m_state s, m_buffer s, j, 0) in
  let* buf :=
    if negb ((uLen -u32 i) =? 0) then
      let* d := mem_read pbData i (uLen -u32 i) in mem_write buf j d
    else Ok buf in
  Ok (mkSHA1 st c0 c1 buf (m_digest s)).

(** [while ((m_count[0] & 504) != 448) Update("\0", 1);] *)
Fixpoint pad_loop (fuel : nat) (s : CSHA1) : outcome CSHA1 :=
  match fuel with
  | O => Fault
  | S fuel =>
      if negb (Z.land (m_count0 s) 504 =? 448)
      then let* s := Update s [0] 1 in pad_loop fuel s
      else Ok s
  end.

(** Byte [i] of the big-endian rendering of a word. *)
Definition be_byte (w i : Z) : Z := Z.land (Z.shiftr w ((3 - Z.land i 3) * 8)) 255.

Definition final_count (s : CSHA1) : list Z :=
  map (fun i => be_byte (if 4 <=? i then m_count0 s else m_count1 s) i) (seqZ 0 8).

Definition word5 (s : words5) (i : Z) : Z :=
  if i =? 0 then wa s else if i =? 1 then wb s else if i =? 2 then wc s
  else if i =? 3 then wd s else we s.

Definition digest_of (s : words5) : list Z :=
  map (fun i => be_byte (word5 s (Z.shiftr i 2)) i) (seqZ 0 20).

Definition Final (s : CSHA1) : outcome CSHA1 :=
  let pbFinalCount := final_count s in
  let* s := Update s [128] 1 in
  let* s := pad_loop 64 s in
  let* s := Update s pbFinalCount 8 in
  let buf := replicate 64 0 in
  Ok (mkSHA1 (Transform (mkWords 0 0 0 0 0) buf) 0 0 buf (digest_of (m_state s))).

(** [GetHash] with a non-null destination. *)
Definition GetHash (s : CSHA1) : list Z := m_digest s.

(** ** The standard (FIPS 180-4, sections 4.1.1, 5.1.1 and 6.1) *)

Definition Ch (x y z : Z) : Z := Z.lxor (Z.land x y) (Z.ldiff z x).
Definition Parity (x y z : Z) : Z := Z.lxor (Z.lxor x y) z.
Definition Maj (x y z : Z) : Z := Z.lxor (Z.lxor (Z.land x y) (Z.land x z)) (Z.land y z).
Definition ROTL (n x : Z) : Z := Z.lor (u32 (Z.shiftl x n)) (Z.shiftr x (32 - n)).

Definition f_t (t : nat) : Z → Z → Z → Z :=
  if (t <? 20)%nat then Ch else if (t <? 40)%nat then Parity
  else if (t <? 60)%nat then Maj else Parity.
Definition K_t (t : nat) : Z :=
  if (t <? 20)%nat then 1518500249 else if (t <? 40)%nat then 1859775393
  else if (t <? 60)%nat then 2400959708 else 3395469782.

Definition be_val (l : list Z) : Z := fold_left (fun acc b => 256 * acc + b) l 0.
Definition be_words (blk : list Z) : list Z :=
  map (fun i => be_val (take 4 (drop (4 * i) blk))) (seq 0 16).

(** The message schedule [W_0 .. W_79]. *)
Definition next_word (ws : list Z) : Z :=
  let t := length ws in
  ROTL 1 (Z.lxor (Z.lxor (Z.lxor (nth (t - 3) ws 0) (nth (t - 8) ws 0))
                         (nth (t - 14) ws 0)) (nth (t - 16) ws 0)).
Fixpoint expand (n : nat) (ws : list Z) : list Z :=
  match n with O => ws | S n => expand n (ws ++ [next_word ws]) end.
Definition schedule (blk : list Z) : list Z := expand 64 (be_words blk).

Definition round_t (W : list Z) (s : words5) (t : nat) : words5 :=
  let '(mkWords a b c d e) := s in
  mkWords (u32 (ROTL 5 a + f_t t b c d + e + K_t t + nth t W 0)) a (ROTL 30 b) c d.

Definition compress (H : words5) (blk : list Z) : words5 :=
  add_words H (fold_left (round_t (schedule blk)) (seq 0 80) H).

(** Padding, and the hash of the padded message. *)
Fixpoint be_bytes (n : nat) (z : Z) : list Z :=
  match n with O => [] | S n => be_bytes n (z / 256) ++ [z mod 256] end.
Definition pad (msg : list Z) : list Z :=
  msg ++ [128] ++ replicate (Z.to_nat ((55 - zlen msg) mod 64)) 0 ++ be_bytes 8 (8 * zlen msg).

Fixpoint absorb (n : nat) (H : words5) (l : list Z) : words5 :=
  match n with O => H | S n => absorb n (compress H (take 64 l)) (drop 64 l) end.

Definition sha1 (msg : list Z) : list Z :=
  let H := absorb (length (pad msg) / 64)%nat H0 (pad msg) in
  concat (map (be_bytes 4) [wa H; wb H; wc H; wd H; we H]).

(** The published test vectors. *)
Definition hex_abc : list Z :=
  [169; 153; 62; 54; 71; 6; 129; 106; 186; 62; 37; 113; 120; 80; 194; 108; 156; 208; 216; 157].

Lemma sha1_abc : sha1 (bytes_of_string "abc") = hex_abc.
Proof. vm_compute. done. Qed.

(** ** Bitwise identities *)

Ltac bitwise :=
  apply Z.bits_inj'; intros ? ?;
  rewrite ?Z.lxor_spec, ?Z.land_spec, ?Z.lor_spec, ?Z.ldiff_spec, ?Z.lxor_spec, ?Z.land_spec,
    ?Z.lor_spec, ?Z.lxor_spec, ?Z.land_spec;
  btauto.

Lemma Ch_trick w x y : Z.lxor (Z.land w (Z.lxor x y)) y = Ch w x y.
Proof. unfold Ch. bitwise. Qed.

Lemma Maj_trick w x y : Z.lor (Z.land (Z.lor w x) y) (Z.land w x) = Maj w x y.
Proof. unfold Maj. bitwise. Qed.

(** Bit operations act separately on the low byte and on the rest. *)
Lemma bitop_split (op : Z → Z → Z) lo hi mlo mhi :
  (∀ x y, Z.shiftr (op x y) 8 = op (Z.shiftr x 8) (Z.shiftr y 8)) →
  (∀ x y, Z.land (op x y) (Z.ones 8) = op (Z.land x (Z.ones 8)) (Z.land y (Z.ones 8))) →
  0 <= lo < 256 → 0 <= mlo < 256 →
  op (lo + 256 * hi) (mlo + 256 * mhi) = op lo mlo + 256 * op hi mhi.
Proof.
  intros Hs Hm Hlo Hmlo.
  assert (Hd : ∀ a b, 0 <= a < 256 → Z.shiftr (a + 256 * b) 8 = b ∧ Z.land (a + 256 * b) (Z.ones 8) = a).
  { intros a b Hab. rewrite Z.shiftr_div_pow2, Z.land_ones by lia. change (2 ^ 8) with 256.
    Z.to_euclidean_division_equations; lia. }
  pose proof (Hs (lo + 256 * hi) (mlo + 256 * mhi)) as Es.
  pose proof (Hm (lo + 256 * hi) (mlo + 256 * mhi)) as Em.
  rewrite !(fun a b H => proj1 (Hd a b H)) in Es by lia.
  rewrite !(fun a b H => proj2 (Hd a b H)) in Em by lia.
  rewrite Z.shiftr_div_pow2 in Es by lia. rewrite Z.land_ones in Em by lia.
  rewrite <- Es, <- Em. change (2 ^ 8) with 256. Z.to_euclidean_division_equations; lia.
Qed.

Lemma land_split lo hi mlo mhi : 0 <= lo < 256 → 0 <= mlo < 256 →
  Z.land (lo + 256 * hi) (mlo + 256 * mhi) = Z.land lo mlo + 256 * Z.land hi mhi.
Proof. apply bitop_split; intros; [apply Z.shiftr_land|bitwise]. Qed.

Lemma lor_split lo hi mlo mhi : 0 <= lo < 256 → 0 <= mlo < 256 →
  Z.lor (lo + 256 * hi) (mlo + 256 * mhi) = Z.lor lo mlo + 256 * Z.lor hi mhi.
Proof. apply bitop_split; intros; [apply Z.shiftr_lor|bitwise]. Qed.

(** Four bytes as nested splits. *)
Definition quad (a b c d : Z) : Z := a + 256 * (b + 256 * (c + 256 * d)).

Lemma land_quad a b c d a' b' c' d' :
  is_byte a → is_byte b → is_byte c → is_byte a' → is_byte b' → is_byte c' →
  Z.land (quad a b c d) (quad a' b' c' d') = quad (Z.land a a') (Z.land b b') (Z.land c c') (Z.land d d').
Proof. intros. unfold quad. by rewrite !land_split. Qed.

Lemma lor_quad a b c d a' b' c' d' :
  is_byte a → is_byte b → is_byte c → is_byte a' → is_byte b' → is_byte c' →
  Z.lor (quad a b c d) (quad a' b' c' d') = quad (Z.lor a a') (Z.lor b b') (Z.lor c c') (Z.lor d d').
Proof. intros. unfold quad. by rewrite !lor_split. Qed.

Lemma land_255 b : is_byte b → Z.land b 255 = b.
Proof. apply (byte_eq (fun b => Z.land b 255) (fun b => b)). vm_compute. done. Qed.

Lemma byte_0 : is_byte 0.
Proof. unfold is_byte. lia. Qed.
Lemma byte_255 : is_byte 255.
Proof. unfold is_byte. lia. Qed.
#[local] Hint Resolve byte_0 byte_255 : core.

(** Rotating a little-endian word by whole bytes. *)
Lemma ROL32_24 a b c d : is_byte a → is_byte b → is_byte c → is_byte d →
  ROL32 (quad a b c d) 24 = quad b c d a.
Proof.
  intros Ha Hb Hc Hd. unfold ROL32.
  replace (u32 (Z.shiftl (quad a b c d) 24)) with (quad 0 0 0 a).
  2:{ rewrite Z.shiftl_mul_pow2 by lia. change (2 ^ 24) with 16777216.
      unfold quad, is_byte in *. mach. }
  replace (Z.shiftr (quad a b c d) (32 - 24)) with (quad b c d 0).
  2:{ rewrite Z.shiftr_div_pow2 by lia. change (2 ^ (32 - 24)) with 256.
      unfold quad, is_byte in *. Z.to_euclidean_division_equations; lia. }
  rewrite lor_quad by done. by rewrite !Z.lor_0_l, Z.lor_0_r.
Qed.

Lemma ROL32_8 a b c d : is_byte a → is_byte b → is_byte c → is_byte d →
  ROL32 (quad a b c d) 8 = quad d a b c.
Proof.
  intros Ha Hb Hc Hd. unfold ROL32.
  replace (u32 (Z.shiftl (quad a b c d) 8)) with (quad 0 a b c).
  2:{ rewrite Z.shiftl_mul_pow2 by lia. change (2 ^ 8) with 256.
      unfold quad, is_byte in *. mach. }
  replace (Z.shiftr (quad a b c d) (32 - 8)) with (quad d 0 0 0).
  2:{ rewrite Z.shiftr_div_pow2 by lia. change (2 ^ (32 - 8)) with 16777216.
      unfold quad, is_byte in *. Z.to_euclidean_division_equations; lia. }
  rewrite lor_quad by done. by rewrite !Z.lor_0_l, !Z.lor_0_r.
Qed.

(** The byte swap of [SHABLK0]. *)
Lemma swap_quad a b c d : is_byte a → is_byte b → is_byte c → is_byte d →
  Z.lor (Z.land (ROL32 (quad a b c d) 24) 4278255360) (Z.land (ROL32 (quad a b c d) 8) 16711935)
  = quad d c b a.
Proof.
  intros Ha Hb Hc Hd. rewrite ROL32_24, ROL32_8 by done.
  change 4278255360 with (quad 0 255 0 255). change 16711935 with (quad 255 0 255 0).
  rewrite !land_quad by done. rewrite !Z.land_0_r, !land_255 by done.
  rewrite lor_quad by done. by rewrite !Z.lor_0_l, !Z.lor_0_r.
Qed.

(** ** The message schedule *)

Lemma word_at buf i : wf_bytes buf → length buf = 64%nat → (i < 16)%nat →
  ∃ a b c d, take 4 (drop (4 * i) buf) = [a; b; c; d] ∧ is_byte a ∧ is_byte b ∧ is_byte c ∧ is_byte d.
Proof.
  intros Hwf Hl Hi.
  assert (Hw : wf_bytes (take 4 (drop (4 * i) buf))) by (by apply Forall_take, Forall_drop).
  assert (Hn : length (take 4 (drop (4 * i) buf)) = 4%nat)
    by (rewrite length_take, length_drop; lia).
  destruct (take 4 (drop (4 * i) buf)) as [|a [|b [|c [|d [|]]]]]; try done.
  unfold wf_bytes in Hw. rewrite !Forall_cons in Hw. destruct Hw as (? & ? & ? & ? & _). by exists a, b, c, d.
Qed.

Lemma nth_map_seq (f : nat → Z) n i : (i < n)%nat → nth i (map f (seq 0 n)) 0 = f i.
Proof.
  intros. rewrite (nth_indep _ 0 (f 0%nat)) by (rewrite length_map, length_seq; lia).
  by rewrite map_nth, seq_nth.
Qed.

Lemma swap_word buf i : wf_bytes buf → length buf = 64%nat → (i < 16)%nat →
  let l := nth i (le_words buf) 0 in
  Z.lor (Z.land (ROL32 l 24) 4278255360) (Z.land (ROL32 l 8) 16711935) = nth i (be_words buf) 0.
Proof.
  intros Hwf Hl Hi. cbv zeta. unfold le_words, be_words. rewrite !nth_map_seq by done.
  destruct (word_at buf i Hwf Hl Hi) as (a & b & c & d & -> & ? & ? & ? & ?).
  replace (le_val [a; b; c; d]) with (quad a b c d) by (unfold quad; cbn [le_val]; lia).
  rewrite swap_quad by done. unfold quad, be_val. cbn [fold_left]. lia.
Qed.

Lemma expand_prefix n : ∀ ws t, (t < length ws)%nat → nth t (expand n ws) 0 = nth t ws 0.
Proof.
  induction n as [|n IH]; intros ws t Ht; [done|]. cbn [expand].
  rewrite IH by (rewrite length_app; simpl; lia). by rewrite app_nth1.
Qed.

Lemma expand_next n : ∀ ws t, (16 <= length ws <= t)%nat → (t < length ws + n)%nat →
  nth t (expand n ws) 0 =
  ROTL 1 (Z.lxor (Z.lxor (Z.lxor (nth (t - 3) (expand n ws) 0) (nth (t - 8) (expand n ws) 0))
                 (nth (t - 14) (expand n ws) 0)) (nth (t - 16) (expand n ws) 0)).
Proof.
  induction n as [|n IH]; intros ws t Hw Ht; [lia|]. cbn [expand].
  destruct (decide (t = length ws)) as [->|Hne].
  - rewrite !expand_prefix by (rewrite length_app; simpl; lia).
    rewrite nth_middle, !app_nth1 by lia. done.
  - apply IH; rewrite length_app; simpl; lia.
Qed.

Lemma schedule_first buf t : (t < 16)%nat → nth t (schedule buf) 0 = nth t (be_words buf) 0.
Proof.
  intros. unfold schedule. apply expand_prefix. unfold be_words. by rewrite length_map, length_seq.
Qed.

Lemma schedule_next buf t : (16 <= t < 80)%nat →
  nth t (schedule buf) 0 =
  ROTL 1 (Z.lxor (Z.lxor (Z.lxor (nth (t - 3) (schedule buf) 0) (nth (t - 8) (schedule buf) 0))
                 (nth (t - 14) (schedule buf) 0)) (nth (t - 16) (schedule buf) 0)).
Proof.
  intros. unfold schedule.
  assert (Hw : length (be_words buf) = 16%nat) by (unfold be_words; by rewrite length_map, length_seq).
  apply expand_next; rewrite Hw; lia.
Qed.
#[local] Opaque schedule u32.

(** What the 16-word block holds before round [i]: the raw words not yet used, and the
    last sixteen words of the schedule. *)
Definition blk_inv (buf : list Z) (i : nat) (blk : list Z) : Prop :=
  length blk = 16%nat ∧
  (∀ j, (i <= j < 16)%nat → nth j blk 0 = nth j (le_words buf) 0) ∧
  (∀ t, (t < i <= t + 16)%nat → nth (t mod 16) blk 0 = nth t (schedule buf) 0).

Lemma blk_get_land blk n : blk_get blk (Z.land (Z.of_nat n) 15) = nth (n mod 16) blk 0.
Proof.
  unfold blk_get. f_equal. change 15 with (Z.ones 4). rewrite Z.land_ones by lia.
  change (2 ^ 4) with (Z.of_nat 16). by rewrite <- Nat2Z.inj_mod, Nat2Z.id.
Qed.

Lemma nth_insert_eq (l : list Z) i v : (i < length l)%nat → nth i (<[i := v]> l) 0 = v.
Proof. intros. rewrite nth_lookup, list_lookup_insert_eq; done. Qed.

Lemma nth_insert_ne (l : list Z) i j v : i ≠ j → nth j (<[i := v]> l) 0 = nth j l 0.
Proof. intros. by rewrite !nth_lookup, list_lookup_insert_ne. Qed.

Lemma ROL32_ROTL x n : ROL32 x n = ROTL n x.
Proof. done. Qed.

(** The word mixed in at round [i] is [W_i], and the invariant moves on. *)
Lemma SHABLK0_word buf i blk : wf_bytes buf → length buf = 64%nat → (i < 16)%nat →
  blk_inv buf i blk →
  ∃ blk', SHABLK0 blk (Z.of_nat i) = (nth i (schedule buf) 0, blk') ∧ blk_inv buf (S i) blk'.
Proof.
  intros Hwf Hl Hi (Hlen & Hraw & Hsched). unfold SHABLK0, blk_get, blk_set. rewrite Nat2Z.id.
  rewrite Hraw by lia. rewrite swap_word by done.
  rewrite <- schedule_first by done. eexists. split; [done|]. split_and!.
  - by rewrite length_insert.
  - intros j Hj. rewrite nth_insert_ne by lia. apply Hraw. lia.
  - intros t Ht. rewrite Nat.mod_small by lia. destruct (decide (t = i)) as [->|].
    + rewrite nth_insert_eq by lia. done.
    + rewrite nth_insert_ne by lia. rewrite <- (Nat.mod_small t 16) at 1 by lia. apply Hsched. lia.
Qed.

Lemma SHABLK_word buf i blk : (16 <= i < 80)%nat → blk_inv buf i blk →
  ∃ blk', SHABLK blk (Z.of_nat i) = (nth i (schedule buf) 0, blk') ∧ blk_inv buf (S i) blk'.
Proof.
  intros Hi (Hlen & _ & Hsched). unfold SHABLK.
  change 13 with (Z.of_nat 13). change 8 with (Z.of_nat 8). change 2 with (Z.of_nat 2).
  rewrite <- !Nat2Z.inj_add, !blk_get_land.
  replace ((i + 13) mod 16)%nat with ((i - 3) mod 16)%nat
    by (replace (i + 13)%nat with (i - 3 + 1 * 16)%nat by lia; symmetry; apply Nat.Div0.mod_add).
  replace ((i + 8) mod 16)%nat with ((i - 8) mod 16)%nat
    by (replace (i + 8)%nat with (i - 8 + 1 * 16)%nat by lia; symmetry; apply Nat.Div0.mod_add).
  replace ((i + 2) mod 16)%nat with ((i - 14) mod 16)%nat
    by (replace (i + 2)%nat with (i - 14 + 1 * 16)%nat by lia; symmetry; apply Nat.Div0.mod_add).
  replace (i mod 16)%nat with ((i - 16) mod 16)%nat
    by (replace i with (i - 16 + 1 * 16)%nat at 2 by lia; symmetry; apply Nat.Div0.mod_add).
  rewrite !Hsched by lia.
  rewrite ROL32_ROTL, <- schedule_next by lia. eexists. split; [reflexivity|].
  assert (Hix : Z.to_nat (Z.land (Z.of_nat i) 15) = (i mod 16)%nat).
  { change 15 with (Z.ones 4). rewrite Z.land_ones by lia.
    change (2 ^ 4) with (Z.of_nat 16). by rewrite <- Nat2Z.inj_mod, Nat2Z.id. }
  unfold blk_set. rewrite Hix. pose proof (Nat.mod_upper_bound i 16). split_and!.
  - by rewrite length_insert.
  - lia.
  - intros t Ht. destruct (decide (t = i)) as [->|].
    + by rewrite nth_insert_eq by lia.
    + rewrite nth_insert_ne; [apply Hsched; lia|].
      pose proof (Nat.div_mod_eq i 16). pose proof (Nat.div_mod_eq t 16). lia.
Qed.

(** ** The compression function *)

Lemma round_sum z f k c r : u32 (z + (f + k + c + r)) = u32 (r + f + z + c + k).
Proof. f_equal. lia. Qed.

Lemma S_R_round buf i v w x y z blk :
  wf_bytes buf → length buf = 64%nat → (i < 80)%nat → blk_inv buf i blk →
  ∃ z' w' blk', S_R v w x y z (Z.of_nat i) blk = (z', w', blk') ∧
    round_t (schedule buf) (mkWords v w x y z) i = mkWords z' v w' x y ∧ blk_inv buf (S i) blk'.
Proof.
  intros Hwf Hl Hi Hinv. unfold S_R, round_t, f_t, K_t.
  destruct (Z.ltb_spec (Z.of_nat i) 16).
  - destruct (SHABLK0_word buf i blk) as (blk' & E & Hinv'); [done|done|lia|done|].
    rewrite (proj2 (Nat.ltb_lt i 20)) by lia. unfold S_R0. rewrite E, Ch_trick.
    do 3 eexists. split; [reflexivity|split; [|exact Hinv']]; rewrite !ROL32_ROTL, round_sum; reflexivity.
  - destruct (SHABLK_word buf i blk) as (blk' & E & Hinv'); [lia|done|].
    destruct (Z.ltb_spec (Z.of_nat i) 20); [|destruct (Z.ltb_spec (Z.of_nat i) 40);
      [|destruct (Z.ltb_spec (Z.of_nat i) 60)]].
    + rewrite (proj2 (Nat.ltb_lt i 20)) by lia. unfold S_R1. rewrite E, Ch_trick.
      do 3 eexists. split; [reflexivity|split; [|exact Hinv']]; rewrite !ROL32_ROTL, round_sum; reflexivity.
    + rewrite (proj2 (Nat.ltb_ge i 20)), (proj2 (Nat.ltb_lt i 40)) by lia. unfold S_R2. rewrite E.
      do 3 eexists. split; [reflexivity|split; [|exact Hinv']]; rewrite !ROL32_ROTL, round_sum; reflexivity.
    + rewrite (proj2 (Nat.ltb_ge i 20)), (proj2 (Nat.ltb_ge i 40)), (proj2 (Nat.ltb_lt i 60)) by lia.
      unfold S_R3. rewrite E, Maj_trick.
      do 3 eexists. split; [reflexivity|split; [|exact Hinv']]; rewrite !ROL32_ROTL, round_sum; reflexivity.
    + rewrite (proj2 (Nat.ltb_ge i 20)), (proj2 (Nat.ltb_ge i 40)), (proj2 (Nat.ltb_ge i 60)) by lia.
      unfold S_R4. rewrite E.
      do 3 eexists. split; [reflexivity|split; [|exact Hinv']]; rewrite !ROL32_ROTL, round_sum; reflexivity.
Qed.

Lemma five_rounds_spec buf i s blk :
  wf_bytes buf → length buf = 64%nat → (i + 5 <= 80)%nat → blk_inv buf i blk →
  ∃ blk', five_rounds (s, blk) (Z.of_nat i) = (fold_left (round_t (schedule buf)) (seq i 5) s, blk') ∧
          blk_inv buf (i + 5) blk'.
Proof.
  intros Hwf Hl Hi H0. destruct s as [a b c d e]. unfold five_rounds. cbn [seq fold_left].
  destruct (S_R_round buf i a b c d e blk) as (e1 & b1 & blk1 & -> & -> & H1); [done|done|lia|done|].
  replace (Z.of_nat i + 1) with (Z.of_nat (S i)) by lia.
  destruct (S_R_round buf (S i) e1 a b1 c d blk1) as (d1 & a1 & blk2 & -> & -> & H2); [done|done|lia|done|].
  replace (Z.of_nat i + 2) with (Z.of_nat (S (S i))) by lia.
  destruct (S_R_round buf (S (S i)) d1 e1 a1 b1 c blk2) as (c1 & e2 & blk3 & -> & -> & H3); [done|done|lia|done|].
  replace (Z.of_nat i + 3) with (Z.of_nat (S (S (S i)))) by lia.
  destruct (S_R_round buf (S (S (S i))) c1 d1 e2 a1 b1 blk3) as (b2 & d2 & blk4 & -> & -> & H4); [done|done|lia|done|].
  replace (Z.of_nat i + 4) with (Z.of_nat (S (S (S (S i))))) by lia.
  destruct (S_R_round buf (S (S (S (S i)))) b2 c1 d2 e2 a1 blk4) as (a2 & c2 & blk5 & -> & -> & H5); [done|done|lia|done|].
  exists blk5. split; [done|]. replace (i + 5)%nat with (S (S (S (S (S i))))) by lia. done.
Qed.

Lemma all_rounds buf n : ∀ k s blk,
  wf_bytes buf → length buf = 64%nat → (5 * (k + n) <= 80)%nat → blk_inv buf (5 * k) blk →
  ∃ blk', fold_left five_rounds (map (fun j => Z.of_nat (5 * j)) (seq k n)) (s, blk) =
            (fold_left (round_t (schedule buf)) (seq (5 * k) (5 * n)) s, blk').
Proof.
  induction n as [|n IH]; intros k s blk Hwf Hl Hk Hinv.
  - replace (5 * 0)%nat with 0%nat by lia. by exists blk.
  - destruct (five_rounds_spec buf (5 * k) s blk) as (blk1 & E & H1); [done|done|lia|done|].
    cbn [seq map fold_left]. rewrite E.
    replace (5 * k + 5)%nat with (5 * S k)%nat in H1 by lia.
    destruct (IH (S k) (fold_left (round_t (schedule buf)) (seq (5 * k) 5) s) blk1) as (blk' & E');
      [done|done|lia|done|].
    exists blk'. rewrite E'. replace (5 * S n)%nat with (5 + 5 * n)%nat by lia.
    rewrite seq_app, fold_left_app. do 3 f_equal. lia.
Qed.

Lemma Transform_compress st buf :
  wf_bytes buf → length buf = 64%nat → Transform st buf = compress st buf.
Proof.
  intros Hwf Hl. unfold Transform, compress.
  change round_starts with (map (fun j => Z.of_nat (5 * j)) (seq 0 16)).
  destruct (all_rounds buf 16 0 st (le_words buf)) as (blk' & ->); [done|done|lia| |reflexivity].
  split_and!; [unfold le_words; by rewrite length_map, length_seq|done|lia].
Qed.
#[local] Opaque Transform compress.

Lemma absorb_app n m : ∀ H l1 l2, length l1 = (64 * n)%nat →
  absorb (n + m) H (l1 ++ l2) = absorb m (absorb n H l1) l2.
Proof.
  induction n as [|n IH]; intros H l1 l2 Hl; cbn [Nat.add absorb].
  - apply nil_length_inv in Hl as ->. done.
  - rewrite take_app_le, drop_app_le by lia. apply IH. rewrite length_drop. lia.
Qed.

Lemma absorb_suffix n : ∀ H l1 l2, length l1 = (64 * n)%nat → absorb n H (l1 ++ l2) = absorb n H l1.
Proof.
  intros H l1 l2 Hl. pose proof (absorb_app n 0 H l1 l2 Hl) as E.
  by rewrite Nat.add_0_r in E.
Qed.

(** ** Streaming *)

Lemma update_loop_spec fuel : ∀ st pre rest,
  wf_bytes rest → zlen (pre ++ rest) < 2 ^ 32 - 64 → (length rest / 64 < fuel)%nat →
  update_loop fuel st (pre ++ rest) (zlen pre) (zlen (pre ++ rest)) =
  Ok (absorb (length rest / 64) st rest, zlen pre + 64 * Z.of_nat (length rest / 64)).
Proof.
  induction fuel as [|fuel IH]; intros st pre rest Hwf Hlen Hf; [lia|].
  cbn [update_loop]. pose proof (zlen_nonneg pre). pose proof (zlen_nonneg rest).
  rewrite zlen_app in *. rewrite (u32_small (zlen pre + 63)) by lia.
  destruct (Z.ltb_spec (zlen pre + 63) (zlen pre + zlen rest)) as [Hb|Hb].
  - assert (Hr : (64 <= length rest)%nat) by (unfold zlen in *; lia).
    pose proof (take_drop 64 rest) as Hsplit.
    assert (Ht : zlen (take 64 rest) = 64) by (unfold zlen; rewrite length_take; lia).
    rewrite <- Hsplit at 1. rewrite <- Ht at 1. rewrite mem_read_app_middle. cbn [obind].
    rewrite Transform_compress; [|by apply Forall_take|rewrite length_take; lia].
    rewrite (u32_small (zlen pre + 64)) by lia.
    assert (Hq : (length rest / 64 = S (length (drop 64 rest) / 64))%nat).
    { rewrite length_drop. replace (length rest) with (length rest - 64 + 1 * 64)%nat at 1 by lia.
      rewrite Nat.div_add by lia. lia. }
    specialize (IH (compress st (take 64 rest)) (pre ++ take 64 rest) (drop 64 rest)).
    rewrite <- app_assoc, Hsplit, !zlen_app, Ht in IH.
    replace (zlen pre + 64 + zlen (drop 64 rest)) with (zlen pre + zlen rest) in IH
      by (unfold zlen; rewrite length_drop; lia).
    rewrite IH; [|by apply Forall_drop|done|lia].
    rewrite Hq. cbn [absorb]. do 2 f_equal. lia.
  - rewrite Nat.div_small by (unfold zlen in *; lia). cbn [absorb]. do 2 f_equal. lia.
Qed.

(** [n] blocks [dn] are absorbed and [rem] is pending in the buffer. *)
Record Rep (n : nat) (dn rem : list Z) (s : CSHA1) : Prop := {
  rep_done : length dn = (64 * n)%nat;
  rep_rem : (length rem < 64)%nat;
  rep_state : m_state s = absorb n H0 dn;
  rep_buffer : length (m_buffer s) = 64%nat ∧ take (length rem) (m_buffer s) = rem;
  rep_count0 : m_count0 s = u32 (8 * zlen (dn ++ rem));
  rep_count1 : m_count1 s = u32 (8 * zlen (dn ++ rem) / 2 ^ 32);
}.

Lemma Rep_index n dn rem s : Rep n dn rem s →
  Z.land (Z.shiftr (m_count0 s) 3) 63 = zlen rem.
Proof.
  intros []. rewrite rep_count2. change 63 with (Z.ones 6).
  rewrite Z.land_ones, Z.shiftr_div_pow2 by lia. rewrite zlen_app. unfold zlen. rewrite rep_done0.
  change (2 ^ 3) with 8. change (2 ^ 6) with 64. Local Transparent u32. mach.
Qed.

Lemma Rep_counts n dn rem s len : Rep n dn rem s → 0 <= len < 2 ^ 32 →
  let add := u32 (Z.shiftl len 3) in
  let c0 := u32 (m_count0 s + add) in
  let c1 := u32 ((if c0 <? add then u32 (m_count1 s + 1) else m_count1 s) + Z.shiftr len 29) in
  c0 = u32 (8 * (zlen (dn ++ rem) + len)) ∧ c1 = u32 (8 * (zlen (dn ++ rem) + len) / 2 ^ 32).
Proof.
  intros [] Hlen. cbv zeta. rewrite rep_count2, rep_count3.
  rewrite Z.shiftl_mul_pow2, Z.shiftr_div_pow2 by lia. change (2 ^ 3) with 8. change (2 ^ 29) with 536870912.
  pose proof (zlen_nonneg (dn ++ rem)). generalize dependent (zlen (dn ++ rem)). intros L **.
  clear -Hlen H. unfold u32, uwrap. change (2 ^ 32) with 4294967296 in *. split.
  { rewrite <- Zplus_mod. f_equal. lia. }
  destruct (Z.ltb_spec (((8 * L) mod 4294967296 + (len * 8) mod 4294967296) mod 4294967296)
             ((len * 8) mod 4294967296)); Z.to_euclidean_division_equations; lia.
Qed.

(** [memcpy] of the new bytes behind the pending ones. *)
Lemma buffer_write buf rem d : length buf = 64%nat → take (length rem) buf = rem →
  zlen rem + zlen d <= 64 →
  ∃ buf', mem_write buf (zlen rem) d = Ok buf' ∧ length buf' = 64%nat ∧
          take (length (rem ++ d)) buf' = rem ++ d.
Proof.
  intros Hb Hr Hd. pose proof (zlen_nonneg d). pose proof (zlen_nonneg rem). unfold mem_write.
  rewrite (proj2 (Z.leb_le 0 _)), (proj2 (Z.leb_le _ (zlen buf))) by (unfold zlen in *; lia).
  cbn [andb]. eexists. split; [reflexivity|].
  unfold ztake, zdrop, zlen in *. rewrite Nat2Z.id, Hr. split.
  - rewrite !length_app, length_drop. lia.
  - by rewrite app_assoc, take_app_length.
Qed.

(** The final copy of [Update]: [d2] is what is left of the data, written behind [rem]. *)
Lemma update_tail buf rem d1 d2 : length buf = 64%nat → take (length rem) buf = rem →
  zlen rem + zlen d2 <= 64 → zlen (d1 ++ d2) < 2 ^ 32 →
  ∃ buf', (if negb (u32 (zlen (d1 ++ d2) - zlen d1) =? 0)
           then let* d := mem_read (d1 ++ d2) (zlen d1) (u32 (zlen (d1 ++ d2) - zlen d1)) in
                mem_write buf (zlen rem) d
           else Ok buf) = Ok buf' ∧
          length buf' = 64%nat ∧ take (length (rem ++ d2)) buf' = rem ++ d2.
Proof.
  intros Hb Hr Hd Hl. pose proof (zlen_nonneg d1). pose proof (zlen_nonneg d2).
  rewrite zlen_app in *. replace (zlen d1 + zlen d2 - zlen d1) with (zlen d2) by lia.
  rewrite u32_small by lia. destruct (Z.eqb_spec (zlen d2) 0) as [E|E]; cbn [negb].
  - apply zlen_zero in E as ->. rewrite app_nil_r. eauto.
  - pose proof (mem_read_app_middle d1 d2 []) as Em. rewrite app_nil_r in Em. rewrite Em.
    cbn [obind]. by apply buffer_write.
Qed.

(** The branch of [Update] that completes the pending block: [d1] of the data is consumed
    in whole blocks and [rem'] is left. *)
Lemma update_blocks n dn rem s d :
  Rep n dn rem s → wf_bytes rem → wf_bytes d → zlen d < 2 ^ 32 - 64 → 64 <= zlen rem + zlen d →
  ∃ n' d1 rem' buf,
    (let i := 64 -u32 zlen rem in
     let* d0 := mem_read d 0 i in
     let* buf := mem_write (m_buffer s) (zlen rem) d0 in
     let* '(st, i) := update_loop (S (Z.to_nat (zlen d))) (Transform (m_state s) buf) d i (zlen d) in
     Ok (st, buf, 0, i)) = Ok (absorb n' H0 (dn ++ rem ++ d1), buf, 0, zlen d1) ∧
    d = d1 ++ rem' ∧ length (dn ++ rem ++ d1) = (64 * n')%nat ∧ (length rem' < 64)%nat ∧
    length buf = 64%nat ∧ wf_bytes rem'.
Proof.
  intros [Hdn Hrem Hst [Hbl Hbt] _ _] Hwr Hwd Hd Hbig. pose proof (zlen_nonneg rem). cbv zeta.
  assert (Hr : zlen rem < 64) by (unfold zlen; lia). rewrite (u32_small (64 - zlen rem)) by lia.
  assert (∃ d1 d2, d = d1 ++ d2 ∧ zlen d1 = 64 - zlen rem) as (d1 & d2 & -> & Hd1).
  { eexists _, _. split; [symmetry; apply (ztake_zdrop (64 - zlen rem))|]. apply zlen_ztake. lia. }
  rewrite <- Hd1. rewrite mem_read_ok, zdrop_0, ztake_app_eq by
    (rewrite ?zlen_app; pose proof (zlen_nonneg d2); lia || done). cbn [obind].
  destruct (buffer_write (m_buffer s) rem d1) as (buf & -> & Hb1 & Hb2); [done|done|lia|]. cbn [obind].
  apply wf_bytes_app in Hwd as [Hw1 Hw2].
  assert (Hbuf : buf = rem ++ d1).
  { rewrite <- Hb2, take_ge; [done|]. rewrite length_app. unfold zlen in *. lia. }
  rewrite Transform_compress; [|rewrite Hbuf; by apply wf_bytes_app|done].
  rewrite update_loop_spec; [|done|done|].
  2:{ rewrite zlen_app. unfold zlen.
      pose proof (Nat.Div0.div_le_upper_bound (length d2) 64 (length d2)). lia. }
  cbn [obind]. set (m := (length d2 / 64)%nat).
  pose proof (Nat.div_mod_eq (length d2) 64) as Hdm. fold m in Hdm.
  pose proof (Nat.mod_upper_bound (length d2) 64).
  assert (Hd3 : length (take (64 * m) d2) = (64 * m)%nat) by (rewrite length_take; lia).
  exists (n + (1 + m))%nat, (d1 ++ take (64 * m) d2), (drop (64 * m) d2), buf. split_and!.
  - rewrite Hst, <- (take_drop (64 * m) d2) at 1. rewrite absorb_suffix by done.
    rewrite absorb_app by done. rewrite app_assoc, absorb_app by (rewrite length_app; unfold zlen in *; lia).
    cbn [absorb]. rewrite <- Hbuf, (take_ge buf) by lia. do 3 f_equal. rewrite zlen_app. unfold zlen; lia.
  - by rewrite <- app_assoc, take_drop.
  - rewrite !length_app. unfold zlen in *. lia.
  - rewrite length_drop. lia.
  - done.
  - by apply Forall_drop.
Qed.

Lemma Update_spec n dn rem s d :
  Rep n dn rem s → wf_bytes rem → wf_bytes d → zlen d < 2 ^ 32 - 64 →
  ∃ n' dn' rem' s', Update s d (zlen d) = Ok s' ∧ dn' ++ rem' = dn ++ rem ++ d ∧
    Rep n' dn' rem' s' ∧ wf_bytes rem' ∧ m_digest s' = m_digest s.
Proof.
  intros HR Hwr Hwd Hd. pose proof (zlen_nonneg d). pose proof (zlen_nonneg rem).
  destruct (Rep_counts n dn rem s (zlen d) HR) as [E0 E1]; [lia|].
  pose proof (update_blocks n dn rem s d HR Hwr Hwd Hd) as Hblocks.
  pose proof (Rep_index n dn rem s HR) as Ej. destruct HR as [Hdn Hrem Hst [Hbl Hbt] _ _].
  assert (Hr : zlen rem < 64) by (unfold zlen; lia).
  unfold Update. rewrite Ej. cbv zeta. rewrite E1, E0. rewrite (u32_small (zlen rem + zlen d)) by lia.
  destruct (Z.ltb_spec 63 (zlen rem + zlen d)) as [Hbig|Hsmall].
  - destruct Hblocks as (n' & d1 & rem' & buf & Eblk & -> & Hlen & Hrem' & Hbuf & Hwf'); [lia|].
    cbv zeta in Eblk. rewrite Eblk. cbn [obind].
    destruct (update_tail buf [] d1 rem') as (buf' & Etail & Hb1 & Hb2); [done|done| |lia|].
    { change (zlen (@nil Z)) with 0. unfold zlen. lia. }
    change (zlen (@nil Z)) with 0 in Etail. rewrite Etail. cbn [obind].
    eexists n', (dn ++ rem ++ d1), rem', _. split; [reflexivity|]. split_and!; [by rewrite <- !app_assoc| |done|done].
    split; cbn; [done|done|done|done|f_equal|do 2 f_equal]; rewrite !zlen_app; lia.
  - cbn [obind]. destruct (update_tail (m_buffer s) rem [] d) as (buf' & Etail & Hb1 & Hb2);
      [done|done|lia|cbn [app]; lia|].
    change (zlen (@nil Z)) with 0 in Etail. cbn [app] in Etail. rewrite Etail. cbn [obind].
    eexists n, dn, (rem ++ d), _. split; [reflexivity|]. split_and!; [done| |by apply wf_bytes_app|done].
    split; cbn; [done|rewrite length_app; unfold zlen in *; lia|done|done|f_equal|do 2 f_equal];
      rewrite !zlen_app; lia.
Qed.

(** ** Finalisation *)

Lemma Rep_pad_test n dn rem s : Rep n dn rem s → Z.land (m_count0 s) 504 = 8 * zlen rem.
Proof.
  intros HR. pose proof (Rep_index n dn rem s HR) as Hj. destruct HR as [_ _ _ _ Hc _].
  assert (E : m_count0 s = Z.shiftl (Z.shiftr (m_count0 s) 3) 3).
  { rewrite Z.shiftl_mul_pow2, Z.shiftr_div_pow2, Hc by lia. change (2 ^ 3) with 8. mach. }
  rewrite E. change 504 with (Z.shiftl 63 3). rewrite <- Z.shiftl_land, Hj, Z.shiftl_mul_pow2; lia.
Qed.

Lemma pad_loop_spec fuel : ∀ n dn rem s,
  Rep n dn rem s → wf_bytes rem → (56 - zlen rem) mod 64 < Z.of_nat fuel →
  ∃ n' dn' rem' s', pad_loop fuel s = Ok s' ∧
    dn' ++ rem' = dn ++ rem ++ replicate (Z.to_nat ((56 - zlen rem) mod 64)) 0 ∧
    Rep n' dn' rem' s' ∧ wf_bytes rem' ∧ zlen rem' = 56.
Proof.
  induction fuel as [|fuel IH]; intros n dn rem s HR Hwf Hf.
  { pose proof (Z.mod_pos_bound (56 - zlen rem) 64). lia. }
  cbn [pad_loop]. rewrite (Rep_pad_test n dn rem s HR).
  destruct (Z.eqb_spec (8 * zlen rem) 448) as [E|E]; cbn [negb].
  - exists n, dn, rem, s. replace (zlen rem) with 56 by lia.
    split_and!; [done|by rewrite app_nil_r|done|done|lia].
  - change 1 with (zlen [0]).
    destruct (Update_spec n dn rem s [0]) as (n1 & dn1 & rem1 & s1 & -> & E1 & HR1 & Hw1 & _);
      [done|done|repeat constructor; apply byte_0|done|]. cbn [obind].
    assert (Hk : (56 - zlen rem) mod 64 = (56 - zlen rem1) mod 64 + 1).
    { pose proof (f_equal zlen E1) as El. rewrite !zlen_app in El.
      change (zlen [0]) with 1 in El. destruct HR as [Hd ? _ _ _ _], HR1 as [Hd1 ? _ _ _ _].
      unfold zlen in *.
      Z.to_euclidean_division_equations; lia. }
    pose proof (Z.mod_pos_bound (56 - zlen rem1) 64).
    destruct (IH n1 dn1 rem1 s1 HR1 Hw1) as (n2 & dn2 & rem2 & s2 & -> & E2 & ?); [lia|].
    exists n2, dn2, rem2, s2. split; [done|]. split; [|done].
    rewrite E2, app_assoc, E1, Hk, Z2Nat.inj_add by lia. rewrite Nat.add_comm.
    cbn [replicate Nat.add Z.to_nat Pos.to_nat]. by rewrite <- !app_assoc.
Qed.

Lemma land_255_mod x : Z.land x 255 = x mod 256.
Proof. change 255 with (Z.ones 8). by rewrite Z.land_ones. Qed.

Lemma be_byte_spec w i : 0 <= i → be_byte w i = w / 2 ^ ((3 - i mod 4) * 8) mod 256.
Proof.
  intros. unfold be_byte. rewrite land_255_mod. change 3 with (Z.ones 2) at 2.
  rewrite Z.land_ones by lia. change (2 ^ 2) with 4.
  rewrite Z.shiftr_div_pow2; [done|]. pose proof (Z.mod_pos_bound i 4). lia.
Qed.

(** Evaluate the closed shift amounts left by [be_byte_spec]. *)
Ltac eval_shifts :=
  repeat match goal with
  | |- context [2 ^ ((3 - ?i mod 4) * 8)] =>
      let v := eval vm_compute in (2 ^ ((3 - i mod 4) * 8)) in
      change (2 ^ ((3 - i mod 4) * 8)) with v
  end.

Lemma digest_of_spec s :
  digest_of s = concat (map (be_bytes 4) [wa s; wb s; wc s; wd s; we s]).
Proof.
  unfold digest_of.
  replace (seqZ 0 20) with [0;1;2;3;4;5;6;7;8;9;10;11;12;13;14;15;16;17;18;19] by (vm_compute; done).
  cbn [map]. rewrite !be_byte_spec by lia. eval_shifts.
  cbn [map concat app be_bytes]. rewrite !Z.div_div by lia. rewrite !Z.div_1_r. done.
Qed.

Lemma final_count_spec n dn rem s : Rep n dn rem s → zlen (dn ++ rem) < 2 ^ 61 →
  final_count s = be_bytes 8 (8 * zlen (dn ++ rem)).
Proof.
  intros [_ _ _ _ Hc0 Hc1] HL. unfold final_count. rewrite Hc0, Hc1.
  pose proof (zlen_nonneg (dn ++ rem)). generalize dependent (zlen (dn ++ rem)). intros L _ _ HL H.
  replace (seqZ 0 8) with [0;1;2;3;4;5;6;7] by (vm_compute; done).
  cbn [map]. rewrite !be_byte_spec by lia. eval_shifts.
  cbn [be_bytes app Z.leb Z.compare Pos.compare Pos.compare_cont]. rewrite !Z.div_div by lia.
  rewrite !Z.div_1_r. unfold u32, uwrap. change (2 ^ 32) with 4294967296.
  change (2 ^ 61) with 2305843009213693952 in *. cbn [Z.mul Pos.mul Pos.add].
  repeat match goal with |- _ :: _ = _ :: _ => f_equal end; Z.to_euclidean_division_equations; lia.
Qed.

Lemma be_bytes_len k z : length (be_bytes k z) = k.
Proof. revert z. induction k; intros z; cbn [be_bytes]; [done|]. rewrite length_app, IHk. simpl. lia. Qed.

Lemma be_bytes_wf k z : wf_bytes (be_bytes k z).
Proof.
  revert z. induction k as [|k IH]; intros z; cbn [be_bytes]; [constructor|].
  apply wf_bytes_app. split; [apply IH|]. repeat constructor; apply Z.mod_pos_bound; lia.
Qed.

Lemma Final_spec n dn rem s : Rep n dn rem s → wf_bytes rem → zlen (dn ++ rem) < 2 ^ 61 →
  ∃ s', Final s = Ok s' ∧ m_digest s' = sha1 (dn ++ rem).
Proof.
  intros HR Hwf HL. unfold Final. rewrite (final_count_spec n dn rem s HR HL).
  change (Update s [128] 1) with (Update s [128] (zlen [128])).
  destruct (Update_spec n dn rem s [128]) as (n1 & dn1 & rem1 & s1 & -> & E1 & HR1 & Hw1 & _);
    [done|done|repeat constructor; unfold is_byte; lia|done|]. cbn [obind].
  destruct (pad_loop_spec 64 n1 dn1 rem1 s1 HR1 Hw1) as (n2 & dn2 & rem2 & s2 & -> & E2 & HR2 & Hw2 & Hr2).
  { pose proof (Z.mod_pos_bound (56 - zlen rem1) 64). lia. }
  cbn [obind]. set (cnt := be_bytes 8 (8 * zlen (dn ++ rem))).
  assert (Hcnt : zlen cnt = 8) by (unfold zlen, cnt; by rewrite be_bytes_len).
  replace (Update s2 cnt 8) with (Update s2 cnt (zlen cnt)) by (by rewrite Hcnt).
  destruct (Update_spec n2 dn2 rem2 s2 cnt) as (n3 & dn3 & rem3 & s3 & -> & E3 & HR3 & _ & _);
    [done|done|apply be_bytes_wf|lia|]. cbn [obind].
  eexists. split; [reflexivity|]. cbn [m_digest]. rewrite digest_of_spec.
  destruct HR1 as [Hd1 ? _ _ _ _], HR2 as [Hd2 ? _ _ _ _], HR3 as [Hd3 Hl3 Hst _ _ _].
  assert (Hall : dn3 ++ rem3 = pad (dn ++ rem)).
  { rewrite E3, app_assoc, E2. unfold pad. fold cnt. rewrite !app_assoc. f_equal.
    rewrite E1, <- !app_assoc. do 3 f_equal. f_equal.
    pose proof (f_equal zlen E1) as El. rewrite !zlen_app in El. rewrite zlen_app.
    change (zlen [128]) with 1 in El. unfold zlen in *.
    Z.to_euclidean_division_equations; lia. }
  assert (Hrem3 : rem3 = []).
  { apply nil_length_inv. pose proof (f_equal length E3) as El3.
    rewrite !length_app in El3. unfold zlen in *. lia. }
  subst rem3. rewrite app_nil_r in Hall. unfold sha1. rewrite <- Hall, Hst, Hd3.
  rewrite Nat.mul_comm, Nat.div_mul by lia. done.
Qed.

(** A sequence of [Update] calls. *)
Fixpoint Update_all (s : CSHA1) (chunks : list (list Z)) : outcome CSHA1 :=
  match chunks with
  | [] => Ok s
  | d :: chunks => let* s := Update s d (zlen d) in Update_all s chunks
  end.

Definition chunk_ok (d : list Z) : Prop := wf_bytes d ∧ zlen d < 2 ^ 32 - 64.

Lemma Update_all_spec chunks : ∀ n dn rem s,
  Rep n dn rem s → wf_bytes rem → Forall chunk_ok chunks →
  ∃ n' dn' rem' s', Update_all s chunks = Ok s' ∧ dn' ++ rem' = dn ++ rem ++ concat chunks ∧
    Rep n' dn' rem' s' ∧ wf_bytes rem'.
Proof.
  induction chunks as [|d chunks IH]; intros n dn rem s HR Hwf Hf; cbn [Update_all concat].
  - exists n, dn, rem, s. by rewrite app_nil_r.
  - inversion_clear Hf as [|? ? [Hwd Hd] Hf'].
    destruct (Update_spec n dn rem s d) as (n1 & dn1 & rem1 & s1 & -> & E1 & HR1 & Hw1 & _); [done..|].
    cbn [obind]. destruct (IH n1 dn1 rem1 s1 HR1 Hw1 Hf') as (n2 & dn2 & rem2 & s2 & -> & E2 & ? & ?).
    exists n2, dn2, rem2, s2. split_and!; [done| |done|done].
    rewrite E2, app_assoc, E1. by rewrite <- !app_assoc.
Qed.

Lemma new_Rep junk : length (m_buffer junk) = 64%nat → Rep 0 [] [] (CSHA1_new junk).
Proof. intros. split; try done. simpl; lia. Qed.

(** The class computes the hash, for any cutting of the message. *)
Lemma hash_chunks junk chunks :
  length (m_buffer junk) = 64%nat → Forall chunk_ok chunks → zlen (concat chunks) < 2 ^ 61 →
  (let* s := Update_all (CSHA1_new junk) chunks in let* s := Final s in Ok (GetHash s)) =
  Ok (sha1 (concat chunks)).
Proof.
  intros Hj Hf HL.
  destruct (Update_all_spec chunks 0 [] [] (CSHA1_new junk)) as (n & dn & rem & s & -> & E & HR & Hw);
    [by apply new_Rep|constructor|done|]. cbn [obind].
  cbn [app] in E. rewrite <- E in HL.
  destruct (Final_spec n dn rem s HR Hw HL) as (s' & -> & Hd). cbn [obind]. unfold GetHash.
  by rewrite Hd, E.
Qed.

(** ** Property *)

(** C28: the streaming hash class computes SHA-1 as FIPS 180-4 defines it, whatever way the
    message is cut into [Update] calls: the unrolled rounds on the circular 16-word
    schedule, the block buffering and the padding together equal the standard's padding,
    80-word schedule and round function. *)
Theorem sha1_correct junk chunks :
  length (m_buffer junk) = 64%nat → Forall chunk_ok chunks → zlen (concat chunks) < 2 ^ 61 →
  (let* s := Update_all (CSHA1_new junk) chunks in let* s := Final s in Ok (GetHash s)) =
  Ok (sha1 (concat chunks)).
Proof. apply hash_chunks. Qed.

Definition junk_sha1 : CSHA1 := mkSHA1 (mkWords 0 0 0 0 0) 0 0 (replicate 64 0) (replicate 20 0).

Lemma sha1_correct_witness :
  (let* s := Update_all (CSHA1_new junk_sha1) [[97]; [98; 99]] in let* s := Final s in Ok (GetHash s)) =
  Ok (sha1 [97; 98; 99]).
Proof.
  apply (sha1_correct junk_sha1 [[97]; [98; 99]]); [reflexivity| |vm_compute; reflexivity].
  repeat constructor; vm_compute; congruence.
Defined.
