(* ===== verification/Websocket.v ===== *)
(** * Websocket frames and handshake (src/PacketParse_Http/WebsocketFormat.hpp)

    [wsHandshake], [wsFrameBuild] and [wsFrameExtractBuffer], with the frame round trip,
    the recognition of incomplete frames and the memory safety of the decoder. *)

From Stdlib Require Import ZArith Lia.
From S2P Require Import Prelude Base64 Sha1.
From stdpp Require Import base numbers list strings.
Local Open Scope Z_scope.

(** The frame types.  The decoder casts any 4-bit opcode to the enumeration, so a frame
    type is an opcode. *)
Definition ERROR_FRAME : Z := 255.
Definition CONTINUATION_FRAME : Z := 0.
Definition TEXT_FRAME : Z := 1.
Definition BINARY_FRAME : Z := 2.
Definition CLOSE_FRAME : Z := 8.
Definition PING_FRAME : Z := 9.
Definition PONG_FRAME : Z := 10.

Definition ws_guid : list Z := bytes_of_string "258EAFA5-E914-47DA-95CA-C5AB0DC85B11".

(** [junk]: the uninitialised members of the hash object. *)
Definition wsHandshake (junk : CSHA1) (secKey : list Z) : outcome (list Z) :=
  let secKey := secKey ++ ws_guid in
  let* s1 := Update (CSHA1_new junk) secKey (u32 (zlen secKey)) in
  let* s1 := Final s1 in
  Ok (base64_encode (ztake 20 (GetHash s1))).

(** The length field: one byte, or 126 and 16 bits, or 127 and 64 bits of which the code
    writes the low 32. *)
Definition len_field (payloadLen : Z) : list Z :=
  if payloadLen <=? 125 then [u8 payloadLen]
  else if payloadLen <=? 65535 then
    [126; u8 (Z.shiftr (Z.land payloadLen 65280) 8); u8 (Z.land payloadLen 255)]
  else
    [127; 0; 0; 0; 0;
     u8 (Z.shiftr (Z.land payloadLen 4278190080) 24);
     u8 (Z.shiftr (Z.land payloadLen 16711680) 16);
     u8 (Z.shiftr (Z.land payloadLen 65280) 8);
     u8 (Z.land payloadLen 255)].

(** [payload[i] ^ mask[i % 4]] for [i] from [k]. *)
Fixpoint mask_from (k : nat) (mask payload : list Z) : list Z :=
  match payload with
  | [] => []
  | b :: payload => Z.lxor b (nth (k mod 4) mask 0) :: mask_from (S k) mask payload
  end.

(** [frame[1] = frame[1] | 0x80]. *)
Definition set_mask_bit (lf : list Z) : list Z :=
  match lf with b :: lf => u8 (Z.lor b 128) :: lf | [] => [] end.

(** [random k]: the [k]-th draw of the generator. *)
Definition wsFrameBuild (random : nat → Z) (payload : list Z) (frame_type : Z)
    (isFin masking : bool) : list Z :=
  let head := u8 (Z.lor (u8 frame_type) (if isFin then 128 else 0)) in
  let lf := len_field (zlen payload) in
  if masking then
    let mask := map (fun k => u8 (random k)) [0; 1; 2; 3]%nat in
    (head :: set_mask_bit lf) ++ mask ++ mask_from 0 mask payload
  else (head :: lf) ++ payload.

(** The reference parameters of the decoder. *)
Record ws_out := mkOut {
  payload : list Z;
  outopcode : Z;
  frameSize : Z;
  outfin : bool;
}.

(** [buffer[k]]. *)
Definition byte_at (buffer : list Z) (k : Z) : outcome Z :=
  if (0 <=? k) && (k <? zlen buffer) then Ok (nth (Z.to_nat k) buffer 0) else Fault.

(** The length field: the payload length and the position behind it, [None] when the
    decoder returns false. *)
Definition extract_len (buffer : list Z) (bufferSize : Z) (b1 : Z) : outcome (option (Z * Z)) :=
  let payloadlen := Z.land b1 127 in
  if payloadlen =? 126 then
    if bufferSize <? 4 then Ok None
    else
      let* x := byte_at buffer 2 in
      let* y := byte_at buffer 3 in
      Ok (Some (u32 (Z.shiftl x 8 + y), 4))
  else if payloadlen =? 127 then
    if bufferSize <? 10 then Ok None
    else
      let* h2 := byte_at buffer 2 in
      let* h3 := byte_at buffer 3 in
      let* h4 := byte_at buffer 4 in
      let* h5 := byte_at buffer 5 in
      if negb (h2 =? 0) || negb (h3 =? 0) || negb (h4 =? 0) || negb (h5 =? 0) then Ok None
      else
        let* w := byte_at buffer 6 in
        if negb (Z.land w 128 =? 0) then Ok None
        else
          let* x := byte_at buffer 7 in
          let* y := byte_at buffer 8 in
          let* z := byte_at buffer 9 in
          Ok (Some (u32 (Z.shiftl w 24 + Z.shiftl x 16 + Z.shiftl y 8 + z), 10))
  else Ok (Some (payloadlen, 2)).

Definition wsFrameExtractBuffer (buffer : list Z) (bufferSize : Z) (out : ws_out)
  : outcome (bool * ws_out) :=
  if bufferSize <? 2 then Ok (false, out)
  else
    let* b0 := byte_at buffer 0 in
    let* b1 := byte_at buffer 1 in
    let out := mkOut (payload out) (Z.land b0 15) (frameSize out) (negb (Z.land b0 128 =? 0)) in
    let isMasking := negb (Z.land b1 128 =? 0) in
    let* len := extract_len buffer bufferSize b1 in
    match len with
    | None => Ok (false, out)
    | Some (payloadlen, pos) =>
        if isMasking && (bufferSize <? (pos +u32 4)) then Ok (false, out)
        else
          let* '(mask, pos) :=
            if isMasking then let* m := mem_read buffer pos 4 in Ok (m, pos +u32 4)
            else Ok ([], pos) in
          if bufferSize <? (pos +u32 payloadlen) then Ok (false, out)
          else
            let* data := mem_read buffer pos payloadlen in
            let data := if isMasking then mask_from 0 mask data else data in
            Ok (true, mkOut (payload out ++ data) (outopcode out) (payloadlen +u32 pos) (outfin out))
    end.

(** ** Masking is an involution *)

Lemma mask_from_len mask l : ∀ k, length (mask_from k mask l) = length l.
Proof. induction l as [|b l IH]; intros k; cbn [mask_from length]; auto. Qed.

Lemma mask_from_invol mask l : ∀ k, mask_from k mask (mask_from k mask l) = l.
Proof.
  induction l as [|b l IH]; intros k; cbn [mask_from]; [done|].
  by rewrite IH, Z.lxor_assoc, Z.lxor_nilpotent, Z.lxor_0_r.
Qed.

(** ** Reading back the header *)

Lemma byte_at_app b l1 l2 k : zlen l1 = k → byte_at (l1 ++ b :: l2) k = Ok b.
Proof.
  intros <-. unfold byte_at. rewrite zlen_app, zlen_cons. pose proof (zlen_nonneg l1).
  pose proof (zlen_nonneg l2). rewrite (proj2 (Z.leb_le _ _)), (proj2 (Z.ltb_lt _ _)) by lia.
  cbn [andb]. unfold zlen. by rewrite Nat2Z.id, nth_middle.
Qed.

(** Access to the first bytes of an explicit list. *)
Lemma byte_at_0 b l : byte_at (b :: l) 0 = Ok b.
Proof. by apply (byte_at_app b []). Qed.

Lemma byte_at_S b l k : 0 < k → byte_at (b :: l) k = byte_at l (k - 1).
Proof.
  intros. unfold byte_at. rewrite zlen_cons.
  replace (0 <=? k) with (0 <=? k - 1) by (destruct (Z.leb_spec 0 k), (Z.leb_spec 0 (k - 1)); lia).
  replace (k <? 1 + zlen l) with (k - 1 <? zlen l)
    by (destruct (Z.ltb_spec k (1 + zlen l)), (Z.ltb_spec (k - 1) (zlen l)); lia).
  replace (Z.to_nat k) with (S (Z.to_nat (k - 1))) by lia. done.
Qed.

Ltac bytes_at :=
  repeat first
    [ rewrite byte_at_0
    | match goal with
      | |- context [byte_at (?b :: ?l) ?k] =>
          rewrite (byte_at_S b l k) by lia;
          let v := eval vm_compute in (k - 1) in change (k - 1) with v
      end ];
  cbn [obind].

Lemma byte_in_range buffer k : 0 <= k < zlen buffer → ∃ b, byte_at buffer k = Ok b.
Proof.
  intros. unfold byte_at. rewrite (proj2 (Z.leb_le _ _)), (proj2 (Z.ltb_lt _ _)) by lia.
  cbn [andb]. eauto.
Qed.

(** The pieces of a length as shifts and masks. *)
Lemma len_bytes n : 0 <= n < 2 ^ 32 →
  u8 (Z.shiftr (Z.land n 4278190080) 24) = n / 16777216 ∧
  u8 (Z.shiftr (Z.land n 16711680) 16) = n / 65536 mod 256 ∧
  u8 (Z.shiftr (Z.land n 65280) 8) = n / 256 mod 256 ∧ u8 (Z.land n 255) = n mod 256.
Proof.
  intros Hn. rewrite !Z.shiftr_land, !Z.shiftr_div_pow2 by lia.
  change (4278190080 / 2 ^ 24) with 255. change (16711680 / 2 ^ 16) with 255.
  change (65280 / 2 ^ 8) with 255. rewrite !land_255_mod.
  change (2 ^ 24) with 16777216. change (2 ^ 16) with 65536. change (2 ^ 8) with 256.
  unfold u8, uwrap. change (2 ^ 8) with 256. change (2 ^ 32) with 4294967296 in Hn.
  rewrite !Z.mod_mod by lia. split_and!; [|done..].
  rewrite Z.mod_small; [done|]. Z.to_euclidean_division_equations; lia.
Qed.

Lemma masked_byte b : is_byte b → b < 128 →
  Z.land (u8 (Z.lor b 128)) 127 = b ∧ negb (Z.land (u8 (Z.lor b 128)) 128 =? 0) = true ∧
  Z.land b 127 = b ∧ negb (Z.land b 128 =? 0) = false.
Proof.
  intros Hb H7.
  assert (H : (if b <? 128 then (Z.land (u8 (Z.lor b 128)) 127 =? b) && negb (Z.land (u8 (Z.lor b 128)) 128 =? 0)
    && (Z.land b 127 =? b) && (Z.land b 128 =? 0) else true) = true).
  { by apply (byte_forall (fun b => if b <? 128 then (Z.land (u8 (Z.lor b 128)) 127 =? b) &&
      negb (Z.land (u8 (Z.lor b 128)) 128 =? 0) && (Z.land b 127 =? b) && (Z.land b 128 =? 0) else true)). }
  rewrite (proj2 (Z.ltb_lt b 128)) in H by lia.
  rewrite !andb_true_iff, !Z.eqb_eq in H. destruct H as [[[-> ->] ->] ->]. done.
Qed.

Lemma head_byte ft (fin : bool) : 0 <= ft < 16 →
  Z.land (u8 (Z.lor (u8 ft) (if fin then 128 else 0))) 15 = ft ∧
  negb (Z.land (u8 (Z.lor (u8 ft) (if fin then 128 else 0))) 128 =? 0) = fin.
Proof.
  intros Hf.
  assert (H : (if ft <? 16 then (Z.land (u8 (Z.lor (u8 ft) (if fin then 128 else 0))) 15 =? ft) &&
    eqb (negb (Z.land (u8 (Z.lor (u8 ft) (if fin then 128 else 0))) 128 =? 0)) fin else true) = true).
  { apply (byte_forall (fun ft => if ft <? 16 then (Z.land (u8 (Z.lor (u8 ft) (if fin then 128 else 0))) 15 =? ft) &&
      eqb (negb (Z.land (u8 (Z.lor (u8 ft) (if fin then 128 else 0))) 128 =? 0)) fin else true));
      [destruct fin; vm_compute; done|unfold is_byte; lia]. }
  rewrite (proj2 (Z.ltb_lt ft 16)) in H by lia.
  rewrite andb_true_iff, Z.eqb_eq, eqb_true_iff in H. done.
Qed.

(** The length field as written, with or without the mask bit. *)
Definition len_field_m (m : bool) (n : Z) : list Z :=
  if m then set_mask_bit (len_field n) else len_field n.

(** The cases of the length field. *)
Lemma len_field_cases m n : 0 <= n < 2 ^ 31 →
  ∃ b1 tl, len_field_m m n = b1 :: tl ∧ negb (Z.land b1 128 =? 0) = m ∧
    ((Z.land b1 127 = n ∧ n <= 125 ∧ tl = []) ∨
     (Z.land b1 127 = 126 ∧ ∃ x y, tl = [x; y] ∧ u32 (Z.shiftl x 8 + y) = n) ∨
     (Z.land b1 127 = 127 ∧ ∃ w x y z, tl = [0; 0; 0; 0; w; x; y; z] ∧ Z.land w 128 = 0 ∧
        u32 (Z.shiftl w 24 + Z.shiftl x 16 + Z.shiftl y 8 + z) = n)).
Proof.
  intros Hn. destruct (len_bytes n) as (E24 & E16 & E8 & E0); [lia|].
  assert (Hb : ∀ b, is_byte b → b < 128 →
    Z.land (if m then u8 (Z.lor b 128) else b) 127 = b ∧
    negb (Z.land (if m then u8 (Z.lor b 128) else b) 128 =? 0) = m).
  { intros b H1 H2. destruct (masked_byte b H1 H2) as (? & ? & ? & ?). by destruct m. }
  unfold len_field_m, len_field.
  destruct (Z.leb_spec n 125); [|destruct (Z.leb_spec n 65535)].
  - destruct (Hb (u8 n)) as [H1 H2]; [unfold is_byte; mach|mach|].
    exists (if m then u8 (Z.lor (u8 n) 128) else u8 n), []. split; [by destruct m|]. split; [done|].
    left. rewrite H1. split; [mach|done].
  - destruct (Hb 126) as [H1 H2]; [unfold is_byte; lia|lia|].
    eexists (if m then u8 (Z.lor 126 128) else 126), _. split; [by destruct m|]. split; [done|].
    right; left. split; [done|]. eexists _, _. split; [done|].
    rewrite E8, E0, Z.shiftl_mul_pow2 by lia. change (2 ^ 8) with 256. clear -Hn H H0. mach.
  - destruct (Hb 127) as [H1 H2]; [unfold is_byte; lia|lia|].
    eexists (if m then u8 (Z.lor 127 128) else 127), _. split; [by destruct m|]. split; [done|].
    right; right. split; [done|]. eexists _, _, _, _. split; [done|].
    rewrite E24, E16, E8, E0, !Z.shiftl_mul_pow2 by lia.
    change (2 ^ 24) with 16777216. change (2 ^ 16) with 65536. change (2 ^ 8) with 256. split.
    + destruct (masked_byte (n / 16777216)) as (_ & _ & _ & H3);
        [unfold is_byte; clear -Hn; Z.to_euclidean_division_equations; lia
        |clear -Hn; Z.to_euclidean_division_equations; lia|].
      by apply negb_false_iff, Z.eqb_eq in H3.
    + clear -Hn. unfold u32, uwrap. change (2 ^ 32) with 4294967296. Z.to_euclidean_division_equations; lia.
Qed.

Lemma extract_len_build m n h rest k b1 tl :
  0 <= n < 2 ^ 31 → len_field_m m n = b1 :: tl → 2 <= k →
  extract_len (h :: (b1 :: tl) ++ rest) k b1 =
  Ok (if k <? 2 + zlen tl then None else Some (n, 2 + zlen tl)).
Proof.
  intros Hn E Hk. destruct (len_field_cases m n Hn) as (b1' & tl' & E' & _ & Hc).
  rewrite E in E'. injection E' as <- <-. unfold extract_len.
  destruct Hc as [(-> & Hs & ->)|[(-> & x & y & -> & Hv)|(-> & w & x & y & z & -> & Hw & Hv)]].
  - rewrite (proj2 (Z.eqb_neq n 126)), (proj2 (Z.eqb_neq n 127)) by lia.
    change (zlen (@nil Z)) with 0. by rewrite (proj2 (Z.ltb_ge k (2 + 0))) by lia.
  - change (2 + zlen [x; y]) with 4. cbn [Z.eqb Pos.eqb app].
    destruct (Z.ltb_spec k 4); [done|]. bytes_at. by rewrite Hv.
  - change (2 + zlen [0; 0; 0; 0; w; x; y; z]) with 10. cbn [Z.eqb Pos.eqb app].
    destruct (Z.ltb_spec k 10); [done|]. bytes_at. rewrite Hw. cbn [Z.eqb negb orb]. bytes_at. by rewrite Hv.
Qed.

(** The frame as header, mask and data. *)
Definition frame_mask (random : nat → Z) (m : bool) : list Z :=
  if m then map (fun k => u8 (random k)) [0; 1; 2; 3]%nat else [].
Definition frame_data (random : nat → Z) (m : bool) (p : list Z) : list Z :=
  if m then mask_from 0 (frame_mask random m) p else p.

Lemma build_layout random p ft (fin m : bool) :
  wsFrameBuild random p ft fin m =
  u8 (Z.lor (u8 ft) (if fin then 128 else 0)) :: len_field_m m (zlen p) ++
  frame_mask random m ++ frame_data random m p.
Proof. by destruct m. Qed.

Lemma frame_data_len random m p : zlen (frame_data random m p) = zlen p.
Proof. unfold zlen, frame_data. destruct m; [by rewrite mask_from_len|done]. Qed.

Lemma frame_data_unmask random (m : bool) p :
  (if m then mask_from 0 (frame_mask random m) (frame_data random m p)
   else frame_data random m p) = p.
Proof. unfold frame_data. destruct m; [apply mask_from_invol|done]. Qed.

Lemma frame_mask_len random m : zlen (frame_mask random m) = if m then 4 else 0.
Proof. by destruct m. Qed.

(** Reading the mask when there is one. *)
Lemma extract_mask (m : bool) pre mk rest :
  zlen mk = (if m then 4 else 0) →
  (if m then let* x := mem_read (pre ++ mk ++ rest) (zlen pre) 4 in Ok (x, zlen pre + 4)
   else Ok ([], zlen pre)) = Ok (mk, zlen (pre ++ mk)).
Proof.
  intros Hm. rewrite zlen_app. destruct m; rewrite Hm.
  - rewrite <- Hm at 1. by rewrite mem_read_app_middle.
  - apply zlen_zero in Hm as ->. by rewrite Z.add_0_r.
Qed.

(** The decoder on the first [k] bytes of a frame followed by anything. *)
Lemma extract_build random p ft fin m rest k out :
  0 <= ft < 16 → zlen p < 2 ^ 31 - 16 → 0 <= k →
  let frame := wsFrameBuild random p ft fin m in
  ∃ out', wsFrameExtractBuffer (frame ++ rest) k out = Ok (zlen frame <=? k, out') ∧
    (if zlen frame <=? k then out' = mkOut (payload out ++ p) ft (zlen frame) fin
     else payload out' = payload out).
Proof.
  intros Hft Hp Hk. cbv zeta. pose proof (zlen_nonneg p) as Hp0. rewrite build_layout.
  destruct (len_field_cases m (zlen p)) as (b1 & tl & El & Hm & Hc); [lia|]. rewrite El.
  assert (Htl : 0 <= zlen tl <= 8).
  { destruct Hc as [(_ & _ & ->)|[(_ & x & y & -> & _)|(_ & w & x & y & z & -> & _)]];
      split; done || apply zlen_nonneg. }
  destruct (head_byte ft fin Hft) as [Eop Efin].
  set (h := u8 (Z.lor (u8 ft) (if fin then 128 else 0))) in *.
  set (mk := frame_mask random m). set (dt := frame_data random m p).
  assert (Hmk : zlen mk = if m then 4 else 0) by apply frame_mask_len.
  assert (Hdt : zlen dt = zlen p) by apply frame_data_len.
  assert (Hlen : zlen (h :: (b1 :: tl) ++ mk ++ dt) = 2 + zlen tl + zlen mk + zlen p).
  { rewrite zlen_cons, !zlen_app, zlen_cons, Hdt. lia. }
  rewrite Hlen. unfold wsFrameExtractBuffer. pose proof (zlen_nonneg mk).
  destruct (Z.ltb_spec k 2).
  { rewrite (proj2 (Z.leb_gt _ k)) by lia. eauto. }
  replace ((h :: (b1 :: tl) ++ mk ++ dt) ++ rest) with (h :: (b1 :: tl) ++ mk ++ dt ++ rest)
    by (cbn [app]; by rewrite <- !app_assoc).
  pose proof (extract_len_build m (zlen p) h (mk ++ dt ++ rest) k b1 tl) as Ex. cbn [app] in Ex |- *.
  bytes_at. rewrite Ex, Hm, Eop, Efin by (done || lia). cbn [obind payload outopcode frameSize outfin].
  destruct (Z.ltb_spec k (2 + zlen tl)).
  { rewrite (proj2 (Z.leb_gt _ k)) by lia. eauto. }
  rewrite (u32_small (2 + zlen tl + 4)) by lia.
  destruct (m && (k <? 2 + zlen tl + 4)) eqn:Hk4.
  { apply andb_true_iff in Hk4 as [-> Hk4]. apply Z.ltb_lt in Hk4.
    rewrite (proj2 (Z.leb_gt _ k)) by lia. eauto. }
  replace (h :: b1 :: tl ++ mk ++ dt ++ rest) with ((h :: b1 :: tl) ++ mk ++ dt ++ rest) by done.
  replace (2 + zlen tl) with (zlen (h :: b1 :: tl)) by (rewrite !zlen_cons; lia).
  rewrite extract_mask by done. cbn [obind].
  assert (Hpos : zlen ((h :: b1 :: tl) ++ mk) = 2 + zlen tl + zlen mk)
    by (rewrite zlen_app, !zlen_cons; lia).
  rewrite Hpos. assert (zlen mk <= 4) by (rewrite Hmk; by destruct m).
  rewrite u32_small, u32_small by lia.
  destruct (Z.ltb_spec k (2 + zlen tl + zlen mk + zlen p)).
  { rewrite (proj2 (Z.leb_gt _ k)) by (rewrite !zlen_cons; lia). eauto. }
  rewrite (proj2 (Z.leb_le _ k)) by (rewrite !zlen_cons; lia).
  pose proof (mem_read_app_middle ((h :: b1 :: tl) ++ mk) dt rest) as Er.
  rewrite Hpos, Hdt, <- app_assoc in Er. rewrite Er. cbn [obind payload outopcode outfin].
  unfold mk, dt. rewrite frame_data_unmask. eexists. split; [done|]. f_equal. rewrite !zlen_cons. lia.
Qed.

(** ** The decoder on arbitrary bytes *)

Lemma byte_at_wf buffer k b : wf_bytes buffer → byte_at buffer k = Ok b → is_byte b.
Proof.
  intros Hwf. unfold byte_at. destruct (_ && _) eqn:E; [|done]. intros [= <-].
  apply andb_true_iff in E as [E1 E2]. apply Z.leb_le in E1. apply Z.ltb_lt in E2.
  unfold wf_bytes in Hwf. rewrite Forall_forall in Hwf. apply Hwf, list_elem_of_In, nth_In.
  unfold zlen in *. lia.
Qed.

Ltac get_byte b E :=
  match goal with
  | |- context [byte_at ?buf ?k] =>
      destruct (byte_in_range buf k) as [b E]; [lia|]; rewrite E; cbn [obind]
  end.

Lemma shiftl_byte b n : 0 <= n → Z.shiftl b n = b * 2 ^ n.
Proof. intros. by rewrite Z.shiftl_mul_pow2. Qed.

Lemma extract_len_safe buffer k b1 : wf_bytes buffer → is_byte b1 → 2 <= k <= zlen buffer →
  ∃ r, extract_len buffer k b1 = Ok r ∧
    ∀ n pos, r = Some (n, pos) → 0 <= n < 2 ^ 31 ∧ 2 <= pos <= 10 ∧ pos <= k.
Proof.
  intros Hwf Hb Hk. unfold extract_len.
  assert (Hn : 0 <= Z.land b1 127 < 128).
  { change 127 with (Z.ones 7). rewrite Z.land_ones by lia. by apply Z.mod_pos_bound. }
  destruct (Z.land b1 127 =? 126); [|destruct (Z.land b1 127 =? 127)].
  - destruct (Z.ltb_spec k 4); [naive_solver|].
    get_byte x Ex. get_byte y Ey. apply byte_at_wf in Ex, Ey; try done.
    eexists. split; [done|]. intros n pos [= <- <-]. rewrite shiftl_byte by lia.
    unfold is_byte in *. change (2 ^ 8) with 256. rewrite u32_small by lia. lia.
  - destruct (Z.ltb_spec k 10); [naive_solver|].
    get_byte h2 E2. get_byte h3 E3. get_byte h4 E4. get_byte h5 E5.
    destruct (_ || _); [naive_solver|]. get_byte w Ew. destruct (Z.eqb_spec (Z.land w 128) 0) as [Ew0|]; [|naive_solver].
    cbn [negb]. get_byte x Ex. get_byte y Ey. get_byte z Ez.
    apply byte_at_wf in Ew, Ex, Ey, Ez; try done.
    assert (Hw : w < 128).
    { destruct (Z.lt_ge_cases w 128) as [|Hge]; [done|exfalso].
      assert (H' : (if 128 <=? w then negb (Z.land w 128 =? 0) else true) = true).
      { by apply (byte_forall (fun w => if 128 <=? w then negb (Z.land w 128 =? 0) else true)). }
      rewrite (proj2 (Z.leb_le 128 w)), Ew0 in H' by lia. done. }
    eexists. split; [done|]. intros n pos [= <- <-]. rewrite !shiftl_byte by lia.
    unfold is_byte in *. change (2 ^ 8) with 256. change (2 ^ 16) with 65536. change (2 ^ 24) with 16777216.
    rewrite u32_small by lia. lia.
  - eexists. split; [done|]. intros n pos [= <- <-]. lia.
Qed.

Lemma extract_safe buffer k out : wf_bytes buffer → 0 <= k <= zlen buffer →
  ∃ ok out', wsFrameExtractBuffer buffer k out = Ok (ok, out') ∧
    (ok = true → 2 <= frameSize out' <= k).
Proof.
  intros Hwf Hk. unfold wsFrameExtractBuffer. destruct (Z.ltb_spec k 2); [naive_solver|].
  get_byte b0 E0. get_byte b1 E1.
  destruct (extract_len_safe buffer k b1) as (r & -> & Hr); [done|by eapply byte_at_wf|lia|]. cbn [obind].
  destruct r as [[n pos]|]; [|naive_solver]. destruct (Hr n pos eq_refl) as (Hn & Hp & Hpk).
  rewrite (u32_small (pos + 4)) by lia. destruct (negb (Z.land b1 128 =? 0)); cbn [andb].
  - destruct (Z.ltb_spec k (pos + 4)); [naive_solver|]. rewrite mem_read_ok by lia. cbn [obind].
    rewrite !u32_small by lia. destruct (Z.ltb_spec k (pos + 4 + n)); [naive_solver|].
    rewrite mem_read_ok by lia. cbn [obind]. eexists _, _. split; [done|]. cbn [frameSize]. lia.
  - cbn [obind]. rewrite !u32_small by lia. destruct (Z.ltb_spec k (pos + n)); [naive_solver|].
    rewrite mem_read_ok by lia. cbn [obind]. eexists _, _. split; [done|]. cbn [frameSize]. lia.
Qed.

(** ** Properties *)

(** C22: websocket frame round trip.  A frame built for any payload of less than 2^31-16
    bytes, any opcode, either FIN value, masked with any random bytes or not, is decoded
    from the front of a buffer to the same payload, opcode and FIN with its exact size;
    from any shorter prefix of it the decoder reports an incomplete frame and leaves the
    payload as it was. *)
Theorem ws_frame_roundtrip random p ft fin m rest k out :
  0 <= ft < 16 → zlen p < 2 ^ 31 - 16 → 0 <= k →
  let frame := wsFrameBuild random p ft fin m in
  ∃ out', wsFrameExtractBuffer (frame ++ rest) k out = Ok (zlen frame <=? k, out') ∧
    (if zlen frame <=? k then out' = mkOut (payload out ++ p) ft (zlen frame) fin
     else payload out' = payload out).
Proof. apply extract_build. Qed.

Lemma ws_frame_roundtrip_witness :
  let frame := wsFrameBuild (fun k => 17 * Z.of_nat k) [104; 105] TEXT_FRAME true true in
  ∃ out', wsFrameExtractBuffer (frame ++ [0]) 9 (mkOut [] ERROR_FRAME 0 false) =
            Ok (zlen frame <=? 9, out') ∧
    (if zlen frame <=? 9 then out' = mkOut [104; 105] TEXT_FRAME (zlen frame) true
     else payload out' = []).
Proof.
  apply (ws_frame_roundtrip (fun k => 17 * Z.of_nat k) [104; 105] TEXT_FRAME true true [0] 9
           (mkOut [] ERROR_FRAME 0 false));
    vm_compute; intuition congruence.
Defined.

(** C37: the decoder never reads outside the received bytes, whatever they are, and a frame
    it accepts has at least two bytes and lies within them. *)
Theorem ws_decoder_safe buffer k out :
  wf_bytes buffer → 0 <= k <= zlen buffer →
  ∃ ok out', wsFrameExtractBuffer buffer k out = Ok (ok, out') ∧
    (ok = true → 2 <= frameSize out' <= k).
Proof. apply extract_safe. Qed.

Lemma ws_decoder_safe_witness :
  ∃ ok out', wsFrameExtractBuffer [129; 255; 0; 0; 0; 0; 255; 1; 2; 3] 10 (mkOut [] 255 0 false) = Ok (ok, out') ∧
    (ok = true → 2 <= frameSize out' <= 10).
Proof.
  apply ws_decoder_safe; [|vm_compute; intuition congruence].
  repeat constructor; vm_compute; congruence.
Defined.

(** The handshake answer is the base64 text of the SHA-1 hash of the client key
    followed by the protocol's GUID, as RFC 6455 demands. *)
Theorem ws_handshake_correct junk secKey :
  length (m_buffer junk) = 64%nat → wf_bytes secKey → zlen secKey < 2 ^ 32 - 128 →
  wsHandshake junk secKey = Ok (base64_encode (sha1 (secKey ++ ws_guid))).
Proof.
  intros Hj Hwf Hl. pose proof (zlen_nonneg secKey). unfold wsHandshake.
  assert (Hlen : zlen (secKey ++ ws_guid) = zlen secKey + 36) by (by rewrite zlen_app).
  assert (Hok : chunk_ok (secKey ++ ws_guid)).
  { split; [|rewrite Hlen; lia]. apply wf_bytes_app. split; [done|].
    repeat constructor; vm_compute; congruence. }
  assert (E : (let* s := Update_all (CSHA1_new junk) [secKey ++ ws_guid] in
               let* s := Final s in Ok (GetHash s)) = Ok (sha1 (secKey ++ ws_guid))).
  { rewrite hash_chunks; [cbn [concat]; by rewrite app_nil_r|done|by apply Forall_singleton|].
    cbn [concat]. rewrite app_nil_r. lia. }
  cbn [Update_all] in E. rewrite (u32_small (zlen _)) by lia.
  destruct (Update (CSHA1_new junk) _ _) as [s|]; cbn [obind] in *; [|done].
  destruct (Final s) as [s'|]; cbn [obind] in *; [|done].
  injection E as ->. rewrite ztake_all; [done|].
  unfold sha1, zlen. cbn [map concat]. rewrite !length_app, !be_bytes_len. simpl. lia.
Qed.

Lemma ws_handshake_correct_witness :
  wsHandshake junk_sha1 (bytes_of_string "dGhlIHNhbXBsZSBub25jZQ==") =
    Ok (base64_encode (sha1 (bytes_of_string "dGhlIHNhbXBsZSBub25jZQ==" ++ ws_guid))) ∧
  base64_encode (sha1 (bytes_of_string "dGhlIHNhbXBsZSBub25jZQ==" ++ ws_guid)) =
    bytes_of_string "s3pPLMBiTxaQ9kYGzzhZRbK+xOo=".
Proof.
  split; [|vm_compute; reflexivity].
  apply ws_handshake_correct; [reflexivity| |vm_compute; reflexivity].
  repeat constructor; vm_compute; congruence.
Defined.
