(* ===== verification/HttpFormat.v ===== *)
(** * HTTP requests and responses (src/PacketParse_Http/HttpFormat.{h,cpp})

    [CHttpFormat] drives the vendored [http_parser]: the parser is a parameter that maps
    the text to the callbacks it makes, the number of bytes it consumed and its upgrade
    flag; the callbacks, [try_parse] and the response texts are the code's own.  HttpParser.v models the
    parser itself, and HttpDelivery.v puts the two together. *)

From Stdlib Require Import ZArith Lia.
From S2P Require Import Prelude Base64.
From stdpp Require Import base numbers list gmap strings.
Local Open Scope Z_scope.

(** [tolower] and [isspace] in the C locale. *)
Definition tolower (c : Z) : Z := if (65 <=? c) && (c <=? 90) then c + 32 else c.
Definition lower (s : list Z) : list Z := map tolower s.
Definition isspace (c : Z) : bool := (c =? 32) || ((9 <=? c) && (c <=? 13)).
Definition isdigit (c : Z) : bool := (48 <=? c) && (c <=? 57).

(** [atoi]: blanks, a sign, digits; the value saturates at 64 bits and is truncated to
    [int], as the C library does. *)
Fixpoint digits_val (s : list Z) (acc : Z) : Z :=
  match s with
  | c :: s => if isdigit c then digits_val s (10 * acc + (c - 48)) else acc
  | [] => acc
  end.
Fixpoint skip_blanks (s : list Z) : list Z :=
  match s with
  | c :: s' => if isspace c then skip_blanks s' else s
  | [] => []
  end.
Definition saturate64 (z : Z) : Z := Z.max (- 2 ^ 63) (Z.min z (2 ^ 63 - 1)).
Definition atoi (s : list Z) : Z :=
  let s := skip_blanks (c_str s) in
  i32 (saturate64 (match s with
       | c :: s' => if c =? 45 then - digits_val s' 0
                    else if c =? 43 then digits_val s' 0 else digits_val s 0
       | [] => 0
       end)).

(** The decimal text a stream prints for an integer. *)
Fixpoint dec_digits (fuel : nat) (z : Z) (acc : list Z) : list Z :=
  match fuel with
  | O => acc
  | S fuel =>
      let acc := (48 + z mod 10) :: acc in
      if z / 10 =? 0 then acc else dec_digits fuel (z / 10) acc
  end.
Definition decimal (z : Z) : list Z :=
  if z <? 0 then 45 :: dec_digits 20 (- z) [] else dec_digits 20 z [].

(** The state of a request being received. *)
Record CHttpTextBuffer := mkText {
  http_func_name_ : string;
  http_request_text_ : list Z;
  http_post_text_ : list Z;
  is_completed_ : bool;
  buffer_parse_pos_ : Z;
  is_post_length_ : bool;
  content_length_ : Z;
  is_upgrade : bool;
  upgrade_ : list Z;
  is_websocket_key_ : bool;
  websocket_key_ : list Z;
  head_info_list_ : gmap (list Z) (list Z);
  field_ : list Z;
}.

Definition CHttpTextBuffer_default : CHttpTextBuffer :=
  mkText "" [] [] false 0 false 0 false [] false [] ∅ [].

(** [clear] keeps [upgrade_], [websocket_key_] and the last header field. *)
Definition clear (t : CHttpTextBuffer) : CHttpTextBuffer :=
  mkText "" [] [] false 0 false 0 false (upgrade_ t) false (websocket_key_ t) ∅ (field_ t).

Definition init_http_setting (t : CHttpTextBuffer) : CHttpTextBuffer := clear t.

(** The callbacks the parser makes; [on_header_field] is the one registered last. *)
Inductive http_event :=
| ev_url (at_ : list Z)
| ev_status (at_ : list Z)
| ev_body (at_ : list Z)
| ev_header_value (at_ : list Z)
| ev_header_field (at_ : list Z)
| ev_headers_complete
| ev_message_begin
| ev_message_complete
| ev_chunk_header
| ev_chunk_complete.

Definition set_func_name (t : CHttpTextBuffer) (n : string) : CHttpTextBuffer :=
  mkText n (http_request_text_ t) (http_post_text_ t) (is_completed_ t) (buffer_parse_pos_ t)
    (is_post_length_ t) (content_length_ t) (is_upgrade t) (upgrade_ t) (is_websocket_key_ t)
    (websocket_key_ t) (head_info_list_ t) (field_ t).

Definition sBodyHandle (t : CHttpTextBuffer) (at_ : list Z) : CHttpTextBuffer :=
  mkText "sBodyHandle" (http_request_text_ t) (http_post_text_ t ++ at_) (is_completed_ t)
    (buffer_parse_pos_ t) (is_post_length_ t) (content_length_ t) (is_upgrade t) (upgrade_ t)
    (is_websocket_key_ t) (websocket_key_ t) (head_info_list_ t) (field_ t).

Definition sHeadValue (t : CHttpTextBuffer) (at_ : list Z) : CHttpTextBuffer :=
  mkText "sHeadValue" (http_request_text_ t) (http_post_text_ t) (is_completed_ t)
    (buffer_parse_pos_ t) false
    (if is_post_length_ t then atoi at_ else content_length_ t)
    false
    (if is_upgrade t then lower (upgrade_ t ++ at_) else upgrade_ t)
    false
    (if is_websocket_key_ t then websocket_key_ t ++ at_ else websocket_key_ t)
    (<[field_ t := at_]> (head_info_list_ t)) (field_ t).

Definition sHeadField (t : CHttpTextBuffer) (at_ : list Z) : CHttpTextBuffer :=
  let http_data := lower at_ in
  mkText "sHeadField" (http_request_text_ t) (http_post_text_ t) (is_completed_ t)
    (buffer_parse_pos_ t)
    (bool_decide (http_data = bytes_of_string "content-length") || is_post_length_ t)
    (content_length_ t)
    (bool_decide (http_data = bytes_of_string "upgrade") || is_upgrade t) (upgrade_ t)
    (bool_decide (http_data = bytes_of_string "sec-websocket-key") || is_websocket_key_ t)
    (websocket_key_ t) (head_info_list_ t) http_data.

Definition callback (t : CHttpTextBuffer) (e : http_event) : CHttpTextBuffer :=
  match e with
  | ev_url _ => set_func_name t "sUrlCallback"
  | ev_status _ => set_func_name t "sStatusHandle"
  | ev_body d => sBodyHandle t d
  | ev_header_value d => sHeadValue t d
  | ev_header_field d => sHeadField t d
  | ev_headers_complete => set_func_name t "sHeadComplete"
  | ev_message_begin => set_func_name t "sMessageBegin"
  | ev_message_complete => set_func_name t "sMessageEnd"
  | ev_chunk_header => set_func_name t "sChunkHeader"
  | ev_chunk_complete => set_func_name t "sChunkComplete"
  end.

(** What [http_parser_init] followed by [http_parser_execute] does with a text. *)
Record parse_run := mkRun { r_events : list http_event; r_nparsed : Z; r_upgrade : bool }.

Definition is_websocket (t : CHttpTextBuffer) : bool :=
  bool_decide (upgrade_ t = bytes_of_string "websocket").

Definition set_request (t : CHttpTextBuffer) (s : list Z) : CHttpTextBuffer :=
  mkText (http_func_name_ t) s (http_post_text_ t) (is_completed_ t) (buffer_parse_pos_ t)
    (is_post_length_ t) (content_length_ t) (is_upgrade t) (upgrade_ t) (is_websocket_key_ t)
    (websocket_key_ t) (head_info_list_ t) (field_ t).
Definition set_parse_pos (t : CHttpTextBuffer) (p : Z) : CHttpTextBuffer :=
  mkText (http_func_name_ t) (http_request_text_ t) (http_post_text_ t) (is_completed_ t) p
    (is_post_length_ t) (content_length_ t) (is_upgrade t) (upgrade_ t) (is_websocket_key_ t)
    (websocket_key_ t) (head_info_list_ t) (field_ t).
Definition set_completed (t : CHttpTextBuffer) : CHttpTextBuffer :=
  mkText (http_func_name_ t) (http_request_text_ t) (http_post_text_ t) true (buffer_parse_pos_ t)
    (is_post_length_ t) (content_length_ t) (is_upgrade t) (upgrade_ t) (is_websocket_key_ t)
    (websocket_key_ t) (head_info_list_ t) (field_ t).

Definition get_post_text (t : CHttpTextBuffer) : list Z := http_post_text_ t.
Definition get_websocket_client_key (t : CHttpTextBuffer) : list Z := websocket_key_ t.

Definition get_post_error (t : CHttpTextBuffer) : list Z :=
  if is_completed_ t then []
  else bytes_of_string "[error]state=" ++ bytes_of_string (http_func_name_ t) ++
       bytes_of_string ",position=" ++ decimal (buffer_parse_pos_ t).

Definition get_head_info (t : CHttpTextBuffer) (field_name : list Z) : list Z :=
  default [] (head_info_list_ t !! lower field_name).

Definition crlf : list Z := [13; 10].

Definition response_head : list Z :=
  bytes_of_string "HTTP/1.1 200 OK" ++ crlf ++ bytes_of_string "Content-Type: application/json" ++ crlf ++
  bytes_of_string "Access-Control-Allow-Origin:*" ++ crlf ++ bytes_of_string "Content-Length:".

Definition get_response_text (data : list Z) : list Z :=
  response_head ++ decimal (zlen data) ++ crlf ++ crlf ++ data.

Definition get_response_websocket_text (data : list Z) : list Z :=
  bytes_of_string "HTTP/1.1 101 Switching Protocols" ++ crlf ++ bytes_of_string "Upgrade: websocket" ++ crlf ++
  bytes_of_string "Connection: Upgrade" ++ crlf ++ bytes_of_string "Sec-WebSocket-Accept: " ++
  data ++ crlf ++ crlf.

Section WithParser.

Context (http_parser_execute : list Z → parse_run).

Definition try_parse (t : CHttpTextBuffer) (http_text : list Z) : Z * CHttpTextBuffer :=
  let t := if is_completed_ t then clear t else t in
  let t := set_request t (http_request_text_ t ++ http_text) in
  let run := http_parser_execute (http_request_text_ t) in
  let t := fold_left callback (r_events run) t in
  if r_upgrade run then (0, t)
  else if negb (r_nparsed run =? zlen (http_request_text_ t))
  then (-1, set_parse_pos t (i32 (r_nparsed run)))
  else if is_websocket t then (0, t)
  else if (0 <? content_length_ t) && (i32 (zlen (http_post_text_ t)) <? content_length_ t)
  then (1, t)
  else (0, set_completed t).

(** ** What the callbacks accumulate *)

Definition ev_body_text (e : http_event) : list Z := match e with ev_body d => d | _ => [] end.
Definition body_text (es : list http_event) : list Z := concat (map ev_body_text es).

Lemma callbacks_request es : ∀ t,
  http_request_text_ (fold_left callback es t) = http_request_text_ t.
Proof. induction es as [|e es IH]; intros t; cbn [fold_left]; [done|]. rewrite IH. by destruct e. Qed.

Lemma callbacks_completed es : ∀ t, is_completed_ (fold_left callback es t) = is_completed_ t.
Proof. induction es as [|e es IH]; intros t; cbn [fold_left]; [done|]. rewrite IH. by destruct e. Qed.

Lemma callbacks_post es : ∀ t,
  http_post_text_ (fold_left callback es t) = http_post_text_ t ++ body_text es.
Proof.
  unfold body_text. induction es as [|e es IH]; intros t; cbn [fold_left map concat]; [by rewrite app_nil_r|].
  rewrite IH. destruct e; cbn [callback http_post_text_ set_func_name sHeadValue sHeadField sBodyHandle ev_body_text app];
    try done. by rewrite <- app_assoc.
Qed.

(** Two states with the same pending flag and length stay so. *)
Lemma callbacks_sync es : ∀ t1 t2,
  is_post_length_ t1 = is_post_length_ t2 → content_length_ t1 = content_length_ t2 →
  content_length_ (fold_left callback es t1) = content_length_ (fold_left callback es t2).
Proof.
  induction es as [|e es IH]; intros t1 t2 Hf Hc; cbn [fold_left]; [done|].
  apply IH; destruct e; cbn; rewrite ?Hf, ?Hc; done.
Qed.

(** The content length after the callbacks depends only on the pending flag, or is the
    one from before when no header sets it. *)
Lemma callbacks_length es : ∀ t1 t2, is_post_length_ t1 = is_post_length_ t2 →
  is_post_length_ (fold_left callback es t1) = is_post_length_ (fold_left callback es t2) ∧
  (content_length_ (fold_left callback es t1) = content_length_ (fold_left callback es t2) ∨
   content_length_ (fold_left callback es t1) = content_length_ t1).
Proof.
  induction es as [|e es IH]; intros t1 t2 Hf; cbn [fold_left]; [auto|].
  destruct (IH (callback t1 e) (callback t2 e)) as [Hp Hc]; [destruct e; cbn; rewrite ?Hf; done|].
  split; [done|]. destruct Hc as [Hc|Hc]; [by left|]. destruct (is_post_length_ t1) eqn:E1.
  - destruct e; cbn in Hc |- *; rewrite ?E1 in Hc; try (by right).
    left. apply callbacks_sync; cbn; by rewrite <- ?Hf, ?E1.
  - right. rewrite Hc. destruct e; cbn; by rewrite ?E1.
Qed.

(** A request without an upgrade header leaves the upgrade field alone. *)
Definition plain_event (e : http_event) : Prop :=
  match e with ev_header_field f => lower f ≠ bytes_of_string "upgrade" | _ => True end.

Lemma callbacks_plain es : Forall plain_event es → ∀ t, is_upgrade t = false →
  upgrade_ (fold_left callback es t) = upgrade_ t ∧ is_upgrade (fold_left callback es t) = false.
Proof.
  induction 1 as [|e es He _ IH]; intros t Ht; cbn [fold_left]; [done|].
  destruct (IH (callback t e)) as [-> ->]; [|split; [|done]]; destruct e; cbn in *; rewrite ?Ht; try done.
  by rewrite bool_decide_eq_false_2.
Qed.

(** The parser consumes the whole text of a plain request, with [es] as callbacks. *)
Definition plain_run (text : list Z) (es : list http_event) : Prop :=
  http_parser_execute text = mkRun es (zlen text) false ∧ Forall plain_event es.

(** The length announced by the headers of a request. *)
Definition announced (es : list http_event) : Z :=
  content_length_ (fold_left callback es CHttpTextBuffer_default).

(** [try_parse] on a plain request, by the state the request text is added to. *)
Lemma try_parse_plain t text es :
  is_completed_ t = false → is_upgrade t = false → is_websocket t = false →
  is_post_length_ t = false → 0 < announced es →
  plain_run (http_request_text_ t ++ text) es → zlen (http_post_text_ t ++ body_text es) < 2 ^ 31 →
  let t' := snd (try_parse t text) in
  http_post_text_ t' = http_post_text_ t ++ body_text es ∧
  http_request_text_ t' = http_request_text_ t ++ text ∧ upgrade_ t' = upgrade_ t ∧
  is_post_length_ t' = is_post_length_ (fold_left callback es CHttpTextBuffer_default) ∧
  (if zlen (http_post_text_ t ++ body_text es) <? announced es
   then fst (try_parse t text) = 1 ∧ is_completed_ t' = false ∧ is_upgrade t' = false
   else fst (try_parse t text) = 0 ∧ is_completed_ t' = true).
Proof.
  intros Hc Hu Hw Hp Hn [Hrun Hpl] Hlen. unfold try_parse. rewrite Hc. cbn [http_request_text_ set_request].
  rewrite Hrun. cbn [r_events r_nparsed r_upgrade].
  set (t0 := set_request t (http_request_text_ t ++ text)).
  destruct (callbacks_plain es Hpl t0 Hu) as [Eu Eiu].
  pose proof (callbacks_request es t0) as Er. pose proof (callbacks_post es t0) as Epost.
  pose proof (callbacks_completed es t0) as Ec.
  destruct (callbacks_length es CHttpTextBuffer_default t0) as [Epl Hcl]; [by cbn; rewrite Hp|].
  assert (Ecl : content_length_ (fold_left callback es t0) = announced es).
  { destruct Hcl as [E|E]; [by symmetry|]. unfold announced in Hn. rewrite E in Hn. cbn in Hn. lia. }
  rewrite Er. cbn [http_request_text_ t0 set_request]. rewrite Z.eqb_refl. cbn [negb].
  assert (Ew : is_websocket (fold_left callback es t0) = false) by (unfold is_websocket in *; by rewrite Eu).
  rewrite Ew, Ecl, Epost. cbn [http_post_text_ t0 set_request].
  pose proof (zlen_nonneg (http_post_text_ t ++ body_text es)).
  replace (i32 (zlen (http_post_text_ t ++ body_text es))) with (zlen (http_post_text_ t ++ body_text es)) by mach.
  rewrite (proj2 (Z.ltb_lt 0 _)) by done. cbn [andb].
  destruct (Z.ltb_spec (zlen (http_post_text_ t ++ body_text es)) (announced es)); cbn [fst snd].
  - rewrite Ec, Eiu. split_and!; done.
  - split_and!; done.
Qed.

End WithParser.

(** ** Decimal texts *)

Lemma dec_digits_acc fuel : ∀ z acc, dec_digits fuel z acc = dec_digits fuel z [] ++ acc.
Proof.
  induction fuel as [|fuel IH]; intros z acc; cbn [dec_digits]; [done|].
  destruct (z / 10 =? 0); [done|]. rewrite IH, (IH _ [_]), <- app_assoc. done.
Qed.

Lemma digits_val_app s1 s2 : Forall (λ c, isdigit c = true) s1 → ∀ n,
  digits_val (s1 ++ s2) n = digits_val s2 (digits_val s1 n).
Proof. induction 1 as [|c s1 Hc _ IH]; intros n; cbn [digits_val app]; [done|]. by rewrite Hc, IH. Qed.

Lemma dec_digits_spec fuel : ∀ z, 0 <= z < 10 ^ Z.of_nat fuel → (0 < fuel)%nat →
  Forall (λ c, isdigit c = true) (dec_digits fuel z []) ∧ dec_digits fuel z [] ≠ [] ∧
  digits_val (dec_digits fuel z []) 0 = z.
Proof.
  induction fuel as [|fuel IH]; intros z Hz Hf; [lia|]. cbn [dec_digits].
  assert (Hd : isdigit (48 + z mod 10) = true).
  { unfold isdigit. pose proof (Z.mod_pos_bound z 10). rewrite andb_true_iff, !Z.leb_le. lia. }
  destruct (Z.eqb_spec (z / 10) 0) as [E|E].
  - split_and!; [by repeat constructor|done|]. cbn [digits_val]. rewrite Hd.
    pose proof (Z.div_mod z 10). lia.
  - rewrite dec_digits_acc. rewrite Nat2Z.inj_succ, Z.pow_succ_r in Hz by lia.
    assert (0 < fuel)%nat by (destruct fuel; [cbn in Hz; Z.to_euclidean_division_equations; lia|lia]).
    destruct (IH (z / 10)) as (Hall & Hne & Hv); [Z.to_euclidean_division_equations; lia|done|].
    split_and!.
    + apply Forall_app. split; [done|by repeat constructor].
    + by destruct (dec_digits fuel (z / 10) []).
    + rewrite digits_val_app, Hv by done. cbn [digits_val]. rewrite Hd. pose proof (Z.div_mod z 10). lia.
Qed.

(** A digit text is read back by [atoi], up to what is no digit. *)
Lemma c_str_digits d rest : Forall (λ c, isdigit c = true) d → c_str (d ++ rest) = d ++ c_str rest.
Proof. induction 1 as [|c d Hc _ IH]; cbn [app c_str]; [done|]. rewrite IH. by destruct (Z.eqb_spec c 0) as [->|]. Qed.

Lemma atoi_decimal n rest : 0 <= n < 2 ^ 31 → (∀ k, digits_val (c_str rest) k = k) → atoi (decimal n ++ rest) = n.
Proof.
  intros Hn Hstop. unfold atoi, decimal. rewrite (proj2 (Z.ltb_ge n 0)) by lia.
  destruct (dec_digits_spec 20 n) as (Hall & Hne & Hv); [lia|lia|].
  set (d := dec_digits 20 n []) in *. rewrite c_str_digits by done.
  assert (Hd : digits_val (d ++ c_str rest) 0 = n) by (by rewrite digits_val_app, Hv).
  destruct d as [|c d]; [done|]. inversion_clear Hall as [|? ? Hc _]. cbn [app skip_blanks] in *.
  unfold isdigit in Hc. apply andb_true_iff in Hc as [H1%Z.leb_le H2%Z.leb_le].
  assert (isspace c = false) as ->.
  { unfold isspace. rewrite orb_false_iff, andb_false_iff, Z.eqb_neq, !Z.leb_gt. lia. }
  rewrite (proj2 (Z.eqb_neq c 45)), (proj2 (Z.eqb_neq c 43)), Hd by lia.
  unfold saturate64. mach.
Qed.

(** ** Properties *)

(** A POST request received in one piece is complete exactly when its body has the
    announced length, and its text is then the body (also when it follows a completed
    request on the same connection). *)
Theorem http_post_single_read P t text es :
  (t = CHttpTextBuffer_default ∨ is_completed_ t = true) → is_websocket t = false →
  plain_run P text es → 0 < announced es → zlen (body_text es) < 2 ^ 31 →
  let '(ret, t') := try_parse P t text in
  get_post_text t' = body_text es ∧
  (ret = 0 ↔ announced es <= zlen (body_text es)) ∧ (ret = 0 ∨ ret = 1).
Proof.
  intros Ht Hw Hrun Hn Hlen.
  assert (∃ t0, try_parse P t text = try_parse P t0 text ∧ is_completed_ t0 = false ∧ is_upgrade t0 = false ∧
    is_websocket t0 = false ∧ is_post_length_ t0 = false ∧ http_request_text_ t0 = [] ∧
    http_post_text_ t0 = []) as (t0 & -> & Hc & Hu & Hw0 & Hp & Hreq & Hpost).
  { destruct Ht as [->|Ht]; [by exists CHttpTextBuffer_default|].
    exists (clear t). unfold try_parse at 1. by rewrite Ht. }
  pose proof (try_parse_plain P t0 text es) as Hspec. rewrite Hreq, Hpost in Hspec. cbn [app] in Hspec.
  destruct Hspec as (Ep & _ & _ & _ & Hres); try done.
  destruct (try_parse P t0 text) as [ret t']. cbn [fst snd] in *. split; [done|].
  destruct (Z.ltb_spec (zlen (body_text es)) (announced es)); destruct Hres as [-> _]; split; auto; lia.
Qed.

Definition demo_events (len body : string) : list http_event :=
  [ev_message_begin; ev_url (bytes_of_string "/"); ev_header_field (bytes_of_string "Content-Length");
   ev_header_value (bytes_of_string len); ev_headers_complete; ev_body (bytes_of_string body)].

(** A parser that knows two texts. *)
Definition demo_parser (t1 : list Z) (es1 es2 : list http_event) (t : list Z) : parse_run :=
  mkRun (if bool_decide (t = t1) then es1 else es2) (zlen t) false.

Lemma demo_plain len body : Forall plain_event (demo_events len body).
Proof. unfold demo_events. repeat constructor; try done. Qed.

Lemma http_post_single_read_witness :
  let '(ret, t') := try_parse (demo_parser [1] (demo_events "2" "hi") []) CHttpTextBuffer_default [1] in
  get_post_text t' = body_text (demo_events "2" "hi") ∧
  (ret = 0 ↔ announced (demo_events "2" "hi") <= zlen (body_text (demo_events "2" "hi"))) ∧ (ret = 0 ∨ ret = 1).
Proof.
  apply http_post_single_read; [by left|reflexivity|split; [reflexivity|apply demo_plain]|reflexivity|reflexivity].
Defined.

(** A POST request whose body arrives in two reads is delivered with the bytes of the
    first read duplicated: [try_parse] runs the parser again over the whole text but keeps
    the body collected by the first run. *)
Theorem http_post_split_read_duplicates P text1 text2 es1 es2 :
  plain_run P text1 es1 → plain_run P (text1 ++ text2) es2 →
  is_post_length_ (fold_left callback es1 CHttpTextBuffer_default) = false →
  announced es1 = announced es2 → 0 < announced es1 →
  zlen (body_text es1) < announced es1 → announced es1 <= zlen (body_text es1 ++ body_text es2) < 2 ^ 31 →
  let '(ret1, t1) := try_parse P CHttpTextBuffer_default text1 in
  let '(ret2, t2) := try_parse P t1 text2 in
  ret1 = 1 ∧ ret2 = 0 ∧ get_post_text t2 = body_text es1 ++ body_text es2.
Proof.
  intros H1 H2 Hp Ea Hn Hlt Hge. pose proof (zlen_app (body_text es1) (body_text es2)).
  pose proof (zlen_nonneg (body_text es2)).
  destruct (try_parse_plain P CHttpTextBuffer_default text1 es1) as (E1 & R1 & U1 & L1 & C1);
    [done|done|done|done|done|done|cbn [http_post_text_ CHttpTextBuffer_default app]; lia|].
  cbn [http_post_text_ http_request_text_ upgrade_ CHttpTextBuffer_default app] in *.
  destruct (try_parse P CHttpTextBuffer_default text1) as [ret1 t1]. cbn [fst snd] in *.
  rewrite (proj2 (Z.ltb_lt _ _)) in C1 by done. destruct C1 as (-> & Hc & Hu).
  destruct (try_parse_plain P t1 text2 es2) as (E2 & _ & _ & _ & C2);
    [done|done|unfold is_websocket; by rewrite U1|by rewrite L1|lia|by rewrite R1|rewrite E1; lia|].
  rewrite E1 in *. destruct (try_parse P t1 text2) as [ret2 t2]. cbn [fst snd] in *.
  rewrite (proj2 (Z.ltb_ge _ _)) in C2 by lia. destruct C2 as [-> _]. done.
Qed.

Lemma http_post_split_read_duplicates_witness :
  let P := demo_parser [1] (demo_events "4" "ab") (demo_events "4" "abcd") in
  let '(ret1, t1) := try_parse P CHttpTextBuffer_default [1] in
  let '(ret2, t2) := try_parse P t1 [2] in
  ret1 = 1 ∧ ret2 = 0 ∧ get_post_text t2 = bytes_of_string "ab" ++ bytes_of_string "abcd".
Proof.
  apply (http_post_split_read_duplicates (demo_parser [1] (demo_events "4" "ab") (demo_events "4" "abcd"))
           [1] [2] (demo_events "4" "ab") (demo_events "4" "abcd"));
    [split; [reflexivity|apply demo_plain]|split; [reflexivity|apply demo_plain]|reflexivity..|].
  vm_compute. intuition congruence.
Defined.

(** The Content-Length a response announces, read back with the same [atoi] the
    request side uses, is the length of the data that follows the blank line. *)
Theorem http_response_length_roundtrip data :
  zlen data < 2 ^ 31 →
  ∃ value, get_response_text data = response_head ++ value ∧ atoi value = zlen data ∧
    zdrop (zlen value - zlen data) value = data.
Proof.
  intros Hd. pose proof (zlen_nonneg data). exists (decimal (zlen data) ++ crlf ++ crlf ++ data).
  split_and!; [done|by apply atoi_decimal; [lia|]|].
  rewrite !app_assoc. apply zdrop_app_eq. rewrite zlen_app. lia.
Qed.

Lemma http_response_length_roundtrip_witness :
  ∃ value, get_response_text (bytes_of_string "hello") = response_head ++ value ∧
    atoi value = zlen (bytes_of_string "hello") ∧
    zdrop (zlen value - zlen (bytes_of_string "hello")) value = bytes_of_string "hello".
Proof. apply http_response_length_roundtrip. reflexivity. Defined.
