(* ===== verification/Sha1Report.v ===== *)
(** * Hashes of files and hashes as text (the utility functions of src/PacketParse_Http/SHA1.hpp)

    [HashFile] reads a file in pieces and hashes them; [ReportHash] writes the hash as text into the memory it is
    given.  A file is the bytes that can be read from it and whether reading ends there with an error. *)

From Stdlib Require Import ZArith Lia.
From S2P Require Import Prelude Define Sha1 HttpFormat.
From stdpp Require Import base numbers list strings.
Local Open Scope Z_scope.

(** ** Files *)

Record file := mkFile { readable : list Z; broken : bool }.

Definition SHA1_MAX_FILE_BUFFER : Z := 32 * 20 * 820.

(** The loop of [HashFile] with [rest] still to be read; [fread] returns less than it was asked for at the end of the
    file or with an error.  The fuel is one more than the bytes to read. *)
Fixpoint hash_loop (fuel : nat) (s : CSHA1) (rest : list Z) (err : bool) : outcome (bool * CSHA1) :=
  match fuel with
  | O => Fault
  | S fuel =>
      let pbData := ztake SHA1_MAX_FILE_BUFFER rest in
      let uRead := zlen pbData in
      let* s := if 0 <? uRead then Update s pbData (u32 uRead) else Ok s in
      if uRead <? SHA1_MAX_FILE_BUFFER then Ok (negb err, s)
      else hash_loop fuel s (zdrop SHA1_MAX_FILE_BUFFER rest) err
  end.

(** The outer option is the name, the inner one whether the file can be opened. *)
Definition HashFile (s : CSHA1) (f : option (option file)) : outcome (bool * CSHA1) :=
  match f with
  | None | Some None => Ok (false, s)
  | Some (Some f) => hash_loop (S (length (readable f))) s (readable f) (broken f)
  end.

(** ** Texts *)

Inductive REPORT_TYPE := REPORT_HEX | REPORT_DIGIT | REPORT_HEX_SHORT | REPORT_OTHER (n : Z).

(** The formats [%02X] and [%u] of a byte. *)
Definition hex_digit (n : Z) : Z := if n <? 10 then 48 + n else 55 + n.
Definition format_02X (b : Z) : list Z := [hex_digit (b / 16); hex_digit (b mod 16)].
Definition format_u (b : Z) : list Z := decimal b.

(** [_sntprintf] into 16 bytes, then [_tcscpy] or [_tcscat] into memory of [size] bytes. *)
Definition tcscat (size : Z) (t temp : list Z) : outcome (list Z) :=
  if zlen (t ++ temp) + 1 <=? size then Ok (t ++ temp) else Fault.

Fixpoint report_loop (size : Z) (fmt : Z → list Z) (bs t : list Z) : outcome (list Z) :=
  match bs with
  | [] => Ok t
  | b :: bs => let* t := tcscat size t (ztake 14 (fmt b)) in report_loop size fmt bs t
  end.

Definition report_text (size : Z) (first next : Z → list Z) (digest : list Z) : outcome (list Z) :=
  match digest with
  | [] => Fault
  | b :: bs => let* t := tcscat size [] (ztake 14 (first b)) in report_loop size next bs t
  end.

(** [tszReport] has [size] bytes, or is null; the result is the text in it when the call succeeds. *)
Definition ReportHash (s : CSHA1) (tszReport : option Z) (rtReportType : REPORT_TYPE) : outcome (option (list Z)) :=
  match tszReport with
  | None => Ok None
  | Some size =>
      match rtReportType with
      | REPORT_HEX => let* t := report_text size format_02X (λ b, 32 :: format_02X b) (m_digest s) in Ok (Some t)
      | REPORT_HEX_SHORT => let* t := report_text size format_02X format_02X (m_digest s) in Ok (Some t)
      | REPORT_DIGIT => let* t := report_text size format_u (λ b, 32 :: format_u b) (m_digest s) in Ok (Some t)
      | REPORT_OTHER _ => Ok None
      end
  end.

Definition ReportHashStl (s : CSHA1) (rtReportType : REPORT_TYPE) : outcome (option (list Z)) := ReportHash s (Some 84) rtReportType.

(** ** Properties *)

Lemma hash_loop_chunks fuel : ∀ s rest err, (length rest < fuel)%nat → wf_bytes rest →
  ∃ chunks, Forall chunk_ok chunks ∧ concat chunks = rest ∧ hash_loop fuel s rest err = (let* s' := Update_all s chunks in Ok (negb err, s')).
Proof.
  induction fuel as [|fuel IH]; intros s rest err Hf Hwf; [lia|]. cbn [hash_loop].
  assert (HM : SHA1_MAX_FILE_BUFFER = 524800) by reflexivity.
  assert (Hle : zlen (ztake SHA1_MAX_FILE_BUFFER rest) <= SHA1_MAX_FILE_BUFFER) by (apply zlen_ztake_le; lia).
  pose proof (zlen_nonneg (ztake SHA1_MAX_FILE_BUFFER rest)) as Hge.
  assert (Hc : chunk_ok (ztake SHA1_MAX_FILE_BUFFER rest)) by (split; [auto with pss|lia]). rewrite u32_small by lia.
  destruct (Z.ltb_spec (zlen (ztake SHA1_MAX_FILE_BUFFER rest)) SHA1_MAX_FILE_BUFFER) as [Hlt|Hfull].
  - assert (Hall : ztake SHA1_MAX_FILE_BUFFER rest = rest).
    { apply ztake_all. destruct (Z.le_gt_cases (zlen rest) SHA1_MAX_FILE_BUFFER); [done|]. rewrite zlen_ztake in Hlt by lia. lia. }
    rewrite Hall in *. destruct (Z.ltb_spec 0 (zlen rest)) as [Hp|Hz].
    + exists [rest]. split_and!; [constructor; [done|constructor]|cbn; apply app_nil_r|]. cbn [Update_all]. by destruct (Update s rest (zlen rest)).
    + exists []. split_and!; [done|symmetry; apply zlen_zero; lia|done].
  - rewrite (proj2 (Z.ltb_lt 0 _)) by lia.
    assert (Hd : (length (zdrop SHA1_MAX_FILE_BUFFER rest) < fuel)%nat).
    { pose proof (ztake_zdrop SHA1_MAX_FILE_BUFFER rest) as E. apply (f_equal length) in E. rewrite length_app in E. unfold zlen in *. lia. }
    assert (Hw : wf_bytes (zdrop SHA1_MAX_FILE_BUFFER rest)) by auto with pss.
    set (d := ztake _ _) in *. set (r := zdrop _ _) in *. destruct (IH (mkSHA1 H0 0 0 [] []) r err Hd Hw) as (cs & Hcs & Ec & _).
    assert (Hdet : ∀ s1, ∃ cs1, Forall chunk_ok cs1 ∧ concat cs1 = r ∧ hash_loop fuel s1 r err = (let* s' := Update_all s1 cs1 in Ok (negb err, s'))) by (intros; by apply IH).
    destruct (Update s d (zlen d)) as [s1|] eqn:E1; cbn [obind].
    + destruct (Hdet s1) as (cs1 & H1 & H2 & H3). exists (d :: cs1). split_and!; [by constructor|cbn; rewrite H2; apply ztake_zdrop|]. cbn [Update_all]. by rewrite E1.
    + exists (d :: cs). split_and!; [by constructor|cbn; rewrite Ec; apply ztake_zdrop|]. cbn [Update_all]. by rewrite E1.
Qed.

(** A file of any length that can be read to its end is hashed to the hash of its bytes; a read error is reported. *)
Theorem hash_file_correct junk f : length (m_buffer junk) = 64%nat → wf_bytes (readable f) → zlen (readable f) < 2 ^ 61 →
  ∃ s, HashFile (CSHA1_new junk) (Some (Some f)) = Ok (negb (broken f), s) ∧ (let* s := Final s in Ok (GetHash s)) = Ok (sha1 (readable f)).
Proof.
  intros Hj Hwf Hmax. cbn [HashFile]. destruct (hash_loop_chunks (S (length (readable f))) (CSHA1_new junk) (readable f) (broken f)) as (cs & Hcs & Ec & ->); [lia|done|]. rewrite <- Ec in *.
  pose proof (hash_chunks junk cs Hj Hcs Hmax) as Hh. destruct (Update_all (CSHA1_new junk) cs) as [s|]; [|done]. by exists s.
Qed.

Lemma hash_file_correct_witness : ∃ s, HashFile (CSHA1_new junk_sha1) (Some (Some (mkFile (bytes_of_string "abc") false))) = Ok (true, s) ∧
  (let* s := Final s in Ok (GetHash s)) = Ok (sha1 (bytes_of_string "abc")).
Proof. apply (hash_file_correct junk_sha1 (mkFile (bytes_of_string "abc") false)); [reflexivity|repeat constructor; vm_compute; congruence|vm_compute; reflexivity]. Defined.

(** The text of a list of bytes. *)
Lemma report_loop_text size fmt bs : ∀ t n, Forall (λ b, zlen (fmt b) <= n) bs → n <= 14 → zlen t + n * zlen bs + 1 <= size →
  report_loop size fmt bs t = Ok (t ++ concat (map fmt bs)).
Proof.
  induction bs as [|b bs IH]; intros t n Hn Hmax Hs; cbn [report_loop map concat]; [by rewrite app_nil_r|]. inversion_clear Hn as [|? ? Hb Hbs].
  rewrite zlen_cons in Hs. pose proof (zlen_nonneg bs). pose proof (zlen_nonneg (fmt b)). unfold tcscat. rewrite ztake_all by lia. rewrite zlen_app, (proj2 (Z.leb_le _ _)) by nia. cbn [obind].
  rewrite (IH _ n), <- app_assoc; [done|done|done|]. rewrite zlen_app. nia.
Qed.

Lemma joined (f : Z → list Z) b bs : f b ++ concat (map (λ b, 32 :: f b) bs) = Define.join 32 (map f (b :: bs)).
Proof.
  revert b. induction bs as [|c bs IH]; intros b; [apply app_nil_r|].
  change (map f (b :: c :: bs)) with (f b :: map f (c :: bs)). rewrite join_cons by done. rewrite <- IH. done.
Qed.

Lemma format_u_len b : 0 <= b < 256 → zlen (format_u b) <= 3.
Proof.
  intros Hb. apply Z.leb_le. assert (Hall : forallb (λ b, zlen (format_u b) <=? 3) (seqZ 0 256) = true) by (vm_compute; reflexivity).
  rewrite forallb_forall in Hall. apply Hall, list_elem_of_In, elem_of_seqZ. lia.
Qed.

Lemma format_02X_len b : zlen (format_02X b) = 2.
Proof. done. Qed.

(** Reading the texts back. *)
Definition hex_value (c : Z) : Z := if c <? 65 then c - 48 else c - 55.
Definition read_02X (t : list Z) : Z := match t with [a; b] => hex_value a * 16 + hex_value b | _ => -1 end.

Lemma read_format_02X b : 0 <= b < 256 → read_02X (format_02X b) = b.
Proof.
  intros Hb. apply Z.eqb_eq. assert (Hall : forallb (λ b, read_02X (format_02X b) =? b) (seqZ 0 256) = true) by (vm_compute; reflexivity).
  rewrite forallb_forall in Hall. apply Hall, list_elem_of_In, elem_of_seqZ. lia.
Qed.

(** The text of a hash fits the memory [ReportHashStl] gives for it, and has a word for each byte that reads back as the byte. *)
Theorem report_readable s : length (m_digest s) = 20%nat → wf_bytes (m_digest s) →
  (∃ ws, ReportHashStl s REPORT_HEX = Ok (Some (Define.join 32 ws)) ∧ ReportHashStl s REPORT_HEX_SHORT = Ok (Some (concat ws)) ∧ map read_02X ws = m_digest s) ∧
  (∃ ws, ReportHashStl s REPORT_DIGIT = Ok (Some (Define.join 32 ws)) ∧ map atoi ws = m_digest s).
Proof.
  intros Hl Hwf. unfold ReportHashStl, ReportHash. destruct (m_digest s) as [|b bs] eqn:E; [done|]. inversion_clear Hwf as [|? ? Hb Hbs].
  assert (Hn : zlen bs = 19) by (cbn in Hl; unfold zlen; lia). unfold report_text, tcscat. cbn [app].
  assert (Ha : ∀ n, 0 <= n < 256 → atoi (format_u n) = n).
  { intros n Hr. rewrite <- (app_nil_r (format_u n)). apply atoi_decimal; [lia|done]. }
  pose proof (format_u_len b Hb) as Hub. split.
  - exists (map format_02X (b :: bs)). rewrite ztake_all, format_02X_len by (rewrite format_02X_len; lia). change (2 + 1 <=? 84) with true. cbn [obind]. split_and!.
    + rewrite (report_loop_text _ _ _ _ 3); [cbn [obind]; by rewrite <- joined|by apply Forall_true|lia|rewrite Hn, format_02X_len; lia].
    + rewrite (report_loop_text _ _ _ _ 2); [done|by apply Forall_true|lia|rewrite Hn, format_02X_len; lia].
    + rewrite map_map. rewrite <- (map_id (b :: bs)) at 2. apply map_ext_in. intros c Hc%list_elem_of_In. apply read_format_02X. assert (Forall (λ b, 0 <= b < 256) (b :: bs)) as Hall by (by constructor).
      by apply (proj1 (Forall_forall _ _) Hall).
  - exists (map format_u (b :: bs)). rewrite ztake_all by lia. rewrite (proj2 (Z.leb_le _ _)) by lia. cbn [obind]. split.
    + rewrite (report_loop_text _ _ _ _ 4); [cbn [obind]; by rewrite <- joined| |lia|lia]. eapply Forall_impl; [exact Hbs|]. intros c Hc. cbn beta. rewrite zlen_cons. pose proof (format_u_len c Hc). lia.
    + rewrite map_map. rewrite <- (map_id (b :: bs)) at 2. apply map_ext_in. intros c Hc%list_elem_of_In. apply Ha. assert (Forall (λ b, 0 <= b < 256) (b :: bs)) as Hall by (by constructor).
      by apply (proj1 (Forall_forall _ _) Hall).
Qed.
