(* ===== verification/Utilities.v ===== *)
(** * Small utilities

    [Console]: src/Common/consoleoutput.hpp, where the log goes.  [Stamp]: src/Common/TimeStamp.hpp, points in time as
    dates.  [Delay]: [get_time_delay] of define.h, the seconds up to a date in a text.  [Cpu]: [bind_thread_to_cpu] of
    define.h.  [Performance]: src/Common/PerformanceCheck.hpp.  [TimerThread]: src/PSS_ASIO/Common/CoreTimer.hpp.

    [localtime] and [mktime] of the C library are parameters, and so are the clock and the random numbers. *)

From Stdlib Require Import ZArith Lia.
From S2P Require Import Prelude Define HttpFormat.
From stdpp Require Import base numbers list strings.
Local Open Scope Z_scope.

(** ** The log *)

Module Console.

Inductive level_enum := debug | info | warn | err.
Record Console_Output_Info := mkInfo { m_blTunOn : bool; m_nLogFileMaxSize : Z; m_nFileCount : Z; m_strConsoleName : string; m_strLevel : string }.
Definition Console_Output_Info_default : Console_Output_Info := mkInfo true 1024000 0 "./consoleoutput" "info".

Inductive sink := Screen | Rotating (name : string) (max_size count : Z).
Record logger := mkLogger { console : sink; console_level : level_enum; flush_level : level_enum }.

Definition level_of (s : string) : level_enum :=
  if decide (s = "info"%string) then info
  else if decide (s = "debug"%string) then debug
  else if decide (s = "warn"%string) then warn
  else if decide (s = "error"%string) then err
  else info.

(** [Init] makes the default logger. *)
Definition Init (i : Console_Output_Info) : logger :=
  let s := if negb (m_blTunOn i) then Screen else Rotating (m_strConsoleName i) (m_nLogFileMaxSize i) (m_nFileCount i) in
  mkLogger s (level_of (m_strLevel i)) (level_of (m_strLevel i)).

Definition Init_Console_Output (blTurnOn : bool) (nFileCount nLogFileMaxSize : Z) (strConsoleName strLevel : string) : logger :=
  Init (mkInfo blTurnOn nLogFileMaxSize nFileCount strConsoleName strLevel).

(** The comment at the switch has it the other way round: set, it sends the log to a file. *)
Lemma switched_on_is_file n size name level : console (Init_Console_Output true n size name level) = Rotating name size n.
Proof. done. Qed.

End Console.

(** ** Dates *)

Module Stamp.

Record tm := mkTm { tm_year : Z; tm_mon : Z; tm_mday : Z; tm_hour : Z; tm_min : Z; tm_sec : Z }.

Section Clock.
Context (localtime : Z → tm).

(** A point in time is a number of milliseconds; a [time_t] has whole seconds. *)
Definition to_time_t (time_point : Z) : Z := Z.quot time_point 1000.

(** The format [{:0wd}] of a number that is not negative. *)
Definition padded (w : nat) (n : Z) : list Z := replicate (w - length (decimal n)) 48 ++ decimal n.

Definition Get_DateTime (time_point : Z) : list Z :=
  let now := localtime (to_time_t time_point) in
  padded 4 (tm_year now + 1900) ++ [45] ++ padded 2 (tm_mon now + 1) ++ [45] ++ padded 2 (tm_mday now) ++ [32] ++
  padded 2 (tm_hour now) ++ [58] ++ padded 2 (tm_min now) ++ [58] ++ padded 2 (tm_sec now).
Definition Get_Date_Year (time_point : Z) : Z := u16 (tm_year (localtime (to_time_t time_point)) + 1900).
Definition Get_Date_Month (time_point : Z) : Z := u16 (tm_mon (localtime (to_time_t time_point)) + 1).
Definition Get_Date_Day (time_point : Z) : Z := u16 (tm_mday (localtime (to_time_t time_point))).
Definition Get_Time_Difference (time_end time_begin : Z) : Z := time_end - time_begin.
Definition Add_Time_Milliseconds (time_now milliseconds : Z) : Z := time_now + milliseconds.
Definition Get_Time_of_Minute (time_point : Z) : Z := u8 (tm_min (localtime (to_time_t time_point))).
Definition Get_Time_use_second (time_point : Z) : Z := u64 (Z.quot time_point 1000).

End Clock.
End Stamp.
Import Stamp.

(** ** The delay up to a date *)

Module Delay.

(** [sscanf]: a number, a character that has to be there, or any blanks. *)
Inductive item := Int | Lit (c : Z) | Blanks.
Definition format : list item := [Int; Lit 45; Int; Lit 45; Int; Blanks; Int; Lit 58; Int; Lit 58; Int].

Fixpoint drop_digits (s : list Z) : list Z := match s with c :: s' => if isdigit c then drop_digits s' else s | [] => [] end.
Definition starts_digit (s : list Z) : bool := match s with c :: _ => isdigit c | [] => false end.

(** [%d] *)
Definition scan_int (s : list Z) : option (Z * list Z) :=
  let s := skip_blanks s in
  let '(sign, s) := match s with c :: s' => if c =? 45 then (-1, s') else if c =? 43 then (1, s') else (1, s) | [] => (1, s) end in
  if starts_digit s then Some (i32 (saturate64 (sign * digits_val s 0)), drop_digits s) else None.

(** The numbers that are read before the text fails to match. *)
Fixpoint sscanf (fmt : list item) (s : list Z) : list Z :=
  match fmt with
  | [] => []
  | Int :: fmt => match scan_int s with Some (n, s) => n :: sscanf fmt s | None => [] end
  | Lit c :: fmt => match s with c' :: s => if c' =? c then sscanf fmt s else [] | [] => [] end
  | Blanks :: fmt => sscanf fmt (skip_blanks s)
  end.

(** The variables [year] to [second] before the call. *)
Record vars := mkVars { year : Z; month : Z; day : Z; hour : Z; minute : Z; second : Z }.

Definition assign (v : vars) (ns : list Z) : vars :=
  let get i old := default old (ns !! i) in
  mkVars (get 0%nat (year v)) (get 1%nat (month v)) (get 2%nat (day v)) (get 3%nat (hour v)) (get 4%nat (minute v)) (get 5%nat (second v)).

Definition get_time_delay (mktime : tm → Z) (junk : vars) (now : Z) (date : list Z) : Z :=
  let v := assign junk (sscanf format (c_str date)) in
  let tm_ := mkTm (i32 (year v - 1900)) (i32 (month v - 1)) (day v) (hour v) (minute v) (second v) in
  Z.quot (mktime tm_ * 1000000000 - now) 1000000000.

End Delay.

(** ** Processors *)

Module Cpu.

(** A mask has room for 1024 processors; [CPU_SET] leaves it alone for a greater number.  [cpuidx] is static; without a
    number of processors the remainder is a division by zero. *)
Definition bind_thread_to_cpu (cpunum cpuidx : Z) : outcome (list Z * Z) :=
  if cpunum =? 0 then Fault
  else let cpu := cpuidx mod cpunum in Ok (if cpu <? 1024 then [cpu] else [], u64 (cpuidx + 1)).

Fixpoint bind_threads (n : nat) (cpunum cpuidx : Z) : outcome (list (list Z) * Z) :=
  match n with
  | O => Ok ([], cpuidx)
  | S n => let* '(m, i) := bind_thread_to_cpu cpunum cpuidx in let* '(ms, i) := bind_threads n cpunum i in Ok (m :: ms, i)
  end.

End Cpu.

(** ** Performance checks *)

Module Performance.

(** [Get_Random] with the two numbers it draws: the first is never negative, so that the second one decides. *)
Definition Get_Random (sample_ratio_ first second : Z) : bool := (0 <=? first) && (second <? sample_ratio_).

Record CPerformance_Check := mkCheck { name_ : string; time_begin_ : Z; is_callback_ : bool }.
Definition check_sampled (sampled : bool) (name : string) (now : Z) : CPerformance_Check := mkCheck EmptyString now sampled.
Definition check_always (name : string) (now : Z) : CPerformance_Check := mkCheck EmptyString now true.

(** The destructor: what the function of the check is called with, if it is. *)
Definition check_end (c : CPerformance_Check) (now : Z) : option (string * Z) :=
  if is_callback_ c then Some (name_ c, now - time_begin_ c) else None.

(** The name that a check was given is lost. *)
Lemma check_name_lost name t now : check_end (check_always name t) now = Some (EmptyString, now - t).
Proof. done. Qed.

End Performance.

(** ** The thread of the timers *)

Module TimerThread.

(** Whether there is a manager, and a thread that is not joined. *)
Record PSS_Timer_Manager := mkTimers { manager : bool; thread : bool }.

(** Another thread in the place of a running one ends the process; a thread that was joined cannot be joined again. *)
Definition Start (t : PSS_Timer_Manager) : outcome PSS_Timer_Manager := if thread t then Fault else Ok (mkTimers true true).
Definition Close (t : PSS_Timer_Manager) : outcome PSS_Timer_Manager :=
  if manager t then if thread t then Ok (mkTimers true false) else Fault else Ok t.

(** Closing is safe before the start and once after each start, and not a second time. *)
Lemma timers_close_once : Close (mkTimers false false) = Ok (mkTimers false false) ∧
  (let* t := Start (mkTimers false false) in Close t) = Ok (mkTimers true false) ∧
  (let* t := Start (mkTimers false false) in let* t := Close t in Close t) = Fault ∧
  (let* t := Start (mkTimers false false) in let* t := Close t in Start t) = Ok (mkTimers true true).
Proof. done. Qed.

End TimerThread.

(** ** Properties *)

Import Delay.

Definition digits (d : list Z) : Prop := d ≠ [] ∧ Forall (λ c, isdigit c = true) d ∧ digits_val d 0 < 2 ^ 31.

Lemma digits_val_stop d rest : Forall (λ c, isdigit c = true) d → starts_digit rest = false → ∀ n, digits_val (d ++ rest) n = digits_val d n ∧ drop_digits (d ++ rest) = rest.
Proof.
  intros Hd Hr. induction Hd as [|c d Hc _ IH]; intros n; cbn [app digits_val drop_digits].
  - destruct rest as [|c r]; [done|]. cbn [starts_digit] in Hr. cbn. by rewrite Hr.
  - rewrite Hc. apply IH.
Qed.

Lemma digits_val_nonneg d : ∀ n, 0 <= n → 0 <= digits_val d n.
Proof.
  induction d as [|c d IH]; intros n Hn; cbn [digits_val]; [done|]. destruct (isdigit c) eqn:E; [|done].
  unfold isdigit in E. rewrite andb_true_iff, !Z.leb_le in E. apply IH. lia.
Qed.

Lemma scan_digits d rest : digits d → starts_digit rest = false → scan_int (d ++ rest) = Some (digits_val d 0, rest).
Proof.
  intros (Hne & Hd & Hmax) Hr. destruct (digits_val_stop d rest Hd Hr 0) as [Ev Ed]. destruct d as [|c d]; [done|]. inversion_clear Hd as [|? ? Hc _].
  pose proof (digits_val_nonneg (c :: d) 0). assert (48 <= c <= 57) by (unfold isdigit in Hc; rewrite andb_true_iff, !Z.leb_le in Hc; lia).
  unfold scan_int. cbn [app skip_blanks]. assert (isspace c = false) as -> by (unfold isspace; rewrite orb_false_iff, andb_false_iff, Z.eqb_neq, !Z.leb_gt; lia).
  rewrite (proj2 (Z.eqb_neq c 45)), (proj2 (Z.eqb_neq c 43)) by lia. cbn [starts_digit]. rewrite Hc. cbn [app] in Ev, Ed. rewrite Ev, Ed.
  do 2 f_equal. unfold saturate64. mach.
Qed.

(** A text with six numbers is the date they make. *)
Definition date_text (y mo d h mi s : list Z) : list Z := y ++ [45] ++ mo ++ [45] ++ d ++ [32] ++ h ++ [58] ++ mi ++ [58] ++ s.

Lemma scan_date y mo d h mi s : digits y → digits mo → digits d → digits h → digits mi → digits s →
  sscanf format (date_text y mo d h mi s) = map (λ x, digits_val x 0) [y; mo; d; h; mi; s].
Proof.
  intros Hy Hmo Hd Hh Hmi Hs. unfold format, date_text. cbn [sscanf].
  rewrite (scan_digits y) by done. cbn [app Z.eqb]. rewrite (scan_digits mo) by done. cbn [app].
  rewrite (scan_digits d) by done. cbn [app]. assert (Hb : skip_blanks (32 :: h ++ 58 :: mi ++ 58 :: s) = h ++ 58 :: mi ++ 58 :: s).
  { cbn [skip_blanks]. change (isspace 32) with true. cbn. destruct Hh as (Hne & Ha & _). destruct h as [|c h]; [done|]. inversion_clear Ha as [|? ? Hc _].
    cbn [app skip_blanks]. assert (isspace c = false) as ->; [|done]. unfold isdigit in Hc. rewrite andb_true_iff, !Z.leb_le in Hc.
    unfold isspace. rewrite orb_false_iff, andb_false_iff, Z.eqb_neq, !Z.leb_gt. lia. }
  rewrite Hb, (scan_digits h) by done. cbn [app]. rewrite (scan_digits mi) by done. cbn [app]. rewrite <- (app_nil_r s), (scan_digits s [] Hs) by done.
  by rewrite app_nil_r.
Qed.

Lemma c_str_plain l : Forall (λ c, c ≠ 0) l → c_str l = l.
Proof. induction 1 as [|c l Hc _ IH]; cbn [c_str]; [done|]. rewrite (proj2 (Z.eqb_neq c 0)), IH by done. done. Qed.

Lemma digits_plain d : digits d → Forall (λ c, c ≠ 0) d.
Proof. intros (_ & Hd & _). eapply Forall_impl; [exact Hd|]. intros c Hc ->. done. Qed.

Lemma time_delay_text mktime junk now y mo d h mi s : digits y → digits mo → digits d → digits h → digits mi → digits s → 
  get_time_delay mktime junk now (date_text y mo d h mi s) =
    Z.quot (mktime (mkTm (digits_val y 0 - 1900) (digits_val mo 0 - 1) (digits_val d 0) (digits_val h 0) (digits_val mi 0) (digits_val s 0)) * 1000000000 - now) 1000000000.
Proof.
  intros Hy Hmo Hd Hh Hmi Hs. unfold get_time_delay. rewrite c_str_plain.
  - rewrite scan_date by done. unfold assign. cbn [lookup list_lookup map default id year month day hour minute second].
    destruct Hy as (_ & _ & Hy), Hmo as (_ & _ & Hmo). pose proof (digits_val_nonneg y 0). pose proof (digits_val_nonneg mo 0).
    replace (i32 (digits_val y 0 - 1900)) with (digits_val y 0 - 1900) by mach. replace (i32 (digits_val mo 0 - 1)) with (digits_val mo 0 - 1) by mach. done.
  - unfold date_text. repeat (apply Forall_app; split); try (by apply digits_plain); by repeat constructor.
Qed.

Lemma padded_digits w n : 0 <= n < 2 ^ 31 → digits (padded w n) ∧ digits_val (padded w n) 0 = n.
Proof.
  intros Hn. unfold padded, decimal. rewrite (proj2 (Z.ltb_ge n 0)) by lia. destruct (dec_digits_spec 20 n) as (Hall & Hne & Hv); [lia|lia|].
  set (d := dec_digits 20 n []) in *. set (k := (w - length d)%nat).
  assert (Hz : Forall (λ c, isdigit c = true) (replicate k 48)) by (apply Forall_replicate; done).
  assert (Hk : ∀ j, digits_val (replicate j 48) 0 = 0) by (induction j as [|j IH]; [done|exact IH]).
  assert (E : digits_val (replicate k 48 ++ d) 0 = n) by (by rewrite digits_val_app, Hk, Hv). split; [|done]. split_and!; [|by apply Forall_app|lia].
  intros [_ H0]%app_eq_nil. done.
Qed.

(** The fields the C library gives for a date. *)
Definition tm_ok (t : tm) : Prop := 0 <= tm_year t + 1900 < 2 ^ 31 ∧ 0 <= tm_mon t < 12 ∧ 1 <= tm_mday t <= 31 ∧ 0 <= tm_hour t < 24 ∧ 0 <= tm_min t < 60 ∧ 0 <= tm_sec t <= 60.

(** The text of a point in time is read back as that time, in whole seconds: the delay is what is left until then. *)
Theorem date_delay_roundtrip localtime mktime junk now p : tm_ok (localtime (to_time_t p)) → mktime (localtime (to_time_t p)) = to_time_t p →
  get_time_delay mktime junk now (Get_DateTime localtime p) = Z.quot (to_time_t p * 1000000000 - now) 1000000000.
Proof.
  unfold Get_DateTime. set (t := localtime (to_time_t p)). intros (Hy & Hmo & Hd & Hh & Hmi & Hs) Hm.
  destruct (padded_digits 4 (tm_year t + 1900)) as [Dy Ey]; [lia|]. destruct (padded_digits 2 (tm_mon t + 1)) as [Dmo Emo]; [lia|].
  destruct (padded_digits 2 (tm_mday t)) as [Dd Ed]; [lia|]. destruct (padded_digits 2 (tm_hour t)) as [Dh Eh]; [lia|].
  destruct (padded_digits 2 (tm_min t)) as [Dmi Emi]; [lia|]. destruct (padded_digits 2 (tm_sec t)) as [Ds Es]; [lia|].
  etrans; [exact (time_delay_text mktime junk now _ _ _ _ _ _ Dy Dmo Dd Dh Dmi Ds)|]. rewrite Ey, Emo, Ed, Eh, Emi, Es.
  replace (tm_year t + 1900 - 1900) with (tm_year t) by lia. replace (tm_mon t + 1 - 1) with (tm_mon t) by lia. rewrite <- Hm. do 2 f_equal. by destruct t.
Qed.

(** A calendar of one day. *)
Definition day_local (t : Z) : tm := mkTm 124 4 6 (t / 3600) (t / 60 mod 60) (t mod 60).
Definition day_mktime (t : tm) : Z := tm_hour t * 3600 + tm_min t * 60 + tm_sec t.

Lemma date_delay_roundtrip_witness : Get_DateTime day_local 7384005 = bytes_of_string "2024-05-06 02:03:04" ∧
  get_time_delay day_mktime (mkVars 1 1 1 1 1 1) 7000000000000 (Get_DateTime day_local 7384005) = 384.
Proof.
  split; [vm_compute; reflexivity|]. rewrite (date_delay_roundtrip day_local day_mktime (mkVars 1 1 1 1 1 1) 7000000000000 7384005);
    [vm_compute; reflexivity|vm_compute; intuition congruence|vm_compute; reflexivity].
Defined.

(** A text that is no date leaves the variables as they were, and they were never set. *)
Theorem time_delay_unset mktime junk now date : sscanf format (c_str date) = [] →
  get_time_delay mktime junk now date =
    Z.quot (mktime (mkTm (i32 (year junk - 1900)) (i32 (month junk - 1)) (day junk) (hour junk) (minute junk) (second junk)) * 1000000000 - now) 1000000000.
Proof. intros E. unfold get_time_delay. by rewrite E. Qed.

Lemma time_delay_unset_witness : get_time_delay day_mktime (mkVars 2024 5 6 1 0 0) 0 (bytes_of_string "soon") = 3600.
Proof. rewrite (time_delay_unset day_mktime (mkVars 2024 5 6 1 0 0) 0 (bytes_of_string "soon")); vm_compute; reflexivity. Defined.

(** Threads are bound to the processors in turn. *)
Theorem threads_bound_in_turn n : ∀ cpunum cpuidx, 0 < cpunum <= 1024 → 0 <= cpuidx → cpuidx + Z.of_nat n < 2 ^ 64 →
  Cpu.bind_threads n cpunum cpuidx = Ok (map (λ i, [(cpuidx + i) mod cpunum]) (seqZ 0 (Z.of_nat n)), cpuidx + Z.of_nat n).
Proof.
  induction n as [|n IH]; intros cpunum cpuidx Hc Hi Hmax; [cbn; by rewrite Z.add_0_r|]. cbn [Cpu.bind_threads]. unfold Cpu.bind_thread_to_cpu.
  rewrite (proj2 (Z.eqb_neq cpunum 0)) by lia. cbn [obind]. pose proof (Z.mod_pos_bound cpuidx cpunum). rewrite (proj2 (Z.ltb_lt _ _)) by lia.
  replace (u64 (cpuidx + 1)) with (cpuidx + 1) by mach. rewrite IH by lia. cbn [obind]. do 2 f_equal; [|lia].
  assert (E : seqZ 0 (Z.of_nat (S n)) = 0 :: map (Z.add 1) (seqZ 0 (Z.of_nat n))).
  { rewrite (seqZ_cons 0) by lia. f_equal. etrans; [|symmetry; apply (fmap_add_seqZ 1 0)]. f_equal; lia. }
  rewrite E. cbn [map]. rewrite Z.add_0_r, map_map. f_equal. apply map_ext. intros i. do 2 f_equal. lia.
Qed.
