(* ===== verification/HttpParser.v ===== *)
(** * The HTTP parser (src/PacketParse_Http/http_parser.{h,c})

    [http_parser_execute] with everything it uses, as it is compiled here: HTTP_PARSER_STRICT is 1.  The local
    variables [p_state] and [nread] are written back to the parser wherever it is left, so that they are its fields
    [state] and [nread].  A position [p] in [data] is a number; a mark is the position it was set at.

    What the callbacks return is the parameter [on], which may depend on the callbacks made before; they do not
    change the parser.  A failing assertion, or a table read out of its range, is [Aborted]. *)

From Stdlib Require Import ZArith Lia.
From Stdlib Require Ascii.
From S2P Require Import Prelude Define HttpFormat.
From stdpp Require Import base numbers list strings.
Local Open Scope Z_scope.

(** ** Characters *)

Definition chr (s : string) : Z := match s with String c _ => Z.of_N (Ascii.N_of_ascii c) | EmptyString => 0 end.
Definition isc (ch : Z) (s : string) : bool := ch =? chr s.
Definition is_CR (ch : Z) : bool := ch =? 13.
Definition is_LF (ch : Z) : bool := ch =? 10.
Definition is_TAB (ch : Z) : bool := ch =? 9.
Definition between (a ch b : Z) : bool := (a <=? ch) && (ch <=? b).

Definition LOWER (c : Z) : Z := Z.lor c 0x20.
Definition IS_ALPHA (c : Z) : bool := between 97 (LOWER c) 122.
Definition IS_NUM (c : Z) : bool := between 48 c 57.
Definition IS_ALPHANUM (c : Z) : bool := IS_ALPHA c || IS_NUM c.
Definition IS_MARK (c : Z) : bool :=
  isc c "-" || isc c "_" || isc c "." || isc c "!" || isc c "~" || isc c "*" || isc c "'" || isc c "(" || isc c ")".
Definition IS_USERINFO_CHAR (c : Z) : bool :=
  IS_ALPHANUM c || IS_MARK c || isc c "%" || isc c ";" || isc c ":" || isc c "&" || isc c "=" || isc c "+" || isc c "$" || isc c ",".

(** The table [tokens]: letters in lower case, 0 for what is no token; the entries from 128 on are 0. *)
Definition tokens (c : Z) : Z :=
  if between 65 c 90 then c + 32
  else if between 97 c 122 || IS_NUM c then c
  else if isc c " " || isc c "!" || isc c "#" || isc c "$" || isc c "%" || isc c "&" || isc c "'" || isc c "*" || isc c "+" || isc c "-" || isc c "."
       || isc c "^" || isc c "_" || isc c "`" || isc c "|" || isc c "~" then c
  else 0.
Definition STRICT_TOKEN (c : Z) : Z := if isc c " " then 0 else tokens c.
Definition TOKEN : Z → Z := STRICT_TOKEN.

(** The table [unhex] gives 128 of its 256 entries: the others are 0. *)
Definition unhex (c : Z) : Z :=
  if IS_NUM c then c - 48
  else if between 65 c 70 then c - 55
  else if between 97 c 102 then c - 87
  else if 128 <=? c then 0
  else -1.

(** The bits of [normal_url_char], which has 32 bytes: none for a control character, the space, ['#'], ['?'], DEL
    and the characters from 128 on. *)
Definition IS_URL_CHAR (c : Z) : bool := (between 33 c 126) && negb (isc c "#") && negb (isc c "?").

Definition IS_HEADER_CHAR (ch : Z) : bool := is_CR ch || is_LF ch || (ch =? 9) || ((31 <? ch) && negb (ch =? 127)).

(** ** Enumerations *)

Inductive http_method :=
| HTTP_DELETE | HTTP_GET | HTTP_HEAD | HTTP_POST | HTTP_PUT | HTTP_CONNECT | HTTP_OPTIONS | HTTP_TRACE
| HTTP_COPY | HTTP_LOCK | HTTP_MKCOL | HTTP_MOVE | HTTP_PROPFIND | HTTP_PROPPATCH | HTTP_SEARCH | HTTP_UNLOCK | HTTP_BIND | HTTP_REBIND
| HTTP_UNBIND | HTTP_ACL | HTTP_REPORT | HTTP_MKACTIVITY | HTTP_CHECKOUT | HTTP_MERGE | HTTP_MSEARCH | HTTP_NOTIFY | HTTP_SUBSCRIBE
| HTTP_UNSUBSCRIBE | HTTP_PATCH | HTTP_PURGE | HTTP_MKCALENDAR | HTTP_LINK | HTTP_UNLINK | HTTP_SOURCE.

#[export] Instance http_method_eq_dec : EqDecision http_method.
Proof. solve_decision. Defined.

Definition method_string (m : http_method) : string :=
  match m with
  | HTTP_DELETE => "DELETE" | HTTP_GET => "GET" | HTTP_HEAD => "HEAD" | HTTP_POST => "POST" | HTTP_PUT => "PUT"
  | HTTP_CONNECT => "CONNECT" | HTTP_OPTIONS => "OPTIONS" | HTTP_TRACE => "TRACE" | HTTP_COPY => "COPY" | HTTP_LOCK => "LOCK"
  | HTTP_MKCOL => "MKCOL" | HTTP_MOVE => "MOVE" | HTTP_PROPFIND => "PROPFIND" | HTTP_PROPPATCH => "PROPPATCH" | HTTP_SEARCH => "SEARCH"
  | HTTP_UNLOCK => "UNLOCK" | HTTP_BIND => "BIND" | HTTP_REBIND => "REBIND" | HTTP_UNBIND => "UNBIND" | HTTP_ACL => "ACL"
  | HTTP_REPORT => "REPORT" | HTTP_MKACTIVITY => "MKACTIVITY" | HTTP_CHECKOUT => "CHECKOUT" | HTTP_MERGE => "MERGE"
  | HTTP_MSEARCH => "M-SEARCH" | HTTP_NOTIFY => "NOTIFY" | HTTP_SUBSCRIBE => "SUBSCRIBE" | HTTP_UNSUBSCRIBE => "UNSUBSCRIBE"
  | HTTP_PATCH => "PATCH" | HTTP_PURGE => "PURGE" | HTTP_MKCALENDAR => "MKCALENDAR" | HTTP_LINK => "LINK" | HTTP_UNLINK => "UNLINK"
  | HTTP_SOURCE => "SOURCE"
  end.

(** A C string with its terminating zero; [None] beyond it. *)
Definition c_string_at (s : list Z) (i : Z) : option Z := (s ++ [0]) !! Z.to_nat i.

Inductive http_parser_type := HTTP_REQUEST | HTTP_RESPONSE | HTTP_BOTH.
#[export] Instance http_parser_type_eq_dec : EqDecision http_parser_type.
Proof. solve_decision. Defined.

Definition F_CHUNKED : Z := 1.
Definition F_CONNECTION_KEEP_ALIVE : Z := 2.
Definition F_CONNECTION_CLOSE : Z := 4.
Definition F_CONNECTION_UPGRADE : Z := 8.
Definition F_TRAILING : Z := 16.
Definition F_UPGRADE : Z := 32.
Definition F_SKIPBODY : Z := 64.
Definition F_CONTENTLENGTH : Z := 128.

Inductive http_errno :=
| HPE_OK
| HPE_CB_message_begin | HPE_CB_url | HPE_CB_header_field | HPE_CB_header_value | HPE_CB_headers_complete | HPE_CB_body
| HPE_CB_message_complete | HPE_CB_status | HPE_CB_chunk_header | HPE_CB_chunk_complete
| HPE_INVALID_EOF_STATE | HPE_HEADER_OVERFLOW | HPE_CLOSED_CONNECTION | HPE_INVALID_VERSION | HPE_INVALID_STATUS | HPE_INVALID_METHOD
| HPE_INVALID_URL | HPE_INVALID_HOST | HPE_INVALID_PORT | HPE_INVALID_PATH | HPE_INVALID_QUERY_STRING | HPE_INVALID_FRAGMENT | HPE_LF_EXPECTED
| HPE_INVALID_HEADER_TOKEN | HPE_INVALID_CONTENT_LENGTH | HPE_UNEXPECTED_CONTENT_LENGTH | HPE_INVALID_CHUNK_SIZE | HPE_INVALID_CONSTANT
| HPE_INVALID_INTERNAL_STATE | HPE_STRICT | HPE_PAUSED | HPE_UNKNOWN | HPE_INVALID_TRANSFER_ENCODING.
#[export] Instance http_errno_eq_dec : EqDecision http_errno.
Proof. solve_decision. Defined.

Inductive pstate :=
| s_dead
| s_start_req_or_res | s_res_or_resp_H | s_start_res | s_res_H | s_res_HT | s_res_HTT | s_res_HTTP | s_res_http_major | s_res_http_dot
| s_res_http_minor | s_res_http_end | s_res_first_status_code | s_res_status_code | s_res_status_start | s_res_status | s_res_line_almost_done
| s_start_req
| s_req_method | s_req_spaces_before_url | s_req_schema | s_req_schema_slash | s_req_schema_slash_slash | s_req_server_start | s_req_server
| s_req_server_with_at | s_req_path | s_req_query_string_start | s_req_query_string | s_req_fragment_start | s_req_fragment
| s_req_http_start | s_req_http_H | s_req_http_HT | s_req_http_HTT | s_req_http_HTTP | s_req_http_I | s_req_http_IC | s_req_http_major
| s_req_http_dot | s_req_http_minor | s_req_http_end | s_req_line_almost_done
| s_header_field_start | s_header_field | s_header_value_discard_ws | s_header_value_discard_ws_almost_done | s_header_value_discard_lws
| s_header_value_start | s_header_value | s_header_value_lws | s_header_almost_done
| s_chunk_size_start | s_chunk_size | s_chunk_parameters | s_chunk_size_almost_done
| s_headers_almost_done | s_headers_done
| s_chunk_data | s_chunk_data_almost_done | s_chunk_data_done | s_body_identity | s_body_identity_eof | s_message_done.
#[export] Instance pstate_eq_dec : EqDecision pstate.
Proof. solve_decision. Defined.

Definition PARSING_HEADER (s : pstate) : bool :=
  match s with
  | s_chunk_data | s_chunk_data_almost_done | s_chunk_data_done | s_body_identity | s_body_identity_eof | s_message_done => false
  | _ => true
  end.

Inductive header_states :=
| h_general | h_C | h_CO | h_CON
| h_matching_connection | h_matching_proxy_connection | h_matching_content_length | h_matching_transfer_encoding | h_matching_upgrade
| h_connection | h_content_length | h_content_length_num | h_content_length_ws | h_transfer_encoding | h_upgrade
| h_matching_transfer_encoding_token_start | h_matching_transfer_encoding_chunked | h_matching_transfer_encoding_token
| h_matching_connection_token_start | h_matching_connection_keep_alive | h_matching_connection_close | h_matching_connection_upgrade
| h_matching_connection_token
| h_transfer_encoding_chunked | h_connection_keep_alive | h_connection_close | h_connection_upgrade.
#[export] Instance header_states_eq_dec : EqDecision header_states.
Proof. solve_decision. Defined.

(** ** The parser *)

Record http_parser := mkParser {
  type : http_parser_type;
  flags : Z;                               (* 8 bits *)
  state : pstate;
  header_state : header_states;
  index : Z;                               (* 5 bits *)
  uses_transfer_encoding : bool;
  allow_chunked_length : bool;
  lenient_http_headers : bool;
  nread : Z;                               (* uint32 *)
  content_length : Z;                      (* uint64 *)
  http_major : Z;
  http_minor : Z;
  status_code : Z;                         (* 16 bits *)
  method : http_method;
  errno : http_errno;
  upgrade : bool;
}.

Definition http_parser_init (t : http_parser_type) : http_parser :=
  mkParser t 0 (match t with HTTP_REQUEST => s_start_req | HTTP_RESPONSE => s_start_res | HTTP_BOTH => s_start_req_or_res end)
    h_general 0 false false false 0 0 0 0 0 HTTP_DELETE HPE_OK false.

Implicit Types (hp : http_parser).

Definition ULLONG_MAX : Z := 2 ^ 64 - 1.
Definition flag hp (f : Z) : bool := negb (Z.land (flags hp) f =? 0).
Definition set_flag hp (f : Z) : http_parser := hp <| flags := Z.lor (flags hp) f |>.
Definition next_index hp : http_parser := hp <| index := (index hp + 1) mod 32 |>.

Definition http_message_needs_eof hp : bool :=
  if decide (type hp = HTTP_REQUEST) then false
  else if (status_code hp / 100 =? 1) || (status_code hp =? 204) || (status_code hp =? 304) || flag hp F_SKIPBODY then false
  else if uses_transfer_encoding hp && negb (flag hp F_CHUNKED) then true
  else if flag hp F_CHUNKED || negb (content_length hp =? ULLONG_MAX) then false
  else true.

Definition http_should_keep_alive hp : bool :=
  if (0 <? http_major hp) && (0 <? http_minor hp) then
    if flag hp F_CONNECTION_CLOSE then false else negb (http_message_needs_eof hp)
  else if negb (flag hp F_CONNECTION_KEEP_ALIVE) then false else negb (http_message_needs_eof hp).

Definition start_state hp : pstate := if decide (type hp = HTTP_REQUEST) then s_start_req else s_start_res.
Definition NEW_MESSAGE hp : pstate := if http_should_keep_alive hp then start_state hp else s_dead.

(** ** The characters of a URL *)

Definition parse_url_char (s : pstate) (ch : Z) : pstate :=
  if isc ch " " || is_CR ch || is_LF ch then s_dead
  else if is_TAB ch || (ch =? 12) then s_dead
  else match s with
  | s_req_spaces_before_url =>
      if isc ch "/" || isc ch "*" then s_req_path else if IS_ALPHA ch then s_req_schema else s_dead
  | s_req_schema => if IS_ALPHA ch then s else if isc ch ":" then s_req_schema_slash else s_dead
  | s_req_schema_slash => if isc ch "/" then s_req_schema_slash_slash else s_dead
  | s_req_schema_slash_slash => if isc ch "/" then s_req_server_start else s_dead
  | s_req_server_with_at | s_req_server_start | s_req_server =>
      if bool_decide (s = s_req_server_with_at) && isc ch "@" then s_dead
      else if isc ch "/" then s_req_path
      else if isc ch "?" then s_req_query_string_start
      else if isc ch "@" then s_req_server_with_at
      else if IS_USERINFO_CHAR ch || isc ch "[" || isc ch "]" then s_req_server
      else s_dead
  | s_req_path => if IS_URL_CHAR ch then s else if isc ch "?" then s_req_query_string_start else if isc ch "#" then s_req_fragment_start else s_dead
  | s_req_query_string_start | s_req_query_string =>
      if IS_URL_CHAR ch then s_req_query_string else if isc ch "?" then s_req_query_string else if isc ch "#" then s_req_fragment_start else s_dead
  | s_req_fragment_start =>
      if IS_URL_CHAR ch then s_req_fragment else if isc ch "?" then s_req_fragment else if isc ch "#" then s else s_dead
  | s_req_fragment => if IS_URL_CHAR ch then s else if isc ch "?" || isc ch "#" then s else s_dead
  | _ => s_dead
  end.

(** ** Methods *)

(** The method by its first letter. *)
Definition first_method (ch : Z) : option http_method :=
  if isc ch "A" then Some HTTP_ACL else if isc ch "B" then Some HTTP_BIND else if isc ch "C" then Some HTTP_CONNECT
  else if isc ch "D" then Some HTTP_DELETE else if isc ch "G" then Some HTTP_GET else if isc ch "H" then Some HTTP_HEAD
  else if isc ch "L" then Some HTTP_LOCK else if isc ch "M" then Some HTTP_MKCOL else if isc ch "N" then Some HTTP_NOTIFY
  else if isc ch "O" then Some HTTP_OPTIONS else if isc ch "P" then Some HTTP_POST else if isc ch "R" then Some HTTP_REPORT
  else if isc ch "S" then Some HTTP_SUBSCRIBE else if isc ch "T" then Some HTTP_TRACE else if isc ch "U" then Some HTTP_UNLOCK
  else None.

(** The switch over method, position and letter. *)
Definition other_method (m : http_method) (pos ch : Z) : option http_method :=
  match m with
  | HTTP_POST => if pos =? 1 then if isc ch "U" then Some HTTP_PUT else if isc ch "A" then Some HTTP_PATCH
                                  else if isc ch "R" then Some HTTP_PROPFIND else None else None
  | HTTP_PUT => if (pos =? 2) && isc ch "R" then Some HTTP_PURGE else None
  | HTTP_CONNECT => if (pos =? 1) && isc ch "H" then Some HTTP_CHECKOUT else if (pos =? 2) && isc ch "P" then Some HTTP_COPY else None
  | HTTP_MKCOL => if pos =? 1 then if isc ch "O" then Some HTTP_MOVE else if isc ch "E" then Some HTTP_MERGE
                                   else if isc ch "-" then Some HTTP_MSEARCH else None
                  else if (pos =? 2) && isc ch "A" then Some HTTP_MKACTIVITY
                  else if (pos =? 3) && isc ch "A" then Some HTTP_MKCALENDAR else None
  | HTTP_SUBSCRIBE => if pos =? 1 then if isc ch "E" then Some HTTP_SEARCH else if isc ch "O" then Some HTTP_SOURCE else None else None
  | HTTP_REPORT => if (pos =? 2) && isc ch "B" then Some HTTP_REBIND else None
  | HTTP_PROPFIND => if (pos =? 4) && isc ch "P" then Some HTTP_PROPPATCH else None
  | HTTP_LOCK => if (pos =? 1) && isc ch "I" then Some HTTP_LINK else None
  | HTTP_UNLOCK => if pos =? 2 then if isc ch "S" then Some HTTP_UNSUBSCRIBE else if isc ch "B" then Some HTTP_UNBIND else None
                   else if (pos =? 3) && isc ch "I" then Some HTTP_UNLINK else None
  | _ => None
  end.

(** ** Executing *)

Inductive mark := header_field | header_value | url | body | status.
#[export] Instance mark_eq_dec : EqDecision mark.
Proof. solve_decision. Defined.

Definition mark_event (k : mark) (d : list Z) : http_event :=
  match k with
  | header_field => ev_header_field d | header_value => ev_header_value d | url => ev_url d | body => ev_body d | status => ev_status d
  end.
Definition mark_errno (k : mark) : http_errno :=
  match k with
  | header_field => HPE_CB_header_field | header_value => HPE_CB_header_value | url => HPE_CB_url | body => HPE_CB_body | status => HPE_CB_status
  end.

(** The parser, the marks that are set and the callbacks made. *)
Record machine := mkMachine {
  parser : http_parser;
  header_field_mark : option Z;
  header_value_mark : option Z;
  url_mark : option Z;
  body_mark : option Z;
  status_mark : option Z;
  events : list http_event;
}.
Implicit Types (m : machine).

Definition get_mark m (k : mark) : option Z :=
  match k with
  | header_field => header_field_mark m | header_value => header_value_mark m | url => url_mark m | body => body_mark m | status => status_mark m
  end.
Definition set_mark m (k : mark) (v : option Z) : machine :=
  match k with
  | header_field => m <| header_field_mark := v |> | header_value => m <| header_value_mark := v |> | url => m <| url_mark := v |>
  | body => m <| body_mark := v |> | status => m <| status_mark := v |>
  end.
Definition upd m (f : http_parser → http_parser) : machine := m <| parser := f (parser m) |>.
Definition to_state m (s : pstate) : machine := upd m (λ hp, hp <| state := s |>).

(** MARK *)
Definition do_mark m (k : mark) (p : Z) : machine := match get_mark m k with None => set_mark m k (Some p) | Some _ => m end.

(** How the switch over the states is left: to the next character, to [reexecute], by a return, to [error]. *)
Inductive flow :=
| Advance (m : machine) (p : Z)
| Reexecute (m : machine) (p ch : Z)
| Return (m : machine) (n : Z)
| Error (m : machine) (p : Z)
| Aborted.

Definition with_errno m (e : http_errno) : machine := upd m (λ hp, hp <| errno := e |>).
Definition fail m (e : http_errno) (p : Z) : flow := Error (with_errno m e) p.

Section Execute.
Context (on : list http_event → http_event → Z) (max_header_size : Z) (data : list Z).

Definition len : Z := zlen data.

(** CALLBACK_NOTIFY_: the callback, or the return of [ret] when it fails. *)
Definition notify m (e : http_event) (err : http_errno) (ret : Z) (k : machine → flow) : flow :=
  let m' := m <| events := events m ++ [e] |> in
  if on (events m) e =? 0 then k m' else Return (with_errno m' err) ret.

(** CALLBACK_DATA_ *)
Definition call_data m (w : mark) (n ret : Z) (k : machine → flow) : flow :=
  match get_mark m w with
  | None => k m
  | Some start => notify m (mark_event w (ztake n (zdrop start data))) (mark_errno w) ret (λ m, k (set_mark m w None))
  end.
Definition mark_length m (w : mark) (p : Z) : Z := match get_mark m w with Some start => p - start | None => 0 end.
Definition CALLBACK_DATA m (w : mark) (p : Z) (k : machine → flow) : flow := call_data m w (mark_length m w p) (p + 1) k.
Definition CALLBACK_DATA_NOADVANCE m (w : mark) (p : Z) (k : machine → flow) : flow := call_data m w (mark_length m w p) p k.

Definition COUNT_HEADER_SIZE m (v p : Z) (k : machine → flow) : flow :=
  let m := upd m (λ hp, hp <| nread := u32 (nread hp + u32 v) |>) in
  if max_header_size <? nread (parser m) then fail m HPE_HEADER_OVERFLOW p else k m.

(** STRICT_CHECK *)
Definition expect (ok : bool) m (p : Z) (k : flow) : flow := if ok then k else fail m HPE_STRICT p.

(** The beginning of a message. *)
Definition reset_message m : machine :=
  upd m (λ hp, hp <| flags := 0 |> <| uses_transfer_encoding := false |> <| content_length := ULLONG_MAX |>).

Definition CONNECTION : list Z := bytes_of_string "connection".
Definition PROXY_CONNECTION : list Z := bytes_of_string "proxy-connection".
Definition CONTENT_LENGTH : list Z := bytes_of_string "content-length".
Definition TRANSFER_ENCODING : list Z := bytes_of_string "transfer-encoding".
Definition UPGRADE : list Z := bytes_of_string "upgrade".
Definition CHUNKED : list Z := bytes_of_string "chunked".
Definition KEEP_ALIVE : list Z := bytes_of_string "keep-alive".
Definition CLOSE : list Z := bytes_of_string "close".

(** A character compared with the next one of a word, as the matching states do it: the parser with its next
    index, and no match, a match, or a match of the last character.  [sizeof] of the word counts the zero. *)
Inductive matched := NoMatch | Match | LastMatch.
Definition match_word (word : list Z) hp (c : Z) : option (http_parser * matched) :=
  let hp := next_index hp in
  if zlen word <? index hp then Some (hp, NoMatch)
  else match c_string_at word (index hp) with
       | None => None
       | Some w => Some (hp, if negb (c =? w) then NoMatch else if index hp =? zlen word - 1 then LastMatch else Match)
       end.

Definition match_field (word : list Z) (found : header_states) hp (c : Z) : option http_parser :=
  match match_word word hp c with
  | None => None
  | Some (hp, NoMatch) => Some (hp <| header_state := h_general |>)
  | Some (hp, Match) => Some hp
  | Some (hp, LastMatch) => Some (hp <| header_state := found |>)
  end.

(** One character [ch], a token, of the name of a header; [None] when an assertion fails. *)
Definition field_char hp (ch c : Z) : option http_parser :=
  match header_state hp with
  | h_general => Some hp
  | h_C => Some (next_index hp <| header_state := if isc c "o" then h_CO else h_general |>)
  | h_CO => Some (next_index hp <| header_state := if isc c "n" then h_CON else h_general |>)
  | h_CON => Some (next_index hp <| header_state := if isc c "n" then h_matching_connection else if isc c "t" then h_matching_content_length else h_general |>)
  | h_matching_connection => match_field CONNECTION h_connection hp c
  | h_matching_proxy_connection => match_field PROXY_CONNECTION h_connection hp c
  | h_matching_content_length => match_field CONTENT_LENGTH h_content_length hp c
  | h_matching_transfer_encoding =>
      (λ hp, if decide (header_state hp = h_transfer_encoding) then hp <| uses_transfer_encoding := true |> else hp)
        <$> match_field TRANSFER_ENCODING h_transfer_encoding hp c
  | h_matching_upgrade => match_field UPGRADE h_upgrade hp c
  | h_connection | h_content_length | h_transfer_encoding | h_upgrade => Some (if isc ch " " then hp else hp <| header_state := h_general |>)
  | _ => None
  end.

(** The tokens at the front of a text. *)
Fixpoint token_run (l : list Z) : nat :=
  match l with [] => O | c :: l => if TOKEN c =? 0 then O else S (token_run l) end.

(** The loop over a name from [p], where [rest] begins: the parser, the position and the character it stopped at,
    the end of the data when [None].  In [h_general] the tokens that follow are passed over, [skip] of them. *)
Fixpoint field_loop hp (rest : list Z) (p : Z) (skip : nat) : option (http_parser * Z * option Z) :=
  match rest with
  | [] => Some (hp, p, None)
  | ch :: rest' =>
      match skip with
      | S skip => field_loop hp rest' (p + 1) skip
      | O =>
          let c := TOKEN ch in
          if c =? 0 then Some (hp, p, Some ch)
          else if decide (header_state hp = h_general)
          then field_loop hp rest' (p + 1) (token_run (ztake (Z.min (zlen rest) max_header_size - 1) rest'))
          else match field_char hp ch c with None => None | Some hp => field_loop hp rest' (p + 1) 0 end
      end
  end.

(** One character of a header value in the state [h], with the next state or an error. *)
Inductive value_step := VNext (hp : http_parser) (h : header_states) | VError (hp : http_parser) (e : http_errno) | VAbort.

Definition value_number hp (h : header_states) (ch : Z) : value_step :=
  if isc ch " " then VNext hp h_content_length_ws
  else if negb (IS_NUM ch) then VError (hp <| header_state := h |>) HPE_INVALID_CONTENT_LENGTH
  else if (ULLONG_MAX - 10) / 10 <? content_length hp then VError (hp <| header_state := h |>) HPE_INVALID_CONTENT_LENGTH
  else VNext (hp <| content_length := u64 (u64 (content_length hp * 10) + (ch - 48)) |>) h.

Definition of_match (h : header_states) (r : option (http_parser * matched)) (found lost : header_states) : value_step :=
  match r with
  | None => VAbort
  | Some (hp, NoMatch) => VNext hp lost
  | Some (hp, Match) => VNext hp h
  | Some (hp, LastMatch) => VNext hp found
  end.

Definition value_char hp (h : header_states) (ch : Z) : value_step :=
  let c := LOWER ch in
  match h with
  | h_connection | h_transfer_encoding => VAbort
  | h_content_length => if isc ch " " then VNext hp h else value_number hp h_content_length_num ch
  | h_content_length_num => value_number hp h ch
  | h_content_length_ws => if isc ch " " then VNext hp h else VError (hp <| header_state := h |>) HPE_INVALID_CONTENT_LENGTH
  | h_matching_transfer_encoding_token_start =>
      VNext hp (if isc c "c" then h_matching_transfer_encoding_chunked
                else if negb (STRICT_TOKEN c =? 0) then h_matching_transfer_encoding_token
                else if isc c " " || is_TAB c then h else h_general)
  | h_matching_transfer_encoding_chunked => of_match h (match_word CHUNKED hp c) h_transfer_encoding_chunked h_matching_transfer_encoding_token
  | h_matching_transfer_encoding_token =>
      if isc ch "," then VNext (hp <| index := 0 |>) h_matching_transfer_encoding_token_start else VNext hp h
  | h_matching_connection_token_start =>
      VNext hp (if isc c "k" then h_matching_connection_keep_alive
                else if isc c "c" then h_matching_connection_close
                else if isc c "u" then h_matching_connection_upgrade
                else if negb (STRICT_TOKEN c =? 0) then h_matching_connection_token
                else if isc c " " || is_TAB c then h else h_general)
  | h_matching_connection_keep_alive => of_match h (match_word KEEP_ALIVE hp c) h_connection_keep_alive h_matching_connection_token
  | h_matching_connection_close => of_match h (match_word CLOSE hp c) h_connection_close h_matching_connection_token
  | h_matching_connection_upgrade => of_match h (match_word UPGRADE hp c) h_connection_upgrade h_matching_connection_token
  | h_matching_connection_token => if isc ch "," then VNext (hp <| index := 0 |>) h_matching_connection_token_start else VNext hp h
  | h_transfer_encoding_chunked => VNext hp (if isc ch " " then h else h_matching_transfer_encoding_token)
  | h_connection_keep_alive | h_connection_close | h_connection_upgrade =>
      if isc ch "," then
        VNext (set_flag hp (match h with h_connection_keep_alive => F_CONNECTION_KEEP_ALIVE | h_connection_close => F_CONNECTION_CLOSE
                            | _ => F_CONNECTION_UPGRADE end) <| index := 0 |>) h_matching_connection_token_start
      else VNext hp (if isc ch " " then h else h_matching_connection_token)
  | _ => VNext hp h_general
  end.

(** In [h_general] the characters up to the end of the line, at most [max_header_size] of them, are passed over:
    how many after the first, or the distance of one that is not allowed.  When [max_header_size] characters are
    reached before the end of the data, one more is passed over. *)
Fixpoint value_run (lenient : bool) (l : list Z) (n : nat) : nat + nat :=
  match l with
  | [] => inl n
  | ch :: l => if is_CR ch || is_LF ch then inl (pred n)
               else if negb lenient && negb (IS_HEADER_CHAR ch) then inr n
               else value_run lenient l (S n)
  end.
Definition general_run (lenient : bool) (rest : list Z) : nat + nat :=
  let limit := ztake (Z.min (zlen rest) max_header_size) rest in
  match value_run lenient limit 0 with
  | inr k => inr k
  | inl k => inl (if (k =? length rest)%nat then pred k else k)
  end.

(** The loop over a value, which keeps the state of the header in [h]. *)
Inductive value_end :=
| VCR (hp : http_parser) (h : header_states) (p : Z)
| VLF (hp : http_parser) (h : header_states) (p : Z)
| VEnd (hp : http_parser) (h : header_states) (p : Z)
| VBad (hp : http_parser) (e : http_errno) (p : Z)
| VDead.

Fixpoint value_loop hp (h : header_states) (rest : list Z) (p : Z) (skip : nat) : value_end :=
  match rest with
  | [] => VEnd hp h p
  | ch :: rest' =>
      match skip with
      | S skip => value_loop hp h rest' (p + 1) skip
      | O =>
          if is_CR ch then VCR hp h p
          else if is_LF ch then VLF hp h p
          else if negb (lenient_http_headers hp) && negb (IS_HEADER_CHAR ch) then VBad hp HPE_INVALID_HEADER_TOKEN p
          else if decide (h = h_general) then
            match general_run (lenient_http_headers hp) rest with
            | inl k => value_loop hp h rest' (p + 1) k
            | inr k => VBad hp HPE_INVALID_HEADER_TOKEN (p + Z.of_nat k)
            end
          else match value_char hp h ch with
               | VNext hp h => value_loop hp h rest' (p + 1) 0
               | VError hp e => VBad hp e p
               | VAbort => VDead
               end
      end
  end.

(** ** The states *)

Definition step_start m (p ch : Z) : flow :=
  match state (parser m) with
  | s_start_req_or_res =>
      if is_CR ch || is_LF ch then Advance m p
      else
        let m := reset_message m in
        if isc ch "H" then notify (to_state m s_res_or_resp_H) ev_message_begin HPE_CB_message_begin (p + 1) (λ m, Advance m p)
        else Reexecute (to_state (upd m (λ hp, hp <| type := HTTP_REQUEST |>)) s_start_req) p ch
  | s_res_or_resp_H =>
      if isc ch "T" then Advance (to_state (upd m (λ hp, hp <| type := HTTP_RESPONSE |>)) s_res_HT) p
      else if negb (isc ch "E") then fail m HPE_INVALID_CONSTANT p
      else Advance (to_state (upd m (λ hp, hp <| type := HTTP_REQUEST |> <| method := HTTP_HEAD |> <| index := 2 |>)) s_req_method) p
  | _ =>                                   (* s_start_res *)
      if is_CR ch || is_LF ch then Advance m p
      else
        let m := reset_message m in
        if isc ch "H" then notify (to_state m s_res_H) ev_message_begin HPE_CB_message_begin (p + 1) (λ m, Advance m p)
        else fail m HPE_INVALID_CONSTANT p
  end.

Definition step_start_req m (p ch : Z) : flow :=
  if is_CR ch || is_LF ch then Advance m p
  else
    let m := reset_message m in
    if negb (IS_ALPHA ch) then fail m HPE_INVALID_METHOD p
    else
      let m := upd m (λ hp, hp <| method := HTTP_DELETE |> <| index := 1 |>) in
      match first_method ch with
      | None => fail m HPE_INVALID_METHOD p
      | Some meth =>
          notify (to_state (upd m (λ hp, hp <| method := meth |>)) s_req_method) ev_message_begin HPE_CB_message_begin (p + 1) (λ m, Advance m p)
      end.

(** The status line of a response. *)
Definition step_response m (p ch : Z) : flow :=
  match state (parser m) with
  | s_res_H => expect (isc ch "T") m p (Advance (to_state m s_res_HT) p)
  | s_res_HT => expect (isc ch "T") m p (Advance (to_state m s_res_HTT) p)
  | s_res_HTT => expect (isc ch "P") m p (Advance (to_state m s_res_HTTP) p)
  | s_res_HTTP => expect (isc ch "/") m p (Advance (to_state m s_res_http_major) p)
  | s_res_http_major =>
      if negb (IS_NUM ch) then fail m HPE_INVALID_VERSION p
      else Advance (to_state (upd m (λ hp, hp <| http_major := ch - 48 |>)) s_res_http_dot) p
  | s_res_http_dot => if negb (isc ch ".") then fail m HPE_INVALID_VERSION p else Advance (to_state m s_res_http_minor) p
  | s_res_http_minor =>
      if negb (IS_NUM ch) then fail m HPE_INVALID_VERSION p
      else Advance (to_state (upd m (λ hp, hp <| http_minor := ch - 48 |>)) s_res_http_end) p
  | s_res_http_end => if negb (isc ch " ") then fail m HPE_INVALID_VERSION p else Advance (to_state m s_res_first_status_code) p
  | s_res_first_status_code =>
      if negb (IS_NUM ch) then if isc ch " " then Advance m p else fail m HPE_INVALID_STATUS p
      else Advance (to_state (upd m (λ hp, hp <| status_code := ch - 48 |>)) s_res_status_code) p
  | s_res_status_code =>
      if negb (IS_NUM ch) then
        if isc ch " " then Advance (to_state m s_res_status_start) p
        else if is_CR ch || is_LF ch then Reexecute (to_state m s_res_status_start) p ch
        else fail m HPE_INVALID_STATUS p
      else
        let m := upd m (λ hp, hp <| status_code := u16 (u16 (status_code hp * 10) + (ch - 48)) |>) in
        if 999 <? status_code (parser m) then fail m HPE_INVALID_STATUS p else Advance m p
  | s_res_status_start =>
      let m := to_state (do_mark m status p) s_res_status in
      let m := upd m (λ hp, hp <| index := 0 |>) in
      if is_CR ch || is_LF ch then Reexecute m p ch else Advance m p
  | s_res_status =>
      if is_CR ch then CALLBACK_DATA (to_state m s_res_line_almost_done) status p (λ m, Advance m p)
      else if is_LF ch then CALLBACK_DATA (to_state m s_header_field_start) status p (λ m, Advance m p)
      else Advance m p
  | _ => expect (is_LF ch) m p (Advance (to_state m s_header_field_start) p)   (* s_res_line_almost_done *)
  end.

Definition step_method m (p ch : Z) : flow :=
  let hp := parser m in
  if ch =? 0 then fail m HPE_INVALID_METHOD p
  else match c_string_at (bytes_of_string (method_string (method hp))) (index hp) with
  | None => Aborted
  | Some w =>
      let next m := Advance (upd m next_index) p in
      if isc ch " " && (w =? 0) then next (to_state m s_req_spaces_before_url)
      else if ch =? w then next m
      else if between 65 ch 90 || isc ch "-" then
        match other_method (method hp) (index hp) ch with
        | Some meth => next (upd m (λ hp, hp <| method := meth |>))
        | None => fail m HPE_INVALID_METHOD p
        end
      else fail m HPE_INVALID_METHOD p
  end.

Definition url_char m (p ch : Z) : flow :=
  let s := parse_url_char (state (parser m)) ch in
  let m := to_state m s in
  if decide (s = s_dead) then fail m HPE_INVALID_URL p else Advance m p.

Definition step_url m (p ch : Z) : flow :=
  match state (parser m) with
  | s_req_spaces_before_url =>
      if isc ch " " then Advance m p
      else
        let m := do_mark m url p in
        let m := if decide (method (parser m) = HTTP_CONNECT) then to_state m s_req_server_start else m in
        url_char m p ch
  | s_req_schema | s_req_schema_slash | s_req_schema_slash_slash | s_req_server_start =>
      if isc ch " " || is_CR ch || is_LF ch then fail m HPE_INVALID_URL p else url_char m p ch
  | _ =>
      if isc ch " " then CALLBACK_DATA (to_state m s_req_http_start) url p (λ m, Advance m p)
      else if is_CR ch || is_LF ch then
        let m := upd m (λ hp, hp <| http_major := 0 |> <| http_minor := 9 |>) in
        CALLBACK_DATA (to_state m (if is_CR ch then s_req_line_almost_done else s_header_field_start)) url p (λ m, Advance m p)
      else url_char m p ch
  end.

Definition step_version m (p ch : Z) : flow :=
  match state (parser m) with
  | s_req_http_start =>
      if isc ch " " then Advance m p
      else if isc ch "H" then Advance (to_state m s_req_http_H) p
      else if isc ch "I" && bool_decide (method (parser m) = HTTP_SOURCE) then Advance (to_state m s_req_http_I) p
      else fail m HPE_INVALID_CONSTANT p
  | s_req_http_H => expect (isc ch "T") m p (Advance (to_state m s_req_http_HT) p)
  | s_req_http_HT => expect (isc ch "T") m p (Advance (to_state m s_req_http_HTT) p)
  | s_req_http_HTT => expect (isc ch "P") m p (Advance (to_state m s_req_http_HTTP) p)
  | s_req_http_I => expect (isc ch "C") m p (Advance (to_state m s_req_http_IC) p)
  | s_req_http_IC => expect (isc ch "E") m p (Advance (to_state m s_req_http_HTTP) p)
  | s_req_http_HTTP => expect (isc ch "/") m p (Advance (to_state m s_req_http_major) p)
  | s_req_http_major =>
      if negb (IS_NUM ch) then fail m HPE_INVALID_VERSION p
      else Advance (to_state (upd m (λ hp, hp <| http_major := ch - 48 |>)) s_req_http_dot) p
  | s_req_http_dot => if negb (isc ch ".") then fail m HPE_INVALID_VERSION p else Advance (to_state m s_req_http_minor) p
  | s_req_http_minor =>
      if negb (IS_NUM ch) then fail m HPE_INVALID_VERSION p
      else Advance (to_state (upd m (λ hp, hp <| http_minor := ch - 48 |>)) s_req_http_end) p
  | s_req_http_end =>
      if is_CR ch then Advance (to_state m s_req_line_almost_done) p
      else if is_LF ch then Advance (to_state m s_header_field_start) p
      else fail m HPE_INVALID_VERSION p
  | _ =>                                   (* s_req_line_almost_done *)
      if negb (is_LF ch) then fail m HPE_LF_EXPECTED p else Advance (to_state m s_header_field_start) p
  end.

(** The name of a header. *)
Definition field_state (c : Z) : header_states :=
  if isc c "c" then h_C else if isc c "p" then h_matching_proxy_connection
  else if isc c "t" then h_matching_transfer_encoding else if isc c "u" then h_matching_upgrade else h_general.

Definition step_field_start m (p ch : Z) : flow :=
  if is_CR ch then Advance (to_state m s_headers_almost_done) p
  else if is_LF ch then Reexecute (to_state m s_headers_almost_done) p ch
  else
    let c := TOKEN ch in
    if c =? 0 then fail m HPE_INVALID_HEADER_TOKEN p
    else
      let m := to_state (do_mark m header_field p) s_header_field in
      Advance (upd m (λ hp, hp <| index := 0 |> <| header_state := field_state c |>)) p.

Definition step_field m (p ch : Z) : flow :=
  match field_loop (parser m) (zdrop p data) p 0 with
  | None => Aborted
  | Some (hp, q, None) => COUNT_HEADER_SIZE (m <| parser := hp |>) (q - 1 - p) (q - 1) (λ m, Advance m (q - 1))
  | Some (hp, q, Some ch) =>
      COUNT_HEADER_SIZE (m <| parser := hp |>) (q - p) q (λ m,
        if isc ch ":" then CALLBACK_DATA (to_state m s_header_value_discard_ws) header_field q (λ m, Advance m q)
        else fail m HPE_INVALID_HEADER_TOKEN q)
  end.

(** The value of a header. *)
Definition step_value_start m (p ch : Z) : flow :=
  let m := to_state (do_mark m header_value p) s_header_value in
  let m := upd m (λ hp, hp <| index := 0 |>) in
  let c := LOWER ch in
  let go h := Advance (upd m (λ hp, hp <| header_state := h |>)) p in
  match header_state (parser m) with
  | h_upgrade => Advance (upd m (λ hp, set_flag hp F_UPGRADE <| header_state := h_general |>)) p
  | h_transfer_encoding => go (if isc c "c" then h_matching_transfer_encoding_chunked else h_matching_transfer_encoding_token)
  | h_matching_transfer_encoding_token_start | h_content_length_ws | h_matching_connection_token_start => Advance m p
  | h_content_length =>
      if negb (IS_NUM ch) then fail m HPE_INVALID_CONTENT_LENGTH p
      else if flag (parser m) F_CONTENTLENGTH then fail m HPE_UNEXPECTED_CONTENT_LENGTH p
      else Advance (upd m (λ hp, set_flag hp F_CONTENTLENGTH <| content_length := ch - 48 |> <| header_state := h_content_length_num |>)) p
  | h_connection =>
      go (if isc c "k" then h_matching_connection_keep_alive else if isc c "c" then h_matching_connection_close
          else if isc c "u" then h_matching_connection_upgrade else h_matching_connection_token)
  | _ => go h_general
  end.

Definition with_header_state hp (h : header_states) : http_parser := hp <| header_state := h |>.

Definition step_value m (p ch : Z) : flow :=
  match value_loop (parser m) (header_state (parser m)) (zdrop p data) p 0 with
  | VCR hp h q =>
      CALLBACK_DATA (to_state (m <| parser := with_header_state hp h |>) s_header_almost_done) header_value q (λ m,
        COUNT_HEADER_SIZE m (q - p) q (λ m, Advance m q))
  | VLF hp h q =>
      COUNT_HEADER_SIZE (to_state (m <| parser := hp |>) s_header_almost_done) (q - p) q (λ m,
        CALLBACK_DATA_NOADVANCE (upd m (λ hp, with_header_state hp h)) header_value q (λ m, Reexecute m q 10))
  | VEnd hp h q => COUNT_HEADER_SIZE (m <| parser := with_header_state hp h |>) (q - 1 - p) (q - 1) (λ m, Advance m (q - 1))
  | VBad hp e q => fail (m <| parser := hp |>) e q
  | VDead => Aborted
  end.

(** The flags a finished header sets. *)
Definition header_flags hp : http_parser :=
  match header_state hp with
  | h_connection_keep_alive => set_flag hp F_CONNECTION_KEEP_ALIVE
  | h_connection_close => set_flag hp F_CONNECTION_CLOSE
  | h_transfer_encoding_chunked => set_flag hp F_CHUNKED
  | h_connection_upgrade => set_flag hp F_CONNECTION_UPGRADE
  | _ => hp
  end.

Definition step_value_end m (p ch : Z) : flow :=
  match state (parser m) with
  | s_header_value_discard_ws =>
      if isc ch " " || is_TAB ch then Advance m p
      else if is_CR ch then Advance (to_state m s_header_value_discard_ws_almost_done) p
      else if is_LF ch then Advance (to_state m s_header_value_discard_lws) p
      else step_value_start m p ch
  | s_header_almost_done =>
      if negb (is_LF ch) then fail m HPE_LF_EXPECTED p else Advance (to_state m s_header_value_lws) p
  | s_header_value_lws =>
      if isc ch " " || is_TAB ch then
        let m := upd m (λ hp, if decide (header_state hp = h_content_length_num) then with_header_state hp h_content_length_ws else hp) in
        Reexecute (to_state m s_header_value_start) p ch
      else Reexecute (to_state (upd m header_flags) s_header_field_start) p ch
  | s_header_value_discard_ws_almost_done => expect (is_LF ch) m p (Advance (to_state m s_header_value_discard_lws) p)
  | _ =>                                   (* s_header_value_discard_lws *)
      if isc ch " " || is_TAB ch then Advance (to_state m s_header_value_discard_ws) p
      else if decide (header_state (parser m) = h_content_length) then fail m HPE_INVALID_CONTENT_LENGTH p
      else
        let m := do_mark (upd m header_flags) header_value p in
        CALLBACK_DATA_NOADVANCE (to_state m s_header_field_start) header_value p (λ m, Reexecute m p ch)
  end.

(** The end of the headers. *)
Definition step_headers_almost_done m (p ch : Z) : flow :=
  expect (is_LF ch) m p (
    if flag (parser m) F_TRAILING then
      notify (to_state m s_message_done) ev_chunk_complete HPE_CB_chunk_complete p (λ m, Reexecute m p ch)
    else
      let hp := parser m in
      if uses_transfer_encoding hp && flag hp F_CONTENTLENGTH &&
         (if flag hp F_CHUNKED then negb (allow_chunked_length hp) else negb (lenient_http_headers hp))
      then fail m HPE_UNEXPECTED_CONTENT_LENGTH p
      else
        let m := to_state m s_headers_done in
        let m := upd m (λ hp, hp <| upgrade :=
                   if flag hp F_UPGRADE && flag hp F_CONNECTION_UPGRADE
                   then bool_decide (type hp = HTTP_REQUEST) || (status_code hp =? 101)
                   else bool_decide (method hp = HTTP_CONNECT) |>) in
        let r := on (events m) ev_headers_complete in
        let m := m <| events := events m ++ [ev_headers_complete] |> in
        if r =? 0 then Reexecute m p ch
        else if r =? 2 then Reexecute (upd m (λ hp, set_flag (hp <| upgrade := true |>) F_SKIPBODY)) p ch
        else if r =? 1 then Reexecute (upd m (λ hp, set_flag hp F_SKIPBODY)) p ch
        else Return (with_errno m HPE_CB_headers_complete) p).

Definition new_message m : machine := to_state m (NEW_MESSAGE (parser m)).
Definition message_complete m (p : Z) (k : machine → flow) : flow :=
  notify (new_message m) ev_message_complete HPE_CB_message_complete (p + 1) k.

Definition step_headers_done m (p ch : Z) : flow :=
  expect (is_LF ch) m p (
    let m := upd m (λ hp, hp <| nread := 0 |>) in
    let hp := parser m in
    let hasBody := flag hp F_CHUNKED || ((0 <? content_length hp) && negb (content_length hp =? ULLONG_MAX)) in
    if upgrade hp && (bool_decide (method hp = HTTP_CONNECT) || flag hp F_SKIPBODY || negb hasBody)
    then message_complete m p (λ m, Return m (p + 1))
    else if flag hp F_SKIPBODY then message_complete m p (λ m, Advance m p)
    else if flag hp F_CHUNKED then Advance (to_state m s_chunk_size_start) p
    else if uses_transfer_encoding hp then
      if bool_decide (type hp = HTTP_REQUEST) && negb (lenient_http_headers hp)
      then Return (with_errno m HPE_INVALID_TRANSFER_ENCODING) p
      else Advance (to_state m s_body_identity_eof) p
    else if content_length hp =? 0 then message_complete m p (λ m, Advance m p)
    else if negb (content_length hp =? ULLONG_MAX) then Advance (to_state m s_body_identity) p
    else if negb (http_message_needs_eof hp) then message_complete m p (λ m, Advance m p)
    else Advance (to_state m s_body_identity_eof) p).

(** The body. *)
Definition step_body m (p ch : Z) : flow :=
  let hp := parser m in
  let to_read := Z.min (content_length hp) (len - p) in
  let body_length_ok := negb (content_length hp =? 0) && negb (content_length hp =? ULLONG_MAX) in
  match state hp with
  | s_body_identity =>
      if negb body_length_ok then Aborted
      else
        let m := upd (do_mark m body p) (λ hp, hp <| content_length := content_length hp - to_read |>) in
        let q := p + (to_read - 1) in
        if content_length (parser m) =? 0 then
          call_data (to_state m s_message_done) body (mark_length m body q + 1) q (λ m, Reexecute m q ch)
        else Advance m q
  | s_body_identity_eof => Advance (do_mark m body p) (len - 1)
  | _ =>                                   (* s_message_done *)
      message_complete m p (λ m, if upgrade (parser m) then Return m (p + 1) else Advance m p)
  end.

Definition step_chunk_data m (p ch : Z) : flow :=
  let hp := parser m in
  let to_read := Z.min (content_length hp) (len - p) in
  let body_length_ok := negb (content_length hp =? 0) && negb (content_length hp =? ULLONG_MAX) in
  match state hp with
  | s_chunk_data =>
      if negb (flag hp F_CHUNKED) || negb body_length_ok then Aborted
      else
        let m := upd (do_mark m body p) (λ hp, hp <| content_length := content_length hp - to_read |>) in
        let q := p + (to_read - 1) in
        Advance (if content_length (parser m) =? 0 then to_state m s_chunk_data_almost_done else m) q
  | s_chunk_data_almost_done =>
      if negb (flag hp F_CHUNKED) || negb (content_length hp =? 0) then Aborted
      else expect (is_CR ch) m p (CALLBACK_DATA (to_state m s_chunk_data_done) body p (λ m, Advance m p))
  | _ =>                                   (* s_chunk_data_done *)
      if negb (flag hp F_CHUNKED) then Aborted
      else expect (is_LF ch) m p (
        let m := upd m (λ hp, hp <| nread := 0 |>) in
        notify (to_state m s_chunk_size_start) ev_chunk_complete HPE_CB_chunk_complete (p + 1) (λ m, Advance m p))
  end.

(** The sizes of chunks. *)
Definition step_chunk m (p ch : Z) : flow :=
  let hp := parser m in
  if negb (flag hp F_CHUNKED) then Aborted
  else match state hp with
  | s_chunk_size_start =>
      if negb (nread hp =? 1) then Aborted
      else if unhex ch =? -1 then fail m HPE_INVALID_CHUNK_SIZE p
      else Advance (to_state (upd m (λ hp, hp <| content_length := unhex ch |>)) s_chunk_size) p
  | s_chunk_size =>
      if is_CR ch then Advance (to_state m s_chunk_size_almost_done) p
      else if unhex ch =? -1 then
        if isc ch ";" || isc ch " " then Advance (to_state m s_chunk_parameters) p else fail m HPE_INVALID_CHUNK_SIZE p
      else if (ULLONG_MAX - 16) / 16 <? content_length hp then fail m HPE_INVALID_CONTENT_LENGTH p
      else Advance (upd m (λ hp, hp <| content_length := u64 (u64 (content_length hp * 16) + unhex ch) |>)) p
  | s_chunk_parameters => if is_CR ch then Advance (to_state m s_chunk_size_almost_done) p else Advance m p
  | _ =>                                   (* s_chunk_size_almost_done *)
      expect (is_LF ch) m p (
        let m := upd m (λ hp, hp <| nread := 0 |>) in
        let m := if content_length hp =? 0 then to_state (upd m (λ hp, set_flag hp F_TRAILING)) s_header_field_start else to_state m s_chunk_data in
        notify m ev_chunk_header HPE_CB_chunk_header (p + 1) (λ m, Advance m p))
  end.

Definition step m (p ch : Z) : flow :=
  match state (parser m) with
  | s_dead => if is_CR ch || is_LF ch then Advance m p else fail m HPE_CLOSED_CONNECTION p
  | s_start_req_or_res | s_res_or_resp_H | s_start_res => step_start m p ch
  | s_start_req => step_start_req m p ch
  | s_res_H | s_res_HT | s_res_HTT | s_res_HTTP | s_res_http_major | s_res_http_dot | s_res_http_minor | s_res_http_end
  | s_res_first_status_code | s_res_status_code | s_res_status_start | s_res_status | s_res_line_almost_done => step_response m p ch
  | s_req_method => step_method m p ch
  | s_req_spaces_before_url | s_req_schema | s_req_schema_slash | s_req_schema_slash_slash | s_req_server_start | s_req_server
  | s_req_server_with_at | s_req_path | s_req_query_string_start | s_req_query_string | s_req_fragment_start | s_req_fragment => step_url m p ch
  | s_req_http_start | s_req_http_H | s_req_http_HT | s_req_http_HTT | s_req_http_HTTP | s_req_http_I | s_req_http_IC | s_req_http_major
  | s_req_http_dot | s_req_http_minor | s_req_http_end | s_req_line_almost_done => step_version m p ch
  | s_header_field_start => step_field_start m p ch
  | s_header_field => step_field m p ch
  | s_header_value_start => step_value_start m p ch
  | s_header_value => step_value m p ch
  | s_header_value_discard_ws | s_header_value_discard_ws_almost_done | s_header_value_discard_lws | s_header_value_lws
  | s_header_almost_done => step_value_end m p ch
  | s_headers_almost_done => step_headers_almost_done m p ch
  | s_headers_done => step_headers_done m p ch
  | s_chunk_size_start | s_chunk_size | s_chunk_parameters | s_chunk_size_almost_done => step_chunk m p ch
  | s_chunk_data | s_chunk_data_almost_done | s_chunk_data_done => step_chunk_data m p ch
  | s_body_identity | s_body_identity_eof | s_message_done => step_body m p ch
  end.

(** ** The loop *)

(** What [http_parser_execute] leaves: the parser, the callbacks and the number it returns; or a failed assertion,
    or nothing when the fuel does not last. *)
Inductive run_result := Done (hp : http_parser) (es : list http_event) (n : Z) | Failed | OutOfFuel.

Definition finish m : run_result :=
  let marks := map (λ k, if get_mark m k then 1%nat else 0%nat) [header_field; header_value; url; body; status] in
  if (1 <? sum_list marks)%nat then Failed
  else
    let last m := Return m len in
    match CALLBACK_DATA_NOADVANCE m header_field len (λ m, CALLBACK_DATA_NOADVANCE m header_value len (λ m,
            CALLBACK_DATA_NOADVANCE m url len (λ m, CALLBACK_DATA_NOADVANCE m body len (λ m, CALLBACK_DATA_NOADVANCE m status len last)))) with
    | Return m n => Done (parser m) (events m) n
    | _ => Failed
    end.

(** [again] is the character of a [reexecute], which is not counted. *)
Fixpoint run_loop (fuel : nat) m (p : Z) (again : option Z) : run_result :=
  match fuel with
  | O => OutOfFuel
  | S fuel =>
      let leave f :=
        match f with
        | Advance m p => run_loop fuel m (p + 1) None
        | Reexecute m p ch => run_loop fuel m p (Some ch)
        | Return m n => Done (parser m) (events m) n
        | Error m p => Done (parser m) (events m) p
        | Aborted => Failed
        end in
      match again with
      | Some ch => leave (step m p ch)
      | None =>
          match zdrop p data with
          | [] => finish m
          | ch :: _ =>
              leave (if PARSING_HEADER (state (parser m)) then COUNT_HEADER_SIZE m 1 p (λ m, step m p ch) else step m p ch)
          end
      end
  end.

(** A position is looked at once, and at most four times more by [reexecute]. *)
Definition run_fuel : nat := 5 * length data + 5.

(** The marks that a state carries over from the data before. *)
Definition initial_machine hp : machine :=
  let at_start (b : bool) := if b then Some 0 else None in
  mkMachine hp (at_start (bool_decide (state hp = s_header_field))) (at_start (bool_decide (state hp = s_header_value)))
    (at_start (match state hp with
               | s_req_path | s_req_schema | s_req_schema_slash | s_req_schema_slash_slash | s_req_server_start | s_req_server
               | s_req_server_with_at | s_req_query_string_start | s_req_query_string | s_req_fragment_start | s_req_fragment => true
               | _ => false end)) None (at_start (bool_decide (state hp = s_res_status))) [].

Definition http_parser_execute hp : run_result :=
  if negb (bool_decide (errno hp = HPE_OK)) then Done hp [] 0
  else if len =? 0 then
    match state hp with
    | s_body_identity_eof =>
        if on [] ev_message_complete =? 0 then Done hp [ev_message_complete] 0
        else Done (hp <| errno := HPE_CB_message_complete |>) [ev_message_complete] 0
    | s_dead | s_start_req_or_res | s_start_res | s_start_req => Done hp [] 0
    | _ => Done (hp <| errno := HPE_INVALID_EOF_STATE |>) [] 1
    end
  else run_loop run_fuel (initial_machine hp) 0 None.

End Execute.

(** As [CHttpFormat::try_parse] calls it: a new parser for requests, callbacks that return 0. *)
Definition HTTP_MAX_HEADER_SIZE : Z := 80 * 1024.
Definition run_request (text : list Z) : parse_run :=
  match http_parser_execute (λ _ _, 0) HTTP_MAX_HEADER_SIZE text (http_parser_init HTTP_REQUEST) with
  | Done hp es n => mkRun es n (upgrade hp)
  | _ => mkRun [] 0 false
  end.

(** ** The other functions *)

(** The parser in an error state cannot be paused: the assertion fails. *)
Definition http_parser_pause hp (paused : bool) : outcome http_parser :=
  if bool_decide (errno hp = HPE_OK) || bool_decide (errno hp = HPE_PAUSED)
  then Ok (hp <| errno := if paused then HPE_PAUSED else HPE_OK |>)
  else Fault.

Definition http_body_is_final hp : bool := bool_decide (state hp = s_message_done).
