(* ===== verification/HttpParserFacts.v ===== *)
(** * The HTTP parser is safe

    Whatever bytes it is given, [http_parser_execute] returns: no assertion fails, no table is read out of its
    range, no position leaves the data, and the parser stays well formed from one call to the next. *)

From Stdlib Require Import ZArith Lia.
From S2P Require Import Prelude Define HttpFormat HttpParser.
From stdpp Require Import base numbers list strings.
Local Open Scope Z_scope.

Implicit Types (hp : http_parser) (m : machine).

(** ** Well-formed parsers *)

Definition field_state_ok (h : header_states) : bool :=
  match h with
  | h_general | h_C | h_CO | h_CON | h_matching_connection | h_matching_proxy_connection | h_matching_content_length
  | h_matching_transfer_encoding | h_matching_upgrade | h_connection | h_content_length | h_transfer_encoding | h_upgrade => true
  | _ => false
  end.
Definition value_state_ok (h : header_states) : bool := match h with h_connection | h_transfer_encoding => false | _ => true end.

Record base_ok hp : Prop := {
  b_index : 0 <= index hp;
  b_length : 0 <= content_length hp <= ULLONG_MAX;
}.

(** What a state relies on; [n] is the count of header bytes where a chunk begins. *)
Definition state_ok (n : Z) hp : Prop :=
  match state hp with
  | s_req_method => index hp <= zlen (bytes_of_string (method_string (method hp)))
  | s_header_field => field_state_ok (header_state hp) = true
  | s_header_value => value_state_ok (header_state hp) = true
  | s_chunk_size_start => flag hp F_CHUNKED = true ∧ nread hp = n
  | s_chunk_size | s_chunk_parameters | s_chunk_size_almost_done => flag hp F_CHUNKED = true ∧ content_length hp < ULLONG_MAX
  | s_chunk_data => flag hp F_CHUNKED = true ∧ 0 < content_length hp < ULLONG_MAX
  | s_chunk_data_almost_done => flag hp F_CHUNKED = true ∧ content_length hp = 0
  | s_chunk_data_done => flag hp F_CHUNKED = true
  | s_body_identity => 0 < content_length hp < ULLONG_MAX
  | _ => True
  end.

(** A parser between two calls. *)
Definition parser_ok hp : Prop := errno hp ≠ HPE_OK ∨ (base_ok hp ∧ state_ok 0 hp).

(** The mark a state may have set. *)
Definition mark_of (s : pstate) : option mark :=
  match s with
  | s_header_field => Some header_field
  | s_header_value => Some header_value
  | s_req_path | s_req_schema | s_req_schema_slash | s_req_schema_slash_slash | s_req_server_start | s_req_server
  | s_req_server_with_at | s_req_query_string_start | s_req_query_string | s_req_fragment_start | s_req_fragment => Some url
  | s_res_status => Some status
  | s_body_identity | s_body_identity_eof | s_chunk_data | s_chunk_data_almost_done => Some body
  | _ => None
  end.
Definition marks_ok (k : option mark) m (p : Z) : Prop := ∀ w v, get_mark m w = Some v → k = Some w ∧ 0 <= v <= p.

Definition inv (n : Z) m (p : Z) : Prop :=
  errno (parser m) = HPE_OK ∧ base_ok (parser m) ∧ state_ok n (parser m) ∧ marks_ok (mark_of (state (parser m))) m p.

(** How often a position can be looked at again. *)
Definition rank (s : pstate) : Z :=
  match s with
  | s_header_value_lws | s_header_value_discard_lws => 4
  | s_header_field_start => 3
  | s_headers_almost_done | s_res_status_code => 2
  | s_res_status_start | s_start_req_or_res | s_header_value | s_body_identity => 1
  | _ => 0
  end.

Section Safe.
Context (on : list http_event → http_event → Z) (max_header_size : Z) (data : list Z).
Notation len := (len data).

(** Why the parser stops: the end of the data, an error, or a protocol the connection is upgraded to. *)
Definition stopped hp (n : Z) : Prop := n = len ∨ errno hp ≠ HPE_OK ∨ upgrade hp = true.

Definition flow_ok (s : pstate) (p : Z) (f : flow) : Prop :=
  match f with
  | Advance m q => p <= q < len ∧ inv 0 m (q + 1)
  | Reexecute m q _ => p <= q < len ∧ inv 1 m q ∧ (rank (state (parser m)) < rank s)
  | Return m n => 0 <= n <= len ∧ parser_ok (parser m) ∧ stopped (parser m) n
  | Error m q => 0 <= q <= len ∧ errno (parser m) ≠ HPE_OK
  | Aborted => False
  end.

(** ** The parts of a step *)

Lemma fail_ok s p m e q : 0 <= q <= len → e ≠ HPE_OK → flow_ok s p (fail m e q).
Proof. done. Qed.

Lemma return_error s p m n : 0 <= n <= len → errno (parser m) ≠ HPE_OK → flow_ok s p (Return m n).
Proof. intros Hn He. split; [done|]. split; [by left|]. right. by left. Qed.

Lemma notify_ok s p m e err ret k : 0 <= ret <= len → err ≠ HPE_OK → flow_ok s p (k (m <| events := events m ++ [e] |>)) →
  flow_ok s p (notify on m e err ret k).
Proof. intros Hr He Hk. unfold notify. destruct (_ =? 0); [exact Hk|]. split; [done|]. split; [by left|]. right. by left. Qed.

Lemma mark_errno_not_ok w : mark_errno w ≠ HPE_OK.
Proof. by destruct w. Qed.

(** A machine that differs by its marks and callbacks only, with the mark [w] not set. *)
Definition unmarked (w : mark) m m' : Prop :=
  parser m' = parser m ∧ get_mark m' w = None ∧ ∀ v, v ≠ w → get_mark m' v = get_mark m v.

Lemma call_data_ok s p m w n ret k : 0 <= ret <= len → (∀ m', unmarked w m m' → flow_ok s p (k m')) →
  flow_ok s p (call_data on data m w n ret k).
Proof.
  intros Hr Hk. unfold call_data. destruct (get_mark m w) as [v|] eqn:E.
  - apply notify_ok; [done|apply mark_errno_not_ok|]. apply Hk. split; [by destruct w|]. split; [by destruct w|].
    intros v' Hv. by destruct v', w.
  - by apply Hk.
Qed.

Lemma count_ok s p m v q k : 0 <= q <= len →
  (∀ c, flow_ok s p (k (upd m (λ hp, hp <| nread := c |>)))) → flow_ok s p (COUNT_HEADER_SIZE max_header_size m v q k).
Proof. intros Hq Hk. unfold COUNT_HEADER_SIZE. destruct (_ <? _); [by apply fail_ok|]. apply Hk. Qed.

Lemma expect_ok s p b m q f : 0 <= q <= len → flow_ok s p f → flow_ok s p (expect b m q f).
Proof. intros. destruct b; [done|by apply fail_ok]. Qed.

(** ** The words *)

Lemma match_word_ok word hp c : ∃ hp' r, match_word word hp c = Some (hp', r) ∧ hp' = next_index hp.
Proof.
  unfold match_word. destruct (Z.ltb_spec (zlen word) (index (next_index hp))) as [|Hle]; [eauto|].
  unfold c_string_at. destruct ((word ++ [0]) !! Z.to_nat (index (next_index hp))) eqn:E; [eauto|].
  apply lookup_ge_None in E. rewrite length_app in E. cbn -[Z.modulo] in E, Hle. unfold zlen in Hle. pose proof (Z.mod_pos_bound (index hp + 1) 32). lia.
Qed.

Lemma next_index_pos hp : 0 <= index (next_index hp).
Proof. cbn -[Z.modulo]. apply Z.mod_pos_bound. lia. Qed.

Lemma flag_set hp f g : flag hp g = true → flag (set_flag hp f) g = true.
Proof.
  unfold flag, set_flag. cbn. rewrite !negb_true_iff, !Z.eqb_neq, Z.land_lor_distr_l. intros H [H' _]%Z.lor_eq_0_iff. done.
Qed.

(** ** The loops over names and values *)

Definition kept hp hp' : Prop := errno hp' = errno hp ∧ state hp' = state hp ∧ base_ok hp'.

Lemma kept_refl hp : base_ok hp → kept hp hp.
Proof. intros H. split; [done|by split]. Qed.
#[local] Hint Resolve kept_refl : core.

Lemma next_index_kept hp h : base_ok hp → kept hp (next_index hp <| header_state := h |>).
Proof. intros [H1 H2]. split_and!; try done. split; [apply next_index_pos|done]. Qed.

Lemma match_field_ok word found hp c : base_ok hp → field_state_ok (header_state hp) = true → field_state_ok found = true →
  ∃ hp', match_field word found hp c = Some hp' ∧ kept hp hp' ∧ field_state_ok (header_state hp') = true.
Proof.
  intros Hb Hh Hf. unfold match_field. destruct (match_word_ok word hp c) as (hp' & r & -> & ->).
  destruct r; eexists; (split; [reflexivity|]); (split; [|done]); [by apply next_index_kept| |by apply next_index_kept].
  split_and!; try done. split; [apply next_index_pos|apply Hb].
Qed.

Lemma field_char_ok hp ch c : base_ok hp → field_state_ok (header_state hp) = true →
  ∃ hp', field_char hp ch c = Some hp' ∧ kept hp hp' ∧ field_state_ok (header_state hp') = true.
Proof.
  intros Hb Hh. unfold field_char. destruct (header_state hp) eqn:Es; try discriminate Hh;
    try (apply match_field_ok; [done|by rewrite Es|done]);
    try (eexists; split; [reflexivity|]; split; [by apply next_index_kept|]; cbn; by repeat case_match);
    try (eexists; split; [reflexivity|]; destruct (isc ch " "); split; (split_and!; try done; split; apply Hb) || (cbn; rewrite ?Es; done)).
  destruct (match_field_ok TRANSFER_ENCODING h_transfer_encoding hp c Hb) as (hp' & -> & Hk & Hs); [by rewrite Es|done|].
  eexists. split; [reflexivity|]. destruct (decide _); [|done]. destruct Hk as (E1 & E2 & []). by split_and!.
Qed.

Lemma field_loop_ok rest : ∀ p skip hp, base_ok hp → field_state_ok (header_state hp) = true →
  ∃ hp' q r, field_loop max_header_size hp rest p skip = Some (hp', q, r) ∧ kept hp hp' ∧ field_state_ok (header_state hp') = true ∧
    match r with None => q = p + zlen rest | Some _ => p <= q < p + zlen rest end.
Proof.
  induction rest as [|ch rest IH]; intros p skip hp Hb Hh; cbn [field_loop].
  - exists hp, p, None. split_and!; auto. unfold zlen. cbn. lia.
  - assert (Hnext : ∀ skip hp, base_ok hp → field_state_ok (header_state hp) = true →
      ∃ hp' q r, field_loop max_header_size hp rest (p + 1) skip = Some (hp', q, r) ∧ kept hp hp' ∧ field_state_ok (header_state hp') = true ∧
        match r with None => q = p + zlen (ch :: rest) | Some _ => p <= q < p + zlen (ch :: rest) end).
    { intros skip' hp' Hb' Hh'. destruct (IH (p + 1) skip' hp' Hb' Hh') as (hp'' & q & r & E & Hk & Hs & Hq). exists hp'', q, r.
      split_and!; try apply Hk; try done. rewrite zlen_cons. destruct r; lia. }
    destruct skip as [|skip]; [|by apply Hnext]. destruct (_ =? 0).
    + exists hp, p, (Some ch). split_and!; auto; [lia|]. rewrite zlen_cons. pose proof (zlen_nonneg rest). lia.
    + destruct (decide _); [by apply Hnext|]. destruct (field_char_ok hp ch (TOKEN ch) Hb Hh) as (hp' & -> & (E1 & E2 & Hb') & Hs).
      destruct (Hnext 0%nat hp' Hb' Hs) as (hp'' & q & r & E & (E3 & E4 & Hb'') & Hs'' & Hq). exists hp'', q, r. split; [done|]. split; [|done]. split; [congruence|]. split; [congruence|done].
Qed.

(** The end of a value loop. *)
Definition value_end_ok hp (p : Z) (rest : list Z) (r : value_end) : Prop :=
  match r with
  | VCR hp' h q | VLF hp' h q => kept hp hp' ∧ value_state_ok h = true ∧ p <= q < p + zlen rest
  | VEnd hp' h q => kept hp hp' ∧ value_state_ok h = true ∧ q = p + zlen rest
  | VBad hp' e q => e ≠ HPE_OK ∧ p <= q < p + zlen rest
  | VDead => False
  end.

Lemma value_run_ok lenient l : ∀ n, match value_run lenient l n with inr k => (n <= k < n + length l)%nat | inl _ => True end.
Proof.
  induction l as [|ch l IH]; intros n; cbn [value_run]; [done|]. destruct (_ || _); [done|]. destruct (_ && _); [cbn; lia|].
  specialize (IH (S n)). destruct (value_run lenient l (S n)); [done|]. cbn. lia.
Qed.

Lemma general_run_ok lenient rest : match general_run max_header_size lenient rest with inr k => (k < length rest)%nat | inl _ => True end.
Proof.
  unfold general_run. pose proof (value_run_ok lenient (ztake (Z.min (zlen rest) max_header_size) rest) 0) as H.
  destruct (value_run _ _ _); [done|]. unfold ztake in H. rewrite length_take in H. lia.
Qed.

Lemma value_number_ok hp h ch : base_ok hp → value_state_ok h = true →
  match value_number hp h ch with VNext hp' h' => kept hp hp' ∧ value_state_ok h' = true | VError hp' e => e ≠ HPE_OK | VAbort => False end.
Proof.
  intros Hb Hh. unfold value_number. destruct (isc ch " "); [by auto|]. destruct (IS_NUM ch) eqn:En; [|done]. cbn [negb].
  destruct (Z.ltb_spec ((ULLONG_MAX - 10) / 10) (content_length hp)) as [|Hc]; [done|]. split; [|done]. split_and!; try done. split; [apply Hb|].
  cbn -[u64 ULLONG_MAX]. unfold IS_NUM, HttpParser.between in En. rewrite andb_true_iff, !Z.leb_le in En. destruct Hb as [_ Hl].
  assert (content_length hp * 10 <= ULLONG_MAX - 10) by (pose proof (Z.mul_div_le (ULLONG_MAX - 10) 10); lia).
  unfold ULLONG_MAX in *. rewrite (u64_small (content_length hp * 10)), u64_small by lia. lia.
Qed.

Lemma value_char_ok hp h ch : base_ok hp → value_state_ok h = true →
  match value_char hp h ch with VNext hp' h' => kept hp hp' ∧ value_state_ok h' = true | VError hp' e => e ≠ HPE_OK | VAbort => False end.
Proof.
  intros Hb Hh. assert (Hk : kept hp hp) by auto.
  assert (Hi : kept hp (hp <| index := 0 |>)) by (split_and!; try done; split; [done|apply Hb]).
  assert (Hm : ∀ word found lost, value_state_ok found = true → value_state_ok lost = true →
    match of_match h (match_word word hp (LOWER ch)) found lost with VNext hp' h' => kept hp hp' ∧ value_state_ok h' = true | VError hp' e => e ≠ HPE_OK | VAbort => False end).
  { intros word found lost Hf Hl. destruct (match_word_ok word hp (LOWER ch)) as (hp' & r & -> & ->).
    assert (kept hp (next_index hp)) by (split_and!; try done; split; [apply next_index_pos|apply Hb]). by destruct r. }
  unfold value_char. destruct h; try discriminate Hh; try (by apply Hm); try (by apply value_number_ok);
    try (destruct (isc ch " "); [done|]; by apply value_number_ok);
    try (destruct (isc ch ","); [by split|]; by repeat case_match);
    try (split; [done|]; by repeat case_match); try (by repeat case_match).
  { by destruct (isc ch " "). }
  all: assert (Hf : ∀ f, kept hp (set_flag hp f <| index := 0 |>)) by (intros f; split; [done|]; split; [done|]; split; [done|apply Hb]);
    destruct (isc ch ","); [by split; [apply Hf|]|by destruct (isc ch " ")].
Qed.

Lemma value_loop_ok rest : ∀ p skip hp h, base_ok hp → value_state_ok h = true →
  value_end_ok hp p rest (value_loop max_header_size hp h rest p skip).
Proof.
  induction rest as [|ch rest IH]; intros p skip hp h Hb Hh; cbn [value_loop].
  - split_and!; auto. unfold zlen. cbn. lia.
  - assert (Hnext : ∀ skip hp' h', kept hp hp' → value_state_ok h' = true → value_end_ok hp p (ch :: rest) (value_loop max_header_size hp' h' rest (p + 1) skip)).
    { intros skip' hp' h' (E1 & E2 & Hb') Hh'. specialize (IH (p + 1) skip' hp' h' Hb' Hh'). unfold value_end_ok, kept in *. rewrite zlen_cons.
      destruct (value_loop _ _ _ _ _ _); rewrite ?E1, ?E2 in IH; intuition lia. }
    pose proof (zlen_nonneg rest). destruct skip as [|skip]; [|by apply Hnext; auto].
    destruct (is_CR ch); [split_and!; auto; [lia|rewrite zlen_cons; lia]|].
    destruct (is_LF ch); [split_and!; auto; [lia|rewrite zlen_cons; lia]|].
    destruct (_ && _); [split; [done|]; rewrite zlen_cons; lia|]. destruct (decide _).
    + pose proof (general_run_ok (lenient_http_headers hp) (ch :: rest)) as Hg. destruct (general_run _ _ _); [by apply Hnext; auto|].
      split; [done|]. unfold zlen. lia.
    + pose proof (value_char_ok hp h ch Hb Hh) as Hv. destruct (value_char hp h ch); [by apply Hnext; destruct Hv| |done]. split; [done|]. rewrite zlen_cons. lia.
Qed.

(** ** The steps *)

(** A machine to go on with: at [to], with the marks of that state. *)
Lemma inv_intro n m p : errno (parser m) = HPE_OK → base_ok (parser m) → state_ok n (parser m) →
  marks_ok (mark_of (state (parser m))) m p → inv n m p.
Proof. intros. unfold inv. by split_and!. Qed.

Lemma marks_none k m p : marks_ok None m p → marks_ok k m p.
Proof. intros H w v E. by destruct (H w v E). Qed.

Lemma marks_later k m p q : p <= q → marks_ok k m p → marks_ok k m q.
Proof. intros Hpq H w v E. destruct (H w v E) as [? ?]. split; [done|lia]. Qed.

Lemma do_mark_ok k m p : 0 <= p → marks_ok None m p ∨ marks_ok (Some k) m p → marks_ok (Some k) (do_mark m k p) p.
Proof.
  intros Hp Hm. assert (H : marks_ok (Some k) m p) by (destruct Hm; [by apply marks_none|done]). clear Hm.
  unfold do_mark. destruct (get_mark m k) eqn:E; [done|]. intros w v Hv. destruct (decide (w = k)) as [->|Hne].
  - split; [done|]. destruct k; cbn in Hv; injection Hv as <-; lia.
  - assert (get_mark m w = Some v) as Hw by (by destruct w, k). by apply H.
Qed.

Lemma unmarked_none w m m' p : marks_ok (Some w) m p → unmarked w m m' → marks_ok None m' p.
Proof.
  intros H (_ & E & Ho) v x Hv. destruct (decide (v = w)) as [->|Hne]; [congruence|]. rewrite Ho in Hv by done.
  destruct (H v x Hv) as [[= ->] _]. done.
Qed.

Lemma do_mark_parser m k p : parser (do_mark m k p) = parser m.
Proof. unfold do_mark. destruct (get_mark m k); [done|by destruct k]. Qed.

Lemma marks_upd k m f p : marks_ok k m p → marks_ok k (upd m f) p.
Proof. intros H w v E. apply H. by destruct w. Qed.
Lemma marks_parser k m hp p : marks_ok k m p → marks_ok k (m <| parser := hp |>) p.
Proof. intros H w v E. apply H. by destruct w. Qed.
Lemma marks_events k m es p : marks_ok k m p → marks_ok k (m <| events := es |>) p.
Proof. intros H w v E. apply H. by destruct w. Qed.
#[local] Hint Resolve marks_upd marks_parser marks_events : core.

Lemma advance_ok s p m q : p <= q < len → errno (parser m) = HPE_OK → base_ok (parser m) → state_ok 0 (parser m) →
  marks_ok (mark_of (state (parser m))) m q → flow_ok s p (Advance m q).
Proof. intros. split; [done|]. apply inv_intro; try done. by apply (marks_later _ _ q); [lia|]. Qed.

Lemma reexecute_ok s p m q ch : p <= q < len → errno (parser m) = HPE_OK → base_ok (parser m) → state_ok 1 (parser m) →
  marks_ok (mark_of (state (parser m))) m q → rank (state (parser m)) < rank s → flow_ok s p (Reexecute m q ch).
Proof. intros. split; [done|]. split; [by apply inv_intro|done]. Qed.

Lemma base_intro hp : 0 <= index hp → 0 <= content_length hp <= ULLONG_MAX → base_ok hp.
Proof. done. Qed.

(** The goals that remain of a step: what it leaves is well formed. *)
Ltac cleaned := cbn -[Z.modulo Z.lor ULLONG_MAX u64 flag mark_of rank].
Ltac known := cleaned; repeat match goal with E : parser ?a = _ |- context [parser ?a] => rewrite E; cleaned end;
  repeat match goal with E : state _ = _ |- _ => rewrite E end.
Ltac base := apply base_intro; known; first [done | apply next_index_pos | unfold ULLONG_MAX in *; lia].
Ltac marks_here := known; cbn [mark_of]; repeat first [apply marks_upd | apply marks_events | apply marks_parser]; first [done | by apply marks_none].
Ltac state_here := unfold state_ok; known; try done; try lia.
Ltac leave := first [apply advance_ok | apply reexecute_ok]; [lia|try (known; done)|try base|state_here|try marks_here|..]; try done; try (known; done).
Ltac split_flow := repeat first
  [ apply fail_ok; [lia|done] | apply expect_ok; [lia|]
  | match goal with |- flow_ok _ _ (if ?b then _ else _) => destruct b eqn:? end ].

(** After a mark was set, and after a data callback. *)
Ltac marked := match goal with
  | Hm : marks_ok _ ?m ?p |- context [do_mark ?m ?k ?p] =>
      let Hk := fresh "Hk" in let Ep := fresh "Ep" in
      assert (Hk : marks_ok (Some k) (do_mark m k p) p) by (apply do_mark_ok; [lia|first [by left | by right]]);
      pose proof (do_mark_parser m k p) as Ep; clear Hm; generalize dependent (do_mark m k p); intros ? ? ?
  end.
Ltac called := apply call_data_ok; [lia|];
  let m' := fresh "m" in let Hu := fresh "Hu" in
  intros m' Hu; match type of Hu with unmarked ?w ?m0 _ =>
    match goal with Hm : marks_ok (Some w) ?m1 ?p |- _ =>
      let Hn := fresh "Hn" in let Ep := fresh "Ep" in
      assert (Hn : marks_ok None m' p) by (apply (unmarked_none w m0); [repeat first [apply marks_upd | apply marks_parser]; exact Hm|exact Hu]);
      destruct Hu as (Ep & _); clear Hm
    end end.

Lemma first_method_length ch meth : first_method ch = Some meth → 1 <= zlen (bytes_of_string (method_string meth)).
Proof. unfold first_method. repeat case_match; intros [= <-]; vm_compute; congruence. Qed.

Lemma step_start_ok m p ch : inv 1 m p → 0 <= p < len →
  match state (parser m) with s_start_req_or_res | s_res_or_resp_H | s_start_res => True | _ => False end →
  flow_ok (state (parser m)) p (step_start on m p ch).
Proof.
  intros (He & [Hi Hl] & Hs & Hm) Hp Hst. unfold step_start. destruct (state (parser m)) eqn:Es; try done; cbn [mark_of] in Hm; split_flow.
  all: try (apply notify_ok; [lia|done|]); leave.
Qed.

Lemma step_start_req_ok m p ch : inv 1 m p → 0 <= p < len → state (parser m) = s_start_req → flow_ok (state (parser m)) p (step_start_req on m p ch).
Proof.
  intros (He & [Hi Hl] & Hs & Hm) Hp Es. unfold step_start_req. rewrite Es in *. cbn [mark_of] in Hm. split_flow; [leave|].
  destruct (first_method ch) as [meth|] eqn:Ef; [|by apply fail_ok; [lia|]]. apply notify_ok; [lia|done|]. leave. by apply (first_method_length ch).
Qed.

Lemma step_response_ok m p ch : inv 1 m p → 0 <= p < len →
  match state (parser m) with
  | s_res_H | s_res_HT | s_res_HTT | s_res_HTTP | s_res_http_major | s_res_http_dot | s_res_http_minor | s_res_http_end
  | s_res_first_status_code | s_res_status_code | s_res_status_start | s_res_status | s_res_line_almost_done => True
  | _ => False
  end → flow_ok (state (parser m)) p (step_response on data m p ch).
Proof.
  intros (He & [Hi Hl] & Hs & Hm) Hp Hst. unfold step_response. destruct (state (parser m)) eqn:Es; try done; cbn [mark_of] in Hm; split_flow.
  all: try (marked; leave); try (called; leave); try leave.
Qed.

(** The methods: the next letter is one of the name, or changes the method to one as long. *)
Lemma other_method_length meth pos ch meth' : other_method meth pos ch = Some meth' →
  pos + 1 <= zlen (bytes_of_string (method_string meth')).
Proof.
  unfold other_method. repeat case_match; try done; intros [= <-];
    repeat match goal with H : (_ && _) = true |- _ => apply andb_true_iff in H as [? ?] | H : (_ =? _) = true |- _ => apply Z.eqb_eq in H as -> end;
    vm_compute; congruence.
Qed.

Lemma c_string_at_ok (s : list Z) i : 0 <= i <= zlen s → ∃ w, c_string_at s i = Some w ∧ (w ≠ 0 → i < zlen s).
Proof.
  intros Hi. unfold c_string_at. destruct ((s ++ [0]) !! Z.to_nat i) as [w|] eqn:E.
  - exists w. split; [done|]. intros Hw. destruct (Z.eq_dec i (zlen s)) as [->|]; [|lia]. unfold zlen in E. rewrite Nat2Z.id in E.
    rewrite lookup_app_r, Nat.sub_diag in E by lia. cbn in E. congruence.
  - apply lookup_ge_None in E. rewrite length_app in E. unfold zlen in Hi. cbn in E. lia.
Qed.

Lemma step_method_ok m p ch : inv 1 m p → 0 <= p < len → state (parser m) = s_req_method → flow_ok (state (parser m)) p (step_method m p ch).
Proof.
  intros (He & [Hi Hl] & Hs & Hm) Hp Es. unfold step_method. unfold state_ok in Hs. rewrite Es in *. cbn [mark_of] in Hm.
  destruct (ch =? 0) eqn:E0; [by apply fail_ok; [lia|]|].
  destruct (c_string_at_ok (bytes_of_string (method_string (method (parser m)))) (index (parser m))) as (w & -> & Hw); [lia|].
  assert (Hmod : (index (parser m) + 1) mod 32 <= index (parser m) + 1) by (apply Z.mod_le; lia).
  split_flow; try leave.
  destruct (other_method _ _ _) as [meth|] eqn:Eo; [|by apply fail_ok; [lia|]]. leave. cbn -[Z.modulo].
  pose proof (other_method_length _ _ _ _ Eo). lia.
Qed.

Lemma parse_url_mark s ch : parse_url_char s ch ≠ s_dead → mark_of (parse_url_char s ch) = Some url.
Proof. unfold parse_url_char. repeat case_match; done. Qed.

Lemma parse_url_state n s ch hp : state_ok n (hp <| state := parse_url_char s ch |>).
Proof. unfold state_ok. cbn. unfold parse_url_char. repeat case_match; done. Qed.

Lemma url_char_ok s p m ch : 0 <= p < len → errno (parser m) = HPE_OK → base_ok (parser m) → marks_ok (Some url) m p →
  flow_ok s p (url_char m p ch).
Proof.
  intros Hp He [Hi Hl] Hm. unfold url_char. case_decide as Hd; [by apply fail_ok; [lia|]|].
  apply advance_ok; [lia|done|base|apply parse_url_state|]. cbn [to_state upd parser state set_field]. cbn. rewrite parse_url_mark by done. by apply marks_upd.
Qed.

Lemma step_url_ok m p ch : inv 1 m p → 0 <= p < len →
  match state (parser m) with
  | s_req_spaces_before_url | s_req_schema | s_req_schema_slash | s_req_schema_slash_slash | s_req_server_start | s_req_server
  | s_req_server_with_at | s_req_path | s_req_query_string_start | s_req_query_string | s_req_fragment_start | s_req_fragment => True
  | _ => False
  end → flow_ok (state (parser m)) p (step_url on data m p ch).
Proof.
  intros (He & [Hi Hl] & Hs & Hm) Hp Hst. unfold step_url. destruct (state (parser m)) eqn:Es; try done; cbn [mark_of] in Hm; split_flow;
    try (by apply url_char_ok); try (destruct (is_CR ch); called; leave); try leave.
  marked. apply url_char_ok; [done|..]; case_decide; known; try done; try base.
Qed.

Lemma step_version_ok m p ch : inv 1 m p → 0 <= p < len →
  match state (parser m) with
  | s_req_http_start | s_req_http_H | s_req_http_HT | s_req_http_HTT | s_req_http_HTTP | s_req_http_I | s_req_http_IC | s_req_http_major
  | s_req_http_dot | s_req_http_minor | s_req_http_end | s_req_line_almost_done => True
  | _ => False
  end → flow_ok (state (parser m)) p (step_version m p ch).
Proof.
  intros (He & [Hi Hl] & Hs & Hm) Hp Hst. unfold step_version. destruct (state (parser m)) eqn:Es; try done; cbn [mark_of] in Hm; split_flow; leave.
Qed.

(** *** Headers *)

Lemma field_start_state c : field_state_ok (field_state c) = true.
Proof. unfold field_state. by repeat case_match. Qed.

Lemma step_field_start_ok m p ch : inv 1 m p → 0 <= p < len → state (parser m) = s_header_field_start →
  flow_ok (state (parser m)) p (step_field_start m p ch).
Proof.
  intros (He & [Hi Hl] & Hs & Hm) Hp Es. unfold step_field_start. rewrite Es in *. cbn [mark_of] in Hm. split_flow; try marked; leave.
  apply field_start_state.
Qed.

Lemma zlen_rest p : 0 <= p < len → zlen (zdrop p data) = len - p.
Proof. intros Hp. unfold HttpParser.len in *. rewrite zlen_zdrop by lia. lia. Qed.

Lemma step_field_ok m p ch : inv 1 m p → 0 <= p < len → state (parser m) = s_header_field →
  flow_ok (state (parser m)) p (step_field on max_header_size data m p ch).
Proof.
  intros (He & Hb & Hs & Hm) Hp Es. unfold step_field. unfold state_ok in Hs. rewrite Es in *. cbn [mark_of] in Hm.
  destruct (field_loop_ok (zdrop p data) p 0 (parser m) Hb Hs) as (hp & q & r & -> & (E1 & E2 & [Hi Hl]) & Hf & Hq). rewrite zlen_rest in Hq by done.
  rewrite Es in E2. rewrite He in E1. assert (Hm' : ∀ x, p <= x → marks_ok (Some header_field) m x) by (intros; by apply (marks_later _ _ p)).
  destruct r; (apply count_ok; [lia|]); intros n.
  - split_flow. specialize (Hm' q ltac:(lia)). called. leave.
  - specialize (Hm' (q - 1) ltac:(lia)). leave.
Qed.

Lemma IS_NUM_range ch : IS_NUM ch = true → 48 <= ch <= 57.
Proof. unfold IS_NUM, HttpParser.between. rewrite andb_true_iff, !Z.leb_le. lia. Qed.

Lemma step_value_start_ok m p ch s : inv 1 m p → 0 <= p < len → mark_of (state (parser m)) = None →
  flow_ok s p (step_value_start m p ch).
Proof.
  intros (He & [Hi Hl] & Hs & Hm) Hp Es. unfold step_value_start. rewrite Es in Hm. marked.
  match goal with |- context [header_state (parser (upd (to_state ?x _) _))] => 
    change (header_state (parser (upd (to_state x s_header_value) (λ hp, hp <|index := 0|>)))) with (header_state (parser x)); destruct (header_state (parser x)) eqn:Eh end; split_flow; leave;
    try (by repeat case_match); try (by rewrite <- Ep, Eh).
  apply negb_false_iff, IS_NUM_range in Heqb. base.
Qed.

Lemma step_value_ok m p ch : inv 1 m p → 0 <= p < len → state (parser m) = s_header_value →
  flow_ok (state (parser m)) p (step_value on max_header_size data m p ch).
Proof.
  intros (He & Hb & Hs & Hm) Hp Es. unfold step_value. unfold state_ok in Hs. rewrite Es in *. cbn [mark_of] in Hm.
  pose proof (value_loop_ok (zdrop p data) p 0 (parser m) _ Hb Hs) as Hv. unfold value_end_ok, kept in Hv. rewrite zlen_rest, He, Es in Hv by done.
  assert (Hm' : ∀ x, p <= x → marks_ok (Some header_value) m x) by (intros; by apply (marks_later _ _ p)).
  destruct (value_loop _ _ _ _ _ _) as [hp h q|hp h q|hp h q|hp e q|]; [| | | |done];
    [destruct Hv as ((E1 & E2 & [Hi Hl]) & Hh & Hq)..|destruct Hv; apply fail_ok; [lia|done]].
  - specialize (Hm' q ltac:(lia)). called. apply count_ok; [lia|]. intros n. leave.
  - specialize (Hm' q ltac:(lia)). apply count_ok; [lia|]. intros n. called. leave.
  - specialize (Hm' (q - 1) ltac:(lia)). apply count_ok; [lia|]. intros n. leave.
Qed.

Lemma header_flags_other hp : errno (header_flags hp) = errno hp ∧ index (header_flags hp) = index hp ∧ content_length (header_flags hp) = content_length hp.
Proof. unfold header_flags. by destruct (header_state hp). Qed.

Lemma step_value_end_ok m p ch : inv 1 m p → 0 <= p < len →
  match state (parser m) with
  | s_header_value_discard_ws | s_header_value_discard_ws_almost_done | s_header_value_discard_lws | s_header_value_lws
  | s_header_almost_done => True
  | _ => False
  end → flow_ok (state (parser m)) p (step_value_end on data m p ch).
Proof.
  intros Hinv Hp Hst. pose proof Hinv as (He & [Hi Hl] & Hs & Hm). unfold step_value_end. destruct (header_flags_other (parser m)) as (F1 & F2 & F3).
  destruct (state (parser m)) eqn:Es; try done; cbn [mark_of] in Hm; split_flow;
    try (by apply step_value_start_ok; rewrite ?Es);
    lazymatch goal with
    | |- context [do_mark (upd m header_flags)] => assert (Hm' : marks_ok None (upd m header_flags) p) by auto; clear Hm; marked; called; leave
    | |- _ => leave
    end; try (known; rewrite ?F1; done); cbn; case_decide; first [done | base].
Qed.

(** *** The end of the headers, and bodies *)

Lemma step_headers_almost_done_ok m p ch : inv 1 m p → 0 <= p < len → state (parser m) = s_headers_almost_done →
  flow_ok (state (parser m)) p (step_headers_almost_done on m p ch).
Proof.
  intros (He & [Hi Hl] & Hs & Hm) Hp Es. unfold step_headers_almost_done. rewrite Es in *. cbn [mark_of] in Hm. split_flow.
  1: apply notify_ok; [lia|done|].
  all: try leave. by apply return_error; [lia|].
Qed.

Lemma new_message_ok s p m q k : 0 <= p → p <= q < len → errno (parser m) = HPE_OK → base_ok (parser m) → marks_ok None m q →
  (∀ m', errno (parser m') = HPE_OK → upgrade (parser m') = upgrade (parser m) → base_ok (parser m') → (∀ n, state_ok n (parser m')) → marks_ok (mark_of (state (parser m'))) m' q → flow_ok s p (k m')) →
  flow_ok s p (message_complete on m q k).
Proof.
  intros Hp Hq He [Hi Hl] Hm Hk. unfold message_complete. apply notify_ok; [lia|done|]. apply Hk.
  - done.
  - done.
  - base.
  - intros n. unfold state_ok, new_message, NEW_MESSAGE, start_state. cbn. by repeat case_match.
  - by apply marks_none, marks_events, marks_upd.
Qed.

Lemma step_headers_done_ok m p ch : inv 1 m p → 0 <= p < len → state (parser m) = s_headers_done →
  flow_ok (state (parser m)) p (step_headers_done on m p ch).
Proof.
  intros (He & [Hi Hl] & Hs & Hm) Hp Es. unfold step_headers_done. rewrite Es in *. cbn [mark_of] in Hm. split_flow.
  all: try (apply new_message_ok; [lia|lia|done|base|by apply marks_upd|]; intros m' He' Hu' Hb' Hs' Hm';
    first [by apply advance_ok; [lia|..] | split; [lia|]; split; [by right|]; right; right; rewrite Hu'; by apply andb_true_iff in Heqb as [? _]]).
  all: try (by apply return_error; [lia|]).
  all: leave. cbn -[ULLONG_MAX] in Heqb3, Heqb4. lia.
Qed.

(** The part of a body in this data: not empty, and within the data. *)
Ltac body_length :=
  match goal with Hl : 0 <= content_length (parser ?m) <= _ |- context [Z.min (content_length (parser ?m)) (?l - ?p)] =>
    replace (negb (negb (content_length (parser m) =? 0) && negb (content_length (parser m) =? ULLONG_MAX))) with false by lia;
    let r := fresh "r" in let Er := fresh "Er" in let Hr := fresh "Hr" in
    remember (Z.min (content_length (parser m)) (l - p)) as r eqn:Er;
    assert (Hr : 0 < r <= content_length (parser m) ∧ r <= l - p) by lia; marked;
    match goal with Hk : marks_ok _ _ p |- _ => apply (marks_later _ _ _ (p + (r - 1))) in Hk; [|lia] end
  end.

Lemma step_chunk_data_ok m p ch : inv 1 m p → 0 <= p < len →
  match state (parser m) with
  | s_chunk_data | s_chunk_data_almost_done | s_chunk_data_done => True
  | _ => False
  end → flow_ok (state (parser m)) p (step_chunk_data on data m p ch).
Proof.
  intros (He & [Hi Hl] & Hs & Hm) Hp Hst. unfold step_chunk_data, state_ok in *.
  destruct (state (parser m)) eqn:Es; try done; cbn [mark_of] in Hm.
  - destruct Hs as [Hf Hc]. rewrite Hf. cbn [negb orb]. body_length.
    destruct (_ =? 0) eqn:Ez; cbn -[ULLONG_MAX] in Ez; rewrite ?Ep in Ez; leave; (split; [done|lia]).
  - destruct Hs as [Hf Hc]. rewrite Hf, Hc. cbn [negb orb Z.eqb]. split_flow. called. leave.
  - rewrite Hs. cbn [negb]. split_flow. apply notify_ok; [lia|done|]. leave.
Qed.

Lemma step_body_ok m p ch : inv 1 m p → 0 <= p < len →
  match state (parser m) with s_body_identity | s_body_identity_eof | s_message_done => True | _ => False end →
  flow_ok (state (parser m)) p (step_body on data m p ch).
Proof.
  intros (He & [Hi Hl] & Hs & Hm) Hp Hst. unfold step_body, state_ok in *.
  destruct (state (parser m)) eqn:Es; try done; cbn [mark_of] in Hm.
  - body_length. destruct (_ =? 0) eqn:Ez; cbn -[ULLONG_MAX] in Ez; rewrite ?Ep in Ez; [called|]; leave.
  - marked. apply (marks_later _ _ _ (len - 1)) in Hk; [|lia]. leave.
  - apply new_message_ok; [lia|lia|done|done|done|]. intros m' He' Hu' Hb' Hs' Hm'. destruct (upgrade (parser m')) eqn:Eu.
    + split; [lia|]. split; [by right|]. right. by right.
    + by apply advance_ok; [lia|..].
Qed.

Lemma unhex_range ch : -1 <= unhex ch <= 15.
Proof. unfold unhex, IS_NUM, HttpParser.between. repeat case_match; lia. Qed.

Lemma chunk_size_bound c x : 0 <= c → ((ULLONG_MAX - 16) / 16 <? c) = false → 0 <= x <= 15 → 0 <= u64 (u64 (c * 16) + x) < ULLONG_MAX.
Proof.
  intros Hc Hlt Hx. apply Z.ltb_ge in Hlt. assert (c * 16 <= ULLONG_MAX - 16) by (pose proof (Z.mul_div_le (ULLONG_MAX - 16) 16); lia).
  unfold ULLONG_MAX in *. rewrite (u64_small (c * 16)), u64_small by lia. lia.
Qed.

Lemma step_chunk_ok m p ch : inv 1 m p → 0 <= p < len →
  match state (parser m) with s_chunk_size_start | s_chunk_size | s_chunk_parameters | s_chunk_size_almost_done => True | _ => False end →
  flow_ok (state (parser m)) p (step_chunk on m p ch).
Proof.
  intros (He & [Hi Hl] & Hs & Hm) Hp Hst. pose proof (unhex_range ch) as Hx. unfold step_chunk, state_ok in *.
  destruct (state (parser m)) eqn:Es; try done; cbn [mark_of] in Hm; destruct Hs as [Hf Hn]; rewrite Hf; cbn [negb].
  - rewrite Hn. cbn [negb Z.eqb Pos.eqb]. split_flow. leave. split; [done|unfold ULLONG_MAX; lia].
  - split_flow; try leave; try done.
    all: assert (Hb : 0 <= unhex ch <= 15) by lia; pose proof (chunk_size_bound (content_length (parser m)) _ ltac:(lia) Heqb1 Hb).
    + base.
    + split; [done|lia].
  - split_flow; leave; done.
  - split_flow. apply notify_ok; [lia|done|]. destruct (content_length (parser m) =? 0) eqn:Ez; leave. split; [done|lia].
Qed.

(** *** Every step *)

Lemma step_ok m p ch : inv 1 m p → 0 <= p < len → flow_ok (state (parser m)) p (step on max_header_size data m p ch).
Proof.
  intros Hinv Hp. unfold step. destruct (state (parser m)) eqn:Es; rewrite <- Es;
    first [ apply step_start_ok; [done|done|by rewrite Es] | by apply step_start_req_ok | apply step_response_ok; [done|done|by rewrite Es] | by apply step_method_ok
          | apply step_url_ok; [done|done|by rewrite Es] | apply step_version_ok; [done|done|by rewrite Es] | by apply step_field_start_ok
          | by apply step_field_ok | apply step_value_start_ok; [done|done|by rewrite Es] | by apply step_value_ok
          | apply step_value_end_ok; [done|done|by rewrite Es] | by apply step_headers_almost_done_ok | by apply step_headers_done_ok
          | apply step_body_ok; [done|done|by rewrite Es] | apply step_chunk_data_ok; [done|done|by rewrite Es] | apply step_chunk_ok; [done|done|by rewrite Es] | idtac ].
  destruct Hinv as (He & [Hi Hl] & Hs & Hm). rewrite Es in Hm. cbn [mark_of] in Hm. split_flow. rewrite Es. leave.
Qed.

(** ** The loop *)

Definition result_ok (r : run_result) : Prop :=
  match r with Done hp es n => parser_ok hp ∧ 0 <= n <= len ∧ stopped hp n | _ => False end.

Lemma u32_one : u32 (0 + u32 1) = 1.
Proof. done. Qed.

(** A character is counted where a header is parsed, and then looked at. *)
Lemma counted_step_ok m p ch : inv 0 m p → 0 <= p < len →
  flow_ok (state (parser m)) p
    (if PARSING_HEADER (state (parser m)) then COUNT_HEADER_SIZE max_header_size m 1 p (λ m, step on max_header_size data m p ch)
     else step on max_header_size data m p ch).
Proof.
  intros (He & [Hi Hl] & Hs & Hm) Hp. destruct (PARSING_HEADER _) eqn:Eh.
  - unfold COUNT_HEADER_SIZE. split_flow.
    change (state (parser m)) with (state (parser (upd m (λ hp, hp <| nread := u32 (nread hp + u32 1) |>)))). apply step_ok; [|done].
    apply inv_intro; [done|base| |by apply marks_upd]. unfold state_ok in *. cbn -[flag u32] in *.
    destruct (state (parser m)); try done. destruct Hs as [Hf ->]. by rewrite u32_one.
  - apply step_ok; [|done]. apply inv_intro; try done. unfold state_ok in *. by destruct (state (parser m)).
Qed.

Lemma call_data_final m w n ret k : ret = len → parser_ok (parser m) →
  (∀ m', unmarked w m m' → ∃ m'' r, k m' = Return m'' r ∧ result_ok (Done (parser m'') (events m'') r)) →
  ∃ m'' r, call_data on data m w n ret k = Return m'' r ∧ result_ok (Done (parser m'') (events m'') r).
Proof.
  intros -> Hok Hk. unfold call_data, notify. destruct (get_mark m w) eqn:E; [|by apply Hk].
  destruct (_ =? 0).
  - apply Hk. split; [by destruct w|]. split; [by destruct w|]. intros v Hv. by destruct v, w.
  - eexists _, _. split; [reflexivity|]. pose proof (zlen_nonneg data). split; [left; apply mark_errno_not_ok|]. split; [done|]. by left.
Qed.

Lemma marks_one k m p : marks_ok k m p →
  (sum_list (map (λ w, if get_mark m w then 1%nat else 0%nat) [header_field; header_value; url; body; status]) <= 1)%nat.
Proof.
  intros Hm. assert (H : ∀ w, get_mark m w = None ∨ k = Some w).
  { intros w. destruct (get_mark m w) as [v|] eqn:E; [right; by destruct (Hm w v E)|by left]. }
  pose proof (H header_field) as [H1|H1]; pose proof (H header_value) as [H2|H2]; pose proof (H url) as [H3|H3];
  pose proof (H body) as [H4|H4]; pose proof (H status) as [H5|H5]; try congruence; cbn [map sum_list]; rewrite ?H1, ?H2, ?H3, ?H4, ?H5; repeat case_match; cbn; lia.
Qed.

Lemma finish_ok m : inv 0 m len → result_ok (finish on data m).
Proof.
  intros (He & Hb & Hs & Hm). unfold finish. pose proof (marks_one _ _ _ Hm) as H1. destruct (_ <? _)%nat eqn:E; [apply Nat.ltb_lt in E; lia|].
  assert (Hok : parser_ok (parser m)) by (by right).
  match goal with |- result_ok (match ?f with _ => _ end) => assert (Hf : ∃ m'' r, f = Return m'' r ∧ result_ok (Done (parser m'') (events m'') r)) end.
  { repeat (apply call_data_final; [done|congruence|]; intros ? (? & _)). eexists _, _. split; [reflexivity|].
    split; [congruence|]. pose proof (zlen_nonneg data). split; [done|]. by left. }
  destruct Hf as (m'' & r & -> & Hr). exact Hr.
Qed.

Lemma rank_range s : 0 <= rank s <= 4.
Proof. by destruct s. Qed.

(** The fuel that is enough from a position: five for every character that is left, as a character is looked at
    again only in states of a smaller rank. *)
Definition fuel_for m (p : Z) (again : option Z) : Z :=
  match again with None => 5 * (len - p) + 1 | Some _ => 5 * (len - p - 1) + 2 + rank (state (parser m)) end.

Lemma run_loop_ok fuel : ∀ m p again,
  match again with None => inv 0 m p ∧ 0 <= p <= len | Some _ => inv 1 m p ∧ 0 <= p < len end →
  fuel_for m p again <= Z.of_nat fuel → result_ok (run_loop on max_header_size data fuel m p again).
Proof.
  induction fuel as [|fuel IH]; intros m p again Hinv Hfuel.
  - exfalso. unfold fuel_for in Hfuel. destruct again; [pose proof (rank_range (state (parser m)))|]; lia.
  - assert (Hleave : ∀ f, 0 <= p < len → flow_ok (state (parser m)) p f → 5 * (len - p - 1) + 1 + rank (state (parser m)) <= Z.of_nat fuel →
      result_ok (match f with Advance m p => run_loop on max_header_size data fuel m (p + 1) None
                 | Reexecute m p ch => run_loop on max_header_size data fuel m p (Some ch) | Return m n => Done (parser m) (events m) n
                 | Error m p => Done (parser m) (events m) p | Aborted => Failed end)).
    { intros f Hp Hf Hn. pose proof (rank_range (state (parser m))). destruct f as [m' q|m' q ch|m' n|m' q|]; [| | | |done].
      - destruct Hf as [Hq Hi]. apply IH; [split; [done|lia]|]. unfold fuel_for. lia.
      - destruct Hf as (Hq & Hi & Hr). apply IH; [split; [done|lia]|]. unfold fuel_for. lia.
      - destruct Hf as (Hn' & Hok & Hst). split; [done|by split].
      - destruct Hf as [Hq He]. split; [by left|]. split; [done|]. right. by left. }
    unfold fuel_for in Hfuel. cbn [run_loop]. destruct again as [ch|]; destruct Hinv as [Hinv Hp].
    + apply Hleave; [done|by apply step_ok|lia].
    + destruct (decide (p = len)) as [->|Hne].
      * rewrite zdrop_all by (unfold HttpParser.len; lia). by apply finish_ok.
      * assert (Hlen : zlen (zdrop p data) = len - p) by (apply zlen_rest; lia). destruct (zdrop p data) as [|ch rest] eqn:Ed; [rewrite zlen_nil in Hlen; lia|].
        pose proof (rank_range (state (parser m))). apply Hleave; [lia|apply counted_step_ok; [done|lia]|lia].
Qed.

Lemma initial_ok hp : errno hp = HPE_OK → base_ok hp → state_ok 0 hp → inv 0 (initial_machine hp) 0.
Proof.
  intros He Hb Hs. apply inv_intro; [done..|]. intros w v. cbn. destruct w; cbn; repeat case_bool_decide; try done;
    destruct (state hp); try done; by intros [= <-].
Qed.

Lemma execute_ok hp : parser_ok hp →
  ∃ hp' es n, http_parser_execute on max_header_size data hp = Done hp' es n ∧ parser_ok hp' ∧ 0 <= n <= Z.max len 1 ∧ stopped hp' n.
Proof.
  intros Hok. unfold http_parser_execute. case_bool_decide as He; cbn [negb].
  - destruct Hok as [|[Hb Hs]]; [done|]. destruct (Z.eqb_spec len 0) as [El|El].
    + destruct (state hp) eqn:Es; try (eexists _, _, _; split; [reflexivity|]; split; [by left|]; split; [lia|]; right; by left);
        try (eexists _, _, _; split; [reflexivity|]; split; [right; split; [done|by unfold state_ok; rewrite Es]|]; split; [lia|by left]).
      destruct (_ =? 0); eexists _, _, _; (split; [reflexivity|]); (split; [first [by left | right; split; [done|by unfold state_ok; rewrite Es]]|]); (split; [lia|by left]).
    + pose proof (run_loop_ok (run_fuel data) (initial_machine hp) 0 None) as H. pose proof (zlen_nonneg data).
      destruct (run_loop _ _ _ _ _ _) as [hp' es n| |]; [|exfalso; apply H; [split; [by apply initial_ok|]|]..].
      { destruct H as (H1 & H2 & H3); [split; [by apply initial_ok|]| |]; [unfold HttpParser.len in *; lia| |].
        - unfold fuel_for, run_fuel, HttpParser.len, zlen. lia.
        - exists hp', es, n. split_and!; try done; lia. }
      all: unfold fuel_for, run_fuel, HttpParser.len, zlen in *; lia.
  - eexists _, _, _. split; [reflexivity|]. split; [by left|]. split; [lia|]. right. by left.
Qed.
End Safe.

(** ** Any connection *)

(** The parsers a connection can have: a new one, or what a call on any data leaves, whatever its callbacks. *)
Inductive reachable : http_parser → Prop :=
| reach_init t : reachable (http_parser_init t)
| reach_execute on max_header_size data hp hp' es n : reachable hp →
    http_parser_execute on max_header_size data hp = Done hp' es n → reachable hp'.

Lemma reachable_ok hp : reachable hp → parser_ok hp.
Proof.
  induction 1 as [t|on max_header_size data hp hp' es n _ IH E].
  - right. split; [split; cbn; [lia|unfold ULLONG_MAX; lia]|]. by destruct t.
  - destruct (execute_ok on max_header_size data hp IH) as (hp1 & es1 & n1 & E1 & Hok & _). congruence.
Qed.

(** C24: whatever a connection has received before and whatever bytes it receives now, [http_parser_execute] returns: it
    does not loop, none of its assertions fails and it reads neither its tables nor the data outside their range.
    It returns a position in the data (or 1 for an empty one), and stops before the end only when it reports an
    error or the connection is upgraded. *)
Theorem parser_returns on max_header_size data hp : reachable hp →
  ∃ hp' es n, http_parser_execute on max_header_size data hp = Done hp' es n ∧ reachable hp' ∧
    0 <= n <= Z.max (zlen data) 1 ∧ (n = zlen data ∨ errno hp' ≠ HPE_OK ∨ upgrade hp' = true).
Proof.
  intros Hr. destruct (execute_ok on max_header_size data hp (reachable_ok _ Hr)) as (hp' & es & n & E & Hok & Hn & Hs).
  exists hp', es, n. split; [done|]. split; [by eapply reach_execute|]. by split.
Qed.

(** A request that comes in two parts: the second finds the parser as the first left it. *)
Lemma parser_returns_witness :
  ∃ hp' es n, http_parser_execute (λ _ _, 0) HTTP_MAX_HEADER_SIZE (bytes_of_string " HTTP/1.1")
      (match http_parser_execute (λ _ _, 0) HTTP_MAX_HEADER_SIZE (bytes_of_string "GET /index") (http_parser_init HTTP_REQUEST) with
       | Done hp _ _ => hp | _ => http_parser_init HTTP_REQUEST end) = Done hp' es n ∧ reachable hp' ∧
    0 <= n <= Z.max (zlen (bytes_of_string " HTTP/1.1")) 1 ∧ (n = zlen (bytes_of_string " HTTP/1.1") ∨ errno hp' ≠ HPE_OK ∨ upgrade hp' = true).
Proof.
  apply parser_returns. eapply (reach_execute (λ _ _, 0) HTTP_MAX_HEADER_SIZE (bytes_of_string "GET /index") (http_parser_init HTTP_REQUEST));
    [apply reach_init|vm_compute; reflexivity].
Defined.

(** A paused parser does nothing, whatever it is given, and goes on where it was. *)
Theorem paused_parser_waits on max hp data : errno hp = HPE_OK →
  ∃ hp', http_parser_pause hp true = Ok hp' ∧ http_parser_execute on max data hp' = Done hp' [] 0 ∧ http_parser_pause hp' false = Ok hp.
Proof.
  intros He. unfold http_parser_pause. rewrite He, bool_decide_true by done. cbn [orb]. eexists. split; [done|]. split.
  - unfold http_parser_execute. cbn [errno]. done.
  - cbn. f_equal. destruct hp; cbn in *. by subst.
Qed.
