(* ===== verification/HttpRequest.v ===== *)
(** * Requests through the HTTP parser

    What [http_parser_execute] does with the text of a request: the callbacks it makes and the position it returns,
    for every method but CONNECT, every path, any headers that do not frame the message, and a body that may still be
    incomplete.  This discharges what HttpFormat.v assumes of its parser. *)

From Stdlib Require Import ZArith Lia.
From S2P Require Import Prelude Define HttpFormat HttpParser HttpParserFacts.
From stdpp Require Import base numbers list gmap strings.
Local Open Scope Z_scope.

Implicit Types (hp : http_parser) (m : machine).

Section Request.
Context (data : list Z).
Notation on := (λ _ _, 0).
Notation loop := (run_loop on HTTP_MAX_HEADER_SIZE data).
Notation step := (step on HTTP_MAX_HEADER_SIZE data).

(** ** Progress *)

(** The loop gets from one position to another. *)
Definition steps m (p : Z) m' (p' : Z) : Prop := ∃ k, ∀ fuel, loop (k + fuel) m p None = loop fuel m' p' None.

Lemma steps_refl m p : steps m p m p.
Proof. by exists 0%nat. Qed.

Lemma steps_trans m p m1 p1 m2 p2 : steps m p m1 p1 → steps m1 p1 m2 p2 → steps m p m2 p2.
Proof. intros [k1 H1] [k2 H2]. exists (k1 + k2)%nat. intros fuel. by rewrite <- Nat.add_assoc, H1, H2. Qed.

(** More fuel does not change a result. *)
Lemma loop_more fuel : ∀ m p again extra, loop fuel m p again ≠ OutOfFuel → loop (fuel + extra) m p again = loop fuel m p again.
Proof.
  induction fuel as [|fuel IH]; intros m p again extra H; [done|]. cbn [Nat.add run_loop] in *.
  destruct again as [ch|].
  - destruct (HttpParser.step _ _ _ _ _ _); try done; by apply IH.
  - destruct (zdrop p data) as [|ch rest]; [done|]. destruct (if PARSING_HEADER _ then _ else _); try done; by apply IH.
Qed.

Lemma steps_result fuel m p m' p' fuel' : steps m p m' p' → loop fuel m p None ≠ OutOfFuel → loop fuel' m' p' None ≠ OutOfFuel →
  loop fuel m p None = loop fuel' m' p' None.
Proof.
  intros [k Hk] H1 H2. rewrite <- (loop_more fuel m p None (k + fuel')) by done. rewrite <- (loop_more fuel' m' p' None fuel) by done.
  rewrite <- (Hk (fuel' + fuel)%nat). f_equal. lia.
Qed.

(** A machine without marks, and one with a mark. *)
Definition ready hp (es : list http_event) : machine := mkMachine hp None None None None None es.
Definition marked (k : mark) (v : Z) hp (es : list http_event) : machine := set_mark (ready hp es) k (Some v).

(** A parser in the middle of the headers of a plain request: in the state [s], with [n] header bytes counted, the body
    length [cl], and the headers [fl] read that matter for what follows the head. *)
Record framing := mkFraming {
  f_length : bool;                         (* the length of the body *)
  f_upgrade : bool;                        (* a protocol to upgrade to *)
  f_asked : bool;                          (* the connection is asked to upgrade, at least *)
}.
Definition no_framing : framing := mkFraming false false false.
Definition length_framing : framing := mkFraming true false false.

Record quiet (fl : framing) (f : Z) : Prop := {
  q_others : Z.land f 81 = 0;
  q_length : negb (Z.land f F_CONTENTLENGTH =? 0) = f_length fl;
  q_upgrade : negb (Z.land f F_UPGRADE =? 0) = f_upgrade fl;
  q_asked : f_asked fl = true → Z.land f F_CONNECTION_UPGRADE ≠ 0;
}.
Record calm (s : pstate) (n cl : Z) (fl : framing) hp : Prop := {
  c_state : state hp = s;
  c_nread : nread hp = n;
  c_errno : errno hp = HPE_OK;
  c_type : type hp = HTTP_REQUEST;
  c_method : method hp ≠ HTTP_CONNECT;
  c_lenient : lenient_http_headers hp = false;
  c_encoding : uses_transfer_encoding hp = false;
  c_length : content_length hp = cl;
  c_flags : quiet fl (flags hp);
  c_upgrade : upgrade hp = false;
}.

Definition counted hp : http_parser := hp <| nread := nread hp + 1 |>.

Lemma calm_counted s n cl fl hp : calm s n cl fl hp → calm s (n + 1) cl fl (counted hp).
Proof. intros []. split; cbn; congruence. Qed.

Lemma calm_state s s' n cl fl hp : calm s n cl fl hp → calm s' n cl fl (hp <| state := s' |>).
Proof. by intros []. Qed.

(** A machine that looks at the next character: in a header it is counted. *)
Definition look m : machine := if PARSING_HEADER (state (parser m)) then upd m counted else m.
Definition room m : Prop := PARSING_HEADER (state (parser m)) = true → 0 <= nread (parser m) < HTTP_MAX_HEADER_SIZE.

Lemma look_flow m p ch : room m →
  (if PARSING_HEADER (state (parser m)) then COUNT_HEADER_SIZE HTTP_MAX_HEADER_SIZE m 1 p (λ m, step m p ch) else step m p ch) = step (look m) p ch.
Proof.
  unfold look, room. intros Hn. destruct (PARSING_HEADER _); [|done]. specialize (Hn eq_refl). unfold COUNT_HEADER_SIZE.
  assert (E : upd m (λ hp, hp <| nread := u32 (nread hp + u32 1) |>) = upd m counted).
  { unfold upd, counted. change (u32 1) with 1. rewrite u32_small; [done|]. unfold HTTP_MAX_HEADER_SIZE in Hn. lia. }
  by rewrite E, (proj2 (Z.ltb_ge _ _)) by (cbn; lia).
Qed.

(** A character, looked at once or twice. *)
Lemma look_step m p ch rest m' q : zdrop p data = ch :: rest → room m → step (look m) p ch = Advance m' q → steps m p m' (q + 1).
Proof. intros Ed Hn Hs. exists 1%nat. intros fuel. cbn [Nat.add run_loop]. by rewrite Ed, look_flow, Hs. Qed.

Lemma look_twice m p ch rest m1 q1 ch1 m2 q2 : zdrop p data = ch :: rest → room m → step (look m) p ch = Reexecute m1 q1 ch1 →
  step m1 q1 ch1 = Advance m2 q2 → steps m p m2 (q2 + 1).
Proof. intros Ed Hn H1 H2. exists 2%nat. intros fuel. cbn [Nat.add run_loop]. by rewrite Ed, look_flow, H1, H2. Qed.

(** One character of a header. *)
Lemma header_step m p ch rest m' q : zdrop p data = ch :: rest → PARSING_HEADER (state (parser m)) = true →
  0 <= nread (parser m) < HTTP_MAX_HEADER_SIZE → step (upd m counted) p ch = Advance m' q → steps m p m' (q + 1).
Proof. intros Ed Hh Hn Hs. eapply look_step; [done|by intros _|]. unfold look. by rewrite Hh. Qed.

Lemma rest_next p ch rest : 0 <= p → zdrop p data = ch :: rest → zdrop (p + 1) data = rest.
Proof. intros Hp E. rewrite <- zdrop_zdrop, E by lia. done. Qed.

Lemma rest_app p l rest : 0 <= p → zdrop p data = l ++ rest → zdrop (p + zlen l) data = rest.
Proof. intros Hp E. rewrite <- zdrop_zdrop, E by (pose proof (zlen_nonneg l); lia). by apply zdrop_app_eq. Qed.

(** A character that only changes the state. *)
Lemma state_step s s' n cl fl hp es p ch rest : calm s n cl fl hp → zdrop p data = ch :: rest → PARSING_HEADER s = true →
  0 <= n < HTTP_MAX_HEADER_SIZE → step (ready (counted hp) es) p ch = Advance (to_state (ready (counted hp) es) s') p →
  calm s' (n + 1) cl fl (counted hp <| state := s' |>) ∧ steps (ready hp es) p (ready (counted hp <| state := s' |>) es) (p + 1).
Proof.
  intros Hc Ed Hh Hn Hs. split; [by eapply calm_state, calm_counted|]. eapply header_step; [done|cbn; by rewrite (c_state _ _ _ _ _ Hc)| |exact Hs].
  cbn. by rewrite (c_nread _ _ _ _ _ Hc).
Qed.

(** The callback with the text from a mark. *)
Lemma upd_marked k v hp es f : upd (marked k v hp es) f = marked k v (f hp) es.
Proof. by destruct k. Qed.

Lemma call_marked k v hp es n ret K d rest : zdrop v data = d ++ rest → n = zlen d →
  call_data on data (marked k v hp es) k n ret K = K (ready hp (es ++ [mark_event k d])).
Proof.
  intros Ed En. unfold call_data, notify. assert (get_mark (marked k v hp es) k = Some v) as -> by (by destruct k).
  cbn [Z.eqb]. rewrite Ed, ztake_app_eq by done. by destruct k.
Qed.

Lemma callback_marked k v hp es q K d rest : zdrop v data = d ++ rest → q - v = zlen d →
  CALLBACK_DATA on data (marked k v hp es) k q K = K (ready hp (es ++ [mark_event k d])) ∧
  CALLBACK_DATA_NOADVANCE on data (marked k v hp es) k q K = K (ready hp (es ++ [mark_event k d])).
Proof.
  intros Ed En. assert (mark_length (marked k v hp es) k q = zlen d) as Em by (by destruct k).
  split; (unfold CALLBACK_DATA, CALLBACK_DATA_NOADVANCE; rewrite Em; by eapply call_marked).
Qed.

(** ** The request line *)

(** The parser while it reads a method. *)
Definition in_method (meth : http_method) (i n : Z) : http_parser :=
  mkParser HTTP_REQUEST 0 s_req_method h_general i false false false n ULLONG_MAX 0 0 0 meth HPE_OK false.

(** The method that is guessed, by the letters read. *)
Definition method_next (mi : http_method * Z) (ch : Z) : option (http_method * Z) :=
  match c_string_at (bytes_of_string (method_string mi.1)) mi.2 with
  | Some w =>
      if isc ch " " || (ch =? 0) then None
      else if ch =? w then Some (mi.1, mi.2 + 1)
      else if HttpParser.between 65 ch 90 || isc ch "-" then (λ meth, (meth, mi.2 + 1)) <$> other_method mi.1 mi.2 ch
      else None
  | None => None
  end.
Fixpoint method_read (l : list Z) (mi : http_method * Z) : option (http_method * Z) :=
  match l with [] => Some mi | ch :: l => match method_next mi ch with Some mi => method_read l mi | None => None end end.

(** Every method is found by its name. *)
Lemma method_spelled meth : match bytes_of_string (method_string meth) with
  | ch :: l => negb (is_CR ch || is_LF ch) && IS_ALPHA ch = true ∧ ∃ first, first_method ch = Some first ∧ method_read l (first, 1) = Some (meth, zlen (ch :: l))
  | [] => False
  end ∧ zlen (bytes_of_string (method_string meth)) < 31.
Proof. destruct meth; (split; [split; [reflexivity|eexists; split; reflexivity]|reflexivity]). Qed.

Lemma method_letter meth i n p ch rest mi' : 0 <= i < 31 → 0 <= n < HTTP_MAX_HEADER_SIZE → zdrop p data = ch :: rest →
  method_next (meth, i) ch = Some mi' →
  steps (ready (in_method meth i n) [ev_message_begin]) p (ready (in_method mi'.1 mi'.2 (n + 1)) [ev_message_begin]) (p + 1) ∧ mi'.2 = i + 1.
Proof.
  intros Hi Hn Ed Hm. unfold method_next in Hm. cbn [fst snd] in Hm.
  destruct (c_string_at _ _) as [w|] eqn:Ew; [|done]. destruct (isc ch " " || (ch =? 0)) eqn:Es; [done|]. apply orb_false_iff in Es as [Es E0].
  assert (Hmod : (i + 1) mod 32 = i + 1) by (apply Z.mod_small; lia).
  assert (Hs : step (upd (ready (in_method meth i n) [ev_message_begin]) counted) p ch =
    Advance (ready (in_method mi'.1 mi'.2 (n + 1)) [ev_message_begin]) p ∧ mi'.2 = i + 1).
  { unfold HttpParser.step. cbn [state parser upd ready in_method counted]. unfold step_method. rewrite E0.
    change (method (parser _)) with meth. change (index (parser _)) with i. rewrite Ew, Es. cbn [andb].
    destruct (ch =? w); [injection Hm as <-|destruct (_ || _); [|done]; destruct (other_method meth i ch) as [meth'|]; [|done]; injection Hm as <-];
      (split; [|done]); unfold upd, next_index, counted, ready, in_method; cbn -[Z.modulo]; by rewrite Hmod. }
  destruct Hs as [Hs E]. split; [|done]. by eapply header_step.
Qed.

Lemma method_letters l : ∀ meth i n p rest meth' j, 0 <= p → zdrop p data = l ++ rest → method_read l (meth, i) = Some (meth', j) →
  0 <= i → i + zlen l <= 31 → 0 <= n → n + zlen l <= HTTP_MAX_HEADER_SIZE →
  steps (ready (in_method meth i n) [ev_message_begin]) p (ready (in_method meth' j (n + zlen l)) [ev_message_begin]) (p + zlen l).
Proof.
  induction l as [|ch l IH]; intros meth i n p rest meth' j Hp Ed Hr Hi Hl Hn Hmax; cbn [method_read] in Hr.
  - injection Hr as -> ->. rewrite zlen_nil, !Z.add_0_r. apply steps_refl.
  - rewrite zlen_cons in *. pose proof (zlen_nonneg l). destruct (method_next (meth, i) ch) as [[meth1 i1]|] eqn:Em; [|done].
    destruct (method_letter meth i n p ch (l ++ rest) (meth1, i1)) as [Hs E]; [lia|lia|done|done|]. cbn [fst snd] in *. subst i1.
    eapply steps_trans; [exact Hs|]. rewrite !Z.add_assoc. eapply IH; try done; try lia. by apply (rest_next p ch).
Qed.

Lemma request_method meth rest : meth ≠ HTTP_CONNECT → data = bytes_of_string (method_string meth) ++ [32] ++ rest →
  ∃ hp, let n := zlen (bytes_of_string (method_string meth)) + 1 in
    calm s_req_spaces_before_url n ULLONG_MAX no_framing hp ∧
    steps (initial_machine (http_parser_init HTTP_REQUEST)) 0 (ready hp [ev_message_begin]) n.
Proof.
  intros Hc Ed. destruct (method_spelled meth) as [Hsp Hlen]. destruct (bytes_of_string (method_string meth)) as [|ch l] eqn:En; [done|].
  destruct Hsp as ([Hch Ha]%andb_true_iff & first & Ef & Hr). apply negb_true_iff in Hch. rewrite zlen_cons in Hlen. pose proof (zlen_nonneg l).
  assert (H0 : steps (initial_machine (http_parser_init HTTP_REQUEST)) 0 (ready (in_method first 1 1) [ev_message_begin]) (0 + 1)).
  { eapply (header_step _ 0 ch (l ++ [32] ++ rest)); [by rewrite zdrop_0, Ed|done|done|]. unfold HttpParser.step. cbn [state parser upd counted].
    unfold step_start_req. cbn -[ULLONG_MAX first_method]. rewrite Hch, Ha. cbn [negb]. by rewrite Ef. }
  assert (Ed1 : zdrop 1 data = l ++ [32] ++ rest) by (apply (rest_next 0 ch); [lia|by rewrite zdrop_0, Ed]).
  pose proof (method_letters l first 1 1 1 ([32] ++ rest) _ _ ltac:(lia) Ed1 Hr ltac:(lia) ltac:(lia) ltac:(lia) ltac:(unfold HTTP_MAX_HEADER_SIZE; lia)) as H1.
  rewrite zlen_cons in *.
  eexists. split; [|eapply steps_trans; [exact H0|]; eapply steps_trans; [exact H1|]].
  2: { eapply header_step; [by apply rest_app; [lia|]|done|cbn; unfold HTTP_MAX_HEADER_SIZE; lia|]. unfold HttpParser.step. cbn [state parser upd ready in_method counted].
       unfold step_method. cbn [Z.eqb Pos.eqb]. change (method (parser _)) with meth. change (index (parser _)) with (1 + zlen l).
       assert (c_string_at (bytes_of_string (method_string meth)) (1 + zlen l) = Some 0) as ->.
       { unfold c_string_at. rewrite En. replace (Z.to_nat (1 + zlen l)) with (length (ch :: l)) by (unfold zlen; cbn; lia). by rewrite list_lookup_middle. }
       change (isc 32 " ") with true. cbn [andb Z.eqb]. unfold upd, next_index, to_state, counted, ready, in_method. cbn -[Z.modulo]. reflexivity. }
  by split.
Qed.

(** The path, with its query and fragment. *)
Definition in_path (s : pstate) : bool :=
  match s with s_req_path | s_req_query_string_start | s_req_query_string | s_req_fragment_start | s_req_fragment => true | _ => false end.
Definition visible (c : Z) : Prop := 33 <= c <= 126.

Lemma path_char s c : in_path s = true → visible c → in_path (parse_url_char s c) = true.
Proof.
  unfold visible. intros Hs Hc. unfold parse_url_char, is_CR, is_LF, is_TAB, IS_URL_CHAR, HttpParser.between, isc.
  change (chr " ") with 32. change (chr "#") with 35. change (chr "?") with 63.
  destruct (Z.eqb_spec c 32), (Z.eqb_spec c 13), (Z.eqb_spec c 10), (Z.eqb_spec c 9), (Z.eqb_spec c 12); try lia. cbn [orb].
  destruct (Z.leb_spec 33 c), (Z.leb_spec c 126); try lia. cbn [andb]. destruct s; try done; by destruct (c =? 35), (c =? 63).
Qed.

Lemma in_path_alive s : in_path s = true → s ≠ s_dead ∧ PARSING_HEADER s = true.
Proof. by destruct s. Qed.

Lemma path_step s n cl fl hp es v p ch rest : calm s n cl fl hp → in_path s = true → visible ch → zdrop p data = ch :: rest →
  0 <= n < HTTP_MAX_HEADER_SIZE → calm (parse_url_char s ch) (n + 1) cl fl (counted hp <| state := parse_url_char s ch |>) ∧
  steps (marked url v hp es) p (marked url v (counted hp <| state := parse_url_char s ch |>) es) (p + 1).
Proof.
  intros Hc Hs Hv Ed Hn. split; [by eapply calm_state, calm_counted|]. pose proof (c_state _ _ _ _ _ Hc) as Es.
  eapply header_step; [done|cbn; rewrite Es; by apply in_path_alive|cbn; by rewrite (c_nread _ _ _ _ _ Hc)|].
  unfold HttpParser.step. change (state (parser (upd (marked url v hp es) counted))) with (state hp). rewrite Es.
  pose proof (in_path_alive _ (path_char _ _ Hs Hv)) as [Ha _].
  assert (E : url_char (upd (marked url v hp es) counted) p ch = Advance (marked url v (counted hp <| state := parse_url_char s ch |>) es) p).
  { unfold url_char. change (state (parser (upd (marked url v hp es) counted))) with (state hp). rewrite Es, decide_False by done. done. }
  unfold visible in Hv.
  assert (isc ch " " = false ∧ is_CR ch = false ∧ is_LF ch = false) as (E1 & E2 & E3).
  { unfold isc, is_CR, is_LF. change (chr " ") with 32. lia. }
  destruct s; try done; unfold step_url; change (state (parser (upd (marked url v hp es) counted))) with (state hp); rewrite Es, E1, E2, E3; exact E.
Qed.

Lemma path_steps u : ∀ s n cl fl hp es v p rest, 0 <= p → calm s n cl fl hp → in_path s = true → Forall visible u → zdrop p data = u ++ rest →
  0 <= n → n + zlen u <= HTTP_MAX_HEADER_SIZE →
  ∃ s' hp', in_path s' = true ∧ calm s' (n + zlen u) cl fl hp' ∧ steps (marked url v hp es) p (marked url v hp' es) (p + zlen u).
Proof.
  induction u as [|ch u IH]; intros s n cl fl hp es v p rest Hp Hc Hs Hu Ed Hn Hmax.
  - exists s, hp. rewrite zlen_nil, !Z.add_0_r. split_and!; [done..|apply steps_refl].
  - inversion_clear Hu as [|? ? Hv Hu']. rewrite zlen_cons in *. pose proof (zlen_nonneg u).
    destruct (path_step s n cl fl hp es v p ch (u ++ rest)) as [Hc1 Hs1]; try done; [lia|].
    destruct (IH _ (n + 1) cl fl _ es v (p + 1) rest ltac:(lia) Hc1) as (s' & hp' & H1 & H2 & H3); try done; try lia; [by apply path_char|by apply (rest_next p ch)|].
    exists s', hp'. rewrite !Z.add_assoc. split_and!; [done..|]. by eapply steps_trans.
Qed.

(** The path of a request, with the blank after it. *)
Lemma request_path u n cl fl hp es p rest : 0 <= p → calm s_req_spaces_before_url n cl fl hp → Forall visible u →
  zdrop p data = (chr "/" :: u) ++ [32] ++ rest → 0 <= n → n + zlen u + 2 <= HTTP_MAX_HEADER_SIZE →
  ∃ hp', calm s_req_http_start (n + zlen u + 2) cl fl hp' ∧
    steps (ready hp es) p (ready hp' (es ++ [ev_url (chr "/" :: u)])) (p + zlen u + 2).
Proof.
  intros Hp Hc Hu Ed Hn Hmax. pose proof (zlen_nonneg u). pose proof (c_state _ _ _ _ _ Hc) as Es.
  assert (H0 : steps (ready hp es) p (marked url p (counted hp <| state := s_req_path |>) es) (p + 1)).
  { eapply header_step; [exact Ed|cbn; by rewrite Es|cbn; rewrite (c_nread _ _ _ _ _ Hc); lia|].
    unfold HttpParser.step, step_url. change (state (parser (upd (ready hp es) counted))) with (state hp). rewrite Es. change (isc (chr "/") " ") with false. cbv iota.
    unfold do_mark. cbn [get_mark url_mark upd ready]. rewrite decide_False by apply Hc. unfold url_char. cbn [parser set_mark state]. 
    change (state (parser _)) with (state hp). rewrite Es. done. }
  assert (Hc0 : calm s_req_path (n + 1) cl fl (counted hp <| state := s_req_path |>)) by (by eapply calm_state, calm_counted).
  assert (Ed1 : zdrop (p + 1) data = u ++ [32] ++ rest) by (by apply (rest_next p (chr "/"))).
  destruct (path_steps u s_req_path (n + 1) cl fl _ es p (p + 1) ([32] ++ rest) ltac:(lia) Hc0 eq_refl Hu Ed1) as (s' & hp1 & Hs1 & Hc1 & H1); [lia|lia|].
  assert (Ed2 : zdrop (p + 1 + zlen u) data = [32] ++ rest) by (by apply rest_app; [lia|]).
  pose proof (c_state _ _ _ _ _ Hc1) as Es1.
  assert (HC : ∀ hp K, CALLBACK_DATA on data (marked url p hp es) url (p + 1 + zlen u) K = K (ready hp (es ++ [ev_url (chr "/" :: u)]))).
  { intros hp' K. eapply (callback_marked url p hp' es _ K _ _ Ed). rewrite zlen_cons. lia. }
  eexists. split; [|eapply steps_trans; [exact H0|]; eapply steps_trans; [exact H1|]].
  2: { replace (p + zlen u + 2) with (p + 1 + zlen u + 1) by lia.
       eapply header_step; [exact Ed2|cbn; rewrite Es1; by apply in_path_alive|cbn; rewrite (c_nread _ _ _ _ _ Hc1); lia|].
       unfold HttpParser.step. change (state (parser (upd (marked url p hp1 es) counted))) with (state hp1). rewrite Es1.
       destruct s'; try done; unfold step_url; change (state (parser (upd (marked url p hp1 es) counted))) with (state hp1); rewrite Es1; change (isc 32 " ") with true; cbv iota.
       all: change (to_state (upd (marked url p hp1 es) counted) s_req_http_start) with (marked url p (counted hp1 <| state := s_req_http_start |>) es).
       all: rewrite HC; reflexivity. }
  replace (n + zlen u + 2) with (n + 1 + zlen u + 1) by lia. eapply calm_state, calm_counted, Hc1.
Qed.

(** The version, up to the end of the line. *)
Definition version_next (s : pstate) (ch : Z) : option pstate :=
  match s with
  | s_req_http_start => if isc ch "H" then Some s_req_http_H else None
  | s_req_http_H => if isc ch "T" then Some s_req_http_HT else None
  | s_req_http_HT => if isc ch "T" then Some s_req_http_HTT else None
  | s_req_http_HTT => if isc ch "P" then Some s_req_http_HTTP else None
  | s_req_http_HTTP => if isc ch "/" then Some s_req_http_major else None
  | s_req_http_major => if IS_NUM ch then Some s_req_http_dot else None
  | s_req_http_dot => if isc ch "." then Some s_req_http_minor else None
  | s_req_http_minor => if IS_NUM ch then Some s_req_http_end else None
  | s_req_http_end => if is_CR ch then Some s_req_line_almost_done else None
  | s_req_line_almost_done => if is_LF ch then Some s_header_field_start else None
  | _ => None
  end.
Fixpoint version_read (l : list Z) (s : pstate) : option pstate :=
  match l with [] => Some s | ch :: l => match version_next s ch with Some s => version_read l s | None => None end end.

Lemma version_step s s' n cl fl hp es p ch rest : calm s n cl fl hp → version_next s ch = Some s' → zdrop p data = ch :: rest →
  0 <= n < HTTP_MAX_HEADER_SIZE → ∃ hp', calm s' (n + 1) cl fl hp' ∧ steps (ready hp es) p (ready hp' es) (p + 1).
Proof.
  intros Hc Hv Ed Hn. pose proof (c_state _ _ _ _ _ Hc) as Es.
  assert (Hstep : ∃ hp', calm s' (n + 1) cl fl hp' ∧ step (upd (ready hp es) counted) p ch = Advance (ready hp' es) p).
  { pose proof (calm_state _ s' _ _ _ _ (calm_counted _ _ _ _ _ Hc)) as Hc'. pose proof Hc' as [].
    unfold HttpParser.step. change (state (parser (upd (ready hp es) counted))) with (state hp). rewrite Es.
    destruct s; try done; unfold version_next in Hv; (destruct (_ : bool) eqn:Eb in Hv; [|done]); injection Hv as <-;
      unfold step_version; change (state (parser (upd (ready hp es) counted))) with (state hp); rewrite Es, ?Eb.
    1: destruct (isc ch " ") eqn:Eb2; [unfold isc in *; apply Z.eqb_eq in Eb, Eb2; rewrite Eb in Eb2; discriminate Eb2|].
    all: cbn [negb expect]; eexists; (split; [|reflexivity]); (exact Hc' || by split). }
  destruct Hstep as (hp' & Hc' & Hs). exists hp'. split; [done|]. eapply header_step; [done| |cbn; by rewrite (c_nread _ _ _ _ _ Hc)|exact Hs].
  change (state (parser (ready hp es))) with (state hp). rewrite Es. by destruct s.
Qed.

Lemma version_steps l : ∀ s s' n cl fl hp es p rest, 0 <= p → calm s n cl fl hp → version_read l s = Some s' → zdrop p data = l ++ rest →
  0 <= n → n + zlen l <= HTTP_MAX_HEADER_SIZE → ∃ hp', calm s' (n + zlen l) cl fl hp' ∧ steps (ready hp es) p (ready hp' es) (p + zlen l).
Proof.
  induction l as [|ch l IH]; intros s s' n cl fl hp es p rest Hp Hc Hv Ed Hn Hmax; cbn [version_read] in Hv.
  - injection Hv as ->. exists hp. rewrite zlen_nil, !Z.add_0_r. split; [done|apply steps_refl].
  - rewrite zlen_cons in *. pose proof (zlen_nonneg l). destruct (version_next s ch) as [s1|] eqn:Ev; [|done].
    destruct (version_step s s1 n cl fl hp es p ch (l ++ rest) Hc Ev Ed) as (hp1 & Hc1 & H1); [lia|].
    destruct (IH s1 s' (n + 1) cl fl hp1 es (p + 1) rest ltac:(lia) Hc1 Hv) as (hp' & Hc' & H'); [by apply (rest_next p ch)|lia..|].
    exists hp'. rewrite !Z.add_assoc. split; [done|]. by eapply steps_trans.
Qed.

(** ** The names that are recognised *)

Definition token (c : Z) : Prop := TOKEN c ≠ 0.

(** What the letters [w] read of a name are, by the state they lead to. *)
Definition name_read (w : list Z) hp : Prop :=
  let along (word : list Z) := 0 <= index hp < zlen word - 1 ∧ w = ztake (index hp + 1) word in
  match header_state hp with
  | h_general => True
  | h_C => index hp = 0 ∧ w = bytes_of_string "c"
  | h_CO => index hp = 1 ∧ w = bytes_of_string "co"
  | h_CON => index hp = 2 ∧ w = bytes_of_string "con"
  | h_matching_connection => along CONNECTION
  | h_matching_proxy_connection => along PROXY_CONNECTION
  | h_matching_content_length => along CONTENT_LENGTH
  | h_matching_transfer_encoding => along TRANSFER_ENCODING
  | h_matching_upgrade => along UPGRADE
  | h_connection => w = CONNECTION ∨ w = PROXY_CONNECTION
  | h_content_length => w = CONTENT_LENGTH
  | h_transfer_encoding => w = TRANSFER_ENCODING
  | h_upgrade => w = UPGRADE
  | _ => False
  end.
Definition encoding_read (w : list Z) hp : Prop := uses_transfer_encoding hp = false ∨ TRANSFER_ENCODING `prefix_of` w.

(** A parser that differs in what the loops over names and values change. *)
Definition reads hp hp' : Prop :=
  hp' = hp <| header_state := header_state hp' |> <| index := index hp' |> <| uses_transfer_encoding := uses_transfer_encoding hp' |>.

Lemma reads_refl hp : reads hp hp.
Proof. by destruct hp. Qed.

Lemma reads_trans hp1 hp2 hp3 : reads hp1 hp2 → reads hp2 hp3 → reads hp1 hp3.
Proof. unfold reads. intros E1 E2. rewrite E2, E1. done. Qed.

Lemma name_start_read hp c : name_read [c] (hp <| index := 0 |> <| header_state := field_state c |>).
Proof.
  unfold field_state, isc, name_read.
  destruct (Z.eqb_spec c (chr "c")) as [->|]; [done|]. destruct (Z.eqb_spec c (chr "p")) as [->|]; [done|].
  destruct (Z.eqb_spec c (chr "t")) as [->|]; [done|]. by destruct (Z.eqb_spec c (chr "u")) as [->|].
Qed.

(** The next letter of a word. *)
Lemma word_next (word : list Z) i c : 0 <= i < zlen word - 1 → c_string_at word (i + 1) = Some c → ztake (i + 1) word ++ [c] = ztake (i + 2) word.
Proof.
  unfold c_string_at, ztake, zlen. intros Hi E. rewrite lookup_app_l in E by lia.
  replace (Z.to_nat (i + 2)) with (S (Z.to_nat (i + 1))) by lia. by rewrite (take_S_r _ _ c).
Qed.

Lemma match_field_read word found hp c w : zlen word < 31 → 0 <= index hp < zlen word - 1 → w = ztake (index hp + 1) word →
  ∃ hp', match_field word found hp c = Some hp' ∧ reads hp hp' ∧ uses_transfer_encoding hp' = uses_transfer_encoding hp ∧
    (header_state hp' = h_general ∨
     (header_state hp' = header_state hp ∧ 0 <= index hp' < zlen word - 1 ∧ w ++ [c] = ztake (index hp' + 1) word) ∨
     (header_state hp' = found ∧ w ++ [c] = word)).
Proof.
  intros Hw Hi ->. unfold match_field, match_word.
  assert (Ei : index (next_index hp) = index hp + 1) by (cbn -[Z.modulo]; apply Z.mod_small; lia).
  rewrite Ei, (proj2 (Z.ltb_ge _ _)) by lia.
  destruct (c_string_at_ok word (index hp + 1)) as (x & Ex & _); [lia|]. rewrite Ex. destruct (Z.eqb_spec c x) as [->|]; cbn [negb].
  - pose proof (word_next word (index hp) x Hi Ex) as E. destruct (Z.eqb_spec (index hp + 1) (zlen word - 1)) as [El|El].
    + eexists. split; [reflexivity|]. split; [by destruct hp|]. split; [done|]. right. right. split; [done|]. rewrite E, ztake_all by lia. done.
    + eexists. split; [reflexivity|]. split; [by destruct hp|]. split; [done|]. right. left. split; [done|]. rewrite Ei. split; [lia|]. rewrite E. f_equal. lia.
  - eexists. split; [reflexivity|]. split; [by destruct hp|]. split; [done|]. by left.
Qed.

Lemma encoding_more w c hp hp' : encoding_read w hp → uses_transfer_encoding hp' = uses_transfer_encoding hp → encoding_read (w ++ [c]) hp'.
Proof. intros [H|H] E; [left; by rewrite E|]. right. by apply prefix_app_r. Qed.

Lemma field_char_read hp ch c w : isc ch " " = false → name_read w hp → encoding_read w hp →
  ∃ hp', field_char hp ch c = Some hp' ∧ reads hp hp' ∧ name_read (w ++ [c]) hp' ∧ encoding_read (w ++ [c]) hp'.
Proof.
  intros Hch Hr He.
  assert (Hm : ∀ word found, zlen word < 31 → 0 <= index hp < zlen word - 1 ∧ w = ztake (index hp + 1) word →
    ∃ hp', match_field word found hp c = Some hp' ∧ reads hp hp' ∧ uses_transfer_encoding hp' = uses_transfer_encoding hp ∧
    (header_state hp' = h_general ∨
     (header_state hp' = header_state hp ∧ 0 <= index hp' < zlen word - 1 ∧ w ++ [c] = ztake (index hp' + 1) word) ∨
     (header_state hp' = found ∧ w ++ [c] = word))) by (intros word found Hl [Hi Hw]; by apply match_field_read).
  unfold field_char, name_read in *. destruct (header_state hp) eqn:Eh; try done; rewrite ?Hch.
  (* the words *)
  all: try match goal with |- context [match_field ?word ?found _ _] =>
    destruct (Hm word found ltac:(by vm_compute) Hr) as (hp' & -> & Hs & Hu & Hcases); cbn [fmap option_fmap option_map] end.
  all: try (eexists; split; [reflexivity|]; split; [exact Hs|]; split; [|by eapply encoding_more];
    destruct Hcases as [->|[(Ex & ? & ?)|(-> & ?)]]; rewrite ?Ex, ?Eh; by auto).
  (* the first letters *)
  all: try (destruct Hr as [Hi ->]; eexists; split; [reflexivity|]; split; [by destruct hp|]; split; [|by eapply encoding_more];
    unfold isc; cbn -[Z.modulo chr Z.eqb]; rewrite ?Hi; repeat match goal with |- context [?x =? chr ?y] => destruct (Z.eqb_spec x (chr y)) as [->|] end; by vm_compute).
  all: try (eexists; split; [reflexivity|]; split; [by destruct hp|]; split; [|by eapply encoding_more]; cbn; by rewrite ?Eh).
  (* transfer-encoding, which is also noted when it ends *)
  eexists. split; [reflexivity|]. destruct (decide (header_state hp' = h_transfer_encoding)) as [Ex|Hne].
  - destruct Hcases as [E|[(E & _)|(_ & Ew)]]; [congruence..|]. split; [eapply reads_trans; [exact Hs|by destruct hp']|].
    cbn. rewrite Ex. split; [done|]. right. by rewrite Ew.
  - split; [done|]. split; [|by eapply encoding_more]. destruct Hcases as [->|[(-> & ? & ?)|(? & ?)]]; [done|done|congruence].
Qed.

Lemma token_run_stop (l : list Z) k (rest : list Z) : (token_run (ztake k (l ++ 58%Z :: rest)) <= length l)%nat.
Proof.
  unfold ztake. generalize (Z.to_nat k). clear k. induction l as [|c l IH]; intros [|k]; cbn [app take token_run length]; try lia.
  - by cbn.
  - destruct (_ =? 0); [lia|]. specialize (IH k). lia.
Qed.

(** Behind a name that is none of the words the letters are passed over. *)
Lemma field_loop_general max l : ∀ hp p skip rest, Forall token l → header_state hp = h_general → (skip <= length l)%nat →
  field_loop max hp (l ++ 58 :: rest) p skip = Some (hp, p + zlen l, Some 58).
Proof.
  induction l as [|ch l IH]; intros hp p skip rest Hl Hh Hs; cbn [app field_loop].
  - destruct skip; [|cbn in Hs; lia]. change (zlen (@nil Z)) with 0. by rewrite Z.add_0_r.
  - inversion_clear Hl as [|? ? Ht Hl']. rewrite (zlen_cons ch l), Z.add_assoc. cbn [length] in Hs. destruct skip; [|by apply IH; [..|lia]].
    rewrite (proj2 (Z.eqb_neq _ _) Ht), decide_True by done. apply IH; [done|done|apply token_run_stop].
Qed.

Lemma token_no_space ch : token ch → isc ch " " = false.
Proof. unfold token, isc. intros H. destruct (Z.eqb_spec ch (chr " ")) as [->|]; [by destruct H|done]. Qed.

Lemma field_loop_read max l : ∀ hp p w rest, Forall token l → name_read w hp → encoding_read w hp →
  ∃ hp', field_loop max hp (l ++ 58 :: rest) p 0 = Some (hp', p + zlen l, Some 58) ∧ reads hp hp' ∧
    name_read (w ++ map TOKEN l) hp' ∧ encoding_read (w ++ map TOKEN l) hp'.
Proof.
  induction l as [|ch l IH]; intros hp p w rest Hl Hr He; cbn [app field_loop map].
  - exists hp. change (zlen (@nil Z)) with 0. rewrite Z.add_0_r, app_nil_r. split_and!; [done|apply reads_refl|done..].
  - inversion_clear Hl as [|? ? Ht Hl']. rewrite (zlen_cons ch l), Z.add_assoc, (proj2 (Z.eqb_neq _ _) Ht).
    destruct (decide _) as [Eh|Hne].
    + exists hp. split; [apply field_loop_general; [done..|apply token_run_stop]|]. split; [apply reads_refl|]. split; [by unfold name_read; rewrite Eh|].
      destruct He as [He|He]; [by left|right]. by apply prefix_app_r.
    + destruct (field_char_read hp ch (TOKEN ch) w (token_no_space ch Ht) Hr He) as (hp1 & -> & Hs1 & Hr1 & He1).
      destruct (IH hp1 (p + 1) (w ++ [TOKEN ch]) rest Hl' Hr1 He1) as (hp' & E & Hs & Hr' & He'). exists hp'.
      rewrite <- app_assoc in Hr', He'. split; [done|]. split; [by eapply reads_trans|]. done.
Qed.

(** ** The name of a header *)

(** The parser behind the first letter of a name. *)
Definition name_start hp (ch : Z) : http_parser :=
  counted hp <| state := s_header_field |> <| index := 0 |> <| header_state := field_state (TOKEN ch) |>.

Lemma token_not_end ch : token ch → is_CR ch = false ∧ is_LF ch = false ∧ (TOKEN ch =? 0) = false.
Proof.
  unfold token, is_CR, is_LF. intros H. split_and!; [| |lia].
  - destruct (Z.eqb_spec ch 13) as [->|]; [by destruct H|done].
  - destruct (Z.eqb_spec ch 10) as [->|]; [by destruct H|done].
Qed.

Lemma field_start_step n cl fl hp es p ch rest : calm s_header_field_start n cl fl hp → token ch → zdrop p data = ch :: rest →
  0 <= n < HTTP_MAX_HEADER_SIZE → steps (ready hp es) p (marked header_field p (name_start hp ch) es) (p + 1).
Proof.
  intros Hc Ht Ed Hn. pose proof (c_state _ _ _ _ _ Hc) as Es. destruct (token_not_end ch Ht) as (E1 & E2 & E3).
  eapply header_step; [exact Ed|cbn; by rewrite Es|cbn; by rewrite (c_nread _ _ _ _ _ Hc)|].
  unfold HttpParser.step. change (state (parser (upd (ready hp es) counted))) with (state hp). rewrite Es.
  unfold step_field_start. by rewrite E1, E2, E3.
Qed.

(** A name, by what the loop over its letters makes of the parser. *)
Lemma name_line n cl fl hp es p ch tail rest hp1 : 0 <= p → calm s_header_field_start n cl fl hp → token ch →
  zdrop p data = (ch :: tail) ++ 58 :: rest → 0 <= n → n + zlen tail + 2 <= HTTP_MAX_HEADER_SIZE →
  field_loop HTTP_MAX_HEADER_SIZE (counted (name_start hp ch)) (tail ++ 58 :: rest) (p + 1) 0 = Some (hp1, p + 1 + zlen tail, Some 58) →
  calm s_header_field (n + 2) cl fl hp1 →
  ∃ hp', calm s_header_value_discard_ws (n + zlen tail + 2) cl fl hp' ∧ header_state hp' = header_state hp1 ∧
    steps (ready hp es) p (ready hp' (es ++ [ev_header_field (ch :: tail)])) (p + zlen tail + 2).
Proof.
  intros Hp Hc Ht Ed Hn Hmax Hl Hc1. pose proof (zlen_nonneg tail). pose proof (c_nread _ _ _ _ _ Hc1) as En.
  assert (H0 : steps (ready hp es) p (marked header_field p (name_start hp ch) es) (p + 1)) by (eapply field_start_step; [done|done|exact Ed|lia]).
  assert (Ed1 : zdrop (p + 1) data = tail ++ 58 :: rest) by (by apply (rest_next p ch)).
  exists (hp1 <| nread := n + zlen tail + 2 |> <| state := s_header_value_discard_ws |>). split; [by destruct Hc1|]. split; [done|].
  eapply steps_trans; [exact H0|]. replace (p + zlen tail + 2) with (p + 1 + zlen tail + 1) by lia.
  assert (∃ ch1 rest1, tail ++ 58 :: rest = ch1 :: rest1) as (ch1 & rest1 & E1) by (destruct tail; eauto).
  eapply header_step; [by rewrite Ed1|done|cbn; rewrite (c_nread _ _ _ _ _ Hc); lia|].
  transitivity (step_field on HTTP_MAX_HEADER_SIZE data (marked header_field p (counted (name_start hp ch)) es) (p + 1) ch1); [reflexivity|].
  unfold step_field. change (parser (marked _ _ ?x _)) with x. rewrite Ed1, Hl. unfold COUNT_HEADER_SIZE.
  replace (p + 1 + zlen tail - (p + 1)) with (zlen tail) by lia.
  assert (Eu : u32 (nread hp1 + u32 (zlen tail)) = n + zlen tail + 2) by (rewrite En; unfold HTTP_MAX_HEADER_SIZE in Hmax; rewrite (u32_small (zlen tail)), u32_small by lia; lia).
  assert (E2 : upd (marked header_field p (counted (name_start hp ch)) es <| parser := hp1 |>) (λ hp, hp <| nread := u32 (nread hp + u32 (zlen tail)) |>) =
    marked header_field p (hp1 <| nread := n + zlen tail + 2 |>) es) by (rewrite <- Eu; done).
  rewrite E2. change (nread (parser (marked header_field p (hp1 <| nread := n + zlen tail + 2 |>) es))) with (n + zlen tail + 2).
  rewrite (proj2 (Z.ltb_ge _ _)) by lia. change (isc 58 ":") with true. cbv iota.
  change (to_state (marked header_field p ?x es) s_header_value_discard_ws) with (marked header_field p (x <| state := s_header_value_discard_ws |>) es).
  rewrite (proj1 (callback_marked header_field p _ es (p + 1 + zlen tail) (λ m, Advance m (p + 1 + zlen tail)) _ _ Ed ltac:(rewrite zlen_cons; lia))). done.
Qed.

(** The names that do not frame the message, as [sHeadField] compares them: in lower case. *)
Record plain_name (name : list Z) : Prop := {
  n_tokens : Forall token name;
  n_filled : name ≠ [];
  n_length : lower name ≠ CONTENT_LENGTH;
  n_upgrade : lower name ≠ UPGRADE;
  n_encoding : ¬ TRANSFER_ENCODING `prefix_of` lower name;
}.

Lemma token_lower l : Forall token l → map TOKEN l = lower l.
Proof.
  induction 1 as [|c l Hc _ IH]; [done|]. unfold lower in *. cbn [map]. f_equal; [|done].
  unfold token, TOKEN, STRICT_TOKEN, tokens, tolower, HttpParser.between in *. destruct (isc c " "); [done|].
  destruct ((65 <=? c) && (c <=? 90)); [lia|]. destruct (_ || IS_NUM c); [done|]. by destruct (_ || _).
Qed.

(** The states such a name leads to. *)
Definition plain_state (h : header_states) : bool :=
  field_state_ok h && match h with h_content_length | h_transfer_encoding | h_upgrade => false | _ => true end.

Lemma plain_header_name n cl fl hp es p name rest : 0 <= p → calm s_header_field_start n cl fl hp → plain_name name →
  zdrop p data = name ++ 58 :: rest → 0 <= n → n + zlen name + 1 <= HTTP_MAX_HEADER_SIZE →
  ∃ hp', calm s_header_value_discard_ws (n + zlen name + 1) cl fl hp' ∧ plain_state (header_state hp') = true ∧
    steps (ready hp es) p (ready hp' (es ++ [ev_header_field name])) (p + zlen name + 1).
Proof.
  intros Hp Hc [Ht Hne Hl Hu He] Ed Hn Hmax. destruct name as [|ch tail]; [done|]. inversion Ht as [|? ? Ht1 Ht2]; subst. rewrite zlen_cons in *.
  rewrite <- token_lower in Hl, Hu, He by done. cbn [map] in Hl, Hu, He.
  destruct (field_loop_read HTTP_MAX_HEADER_SIZE tail (counted (name_start hp ch)) (p + 1) [TOKEN ch] rest Ht2) as (hp1 & E & Hs & Hr & Hen).
  { apply (name_start_read (counted (counted hp) <| state := s_header_field |>)). }
  { left. apply Hc. }
  assert (Hen' : uses_transfer_encoding hp1 = false) by (by destruct Hen).
  assert (Hc1 : calm s_header_field (n + 2) cl fl hp1). { rewrite Hs, Hen'. destruct Hc. split; cbn; try done; lia. }
  destruct (name_line n cl fl hp es p ch tail rest hp1 Hp Hc Ht1 Ed Hn ltac:(lia) E Hc1) as (hp' & Hc' & Eh & Hst). exists hp'.
  replace (n + (1 + zlen tail) + 1) with (n + zlen tail + 2) by lia. replace (p + (1 + zlen tail) + 1) with (p + zlen tail + 2) by lia.
  split; [done|]. split; [|done]. rewrite Eh. unfold name_read in Hr. destruct (header_state hp1); try done. by destruct He; rewrite <- Hr.
Qed.

(** ** The value of a header *)

Definition blank (c : Z) : bool := isc c " " || is_TAB c.

(** The states of a value that leave the framing of the message alone. *)
Definition quiet_value (h : header_states) : bool :=
  match h with
  | h_general | h_content_length_num | h_matching_connection_token_start | h_matching_connection_keep_alive | h_matching_connection_close
  | h_matching_connection_upgrade | h_matching_connection_token | h_connection_keep_alive | h_connection_close | h_connection_upgrade => true
  | _ => false
  end.

(** Setting a flag keeps those that are set. *)
Lemma lor_kept f g h : Z.land f h ≠ 0 → Z.land (Z.lor f g) h ≠ 0.
Proof. rewrite Z.land_lor_distr_l. by intros H [H' _]%Z.lor_eq_0_iff. Qed.

Lemma quiet_connection fl f g : quiet fl f → g = 2 ∨ g = 4 ∨ g = 8 → quiet fl (Z.lor f g).
Proof.
  intros [H1 H2 H3 H4] Hg. assert (Z.land g F_CONTENTLENGTH = 0 ∧ Z.land g 81 = 0 ∧ Z.land g F_UPGRADE = 0) as (E1 & E2 & E3) by (by destruct Hg as [->|[->| ->]]).
  split; rewrite ?Z.land_lor_distr_l, ?E1, ?E2, ?E3, ?Z.lor_0_r; try done. intros Ha. rewrite <- Z.land_lor_distr_l. by apply lor_kept, H4.
Qed.

Lemma quiet_length f : quiet no_framing f → quiet length_framing (Z.lor f F_CONTENTLENGTH).
Proof.
  intros [H1 H2 H3 H4]. split; try done.
  - by rewrite Z.land_lor_distr_l, H1.
  - rewrite Z.land_lor_distr_l. apply negb_true_iff, Z.eqb_neq. by intros [_ E]%Z.lor_eq_0_iff.
  - rewrite Z.land_lor_distr_l. by rewrite (eq_refl : Z.land F_CONTENTLENGTH F_UPGRADE = 0), Z.lor_0_r.
Qed.

Lemma calm_flags s n cl fl hp f i : calm s n cl fl hp → quiet fl f → calm s n cl fl (hp <| flags := f |> <| index := i |>).
Proof. by intros []. Qed.

Lemma header_flags_calm s n cl fl hp : calm s n cl fl hp → quiet_value (header_state hp) = true → calm s n cl fl (header_flags hp).
Proof.
  intros Hc Hq. assert (Hset : ∀ g, g = 2 ∨ g = 4 ∨ g = 8 → calm s n cl fl (set_flag hp g)).
  { intros g Hg. destruct Hc. split; try done. by apply quiet_connection. }
  unfold header_flags. destruct (header_state hp); try done; apply Hset; auto.
Qed.

Lemma header_flags_quiet cl fl h : quiet_value h = true → ∀ s n hp, calm s n cl fl hp → header_state hp = h → calm s n cl fl (header_flags hp).
Proof. intros Hh s n hp Hc <-. by apply header_flags_calm. Qed.

Lemma header_flags_counted hp : header_flags (counted hp) = counted (header_flags hp).
Proof. unfold header_flags. change (header_state (counted hp)) with (header_state hp). by destruct (header_state hp). Qed.

(** Behind the line of a header: the next line is not its continuation. *)
Lemma next_line n cl fl fl' hp es p ch rest : calm s_header_value_lws n cl fl hp → calm s_header_value_lws n cl fl' (header_flags hp) →
  zdrop p data = ch :: rest → blank ch = false → 0 <= n < HTTP_MAX_HEADER_SIZE →
  ∃ hp', calm s_header_field_start n cl fl' hp' ∧ steps (ready hp es) p (ready hp' es) p.
Proof.
  intros Hc Hq Ed Hb Hn. exists (header_flags hp <| state := s_header_field_start |>). split; [by eapply calm_state|].
  pose proof (c_state _ _ _ _ _ Hc) as Es. pose proof (c_nread _ _ _ _ _ Hc) as En.
  pose proof (c_nread _ _ _ _ _ Hq) as En'.
  exists 1%nat. intros fuel. cbn [Nat.add run_loop]. rewrite Ed, look_flow by (intros _; cbn; lia).
  assert (E0 : step (look (ready hp es)) p ch = Reexecute (to_state (upd (ready (counted hp) es) header_flags) s_header_field_start) p ch).
  { unfold look. change (state (parser (ready hp es))) with (state hp). rewrite Es. cbn [PARSING_HEADER].
    unfold HttpParser.step, step_value_end. change (state (parser (upd (ready hp es) counted))) with (state hp). unfold blank in Hb. by rewrite Es, Hb. }
  rewrite E0. destruct fuel as [|fuel]; [done|]. cbn [run_loop].
  rewrite Ed, look_flow by (intros _; change (0 <= nread (header_flags hp) < HTTP_MAX_HEADER_SIZE); lia).
  assert (E : to_state (upd (ready (counted hp) es) header_flags) s_header_field_start = look (ready (header_flags hp <| state := s_header_field_start |>) es)).
  { unfold look, to_state, upd. cbn [parser ready state PARSING_HEADER]. rewrite header_flags_counted. done. }
  by rewrite E.
Qed.

(** The first character of a value. *)
Definition value_first (c : Z) : Prop := blank c = false ∧ is_CR c = false ∧ is_LF c = false.

(** A value, by what its first character and the loop over the others make of the parser. *)
Lemma value_line n cl fl cl' fl' fl'' hp es p c v ch rest hp1 hp2 h2 : 0 <= p → calm s_header_value_discard_ws n cl fl hp →
  zdrop p data = 32 :: (c :: v) ++ 13 :: 10 :: ch :: rest → value_first c → blank ch = false → 0 <= n → n + zlen v + 5 <= HTTP_MAX_HEADER_SIZE →
  step_value_start (ready (counted (counted hp)) es) (p + 1) c = Advance (marked header_value (p + 1) hp1 es) (p + 1) →
  state hp1 = s_header_value → nread hp1 = n + 2 →
  value_loop HTTP_MAX_HEADER_SIZE (counted hp1) (header_state hp1) (v ++ 13 :: 10 :: ch :: rest) (p + 2) 0 = VCR hp2 h2 (p + 2 + zlen v) →
  calm s_header_value (n + 3) cl' fl' hp2 → (∀ s n hp, calm s n cl' fl' hp → header_state hp = h2 → calm s n cl' fl'' (header_flags hp)) →
  ∃ hp', calm s_header_field_start (n + zlen v + 4) cl' fl'' hp' ∧
    steps (ready hp es) p (ready hp' (es ++ [ev_header_value (c :: v)])) (p + zlen v + 4).
Proof.
  intros Hp Hc Ed (Hb & Hcr & Hlf) Hch Hn Hmax H1 Es1 En1 H2 Hc2 Hq. pose proof (zlen_nonneg v). unfold blank in Hb.
  pose proof (c_state _ _ _ _ _ Hc) as Es. pose proof (c_nread _ _ _ _ _ Hc) as En. pose proof (c_nread _ _ _ _ _ Hc2) as En2.
  pose proof (rest_next p _ _ Hp Ed) as Ed1. cbn [app] in Ed1. pose proof (rest_next (p + 1) _ _ ltac:(lia) Ed1) as Ed2. replace (p + 1 + 1) with (p + 2) in Ed2 by lia.
  pose proof (rest_app (p + 2) v _ ltac:(lia) Ed2) as Ed3. pose proof (rest_next (p + 2 + zlen v) _ _ ltac:(lia) Ed3) as Ed4.
  pose proof (rest_next (p + 2 + zlen v + 1) _ _ ltac:(lia) Ed4) as Ed5.
  (* the blank *)
  assert (S0 : steps (ready hp es) p (ready (counted hp) es) (p + 1)).
  { eapply header_step; [exact Ed|cbn; by rewrite Es|cbn; rewrite En; lia|].
    unfold HttpParser.step, step_value_end. change (state (parser (upd (ready hp es) counted))) with (state hp). by rewrite Es. }
  (* the first character *)
  assert (S1 : steps (ready (counted hp) es) (p + 1) (marked header_value (p + 1) hp1 es) (p + 2)).
  { replace (p + 2) with (p + 1 + 1) by lia. eapply header_step; [exact Ed1|cbn; by rewrite Es|cbn; rewrite En; lia|]. rewrite <- H1.
    unfold HttpParser.step, step_value_end. change (state (parser (upd (ready (counted hp) es) counted))) with (state hp). by rewrite Es, Hb, Hcr, Hlf. }
  (* the others *)
  set (hp3 := with_header_state hp2 h2 <| state := s_header_almost_done |> <| nread := n + zlen v + 3 |>).
  assert (S2 : steps (marked header_value (p + 1) hp1 es) (p + 2) (ready hp3 (es ++ [ev_header_value (c :: v)])) (p + 2 + zlen v + 1)).
  { assert (∃ c1 rest1, v ++ 13 :: 10 :: ch :: rest = c1 :: rest1) as (c1 & rest1 & E1) by (destruct v; eauto).
    eapply header_step; [by rewrite Ed2|cbn; by rewrite Es1|cbn; rewrite En1; lia|]. rewrite upd_marked.
    transitivity (step_value on HTTP_MAX_HEADER_SIZE data (marked header_value (p + 1) (counted hp1) es) (p + 2) c1).
    { unfold HttpParser.step. change (state (parser (marked header_value (p + 1) (counted hp1) es))) with (state hp1). by rewrite Es1. }
    unfold step_value. change (parser (marked header_value (p + 1) (counted hp1) es)) with (counted hp1). rewrite Ed2.
    change (header_state (counted hp1)) with (header_state hp1). rewrite H2.
    change (to_state _ s_header_almost_done) with (marked header_value (p + 1) (with_header_state hp2 h2 <| state := s_header_almost_done |>) es).
    rewrite (proj1 (callback_marked header_value (p + 1) _ es (p + 2 + zlen v) _ (c :: v) (13 :: 10 :: ch :: rest) Ed1 ltac:(rewrite zlen_cons; lia))).
    unfold COUNT_HEADER_SIZE. replace (p + 2 + zlen v - (p + 2)) with (zlen v) by lia.
    assert (Eu : u32 (nread hp2 + u32 (zlen v)) = n + zlen v + 3) by (rewrite En2; unfold HTTP_MAX_HEADER_SIZE in Hmax; rewrite (u32_small (zlen v)), u32_small by lia; lia).
    unfold upd. cbn [parser ready nread]. cbn -[u32 HTTP_MAX_HEADER_SIZE Z.ltb zlen hp3]. rewrite Eu, (proj2 (Z.ltb_ge _ _)) by lia. done. }
  (* the end of the line *)
  assert (Hc3 : calm s_header_almost_done (n + zlen v + 3) cl' fl' hp3) by (by destruct Hc2).
  destruct (state_step s_header_almost_done s_header_value_lws _ cl' fl' hp3 (es ++ [ev_header_value (c :: v)]) (p + 2 + zlen v + 1) 10 (ch :: rest) Hc3) as [Hc4 S3];
    [done|done|lia|reflexivity|].
  destruct (next_line _ cl' fl' fl'' _ (es ++ [ev_header_value (c :: v)]) (p + 2 + zlen v + 1 + 1) ch rest Hc4) as (hp' & Hc5 & S4); [by apply Hq|done|done|lia|].
  exists hp'. replace (n + zlen v + 4) with (n + zlen v + 3 + 1) by lia. split; [done|].
  replace (p + zlen v + 4) with (p + 2 + zlen v + 1 + 1) by lia. repeat (eapply steps_trans; [eassumption|]). apply steps_refl.
Qed.

(** The characters of a value. *)
Definition value_text (c : Z) : Prop := IS_HEADER_CHAR c = true ∧ is_CR c = false ∧ is_LF c = false.

Lemma value_run_stop v : ∀ k n rest, Forall value_text v → (length v < k)%nat →
  value_run false (take k (v ++ 13 :: rest)) n = inl (pred (n + length v)).
Proof.
  induction v as [|c v IH]; intros [|k] n rest Hv Hk; cbn [length] in *; try lia.
  - cbn. by rewrite Nat.add_0_r.
  - inversion_clear Hv as [|? ? (Hh & Hcr & Hlf) Hv']. cbn [app take value_run]. rewrite Hcr, Hlf, Hh. cbn [orb negb andb]. rewrite IH by (done || lia).
    f_equal. lia.
Qed.

Lemma general_run_stop c v rest : Forall value_text (c :: v) → zlen (c :: v) < HTTP_MAX_HEADER_SIZE →
  general_run HTTP_MAX_HEADER_SIZE false ((c :: v) ++ 13 :: rest) = inl (length v).
Proof.
  intros Hv Hmax. unfold general_run, ztake. rewrite zlen_app, (zlen_cons 13) in *. pose proof (zlen_nonneg rest).
  rewrite value_run_stop by (done || (unfold zlen in *; lia)). cbn [length Nat.add pred]. rewrite length_app. cbn [length].
  by rewrite (proj2 (Nat.eqb_neq _ _)) by lia.
Qed.

(** What a value that is not read may change. *)
Definition flagged (fl : framing) hp hp' : Prop := ∃ f i, quiet fl f ∧ hp' = hp <| flags := f |> <| index := i |>.

Lemma flagged_trans fl hp1 hp2 hp3 : flagged fl hp1 hp2 → flagged fl hp2 hp3 → flagged fl hp1 hp3.
Proof. intros (f1 & i1 & H1 & ->) (f2 & i2 & H2 & ->). by exists f2, i2. Qed.

Lemma value_loop_skip max v : ∀ hp p skip rest, lenient_http_headers hp = false → Forall value_text v → zlen v < HTTP_MAX_HEADER_SIZE → max = HTTP_MAX_HEADER_SIZE →
  (skip <= length v)%nat → value_loop max hp h_general (v ++ 13 :: rest) p skip = VCR hp h_general (p + zlen v).
Proof.
  induction v as [|c v IH]; intros hp p skip rest Hl Hv Hmax -> Hs.
  - destruct skip; [|cbn in Hs; lia]. change (zlen (@nil Z)) with 0. rewrite Z.add_0_r. done.
  - pose proof Hv as Hv0. inversion_clear Hv as [|? ? (Hh & Hcr & Hlf) Hv']. rewrite (zlen_cons c v), Z.add_assoc. cbn [length] in Hs. rewrite (zlen_cons c v) in Hmax.
    change ((c :: v) ++ 13 :: rest) with (c :: (v ++ 13 :: rest)). cbn [value_loop]. destruct skip as [|skip]; [|apply IH; done || lia].
    rewrite Hcr, Hlf, Hl, Hh. cbn [negb andb]. rewrite decide_True by done.
    change (c :: v ++ 13 :: rest) with ((c :: v) ++ 13 :: rest). rewrite general_run_stop by (done || (rewrite zlen_cons; lia)). apply IH; done || lia.
Qed.

Definition quiet_text (h : header_states) : bool := quiet_value h && negb (bool_decide (h = h_content_length_num)).

Lemma quiet_char fl hp h c : quiet fl (flags hp) → quiet_text h = true → h ≠ h_general →
  ∃ hp' h', value_char hp h c = VNext hp' h' ∧ flagged fl hp hp' ∧ quiet_text h' = true.
Proof.
  intros Hf Hh Hg.
  assert (Hi : ∀ i, flagged fl hp (hp <| index := i |>)) by (intros i; exists (flags hp), i; split; [done|by destruct hp]).
  assert (H0 : flagged fl hp hp) by (exists (flags hp), (index hp); split; [done|by destruct hp]).
  assert (Hset : ∀ g, g = 2 ∨ g = 4 ∨ g = 8 → flagged fl hp (set_flag hp g <| index := 0 |>)).
  { intros g Hgg. exists (Z.lor (flags hp) g), 0. split; [by apply quiet_connection|by destruct hp]. }
  assert (Hw : ∀ word found, quiet_text found = true →
    ∃ hp' h', of_match h (match_word word hp (LOWER c)) found h_matching_connection_token = VNext hp' h' ∧ flagged fl hp hp' ∧ quiet_text h' = true).
  { intros word found Hfo. destruct (match_word_ok word hp (LOWER c)) as (hp' & r & -> & ->).
    destruct r; eexists _, _; (split; [reflexivity|]); (split; [|done]); by apply Hi. }
  unfold value_char. destruct h; try done; try (by apply Hw).
  { eexists _, _. split; [reflexivity|]. split; [done|]. by repeat case_match. }
  { destruct (isc c ","); eexists _, _; (split; [reflexivity|]); split; done || apply Hi. }
  all: destruct (isc c ","); eexists _, _; (split; [reflexivity|]); [split; [apply Hset; by auto|done]|split; [done|by destruct (isc c " ")]].
Qed.

Lemma quiet_loop v : ∀ fl hp h p rest, lenient_http_headers hp = false → quiet fl (flags hp) → quiet_text h = true → Forall value_text v →
  zlen v < HTTP_MAX_HEADER_SIZE →
  ∃ hp' h', value_loop HTTP_MAX_HEADER_SIZE hp h (v ++ 13 :: rest) p 0 = VCR hp' h' (p + zlen v) ∧ flagged fl hp hp' ∧ quiet_text h' = true.
Proof.
  induction v as [|c v IH]; intros fl hp h p rest Hl Hf Hh Hv Hmax.
  - exists hp, h. change (zlen (@nil Z)) with 0. rewrite Z.add_0_r. split; [done|]. split; [|done]. exists (flags hp), (index hp). split; [done|by destruct hp].
  - destruct (decide (h = h_general)) as [->|Hg].
    + exists hp, h_general. split; [by apply value_loop_skip; [..|lia]|]. split; [|done]. exists (flags hp), (index hp). split; [done|by destruct hp].
    + pose proof Hv as Hv0. inversion_clear Hv as [|? ? (Hch & Hcr & Hlf) Hv']. rewrite (zlen_cons c v), Z.add_assoc. rewrite (zlen_cons c v) in Hmax.
      change ((c :: v) ++ 13 :: rest) with (c :: (v ++ 13 :: rest)). cbn [value_loop]. rewrite Hcr, Hlf, Hl, Hch, decide_False by done. cbn [negb andb].
      destruct (quiet_char fl hp h c Hf Hh Hg) as (hp1 & h1 & -> & Hfl & Hh1).
      assert (lenient_http_headers hp1 = false ∧ quiet fl (flags hp1)) as [Hl1 Hf1] by (by destruct Hfl as (f & i & Hq & ->)).
      destruct (IH fl hp1 h1 (p + 1) rest Hl1 Hf1 Hh1 Hv' ltac:(lia)) as (hp' & h' & -> & Hfl' & Hh'). exists hp', h'.
      split; [done|]. split; [|done]. by eapply flagged_trans.
Qed.

Record plain_value (v : list Z) : Prop := {
  v_text : Forall value_text v;
  v_first : match v with c :: _ => value_first c | [] => False end;
}.

(** The first character of a value whose name is not one that frames the message. *)
Lemma plain_value_start s n cl fl hp es p c : calm s n cl fl hp → plain_state (header_state hp) = true →
  ∃ hp1, step_value_start (ready hp es) p c = Advance (marked header_value p hp1 es) p ∧ calm s_header_value n cl fl hp1 ∧
    quiet_text (header_state hp1) = true.
Proof.
  intros Hc Hh. unfold step_value_start. unfold do_mark. cbn [get_mark header_value_mark ready].
  change (header_state (parser _)) with (header_state hp).
  assert (Hg : ∀ h, calm s_header_value n cl fl (hp <| state := s_header_value |> <| index := 0 |> <| header_state := h |>)) by (intros h; by destruct Hc).
  destruct (header_state hp); try done; (eexists; split; [reflexivity|]; split; [apply Hg|]; cbn; by repeat case_match).
Qed.

(** A line [name: value] that does not frame the message, before a line that does not continue it. *)
Lemma plain_header n cl fl hp es p name v ch rest : 0 <= p → calm s_header_field_start n cl fl hp → plain_name name → plain_value v →
  zdrop p data = name ++ [58; 32] ++ v ++ crlf ++ ch :: rest → blank ch = false → 0 <= n → n + zlen name + zlen v + 5 <= HTTP_MAX_HEADER_SIZE →
  ∃ hp', calm s_header_field_start (n + zlen name + zlen v + 4) cl fl hp' ∧
    steps (ready hp es) p (ready hp' (es ++ [ev_header_field name; ev_header_value v])) (p + zlen name + zlen v + 4).
Proof.
  intros Hp Hc Hname [Hv Hf] Ed Hb Hn Hmax. destruct v as [|c v]; [done|]. rewrite zlen_cons in *. pose proof (zlen_nonneg name). pose proof (zlen_nonneg v).
  destruct (plain_header_name n cl fl hp es p name _ Hp Hc Hname Ed Hn ltac:(lia)) as (hp1 & Hc1 & Hh1 & S1).
  assert (Ed1 : zdrop (p + zlen name + 1) data = 32 :: (c :: v) ++ 13 :: 10 :: ch :: rest).
  { apply (rest_next (p + zlen name) 58); [lia|]. by apply rest_app; [lia|]. }
  destruct (plain_value_start _ _ _ _ _ (es ++ [ev_header_field name]) (p + zlen name + 1 + 1) c (calm_counted _ _ _ _ _ (calm_counted _ _ _ _ _ Hc1)) Hh1) as (hp2 & E2 & Hc2 & Hh2).
  pose proof (calm_counted _ _ _ _ _ Hc2) as Hc2'.
  destruct (quiet_loop v fl (counted hp2) (header_state hp2) (p + zlen name + 1 + 2) (10 :: ch :: rest)) as (hp3 & h3 & E3 & Hfl & Hh3);
    [apply Hc2'|apply Hc2'|done|by inversion Hv|lia|].
  assert (Hc3 : calm s_header_value (n + zlen name + 1 + 3) cl fl hp3).
  { destruct Hfl as (f & i & Hq & ->). replace (n + zlen name + 1 + 3) with (n + zlen name + 1 + 1 + 1 + 1) by lia. by apply calm_flags. }
  destruct (value_line (n + zlen name + 1) cl fl cl fl fl hp1 (es ++ [ev_header_field name]) (p + zlen name + 1) c v ch rest hp2 hp3 h3)
    as (hp' & Hc' & S2); try done; try lia; [apply Hc2|rewrite (c_nread _ _ _ _ _ Hc2); lia|apply header_flags_quiet; by apply andb_true_iff in Hh3 as [? _]|].
  exists hp'. replace (n + zlen name + (1 + zlen v) + 4) with (n + zlen name + 1 + zlen v + 4) by lia. split; [done|].
  replace (p + zlen name + (1 + zlen v) + 4) with (p + zlen name + 1 + zlen v + 4) by lia. eapply steps_trans; [exact S1|].
  by rewrite <- app_assoc in S2.
Qed.

(** ** The length of the body *)

Lemma digits_val_ge v : ∀ k, Forall (λ c, isdigit c = true) v → 0 <= k → k <= digits_val v k.
Proof.
  induction v as [|c v IH]; intros k Hv Hk; cbn [digits_val]; [lia|]. inversion_clear Hv as [|? ? Hc Hv']. rewrite Hc.
  pose proof (IS_NUM_range c Hc). specialize (IH (10 * k + (c - 48)) Hv'). lia.
Qed.

Lemma number_loop v : ∀ hp p rest, lenient_http_headers hp = false → Forall (λ c, isdigit c = true) v → 0 <= content_length hp →
  digits_val v (content_length hp) < 2 ^ 31 →
  value_loop HTTP_MAX_HEADER_SIZE hp h_content_length_num (v ++ 13 :: rest) p 0 =
    VCR (hp <| content_length := digits_val v (content_length hp) |>) h_content_length_num (p + zlen v).
Proof.
  induction v as [|c v IH]; intros hp p rest Hl Hv Hk Hlt.
  - change (zlen (@nil Z)) with 0. rewrite Z.add_0_r. by destruct hp.
  - inversion_clear Hv as [|? ? Hc Hv']. rewrite (zlen_cons c v), Z.add_assoc. cbn [digits_val] in *. rewrite Hc in *. pose proof (IS_NUM_range c Hc) as Hr.
    pose proof (digits_val_ge v (10 * content_length hp + (c - 48)) Hv' ltac:(lia)) as Hge.
    cbn [app value_loop]. assert (is_CR c = false ∧ is_LF c = false ∧ IS_HEADER_CHAR c = true ∧ isc c " " = false) as (-> & -> & -> & Hsp).
    { unfold is_CR, is_LF, IS_HEADER_CHAR, is_CR, is_LF, isc. change (chr " ") with 32. lia. }
    rewrite Hl, decide_False by done. cbn [negb andb value_char]. unfold value_number. rewrite Hsp. change (IS_NUM c) with (isdigit c). rewrite Hc. cbn [negb].
    rewrite (proj2 (Z.ltb_ge _ _)) by (change ((ULLONG_MAX - 10) / 10) with 1844674407370955160; lia).
    rewrite (u64_small (content_length hp * 10)), u64_small by lia. rewrite IH; [|done|done|cbn; lia|cbn; replace (content_length hp * 10) with (10 * content_length hp) by lia; lia].
    cbn. by replace (content_length hp * 10) with (10 * content_length hp) by lia.
Qed.

Lemma field_loop_shift max l : ∀ hp p skip,
  field_loop max hp l p skip = (λ r, (r.1.1, p + r.1.2, r.2)) <$> field_loop max hp l 0 skip.
Proof.
  induction l as [|ch l IH]; intros hp p skip; cbn [field_loop]; [cbn; by rewrite Z.add_0_r|].
  assert (H : ∀ hp skip, field_loop max hp l (p + 1) skip = (λ r, (r.1.1, p + r.1.2, r.2)) <$> field_loop max hp l (0 + 1) skip).
  { intros hp' skip'. rewrite IH, (IH hp' (0 + 1)), <- option_fmap_compose. destruct (field_loop max hp' l 0 skip') as [[[??]?]|]; cbn; [|done]. by rewrite Z.add_assoc. }
  destruct skip; [|apply H]. destruct (_ =? 0); [cbn; by rewrite Z.add_0_r|]. destruct (decide _); [apply H|]. destruct (field_char _ _ _); [apply H|done].
Qed.

Definition length_name : list Z := bytes_of_string "Content-Length".

(** Its value. *)
Lemma length_value n cl hp es p c v ch rest : 0 <= p → calm s_header_value_discard_ws n cl no_framing hp → header_state hp = h_content_length →
  Forall (λ c, isdigit c = true) (c :: v) → digits_val (c :: v) 0 < 2 ^ 31 → zdrop p data = 32 :: (c :: v) ++ 13 :: 10 :: ch :: rest →
  blank ch = false → 0 <= n → n + zlen v + 5 <= HTTP_MAX_HEADER_SIZE →
  ∃ hp', calm s_header_field_start (n + zlen v + 4) (digits_val (c :: v) 0) length_framing hp' ∧
    steps (ready hp es) p (ready hp' (es ++ [ev_header_value (c :: v)])) (p + zlen v + 4).
Proof.
  intros Hp Hc Hh Hd Hlt Ed Hb Hn Hmax. inversion_clear Hd as [|? ? Hc1 Hv]. pose proof (zlen_nonneg v). pose proof (IS_NUM_range c Hc1) as Hr.
  cbn [digits_val] in *. rewrite Hc1 in *. change (10 * 0 + (c - 48)) with (c - 48) in *.
  set (hp1 := set_flag (counted (counted hp)) F_CONTENTLENGTH <| state := s_header_value |> <| index := 0 |> <| content_length := c - 48 |> <| header_state := h_content_length_num |>).
  assert (E1 : step_value_start (ready (counted (counted hp)) es) (p + 1) c = Advance (marked header_value (p + 1) hp1 es) (p + 1)).
  { unfold step_value_start, do_mark. cbn [get_mark header_value_mark ready]. change (header_state (parser _)) with (header_state hp). rewrite Hh.
    change (IS_NUM c) with (isdigit c). rewrite Hc1. cbn [negb]. change (flag (parser _) F_CONTENTLENGTH) with (flag hp F_CONTENTLENGTH).
    unfold flag. by rewrite (q_length _ _ (c_flags _ _ _ _ _ Hc)). }
  apply (value_line n cl no_framing (digits_val v (c - 48)) length_framing length_framing hp es p c v ch rest hp1 (counted hp1 <| content_length := digits_val v (c - 48) |>) h_content_length_num); try done.
  - unfold value_first, blank, isc, is_TAB, is_CR, is_LF. change (chr " ") with 32. lia.
  - cbn. rewrite (c_nread _ _ _ _ _ Hc). lia.
  - apply (number_loop v (counted hp1)); [apply Hc|done|cbn; lia|done].
  - destruct Hc. split; try done; [cbn; lia|by apply quiet_length].
  - by apply header_flags_quiet.
Qed.

(** The header that gives the length, before a line that does not continue it. *)
Lemma length_header n cl hp es p N ch rest : 0 <= p → calm s_header_field_start n cl no_framing hp → 0 <= N < 2 ^ 31 →
  zdrop p data = length_name ++ [58; 32] ++ decimal N ++ crlf ++ ch :: rest → blank ch = false → 0 <= n →
  n + zlen length_name + zlen (decimal N) + 5 <= HTTP_MAX_HEADER_SIZE →
  ∃ hp', calm s_header_field_start (n + zlen length_name + zlen (decimal N) + 4) N length_framing hp' ∧
    steps (ready hp es) p (ready hp' (es ++ [ev_header_field length_name; ev_header_value (decimal N)])) (p + zlen length_name + zlen (decimal N) + 4).
Proof.
  intros Hp Hc HN Ed Hb Hn Hmax.
  assert (decimal N = dec_digits 20 N []) as Edec by (unfold decimal; by rewrite (proj2 (Z.ltb_ge N 0)) by lia).
  destruct (dec_digits_spec 20 N) as (Hd & Hne & Hval); [lia|lia|]. rewrite <- Edec in Hd, Hne, Hval. clear Edec.
  destruct (decimal N) as [|c v]; [done|]. rewrite zlen_cons in *. pose proof (zlen_nonneg v).
  change (zlen length_name) with 14 in *.
  destruct (name_line n cl no_framing hp es p 67 (bytes_of_string "ontent-Length") (32 :: (c :: v) ++ crlf ++ ch :: rest)
    (counted (name_start hp 67) <| index := 13 |> <| header_state := h_content_length |>)) as (hp1 & Hc1 & Hh1 & S1);
    [done|done|by vm_compute|exact Ed|done|change (zlen (bytes_of_string "ontent-Length")) with 13; lia|by rewrite field_loop_shift|destruct Hc; split; cbn; try done; lia|].
  change (zlen (bytes_of_string "ontent-Length")) with 13 in *. replace (n + 13 + 2) with (n + 15) in * by lia. replace (p + 13 + 2) with (p + 15) in * by lia.
  assert (Ed1 : zdrop (p + 15) data = 32 :: (c :: v) ++ 13 :: 10 :: ch :: rest).
  { replace (p + 15) with (p + zlen (length_name ++ [58])) by done. apply rest_app; [done|]. by rewrite <- app_assoc. }
  destruct (length_value (n + 15) cl hp1 (es ++ [ev_header_field length_name]) (p + 15) c v ch rest) as (hp' & Hc' & S2); try done; try lia.
  rewrite Hval in Hc'. exists hp'. replace (n + 14 + (1 + zlen v) + 4) with (n + 15 + zlen v + 4) by lia. split; [done|].
  replace (p + 14 + (1 + zlen v) + 4) with (p + 15 + zlen v + 4) by lia. eapply steps_trans; [exact S1|]. by rewrite <- app_assoc in S2.
Qed.

(** ** Several headers *)

Definition header_text (h : list Z * list Z) : list Z := h.1 ++ [58; 32] ++ h.2 ++ crlf.
Definition header_events (h : list Z * list Z) : list http_event := [ev_header_field h.1; ev_header_value h.2].
Definition plain_line (h : list Z * list Z) : Prop := plain_name h.1 ∧ plain_value h.2.

Lemma zlen_header h : zlen (header_text h) = zlen h.1 + zlen h.2 + 4.
Proof. unfold header_text. rewrite !zlen_app. change (zlen [58; 32]) with 2. change (zlen crlf) with 2. lia. Qed.

Lemma token_not_blank c : token c → blank c = false.
Proof.
  intros H. unfold blank. rewrite (token_no_space c H). unfold token, is_TAB in *. destruct (Z.eqb_spec c 9) as [->|]; [by destruct H|done].
Qed.

Lemma lines_begin hs ch rest : Forall plain_line hs → blank ch = false →
  ∃ ch1 rest1, concat (map header_text hs) ++ ch :: rest = ch1 :: rest1 ∧ blank ch1 = false.
Proof.
  intros Hhs Hb. destruct Hhs as [|[[|c name] v] hs [Hn _] _]; [by exists ch, rest|by destruct (n_filled _ Hn)|].
  eexists c, _. split; [reflexivity|]. apply token_not_blank. pose proof (n_tokens _ Hn) as Ht. by inversion Ht.
Qed.

Lemma plain_headers hs : ∀ n cl fl hp es p ch rest, 0 <= p → calm s_header_field_start n cl fl hp → Forall plain_line hs →
  zdrop p data = concat (map header_text hs) ++ ch :: rest → blank ch = false → 0 <= n → n + zlen (concat (map header_text hs)) < HTTP_MAX_HEADER_SIZE →
  ∃ hp', calm s_header_field_start (n + zlen (concat (map header_text hs))) cl fl hp' ∧
    steps (ready hp es) p (ready hp' (es ++ concat (map header_events hs))) (p + zlen (concat (map header_text hs))).
Proof.
  induction hs as [|h hs IH]; intros n cl fl hp es p ch rest Hp Hc Hhs Ed Hb Hn Hmax; cbn [map concat] in *.
  - exists hp. change (zlen (@nil Z)) with 0. rewrite !Z.add_0_r, app_nil_r. split; [done|apply steps_refl].
  - inversion_clear Hhs as [|? ? [Hname Hv] Hhs']. rewrite zlen_app, zlen_header in *. pose proof (zlen_nonneg h.1). pose proof (zlen_nonneg h.2).
    pose proof (zlen_nonneg (concat (map header_text hs))).
    destruct (lines_begin hs ch rest Hhs' Hb) as (ch1 & rest1 & E1 & Hb1).
    assert (Ed0 : zdrop p data = h.1 ++ [58; 32] ++ h.2 ++ crlf ++ ch1 :: rest1).
    { rewrite Ed, <- app_assoc, E1. unfold header_text. by rewrite <- !app_assoc. }
    destruct (plain_header n cl fl hp es p h.1 h.2 ch1 rest1 Hp Hc Hname Hv Ed0 Hb1 Hn ltac:(lia)) as (hp1 & Hc1 & S1).
    destruct (IH _ cl fl hp1 (es ++ header_events h) (p + zlen h.1 + zlen h.2 + 4) ch rest ltac:(lia) Hc1 Hhs') as (hp' & Hc' & S'); [|done|lia|lia|].
    { rewrite <- !Z.add_assoc, (Z.add_assoc (zlen h.1)), <- zlen_header. apply rest_app; [done|]. by rewrite Ed, <- app_assoc. }
    exists hp'. rewrite !Z.add_assoc. split; [done|]. eapply steps_trans; [exact S1|]. by rewrite <- app_assoc in S'.
Qed.

(** ** The end of the headers *)

Lemma quiet_flag fl hp g : quiet fl (flags hp) → g = F_CHUNKED ∨ g = F_TRAILING ∨ g = F_SKIPBODY → flag hp g = false.
Proof.
  unfold flag. intros [H _ _ _] Hg. apply negb_false_iff, Z.eqb_eq.
  assert (Z.land 81 g = g) as <- by (by destruct Hg as [->|[->| ->]]). by rewrite Z.land_assoc, H.
Qed.

(** The parser at the end of the headers, before it decides about the body. *)
Definition headers_read hp : http_parser := counted hp <| state := s_headers_done |> <| upgrade := false |>.

Lemma headers_end n cl fl hp es p rest m' : 0 <= p → calm s_header_field_start n cl fl hp → f_upgrade fl = false → zdrop p data = 13 :: 10 :: rest → 0 <= n → n + 2 <= HTTP_MAX_HEADER_SIZE →
  step_headers_done on (ready (headers_read (counted hp)) (es ++ [ev_headers_complete])) (p + 1) 10 = Advance m' (p + 1) →
  steps (ready hp es) p m' (p + 2).
Proof.
  intros Hp Hc Hup Ed Hn Hmax Hdone. pose proof (rest_next p _ _ Hp Ed) as Ed1.
  destruct (state_step s_header_field_start s_headers_almost_done n cl fl hp es p 13 (10 :: rest) Hc) as [Hc1 S1]; [done|done|lia| |].
  { unfold HttpParser.step. change (state (parser (ready (counted hp) es))) with (state hp). by rewrite (c_state _ _ _ _ _ Hc). }
  eapply steps_trans; [exact S1|]. set (hp1 := counted hp <| state := s_headers_almost_done |>) in *.
  replace (p + 2) with (p + 1 + 1) by lia.
  eapply (look_twice _ _ _ _ (ready (headers_read (counted hp)) (es ++ [ev_headers_complete])) (p + 1) 10); [exact Ed1|intros _; change (0 <= nread hp1 < HTTP_MAX_HEADER_SIZE); rewrite (c_nread _ _ _ _ _ Hc1); lia| |exact Hdone].
  destruct Hc1 as [_ _ _ Et Em El Ee _ Ef].
  transitivity (step_headers_almost_done on (ready (counted hp1) es) (p + 1) 10); [done|]. unfold step_headers_almost_done. cbn [expect is_LF Z.eqb Pos.eqb].
  change (flag (parser (ready (counted hp1) es)) F_TRAILING) with (flag hp1 F_TRAILING). rewrite (quiet_flag fl) by auto.
  change (uses_transfer_encoding (parser (ready (counted hp1) es))) with (uses_transfer_encoding hp1). rewrite Ee. cbn [andb].
  unfold upd, to_state, upd. cbn -[flag headers_read]. change (flag _ F_UPGRADE) with (negb (Z.land (flags hp1) F_UPGRADE =? 0)). rewrite (q_upgrade _ _ Ef), Hup. cbn [andb]. by rewrite bool_decide_eq_false_2.
Qed.

(** The end of the data, with a part of a body that is still to be given to the callback. *)
Lemma finish_body v hp es d : zdrop v data = d → len data = v + zlen d → finish on data (marked body v hp es) = Done hp (es ++ [ev_body d]) (len data).
Proof.
  intros Ed El.
  transitivity (match CALLBACK_DATA_NOADVANCE on data (marked body v hp es) body (len data) (λ m, CALLBACK_DATA_NOADVANCE on data m status (len data) (λ m, Return m (len data)))
    with Return m n => Done (parser m) (events m) n | _ => Failed end); [reflexivity|].
  rewrite (proj2 (callback_marked body v hp es (len data) _ d [] ltac:(by rewrite Ed, app_nil_r) ltac:(lia))). done.
Qed.

(** What is decided about the body. *)
Lemma body_decided fl hp es p : upgrade hp = false → uses_transfer_encoding hp = false → type hp = HTTP_REQUEST → quiet fl (flags hp) →
  step_headers_done on (ready hp es) p 10 =
    if (content_length hp =? 0) || (content_length hp =? ULLONG_MAX)
    then message_complete on (ready (hp <| nread := 0 |>) es) p (λ m, Advance m p)
    else Advance (ready (hp <| nread := 0 |> <| state := s_body_identity |>) es) p.
Proof.
  intros Hu He Ht Hq. unfold step_headers_done. cbn [expect is_LF Z.eqb Pos.eqb].
  change (upd (ready hp es) (λ hp, hp <| nread := 0 |>)) with (ready (hp <| nread := 0 |>) es). change (parser (ready ?x es)) with x.
  change (upgrade (hp <| nread := 0 |>)) with (upgrade hp). rewrite Hu. cbn [andb].
  rewrite (quiet_flag fl (hp <| nread := 0 |>) F_SKIPBODY), (quiet_flag fl (hp <| nread := 0 |>) F_CHUNKED) by (done || auto).
  change (uses_transfer_encoding (hp <| nread := 0 |>)) with (uses_transfer_encoding hp). rewrite He.
  change (content_length (hp <| nread := 0 |>)) with (content_length hp).
  assert (http_message_needs_eof (hp <| nread := 0 |>) = false) as -> by (unfold http_message_needs_eof; by rewrite decide_True).
  destruct (content_length hp =? 0); [done|]. by destruct (content_length hp =? ULLONG_MAX).
Qed.

Lemma calm_headers_read s n cl fl hp : calm s n cl fl hp → calm s_headers_done (n + 2) cl fl (headers_read (counted hp)).
Proof. intros []. split; cbn; try done. lia. Qed.

(** No body: the message is complete with its headers. *)
Lemma no_body n cl fl hp es p rest : 0 <= p → calm s_header_field_start n cl fl hp → f_upgrade fl = false → (cl = 0 ∨ cl = ULLONG_MAX) →
  zdrop p data = 13 :: 10 :: rest → 0 <= n → n + 2 <= HTTP_MAX_HEADER_SIZE →
  ∃ hp', upgrade hp' = false ∧ steps (ready hp es) p (ready hp' (es ++ [ev_headers_complete; ev_message_complete])) (p + 2).
Proof.
  intros Hp Hc Hup Hcl Ed Hn Hmax. destruct (calm_headers_read _ _ _ _ _ Hc) as [_ _ _ Et Em El Ee Ecl Ef].
  set (hp0 := headers_read (counted hp) <| nread := 0 |>).
  exists (parser (new_message (ready hp0 []))). split; [done|]. eapply headers_end; [done|exact Hc|done|exact Ed|done|done|].
  rewrite (body_decided fl) by done. rewrite Ecl. assert ((cl =? 0) || (cl =? ULLONG_MAX) = true) as -> by (destruct Hcl as [->| ->]; done).
  assert (es ++ [ev_headers_complete; ev_message_complete] = (es ++ [ev_headers_complete]) ++ [ev_message_complete]) as -> by (by rewrite <- app_assoc). done.
Qed.

(** A body of [cl] bytes begins behind the headers. *)
Lemma body_begins n cl fl hp es p rest : 0 <= p → calm s_header_field_start n cl fl hp → f_upgrade fl = false → 0 < cl < ULLONG_MAX →
  zdrop p data = 13 :: 10 :: rest → 0 <= n → n + 2 <= HTTP_MAX_HEADER_SIZE →
  ∃ hp', state hp' = s_body_identity ∧ content_length hp' = cl ∧ upgrade hp' = false ∧
    steps (ready hp es) p (ready hp' (es ++ [ev_headers_complete])) (p + 2).
Proof.
  intros Hp Hc Hup Hcl Ed Hn Hmax. destruct (calm_headers_read _ _ _ _ _ Hc) as [_ _ _ Et Em El Ee Ecl Ef].
  eexists. split; [|split; [|split; [|eapply headers_end; [done|exact Hc|done|exact Ed|done|done|]; rewrite (body_decided fl), Ecl by done;
    rewrite (proj2 (Z.eqb_neq _ _)), (proj2 (Z.eqb_neq _ _)) by lia; reflexivity]]]; done.
Qed.

(** The machine is at the end of the data, and the call then leaves this. *)
Definition ends m (p : Z) (es : list http_event) : Prop :=
  ∃ m' hp', steps m p m' (len data) ∧ finish on data m' = Done hp' es (len data) ∧ upgrade hp' = false.

Lemma ends_steps m p m' p' es : steps m p m' p' → ends m' p' es → ends m p es.
Proof. intros H1 (m'' & hp' & H2 & H3). exists m'', hp'. split; [by eapply steps_trans|done]. Qed.

Lemma ends_ready hp es p : p = len data → upgrade hp = false → ends (ready hp es) p es.
Proof. intros -> Hu. exists (ready hp es), hp. split; [apply steps_refl|done]. Qed.

(** The first look at a body that reaches to the end of the data. *)
Lemma body_step hp es p c b : 0 <= p → state hp = s_body_identity → content_length hp < ULLONG_MAX → zdrop p data = b →
  len data = p + zlen b → 0 < zlen b <= content_length hp →
  step (look (ready hp es)) p c =
    let hp1 := hp <| content_length := content_length hp - zlen b |> in
    if content_length hp1 =? 0 then Reexecute (ready (hp1 <| state := s_message_done |>) (es ++ [ev_body b])) (len data - 1) c
    else Advance (marked body p hp1 es) (len data - 1).
Proof.
  intros Hp Es Hcl Ed El Hb. unfold look. change (state (parser (ready hp es))) with (state hp). rewrite Es. cbn [PARSING_HEADER].
  unfold HttpParser.step, step_body. change (state (parser (ready hp es))) with (state hp). rewrite Es.
  change (parser (ready hp es)) with hp. rewrite (proj2 (Z.eqb_neq (content_length hp) 0)), (proj2 (Z.eqb_neq (content_length hp) ULLONG_MAX)) by lia. cbn [negb andb].
  replace (Z.min (content_length hp) (len data - p)) with (zlen b) by lia. replace (p + (zlen b - 1)) with (len data - 1) by lia.
  change (upd (do_mark (ready hp es) body p) (λ hp, hp <| content_length := content_length hp - zlen b |>)) with (marked body p (hp <| content_length := content_length hp - zlen b |>) es).
  change (parser (marked body p ?x es)) with x. cbv zeta. destruct (_ =? 0); [|done].
  change (to_state (marked body p ?x es) s_message_done) with (marked body p (x <| state := s_message_done |>) es).
  change (mark_length (marked body p ?x es) body (len data - 1)) with (len data - 1 - p).
  rewrite (call_marked body p _ es _ _ _ b []); [done|by rewrite app_nil_r|lia].
Qed.

(** The callbacks for the part [b] of a body of [cl] bytes. *)
Definition body_events (cl : Z) (b : list Z) : list http_event :=
  if zlen b =? 0 then [] else if zlen b =? cl then [ev_body b; ev_message_complete] else [ev_body b].

Lemma body_ends hp es p b : 0 <= p → state hp = s_body_identity → upgrade hp = false → content_length hp < ULLONG_MAX → zdrop p data = b →
  len data = p + zlen b → zlen b <= content_length hp → ends (ready hp es) p (es ++ body_events (content_length hp) b).
Proof.
  intros Hp Es Hu Hcl Ed El Hb. unfold body_events. pose proof (zlen_nonneg b). destruct (Z.eqb_spec (zlen b) 0) as [E0|E0].
  { rewrite app_nil_r. apply ends_ready; [lia|done]. }
  assert (∃ c b', b = c :: b') as (c & b' & Eb) by (destruct b; [by unfold zlen in E0|eauto]).
  pose proof (body_step hp es p c b Hp Es Hcl Ed El ltac:(lia)) as Hstep. cbv zeta in Hstep.
  change (content_length (hp <| content_length := content_length hp - zlen b |>)) with (content_length hp - zlen b) in Hstep.
  assert (Hroom : room (ready hp es)) by (unfold room; cbn; by rewrite Es).
  destruct (Z.eqb_spec (zlen b) (content_length hp)) as [Ef|Ef].
  - rewrite (proj2 (Z.eqb_eq _ _)) in Hstep by lia. set (hp1 := hp <| content_length := content_length hp - zlen b |> <| state := s_message_done |>) in *.
    eapply ends_steps; [eapply look_twice; [by rewrite Ed, Eb|done|exact Hstep|]|].
    { transitivity (step_body on data (ready hp1 (es ++ [ev_body b])) (len data - 1) c); [done|]. unfold step_body, message_complete, notify.
      cbn [state parser ready hp1 Z.eqb]. change (upgrade (parser _)) with (upgrade hp). rewrite Hu. reflexivity. }
    replace (len data - 1 + 1) with (len data) by lia.
    assert (es ++ [ev_body b; ev_message_complete] = (es ++ [ev_body b]) ++ [ev_message_complete]) as -> by (by rewrite <- app_assoc). by apply (ends_ready (parser (new_message (ready hp1 [])))).
  - rewrite (proj2 (Z.eqb_neq _ _)) in Hstep by lia. eapply ends_steps; [eapply look_step; [by rewrite Ed, Eb|done|exact Hstep]|].
    replace (len data - 1 + 1) with (len data) by lia. eexists _, _. split; [apply steps_refl|]. split; [by apply finish_body|done].
Qed.

(** ** The whole call *)

Definition start : machine := initial_machine (http_parser_init HTTP_REQUEST).

Lemma run_done m p k hp es n : steps start 0 m p → loop k m p None = Done hp es n → data ≠ [] → run_request data = mkRun es n (upgrade hp).
Proof.
  intros Hs Hd Hne.
  destruct (execute_ok on HTTP_MAX_HEADER_SIZE data (http_parser_init HTTP_REQUEST)) as (hp1 & es1 & n1 & E & _); [by apply reachable_ok, reach_init|].
  assert (El : (len data =? 0) = false) by (apply Z.eqb_neq; intros E0%zlen_zero; done).
  assert (Er : http_parser_execute on HTTP_MAX_HEADER_SIZE data (http_parser_init HTTP_REQUEST) = loop (run_fuel data) start 0 None).
  { unfold http_parser_execute. rewrite El. done. }
  unfold run_request. rewrite Er, (steps_result (run_fuel data) start 0 m p k), Hd; [done|done|congruence|congruence].
Qed.

Lemma run_ends es : ends start 0 es → data ≠ [] → run_request data = mkRun es (zlen data) false.
Proof.
  intros (m' & hp' & Hs & Hf & Hu) Hne. rewrite (run_done m' (len data) 1 hp' es (len data)); [by rewrite Hu|done| |done].
  cbn [run_loop]. by rewrite zdrop_all by (unfold len; lia).
Qed.

Definition version_line : list Z := bytes_of_string "HTTP/1.1" ++ crlf.
Definition request_line (meth : http_method) (u : list Z) : list Z :=
  bytes_of_string (method_string meth) ++ [32] ++ (chr "/" :: u) ++ [32] ++ version_line.

Lemma request_line_read meth u rest : meth ≠ HTTP_CONNECT → Forall visible u → data = request_line meth u ++ rest →
  zlen (request_line meth u) <= HTTP_MAX_HEADER_SIZE →
  ∃ hp, calm s_header_field_start (zlen (request_line meth u)) ULLONG_MAX no_framing hp ∧
    steps start 0 (ready hp [ev_message_begin; ev_url (chr "/" :: u)]) (zlen (request_line meth u)).
Proof.
  intros Hm Hu Ed Hmax. unfold request_line in *. rewrite <- !app_assoc in Ed. set (name := bytes_of_string (method_string meth)) in *.
  assert (El : zlen (name ++ [32] ++ (chr "/" :: u) ++ [32] ++ version_line) = zlen name + 1 + zlen u + 2 + zlen version_line).
  { rewrite !zlen_app, !zlen_cons. change (zlen (@nil Z)) with 0. lia. }
  rewrite El in *. pose proof (zlen_nonneg name). pose proof (zlen_nonneg u). pose proof (zlen_nonneg version_line).
  destruct (request_method meth _ Hm Ed) as (hp1 & Hc1 & S1). fold name in Hc1, S1.
  assert (Ed1 : zdrop (zlen name + 1) data = (chr "/" :: u) ++ [32] ++ version_line ++ rest).
  { change (zlen name + 1) with (zlen name + zlen [32]). rewrite <- zlen_app. rewrite Ed, app_assoc. by apply zdrop_app_eq. }
  destruct (request_path u _ _ _ hp1 [ev_message_begin] (zlen name + 1) _ ltac:(lia) Hc1 Hu Ed1) as (hp2 & Hc2 & S2); [lia|lia|].
  assert (Ed2 : zdrop (zlen name + 1 + zlen u + 2) data = version_line ++ rest).
  { replace (zlen name + 1 + zlen u + 2) with (zlen name + 1 + zlen ((chr "/" :: u) ++ [32])) by (rewrite zlen_app, !zlen_cons; change (zlen (@nil Z)) with 0; lia).
    apply rest_app; [lia|]. by rewrite <- app_assoc. }
  destruct (version_steps version_line s_req_http_start s_header_field_start _ _ _ hp2 ([ev_message_begin] ++ [ev_url (chr "/" :: u)]) (zlen name + 1 + zlen u + 2) rest ltac:(lia) Hc2 eq_refl Ed2) as (hp3 & Hc3 & S3); [lia|lia|].
  exists hp3. split; [done|]. eapply steps_trans; [exact S1|]. eapply steps_trans; [exact S2|exact S3].
Qed.
End Request.

(** ** Requests *)

Definition headers_text (hs : list (list Z * list Z)) : list Z := concat (map header_text hs).
Definition headers_events (hs : list (list Z * list Z)) : list http_event := concat (map header_events hs).

(** A request without a body, and the head of one with a body of [cl] bytes, between any other headers. *)
Definition bare_request (meth : http_method) (u : list Z) (hs : list (list Z * list Z)) : list Z :=
  request_line meth u ++ headers_text hs ++ crlf.
Definition body_head (meth : http_method) (u : list Z) (hs1 : list (list Z * list Z)) (cl : Z) (hs2 : list (list Z * list Z)) : list Z :=
  request_line meth u ++ headers_text hs1 ++ header_text (length_name, decimal cl) ++ headers_text hs2 ++ crlf.

Definition line_events (u : list Z) : list http_event := [ev_message_begin; ev_url (chr "/" :: u)].
Definition bare_events (u : list Z) (hs : list (list Z * list Z)) : list http_event :=
  line_events u ++ headers_events hs ++ [ev_headers_complete; ev_message_complete].
Definition request_events (u : list Z) (hs1 : list (list Z * list Z)) (cl : Z) (hs2 : list (list Z * list Z)) (b : list Z) : list http_event :=
  line_events u ++ headers_events hs1 ++ header_events (length_name, decimal cl) ++ headers_events hs2 ++ [ev_headers_complete] ++ body_events cl b.

Lemma request_line_filled meth u rest : request_line meth u ++ rest ≠ [].
Proof. by destruct meth. Qed.

(** The first line alone. *)
Lemma line_parsed meth u : meth ≠ HTTP_CONNECT → Forall visible u → zlen (request_line meth u) <= HTTP_MAX_HEADER_SIZE →
  run_request (request_line meth u) = mkRun (line_events u) (zlen (request_line meth u)) false.
Proof.
  intros Hm Hu Hmax. apply run_ends; [|by destruct meth].
  destruct (request_line_read (request_line meth u) meth u [] Hm Hu ltac:(by rewrite app_nil_r) Hmax) as (hp & Hc & S). eapply ends_steps; [exact S|].
  apply ends_ready; [done|apply Hc].
Qed.

(** [http_parser_execute] on a request without a body: the callbacks are the beginning, the path, every header with
    its value and the end, in this order; it consumes the whole text and does not ask for an upgrade. *)
Theorem bare_request_parsed meth u hs : meth ≠ HTTP_CONNECT → Forall visible u → Forall plain_line hs →
  zlen (bare_request meth u hs) <= HTTP_MAX_HEADER_SIZE →
  run_request (bare_request meth u hs) = mkRun (bare_events u hs) (zlen (bare_request meth u hs)) false.
Proof.
  intros Hm Hu Hhs Hmax. set (data := bare_request meth u hs) in *. apply run_ends; [|apply request_line_filled].
  pose proof (zlen_nonneg (request_line meth u)). pose proof (zlen_nonneg (headers_text hs)).
  assert (El : zlen data = zlen (request_line meth u) + zlen (headers_text hs) + 2) by (unfold data, bare_request; rewrite !zlen_app; change (zlen crlf) with 2; lia).
  destruct (request_line_read data meth u (headers_text hs ++ crlf) Hm Hu eq_refl ltac:(lia)) as (hp1 & Hc1 & S1).
  assert (Ed1 : zdrop (zlen (request_line meth u)) data = headers_text hs ++ crlf) by (by apply zdrop_app_eq).
  destruct (plain_headers data hs _ _ _ hp1 (line_events u) (zlen (request_line meth u)) 13 [10] ltac:(lia) Hc1 Hhs Ed1) as (hp2 & Hc2 & S2); [done|lia|unfold headers_text in *; lia|].
  assert (Ed2 : zdrop (zlen (request_line meth u) + zlen (headers_text hs)) data = crlf) by (by apply rest_app; [lia|]). fold (headers_text hs) in Hc2, S2.
  destruct (no_body data _ _ _ hp2 (line_events u ++ headers_events hs) (zlen (request_line meth u) + zlen (headers_text hs)) [] ltac:(lia) Hc2 eq_refl ltac:(by right) Ed2) as (hp3 & Hu3 & S3); [lia|lia|].
  eapply ends_steps; [exact S1|]. eapply ends_steps; [exact S2|]. eapply ends_steps; [exact S3|].
  unfold bare_events. rewrite app_assoc. apply ends_ready; [|done]. unfold len. lia.
Qed.

(** [http_parser_execute] on a request with a body, as far as the body has arrived: the callbacks are the beginning,
    the path, every header with its value, the end of the headers, the part of the body that is there, and the end
    of the message exactly when that is all of it.  The whole text is consumed and no upgrade is asked for. *)
Lemma body_request_parsed meth u hs1 cl hs2 b : meth ≠ HTTP_CONNECT → Forall visible u → Forall plain_line hs1 → Forall plain_line hs2 →
  0 < cl < 2 ^ 31 → zlen (body_head meth u hs1 cl hs2) <= HTTP_MAX_HEADER_SIZE → zlen b <= cl →
  run_request (body_head meth u hs1 cl hs2 ++ b) = mkRun (request_events u hs1 cl hs2 b) (zlen (body_head meth u hs1 cl hs2 ++ b)) false.
Proof.
  intros Hm Hu Hhs1 Hhs2 Hcl Hmax Hb. set (data := body_head meth u hs1 cl hs2 ++ b). set (l0 := request_line meth u).
  set (lcl := header_text (length_name, decimal cl)).
  assert (Ed0 : data = l0 ++ headers_text hs1 ++ lcl ++ headers_text hs2 ++ crlf ++ b) by (unfold data, body_head; by rewrite <- !app_assoc).
  apply run_ends; [|unfold data, body_head; rewrite <- !app_assoc; apply request_line_filled].
  pose proof (zlen_nonneg l0). pose proof (zlen_nonneg (headers_text hs1)). pose proof (zlen_nonneg (headers_text hs2)). pose proof (zlen_nonneg lcl). pose proof (zlen_nonneg b).
  assert (El : zlen (body_head meth u hs1 cl hs2) = zlen l0 + zlen (headers_text hs1) + zlen lcl + zlen (headers_text hs2) + 2).
  { unfold body_head. rewrite !zlen_app. change (zlen crlf) with 2. unfold lcl, l0. lia. }
  assert (Elc : zlen lcl = zlen length_name + zlen (decimal cl) + 4) by apply zlen_header.
  set (p1 := zlen l0). set (p2 := p1 + zlen (headers_text hs1)). set (p3 := p2 + zlen lcl). set (p4 := p3 + zlen (headers_text hs2)).
  assert (Ed1 : zdrop p1 data = headers_text hs1 ++ lcl ++ headers_text hs2 ++ crlf ++ b) by (rewrite Ed0; by apply zdrop_app_eq).
  assert (Ed2 : zdrop p2 data = lcl ++ headers_text hs2 ++ crlf ++ b) by (by apply rest_app; [lia|]).
  assert (Ed3 : zdrop p3 data = headers_text hs2 ++ crlf ++ b) by (by apply rest_app; [lia|]).
  assert (Ed4 : zdrop p4 data = crlf ++ b) by (by apply rest_app; [lia|]).
  destruct (request_line_read data meth u _ Hm Hu Ed0 ltac:(unfold l0 in *; lia)) as (hp1 & Hc1 & S1).
  destruct (plain_headers data hs1 p1 _ _ hp1 (line_events u) p1 67 (skipn 1 (lcl ++ headers_text hs2 ++ crlf ++ b)) ltac:(lia) Hc1 Hhs1 Ed1) as (hp2 & Hc2 & S2); [done|lia|fold (headers_text hs1); lia|].
  fold (headers_text hs1) (headers_events hs1) in Hc2, S2.
  destruct (lines_begin hs2 13 (10 :: b) Hhs2 eq_refl) as (ch & rest & E2 & Hch). fold (headers_text hs2) in E2.
  assert (Ed2' : zdrop p2 data = length_name ++ [58; 32] ++ decimal cl ++ crlf ++ ch :: rest).
  { rewrite Ed2. unfold lcl, header_text. cbn [fst snd]. rewrite <- !app_assoc. repeat f_equal. exact E2. }
  destruct (length_header data p2 _ hp2 (line_events u ++ headers_events hs1) p2 cl ch rest ltac:(lia) Hc2 ltac:(lia) Ed2' Hch) as (hp3 & Hc3 & S3); [lia|lia|].
  replace (p2 + zlen length_name + zlen (decimal cl) + 4) with p3 in Hc3, S3 by lia.
  destruct (plain_headers data hs2 p3 _ _ hp3 ((line_events u ++ headers_events hs1) ++ header_events (length_name, decimal cl)) p3 13 (10 :: b) ltac:(lia) Hc3 Hhs2 Ed3)
    as (hp4 & Hc4 & S4); [done|lia|fold (headers_text hs2); lia|]. fold (headers_text hs2) (headers_events hs2) in Hc4, S4.
  destruct (body_begins data p4 cl length_framing hp4 (((line_events u ++ headers_events hs1) ++ header_events (length_name, decimal cl)) ++ headers_events hs2) p4 b ltac:(lia) Hc4 eq_refl
    ltac:(unfold ULLONG_MAX; lia) Ed4) as (hp5 & Es5 & Ecl & Hu5 & S5); [lia|lia|].
  eapply ends_steps; [exact S1|]. eapply ends_steps; [exact S2|]. eapply ends_steps; [exact S3|]. eapply ends_steps; [exact S4|]. eapply ends_steps; [exact S5|].
  unfold request_events. rewrite !app_assoc, <- Ecl. apply body_ends; try done; [lia|rewrite Ecl; unfold ULLONG_MAX; lia| | |lia].
  - replace (p4 + 2) with (p4 + zlen crlf) by done. by apply rest_app; [lia|].
  - unfold len, data. rewrite zlen_app. lia.
Qed.

(** A line of a request, checked by computation. *)
Definition plain_lineb (h : list Z * list Z) : bool :=
  forallb (λ c, negb (TOKEN c =? 0)) h.1 && negb (bool_decide (h.1 = [])) && negb (bool_decide (lower h.1 = CONTENT_LENGTH)) &&
  negb (bool_decide (lower h.1 = UPGRADE)) && negb (bool_decide (TRANSFER_ENCODING `prefix_of` lower h.1)) &&
  forallb (λ c, IS_HEADER_CHAR c && negb (is_CR c) && negb (is_LF c)) h.2 &&
  match h.2 with c :: _ => negb (blank c) && negb (is_CR c) && negb (is_LF c) | [] => false end.

Lemma plain_lineb_sound h : plain_lineb h = true → plain_line h.
Proof.
  unfold plain_lineb. rewrite !andb_true_iff, !negb_true_iff, !bool_decide_eq_false, !forallb_forall.
  intros ((((((Ht & Hf) & Hl) & Hu) & He) & Hv) & H1). split; split; try done.
  - apply Forall_forall. intros c Hc%list_elem_of_In. specialize (Ht c Hc). unfold token. lia.
  - apply Forall_forall. intros c Hc%list_elem_of_In. specialize (Hv c Hc). rewrite !andb_true_iff, !negb_true_iff in Hv. by destruct Hv as [[? ?] ?].
  - destruct (h.2); [done|]. rewrite !andb_true_iff, !negb_true_iff in H1. by destruct H1 as [[? ?] ?].
Qed.

Lemma visible_sound u : forallb (λ c, (33 <=? c) && (c <=? 126)) u = true → Forall visible u.
Proof. rewrite forallb_forall. intros H. apply Forall_forall. intros c Hc%list_elem_of_In. specialize (H c Hc). unfold visible. lia. Qed.

Lemma plain_lines_sound hs : forallb plain_lineb hs = true → Forall plain_line hs.
Proof. rewrite forallb_forall. intros H. apply Forall_forall. intros h Hh%list_elem_of_In. by apply plain_lineb_sound, H. Qed.

Lemma bare_request_parsed_witness :
  run_request (bare_request HTTP_GET (bytes_of_string "index.html") [(bytes_of_string "Host", bytes_of_string "a")]) =
    mkRun (bare_events (bytes_of_string "index.html") [(bytes_of_string "Host", bytes_of_string "a")])
      (zlen (bare_request HTTP_GET (bytes_of_string "index.html") [(bytes_of_string "Host", bytes_of_string "a")])) false.
Proof.
  apply bare_request_parsed; [done|by apply visible_sound|by apply plain_lines_sound|vm_compute; congruence].
Defined.
