(* ===== verification/HttpUpgrade.v ===== *)
(** * Websocket requests through the HTTP parser

    The request that opens a websocket: [http_parser_execute] stops behind its headers and asks for the upgrade. *)

From Stdlib Require Import ZArith Lia.
From S2P Require Import Prelude Define HttpFormat HttpParser HttpParserFacts HttpRequest.
From stdpp Require Import base numbers list gmap strings.
Local Open Scope Z_scope.

Implicit Types (hp : http_parser) (m : machine).

(** The lines of such a request: any that do not frame the message, and the two that ask for the upgrade. *)
Inductive head_line := Plain (h : list Z * list Z) | Upgrade_line | Connection_line.

Definition line_pair (l : head_line) : list Z * list Z :=
  match l with
  | Plain h => h
  | Upgrade_line => (bytes_of_string "Upgrade", bytes_of_string "websocket")
  | Connection_line => (bytes_of_string "Connection", bytes_of_string "Upgrade")
  end.
Definition line_ok (l : head_line) : Prop := match l with Plain h => plain_line h | _ => True end.
Definition read_line (fl : framing) (l : head_line) : framing :=
  match l with
  | Plain _ => fl
  | Upgrade_line => mkFraming (f_length fl) true (f_asked fl)
  | Connection_line => mkFraming (f_length fl) (f_upgrade fl) true
  end.

(** ** Flags *)

Lemma quiet_upgrade fl f : quiet fl f → quiet (read_line fl Upgrade_line) (Z.lor f F_UPGRADE).
Proof.
  intros [H1 H2 H3 H4]. split; cbn [read_line f_length f_upgrade f_asked].
  - by rewrite Z.land_lor_distr_l, H1.
  - by rewrite Z.land_lor_distr_l, (eq_refl : Z.land F_UPGRADE F_CONTENTLENGTH = 0), Z.lor_0_r.
  - rewrite Z.land_lor_distr_l. apply negb_true_iff, Z.eqb_neq. by intros [_ E]%Z.lor_eq_0_iff.
  - intros Ha. by apply lor_kept, H4.
Qed.

Lemma quiet_asked fl f : quiet fl f → quiet (read_line fl Connection_line) (Z.lor f F_CONNECTION_UPGRADE).
Proof.
  intros Hq. destruct (quiet_connection fl f 8 Hq) as [H1 H2 H3 _]; [by auto|]. split; try done. intros _.
  change (Z.land (Z.lor f 8) 8 ≠ 0). rewrite Z.land_lor_distr_l. by intros [_ E]%Z.lor_eq_0_iff.
Qed.

(** ** Positions in a value *)

Definition shift (p : Z) (r : value_end) : value_end :=
  match r with
  | VCR hp h q => VCR hp h (p + q) | VLF hp h q => VLF hp h (p + q) | VEnd hp h q => VEnd hp h (p + q) | VBad hp e q => VBad hp e (p + q) | VDead => VDead
  end.

Lemma value_loop_shift max l : ∀ hp h p skip, value_loop max hp h l p skip = shift p (value_loop max hp h l 0 skip).
Proof.
  induction l as [|ch l IH]; intros hp h p skip; cbn [value_loop shift]; [by rewrite Z.add_0_r|].
  assert (H : ∀ hp h skip, value_loop max hp h l (p + 1) skip = shift p (value_loop max hp h l (0 + 1) skip)).
  { intros hp' h' skip'. rewrite IH, (IH hp' h' (0 + 1)). destruct (value_loop max hp' h' l 0 skip'); cbn [shift]; f_equal; lia. }
  destruct skip; [|apply H]. destruct (is_CR ch); [cbn; by rewrite Z.add_0_r|]. destruct (is_LF ch); [cbn; by rewrite Z.add_0_r|].
  destruct (_ && _); [cbn; by rewrite Z.add_0_r|]. destruct (decide _).
  - destruct (general_run _ _ _); [apply H|done].
  - destruct (value_char _ _ _); [apply H|cbn; by rewrite Z.add_0_r|done].
Qed.

Section Upgrade.
Context (data : list Z).
Notation on := (λ _ _, 0).
Notation loop := (run_loop on HTTP_MAX_HEADER_SIZE data).
Notation step := (step on HTTP_MAX_HEADER_SIZE data).
Notation steps := (steps data).

(** ** The two lines *)

Lemma upgrade_header n cl fl hp es p ch rest : 0 <= p → calm s_header_field_start n cl fl hp →
  zdrop p data = header_text (line_pair Upgrade_line) ++ ch :: rest → blank ch = false → 0 <= n → n + 21 <= HTTP_MAX_HEADER_SIZE →
  ∃ hp', calm s_header_field_start (n + 20) cl (read_line fl Upgrade_line) hp' ∧
    steps (ready hp es) p (ready hp' (es ++ header_events (line_pair Upgrade_line))) (p + 20).
Proof.
  intros Hp Hc Ed Hb Hn Hmax.
  destruct (name_line data n cl fl hp es p 85 (bytes_of_string "pgrade") (32 :: bytes_of_string "websocket" ++ crlf ++ ch :: rest)
    (counted (name_start hp 85) <| index := 6 |> <| header_state := h_upgrade |>)) as (hp1 & Hc1 & Hh1 & S1);
    [done|done|by vm_compute|exact Ed|done|change (zlen (bytes_of_string "pgrade")) with 6; lia|by rewrite field_loop_shift|destruct Hc; split; cbn; try done; lia|].
  change (zlen (bytes_of_string "pgrade")) with 6 in *. replace (n + 6 + 2) with (n + 8) in * by lia. replace (p + 6 + 2) with (p + 8) in * by lia.
  assert (Ed1 : zdrop (p + 8) data = 32 :: (119 :: bytes_of_string "ebsocket") ++ 13 :: 10 :: ch :: rest).
  { change 8 with (zlen (bytes_of_string "Upgrade:")). by apply rest_app; [done|]. }
  set (es1 := es ++ [ev_header_field (85 :: bytes_of_string "pgrade")]) in *.
  set (hp2 := set_flag (counted (counted hp1)) F_UPGRADE <| state := s_header_value |> <| index := 0 |> <| header_state := h_general |>).
  assert (E2 : step_value_start (ready (counted (counted hp1)) es1) (p + 8 + 1) 119 = Advance (marked header_value (p + 8 + 1) hp2 es1) (p + 8 + 1)).
  { unfold step_value_start, do_mark. cbn [get_mark header_value_mark ready]. change (header_state (parser _)) with (header_state hp1). by rewrite Hh1. }
  destruct (value_line data (n + 8) cl fl cl (read_line fl Upgrade_line) (read_line fl Upgrade_line) hp1 es1 (p + 8) 119 (bytes_of_string "ebsocket") ch rest hp2 (counted hp2) h_general)
    as (hp' & Hc' & S2); try done; try lia.
  - change (zlen (bytes_of_string "ebsocket")) with 8. lia.
  - cbn. rewrite (c_nread _ _ _ _ _ Hc1). lia.
  - apply value_loop_skip; [apply Hc1|repeat constructor|done|done|lia].
  - destruct Hc1. split; try done; [cbn; lia|by apply quiet_upgrade].
  - by apply header_flags_quiet.
  - exists hp'. change (zlen (bytes_of_string "ebsocket")) with 8 in *. replace (n + 20) with (n + 8 + 8 + 4) by lia. split; [done|].
    replace (p + 20) with (p + 8 + 8 + 4) by lia. eapply steps_trans; [exact S1|]. unfold es1 in S2. by rewrite <- app_assoc in S2.
Qed.

Lemma connection_header n cl fl hp es p ch rest : 0 <= p → calm s_header_field_start n cl fl hp →
  zdrop p data = header_text (line_pair Connection_line) ++ ch :: rest → blank ch = false → 0 <= n → n + 22 <= HTTP_MAX_HEADER_SIZE →
  ∃ hp', calm s_header_field_start (n + 21) cl (read_line fl Connection_line) hp' ∧
    steps (ready hp es) p (ready hp' (es ++ header_events (line_pair Connection_line))) (p + 21).
Proof.
  intros Hp Hc Ed Hb Hn Hmax.
  destruct (name_line data n cl fl hp es p 67 (bytes_of_string "onnection") (32 :: bytes_of_string "Upgrade" ++ crlf ++ ch :: rest)
    (counted (name_start hp 67) <| index := 9 |> <| header_state := h_connection |>)) as (hp1 & Hc1 & Hh1 & S1);
    [done|done|by vm_compute|exact Ed|done|change (zlen (bytes_of_string "onnection")) with 9; lia|by rewrite field_loop_shift|destruct Hc; split; cbn; try done; lia|].
  change (zlen (bytes_of_string "onnection")) with 9 in *. replace (n + 9 + 2) with (n + 11) in * by lia. replace (p + 9 + 2) with (p + 11) in * by lia.
  assert (Ed1 : zdrop (p + 11) data = 32 :: (85 :: bytes_of_string "pgrade") ++ 13 :: 10 :: ch :: rest).
  { change 11 with (zlen (bytes_of_string "Connection:")). by apply rest_app; [done|]. }
  set (es1 := es ++ [ev_header_field (67 :: bytes_of_string "onnection")]) in *.
  set (hp2 := counted (counted hp1) <| state := s_header_value |> <| index := 0 |> <| header_state := h_matching_connection_upgrade |>).
  assert (E2 : step_value_start (ready (counted (counted hp1)) es1) (p + 11 + 1) 85 = Advance (marked header_value (p + 11 + 1) hp2 es1) (p + 11 + 1)).
  { unfold step_value_start, do_mark. cbn [get_mark header_value_mark ready]. change (header_state (parser _)) with (header_state hp1). by rewrite Hh1. }
  destruct (value_line data (n + 11) cl fl cl fl (read_line fl Connection_line) hp1 es1 (p + 11) 85 (bytes_of_string "pgrade") ch rest hp2 (counted hp2 <| index := 6 |>) h_connection_upgrade)
    as (hp' & Hc' & S2); try done; try lia.
  - change (zlen (bytes_of_string "pgrade")) with 6. lia.
  - cbn. rewrite (c_nread _ _ _ _ _ Hc1). lia.
  - rewrite value_loop_shift. pose proof (c_lenient _ _ _ _ _ Hc1) as Hl. destruct hp1. cbn in Hl. subst. done.
  - destruct Hc1. split; try done. cbn. lia.
  - intros s k hp0 Hc0 Hh0. unfold header_flags. rewrite Hh0. destruct Hc0. split; try done. by apply quiet_asked.
  - exists hp'. change (zlen (bytes_of_string "pgrade")) with 6 in *. replace (n + 21) with (n + 11 + 6 + 4) by lia. split; [done|].
    replace (p + 21) with (p + 11 + 6 + 4) by lia. eapply steps_trans; [exact S1|]. unfold es1 in S2. by rewrite <- app_assoc in S2.
Qed.

(** ** All the lines *)

Lemma line_header l n cl fl hp es p ch rest : 0 <= p → calm s_header_field_start n cl fl hp → line_ok l →
  zdrop p data = header_text (line_pair l) ++ ch :: rest → blank ch = false → 0 <= n → n + zlen (header_text (line_pair l)) < HTTP_MAX_HEADER_SIZE →
  ∃ hp', calm s_header_field_start (n + zlen (header_text (line_pair l))) cl (read_line fl l) hp' ∧
    steps (ready hp es) p (ready hp' (es ++ header_events (line_pair l))) (p + zlen (header_text (line_pair l))).
Proof.
  intros Hp Hc Hl Ed Hb Hn Hmax. destruct l as [h| |].
  - destruct Hl as [Hname Hv]. rewrite zlen_header in *. rewrite !Z.add_assoc. cbn [line_pair] in *. apply (plain_header data n cl fl hp es p h.1 h.2 ch rest); try done; [|lia].
    rewrite Ed. unfold header_text. by rewrite <- !app_assoc.
  - change (zlen (header_text (line_pair Upgrade_line))) with 20 in *. by eapply upgrade_header; try done; lia.
  - change (zlen (header_text (line_pair Connection_line))) with 21 in *. by eapply connection_header; try done; lia.
Qed.

Definition lines_text (ls : list head_line) : list Z := concat (map (λ l, header_text (line_pair l)) ls).
Definition lines_events (ls : list head_line) : list http_event := concat (map (λ l, header_events (line_pair l)) ls).

Lemma line_not_blank l rest : line_ok l → ∃ ch more, header_text (line_pair l) ++ rest = ch :: more ∧ blank ch = false.
Proof.
  destruct l as [[[|c name] v]| |]; intros Hl; [destruct Hl as [Hn _]; by destruct (n_filled _ Hn)| | |].
  - eexists c, _. split; [reflexivity|]. apply token_not_blank. destruct Hl as [Hn _]. pose proof (n_tokens _ Hn) as Ht. by inversion Ht.
  - by eexists _, _.
  - by eexists _, _.
Qed.

Lemma lines_read ls : ∀ n cl fl hp es p ch rest, 0 <= p → calm s_header_field_start n cl fl hp → Forall line_ok ls →
  zdrop p data = lines_text ls ++ ch :: rest → blank ch = false → 0 <= n → n + zlen (lines_text ls) < HTTP_MAX_HEADER_SIZE →
  ∃ hp', calm s_header_field_start (n + zlen (lines_text ls)) cl (foldl read_line fl ls) hp' ∧
    steps (ready hp es) p (ready hp' (es ++ lines_events ls)) (p + zlen (lines_text ls)).
Proof.
  induction ls as [|l ls IH]; intros n cl fl hp es p ch rest Hp Hc Hls Ed Hb Hn Hmax.
  - exists hp. change (zlen (lines_text [])) with 0. change (lines_events []) with (@nil http_event). rewrite !Z.add_0_r, app_nil_r. split; [done|apply steps_refl].
  - inversion_clear Hls as [|? ? Hl Hls']. change (lines_text (l :: ls)) with (header_text (line_pair l) ++ lines_text ls) in *.
    change (lines_events (l :: ls)) with (header_events (line_pair l) ++ lines_events ls). rewrite zlen_app in *.
    pose proof (zlen_nonneg (header_text (line_pair l))). pose proof (zlen_nonneg (lines_text ls)). rewrite <- app_assoc in Ed.
    assert (∃ ch1 more, lines_text ls ++ ch :: rest = ch1 :: more ∧ blank ch1 = false) as (ch1 & more & E1 & Hb1).
    { destruct ls as [|l1 ls]; [by exists ch, rest|]. inversion_clear Hls' as [|? ? Hl1 _]. change (lines_text (l1 :: ls)) with (header_text (line_pair l1) ++ lines_text ls).
      rewrite <- app_assoc. by apply line_not_blank. }
    destruct (line_header l n cl fl hp es p ch1 more Hp Hc Hl) as (hp1 & Hc1 & S1); [by rewrite Ed, E1|done|lia|lia|].
    destruct (IH _ cl _ hp1 (es ++ header_events (line_pair l)) (p + zlen (header_text (line_pair l))) ch rest ltac:(lia) Hc1 Hls') as (hp' & Hc' & S'); [by apply rest_app|done|lia|lia|].
    exists hp'. rewrite !Z.add_assoc. split; [done|]. eapply steps_trans; [exact S1|]. by rewrite <- app_assoc in S'.
Qed.

(** ** The end of the headers *)

(** The parser that leaves for another protocol. *)
Definition upgraded hp : http_parser := counted hp <| state := s_headers_done |> <| upgrade := true |>.

Lemma upgrade_end n fl hp es p rest : 0 <= p → calm s_header_field_start n ULLONG_MAX fl hp → f_upgrade fl = true → f_asked fl = true →
  zdrop p data = 13 :: 10 :: rest → 0 <= n → n + 2 <= HTTP_MAX_HEADER_SIZE →
  ∃ hp1 hp', steps (ready hp es) p (ready hp1 es) (p + 1) ∧ upgrade hp' = true ∧
    loop 2 (ready hp1 es) (p + 1) None = Done hp' (es ++ [ev_headers_complete; ev_message_complete]) (p + 2).
Proof.
  intros Hp Hc Hup Hask Ed Hn Hmax. pose proof (rest_next data p _ _ Hp Ed) as Ed1.
  destruct (state_step data s_header_field_start s_headers_almost_done n ULLONG_MAX fl hp es p 13 (10 :: rest) Hc) as [Hc1 S1]; [done|done|lia| |].
  { unfold HttpParser.step. change (state (parser (ready (counted hp) es))) with (state hp). by rewrite (c_state _ _ _ _ _ Hc). }
  set (hp1 := counted hp <| state := s_headers_almost_done |>) in *. set (hp0 := upgraded hp1 <| nread := 0 |>).
  exists hp1, (parser (new_message (ready hp0 []))). split; [done|]. split; [done|]. destruct Hc1 as [_ En _ Et Em El Ee Ecl Ef _].
  assert (E1 : step (look (ready hp1 es)) (p + 1) 10 = Reexecute (ready (upgraded hp1) (es ++ [ev_headers_complete])) (p + 1) 10).
  { transitivity (step_headers_almost_done on (ready (counted hp1) es) (p + 1) 10); [done|]. unfold step_headers_almost_done. cbn [expect is_LF Z.eqb Pos.eqb].
    change (flag (parser (ready (counted hp1) es)) F_TRAILING) with (flag hp1 F_TRAILING). rewrite (quiet_flag fl) by auto.
    change (uses_transfer_encoding (parser (ready (counted hp1) es))) with (uses_transfer_encoding hp1). rewrite Ee. cbn [andb].
    unfold upd, to_state, upd. cbn -[flag upgraded]. change (flag _ F_UPGRADE) with (negb (Z.land (flags hp1) F_UPGRADE =? 0)). rewrite (q_upgrade _ _ Ef), Hup.
    change (flag _ F_CONNECTION_UPGRADE) with (negb (Z.land (flags hp1) F_CONNECTION_UPGRADE =? 0)). rewrite (proj2 (Z.eqb_neq _ _) (q_asked _ _ Ef Hask)). cbn [negb andb].
    rewrite bool_decide_eq_true_2 by done. done. }
  assert (E2 : step (ready (upgraded hp1) (es ++ [ev_headers_complete])) (p + 1) 10 =
    Return (new_message (ready hp0 []) <| events := es ++ [ev_headers_complete; ev_message_complete] |>) (p + 2)).
  { transitivity (step_headers_done on (ready (upgraded hp1) (es ++ [ev_headers_complete])) (p + 1) 10); [done|]. unfold step_headers_done. cbn [expect is_LF Z.eqb Pos.eqb].
    change (upd (ready (upgraded hp1) ?e) (λ hp, hp <| nread := 0 |>)) with (ready hp0 e). change (parser (ready hp0 ?e)) with hp0.
    rewrite (quiet_flag fl hp0 F_SKIPBODY), (quiet_flag fl hp0 F_CHUNKED) by (done || auto). change (content_length hp0) with (content_length hp1). rewrite Ecl.
    change (upgrade hp0) with true. change ((0 <? ULLONG_MAX) && negb (ULLONG_MAX =? ULLONG_MAX)) with false. cbn [orb negb andb]. rewrite orb_true_r.
    assert (es ++ [ev_headers_complete; ev_message_complete] = (es ++ [ev_headers_complete]) ++ [ev_message_complete]) as -> by (by rewrite <- app_assoc).
    replace (p + 2) with (p + 1 + 1) by lia. done. }
  cbn [run_loop]. rewrite Ed1, look_flow by (intros _; change (0 <= nread hp1 < HTTP_MAX_HEADER_SIZE); lia). rewrite E1, E2. done.
Qed.
End Upgrade.

(** ** The request *)

Definition upgrade_request (meth : http_method) (u : list Z) (ls : list head_line) : list Z := request_line meth u ++ lines_text ls ++ crlf.
Definition upgrade_events (u : list Z) (ls : list head_line) : list http_event :=
  line_events u ++ lines_events ls ++ [ev_headers_complete; ev_message_complete].

Lemma lines_framing ls : ∀ fl, (f_upgrade fl = true ∨ Upgrade_line ∈ ls → f_upgrade (foldl read_line fl ls) = true) ∧
  (f_asked fl = true ∨ Connection_line ∈ ls → f_asked (foldl read_line fl ls) = true).
Proof.
  induction ls as [|l ls IH]; intros fl; cbn [foldl]; [split; (intros [H|H]; [done|by apply elem_of_nil in H])|].
  destruct (IH (read_line fl l)) as [H1 H2]. rewrite !elem_of_cons.
  split; [intros [H|[<-|H]]; apply H1|intros [H|[<-|H]]; apply H2]; auto; left; by destruct l.
Qed.

(** The parser stops behind such a request and asks for the upgrade. *)
Lemma upgrade_request_parsed meth u ls : meth ≠ HTTP_CONNECT → Forall visible u → Forall line_ok ls → Upgrade_line ∈ ls → Connection_line ∈ ls →
  zlen (upgrade_request meth u ls) <= HTTP_MAX_HEADER_SIZE →
  run_request (upgrade_request meth u ls) = mkRun (upgrade_events u ls) (zlen (upgrade_request meth u ls)) true.
Proof.
  intros Hm Hu Hls Hup Hco Hmax. set (data := upgrade_request meth u ls) in *. set (p1 := zlen (request_line meth u)). set (p2 := p1 + zlen (lines_text ls)).
  pose proof (zlen_nonneg (request_line meth u)). pose proof (zlen_nonneg (lines_text ls)).
  assert (El : zlen data = p2 + 2) by (unfold data, upgrade_request, p2, p1; rewrite !zlen_app; change (zlen crlf) with 2; lia).
  destruct (request_line_read data meth u (lines_text ls ++ crlf) Hm Hu eq_refl ltac:(lia)) as (hp1 & Hc1 & S1).
  assert (Ed1 : zdrop p1 data = lines_text ls ++ crlf) by (by apply zdrop_app_eq).
  destruct (lines_read data ls p1 ULLONG_MAX no_framing hp1 (line_events u) p1 13 [10] ltac:(lia) Hc1 Hls Ed1) as (hp2 & Hc2 & S2); [done|lia|lia|].
  assert (Ed2 : zdrop p2 data = crlf) by (by apply rest_app; [lia|]). destruct (lines_framing ls no_framing) as [H1 H2].
  destruct (upgrade_end data p2 _ hp2 (line_events u ++ lines_events ls) p2 [] ltac:(lia) Hc2 (H1 ltac:(by right)) (H2 ltac:(by right)) Ed2) as (hp3 & hp4 & S3 & Hu4 & E4); [lia|lia|].
  rewrite (run_done data (ready hp3 (line_events u ++ lines_events ls)) (p2 + 1) 2 hp4 (upgrade_events u ls) (p2 + 2)); [by rewrite Hu4, El| | |].
  - eapply steps_trans; [exact S1|]. eapply steps_trans; [exact S2|exact S3].
  - rewrite E4. unfold upgrade_events. by rewrite app_assoc.
  - unfold data, upgrade_request. apply request_line_filled.
Qed.
