(* ===== verification/HttpUrl.v ===== *)
(** * URLs (http_parser_parse_url of src/PacketParse_Http/http_parser.c)

    The second interface of the HTTP parser: a URL is cut into its fields.  The same state machine as for the first line
    of a request ([parse_url_char]) finds the large parts, a second one ([http_parse_host_char]) cuts the host into
    user information, name and port.  Offsets and lengths are 16-bit numbers, as in the source.  A failing assertion,
    or a character read outside of the text, is a [Fault]. *)

From Stdlib Require Import ZArith Lia.
From S2P Require Import Prelude Define HttpFormat HttpParser.
From S2P Require HttpRequest.
From stdpp Require Import base numbers list strings.
Local Open Scope Z_scope.

Definition IS_HEX (c : Z) : bool := IS_NUM c || HttpParser.between 97 (LOWER c) 102.
Definition IS_HOST_CHAR (c : Z) : bool := IS_ALPHANUM c || isc c "." || isc c "-".

Inductive http_host_state :=
| s_http_host_dead | s_http_userinfo_start | s_http_userinfo | s_http_host_start | s_http_host_v6_start | s_http_host | s_http_host_v6
| s_http_host_v6_end | s_http_host_v6_zone_start | s_http_host_v6_zone | s_http_host_port_start | s_http_host_port.
#[export] Instance http_host_state_eq_dec : EqDecision http_host_state.
Proof. solve_decision. Defined.

Inductive http_parser_url_fields := UF_SCHEMA | UF_HOST | UF_PORT | UF_PATH | UF_QUERY | UF_FRAGMENT | UF_USERINFO | UF_MAX.
#[export] Instance http_parser_url_fields_eq_dec : EqDecision http_parser_url_fields.
Proof. solve_decision. Defined.

Definition uf_index (uf : http_parser_url_fields) : nat :=
  match uf with
  | UF_SCHEMA => 0 | UF_HOST => 1 | UF_PORT => 2 | UF_PATH => 3 | UF_QUERY => 4 | UF_FRAGMENT => 5 | UF_USERINFO => 6 | UF_MAX => 7
  end%nat.

Record url_field := mkField { off : Z; len : Z }.
Record http_parser_url := mkUrl { field_set : Z; port : Z; field_data : list url_field }.

Implicit Types (u : http_parser_url) (uf : http_parser_url_fields) (buf : list Z).

Definition http_parser_url_init : http_parser_url := mkUrl 0 0 (replicate 7 (mkField 0 0)).

Definition field u uf : url_field := default (mkField 0 0) (field_data u !! uf_index uf).
Definition put_field u uf (f : url_field) : http_parser_url := u <| field_data := <[uf_index uf := f]> (field_data u) |>.
Definition set_off u uf (o : Z) := put_field u uf (mkField (u16 o) (len (field u uf))).
Definition set_len u uf (n : Z) := put_field u uf (mkField (off (field u uf)) (u16 n)).
Definition longer u uf := set_len u uf (len (field u uf) + 1).
Definition mark_set u uf := u <| field_set := u16 (Z.lor (field_set u) (Z.shiftl 1 (Z.of_nat (uf_index uf)))) |>.
Definition is_set u uf : bool := negb (Z.land (field_set u) (Z.shiftl 1 (Z.of_nat (uf_index uf))) =? 0).

Definition http_parse_host_char (s : http_host_state) (ch : Z) : http_host_state :=
  match s with
  | s_http_userinfo | s_http_userinfo_start =>
      if isc ch "@" then s_http_host_start else if IS_USERINFO_CHAR ch then s_http_userinfo else s_http_host_dead
  | s_http_host_start =>
      if isc ch "[" then s_http_host_v6_start else if IS_HOST_CHAR ch then s_http_host else s_http_host_dead
  | s_http_host => if IS_HOST_CHAR ch then s_http_host else if isc ch ":" then s_http_host_port_start else s_http_host_dead
  | s_http_host_v6_end => if isc ch ":" then s_http_host_port_start else s_http_host_dead
  | s_http_host_v6 | s_http_host_v6_start =>
      if bool_decide (s = s_http_host_v6) && isc ch "]" then s_http_host_v6_end
      else if IS_HEX ch || isc ch ":" || isc ch "." then s_http_host_v6
      else if bool_decide (s = s_http_host_v6) && isc ch "%" then s_http_host_v6_zone_start
      else s_http_host_dead
  | s_http_host_v6_zone | s_http_host_v6_zone_start =>
      if bool_decide (s = s_http_host_v6_zone) && isc ch "]" then s_http_host_v6_end
      else if IS_ALPHANUM ch || isc ch "%" || isc ch "." || isc ch "-" || isc ch "_" || isc ch "~" then s_http_host_v6_zone
      else s_http_host_dead
  | s_http_host_port | s_http_host_port_start => if IS_NUM ch then s_http_host_port else s_http_host_dead
  | s_http_host_dead => s_http_host_dead
  end.

(** What a character that leads from [s] to [new_s] adds to the fields. *)
Definition host_note (s new_s : http_host_state) (p : Z) u : http_parser_url :=
  match new_s with
  | s_http_host | s_http_host_v6 => longer (if decide (s = new_s) then u else set_off u UF_HOST p) UF_HOST
  | s_http_host_v6_zone_start | s_http_host_v6_zone => longer u UF_HOST
  | s_http_host_port =>
      longer (if decide (s = new_s) then u else mark_set (set_len (set_off u UF_PORT p) UF_PORT 0) UF_PORT) UF_PORT
  | s_http_userinfo =>
      longer (if decide (s = new_s) then u else mark_set (set_len (set_off u UF_USERINFO p) UF_USERINFO 0) UF_USERINFO) UF_USERINFO
  | _ => u
  end.

(** The loop over the host; [s_http_host_dead] stands for the return in it. *)
Fixpoint host_loop (cs : list Z) (p : Z) (s : http_host_state) u : http_host_state * http_parser_url :=
  match cs with
  | [] => (s, u)
  | ch :: cs =>
      let new_s := http_parse_host_char s ch in
      if decide (new_s = s_http_host_dead) then (s_http_host_dead, u) else host_loop cs (p + 1) new_s (host_note s new_s p u)
  end.

Definition host_end_bad (s : http_host_state) : bool :=
  match s with
  | s_http_host_start | s_http_host_v6_start | s_http_host_v6 | s_http_host_v6_zone_start | s_http_host_v6_zone
  | s_http_host_port_start | s_http_userinfo | s_http_userinfo_start => true
  | _ => false
  end.

Definition http_parse_host buf u (found_at : bool) : outcome (Z * http_parser_url) :=
  if negb (is_set u UF_HOST) then Fault
  else
    let start := off (field u UF_HOST) in
    let* cs := mem_read buf start (len (field u UF_HOST)) in
    let u := set_len u UF_HOST 0 in
    let '(s, u) := host_loop cs start (if found_at then s_http_userinfo_start else s_http_host_start) u in
    Ok (if bool_decide (s = s_http_host_dead) || host_end_bad s then 1 else 0, u).

(** The switch over the state behind a character. *)
Inductive next_field := Dead | Skip | In (uf : http_parser_url_fields) | Unexpected.

Definition field_of (s : pstate) : next_field :=
  match s with
  | s_dead => Dead
  | s_req_schema_slash | s_req_schema_slash_slash | s_req_server_start | s_req_query_string_start | s_req_fragment_start => Skip
  | s_req_schema => In UF_SCHEMA
  | s_req_server_with_at | s_req_server => In UF_HOST
  | s_req_path => In UF_PATH
  | s_req_query_string => In UF_QUERY
  | s_req_fragment => In UF_FRAGMENT
  | _ => Unexpected
  end.

(** The loop over the text; the boolean says whether it came to its end, and with an ['@'] in the host. *)
Fixpoint url_loop (cs : list Z) (p : Z) (s : pstate) (old_uf : http_parser_url_fields) (found_at : bool) u : outcome (option bool * http_parser_url) :=
  match cs with
  | [] => Ok (Some found_at, u)
  | ch :: cs =>
      let s := parse_url_char s ch in
      let found_at := found_at || bool_decide (s = s_req_server_with_at) in
      match field_of s with
      | Dead => Ok (None, u)
      | Skip => url_loop cs (p + 1) s old_uf found_at u
      | Unexpected => Fault
      | In uf =>
          if decide (uf = old_uf) then url_loop cs (p + 1) s old_uf found_at (longer u uf)
          else url_loop cs (p + 1) s uf found_at (mark_set (set_len (set_off u uf p) uf 1) uf)
      end
  end.

(** The number of the port, as long as it fits 16 bits. *)
Fixpoint port_loop (cs : list Z) (v : Z) : option Z :=
  match cs with
  | [] => Some v
  | ch :: cs => let v := u64 (u64 (v * 10) + (i8 ch - 48)) in if 0xffff <? v then None else port_loop cs v
  end.

Definition parse_port buf u : outcome (Z * http_parser_url) :=
  let f := field u UF_PORT in
  if negb (off f + len f <=? zlen buf) then Fault
  else
    let* cs := mem_read buf (off f) (len f) in
    Ok (match port_loop cs 0 with None => (1, u) | Some v => (0, u <| port := u16 v |>) end).

Definition http_parser_parse_url buf (is_connect : bool) u : outcome (Z * http_parser_url) :=
  if zlen buf =? 0 then Ok (1, u)
  else
    let* '(found, u) := url_loop buf 0 (if is_connect then s_req_server_start else s_req_spaces_before_url) UF_MAX false
                          (u <| port := 0 |> <| field_set := 0 |>) in
    match found with
    | None => Ok (1, u)
    | Some found_at =>
        if is_set u UF_SCHEMA && negb (is_set u UF_HOST) then Ok (1, u)
        else
          let* '(r, u) := if is_set u UF_HOST then http_parse_host buf u found_at else Ok (0, u) in
          if negb (r =? 0) then Ok (1, u)
          else if is_connect && negb (field_set u =? Z.lor (Z.shiftl 1 1) (Z.shiftl 1 2)) then Ok (1, u)
          else if is_set u UF_PORT then parse_port buf u
          else Ok (0, u)
    end.

(** What a caller reads from the result. *)
Definition field_text buf u uf : option (list Z) :=
  if is_set u uf then Some (ztake (len (field u uf)) (zdrop (off (field u uf)) buf)) else None.

Example url_example :
  let t := bytes_of_string "http://me:pw@www.example.com:8080/a/b?x=1#top" in
  match http_parser_parse_url t false http_parser_url_init with
  | Ok (r, u) => r = 0 ∧ port u = 8080 ∧
      map (field_text t u) [UF_SCHEMA; UF_USERINFO; UF_HOST; UF_PORT; UF_PATH; UF_QUERY; UF_FRAGMENT] =
      map (λ s, Some (bytes_of_string s)) ["http"; "me:pw"; "www.example.com"; "8080"; "/a/b"; "x=1"; "top"]%string
  | Fault => False
  end.
Proof. vm_compute. auto. Qed.

(** ** The fields as a map *)

Definition shaped u : Prop := length (field_data u) = 7%nat ∧ 0 <= field_set u < 2 ^ 16.

(** The fields that are set, with their offsets and lengths. *)
Definition view u uf : option (Z * Z) := if is_set u uf then Some (off (field u uf), len (field u uf)) else None.
Definition put_view (v : http_parser_url_fields → option (Z * Z)) uf x uf' := if decide (uf' = uf) then Some x else v uf'.

Definition views u (v : http_parser_url_fields → option (Z * Z)) : Prop := shaped u ∧ ∀ uf, view u uf = v uf.

Lemma is_set_bit u uf : is_set u uf = Z.testbit (field_set u) (Z.of_nat (uf_index uf)).
Proof.
  unfold is_set. rewrite Z.shiftl_1_l. set (n := Z.of_nat (uf_index uf)). assert (0 <= n) by lia. destruct (Z.testbit (field_set u) n) eqn:E.
  - apply negb_true_iff, Z.eqb_neq. intros H0. apply (f_equal (λ z, Z.testbit z n)) in H0.
    rewrite Z.land_spec, E, Z.pow2_bits_true, Z.bits_0 in H0 by done. done.
  - apply negb_false_iff, Z.eqb_eq. apply Z.bits_inj'. intros k Hk. rewrite Z.land_spec, Z.bits_0.
    destruct (decide (k = n)) as [->|Hn]; [by rewrite E|]. rewrite Z.pow2_bits_false by done. apply andb_false_r.
Qed.

Lemma uf_index_inj : Inj (=) (=) uf_index.
Proof. by intros [] []. Qed.

Lemma is_set_mark u uf uf' : is_set (mark_set u uf) uf' = bool_decide (uf' = uf) || is_set u uf'.
Proof.
  rewrite !is_set_bit. unfold mark_set. cbn. unfold u16, uwrap. rewrite Z.mod_pow2_bits_low by (destruct uf'; cbn; lia).
  rewrite Z.lor_spec, Z.shiftl_1_l, orb_comm. f_equal. case_bool_decide as Hd.
  - subst. apply Z.pow2_bits_true. lia.
  - apply Z.pow2_bits_false. intros E%Nat2Z.inj. apply Hd. symmetry. by apply uf_index_inj.
Qed.

Lemma field_put u uf f uf' : length (field_data u) = 7%nat → uf ≠ UF_MAX →
  field (put_field u uf f) uf' = if decide (uf' = uf) then f else field u uf'.
Proof.
  intros Hl Hm. unfold field, put_field. cbn. destruct (decide _) as [->|Hn].
  - rewrite list_lookup_insert_eq; [done|]. rewrite Hl. destruct uf; cbn; [lia..|done].
  - rewrite list_lookup_insert_ne; [done|]. intros E. apply Hn. symmetry. by apply uf_index_inj.
Qed.

Lemma is_set_put u uf f uf' : is_set (put_field u uf f) uf' = is_set u uf'.
Proof. done. Qed.

Lemma field_mark u uf uf' : field (mark_set u uf) uf' = field u uf'.
Proof. done. Qed.

Lemma shaped_put u uf f : shaped u → shaped (put_field u uf f).
Proof. intros [Hl Hs]. split; [|done]. cbn. by rewrite length_insert. Qed.

Lemma shaped_mark u uf : shaped u → shaped (mark_set u uf).
Proof. intros [Hl Hs]. split; [done|]. cbn. unfold u16. apply uwrap_range. lia. Qed.
#[local] Hint Resolve shaped_put shaped_mark : pss.

Lemma shaped_len u : shaped u → length (field_data u) = 7%nat.
Proof. by intros []. Qed.
#[local] Hint Resolve shaped_len : pss.

(** The beginning of a field, and the next character of it. *)
Lemma views_begin u v uf p n : views u v → uf ≠ UF_MAX → 0 <= p < 2 ^ 16 → 0 <= n < 2 ^ 16 →
  views (mark_set (set_len (set_off u uf p) uf n) uf) (put_view v uf (p, n)).
Proof.
  intros [Hs Hv] Hm Hp Hn. unfold set_len, set_off. split; [auto with pss|]. intros uf'. unfold view, put_view. rewrite is_set_mark, field_mark, !is_set_put.
  rewrite !field_put by auto with pss. destruct (decide (uf' = uf)) as [->|Hne].
  - rewrite bool_decide_true, decide_True by done. cbn. by rewrite !u16_small by lia.
  - rewrite bool_decide_false by done. cbn. apply Hv.
Qed.

Lemma views_longer u v uf p n : views u v → uf ≠ UF_MAX → v uf = Some (p, n) → 0 <= n < 2 ^ 16 - 1 → views (longer u uf) (put_view v uf (p, n + 1)).
Proof.
  intros [Hs Hv] Hm Hu Hn. unfold longer, set_len. split; [auto with pss|]. intros uf'. unfold view, put_view. rewrite is_set_put, field_put by auto with pss.
  pose proof (Hv uf) as Hu'. rewrite Hu in Hu'. unfold view in Hu'. destruct (is_set u uf) eqn:E; [|done]. injection Hu' as E1 E2.
  destruct (decide (uf' = uf)) as [->|Hne]; [|apply Hv]. rewrite E. cbn. rewrite E1, E2, u16_small by lia. done.
Qed.

Lemma views_put u v uf o n p l : views u v → uf ≠ UF_MAX → v uf = Some (o, n) → views (put_field u uf (mkField p l)) (put_view v uf (p, l)).
Proof.
  intros [Hs Hv] Hm Hu. split; [auto with pss|]. intros uf'. unfold view, put_view. rewrite is_set_put, field_put by auto with pss.
  pose proof (Hv uf) as Hu'. rewrite Hu in Hu'. unfold view in Hu'.
  destruct (decide (uf' = uf)) as [->|Hne]; [|apply Hv]. by destruct (is_set u uf).
Qed.

(** ** Every text is parsed safely *)

Definition spans u uf (n : Z) : Prop := 0 <= off (field u uf) ∧ 0 <= len (field u uf) ∧ off (field u uf) + len (field u uf) <= n.
Definition bounded u (n : Z) : Prop := shaped u ∧ ∀ uf, is_set u uf = true → spans u uf n.

Lemma bounded_mono u n n' : bounded u n → n <= n' → bounded u n'.
Proof. intros [Hs Hb] Hn. split; [done|]. intros uf Hu. destruct (Hb uf Hu) as (? & ? & ?). unfold spans. lia. Qed.

Lemma u16_bounds z : 0 <= z → 0 <= u16 z <= z.
Proof. intros Hz. unfold u16, uwrap. split; [apply Z.mod_pos_bound; lia|apply Z.mod_le; lia]. Qed.

Lemma bounded_put u uf f n : bounded u n → uf ≠ UF_MAX → 0 <= off f → 0 <= len f → off f + len f <= n → bounded (put_field u uf f) n.
Proof.
  intros [Hs Hb] Hm Ho Hl Hn. split; [auto with pss|]. intros uf' Hu. rewrite is_set_put in Hu. unfold spans. rewrite field_put by auto with pss.
  destruct (decide _) as [->|]; [done|by apply Hb].
Qed.

Lemma bounded_mark u uf n : bounded u n → spans u uf n → bounded (mark_set u uf) n.
Proof.
  intros [Hs Hb] Hu. split; [auto with pss|]. intros uf' H. rewrite is_set_mark in H. unfold spans. rewrite field_mark.
  destruct (decide (uf' = uf)) as [->|Hn]; [done|]. rewrite bool_decide_false in H by done. by apply Hb.
Qed.

(** The beginning of a field and the next character, whatever the width of the numbers makes of them. *)
Lemma begin_spans u uf p n : shaped u → uf ≠ UF_MAX → 0 <= p → 0 <= n → spans (mark_set (set_len (set_off u uf p) uf n) uf) uf (p + n).
Proof.
  intros Hs Hm Hp Hn. unfold spans, set_len, set_off. rewrite field_mark, !field_put, !decide_True by auto with pss. cbn.
  pose proof (u16_bounds p Hp). pose proof (u16_bounds n Hn). lia.
Qed.

Lemma longer_spans u uf p : shaped u → uf ≠ UF_MAX → spans u uf p → spans (longer u uf) uf (p + 1).
Proof.
  intros Hs Hm (Ho & Hl & Hp). unfold spans, longer, set_len. rewrite !field_put, !decide_True by auto with pss. cbn.
  pose proof (u16_bounds (len (field u uf) + 1)). lia.
Qed.

Lemma bounded_begin u uf p n N : bounded u N → uf ≠ UF_MAX → 0 <= p → 0 <= n → p + n <= N → bounded (mark_set (set_len (set_off u uf p) uf n) uf) N.
Proof.
  intros [Hs Hb] Hm Hp Hn HN. split; [unfold set_len, set_off; auto with pss|]. intros uf' Hu. destruct (decide (uf' = uf)) as [->|Hne].
  - destruct (begin_spans u uf p n) as (? & ? & ?); try done. unfold spans. lia.
  - rewrite is_set_mark, bool_decide_false in Hu by done. unfold spans, set_len, set_off. rewrite field_mark, !field_put, !decide_False by auto with pss. by apply Hb.
Qed.

Lemma bounded_longer u uf p N : bounded u N → uf ≠ UF_MAX → spans u uf p → p + 1 <= N → bounded (longer u uf) N.
Proof.
  intros Hb Hm Hp HN. destruct (longer_spans u uf p) as (? & ? & ?); [apply Hb|done|done|]. pose proof (proj1 Hb) as Hs.
  unfold longer, set_len in *. rewrite field_put, decide_True in * by auto with pss. apply bounded_put; try done. lia.
Qed.

Lemma field_of_url s ch : field_of (parse_url_char s ch) ≠ Unexpected ∧ field_of (parse_url_char s ch) ≠ In UF_MAX.
Proof. unfold parse_url_char. repeat case_match; done. Qed.

Lemma url_loop_safe cs : ∀ p s old fa u, bounded u p → (old ≠ UF_MAX → is_set u old = true) → 0 <= p →
  ∃ r u', url_loop cs p s old fa u = Ok (r, u') ∧ bounded u' (p + zlen cs).
Proof.
  induction cs as [|ch cs IH]; intros p s old fa u Hb Ho Hp; cbn [url_loop].
  { rewrite zlen_nil, Z.add_0_r. eauto. }
  rewrite zlen_cons, Z.add_assoc. assert (Hb1 : bounded u (p + 1)) by (eapply bounded_mono; [done|lia]).
  destruct (field_of_url s ch) as [Hn1 Hn2]. destruct (field_of (parse_url_char s ch)) as [| |uf|] eqn:E; [| | |done].
  - eexists _, _. split; [done|]. eapply bounded_mono; [done|]. pose proof (zlen_nonneg cs). lia.
  - apply IH; [done|done|lia].
  - assert (Hm : uf ≠ UF_MAX) by congruence. destruct (decide (uf = old)) as [->|Hne].
    + apply IH; [|intros _; by apply Ho|lia]. apply (bounded_longer _ _ p); [done|done|by apply Hb, Ho|lia].
    + apply IH; [apply bounded_begin; (done || lia)|intros _; rewrite is_set_mark, bool_decide_true; done|lia].
Qed.

(** The field a state of the host belongs to, and the states before the name. *)
Definition host_cur (s : http_host_state) : option http_parser_url_fields :=
  match s with
  | s_http_host | s_http_host_v6 | s_http_host_v6_zone_start | s_http_host_v6_zone => Some UF_HOST
  | s_http_host_port => Some UF_PORT
  | s_http_userinfo => Some UF_USERINFO
  | _ => None
  end.
Definition before_name (s : http_host_state) : bool :=
  match s with s_http_userinfo_start | s_http_userinfo | s_http_host_start | s_http_host_v6_start => true | _ => false end.

Record host_inv (N : Z) (s : http_host_state) (p : Z) u : Prop := {
  hi_bounded : bounded u N;
  hi_cur : ∀ uf, host_cur s = Some uf → spans u uf p;
  hi_len : before_name s = true → len (field u UF_HOST) = 0;
}.

(** The ways from one state to the next. *)
Definition host_edge (s s' : http_host_state) : bool :=
  match s, s' with
  | (s_http_userinfo | s_http_userinfo_start), (s_http_host_start | s_http_userinfo)
  | s_http_host_start, (s_http_host_v6_start | s_http_host)
  | s_http_host, (s_http_host | s_http_host_port_start)
  | s_http_host_v6_end, s_http_host_port_start
  | s_http_host_v6, (s_http_host_v6_end | s_http_host_v6 | s_http_host_v6_zone_start)
  | s_http_host_v6_start, s_http_host_v6
  | s_http_host_v6_zone, (s_http_host_v6_end | s_http_host_v6_zone)
  | s_http_host_v6_zone_start, s_http_host_v6_zone
  | (s_http_host_port | s_http_host_port_start), s_http_host_port => true
  | _, _ => false
  end.

Lemma host_edges s ch : http_parse_host_char s ch ≠ s_http_host_dead → host_edge s (http_parse_host_char s ch) = true.
Proof. destruct s; cbn; repeat case_match; done. Qed.

Lemma set_off_spans u p : shaped u → 0 <= p → len (field u UF_HOST) = 0 → spans (set_off u UF_HOST p) UF_HOST p.
Proof.
  intros Hs Hp Hl. unfold spans, set_off. rewrite field_put, decide_True by auto with pss. cbn. rewrite Hl. pose proof (u16_bounds p Hp). lia.
Qed.

Lemma set_off_bounded u p N : bounded u N → 0 <= p <= N → len (field u UF_HOST) = 0 → bounded (set_off u UF_HOST p) N.
Proof. intros Hb Hp Hl. unfold set_off. apply bounded_put; [done|done|..]; cbn; rewrite ?Hl; pose proof (u16_bounds p); lia. Qed.

Lemma host_step N s s' p u : host_inv N s p u → host_edge s s' = true → 0 <= p → p + 1 <= N → host_inv N s' (p + 1) (host_note s s' p u).
Proof.
  intros [Hb Hc Hl] He Hp HN. pose proof (proj1 Hb) as Hs.
  assert (Hgrow : ∀ uf u1, uf ≠ UF_MAX → bounded u1 N → spans u1 uf p → before_name s' = false ∨ uf = UF_USERINFO ∧ len (field u1 UF_HOST) = 0 →
    host_cur s' = Some uf → host_inv N s' (p + 1) (longer u1 uf)).
  { intros uf u1 Hm Hb1 Hs1 Hn Hc'. split; [by eapply bounded_longer| |].
    - intros uf' E. rewrite Hc' in E. injection E as <-. apply longer_spans; [apply Hb1|done|done].
    - intros Hbn. destruct Hn as [Hn|[-> Hn]]; [congruence|]. unfold longer, set_len. rewrite field_put, decide_False; [done..|apply Hb1|done]. }
  assert (Hbegin : ∀ uf, uf = UF_PORT ∨ uf = UF_USERINFO → before_name s' = false ∨ uf = UF_USERINFO ∧ len (field u UF_HOST) = 0 → host_cur s' = Some uf →
    host_inv N s' (p + 1) (longer (mark_set (set_len (set_off u uf p) uf 0) uf) uf)).
  { intros uf Huf Hn Hc'. assert (Hm : uf ≠ UF_MAX) by by destruct Huf; subst.
    apply Hgrow; [done|apply bounded_begin; (done || lia)| | |done].
    - pose proof (begin_spans u uf p 0 Hs Hm Hp) as H0. rewrite Z.add_0_r in H0. by apply H0.
    - destruct Hn as [Hn|[-> Hn]]; [by left|right]. split; [done|]. unfold set_len, set_off. rewrite field_mark, !field_put, !decide_False by auto with pss. done. }
  assert (Hskip : host_cur s' = None → (before_name s' = true → len (field u UF_HOST) = 0) → host_inv N s' (p + 1) u).
  { intros E H0. split; [done|by rewrite E|done]. }
  destruct s, s'; try discriminate He; cbn [host_note];
    try (rewrite decide_True by done); try (rewrite decide_False by done);
    try (apply Hskip; [done|intros; by apply Hl]); try (apply Hskip; done);
    try (apply Hgrow; [done|done|by apply Hc| |done]; ((by left) || (right; split; [done|by apply Hl])));
    try (apply Hbegin; [auto| |done]; ((by left) || (right; split; [done|by apply Hl])));
    (apply Hgrow; [done|apply set_off_bounded; [done|lia|by apply Hl]|apply set_off_spans; [done|done|by apply Hl]|by left|done]).
Qed.

Lemma host_loop_safe N cs : ∀ p s u, host_inv N s p u → 0 <= p → p + zlen cs <= N → bounded (snd (host_loop cs p s u)) N.
Proof.
  induction cs as [|ch cs IH]; intros p s u Hi Hp HN; cbn [host_loop]; [apply Hi|].
  rewrite zlen_cons in HN. pose proof (zlen_nonneg cs). destruct (decide _) as [E|E]; [apply Hi|].
  apply IH; [|lia|lia]. apply host_step; [done|by apply host_edges|lia|lia].
Qed.

Lemma http_parse_host_safe buf u fa : bounded u (zlen buf) → is_set u UF_HOST = true →
  ∃ r u', http_parse_host buf u fa = Ok (r, u') ∧ bounded u' (zlen buf).
Proof.
  intros Hb Hh. destruct (proj2 Hb UF_HOST Hh) as (Ho & Hl & Hn). unfold http_parse_host. rewrite Hh. cbn [negb].
  rewrite mem_read_ok by done. cbn [obind].
  set (cs := ztake _ _). set (u1 := set_len u UF_HOST 0). set (s := if fa then _ else _).
  assert (Hi : host_inv (zlen buf) s (off (field u UF_HOST)) u1).
  { pose proof (proj1 Hb) as Hs. split; [unfold u1, set_len; apply bounded_put; cbn [off len]; change (u16 0) with 0; (done || lia)|by destruct fa|].
    intros _. unfold u1, set_len. rewrite field_put, decide_True by auto with pss. done. }
  pose proof (host_loop_safe (zlen buf) cs _ s u1 Hi Ho) as Hsafe.
  destruct (host_loop cs _ s u1) as [s' u'] eqn:E. eexists _, _. split; [done|]. apply Hsafe.
  unfold cs. rewrite zlen_ztake; [done|]. rewrite zlen_zdrop by lia. lia.
Qed.

(** Whatever the text, no assertion of the URL parser fails and no character outside of the text is read; on success every
    field that is set lies in the text. *)
Theorem url_parse_safe buf is_connect u : length (field_data u) = 7%nat →
  ∃ r u', http_parser_parse_url buf is_connect u = Ok (r, u') ∧ (r = 0 → ∀ uf, is_set u' uf = true → spans u' uf (zlen buf)).
Proof.
  intros Hl. unfold http_parser_parse_url. destruct (zlen buf =? 0); [by eexists _, _|].
  set (u0 := u <| port := 0 |> <| field_set := 0 |>). set (s0 := if is_connect then _ else _).
  assert (Hb0 : bounded u0 0) by (split; [split; [done|cbn; lia]|intros uf; unfold u0; rewrite is_set_bit; cbn; by rewrite Z.bits_0]).
  destruct (url_loop_safe buf 0 s0 UF_MAX false u0) as (r & u1 & E & Hb1); [done|done|done|]. rewrite E, Z.add_0_l in *. cbn [obind].
  destruct r as [fa|]; [|by eexists _, _]. destruct (is_set u1 UF_SCHEMA && negb (is_set u1 UF_HOST)); [by eexists _, _|].
  assert (Hh : ∃ r u2, (if is_set u1 UF_HOST then http_parse_host buf u1 fa else Ok (0, u1)) = Ok (r, u2) ∧ bounded u2 (zlen buf)).
  { destruct (is_set u1 UF_HOST) eqn:Hs; [by apply http_parse_host_safe|eauto]. }
  destruct Hh as (r & u2 & -> & Hb2). cbn [obind]. destruct (negb (r =? 0)); [by eexists _, _|].
  destruct (is_connect && _); [by eexists _, _|]. destruct (is_set u2 UF_PORT) eqn:Hp; [|eexists _, _; split; [done|intros _; apply Hb2]].
  destruct (proj2 Hb2 UF_PORT Hp) as (Ho & Hn & Hle). unfold parse_port. rewrite (proj2 (Z.leb_le _ _) Hle), mem_read_ok by done. cbn [obind negb].
  destruct (port_loop _ 0) as [v|]; eexists _, _; (split; [done|]); [intros _; apply Hb2|done].
Qed.

(** ** A URL is cut into the parts it was made of *)

Lemma views_ext u v v' : (∀ uf, v uf = v' uf) → views u v → views u v'.
Proof. intros He [Hs Hv]. split; [done|]. intros uf. by rewrite <- He. Qed.

Lemma put_view_eq v uf x : put_view v uf x uf = Some x.
Proof. unfold put_view. by rewrite decide_True. Qed.

Lemma put_view_ne v uf uf' x : uf' ≠ uf → put_view v uf x uf' = v uf'.
Proof. intros. unfold put_view. by rewrite decide_False. Qed.

Lemma put_view_twice v uf x y uf' : put_view (put_view v uf x) uf y uf' = put_view v uf y uf'.
Proof. unfold put_view. by destruct (decide _). Qed.

(** [X] is the loop over the text with [rest] still to come and the fields [v]. *)
Definition url_at (X : outcome (option bool * http_parser_url)) (rest : list Z) (p : Z) (s : pstate) (old : http_parser_url_fields) (fa : bool) v : Prop :=
  ∃ u, views u v ∧ X = url_loop rest p s old fa u.

Lemma url_skip X c rest p s s' old fa v : url_at X (c :: rest) p s old fa v → parse_url_char s c = s' → field_of s' = Skip →
  url_at X rest (p + 1) s' old fa v.
Proof.
  intros (u & Hu & ->) Hs Hf. exists u. split; [done|]. cbn [url_loop]. rewrite Hs, Hf.
  rewrite bool_decide_false by (by intros ->). by rewrite orb_false_r.
Qed.

Lemma url_first X c rest p s s' uf old fa v : url_at X (c :: rest) p s old fa v → parse_url_char s c = s' → field_of s' = In uf → uf ≠ old →
  uf ≠ UF_MAX → 0 <= p < 2 ^ 16 → url_at X rest (p + 1) s' uf (fa || bool_decide (s' = s_req_server_with_at)) (put_view v uf (p, 1)).
Proof.
  intros (u & Hu & ->) Hs Hf Hne Hm Hp. eexists. split; [by apply views_begin|]. cbn [url_loop]. rewrite Hs, Hf.
  by rewrite decide_False.
Qed.

Lemma url_more X c rest p s s' uf fa v a n : url_at X (c :: rest) p s uf fa v → parse_url_char s c = s' → field_of s' = In uf → v uf = Some (a, n) →
  uf ≠ UF_MAX → 0 <= n < 2 ^ 16 - 1 → url_at X rest (p + 1) s' uf (fa || bool_decide (s' = s_req_server_with_at)) (put_view v uf (a, n + 1)).
Proof.
  intros (u & Hu & ->) Hs Hf Hv Hm Hp. eexists. split; [by eapply views_longer|]. cbn [url_loop]. rewrite Hs, Hf.
  by rewrite decide_True.
Qed.

Lemma url_at_ext X rest p p' s old fa v v' : url_at X rest p s old fa v → p = p' → (∀ uf, v uf = v' uf) → url_at X rest p' s old fa v'.
Proof. intros (u & Hu & ->) <- He. exists u. split; [by eapply views_ext|done]. Qed.

(** A run of characters that stay in a state. *)
Lemma url_run X uf s l : field_of s = In uf → uf ≠ UF_MAX → s ≠ s_req_server_with_at → Forall (λ c, parse_url_char s c = s) l →
  ∀ rest p fa v a n, url_at X (l ++ rest) p s uf fa v → v uf = Some (a, n) → 0 <= n → n + zlen l < 2 ^ 16 →
  url_at X rest (p + zlen l) s uf fa (put_view v uf (a, n + zlen l)).
Proof.
  intros Hf Hm Hat Hl. induction Hl as [|c l Hc _ IH]; intros rest p fa v a n Hx Hv Hn Hmax.
  - eapply url_at_ext; [exact Hx|rewrite zlen_nil; lia|]. intros uf'. unfold put_view. destruct (decide _) as [->|]; [|done]. rewrite zlen_nil, Hv. by rewrite Z.add_0_r.
  - rewrite zlen_cons in *. pose proof (zlen_nonneg l). cbn [app] in Hx.
    eapply url_more in Hx; [|exact Hc|done|exact Hv|done|lia]. rewrite bool_decide_false, orb_false_r in Hx by done.
    apply (IH _ _ _ _ a (n + 1)) in Hx; [|apply put_view_eq|lia|lia]. eapply url_at_ext; [exact Hx|lia|].
    intros uf'. rewrite put_view_twice. by rewrite Z.add_assoc.
Qed.

(** A field that begins with the character [c] and goes on with [l]. *)
Lemma url_part X c l rest p s s' uf old fa v : url_at X (c :: l ++ rest) p s old fa v → parse_url_char s c = s' → Forall (λ c, parse_url_char s' c = s') l →
  field_of s' = In uf → s' ≠ s_req_server_with_at → uf ≠ old → uf ≠ UF_MAX → 0 <= p → p + zlen (c :: l) < 2 ^ 16 →
  url_at X rest (p + zlen (c :: l)) s' uf fa (put_view v uf (p, zlen (c :: l))).
Proof.
  intros Hx Hs Hl Hf Hat Hne Hm Hp Hmax. rewrite zlen_cons in *. pose proof (zlen_nonneg l).
  eapply url_first in Hx; [|exact Hs|exact Hf|done|done|lia]. rewrite bool_decide_false, orb_false_r in Hx by done.
  eapply url_run in Hx; [|done|done|done|exact Hl|apply put_view_eq|lia|lia].
  eapply url_at_ext; [exact Hx|lia|]. intros uf'. apply put_view_twice.
Qed.

(** The same for the host. *)
Definition host_at (X : http_host_state * http_parser_url) (rest : list Z) (p : Z) (s : http_host_state) v : Prop :=
  ∃ u, views u v ∧ X = host_loop rest p s u.

Lemma host_at_ext X rest p p' s v v' : host_at X rest p s v → p = p' → (∀ uf, v uf = v' uf) → host_at X rest p' s v'.
Proof. intros (u & Hu & ->) <- He. exists u. split; [by eapply views_ext|done]. Qed.

Lemma host_skip X c rest p s s' v : host_at X (c :: rest) p s v → http_parse_host_char s c = s' → s' ≠ s_http_host_dead → host_cur s' = None →
  host_at X rest (p + 1) s' v.
Proof.
  intros (u & Hu & ->) Hs Hd Hc. exists u. split; [done|]. cbn [host_loop]. rewrite Hs, decide_False by done.
  by destruct s'.
Qed.

Lemma host_note_same s uf p u : host_cur s = Some uf → host_note s s p u = longer u uf.
Proof. destruct s; intros E; try done; injection E as <-; cbn [host_note]; by rewrite ?decide_True. Qed.

Lemma host_run X uf s l : host_cur s = Some uf → Forall (λ c, http_parse_host_char s c = s) l →
  ∀ rest p v a n, host_at X (l ++ rest) p s v → v uf = Some (a, n) → 0 <= n → n + zlen l < 2 ^ 16 →
  host_at X rest (p + zlen l) s (put_view v uf (a, n + zlen l)).
Proof.
  intros Hc Hl. assert (Hm : uf ≠ UF_MAX) by (destruct s; cbn in Hc; congruence). assert (Hd : s ≠ s_http_host_dead) by (by intros ->).
  induction Hl as [|c l Hch _ IH]; intros rest p v a n Hx Hv Hn Hmax.
  - eapply host_at_ext; [exact Hx|rewrite zlen_nil; lia|]. intros uf'. unfold put_view. destruct (decide _) as [->|]; [|done]. rewrite zlen_nil, Hv. by rewrite Z.add_0_r.
  - rewrite zlen_cons in *. pose proof (zlen_nonneg l).
    assert (Hx1 : host_at X (l ++ rest) (p + 1) s (put_view v uf (a, n + 1))).
    { destruct Hx as (u & Hu & ->). cbn [app host_loop]. rewrite Hch, decide_False, (host_note_same s uf) by done.
      eexists. split; [eapply views_longer; [done|done|done|lia]|done]. }
    apply (IH _ _ _ a (n + 1)) in Hx1; [|apply put_view_eq|lia|lia]. eapply host_at_ext; [exact Hx1|lia|].
    intros uf'. rewrite put_view_twice. by rewrite Z.add_assoc.
Qed.

(** A part of the host that begins with [c] and goes on with [l]: a field of its own, or the name, whose length was 0. *)
Lemma host_own X c l rest p s s' uf v : host_at X (c :: l ++ rest) p s v → http_parse_host_char s c = s' → s ≠ s' →
  (s' = s_http_userinfo ∧ uf = UF_USERINFO ∨ s' = s_http_host_port ∧ uf = UF_PORT) → Forall (λ c, http_parse_host_char s' c = s') l →
  0 <= p → p + zlen (c :: l) < 2 ^ 16 → host_at X rest (p + zlen (c :: l)) s' (put_view v uf (p, zlen (c :: l))).
Proof.
  intros (u & Hu & ->) Hs Hne Hk Hl Hp Hmax. rewrite zlen_cons in *. pose proof (zlen_nonneg l).
  assert (Hx : host_at (host_loop (c :: l ++ rest) p s u) (l ++ rest) (p + 1) s' (put_view v uf (p, 1))).
  { eexists. split; [|cbn [host_loop]; rewrite Hs, decide_False by (by destruct Hk as [[-> _]|[-> _]]); reflexivity].
    destruct Hk as [[-> ->]|[-> ->]]; cbn [host_note]; rewrite decide_False by done;
      (eapply views_ext; [apply put_view_twice|]); (eapply (views_longer _ _ _ p 0); [apply views_begin; (done || lia)|done|apply put_view_eq|lia]). }
  eapply host_run in Hx; [|by destruct Hk as [[-> ->]|[-> ->]]|exact Hl|apply put_view_eq|lia|lia].
  eapply host_at_ext; [exact Hx|lia|]. intros uf'. apply put_view_twice.
Qed.

Lemma host_named X c l rest p s s' v a : host_at X (c :: l ++ rest) p s v → http_parse_host_char s c = s' → s ≠ s' →
  s' = s_http_host ∨ s' = s_http_host_v6 → v UF_HOST = Some (a, 0) → Forall (λ c, http_parse_host_char s' c = s') l →
  0 <= p → p + zlen (c :: l) < 2 ^ 16 → host_at X rest (p + zlen (c :: l)) s' (put_view v UF_HOST (p, zlen (c :: l))).
Proof.
  intros (u & Hu & ->) Hs Hne Hk Hv Hl Hp Hmax. rewrite zlen_cons in *. pose proof (zlen_nonneg l).
  assert (Hx : host_at (host_loop (c :: l ++ rest) p s u) (l ++ rest) (p + 1) s' (put_view v UF_HOST (p, 1))).
  { eexists. split; [|cbn [host_loop]; rewrite Hs, decide_False by (by destruct Hk as [-> | ->]); reflexivity].
    assert (E : host_note s s' p u = longer (set_off u UF_HOST p) UF_HOST) by (destruct Hk as [-> | ->]; cbn [host_note]; by rewrite decide_False). rewrite E.
    pose proof (proj2 Hu UF_HOST) as Hf. rewrite Hv in Hf. unfold view in Hf. destruct (is_set u UF_HOST); [|done]. injection Hf as _ Hf.
    eapply views_ext; [apply put_view_twice|]. eapply (views_longer _ _ _ p 0); [unfold set_off; rewrite Hf, u16_small by lia; by eapply views_put|done|apply put_view_eq|lia]. }
  eapply host_run in Hx; [|by destruct Hk as [-> | ->]|exact Hl|apply put_view_eq|lia|lia].
  eapply host_at_ext; [exact Hx|lia|]. intros uf'. apply put_view_twice.
Qed.

(** The parts of a URL and the text they make. *)
Inductive host_name := Name (l : list Z) | V6 (addr : list Z) (zone : option (list Z)).

Record url_parts := mkParts { p_schema : list Z; p_userinfo : option (list Z); p_host : host_name; p_port : option Z;
  p_path : list Z; p_query : option (list Z); p_fragment : option (list Z) }.

Definition sep (s : string) (o : option (list Z)) : list Z := match o with Some l => bytes_of_string s ++ l | None => [] end.
Definition userinfo_text (o : option (list Z)) : list Z := match o with Some l => l ++ bytes_of_string "@" | None => [] end.
Definition name_text (h : host_name) : list Z := match h with Name l => l | V6 a z => a ++ sep "%" z end.
Definition host_text (h : host_name) : list Z :=
  match h with Name l => l | V6 _ _ => bytes_of_string "[" ++ name_text h ++ bytes_of_string "]" end.
Definition authority (q : url_parts) : list Z := userinfo_text (p_userinfo q) ++ host_text (p_host q) ++ sep ":" (decimal <$> p_port q).
Definition print_url (q : url_parts) : list Z :=
  p_schema q ++ bytes_of_string "://" ++ authority q ++ (bytes_of_string "/" ++ p_path q) ++ sep "?" (p_query q) ++ sep "#" (p_fragment q).

(** The characters that may be in each of them. *)
Definition v6_char (c : Z) : bool := IS_HEX c || isc c ":" || isc c ".".
Definition zone_char (c : Z) : bool := IS_ALPHANUM c || isc c "%" || isc c "." || isc c "-" || isc c "_" || isc c "~".
Definition query_char (c : Z) : bool := IS_URL_CHAR c || isc c "?".
Definition fragment_char (c : Z) : bool := query_char c || isc c "#".

Definition made_of (first next : Z → bool) (l : list Z) : bool := match l with c :: l => first c && forallb next l | [] => false end.
Definition opt_ok (P : list Z → bool) (o : option (list Z)) : bool := match o with Some l => P l | None => true end.
Definition port_ok (o : option Z) : bool := match o with Some n => (0 <=? n) && (n <=? 65535) | None => true end.
Definition host_ok (h : host_name) : bool :=
  match h with
  | Name l => made_of IS_HOST_CHAR IS_HOST_CHAR l
  | V6 a z => made_of v6_char v6_char a && opt_ok (made_of zone_char zone_char) z
  end.
Definition parts_ok (q : url_parts) : bool :=
  made_of IS_ALPHA IS_ALPHA (p_schema q) && opt_ok (made_of IS_USERINFO_CHAR IS_USERINFO_CHAR) (p_userinfo q) && host_ok (p_host q) &&
  port_ok (p_port q) &&
  forallb IS_URL_CHAR (p_path q) && opt_ok (made_of query_char query_char) (p_query q) && opt_ok (made_of query_char fragment_char) (p_fragment q).

Definition part (q : url_parts) uf : option (list Z) :=
  match uf with
  | UF_SCHEMA => Some (p_schema q)
  | UF_HOST => Some (name_text (p_host q))
  | UF_PORT => decimal <$> p_port q
  | UF_PATH => Some (bytes_of_string "/" ++ p_path q)
  | UF_QUERY => p_query q
  | UF_FRAGMENT => p_fragment q
  | UF_USERINFO => p_userinfo q
  | UF_MAX => None
  end.

(** *** Characters *)

Lemma ascii_all (P : Z → bool) : forallb P (seqZ 0 128) = true → ∀ c, 0 <= c < 128 → P c = true.
Proof. intros H c Hc. rewrite forallb_forall in H. apply H, list_elem_of_In, elem_of_seqZ. lia. Qed.

Lemma lower_ascii c : 0 <= LOWER c < 128 → 0 <= c < 128.
Proof.
  unfold LOWER. intros [H0 Hl]. pose proof H0 as [Hc _]%Z.lor_nonneg. split; [done|].
  apply (Z.log2_lt_cancel c 128). change (Z.log2 128) with 7.
  assert (Z.log2 (Z.lor c 32) <= 6) by (change 6 with (Z.log2 127); apply Z.log2_le_mono; lia).
  rewrite Z.log2_lor in * by lia. lia.
Qed.

Lemma between_true a c b : HttpParser.between a c b = true ↔ a <= c <= b.
Proof. unfold HttpParser.between. by rewrite andb_true_iff, !Z.leb_le. Qed.

Lemma isc_ascii c s : isc c s = true → c = chr s.
Proof. apply Z.eqb_eq. Qed.

Lemma chr_nonneg s : 0 <= chr s.
Proof. unfold chr. destruct s; lia. Qed.

(** Every class has only ASCII characters. *)
Definition listed (c : Z) : bool := fragment_char c || IS_USERINFO_CHAR c || isc c "[" || isc c "]".

Lemma listed_ascii c : listed c = true → 0 <= c < 128.
Proof.
  unfold listed, fragment_char, query_char, IS_URL_CHAR, IS_USERINFO_CHAR, IS_MARK, IS_ALPHANUM, IS_ALPHA, IS_NUM.
  rewrite !orb_true_iff, !andb_true_iff, !between_true. intros H. repeat destruct H as [H|H];
    solve [lia | apply isc_ascii in H; subst c; cbn; lia | apply lower_ascii; lia].
Qed.

Lemma hex_listed c : IS_HEX c = true → listed c = true.
Proof.
  unfold IS_HEX. intros H. assert (Hc : 0 <= c < 128).
  { apply orb_true_iff in H as [H|H]; [unfold IS_NUM in H; apply between_true in H; lia|apply between_true in H; apply lower_ascii; lia]. }
  revert c Hc H. assert (∀ c, 0 <= c < 128 → implb (IS_HEX c) (listed c) = true) as Hi by (apply ascii_all; vm_compute; reflexivity).
  intros c Hc H. specialize (Hi c Hc). unfold IS_HEX in Hi. by rewrite H in Hi.
Qed.

(** What holds of the ASCII characters of a class holds of the class. *)
Lemma by_ascii (P Q : Z → bool) : (∀ c, P c = true → listed c = true) → forallb (λ c, implb (P c) (Q c)) (seqZ 0 128) = true →
  ∀ c, P c = true → Q c = true.
Proof. intros HP Hall c Hc. pose proof (ascii_all _ Hall c (listed_ascii c (HP c Hc))) as H. cbn in H. by rewrite Hc in H. Qed.

Definition server_char (c : Z) : bool := IS_USERINFO_CHAR c || isc c "[" || isc c "]".

Lemma listed_class : Forall (λ P : Z → bool, ∀ c, P c = true → listed c = true)
  [IS_ALPHA; IS_NUM; IS_USERINFO_CHAR; IS_HOST_CHAR; IS_URL_CHAR; v6_char; zone_char; query_char; fragment_char; server_char].
Proof.
  assert (Hu : ∀ c, server_char c = true → listed c = true).
  { unfold listed, server_char. intros c. rewrite !orb_true_iff. tauto. }
  assert (Hf : ∀ c, fragment_char c = true → listed c = true) by (unfold listed; intros c ->; done).
  repeat apply Forall_cons_2; [..|apply Forall_nil_2]; try done; intros c H;
    try (apply Hu; revert H; unfold server_char, IS_USERINFO_CHAR, IS_HOST_CHAR, zone_char, IS_ALPHANUM, IS_MARK; rewrite !orb_true_iff; tauto);
    try (apply Hf; revert H; unfold fragment_char, query_char; rewrite !orb_true_iff; tauto).
  unfold v6_char in H. rewrite !orb_true_iff in H. destruct H as [[H|H]|H]; [by apply hex_listed|apply isc_ascii in H; by subst..].
Qed.

Lemma class_fact (i : nat) (Q : Z → bool) (P : Z → bool) :
  [IS_ALPHA; IS_NUM; IS_USERINFO_CHAR; IS_HOST_CHAR; IS_URL_CHAR; v6_char; zone_char; query_char; fragment_char; server_char] !! i = Some P →
  forallb (λ c, implb (P c) (Q c)) (seqZ 0 128) = true → ∀ c, P c = true → Q c = true.
Proof. intros Hi Hall. apply by_ascii; [|done]. exact (proj1 (Forall_lookup _ _) listed_class i P Hi). Qed.

Ltac of_class i := let c := fresh in let H := fresh in
  intros c H; eapply (class_fact i (λ c, bool_decide _)) in H; [exact (bool_decide_eq_true_1 _ H)|reflexivity|vm_compute; reflexivity].

(** How the characters of each class move the two machines. *)
Lemma schema_start c : IS_ALPHA c = true → parse_url_char s_req_spaces_before_url c = s_req_schema.
Proof. revert c. of_class 0%nat. Qed.
Lemma schema_next c : IS_ALPHA c = true → parse_url_char s_req_schema c = s_req_schema.
Proof. revert c. of_class 0%nat. Qed.
Lemma server_first c : server_char c = true → parse_url_char s_req_server_start c = s_req_server.
Proof. revert c. of_class 9%nat. Qed.
Lemma server_next c : server_char c = true → parse_url_char s_req_server c = s_req_server.
Proof. revert c. of_class 9%nat. Qed.
Lemma server_behind_at c : server_char c = true → parse_url_char s_req_server_with_at c = s_req_server.
Proof. revert c. of_class 9%nat. Qed.
Lemma path_next c : IS_URL_CHAR c = true → parse_url_char s_req_path c = s_req_path.
Proof. revert c. of_class 4%nat. Qed.
Lemma query_start c : query_char c = true → parse_url_char s_req_query_string_start c = s_req_query_string.
Proof. revert c. of_class 7%nat. Qed.
Lemma query_next c : query_char c = true → parse_url_char s_req_query_string c = s_req_query_string.
Proof. revert c. of_class 7%nat. Qed.
Lemma fragment_start c : query_char c = true → parse_url_char s_req_fragment_start c = s_req_fragment.
Proof. revert c. of_class 7%nat. Qed.
Lemma fragment_next c : fragment_char c = true → parse_url_char s_req_fragment c = s_req_fragment.
Proof. revert c. of_class 8%nat. Qed.
Lemma userinfo_first c : IS_USERINFO_CHAR c = true → http_parse_host_char s_http_userinfo_start c = s_http_userinfo.
Proof. revert c. of_class 2%nat. Qed.
Lemma userinfo_next c : IS_USERINFO_CHAR c = true → http_parse_host_char s_http_userinfo c = s_http_userinfo.
Proof. revert c. of_class 2%nat. Qed.
Lemma name_first c : IS_HOST_CHAR c = true → http_parse_host_char s_http_host_start c = s_http_host.
Proof. revert c. of_class 3%nat. Qed.
Lemma name_next c : IS_HOST_CHAR c = true → http_parse_host_char s_http_host c = s_http_host.
Proof. revert c. of_class 3%nat. Qed.
Lemma v6_first c : v6_char c = true → http_parse_host_char s_http_host_v6_start c = s_http_host_v6.
Proof. revert c. of_class 5%nat. Qed.
Lemma v6_next c : v6_char c = true → http_parse_host_char s_http_host_v6 c = s_http_host_v6.
Proof. revert c. of_class 5%nat. Qed.
Lemma zone_first c : zone_char c = true → http_parse_host_char s_http_host_v6_zone_start c = s_http_host_v6_zone.
Proof. revert c. of_class 6%nat. Qed.
Lemma zone_next c : zone_char c = true → http_parse_host_char s_http_host_v6_zone c = s_http_host_v6_zone.
Proof. revert c. of_class 6%nat. Qed.
Lemma port_first c : IS_NUM c = true → http_parse_host_char s_http_host_port_start c = s_http_host_port.
Proof. revert c. of_class 1%nat. Qed.
Lemma port_next c : IS_NUM c = true → http_parse_host_char s_http_host_port c = s_http_host_port.
Proof. revert c. of_class 1%nat. Qed.

(** *** The text as a whole *)

Lemma made_of_inv first next l : made_of first next l = true → ∃ c r, l = c :: r ∧ first c = true ∧ Forall (λ c, next c = true) r.
Proof.
  destruct l as [|c r]; cbn; [done|]. rewrite andb_true_iff, forallb_forall. intros [Hc Hr]. exists c, r. split_and!; [done|done|].
  apply Forall_forall. intros x Hx. apply Hr. by apply list_elem_of_In.
Qed.

Lemma made_of_app P l l' : made_of P P l = true → Forall (λ c, P c = true) l' → made_of P P (l ++ l') = true.
Proof.
  intros (c & r & -> & Hc & Hr)%made_of_inv Hl. cbn. rewrite Hc. apply forallb_forall. intros x [Hx|Hx]%in_app_iff.
  - by apply (proj1 (Forall_forall _ _) Hr), list_elem_of_In.
  - by apply (proj1 (Forall_forall _ _) Hl), list_elem_of_In.
Qed.

Lemma made_of_forall P l : made_of P P l = true → Forall (λ c, P c = true) l.
Proof. intros (c & r & -> & Hc & Hr)%made_of_inv. by constructor. Qed.

Lemma forall_class {P Q : Z → Prop} l : (∀ c, P c → Q c) → Forall P l → Forall Q l.
Proof. intros H Hl. by eapply Forall_impl. Qed.

(** All of the host is one field for the first machine. *)
Lemma url_authority X ui h rest p v : url_at X (userinfo_text ui ++ h ++ rest) p s_req_server_start UF_SCHEMA false v →
  opt_ok (made_of IS_USERINFO_CHAR IS_USERINFO_CHAR) ui = true → made_of server_char server_char h = true →
  0 <= p → p + zlen (userinfo_text ui ++ h) < 2 ^ 16 →
  url_at X rest (p + zlen (userinfo_text ui ++ h)) s_req_server UF_HOST (bool_decide (is_Some ui)) (put_view v UF_HOST (p, zlen (userinfo_text ui ++ h))).
Proof.
  intros Hx Hu (d & h' & -> & Hd & Hh)%made_of_inv Hp Hmax. apply (forall_class _ server_next) in Hh.
  destruct ui as [l|]; cbn [userinfo_text app opt_ok] in *.
  - apply made_of_inv in Hu as (c & l' & -> & Hc & Hl). assert (Hus : ∀ c, IS_USERINFO_CHAR c = true → server_char c = true) by (unfold server_char; by intros ? ->).
    apply (forall_class _ Hus), (forall_class _ server_next) in Hl. change (bytes_of_string "@") with [64] in *. rewrite <- app_assoc in Hx. cbn [app] in Hx.
    rewrite <- (app_assoc _ [64]) in *. rewrite zlen_app in *. cbn [app] in Hmax |- *. rewrite !zlen_cons in *. pose proof (zlen_nonneg l'). pose proof (zlen_nonneg h').
    eapply url_part in Hx; [|by apply server_first, Hus|exact Hl|done|done|done|done|lia|rewrite zlen_cons; lia].
    eapply url_more in Hx; [|by vm_compute|reflexivity|apply put_view_eq|done|rewrite zlen_cons; lia].
    eapply url_more in Hx; [|by apply server_behind_at|reflexivity|apply put_view_eq|done|rewrite zlen_cons; lia].
    rewrite zlen_cons in Hx. eapply url_run in Hx; [|reflexivity|done|done|exact Hh|apply put_view_eq|lia|lia].
    rewrite bool_decide_true by (by eexists). eapply url_at_ext; [exact Hx|lia|]. intros uf. rewrite !put_view_twice. f_equal. f_equal. lia.
  - rewrite bool_decide_false by by intros [? ?]. eapply url_part in Hx; [exact Hx|by apply server_first|exact Hh|done..].
Qed.

Lemma port_digits n : 0 <= n <= 65535 → made_of IS_NUM IS_NUM (decimal n) = true ∧ digits_val (decimal n) 0 = n.
Proof.
  intros Hn. unfold decimal. rewrite (proj2 (Z.ltb_ge n 0)) by lia. destruct (dec_digits_spec 20 n) as (Hall & Hne & Hv); [lia|lia|]. split; [|done].
  destruct (dec_digits 20 n []) as [|c r]; [done|]. inversion_clear Hall as [|? ? Hc Hr]. cbn [made_of]. rewrite andb_true_iff. split; [exact Hc|].
  apply forallb_forall. intros x Hx%list_elem_of_In. exact (proj1 (Forall_forall _ _) Hr x Hx).
Qed.

Lemma port_text_chars o : port_ok o = true → Forall (λ c, server_char c = true) (sep ":" (decimal <$> o)).
Proof.
  destruct o as [n|]; cbn; [|by constructor]. rewrite andb_true_iff, !Z.leb_le. intros Hn. constructor; [by vm_compute|].
  destruct (port_digits n Hn) as [Hd%made_of_forall _]. revert Hd. apply forall_class. intros c. by apply (class_fact 1 server_char).
Qed.

Lemma host_text_chars h : host_ok h = true → made_of server_char server_char (host_text h) = true.
Proof.
  destruct h as [l|a z]; cbn [host_ok host_text name_text].
  - intros (c & r & -> & Hc & Hr)%made_of_inv. apply (made_of_app server_char [c] r).
    + cbn. rewrite andb_true_r. revert c Hc. apply (class_fact 3 server_char); by vm_compute.
    + revert Hr. apply forall_class. apply (class_fact 3 server_char); by vm_compute.
  - rewrite andb_true_iff. intros [Ha%made_of_forall Hz]. apply made_of_app; [by vm_compute|].
    apply Forall_app. split; [apply Forall_app; split|by repeat constructor].
    + revert Ha. apply forall_class. apply (class_fact 5 server_char); by vm_compute.
    + destruct z as [z|]; cbn; [|by constructor]. constructor; [by vm_compute|]. apply made_of_forall in Hz. revert Hz. apply forall_class.
      apply (class_fact 6 server_char); by vm_compute.
Qed.

(** The fields of the host. *)
Definition put_opt v uf (p : Z) (o : option (list Z)) : http_parser_url_fields → option (Z * Z) := match o with Some l => put_view v uf (p, zlen l) | None => v end.
Definition name_at (h : host_name) : Z := match h with Name _ => 0 | V6 _ _ => 1 end.

Lemma host_userinfo X ui rest p v : host_at X (userinfo_text ui ++ rest) p (if decide (is_Some ui) then s_http_userinfo_start else s_http_host_start) v →
  opt_ok (made_of IS_USERINFO_CHAR IS_USERINFO_CHAR) ui = true → 0 <= p → p + zlen (userinfo_text ui) < 2 ^ 16 →
  host_at X rest (p + zlen (userinfo_text ui)) s_http_host_start (put_opt v UF_USERINFO p ui).
Proof.
  destruct ui as [l|]; cbn [userinfo_text put_opt opt_ok app]; intros Hx Hl Hp Hmax.
  - rewrite decide_True in Hx by by eexists. apply made_of_inv in Hl as (c & r & -> & Hc & Hr). apply (forall_class _ userinfo_next) in Hr.
    change (bytes_of_string "@") with [64] in *. rewrite <- app_assoc in Hx. rewrite zlen_app in *. change (zlen [64]) with 1 in *. cbn [app] in Hx.
    eapply host_own in Hx; [|by apply userinfo_first|done|by left|exact Hr|done|lia]. apply (host_skip _ _ _ _ _ s_http_host_start) in Hx; [|by vm_compute|done|done].
    eapply host_at_ext; [exact Hx|lia|done].
  - rewrite decide_False in Hx by by intros [? ?]. rewrite zlen_nil, Z.add_0_r. done.
Qed.

Definition name_end (h : host_name) : http_host_state := match h with Name _ => s_http_host | V6 _ _ => s_http_host_v6_end end.

Lemma host_named_part X h rest p v a : host_at X (host_text h ++ rest) p s_http_host_start v → host_ok h = true → v UF_HOST = Some (a, 0) →
  0 <= p → p + zlen (host_text h) < 2 ^ 16 →
  host_at X rest (p + zlen (host_text h)) (name_end h) (put_view v UF_HOST (p + name_at h, zlen (name_text h))).
Proof.
  destruct h as [l|addr z]; cbn [host_text host_ok name_end name_at name_text]; intros Hx Hok Hv Hp Hmax.
  - apply made_of_inv in Hok as (c & r & -> & Hc & Hr). apply (forall_class _ name_next) in Hr. rewrite Z.add_0_r.
    eapply host_named in Hx; [exact Hx|by apply name_first|done|by left|done|exact Hr|done|done].
  - apply andb_true_iff in Hok as [(c & r & -> & Hc & Hr)%made_of_inv Hz]. apply (forall_class _ v6_next) in Hr.
    change (bytes_of_string "[") with [91] in *. change (bytes_of_string "]") with [93] in *. rewrite !zlen_app in Hmax |- *. rewrite <- !app_assoc in Hx. cbn [app] in Hx.
    change (zlen [91]) with 1 in *. change (zlen [93]) with 1 in *. pose proof (zlen_nonneg (sep "%" z)).
    apply (host_skip _ _ _ _ _ s_http_host_v6_start) in Hx; [|by vm_compute|done|done].
    eapply host_named in Hx; [|by apply v6_first|done|by right|exact Hv|exact Hr|lia|lia].
    destruct z as [z|]; cbn [sep opt_ok] in *; change (bytes_of_string "%") with [37] in *.
    + apply made_of_inv in Hz as (d & z' & -> & Hd & Hz'). apply (forall_class _ zone_next) in Hz'. rewrite !zlen_app in *. change (zlen [37]) with 1 in *.
      rewrite !zlen_cons in *. pose proof (zlen_nonneg r). pose proof (zlen_nonneg z'). cbn [app] in Hx.
      assert (Hx1 : host_at X (z' ++ [93] ++ rest) (p + 1 + (1 + zlen r) + 1 + 1) s_http_host_v6_zone (put_view v UF_HOST (p + 1, 1 + zlen r + 1 + 1))).
      { destruct Hx as (u & Hu & ->). cbn [host_loop]. rewrite (eq_refl : http_parse_host_char s_http_host_v6 37 = s_http_host_v6_zone_start), decide_False by done.
        rewrite (zone_first d Hd), decide_False by done. cbn [host_note]. eexists. split; [|done].
        eapply views_ext; [|eapply views_longer; [eapply views_longer; [exact Hu|done|apply put_view_eq|lia]|done|apply put_view_eq|lia]]. intros uf. by rewrite !put_view_twice. }
      eapply host_run in Hx1; [|done|exact Hz'|apply put_view_eq|lia|lia]. cbn [app] in Hx1.
      apply (host_skip _ _ _ _ _ s_http_host_v6_end) in Hx1; [|by vm_compute|done|done].
      eapply host_at_ext; [exact Hx1|lia|]. intros uf. rewrite put_view_twice. f_equal. f_equal. lia.
    + apply (host_skip _ _ _ _ _ s_http_host_v6_end) in Hx; [|by vm_compute|done|done]. rewrite ?zlen_nil, ?app_nil_r in *.
      eapply host_at_ext; [exact Hx|lia|done].
Qed.

Lemma host_port_part X h o p v : host_at X (sep ":" (decimal <$> o)) p (name_end h) v → port_ok o = true → 0 <= p → p + zlen (sep ":" (decimal <$> o)) < 2 ^ 16 →
  ∃ s u, X = (s, u) ∧ s ≠ s_http_host_dead ∧ host_end_bad s = false ∧ views u (put_opt v UF_PORT (p + 1) (decimal <$> o)).
Proof.
  destruct o as [n|]; cbn [port_ok sep put_opt fmap option_fmap option_map]; intros Hx Ho Hp Hmax.
  - rewrite andb_true_iff, !Z.leb_le in Ho. destruct (port_digits n Ho) as [(c & r & E & Hc & Hr)%made_of_inv _]. rewrite E in *. clear E.
    apply (forall_class _ port_next) in Hr. change (bytes_of_string ":") with [58] in *. rewrite zlen_app in Hmax. change (zlen [58]) with 1 in Hmax. cbn [app] in Hx.
    apply (host_skip _ _ _ _ _ s_http_host_port_start) in Hx; [|by destruct h; vm_compute|done|done]. rewrite <- (app_nil_r r) in Hx.
    eapply host_own in Hx; [|by apply port_first|done|by right|exact Hr|lia|lia]. destruct Hx as (u & Hu & ->). cbn [host_loop]. by eexists _, _.
  - destruct Hx as (u & Hu & ->). cbn [host_loop]. exists (name_end h), u. by destruct h.
Qed.

Lemma host_parsed u v q p a : views u v → v UF_HOST = Some (a, 0) → opt_ok (made_of IS_USERINFO_CHAR IS_USERINFO_CHAR) (p_userinfo q) = true →
  host_ok (p_host q) = true → port_ok (p_port q) = true → 0 <= p → p + zlen (authority q) < 2 ^ 16 →
  ∃ s u', host_loop (authority q) p (if decide (is_Some (p_userinfo q)) then s_http_userinfo_start else s_http_host_start) u = (s, u') ∧ s ≠ s_http_host_dead ∧ host_end_bad s = false ∧
    views u' (put_opt (put_view (put_opt v UF_USERINFO p (p_userinfo q)) UF_HOST (p + zlen (userinfo_text (p_userinfo q)) + name_at (p_host q), zlen (name_text (p_host q))))
      UF_PORT (p + zlen (userinfo_text (p_userinfo q)) + zlen (host_text (p_host q)) + 1) (decimal <$> p_port q)).
Proof.
  intros Hu Hv Hui Hh Ho Hp Hmax. unfold authority in *. rewrite !zlen_app in Hmax.
  pose proof (zlen_nonneg (userinfo_text (p_userinfo q))). pose proof (zlen_nonneg (host_text (p_host q))). pose proof (zlen_nonneg (sep ":" (decimal <$> p_port q))).
  set (X := host_loop _ _ _ _). assert (Hx : host_at X (userinfo_text (p_userinfo q) ++ host_text (p_host q) ++ sep ":" (decimal <$> p_port q)) p
    (if decide (is_Some (p_userinfo q)) then s_http_userinfo_start else s_http_host_start) v) by by exists u.
  apply host_userinfo in Hx; [|done|done|lia]. eapply host_named_part in Hx; [|done|by destruct (p_userinfo q)|lia|lia].
  apply host_port_part in Hx as (s & u' & -> & ?); [|done|lia|lia]. by exists s, u'.
Qed.

(** Where the parts are in the text. *)
Definition host_pos q := zlen (p_schema q) + 3.
Definition path_pos q := host_pos q + zlen (authority q).
Definition query_pos q := path_pos q + 1 + zlen (p_path q) + 1.
Definition fragment_pos q := path_pos q + 1 + zlen (p_path q) + zlen (sep "?" (p_query q)) + 1.

Definition text_view q : http_parser_url_fields → option (Z * Z) :=
  put_opt (put_opt (put_view (put_view (put_view (λ _, None) UF_SCHEMA (0, zlen (p_schema q))) UF_HOST (host_pos q, zlen (authority q)))
    UF_PATH (path_pos q, 1 + zlen (p_path q))) UF_QUERY (query_pos q) (p_query q)) UF_FRAGMENT (fragment_pos q) (p_fragment q).

Lemma url_query X o rest p fa v : url_at X (sep "?" o ++ rest) p s_req_path UF_PATH fa v → opt_ok (made_of query_char query_char) o = true →
  0 <= p → p + zlen (sep "?" o) < 2 ^ 16 →
  ∃ s old, (s = s_req_path ∧ old = UF_PATH ∨ s = s_req_query_string ∧ old = UF_QUERY) ∧ url_at X rest (p + zlen (sep "?" o)) s old fa (put_opt v UF_QUERY (p + 1) o).
Proof.
  destruct o as [l|]; cbn [sep opt_ok put_opt app]; intros Hx Hl Hp Hmax.
  - apply made_of_inv in Hl as (c & r & -> & Hc & Hr). apply (forall_class _ query_next) in Hr. change (bytes_of_string "?") with [63] in *.
    rewrite zlen_app in *. change (zlen [63]) with 1 in *. rewrite <- app_assoc in Hx. cbn [app] in Hx.
    apply (url_skip _ _ _ _ _ s_req_query_string_start) in Hx; [|by vm_compute|done].
    eapply url_part in Hx; [|by apply query_start|exact Hr|done|done|done|done|lia|lia]. exists s_req_query_string, UF_QUERY. split; [by right|].
    eapply url_at_ext; [exact Hx|lia|done].
  - exists s_req_path, UF_PATH. rewrite zlen_nil, Z.add_0_r. split; [by left|done].
Qed.

Lemma url_fragment X o p s old fa v : url_at X (sep "#" o) p s old fa v → s = s_req_path ∧ old = UF_PATH ∨ s = s_req_query_string ∧ old = UF_QUERY →
  opt_ok (made_of query_char fragment_char) o = true → 0 <= p → p + zlen (sep "#" o) < 2 ^ 16 →
  ∃ u, X = Ok (Some fa, u) ∧ views u (put_opt v UF_FRAGMENT (p + 1) o).
Proof.
  destruct o as [l|]; cbn [sep opt_ok put_opt app]; intros Hx Hs Hl Hp Hmax.
  - apply made_of_inv in Hl as (c & r & -> & Hc & Hr). apply (forall_class _ fragment_next) in Hr. change (bytes_of_string "#") with [35] in *.
    rewrite zlen_app in *. change (zlen [35]) with 1 in *. cbn [app] in Hx.
    apply (url_skip _ _ _ _ _ s_req_fragment_start) in Hx; [|by destruct Hs as [[-> ->]|[-> ->]]; vm_compute|done]. rewrite <- (app_nil_r r) in Hx.
    eapply url_part in Hx; [|by apply fragment_start|exact Hr|done|done|by destruct Hs as [[-> ->]|[-> ->]]|done|lia|lia].
    destruct Hx as (u & Hu & ->). by exists u.
  - destruct Hx as (u & Hu & ->). by exists u.
Qed.

Lemma url_parsed q u : views u (λ _, None) → parts_ok q = true → zlen (print_url q) < 2 ^ 16 →
  ∃ u', url_loop (print_url q) 0 s_req_spaces_before_url UF_MAX false u = Ok (Some (bool_decide (is_Some (p_userinfo q))), u') ∧ views u' (text_view q).
Proof.
  unfold parts_ok. rewrite !andb_true_iff. intros Hu ((((((Hs & Hui) & Hh) & Ho) & Hp) & Hq) & Hf) Hmax.
  assert (Hpath : Forall (λ c, parse_url_char s_req_path c = s_req_path) (p_path q)).
  { apply Forall_forall. intros x Hx. apply path_next, (proj1 (forallb_forall _ _) Hp). by apply list_elem_of_In. }
  set (X := url_loop _ _ _ _ _ _). assert (Hx : url_at X (print_url q) 0 s_req_spaces_before_url UF_MAX false (λ _, None)) by by exists u.
  unfold print_url in Hx, Hmax. rewrite !zlen_app in Hmax. apply made_of_inv in Hs as (c & r & Es & Hc & Hr). apply (forall_class _ schema_next) in Hr.
  pose proof (zlen_nonneg (p_schema q)). pose proof (zlen_nonneg (authority q)). pose proof (zlen_nonneg (p_path q)). pose proof (zlen_nonneg (sep "?" (p_query q))).
  pose proof (zlen_nonneg (sep "#" (p_fragment q))). change (zlen (bytes_of_string "://")) with 3 in Hmax. change (zlen (bytes_of_string "/")) with 1 in Hmax.
  change (bytes_of_string "://") with [58; 47; 47] in Hx. change (bytes_of_string "/") with [47] in Hx. rewrite Es in Hx at 1. cbn [app] in Hx.
  eapply url_part in Hx; [|by apply schema_start|exact Hr|done|done|done|done|lia|rewrite <- Es; lia]. rewrite <- Es in Hx.
  apply (url_skip _ _ _ _ _ s_req_schema_slash) in Hx; [|by vm_compute|done]. apply (url_skip _ _ _ _ _ s_req_schema_slash_slash) in Hx; [|by vm_compute|done].
  apply (url_skip _ _ _ _ _ s_req_server_start) in Hx; [|by vm_compute|done].
  unfold authority in Hx. rewrite <- (app_assoc (userinfo_text _)) in Hx.
  apply url_authority in Hx; [|done|by apply made_of_app; [apply host_text_chars|apply port_text_chars]|lia|fold (authority q); lia]. fold (authority q) in Hx.
  apply (url_part _ 47 (p_path q) _ _ _ s_req_path UF_PATH) in Hx; [|by vm_compute|exact Hpath|done|done|done|done|lia|rewrite zlen_cons; lia].
  rewrite zlen_cons in Hx.
  apply url_query in Hx as (s & old & Hso & Hx); [|done|lia|lia]. eapply url_fragment in Hx as (u' & E & Hv); [|done|done|lia|lia].
  exists u'. split; [exact E|]. eapply views_ext; [|exact Hv]. intros uf. unfold text_view, host_pos, path_pos, query_pos, fragment_pos, path_pos, host_pos.
  destruct (p_query q) as [ql|], (p_fragment q) as [fl|]; cbn [put_opt]; unfold put_view; repeat case_decide; try reflexivity; do 2 f_equal; lia.
Qed.

Lemma port_loop_digits l : ∀ v, Forall (λ c, isdigit c = true) l → 0 <= v → digits_val l v <= 65535 → port_loop l v = Some (digits_val l v).
Proof.
  induction l as [|c l IH]; intros v Hl Hv Hmax; cbn [port_loop digits_val] in *; [done|]. inversion_clear Hl as [|? ? Hc Hl']. rewrite Hc in *.
  assert (48 <= c <= 57) by (unfold isdigit in Hc; rewrite andb_true_iff, !Z.leb_le in Hc; lia).
  pose proof (HttpRequest.digits_val_ge l (10 * v + (c - 48)) Hl'). assert (E : u64 (u64 (v * 10) + (i8 c - 48)) = 10 * v + (c - 48)).
  { replace (i8 c) with c by mach. mach. }
  rewrite E, (proj2 (Z.ltb_ge _ _)) by lia. apply IH; [done|lia|lia].
Qed.

Lemma views_set u v uf : views u v → is_set u uf = bool_decide (is_Some (v uf)).
Proof. intros [_ Hv]. rewrite <- Hv. unfold view. destruct (is_set u uf); [rewrite bool_decide_true|rewrite bool_decide_false]; [done|by eexists|done|by intros [? ?]]. Qed.

Lemma views_field u v uf a n : views u v → v uf = Some (a, n) → off (field u uf) = a ∧ len (field u uf) = n.
Proof. intros [_ Hv] E. rewrite <- Hv in E. unfold view in E. destruct (is_set u uf); [|done]. by injection E as -> ->. Qed.

Lemma views_text u v uf buf l1 l l2 : views u v → buf = l1 ++ l ++ l2 → v uf = Some (zlen l1, zlen l) → field_text buf u uf = Some l.
Proof.
  intros Hu -> E. destruct (views_field _ _ _ _ _ Hu E) as [E1 E2]. unfold field_text. rewrite (views_set _ _ _ Hu), E, bool_decide_true, E1, E2 by by eexists.
  by rewrite zdrop_app_eq, ztake_app_eq.
Qed.

Lemma views_text_none u v uf buf : views u v → v uf = None → field_text buf u uf = None.
Proof. intros Hu E. unfold field_text. rewrite (views_set _ _ _ Hu), E, bool_decide_false; [done|by intros [? ?]]. Qed.

(** All fields, once the host has been cut as well. *)
Definition final_view q : http_parser_url_fields → option (Z * Z) :=
  put_opt (put_view (put_opt (text_view q) UF_USERINFO (host_pos q) (p_userinfo q)) UF_HOST
    (host_pos q + zlen (userinfo_text (p_userinfo q)) + name_at (p_host q), zlen (name_text (p_host q))))
    UF_PORT (host_pos q + zlen (userinfo_text (p_userinfo q)) + zlen (host_text (p_host q)) + 1) (decimal <$> p_port q).

Lemma final_view_text q uf l : part q uf = Some l → ∃ l1 l2, print_url q = l1 ++ l ++ l2 ∧ final_view q uf = Some (zlen l1, zlen l).
Proof.
  intros E. set (sch := p_schema q ++ bytes_of_string "://"). set (path := bytes_of_string "/" ++ p_path q).
  set (port := sep ":" (decimal <$> p_port q)). set (ui := userinfo_text (p_userinfo q)). set (hosts := host_text (p_host q)).
  assert (Ep : print_url q = sch ++ ui ++ hosts ++ port ++ path ++ sep "?" (p_query q) ++ sep "#" (p_fragment q)).
  { unfold print_url, authority. fold ui hosts port path. unfold sch. by rewrite <- !app_assoc. }
  assert (Hs : host_pos q = zlen sch) by (unfold host_pos, sch; by rewrite zlen_app).
  assert (Ha : path_pos q = zlen sch + zlen ui + zlen hosts + zlen port).
  { unfold path_pos, authority. fold ui hosts port. rewrite !zlen_app. lia. }
  assert (Hp : zlen path = 1 + zlen (p_path q)) by (unfold path; by rewrite zlen_app).
  rewrite Ep. unfold final_view, text_view. destruct uf; cbn [part] in E; try done.
  - injection E as <-. exists [], (bytes_of_string "://" ++ ui ++ hosts ++ port ++ path ++ sep "?" (p_query q) ++ sep "#" (p_fragment q)).
    split; [unfold sch; by rewrite <- !app_assoc|]. by destruct (p_port q), (p_userinfo q), (p_fragment q), (p_query q).
  - injection E as <-. assert (Hh : ∃ h2, hosts = ztake (name_at (p_host q)) hosts ++ name_text (p_host q) ++ h2 ∧ name_at (p_host q) = zlen (ztake (name_at (p_host q)) hosts)).
    { unfold hosts. destruct (p_host q) as [h|a z]; cbn [host_text name_at]; [exists []|exists (bytes_of_string "]")]; split; try done. by rewrite app_nil_r. }
    destruct Hh as (h2 & Eh & Eat). exists (sch ++ ui ++ ztake (name_at (p_host q)) hosts), (h2 ++ port ++ path ++ sep "?" (p_query q) ++ sep "#" (p_fragment q)).
    split; [rewrite Eh at 1; by rewrite <- !app_assoc|]. rewrite !zlen_app, <- Eat, Hs. fold ui.
    destruct (p_port q); cbn [put_opt fmap option_fmap option_map]; rewrite ?put_view_ne, put_view_eq by done; do 2 f_equal; lia.
  - exists (sch ++ ui ++ hosts ++ bytes_of_string ":"), (path ++ sep "?" (p_query q) ++ sep "#" (p_fragment q)). unfold port. rewrite E. cbn [sep put_opt].
    split; [by rewrite <- !app_assoc|]. rewrite put_view_eq, !zlen_app, Hs. fold ui hosts. change (zlen (bytes_of_string ":")) with 1. do 2 f_equal. lia.
  - assert (l = path) as -> by (by injection E). exists (sch ++ ui ++ hosts ++ port), (sep "?" (p_query q) ++ sep "#" (p_fragment q)). split; [by rewrite <- !app_assoc|].
    rewrite Hp, !zlen_app, Ha. destruct (p_port q), (p_userinfo q), (p_fragment q), (p_query q); cbn [put_opt fmap option_fmap option_map]; rewrite ?put_view_ne, put_view_eq by done; do 2 f_equal; lia.
  - exists (sch ++ ui ++ hosts ++ port ++ path ++ bytes_of_string "?"), (sep "#" (p_fragment q)). rewrite E. cbn [sep]. split; [by rewrite <- !app_assoc|].
    unfold query_pos. rewrite !zlen_app, Ha, Hp. change (zlen (bytes_of_string "?")) with 1.
    destruct (p_port q), (p_userinfo q), (p_fragment q); cbn [put_opt fmap option_fmap option_map]; rewrite ?put_view_ne, put_view_eq by done; do 2 f_equal; lia.
  - exists (sch ++ ui ++ hosts ++ port ++ path ++ sep "?" (p_query q) ++ bytes_of_string "#"), []. rewrite E. cbn [sep]. split; [rewrite app_nil_r; by rewrite <- !app_assoc|].
    unfold fragment_pos. rewrite !zlen_app, Ha, Hp. change (zlen (bytes_of_string "#")) with 1.
    destruct (p_port q), (p_userinfo q); cbn [put_opt fmap option_fmap option_map]; rewrite ?put_view_ne, put_view_eq by done; do 2 f_equal; lia.
  - exists sch, (bytes_of_string "@" ++ hosts ++ port ++ path ++ sep "?" (p_query q) ++ sep "#" (p_fragment q)). unfold ui. rewrite E. cbn [userinfo_text put_opt].
    split; [by rewrite <- !app_assoc|]. rewrite Hs. destruct (p_port q); cbn [put_opt fmap option_fmap option_map]; rewrite ?put_view_ne, put_view_eq by done; done.
Qed.

Lemma final_view_none q uf : part q uf = None → final_view q uf = None.
Proof. unfold final_view, text_view. destruct uf; cbn [part]; intros E; try done; rewrite ?E; by destruct (p_port q), (p_userinfo q), (p_fragment q), (p_query q). Qed.

(** The loops leave the number of the port alone. *)
Lemma url_loop_port cs : ∀ p s old fa u r u', url_loop cs p s old fa u = Ok (r, u') → port u' = port u.
Proof.
  induction cs as [|ch cs IH]; intros p s old fa u r u'; cbn [url_loop]; [intros H; by injection H as <- <-|].
  destruct (field_of _); [intros H; by injection H as <- <-|apply IH| |done]. destruct (decide _); intros H; by rewrite (IH _ _ _ _ _ _ _ H).
Qed.

Lemma host_note_port s s' p u : port (host_note s s' p u) = port u.
Proof. destruct s'; cbn [host_note]; try done; by destruct (decide _). Qed.

Lemma host_loop_port cs : ∀ p s u, port (snd (host_loop cs p s u)) = port u.
Proof. induction cs as [|ch cs IH]; intros p s u; cbn [host_loop]; [done|]. destruct (decide _); [done|]. by rewrite IH, host_note_port. Qed.

Lemma http_parse_host_port buf u fa r u' : http_parse_host buf u fa = Ok (r, u') → port u' = port u.
Proof.
  unfold http_parse_host. destruct (negb _); [done|]. destruct (mem_read _ _ _) as [cs|]; cbn [obind]; [|done].
  match goal with |- context [host_loop ?a ?b ?c ?d] => pose proof (host_loop_port a b c d) as H; destruct (host_loop a b c d) end.
  intros E. injection E as _ <-. exact H.
Qed.

(** The host of the text is cut into its fields. *)
Lemma print_url_host q u : views u (text_view q) → parts_ok q = true → zlen (print_url q) < 2 ^ 16 →
  ∃ u', http_parse_host (print_url q) u (bool_decide (is_Some (p_userinfo q))) = Ok (0, u') ∧ views u' (final_view q).
Proof.
  unfold parts_ok. rewrite !andb_true_iff. intros Hu ((((((Hs & Hui) & Hh) & Ho) & _) & _) & _) Hmax.
  assert (Eh : text_view q UF_HOST = Some (host_pos q, zlen (authority q))) by by unfold text_view; destruct (p_query q), (p_fragment q).
  destruct (views_field _ _ _ _ _ Hu Eh) as [E1 E2]. unfold http_parse_host. rewrite (views_set _ _ _ Hu), Eh, bool_decide_true, E1, E2 by by eexists. cbn [negb].
  assert (Ep : ∃ rest, print_url q = (p_schema q ++ bytes_of_string "://") ++ authority q ++ rest) by (eexists; unfold print_url; by rewrite <- !app_assoc).
  destruct Ep as [rest Ep]. assert (Epos : host_pos q = zlen (p_schema q ++ bytes_of_string "://")) by (unfold host_pos; by rewrite zlen_app).
  rewrite Ep, Epos, mem_read_app_middle, <- Epos. cbn [obind]. unfold set_len. rewrite E1. change (u16 0) with 0.
  assert (Hu1 : views (put_field u UF_HOST (mkField (host_pos q) 0)) (put_view (text_view q) UF_HOST (host_pos q, 0))) by by eapply views_put.
  destruct (host_parsed _ _ q (host_pos q) (host_pos q) Hu1) as (s & u' & E & Hd & Hb & Hv); try done.
  { unfold host_pos. pose proof (zlen_nonneg (p_schema q)). lia. }
  { rewrite Ep, !zlen_app, Z.add_assoc in Hmax. rewrite Epos, zlen_app. pose proof (zlen_nonneg rest). lia. }
  assert (Es : (if bool_decide (is_Some (p_userinfo q)) then s_http_userinfo_start else s_http_host_start) =
    (if decide (is_Some (p_userinfo q)) then s_http_userinfo_start else s_http_host_start)) by by destruct (p_userinfo q).
  rewrite Es, E, bool_decide_false, Hb by done. exists u'. split; [done|]. eapply views_ext; [|exact Hv].
  intros uf. unfold final_view. destruct (p_userinfo q), (p_port q); cbn [put_opt fmap option_fmap option_map]; unfold put_view; repeat case_decide; by subst.
Qed.

(** A URL that was made of its parts is cut into the same parts, and the number of its port is found. *)
Theorem url_roundtrip q u : parts_ok q = true → zlen (print_url q) < 2 ^ 16 → length (field_data u) = 7%nat →
  ∃ u', http_parser_parse_url (print_url q) false u = Ok (0, u') ∧ port u' = default 0 (p_port q) ∧ ∀ uf, field_text (print_url q) u' uf = part q uf.
Proof.
  intros Hok Hmax Hl. set (u0 := u <| port := 0 |> <| field_set := 0 |>).
  assert (Hu0 : views u0 (λ _, None)).
  { split; [split; [done|cbn; lia]|]. intros uf. unfold view. rewrite is_set_bit. cbn. by rewrite Z.bits_0. }
  destruct (url_parsed q u0 Hu0 Hok Hmax) as (u1 & E1 & Hu1). destruct (print_url_host q u1 Hu1 Hok Hmax) as (u2 & E2 & Hu2).
  assert (Hrest : ∀ k, ∃ u', (if is_set u2 UF_PORT then parse_port (print_url q) u2 else Ok (0, u2)) = Ok (0, u') ∧ (port u2 = k → port u' = default k (p_port q)) ∧ views u' (final_view q)).
  { intros k. rewrite (views_set _ _ _ Hu2). destruct (p_port q) as [n|] eqn:En.
    - destruct (final_view_text q UF_PORT (decimal n)) as (l1 & l2 & Et & Ev); [cbn; by rewrite En|]. rewrite Ev, bool_decide_true by by eexists.
      destruct (views_field _ _ _ _ _ Hu2 Ev) as [F1 F2]. unfold parse_port. rewrite F1, F2, Et, mem_read_app_middle.
      rewrite (proj2 (Z.leb_le _ _)) by (rewrite !zlen_app; pose proof (zlen_nonneg l2); lia). cbn [obind negb].
      assert (Hn : 0 <= n <= 65535). { revert Hok. unfold parts_ok. rewrite En. cbn [port_ok]. rewrite !andb_true_iff, !Z.leb_le. intuition. }
      destruct (port_digits n Hn) as [Hd Hv]. rewrite port_loop_digits, Hv; [|exact (made_of_forall _ _ Hd)|done|lia].
      eexists. split; [done|]. split; [intros _; cbn; by rewrite u16_small by lia|done].
    - rewrite (final_view_none q UF_PORT), bool_decide_false; [|by intros [? ?]|cbn; by rewrite En]. exists u2. split; [done|]. by split. }
  destruct (Hrest 0) as (u' & E3 & Hport & Hu'). exists u'. split_and!.
  - unfold http_parser_parse_url. destruct (Z.eqb_spec (zlen (print_url q)) 0) as [E0|_].
    { apply zlen_zero in E0. unfold print_url in E0. by apply app_eq_nil in E0 as [_ E0]. }
    fold u0. rewrite E1. cbn [obind]. rewrite !(views_set _ _ _ Hu1).
    assert (text_view q UF_HOST = Some (host_pos q, zlen (authority q))) as -> by by unfold text_view; destruct (p_query q), (p_fragment q).
    rewrite (bool_decide_true (is_Some (Some _))) by by eexists. rewrite andb_false_r, E2. cbn [obind Z.eqb negb andb]. done.
  - apply Hport. by rewrite (http_parse_host_port _ _ _ _ _ E2), (url_loop_port _ _ _ _ _ _ _ _ E1).
  - intros uf. destruct (part q uf) as [l|] eqn:Ep; [|by apply (views_text_none _ _ _ _ Hu'), final_view_none].
    destruct (final_view_text q uf l Ep) as (l1 & l2 & Et & Ev). by eapply views_text.
Qed.

Definition demo_url : url_parts :=
  mkParts (bytes_of_string "https") (Some (bytes_of_string "me")) (V6 (bytes_of_string "fe80::1") (Some (bytes_of_string "eth0"))) (Some 10002)
    (bytes_of_string "a/b") (Some (bytes_of_string "x=1?")) None.

Lemma url_roundtrip_witness : print_url demo_url = bytes_of_string "https://me@[fe80::1%eth0]:10002/a/b?x=1?" ∧
  ∃ u', http_parser_parse_url (print_url demo_url) false http_parser_url_init = Ok (0, u') ∧ port u' = 10002 ∧
    ∀ uf, field_text (print_url demo_url) u' uf = part demo_url uf.
Proof. split; [vm_compute; reflexivity|]. apply (url_roundtrip demo_url http_parser_url_init); vm_compute; reflexivity. Defined.

Lemma url_parse_safe_witness : ∃ r u', http_parser_parse_url (bytes_of_string "a:80") true http_parser_url_init = Ok (r, u') ∧
  (r = 0 → ∀ uf, is_set u' uf = true → spans u' uf 4).
Proof. apply (url_parse_safe (bytes_of_string "a:80") true http_parser_url_init). reflexivity. Defined.

(** The offsets have 16 bits: in a longer text a field is found at the wrong place, and the parser reports success. *)
Definition long_url : list Z := bytes_of_string "/" ++ replicate 65535 97 ++ bytes_of_string "?b".

Theorem url_offsets_wrap : ∃ u', http_parser_parse_url long_url false http_parser_url_init = Ok (0, u') ∧
  field_text long_url u' UF_QUERY = Some (bytes_of_string "a").
Proof.
  set (b := match http_parser_parse_url long_url false http_parser_url_init with
            | Ok (r, u) => (r =? 0) && bool_decide (field_text long_url u UF_QUERY = Some (bytes_of_string "a"))
            | Fault => false end).
  assert (Hb : b = true) by (vm_compute; reflexivity). unfold b in Hb.
  destruct (http_parser_parse_url long_url false http_parser_url_init) as [[r u]|]; [|done].
  apply andb_true_iff in Hb as [->%Z.eqb_eq Hf%bool_decide_eq_true]. eauto.
Qed.
