(* ===== verification/PacketHttp.v ===== *)
(** * The HTTP and websocket packet parser (src/PacketParse_Http/PacketParse_Http.cpp)

    The plugin keeps one protocol record per connection: it starts as HTTP, becomes a
    websocket handshake when a request asks for the upgrade, and carries websocket frames
    once the handshake answer has been sent. *)

From Stdlib Require Import ZArith Lia.
From S2P Require Import Prelude Define SessionBuffer Sha1 Websocket HttpFormat.
From stdpp Require Import base numbers list gmap strings.
Local Open Scope Z_scope.

Inductive ENUM_Protocol :=
  PROTOCAL_HTTP_POST | PROTOCAL_WEBSOCKET_SHARK_HAND | PROTOCAL_WEBSOCKET_DATA.

Record CProtocalInfo := mkProto {
  protocol_ : ENUM_Protocol;
  http_format_ : CHttpTextBuffer;
}.

(** [map_http_parse_]. *)
Notation map_http_parse := (gmap Z CProtocalInfo).

Definition http_post_command : Z := 4097.
Definition http_websocket_shark_hand : Z := 4098.
Definition websocket_data : Z := 4099.

Definition is_need_send_format : bool := true.

(** Result of a parse call: the returned flag, the buffer, the record and the messages. *)
Definition ws_result : Type := bool * CSessionBuffer * CProtocalInfo * list CMessage_Packet.

Definition ws_init : ws_out := mkOut [] ERROR_FRAME 0 false.

(** The [while (left_len > 0)] of [dispose_websocket_data_message].  [None]: out of fuel. *)
Fixpoint ws_loop (fuel : nat) (buffer : CSessionBuffer) (left_len : Z) (cache_frame : list Z)
    (protocal_info : CProtocalInfo) (message_list : list CMessage_Packet) : option (outcome ws_result) :=
  match fuel with
  | O => None
  | S fuel =>
      if left_len =? 0 then Some (Ok (true, buffer, protocal_info, message_list))
      else
        match wsFrameExtractBuffer (read buffer) left_len ws_init with
        | Fault => Some Fault
        | Ok (false, _) => Some (Ok (true, buffer, protocal_info, message_list))
        | Ok (true, out) =>
            let op_code := outopcode out in
            let is_fin := outfin out in
            let parse_data := payload out in
            let append := negb is_fin || (op_code =? CONTINUATION_FRAME) in
            let cache_frame := if append then cache_frame ++ parse_data else cache_frame in
            let parse_data := if append then [] else parse_data in
            let cache_frame :=
              if negb is_fin && negb (op_code =? CONTINUATION_FRAME) then [] else cache_frame in
            match move buffer (frameSize out) with
            | Fault => Some Fault
            | Ok buffer =>
                let left_len := left_len -u64 frameSize out in
                if negb is_fin then ws_loop fuel buffer left_len cache_frame protocal_info message_list
                else
                  let parse_data :=
                    if (op_code =? CONTINUATION_FRAME) && negb (zlen cache_frame =? 0)
                    then cache_frame else parse_data in
                  ws_loop fuel buffer left_len cache_frame
                    (mkProto PROTOCAL_WEBSOCKET_DATA (http_format_ protocal_info))
                    (message_list ++ [mkPacket [] parse_data websocket_data])
            end
        end
  end.

Definition dispose_websocket_data_message (buffer : CSessionBuffer) (protocal_info : CProtocalInfo)
    (message_list : list CMessage_Packet) : option (outcome ws_result) :=
  ws_loop (S (Z.to_nat (get_write_size buffer))) buffer (get_write_size buffer) [] protocal_info message_list.

(** [do_websocket_send_frame]: an unmasked final text frame. *)
Definition do_websocket_send_frame (send_data : list Z) : list Z :=
  wsFrameBuild (fun _ => 0) send_data TEXT_FRAME true false.

(** [connect] and [disconnect]. *)
Definition connect (m : map_http_parse) (u4ConnectID : Z) : map_http_parse :=
  match m !! u4ConnectID with
  | Some _ => m
  | None => <[u4ConnectID := mkProto PROTOCAL_HTTP_POST (init_http_setting CHttpTextBuffer_default)]> m
  end.

Definition disconnect (m : map_http_parse) (u4ConnectID : Z) : map_http_parse := delete u4ConnectID m.

(** [parse_packet_format_send_buffer]: the formatted message, or [None] when it returns
    false. *)
Definition parse_packet_format_send_buffer (m : map_http_parse) (connect_id : Z) (message : CMessage_Packet)
    (format_message : CMessage_Packet) : option CMessage_Packet * map_http_parse :=
  match m !! connect_id with
  | None => (None, m)
  | Some info =>
      let set_buffer b := mkPacket (param_arg_ format_message) b (command_id_ message) in
      match protocol_ info with
      | PROTOCAL_HTTP_POST => (Some (set_buffer (get_response_text (pbuffer_ message))), m)
      | PROTOCAL_WEBSOCKET_SHARK_HAND =>
          (Some (set_buffer (get_response_websocket_text (pbuffer_ message))),
           <[connect_id := mkProto PROTOCAL_WEBSOCKET_DATA (http_format_ info)]> m)
      | PROTOCAL_WEBSOCKET_DATA =>
          (Some (set_buffer (do_websocket_send_frame (pbuffer_ message))), m)
      end
  end.

Section WithParser.

Context (http_parser_execute : list Z → parse_run) (junk : CSHA1).

Definition dispose_http_message (http_request_text : list Z) (protocal_info : CProtocalInfo)
    (message_list : list CMessage_Packet) : outcome (bool * CProtocalInfo * list CMessage_Packet) :=
  let '(ret, hf) := try_parse http_parser_execute (http_format_ protocal_info) http_request_text in
  if ret =? 0 then
    if negb (is_websocket hf) then
      Ok (true, mkProto PROTOCAL_HTTP_POST hf,
          message_list ++ [mkPacket [] (get_post_text hf) http_post_command])
    else
      let* answer := wsHandshake junk (get_websocket_client_key hf) in
      Ok (true, mkProto PROTOCAL_WEBSOCKET_SHARK_HAND hf,
          message_list ++ [mkPacket [] answer http_websocket_shark_hand])
  else if ret =? -1 then Ok (false, mkProto (protocol_ protocal_info) hf, message_list)
  else Ok (true, mkProto (protocol_ protocal_info) hf, message_list).

Definition parse_packet_from_recv_buffer (m : map_http_parse) (connect_id : Z) (buffer : CSessionBuffer)
    (message_list : list CMessage_Packet)
  : option (outcome (bool * map_http_parse * CSessionBuffer * list CMessage_Packet)) :=
  match m !! connect_id with
  | None => Some (Ok (true, m, buffer, message_list))
  | Some info =>
      match protocol_ info with
      | PROTOCAL_HTTP_POST =>
          Some (let* http_request_text := mem_read (read buffer) 0 (get_write_size buffer) in
                let* buffer := move buffer (get_write_size buffer) in
                let* '(ok, info, message_list) := dispose_http_message http_request_text info message_list in
                Ok (ok, <[connect_id := info]> m, buffer, message_list))
      | PROTOCAL_WEBSOCKET_DATA =>
          match dispose_websocket_data_message buffer info message_list with
          | None => None
          | Some r => Some (let* '(ok, buffer, info, message_list) := r in
                            Ok (ok, <[connect_id := info]> m, buffer, message_list))
          end
      | PROTOCAL_WEBSOCKET_SHARK_HAND => Some (Ok (true, m, buffer, message_list))
      end
  end.

End WithParser.

(** ** The decoder looks only at the received bytes *)

Lemma byte_at_take buffer k j : 0 <= j < k → k <= zlen buffer →
  byte_at (ztake k buffer) j = byte_at buffer j.
Proof.
  intros Hj Hk. unfold byte_at. rewrite zlen_ztake by lia.
  rewrite (proj2 (Z.leb_le 0 j)), (proj2 (Z.ltb_lt j k)), (proj2 (Z.ltb_lt j (zlen buffer))) by lia.
  cbn [andb]. f_equal. unfold ztake. rewrite !nth_lookup, lookup_take_lt by lia. done.
Qed.

Lemma mem_read_take buffer k pos n : 0 <= pos → 0 <= n → pos + n <= k → k <= zlen buffer →
  mem_read (ztake k buffer) pos n = mem_read buffer pos n.
Proof.
  intros. rewrite !mem_read_ok by (rewrite ?zlen_ztake; lia). f_equal.
  replace k with (pos + (k - pos)) by lia. rewrite zdrop_ztake, ztake_ztake by lia. done.
Qed.

Lemma extract_len_take buffer k b1 : 2 <= k <= zlen buffer →
  extract_len (ztake k buffer) k b1 = extract_len buffer k b1.
Proof.
  intros Hk. unfold extract_len.
  destruct (_ =? 126); [destruct (Z.ltb_spec k 4); [done|]|].
  - by rewrite !byte_at_take by lia.
  - destruct (_ =? 127); [destruct (Z.ltb_spec k 10); [done|]|done]. by rewrite !byte_at_take by lia.
Qed.

Lemma extract_take buffer k out : wf_bytes (ztake k buffer) → 0 <= k <= zlen buffer →
  wsFrameExtractBuffer (ztake k buffer) k out = wsFrameExtractBuffer buffer k out.
Proof.
  intros Hwf Hk. unfold wsFrameExtractBuffer. destruct (Z.ltb_spec k 2); [done|].
  rewrite !byte_at_take by lia. get_byte b0 E0. get_byte b1 E1.
  destruct (extract_len_safe (ztake k buffer) k b1) as (r & Er & Hr);
    [done|apply (byte_at_wf (ztake k buffer) 1); [done|by rewrite byte_at_take by lia]
    |rewrite zlen_ztake; lia|].
  rewrite extract_len_take in * by lia. rewrite Er. cbn [obind].
  destruct r as [[n pos]|]; [|done]. destruct (Hr n pos eq_refl) as (Hn & Hp & Hpk).
  rewrite (u32_small (pos + 4)) by lia. destruct (negb (Z.land b1 128 =? 0)); cbn [andb].
  - destruct (Z.ltb_spec k (pos + 4)); [done|]. rewrite mem_read_take by lia.
    rewrite mem_read_ok by lia. cbn [obind]. rewrite u32_small by lia.
    destruct (Z.ltb_spec k (pos + 4 + n)); [done|]. by rewrite mem_read_take by lia.
  - cbn [obind]. rewrite u32_small by lia. destruct (Z.ltb_spec k (pos + n)); [done|].
    by rewrite mem_read_take by lia.
Qed.

(** ** Frames in the receive buffer *)

Record ws_frame := mkWsFrame {
  w_random : nat → Z; w_payload : list Z; w_op : Z; w_fin : bool; w_mask : bool;
}.
Definition ws_bytes (f : ws_frame) : list Z :=
  wsFrameBuild (w_random f) (w_payload f) (w_op f) (w_fin f) (w_mask f).
Definition ws_ok (f : ws_frame) : Prop := 0 <= w_op f < 16 ∧ zlen (w_payload f) < 2 ^ 31 - 16.

(** An incomplete frame: nothing, or a strict prefix of some frame. *)
Definition ws_partial (rest : list Z) : Prop :=
  rest = [] ∨ ∃ f more, ws_ok f ∧ ws_bytes f = rest ++ more ∧ more ≠ [].

Lemma ws_bytes_len f : 2 <= zlen (ws_bytes f).
Proof.
  unfold ws_bytes. rewrite build_layout, zlen_cons, !zlen_app.
  pose proof (zlen_nonneg (frame_mask (w_random f) (w_mask f))).
  pose proof (zlen_nonneg (frame_data (w_random f) (w_mask f) (w_payload f))).
  assert (1 <= zlen (len_field_m (w_mask f) (zlen (w_payload f)))); [|lia].
  unfold len_field_m, len_field, set_mask_bit.
  destruct (w_mask f), (zlen (w_payload f) <=? 125), (zlen (w_payload f) <=? 65535);
    vm_compute; congruence.
Qed.

Lemma read_contents b : read b = contents b ++ zdrop (write_size_ b) (buffer_ b).
Proof. apply buffer_split. Qed.

Lemma move_wf_bytes b n b' : move b n = Ok b' → wf_bytes (buffer_ b) → wf_bytes (buffer_ b').
Proof.
  unfold move, mem_read, mem_write. intros H Hwf. destruct (_ <=? n); [by injection H as <-|].
  destruct (_ && _); [|done]. cbn [obind] in H. destruct (_ && _); [|done]. cbn [obind] in H.
  injection H as <-. cbn [buffer_]. rewrite !wf_bytes_app. auto with pss.
Qed.

(** One iteration on a complete frame at the front of the buffer. *)
Definition after_frame (f : ws_frame) (cache : list Z) : list Z * option (list Z) :=
  let cont := w_op f =? 0 in
  let cache1 := if negb (w_fin f) && negb cont then []
                else if negb (w_fin f) || cont then cache ++ w_payload f else cache in
  (cache1,
   if w_fin f then
     Some (if cont then cache1 else w_payload f)
   else None).

Lemma ws_loop_frame fuel b f rest cache info msgs :
  wf b → ws_ok f → contents b = ws_bytes f ++ rest →
  ∃ b', wf b' ∧ contents b' = rest ∧ (wf_bytes (buffer_ b) → wf_bytes (buffer_ b')) ∧
    ws_loop (S fuel) b (zlen (contents b)) cache info msgs =
    match after_frame f cache with
    | (cache', None) => ws_loop fuel b' (zlen rest) cache' info msgs
    | (cache', Some m) =>
        ws_loop fuel b' (zlen rest) cache' (mkProto PROTOCAL_WEBSOCKET_DATA (http_format_ info))
          (msgs ++ [mkPacket [] m websocket_data])
    end.
Proof.
  intros Hwf [Hop Hlen] Hc. pose proof (ws_bytes_len f). pose proof (zlen_nonneg rest).
  destruct (move_contents b (zlen (ws_bytes f)) Hwf) as (b' & Em & Hwf' & Hc' & _); [lia|].
  rewrite Hc, zdrop_app_eq in Hc' by done. pose proof (contents_len b Hwf) as Hcl.
  pose proof Hwf as [Hbl Hws Hmx].
  exists b'. split_and!; [done|done|by apply (move_wf_bytes b (zlen (ws_bytes f)))|].
  cbn [ws_loop]. rewrite Hc, zlen_app in *. rewrite (proj2 (Z.eqb_neq _ 0)) by lia.
  rewrite read_contents, Hc, <- app_assoc.
  destruct (extract_build (w_random f) (w_payload f) (w_op f) (w_fin f) (w_mask f)
    (rest ++ zdrop (write_size_ b) (buffer_ b)) (zlen (ws_bytes f) + zlen rest) ws_init)
    as (out' & E & Eout); [done|done|lia|].
  fold (ws_bytes f) in E, Eout. rewrite (proj2 (Z.leb_le _ _)) in E, Eout by lia. rewrite E, Eout.
  cbn [outopcode outfin payload frameSize ws_init app]. rewrite Em.
  rewrite u64_small by lia. replace (zlen (ws_bytes f) + zlen rest - zlen (ws_bytes f)) with (zlen rest) by lia.
  unfold after_frame, CONTINUATION_FRAME.
  destruct (w_fin f), (w_op f =? 0); cbn [negb andb orb]; try done.
  destruct (Z.eqb_spec (zlen (cache ++ w_payload f)) 0) as [E0|E0]; cbn [negb]; [|done].
  by apply zlen_zero in E0 as ->.
Qed.

(** The loop stops at an incomplete frame. *)
Lemma ws_loop_partial fuel b cache info msgs :
  wf b → wf_bytes (buffer_ b) → ws_partial (contents b) →
  ws_loop (S fuel) b (zlen (contents b)) cache info msgs = Some (Ok (true, b, info, msgs)).
Proof.
  intros Hwf Hwb Hp. cbn [ws_loop]. pose proof (zlen_nonneg (contents b)).
  destruct (Z.eqb_spec (zlen (contents b)) 0); [done|].
  destruct Hp as [E|(f & more & [Hop Hlen] & E & Hne)]; [by rewrite E in *|].
  pose proof Hwf as [Hbl Hws Hmx]. rewrite contents_len in * by done.
  assert (Hwc : wf_bytes (contents b)) by (by apply wf_bytes_ztake).
  destruct (extract_build (w_random f) (w_payload f) (w_op f) (w_fin f) (w_mask f) [] (write_size_ b) ws_init)
    as (out' & Ex & _); [done|done|lia|]. fold (ws_bytes f) in Ex. rewrite app_nil_r, E in Ex.
  assert (0 < zlen more).
  { pose proof (zlen_nonneg more). destruct (Z.eq_dec (zlen more) 0) as [E0|]; [by apply zlen_zero in E0|lia]. }
  rewrite zlen_app, contents_len, (proj2 (Z.leb_gt _ _)) in Ex by (done || lia).
  assert (Hcut : ∀ tail, ztake (write_size_ b) (contents b ++ tail) = contents b).
  { intros. apply ztake_app_eq. by rewrite contents_len. }
  assert (Hsame : ∀ tail, wsFrameExtractBuffer (contents b ++ tail) (write_size_ b) ws_init =
                          wsFrameExtractBuffer (contents b) (write_size_ b) ws_init).
  { intros tail. rewrite <- (extract_take (contents b ++ tail)); rewrite ?Hcut; [done|done|].
    rewrite zlen_app, contents_len by done. pose proof (zlen_nonneg tail). lia. }
  rewrite read_contents, Hsame. rewrite Hsame in Ex. by rewrite Ex.
Qed.

(** What the frames of a buffer deliver. *)
Fixpoint ws_deliver (fs : list ws_frame) (cache : list Z) : list (list Z) :=
  match fs with
  | [] => []
  | f :: fs =>
      match after_frame f cache with
      | (cache, Some m) => m :: ws_deliver fs cache
      | (cache, None) => ws_deliver fs cache
      end
  end.

Definition ws_packets (ms : list (list Z)) : list CMessage_Packet :=
  map (fun m => mkPacket [] m websocket_data) ms.

Lemma ws_loop_frames fs : ∀ fuel b rest cache info msgs,
  wf b → wf_bytes (buffer_ b) → Forall ws_ok fs → ws_partial rest →
  contents b = concat (map ws_bytes fs) ++ rest → (length fs < fuel)%nat →
  ∃ b' info', ws_loop fuel b (zlen (contents b)) cache info msgs =
      Some (Ok (true, b', info', msgs ++ ws_packets (ws_deliver fs cache))) ∧
    contents b' = rest ∧ http_format_ info' = http_format_ info ∧
    (protocol_ info = PROTOCAL_WEBSOCKET_DATA → protocol_ info' = PROTOCAL_WEBSOCKET_DATA).
Proof.
  induction fs as [|f fs IH]; intros fuel b rest cache info msgs Hwf Hwb Hok Hp Hc Hf;
    cbn [map concat ws_deliver] in *; destruct fuel as [|fuel]; try (simpl in Hf; lia).
  - exists b, info. rewrite ws_loop_partial by (done || by rewrite Hc).
    cbn [ws_packets map]. rewrite app_nil_r. done.
  - inversion_clear Hok as [|? ? Hof Hok']. rewrite <- app_assoc in Hc.
    destruct (ws_loop_frame fuel b f _ cache info msgs Hwf Hof Hc) as (b1 & Hwf1 & Hc1 & Hwb1 & ->).
    rewrite <- Hc1. destruct (after_frame f cache) as [cache' [m|]].
    + destruct (IH fuel b1 rest cache' (mkProto PROTOCAL_WEBSOCKET_DATA (http_format_ info))
        (msgs ++ [mkPacket [] m websocket_data])) as (b' & info' & -> & ? & ? & Hd);
        [done|auto|done|done|done|simpl in Hf; lia|].
      exists b', info'. split_and!; [|done|done|auto].
      cbn [ws_packets map]. by rewrite <- app_assoc.
    + apply IH; auto. simpl in Hf; lia.
Qed.

Lemma frames_fewer_than_bytes fs : (length fs <= length (concat (map ws_bytes fs)))%nat.
Proof.
  induction fs as [|f fs IH]; cbn [map concat length]; [lia|]. rewrite length_app.
  pose proof (ws_bytes_len f) as H. unfold zlen in H. lia.
Qed.

Lemma dispose_frames b fs rest info msgs :
  wf b → wf_bytes (buffer_ b) → Forall ws_ok fs → ws_partial rest →
  contents b = concat (map ws_bytes fs) ++ rest →
  ∃ b' info', dispose_websocket_data_message b info msgs =
      Some (Ok (true, b', info', msgs ++ ws_packets (ws_deliver fs []))) ∧
    contents b' = rest ∧ http_format_ info' = http_format_ info ∧
    (protocol_ info = PROTOCAL_WEBSOCKET_DATA → protocol_ info' = PROTOCAL_WEBSOCKET_DATA).
Proof.
  intros Hwf Hwb Hok Hp Hc. unfold dispose_websocket_data_message, get_write_size.
  rewrite <- (contents_len b Hwf). apply ws_loop_frames; try done.
  pose proof (f_equal zlen Hc) as Hl. rewrite zlen_app in Hl. pose proof (zlen_nonneg rest).
  pose proof (frames_fewer_than_bytes fs). unfold zlen in *. lia.
Qed.

(** Every call returns, whatever the bytes. *)
Lemma ws_loop_total fuel : ∀ b cache info msgs,
  wf b → wf_bytes (buffer_ b) → zlen (contents b) < Z.of_nat fuel →
  ∃ r, ws_loop fuel b (zlen (contents b)) cache info msgs = Some (Ok r).
Proof.
  induction fuel as [|fuel IH]; intros b cache info msgs Hwf Hwb Hf.
  { pose proof (zlen_nonneg (contents b)). lia. }
  cbn [ws_loop]. destruct (Z.eqb_spec (zlen (contents b)) 0); [eauto|].
  pose proof Hwf as [Hbl Hws Hmx]. pose proof (contents_len b Hwf) as Hcl.
  destruct (extract_safe (read b) (zlen (contents b)) ws_init) as (ok & out & -> & Hsz);
    [done|unfold read; lia|]. destruct ok; [|eauto]. specialize (Hsz eq_refl).
  destruct (move_contents b (frameSize out) Hwf) as (b' & Em & Hwf' & Hc' & _); [lia|]. rewrite Em.
  assert (Hl : zlen (contents b) -u64 frameSize out = zlen (contents b')).
  { rewrite Hc', zlen_zdrop, u64_small by lia. done. }
  rewrite Hl. pose proof (move_wf_bytes b (frameSize out) b' Em Hwb).
  assert (zlen (contents b') < Z.of_nat fuel) by (rewrite Hc', zlen_zdrop; lia).
  destruct (negb (outfin out)); apply IH; done.
Qed.

(** ** Properties *)

(** C25: a connection in the websocket state that holds any number of complete unfragmented
    frames followed by an incomplete one delivers the payload of each frame, in order, and
    keeps the incomplete bytes for the next read. *)
Theorem ws_stream_delivery P junk m id info b fs rest msgs :
  m !! id = Some info → protocol_ info = PROTOCAL_WEBSOCKET_DATA →
  wf b → wf_bytes (buffer_ b) → Forall ws_ok fs →
  Forall (λ f, w_fin f = true ∧ w_op f ≠ CONTINUATION_FRAME) fs → ws_partial rest →
  contents b = concat (map ws_bytes fs) ++ rest →
  ∃ m' b', parse_packet_from_recv_buffer P junk m id b msgs =
      Some (Ok (true, m', b', msgs ++ ws_packets (map w_payload fs))) ∧ contents b' = rest.
Proof.
  intros Hm Hp Hwf Hwb Hok Hun Hpart Hc. unfold parse_packet_from_recv_buffer. rewrite Hm, Hp.
  destruct (dispose_frames b fs rest info msgs) as (b' & info' & -> & ? & _); try done. cbn [obind].
  assert (ws_deliver fs [] = map w_payload fs) as ->; [|eauto]. clear -Hun.
  induction Hun as [|f fs [Hfin Hop] _ IH]; cbn [ws_deliver map]; [done|].
  unfold after_frame. rewrite Hfin, (proj2 (Z.eqb_neq (w_op f) 0)) by done. cbn [negb andb orb].
  by rewrite IH.
Qed.

Definition demo_ws_frame (s : string) (op : Z) (fin : bool) : ws_frame :=
  mkWsFrame (fun k => Z.of_nat k) (bytes_of_string s) op fin true.
Definition buffer_of (bytes : list Z) : CSessionBuffer := mkSessionBuffer bytes (zlen bytes) (zlen bytes).
Definition demo_ws_map : map_http_parse :=
  {[ 7 := mkProto PROTOCAL_WEBSOCKET_DATA CHttpTextBuffer_default ]}.

Lemma ws_stream_delivery_witness :
  ∃ m' b', parse_packet_from_recv_buffer (fun _ => mkRun [] 0 false) junk_sha1 demo_ws_map 7
      (buffer_of (ws_bytes (demo_ws_frame "hi" 1 true) ++ [129])) [] =
    Some (Ok (true, m', b', [] ++ ws_packets (map w_payload [demo_ws_frame "hi" 1 true]))) ∧ contents b' = [129].
Proof.
  apply (ws_stream_delivery (fun _ => mkRun [] 0 false) junk_sha1 demo_ws_map 7
           (mkProto PROTOCAL_WEBSOCKET_DATA CHttpTextBuffer_default)
           (buffer_of (ws_bytes (demo_ws_frame "hi" 1 true) ++ [129])) [demo_ws_frame "hi" 1 true] [129]).
  - reflexivity.
  - reflexivity.
  - split; vm_compute; intuition congruence.
  - repeat constructor; vm_compute; congruence.
  - repeat constructor; vm_compute; congruence.
  - repeat constructor; vm_compute; congruence.
  - right. exists (demo_ws_frame "hi" 1 true). eexists. split_and!;
      [repeat constructor; vm_compute; congruence|reflexivity|done].
  - reflexivity.
Defined.

(** A fragmented message loses its first fragment: the payload of the opening frame is
    appended to the cache and the cache is then emptied, so only the payloads of the
    continuation frames are delivered. *)
Theorem ws_fragments_lose_first P junk m id info b first conts last msgs :
  m !! id = Some info → protocol_ info = PROTOCAL_WEBSOCKET_DATA →
  wf b → wf_bytes (buffer_ b) → Forall ws_ok (first :: conts ++ [last]) →
  w_fin first = false → w_op first ≠ CONTINUATION_FRAME →
  Forall (λ f, w_fin f = false ∧ w_op f = CONTINUATION_FRAME) conts →
  w_fin last = true → w_op last = CONTINUATION_FRAME →
  contents b = concat (map ws_bytes (first :: conts ++ [last])) →
  ∃ m' b', parse_packet_from_recv_buffer P junk m id b msgs =
      Some (Ok (true, m', b', msgs ++ ws_packets [concat (map w_payload conts) ++ w_payload last])) ∧
    contents b' = [].
Proof.
  intros Hm Hp Hwf Hwb Hok Hf1 Hf2 Hcs Hl1 Hl2 Hc. unfold parse_packet_from_recv_buffer. rewrite Hm, Hp.
  destruct (dispose_frames b (first :: conts ++ [last]) [] info msgs) as (b' & info' & -> & ? & _);
    [done|done|done|by left|by rewrite app_nil_r|]. cbn [obind].
  assert (ws_deliver (first :: conts ++ [last]) [] = [concat (map w_payload conts) ++ w_payload last]) as ->;
    [|eauto].
  cbn [ws_deliver]. unfold after_frame at 1. rewrite Hf1, (proj2 (Z.eqb_neq (w_op first) 0)) by done.
  cbn [negb andb].
  assert (Hgen : ∀ cache, ws_deliver (conts ++ [last]) cache = [cache ++ concat (map w_payload conts) ++ w_payload last]).
  { clear -Hcs Hl1 Hl2. induction Hcs as [|f conts [E1 E2] _ IH]; intros cache; cbn [app ws_deliver map concat];
      unfold after_frame.
    - rewrite Hl1, Hl2. done.
    - rewrite E1, E2. cbn. rewrite IH. by rewrite <- !app_assoc. }
  by rewrite Hgen.
Qed.

Lemma ws_fragments_lose_first_witness :
  ∃ m' b', parse_packet_from_recv_buffer (fun _ => mkRun [] 0 false) junk_sha1 demo_ws_map 7
      (buffer_of (concat (map ws_bytes [demo_ws_frame "he" 1 false; demo_ws_frame "l" 0 false; demo_ws_frame "lo" 0 true]))) [] =
    Some (Ok (true, m', b', [] ++ ws_packets [bytes_of_string "llo"])) ∧ contents b' = [].
Proof.
  apply (ws_fragments_lose_first (fun _ => mkRun [] 0 false) junk_sha1 demo_ws_map 7
           (mkProto PROTOCAL_WEBSOCKET_DATA CHttpTextBuffer_default) _
           (demo_ws_frame "he" 1 false) [demo_ws_frame "l" 0 false] (demo_ws_frame "lo" 0 true));
    try reflexivity; repeat constructor; vm_compute; congruence.
Defined.

(** The websocket parser terminates without a memory fault on every received byte
    sequence. *)
Theorem ws_parser_total b info msgs :
  wf b → wf_bytes (buffer_ b) → ∃ r, dispose_websocket_data_message b info msgs = Some (Ok r).
Proof.
  intros Hwf Hwb. unfold dispose_websocket_data_message, get_write_size.
  rewrite <- (contents_len b Hwf). apply ws_loop_total; [done|done|].
  pose proof (zlen_nonneg (contents b)). lia.
Qed.

Lemma ws_parser_total_witness :
  ∃ r, dispose_websocket_data_message (buffer_of [1; 128; 255; 254; 253; 252; 0; 3; 1])
         (mkProto PROTOCAL_WEBSOCKET_DATA CHttpTextBuffer_default) [] = Some (Ok r).
Proof.
  apply ws_parser_total; [split; vm_compute; intuition congruence|].
  repeat constructor; vm_compute; congruence.
Defined.

(** ** The protocol of a connection only moves forward *)

Definition rank (p : ENUM_Protocol) : nat :=
  match p with PROTOCAL_HTTP_POST => 0 | PROTOCAL_WEBSOCKET_SHARK_HAND => 1 | PROTOCAL_WEBSOCKET_DATA => 2 end.

Inductive plugin_op :=
| OpConnect (id : Z)
| OpRecv (id : Z) (b : CSessionBuffer) (msgs : list CMessage_Packet)
| OpSend (id : Z) (message format_message : CMessage_Packet)
| OpDisconnect (id : Z).

Definition op_id (o : plugin_op) : Z :=
  match o with OpConnect i | OpRecv i _ _ | OpSend i _ _ | OpDisconnect i => i end.

(** One call into the plugin on the table of connections. *)
Definition plugin_step (P : list Z → parse_run) (junk : CSHA1) (m : map_http_parse) (o : plugin_op)
  : option map_http_parse :=
  match o with
  | OpConnect i => Some (connect m i)
  | OpDisconnect i => Some (disconnect m i)
  | OpSend i msg fmt => Some (snd (parse_packet_format_send_buffer m i msg fmt))
  | OpRecv i b msgs =>
      match parse_packet_from_recv_buffer P junk m i b msgs with
      | Some (Ok (_, m', _, _)) => Some m'
      | _ => None
      end
  end.

Fixpoint plugin_run (P : list Z → parse_run) (junk : CSHA1) (m : map_http_parse) (os : list plugin_op)
  : option map_http_parse :=
  match os with
  | [] => Some m
  | o :: os => match plugin_step P junk m o with Some m => plugin_run P junk m os | None => None end
  end.

Lemma ws_loop_proto fuel : ∀ b n cache info msgs ok b' info' msgs',
  protocol_ info = PROTOCAL_WEBSOCKET_DATA →
  ws_loop fuel b n cache info msgs = Some (Ok (ok, b', info', msgs')) →
  protocol_ info' = PROTOCAL_WEBSOCKET_DATA.
Proof.
  induction fuel as [|fuel IH]; intros b n cache info msgs ok b' info' msgs' Hp; cbn [ws_loop]; [done|].
  destruct (n =? 0); [naive_solver|].
  destruct (wsFrameExtractBuffer _ _ _) as [[[|] out]|]; [|naive_solver|done].
  destruct (move _ _) as [b1|]; [|done]. destruct (negb (outfin out));
    intros H; (eapply IH; [|exact H]; done).
Qed.

(** A call changes at most the record of its own connection, and never moves it back. *)
Definition forward_update (m m' : map_http_parse) (id : Z) : Prop :=
  m' = m ∨ ∃ info', m' = <[id := info']> m ∧
    ∀ info, m !! id = Some info → (rank (protocol_ info) <= rank (protocol_ info'))%nat.

Lemma recv_forward P junk m id b msgs ok m' b' msgs' :
  parse_packet_from_recv_buffer P junk m id b msgs = Some (Ok (ok, m', b', msgs')) →
  forward_update m m' id.
Proof.
  unfold parse_packet_from_recv_buffer. destruct (m !! id) as [info|] eqn:E; [|intros [= <-]; by left].
  destruct (protocol_ info) eqn:Ep.
  - intros [= H]. destruct (mem_read _ _ _); [|done]. cbn [obind] in H. destruct (move _ _); [|done].
    cbn [obind] in H. destruct (dispose_http_message _ _ _ _ _) as [[[? inf] ?]|]; [|done].
    injection H as <- <- <- <-. right. exists inf. split; [done|]. intros ? [= <-]%(eq_trans (eq_sym E)).
    rewrite Ep. simpl. lia.
  - intros [= <-]. by left.
  - destruct (dispose_websocket_data_message b info msgs) as [[[[[? ?] inf] ?]|]|] eqn:Ed; try done.
    cbn [obind]. intros [= <- <- <- <-]. right. exists inf. split; [done|].
    intros ? [= <-]%(eq_trans (eq_sym E)). by rewrite (ws_loop_proto _ _ _ _ _ _ _ _ _ _ Ep Ed), Ep.
Qed.

Lemma plugin_step_forward P junk m o m' : (∀ i, o ≠ OpDisconnect i) →
  plugin_step P junk m o = Some m' → forward_update m m' (op_id o).
Proof.
  intros Hne. destruct o as [i|i b msgs|i msg fmt|i]; cbn [plugin_step op_id].
  - intros [= <-]. unfold connect. destruct (m !! i) eqn:E; [by left|]. right. eexists. split; [done|].
    by rewrite E.
  - destruct (parse_packet_from_recv_buffer P junk m i b msgs) as [[[[[? m1] ?] ?]|]|] eqn:E; try done.
    intros [= <-]. by eapply recv_forward.
  - intros [= <-]. unfold parse_packet_format_send_buffer. destruct (m !! i) as [info|] eqn:E; [|by left].
    destruct (protocol_ info) eqn:Ep; cbn; [by left| |by left].
    right. eexists. split; [done|]. intros ? [= <-]%(eq_trans (eq_sym E)). rewrite Ep. simpl. lia.
  - by destruct (Hne i).
Qed.

Lemma plugin_step_entry P junk m o m' id info :
  plugin_step P junk m o = Some m' → o ≠ OpDisconnect id → m !! id = Some info →
  ∃ info', m' !! id = Some info' ∧ (rank (protocol_ info) <= rank (protocol_ info'))%nat ∧
    (op_id o ≠ id → info' = info).
Proof.
  intros Hs Hne Hm. destruct o as [i|i b msgs|i msg fmt|i].
  4:{ injection Hs as <-. exists info. unfold disconnect. rewrite lookup_delete_ne by congruence. done. }
  all: apply plugin_step_forward in Hs; [|done]; destruct Hs as [->|(inf & -> & Hr)]; [by exists info|];
    cbn [op_id] in *; destruct (decide (i = id)) as [->|Hi];
    [exists inf; rewrite lookup_insert_eq; split_and!; [done|auto|done]|exists info; rewrite lookup_insert_ne by done; done].
Qed.

(** Between its connect and its disconnect a connection's protocol only moves forward
    (HTTP, handshake, websocket data), whatever packets it receives or sends, and calls for
    other connections never touch its record. *)
Theorem http_protocol_monotone P junk m os m' id info :
  plugin_run P junk m os = Some m' → OpDisconnect id ∉ os → m !! id = Some info →
  ∃ info', m' !! id = Some info' ∧ (rank (protocol_ info) <= rank (protocol_ info'))%nat ∧
    (Forall (λ o, op_id o ≠ id) os → info' = info).
Proof.
  revert m info. induction os as [|o os IH]; intros m info; cbn [plugin_run].
  - intros [= <-] _ Hm. by exists info.
  - destruct (plugin_step P junk m o) as [m1|] eqn:Es; [|done]. intros Hrun Hnd Hm.
    apply not_elem_of_cons in Hnd as [Hne Hnd].
    destruct (plugin_step_entry P junk m o m1 id info Es) as (i1 & Hm1 & Hr1 & Ho1); [done|done|].
    destruct (IH m1 i1 Hrun Hnd Hm1) as (i2 & Hm2 & Hr2 & Ho2).
    exists i2. split_and!; [done|lia|]. intros Hf. inversion_clear Hf. rewrite Ho2 by done. auto.
Qed.

Lemma http_protocol_monotone_witness :
  ∃ info', plugin_run (fun _ => mkRun [] 0 false) junk_sha1 demo_ws_map
      [OpConnect 3; OpSend 7 (mkPacket [] [1] 9) (mkPacket [] [] 0); OpDisconnect 3] = Some demo_ws_map ∧
    demo_ws_map !! 7 = Some info' ∧ (2 <= rank (protocol_ info'))%nat.
Proof.
  assert (E : plugin_run (fun _ => mkRun [] 0 false) junk_sha1 demo_ws_map
      [OpConnect 3; OpSend 7 (mkPacket [] [1] 9) (mkPacket [] [] 0); OpDisconnect 3] = Some demo_ws_map)
    by (vm_compute; reflexivity).
  destruct (http_protocol_monotone (fun _ => mkRun [] 0 false) junk_sha1 demo_ws_map
    [OpConnect 3; OpSend 7 (mkPacket [] [1] 9) (mkPacket [] [] 0); OpDisconnect 3] demo_ws_map 7
    (mkProto PROTOCAL_WEBSOCKET_DATA CHttpTextBuffer_default) E) as (info' & H1 & H2 & _);
    [set_solver|reflexivity|].
  exists info'. auto.
Defined.
