(* ===== verification/HttpDelivery.v ===== *)
(** * HTTP requests through the parser plugin

    The parser (HttpParser.v), the callbacks and [try_parse] (HttpFormat.v) and the plugin (PacketHttp.v) together: what
    becomes of the bytes of a request with a body, and of one that opens a websocket. *)

From Stdlib Require Import ZArith Lia.
From S2P Require Import Prelude Define SessionBuffer Base64 Sha1 Websocket HttpFormat HttpParser HttpParserFacts HttpRequest HttpUpgrade PacketHttp.
From stdpp Require Import base numbers list gmap strings.
Local Open Scope Z_scope.

(** ** What the callbacks make of a request *)

Lemma plain_line_event h : plain_line h → Forall plain_event (header_events h).
Proof. intros [Hn _]. repeat constructor. apply Hn. Qed.

Lemma plain_lines_events hs : Forall plain_line hs → Forall plain_event (headers_events hs).
Proof. induction 1 as [|h hs Hh _ IH]; [constructor|]. apply Forall_app. split; [by apply plain_line_event|done]. Qed.

Lemma body_events_plain cl b : Forall plain_event (body_events cl b).
Proof. unfold body_events. destruct (_ =? 0); [constructor|]. destruct (_ =? _); repeat constructor. Qed.

Lemma request_events_plain u hs1 cl hs2 b : Forall plain_line hs1 → Forall plain_line hs2 → Forall plain_event (request_events u hs1 cl hs2 b).
Proof.
  intros H1 H2. unfold request_events. repeat apply Forall_app_2; try (by apply plain_lines_events); try apply body_events_plain; by repeat constructor.
Qed.

Lemma body_text_app es1 es2 : body_text (es1 ++ es2) = body_text es1 ++ body_text es2.
Proof. unfold body_text. by rewrite map_app, concat_app. Qed.

Lemma headers_body hs : body_text (headers_events hs) = [].
Proof. induction hs as [|h hs IH]; [done|]. change (headers_events (h :: hs)) with (header_events h ++ headers_events hs). by rewrite body_text_app, IH. Qed.

Lemma body_events_text cl b : body_text (body_events cl b) = b.
Proof.
  unfold body_events. destruct (Z.eqb_spec (zlen b) 0) as [E|_]; [by apply zlen_zero in E as ->|]. destruct (_ =? _); cbn; by rewrite ?app_nil_r.
Qed.

Lemma request_events_body u hs1 cl hs2 b : body_text (request_events u hs1 cl hs2 b) = b.
Proof. unfold request_events. rewrite !body_text_app, !headers_body, body_events_text. done. Qed.

(** Headers that do not frame the message leave the announced length alone. *)
Lemma callbacks_headers hs : Forall plain_line hs → ∀ t, is_post_length_ t = false →
  content_length_ (fold_left callback (headers_events hs) t) = content_length_ t ∧ is_post_length_ (fold_left callback (headers_events hs) t) = false.
Proof.
  induction 1 as [|h hs [Hn _] _ IH]; intros t Ht; [done|]. change (headers_events (h :: hs)) with (header_events h ++ headers_events hs).
  rewrite fold_left_app. destruct (IH (fold_left callback (header_events h) t)) as [-> ->]; [done|]. split; [|done].
  cbn. rewrite Ht, orb_false_r, bool_decide_eq_false_2 by apply Hn. done.
Qed.

Lemma callbacks_body cl b t : content_length_ (fold_left callback (body_events cl b) t) = content_length_ t ∧
  is_post_length_ (fold_left callback (body_events cl b) t) = is_post_length_ t.
Proof. unfold body_events. destruct (_ =? 0); [done|]. by destruct (_ =? _). Qed.

Lemma request_announced u hs1 cl hs2 b : Forall plain_line hs1 → Forall plain_line hs2 → 0 <= cl < 2 ^ 31 →
  announced (request_events u hs1 cl hs2 b) = cl ∧
  is_post_length_ (fold_left callback (request_events u hs1 cl hs2 b) CHttpTextBuffer_default) = false.
Proof.
  intros H1 H2 Hcl. unfold announced, request_events. rewrite !fold_left_app.
  destruct (callbacks_headers hs1 H1 (fold_left callback (line_events u) CHttpTextBuffer_default) eq_refl) as [_ E1].
  set (t1 := fold_left callback (headers_events hs1) _) in *.
  assert (E2 : content_length_ (fold_left callback (header_events (length_name, decimal cl)) t1) = cl ∧
    is_post_length_ (fold_left callback (header_events (length_name, decimal cl)) t1) = false).
  { split; [|done]. cbn -[atoi]. rewrite <- (app_nil_r (decimal cl)). by apply atoi_decimal; [lia|]. }
  set (t2 := fold_left callback (header_events (length_name, decimal cl)) t1) in *. destruct E2 as [E2 E2'].
  destruct (callbacks_headers hs2 H2 t2 E2') as [E3 E3']. set (t3 := fold_left callback (headers_events hs2) t2) in *.
  destruct (callbacks_body cl b (fold_left callback [ev_headers_complete] t3)) as [-> ->]. split; [|done]. by rewrite <- E2, <- E3.
Qed.

(** ** Requests with a body *)

Record post := mkPost {
  p_method : http_method;
  p_path : list Z;
  p_before : list (list Z * list Z);
  p_after : list (list Z * list Z);
  p_body : list Z;
}.
Definition post_head (q : post) : list Z := body_head (p_method q) (p_path q) (p_before q) (zlen (p_body q)) (p_after q).
Definition post_text (q : post) : list Z := post_head q ++ p_body q.

Record post_ok (q : post) : Prop := {
  o_method : p_method q ≠ HTTP_CONNECT;
  o_path : Forall visible (p_path q);
  o_before : Forall plain_line (p_before q);
  o_after : Forall plain_line (p_after q);
  o_body : 0 < zlen (p_body q) < 2 ^ 30;
  o_head : zlen (post_head q) <= HTTP_MAX_HEADER_SIZE;
}.

Definition post_events (q : post) (b : list Z) : list http_event := request_events (p_path q) (p_before q) (zlen (p_body q)) (p_after q) b.

(** The parser runs over the head and a part of the body. *)
Lemma post_run q b : post_ok q → zlen b <= zlen (p_body q) → plain_run run_request (post_head q ++ b) (post_events q b).
Proof.
  intros [Hm Hu H1 H2 Hb Hh] Hl. split; [|by apply request_events_plain]. apply body_request_parsed; try done. lia.
Qed.

(** A connection between two requests. *)
Record http_ready (info : CProtocalInfo) : Prop := {
  h_protocol : protocol_ info = PROTOCAL_HTTP_POST;
  h_plain : is_websocket (http_format_ info) = false;
  h_fresh : http_format_ info = CHttpTextBuffer_default ∨ is_completed_ (http_format_ info) = true;
}.

(** [try_parse] starts such a connection anew. *)
Lemma ready_fresh t text : is_websocket t = false → t = CHttpTextBuffer_default ∨ is_completed_ t = true →
  ∃ t0, try_parse run_request t text = try_parse run_request t0 text ∧ is_completed_ t0 = false ∧ is_upgrade t0 = false ∧
    is_websocket t0 = false ∧ is_post_length_ t0 = false ∧ http_request_text_ t0 = [] ∧ http_post_text_ t0 = [] ∧ content_length_ t0 = 0.
Proof.
  intros Hw [->|Ht]; [by exists CHttpTextBuffer_default|]. exists (clear t). unfold try_parse at 1. by rewrite Ht.
Qed.

Lemma try_post t q b : post_ok q → zlen b <= zlen (p_body q) → is_websocket t = false → t = CHttpTextBuffer_default ∨ is_completed_ t = true →
  ∃ t', try_parse run_request t (post_head q ++ b) = (if zlen b <? zlen (p_body q) then 1 else 0, t') ∧ http_post_text_ t' = b ∧
    is_websocket t' = false ∧ http_request_text_ t' = post_head q ++ b ∧ is_post_length_ t' = false ∧
    (if zlen b <? zlen (p_body q) then is_completed_ t' = false ∧ is_upgrade t' = false else is_completed_ t' = true).
Proof.
  intros Hq Hb Hw Ht. destruct (ready_fresh t (post_head q ++ b) Hw Ht) as (t0 & -> & Hc & Hu & Hw0 & Hp & Hreq & Hpost & _).
  pose proof Hq as [_ _ H1 H2 Hl _]. destruct (request_announced (p_path q) (p_before q) (zlen (p_body q)) (p_after q) b H1 H2 ltac:(lia)) as [Ea Ep].
  fold (post_events q b) in Ea, Ep.
  pose proof (request_events_body (p_path q) (p_before q) (zlen (p_body q)) (p_after q) b : body_text (post_events q b) = b) as Eb.
  pose proof (try_parse_plain run_request t0 (post_head q ++ b) (post_events q b) Hc Hu Hw0 Hp) as H. rewrite Hreq, Hpost, Ea, Eb in H. cbn [app] in H.
  specialize (H ltac:(lia) (post_run q b Hq Hb) ltac:(lia)). cbv zeta in H. destruct H as (E1 & E2 & E3 & E4 & E5).
  exists (try_parse run_request t0 (post_head q ++ b)).2.
  assert (is_websocket (try_parse run_request t0 (post_head q ++ b)).2 = false) by (unfold is_websocket in *; by rewrite E3).
  destruct (try_parse run_request t0 (post_head q ++ b)) as [ret t']. cbn [fst snd] in *. rewrite Ep in E4.
  destruct (zlen b <? zlen (p_body q)); [destruct E5 as (-> & ? & ?)|destruct E5 as (-> & ?)]; done.
Qed.

(** The second part of a body: the parser runs over the whole text again, and its callback adds the whole body to what
    the first run left. *)
Lemma try_rest t q b1 b2 : post_ok q → p_body q = b1 ++ b2 → is_completed_ t = false → is_upgrade t = false → is_websocket t = false →
  is_post_length_ t = false → http_request_text_ t = post_head q ++ b1 → http_post_text_ t = b1 →
  ∃ t', try_parse run_request t b2 = (0, t') ∧ http_post_text_ t' = b1 ++ p_body q ∧ is_websocket t' = false ∧ is_completed_ t' = true.
Proof.
  intros Hq Eb Hc Hu Hw Hp Hreq Hpost. pose proof Hq as [_ _ H1 H2 Hl _].
  assert (Hlen : zlen b1 <= zlen (p_body q)) by (rewrite Eb, zlen_app; pose proof (zlen_nonneg b2); lia).
  destruct (request_announced (p_path q) (p_before q) (zlen (p_body q)) (p_after q) (p_body q) H1 H2 ltac:(lia)) as [Ea Ep]. fold (post_events q (p_body q)) in Ea, Ep.
  pose proof (request_events_body (p_path q) (p_before q) (zlen (p_body q)) (p_after q) (p_body q) : body_text (post_events q (p_body q)) = p_body q) as Et.
  pose proof (try_parse_plain run_request t b2 (post_events q (p_body q)) Hc Hu Hw Hp) as H. rewrite Hreq, Hpost, Ea, Et in H.
  assert (Hrun : plain_run run_request ((post_head q ++ b1) ++ b2) (post_events q (p_body q))) by (rewrite <- app_assoc, <- Eb; by apply post_run).
  specialize (H ltac:(lia) Hrun). rewrite zlen_app in H. specialize (H ltac:(lia)). cbv zeta in H. destruct H as (E1 & E2 & E3 & E4 & E5).
  pose proof (zlen_nonneg b1). rewrite (proj2 (Z.ltb_ge _ _)) in E5 by lia. destruct E5 as [E5 E6].
  exists (try_parse run_request t b2).2. destruct (try_parse run_request t b2) as [ret t']. cbn [fst snd] in *. subst ret.
  split_and!; try done. unfold is_websocket in *. by rewrite E3.
Qed.

Section Plugin.
Context (junk : CSHA1).
Notation recv := (parse_packet_from_recv_buffer run_request junk).

(** One call of the parser plugin on a connection that carries HTTP. *)
Lemma recv_http m id info b msgs ret t' : m !! id = Some info → protocol_ info = PROTOCAL_HTTP_POST → wf b →
  try_parse run_request (http_format_ info) (contents b) = (ret, t') → is_websocket t' = false → ret = 0 ∨ ret = 1 →
  ∃ b', wf b' ∧ contents b' = [] ∧
    recv m id b msgs = Some (Ok (true, <[id := mkProto PROTOCAL_HTTP_POST t']> m, b',
      if ret =? 0 then msgs ++ [mkPacket [] (http_post_text_ t') http_post_command] else msgs)).
Proof.
  intros Hm Hp Hwf Ht Hw Hret. pose proof Hwf as [Hbl Hws Hmx]. pose proof (contents_len b Hwf) as Hcl.
  destruct (move_contents b (get_write_size b) Hwf) as (b' & Em & Hwf' & Hc' & _); [unfold get_write_size; lia|].
  exists b'. split; [done|]. split; [rewrite Hc'; apply zdrop_all; unfold get_write_size; lia|].
  unfold parse_packet_from_recv_buffer. rewrite Hm, Hp.
  assert (mem_read (read b) 0 (get_write_size b) = Ok (contents b)) as ->.
  { rewrite mem_read_ok; [by rewrite zdrop_0|lia|unfold get_write_size; lia|unfold read, get_write_size; lia]. }
  cbn [obind]. rewrite Em. cbn [obind]. unfold dispose_http_message. rewrite Ht, Hp.
  destruct Hret as [->| ->]; cbn [Z.eqb]; [rewrite Hw|]; done.
Qed.

(** C23: a request with a body that arrives whole in one read is delivered once, with exactly its body; its bytes leave the receive
    buffer, and the connection is ready for the next request.  Conditions: the connection has carried no request yet or its last one was completed, and it
    is no websocket ([http_ready]); the request ([post_ok]) has any method but CONNECT, a path of visible characters, one
    Content-Length line with the length of the body in decimal, a body of 1 to 2^30 - 1 bytes, a head of at most HTTP_MAX_HEADER_SIZE bytes, and otherwise
    lines with a name of token characters and a value that is not empty, in any number and order, except that none is named Content-Length or
    Upgrade or begins with Transfer-Encoding.  A body in two reads is delivered with bytes doubled
    ([http_post_split_duplicated]); a request that asks for an upgrade to another protocol is delivered but never completed, and the request after it is lost
    ([http_upgrade_loses_next]). *)
Theorem http_post_delivered m id info b q msgs : m !! id = Some info → http_ready info → post_ok q → wf b → contents b = post_text q →
  ∃ info' b', recv m id b msgs = Some (Ok (true, <[id := info']> m, b', msgs ++ [mkPacket [] (p_body q) http_post_command])) ∧
    http_ready info' ∧ wf b' ∧ contents b' = [].
Proof.
  intros Hm [Hp Hw Hf] Hq Hwf Hc.
  destruct (try_post (http_format_ info) q (p_body q) Hq ltac:(lia) Hw Hf) as (t' & Ht & Hpost & Hw' & _ & _ & Hcomp).
  fold (post_text q) in Ht. rewrite <- Hc, Z.ltb_irrefl in *.
  destruct (recv_http m id info b msgs 0 t' Hm Hp Hwf Ht Hw' ltac:(by left)) as (b' & Hwf' & Hc' & E).
  exists (mkProto PROTOCAL_HTTP_POST t'), b'. rewrite E. cbn [Z.eqb]. rewrite Hpost. split; [done|]. split; [|done]. split; [done|done|by right].
Qed.

(** C39: a request whose body arrives in two reads is not delivered as it was sent: nothing happens at the first read, and
    at the second the message is the first part followed by the whole body. *)
Theorem http_post_split_duplicated m id info b c q b1 b2 msgs : m !! id = Some info → http_ready info → post_ok q →
  p_body q = b1 ++ b2 → b2 ≠ [] → wf b → contents b = post_head q ++ b1 → wf c → contents c = b2 →
  ∃ m1 b' m2 c', recv m id b msgs = Some (Ok (true, m1, b', msgs)) ∧
    recv m1 id c msgs = Some (Ok (true, m2, c', msgs ++ [mkPacket [] (b1 ++ p_body q) http_post_command])).
Proof.
  intros Hm [Hp Hw Hf] Hq Eb Hne Hwf Hc Hwfc Hcc.
  assert (Hlt : zlen b1 < zlen (p_body q)).
  { rewrite Eb, zlen_app. pose proof (zlen_nonneg b2). destruct (Z.eq_dec (zlen b2) 0) as [E%zlen_zero|]; [done|lia]. }
  destruct (try_post (http_format_ info) q b1 Hq ltac:(lia) Hw Hf) as (t' & Ht & Hpost & Hw' & Hreq & Hpl & Hcomp).
  rewrite <- Hc, (proj2 (Z.ltb_lt _ _) Hlt) in *. destruct Hcomp as [Hcomp Hup].
  destruct (recv_http m id info b msgs 1 t' Hm Hp Hwf Ht Hw' ltac:(by right)) as (b' & _ & _ & E1).
  destruct (try_rest t' q b1 b2 Hq Eb Hcomp Hup Hw' Hpl ltac:(by rewrite Hreq) Hpost) as (t2 & Ht2 & Hpost2 & Hw2 & _).
  destruct (recv_http (<[id := mkProto PROTOCAL_HTTP_POST t']> m) id (mkProto PROTOCAL_HTTP_POST t') c msgs 0 t2) as (c' & _ & _ & E2);
    [by apply lookup_insert_eq|done|done|by rewrite Hcc|done|by left|].
  eexists _, b', _, c'. split; [exact E1|]. rewrite E2. cbn [Z.eqb]. by rewrite Hpost2.
Qed.

(** A read that ends behind the first line of a request counts as a complete request without a body: an empty message
    is delivered before any header has arrived, and the rest of the request begins a new one. *)
Theorem http_head_cut_short m id info b meth u msgs : m !! id = Some info → http_ready info → wf b → meth ≠ HTTP_CONNECT → Forall visible u →
  zlen (request_line meth u) <= HTTP_MAX_HEADER_SIZE → contents b = request_line meth u →
  ∃ info' b', recv m id b msgs = Some (Ok (true, <[id := info']> m, b', msgs ++ [mkPacket [] [] http_post_command])) ∧ http_ready info'.
Proof.
  intros Hm [Hp Hw Hf] Hwf Hmeth Hu Hmax Hc. destruct (ready_fresh (http_format_ info) (contents b) Hw Hf) as (t0 & Et & Hcomp & Hup & Hw0 & Hpl & Hreq & Hpost & Hcl).
  rewrite Hc in Et. unfold try_parse in Et at 2. rewrite Hcomp, Hreq in Et. cbn [app set_request http_request_text_] in Et.
  rewrite line_parsed in Et by done. cbn [r_events r_upgrade r_nparsed] in Et. set (t1 := fold_left callback _ _) in Et.
  assert (Hw1 : is_websocket t1 = false) by done. change (http_request_text_ t1) with (request_line meth u) in Et.
  change (content_length_ t1) with (content_length_ t0) in Et. rewrite Z.eqb_refl, Hw1, Hcl in Et. cbn [negb Z.ltb Z.compare andb] in Et. rewrite <- Hc in Et.
  destruct (recv_http m id info b msgs 0 (set_completed t1) Hm Hp Hwf Et Hw1 ltac:(by left)) as (b' & _ & _ & E).
  exists (mkProto PROTOCAL_HTTP_POST (set_completed t1)), b'. rewrite E. cbn [Z.eqb]. split; [|by split; [..|right]].
  change (http_post_text_ (set_completed t1)) with (http_post_text_ t0). by rewrite Hpost.
Qed.
End Plugin.

(** ** Opening a websocket *)

Definition key_name : list Z := bytes_of_string "sec-websocket-key".
Definition line_key (l : head_line) : list Z :=
  match l with Plain h => if bool_decide (lower h.1 = key_name) then h.2 else [] | _ => [] end.
(** The key a client sends: in one of the lines, normally. *)
Definition client_key (ls : list head_line) : list Z := concat (map line_key ls).

Lemma callbacks_line l t : line_ok l → is_upgrade t = false → is_websocket_key_ t = false →
  let t' := fold_left callback (header_events (line_pair l)) t in
  is_upgrade t' = false ∧ is_websocket_key_ t' = false ∧
  upgrade_ t' = match l with Upgrade_line => lower (upgrade_ t ++ bytes_of_string "websocket") | _ => upgrade_ t end ∧
  websocket_key_ t' = websocket_key_ t ++ line_key l.
Proof.
  intros Hl Hu Hk. split; [done|]. split; [done|]. destruct l as [h| |]; cbn -[bytes_of_string lower app]; rewrite ?Hu, ?Hk, ?orb_false_r.
  - destruct Hl as [Hn _]. rewrite (bool_decide_eq_false_2 (lower h.1 = bytes_of_string "upgrade")) by apply Hn. split; [done|].
    fold key_name. destruct (bool_decide (lower h.1 = key_name)); [done|]. by rewrite app_nil_r.
  - by rewrite app_nil_r.
  - by rewrite app_nil_r.
Qed.

Lemma callbacks_lines ls : ∀ t, Forall line_ok ls → Upgrade_line ∉ ls → is_upgrade t = false → is_websocket_key_ t = false →
  let t' := fold_left callback (lines_events ls) t in
  is_upgrade t' = false ∧ is_websocket_key_ t' = false ∧ upgrade_ t' = upgrade_ t ∧ websocket_key_ t' = websocket_key_ t ++ client_key ls.
Proof.
  induction ls as [|l ls IH]; intros t Hls Hnu Hu Hk; [by cbn; rewrite app_nil_r|]. inversion_clear Hls as [|? ? Hl Hls'].
  apply not_elem_of_cons in Hnu as [Hl1 Hnu].
  change (lines_events (l :: ls)) with (header_events (line_pair l) ++ lines_events ls). change (client_key (l :: ls)) with (line_key l ++ client_key ls).
  rewrite fold_left_app. destruct (callbacks_line l t Hl Hu Hk) as (H1 & H2 & H3 & H4).
  destruct (IH (fold_left callback (header_events (line_pair l)) t) Hls' Hnu H1 H2) as (G1 & G2 & G3 & G4). cbv zeta.
  rewrite G3, G4, H3, H4, app_assoc. split_and!; try done. by destruct l.
Qed.

(** What the callbacks leave of a request that opens a websocket. *)
Lemma callbacks_upgrade u l1 l2 t : Forall line_ok l1 → Forall line_ok l2 → Upgrade_line ∉ l1 → Upgrade_line ∉ l2 →
  is_upgrade t = false → is_websocket_key_ t = false → upgrade_ t = [] → websocket_key_ t = [] →
  let t' := fold_left callback (upgrade_events u (l1 ++ Upgrade_line :: l2)) t in
  is_websocket t' = true ∧ websocket_key_ t' = client_key (l1 ++ Upgrade_line :: l2).
Proof.
  intros Ho1 Ho2 Hn1 Hn2 Hu Hk Hup Hkey. unfold upgrade_events, lines_events, client_key. rewrite !map_app, !concat_app, !fold_left_app. cbn [map concat]. rewrite fold_left_app.
  set (t0 := fold_left callback (line_events u) t). fold (lines_events l1) (lines_events l2) (client_key l1) (client_key l2).
  destruct (callbacks_lines l1 t0 Ho1 Hn1 Hu Hk) as (A1 & A2 & A3 & A4). set (t1 := fold_left callback (lines_events l1) t0) in *.
  destruct (callbacks_line Upgrade_line t1 I A1 A2) as (B1 & B2 & B3 & B4). set (t2 := fold_left callback (header_events (line_pair Upgrade_line)) t1) in *.
  destruct (callbacks_lines l2 t2 Ho2 Hn2 B1 B2) as (C1 & C2 & C3 & C4). set (t3 := fold_left callback (lines_events l2) t2) in *.
  change (upgrade_ t0) with (upgrade_ t) in A3. change (websocket_key_ t0) with (websocket_key_ t) in A4. cbn [line_key] in B4. rewrite app_nil_r in B4.
  split; [unfold is_websocket; change (upgrade_ (fold_left callback _ t3)) with (upgrade_ t3)|change (websocket_key_ (fold_left callback _ t3)) with (websocket_key_ t3)].
  - by rewrite C3, B3, A3, Hup.
  - by rewrite C4, B4, A4, Hkey.
Qed.

(** C38: a request that asks for a websocket is answered by a message with
    the base64 text of the SHA-1 hash of its key and the protocol's GUID; once that answer is formatted the
    connection carries websocket data.  Conditions: it is the first request of its connection and arrives in one read (one cut behind
    its Upgrade line is answered at once, as if it had no key, [websocket_request_split]); its method is not CONNECT and its path has visible characters; the line
    "Upgrade: websocket" is there once and "Connection: Upgrade" at least once, in this spelling; the other lines have a name of token characters and a value that is not
    empty, in any number and order, and none is named Content-Length or Upgrade or begins with Transfer-Encoding; the request has at most HTTP_MAX_HEADER_SIZE
    bytes and the key less than 2^31. *)
Theorem websocket_opened junk m id b meth u l1 l2 msgs : m !! id = Some (mkProto PROTOCAL_HTTP_POST CHttpTextBuffer_default) →
  length (m_buffer junk) = 64%nat → meth ≠ HTTP_CONNECT → Forall visible u → Forall line_ok (l1 ++ Upgrade_line :: l2) →
  Upgrade_line ∉ l1 → Upgrade_line ∉ l2 → Connection_line ∈ l1 ++ Upgrade_line :: l2 →
  let ls := l1 ++ Upgrade_line :: l2 in
  let answer := mkPacket [] (base64_encode (sha1 (client_key ls ++ ws_guid))) http_websocket_shark_hand in
  zlen (upgrade_request meth u ls) <= HTTP_MAX_HEADER_SIZE → wf_bytes (client_key ls) → zlen (client_key ls) < 2 ^ 31 →
  wf b → contents b = upgrade_request meth u ls →
  ∃ m' b' m'', parse_packet_from_recv_buffer run_request junk m id b msgs = Some (Ok (true, m', b', msgs ++ [answer])) ∧ contents b' = [] ∧
    parse_packet_format_send_buffer m' id answer (mkPacket [] [] 0) =
      (Some (mkPacket [] (get_response_websocket_text (pbuffer_ answer)) http_websocket_shark_hand), m'') ∧
    ∃ info, m'' !! id = Some info ∧ protocol_ info = PROTOCAL_WEBSOCKET_DATA.
Proof.
  intros Hm Hj Hmeth Hu Hok Hn1 Hn2 Hco ls answer Hmax Hwk Hlk Hwf Hc. pose proof (contents_len b Hwf) as Hcl. pose proof Hwf as [Hbl Hws Hmx].
  apply Forall_app in Hok as [Ho1 Ho2]. inversion_clear Ho2 as [|? ? _ Ho2'].
  assert (Hrun : run_request (contents b) = mkRun (upgrade_events u ls) (zlen (contents b)) true).
  { rewrite Hc. apply upgrade_request_parsed; try done; [by apply Forall_app; split; [|by constructor]|apply elem_of_app; right; apply elem_of_cons; by left]. }
  destruct (callbacks_upgrade u l1 l2 (set_request CHttpTextBuffer_default (contents b)) Ho1 Ho2' Hn1 Hn2) as [Hw Hk]; [done..|]. fold ls in Hw, Hk.
  set (t := fold_left callback (upgrade_events u ls) (set_request CHttpTextBuffer_default (contents b))) in *.
  assert (Ht : try_parse run_request CHttpTextBuffer_default (contents b) = (0, t)).
  { unfold try_parse. cbn [is_completed_ CHttpTextBuffer_default http_request_text_ app set_request]. by rewrite Hrun. }
  destruct (move_contents b (get_write_size b) Hwf) as (b' & Em & Hwf' & Hc' & _); [unfold get_write_size; lia|].
  assert (Hread : mem_read (read b) 0 (get_write_size b) = Ok (contents b)).
  { rewrite mem_read_ok; [by rewrite zdrop_0|lia|unfold get_write_size; lia|unfold read, get_write_size; lia]. }
  eexists (<[id := mkProto PROTOCAL_WEBSOCKET_SHARK_HAND t]> m), b', _. split; [|split; [|split]].
  - unfold parse_packet_from_recv_buffer. rewrite Hm. cbn [protocol_]. rewrite Hread. cbn [obind]. rewrite Em. cbn [obind]. unfold dispose_http_message. cbn [http_format_].
    rewrite Ht. cbn [Z.eqb]. rewrite Hw. cbn [negb]. unfold get_websocket_client_key. rewrite Hk, ws_handshake_correct by (done || lia). done.
  - rewrite Hc'. apply zdrop_all. unfold get_write_size. lia.
  - unfold parse_packet_format_send_buffer. rewrite lookup_insert_eq. reflexivity.
  - eexists. rewrite lookup_insert_eq. done.
Qed.

(** ** Witnesses *)

Definition demo_map : map_http_parse := connect ∅ 7.
Definition demo_post : post :=
  mkPost HTTP_POST (bytes_of_string "api/login?user=1") [(bytes_of_string "Host", bytes_of_string "10.0.0.1:10005"); (bytes_of_string "Connection", bytes_of_string "keep-alive")]
    [(bytes_of_string "Content-Type", bytes_of_string "application/json")] (bytes_of_string "{ id: 7 }").

Lemma demo_post_ok : post_ok demo_post.
Proof.
  split; try done.
  - by apply visible_sound.
  - by apply plain_lines_sound.
  - by apply plain_lines_sound.
Qed.

Lemma demo_ready : http_ready (mkProto PROTOCAL_HTTP_POST CHttpTextBuffer_default).
Proof. split; [done|done|by left]. Qed.

Lemma buffer_of_wf bytes : zlen bytes < 2 ^ 63 → wf (buffer_of bytes) ∧ contents (buffer_of bytes) = bytes.
Proof. intros H. pose proof (zlen_nonneg bytes). split; [by split; cbn; lia|]. apply ztake_all. cbn. lia. Qed.

Lemma http_post_delivered_witness :
  ∃ info' b', parse_packet_from_recv_buffer run_request junk_sha1 demo_map 7 (buffer_of (post_text demo_post)) [] =
      Some (Ok (true, <[7 := info']> demo_map, b', [] ++ [mkPacket [] (p_body demo_post) http_post_command])) ∧
    http_ready info' ∧ wf b' ∧ contents b' = [].
Proof.
  apply (http_post_delivered junk_sha1 demo_map 7 (mkProto PROTOCAL_HTTP_POST CHttpTextBuffer_default));
    [reflexivity|apply demo_ready|apply demo_post_ok|by apply buffer_of_wf|by apply buffer_of_wf].
Defined.

Lemma http_post_split_duplicated_witness :
  ∃ m1 b' m2 c', parse_packet_from_recv_buffer run_request junk_sha1 demo_map 7 (buffer_of (post_head demo_post ++ bytes_of_string "{ id")) [] = Some (Ok (true, m1, b', [])) ∧
    parse_packet_from_recv_buffer run_request junk_sha1 m1 7 (buffer_of (bytes_of_string ": 7 }")) [] =
      Some (Ok (true, m2, c', [] ++ [mkPacket [] (bytes_of_string "{ id" ++ p_body demo_post) http_post_command])).
Proof.
  apply (http_post_split_duplicated junk_sha1 demo_map 7 (mkProto PROTOCAL_HTTP_POST CHttpTextBuffer_default)
    (buffer_of (post_head demo_post ++ bytes_of_string "{ id")) (buffer_of (bytes_of_string ": 7 }")) demo_post (bytes_of_string "{ id") (bytes_of_string ": 7 }"));
    [reflexivity|apply demo_ready|apply demo_post_ok|reflexivity|done|by apply buffer_of_wf|by apply buffer_of_wf|by apply buffer_of_wf|by apply buffer_of_wf].
Defined.

(** A POST that asks for an upgrade to another protocol, and a POST after it. *)
Definition upgrade_post : list Z :=
  body_head HTTP_POST (bytes_of_string "api") [(bytes_of_string "Connection", bytes_of_string "Upgrade"); (bytes_of_string "Upgrade", bytes_of_string "h2c")] 2 [] ++ bytes_of_string "ab".
Definition next_post : list Z := body_head HTTP_POST (bytes_of_string "api") [] 2 [] ++ bytes_of_string "cd".

(** What a new connection delivers for a sequence of reads. *)
Fixpoint delivered (m : map_http_parse) (reads : list (list Z)) : option (list (list Z * Z)) :=
  match reads with
  | [] => Some []
  | text :: reads =>
      match parse_packet_from_recv_buffer run_request junk_sha1 m 7 (buffer_of text) [] with
      | Some (Ok (true, m, _, l)) => l2 ← delivered m reads; Some (map (λ p, (pbuffer_ p, command_id_ p)) l ++ l2)
      | _ => None
      end
  end.

(** [try_parse] returns at once for a request that asks for an upgrade, without completing it: it is delivered, but
    its text stays, and instead of the body of the next request its own is delivered, twice. *)
Theorem http_upgrade_loses_next :
  delivered demo_map [upgrade_post; next_post] = Some [(bytes_of_string "ab", http_post_command); (bytes_of_string "abab", http_post_command)].
Proof. vm_compute. reflexivity. Qed.

Lemma http_head_cut_short_witness :
  ∃ info' b', parse_packet_from_recv_buffer run_request junk_sha1 demo_map 7 (buffer_of (request_line HTTP_POST (bytes_of_string "api"))) [] =
    Some (Ok (true, <[7 := info']> demo_map, b', [] ++ [mkPacket [] [] http_post_command])) ∧ http_ready info'.
Proof.
  apply (http_head_cut_short junk_sha1 demo_map 7 (mkProto PROTOCAL_HTTP_POST CHttpTextBuffer_default)
    (buffer_of (request_line HTTP_POST (bytes_of_string "api"))) HTTP_POST (bytes_of_string "api"));
    [reflexivity|apply demo_ready|by apply buffer_of_wf|done|by apply visible_sound|vm_compute; congruence|by apply buffer_of_wf].
Defined.

Definition demo_lines : list head_line * list head_line :=
  ([Plain (bytes_of_string "Host", bytes_of_string "server.example.com")],
   [Connection_line; Plain (bytes_of_string "Sec-WebSocket-Key", bytes_of_string "dGhlIHNhbXBsZSBub25jZQ=="); Plain (bytes_of_string "Sec-WebSocket-Version", bytes_of_string "13")]).

(** The request cut behind the Upgrade line: the answer is that of an empty key, and the rest gets none. *)
Theorem websocket_request_split : let text := upgrade_request HTTP_GET (bytes_of_string "chat") (demo_lines.1 ++ Upgrade_line :: demo_lines.2) in
  delivered demo_map [ztake 80 text; zdrop 80 text] = Some [(base64_encode (sha1 ws_guid), http_websocket_shark_hand)].
Proof. vm_compute. reflexivity. Qed.

(** The example of RFC 6455. *)
Lemma websocket_opened_witness :
  let ls := demo_lines.1 ++ Upgrade_line :: demo_lines.2 in
  let answer := mkPacket [] (base64_encode (sha1 (client_key ls ++ ws_guid))) http_websocket_shark_hand in
  pbuffer_ answer = bytes_of_string "s3pPLMBiTxaQ9kYGzzhZRbK+xOo=" ∧
  ∃ m' b' m'', parse_packet_from_recv_buffer run_request junk_sha1 demo_map 7 (buffer_of (upgrade_request HTTP_GET (bytes_of_string "chat") ls)) [] = Some (Ok (true, m', b', [] ++ [answer])) ∧ contents b' = [] ∧
    parse_packet_format_send_buffer m' 7 answer (mkPacket [] [] 0) =
      (Some (mkPacket [] (get_response_websocket_text (pbuffer_ answer)) http_websocket_shark_hand), m'') ∧
    ∃ info, m'' !! 7 = Some info ∧ protocol_ info = PROTOCAL_WEBSOCKET_DATA.
Proof.
  split; [vm_compute; reflexivity|].
  apply (websocket_opened junk_sha1 demo_map 7 (buffer_of (upgrade_request HTTP_GET (bytes_of_string "chat") (demo_lines.1 ++ Upgrade_line :: demo_lines.2))) HTTP_GET (bytes_of_string "chat") demo_lines.1 demo_lines.2);
    [reflexivity|reflexivity|done|by apply visible_sound| | | | |vm_compute; congruence| |vm_compute; reflexivity|by apply buffer_of_wf|by apply buffer_of_wf].
  - repeat (apply Forall_cons; split); try exact I; try (apply Forall_nil; exact I); by apply plain_lineb_sound.
  - apply not_elem_of_cons. split; [done|apply not_elem_of_nil].
  - repeat (apply not_elem_of_cons; split; [done|]). apply not_elem_of_nil.
  - apply elem_of_app. right. apply elem_of_cons. right. apply elem_of_cons. by left.
  - repeat constructor; vm_compute; congruence.
Defined.
