(* ===== verification/SessionTable.v ===== *)
(** * Sessions and session tables

    The interface every IO session offers to the message layer (src/PSS_ASIO/Common/ISession.h), the
    table of a work thread's sessions (src/PSS_ASIO/Message/SessionInterface.{h,cpp}) and the
    table of session addresses (src/PSS_ASIO/Message/SessionAddrList.{h,cpp}). *)

From Stdlib Require Import ZArith Lia.
From S2P Require Import Prelude Define HttpFormat.
From stdpp Require Import base numbers list gmap strings.
Local Open Scope Z_scope.

(** ** The session interface

    A [shared_ptr<ISession>] is a value of a type [session]; the class gives the answers of
    its query methods at the time of the call, and the calls that change the session are
    recorded as effects, in order. *)
Class ISession (session : Type) := {
  get_remote_ip : session → Z → ClientIPInfo;
  get_io_type : session → EM_CONNECT_IO_TYPE;
  get_mark_id : session → Z → Z;
  get_recv_time : session → Z → Z;                    (* nanoseconds *)
  format_send_packet : session → Z → CMessage_Packet → CMessage_Packet → option CMessage_Packet;
  is_need_send_format : session → bool;
  is_connect : session → bool;
  get_connect_id : session → Z;
}.

Inductive session_effect (session : Type) :=
| set_io_bridge_connect_id (s : session) (from_io_connect_id to_io_connect_id : Z)
| set_write_buffer (s : session) (connect_id : Z) (data : list Z)
| do_write (s : session) (connect_id : Z)
| do_write_immediately (s : session) (connect_id : Z) (data : list Z)
| close (s : session) (connect_id : Z)
| add_send_finish_size (s : session) (connect_id : Z) (send_length : Z).
Arguments set_io_bridge_connect_id {session}.
Arguments set_write_buffer {session}.
Arguments do_write {session}.
Arguments do_write_immediately {session}.
Arguments close {session}.
Arguments add_send_finish_size {session}.

(** ** CSessionInterface *)

Section SessionInterface.

Context {session : Type} `{!ISession session}.

Record CSessionIOInfo := mkIOInfo {
  local_info_ : ClientIPInfo;
  romote_info_ : ClientIPInfo;
  session_ : session;
}.

Record CSessionIO_Cancel := mkCancel { session_id_ : Z; cancel_session_ : session }.

Record CSessionInterface := mkSI {
  sessions_list_ : gmap Z CSessionIOInfo;
  check_connect_time_ : Z;                            (* nanoseconds *)
}.

Definition add_session_interface (t : CSessionInterface) (connect_id : Z) (s : session)
    (local_info romote_info : ClientIPInfo) : CSessionInterface :=
  match sessions_list_ t !! connect_id with
  | Some _ => t
  | None => mkSI (<[connect_id := mkIOInfo local_info romote_info s]> (sessions_list_ t)) (check_connect_time_ t)
  end.

Definition get_session_interface (t : CSessionInterface) (connect_id : Z) : option session :=
  session_ <$> sessions_list_ t !! connect_id.

Definition get_session_local_ip (t : CSessionInterface) (connect_id : Z) : ClientIPInfo :=
  match sessions_list_ t !! connect_id with Some f => local_info_ f | None => ClientIPInfo_default end.

Definition get_session_remote_ip (t : CSessionInterface) (connect_id : Z) : ClientIPInfo :=
  match sessions_list_ t !! connect_id with Some f => romote_info_ f | None => ClientIPInfo_default end.

Definition delete_session_interface (t : CSessionInterface) (connect_id : Z) : CSessionInterface :=
  mkSI (delete connect_id (sessions_list_ t)) (check_connect_time_ t).

(** [elapsed.count() >= connect_timeout] with both times in nanoseconds. *)
Definition elapsed_ge (later earlier connect_timeout : Z) : bool :=
  connect_timeout * 1000000000 <=? later - earlier.

Definition is_need_check_session (t : CSessionInterface) (check_connect_time connect_timeout : Z)
  : bool * CSessionInterface :=
  if elapsed_ge check_connect_time (check_connect_time_ t) connect_timeout
  then (true, mkSI (sessions_list_ t) check_connect_time) else (false, t).

(** The test of one table entry: TCP sessions are asked for their own receive time, UDP
    sessions for that of the connection. *)
Definition is_timeout (now connect_timeout : Z) (e : Z * CSessionIOInfo) : bool :=
  match get_io_type (session_ (snd e)) with
  | CONNECT_IO_TCP => elapsed_ge now (get_recv_time (session_ (snd e)) 0) connect_timeout
  | CONNECT_IO_UDP => elapsed_ge now (get_recv_time (session_ (snd e)) (fst e)) connect_timeout
  | _ => false
  end.

Definition check_session_io_timeout (t : CSessionInterface) (now connect_timeout : Z)
    (session_list : list CSessionIO_Cancel) : list CSessionIO_Cancel * CSessionInterface :=
  let '(need, t) := is_need_check_session t now connect_timeout in
  if negb need then (session_list, t)
  else
    (session_list ++
       map (fun e => mkCancel (fst e) (session_ (snd e)))
           (filter (fun e => is_timeout (check_connect_time_ t) connect_timeout e = true)
                   (map_to_list (sessions_list_ t))), t).

Definition start_check (t : CSessionInterface) (now : Z) : CSessionInterface := mkSI (sessions_list_ t) now.

Definition each_session_id (t : CSessionInterface) : list Z := map fst (map_to_list (sessions_list_ t)).

(** ** Table lemmas *)

Lemma get_add_same t id s l r : sessions_list_ t !! id = None →
  get_session_interface (add_session_interface t id s l r) id = Some s.
Proof.
  intros E. unfold get_session_interface, add_session_interface. rewrite E. cbn [sessions_list_].
  by rewrite lookup_insert_eq.
Qed.

Lemma get_add_other t id id' s l r : id ≠ id' →
  get_session_interface (add_session_interface t id s l r) id' = get_session_interface t id'.
Proof.
  intros. unfold get_session_interface, add_session_interface.
  destruct (sessions_list_ t !! id); [done|]. cbn [sessions_list_]. by rewrite lookup_insert_ne.
Qed.

Lemma get_delete_same t id : get_session_interface (delete_session_interface t id) id = None.
Proof. unfold get_session_interface. cbn [sessions_list_ delete_session_interface]. by rewrite lookup_delete_eq. Qed.

Lemma get_delete_other t id id' : id ≠ id' →
  get_session_interface (delete_session_interface t id) id' = get_session_interface t id'.
Proof.
  intros. unfold get_session_interface. cbn [sessions_list_ delete_session_interface]. by rewrite lookup_delete_ne.
Qed.

Lemma timeout_ids_NoDup (m : gmap Z CSessionIOInfo) (P : Z * CSessionIOInfo → bool) :
  NoDup (map fst (filter (fun e => P e = true) (map_to_list m))).
Proof.
  assert (H : NoDup (map_to_list m).*1) by apply NoDup_fst_map_to_list.
  revert H. generalize (map_to_list m). intros l. induction l as [|e l IH]; [done|].
  rewrite fmap_cons, NoDup_cons. intros [Hn Hl]. rewrite filter_cons. destruct (decide _); [|auto].
  cbn [map]. constructor; [|auto]. intros Hin. apply Hn. apply list_elem_of_fmap.
  apply list_elem_of_fmap in Hin as (x & -> & Hx). exists x. split; [done|].
  by apply list_elem_of_filter in Hx as [_ ?].
Qed.

End SessionInterface.
Arguments CSessionIOInfo : clear implicits.
Arguments CSessionIO_Cancel : clear implicits.
Arguments CSessionInterface : clear implicits.

(** ** CSessionAddrList *)

Section SessionAddrList.

Context {session : Type}.

Record CSessionAddr_Info := mkAddrInfo { session_id : Z; addr_session_ : option session }.

Definition CSessionAddr_Info_default : CSessionAddr_Info := mkAddrInfo 0 None.

(** [fmt::format("{0}:{1} TCP", ip, port)] and the like. *)
Definition addr_suffix (io_type : EM_CONNECT_IO_TYPE) : list Z :=
  match io_type with
  | CONNECT_IO_TCP => bytes_of_string " TCP"
  | CONNECT_IO_UDP => bytes_of_string " UDP"
  | _ => bytes_of_string " TTY"
  end.

Definition set_addr_key (from_io : ClientIPInfo) (io_type : EM_CONNECT_IO_TYPE) : list Z :=
  bytes_of_string (m_strClientIP from_io) ++ [58] ++ decimal (m_u2Port from_io) ++ addr_suffix io_type.

Notation CSessionAddrList := (gmap (list Z) CSessionAddr_Info).

Definition add_session_addr (t : CSessionAddrList) (from_io : ClientIPInfo) (io_type : EM_CONNECT_IO_TYPE)
    (sid : Z) (from_session : option session) : CSessionAddrList :=
  <[set_addr_key from_io io_type := mkAddrInfo sid from_session]> t.

Definition del_session_addr (t : CSessionAddrList) (from_io : ClientIPInfo) (io_type : EM_CONNECT_IO_TYPE)
  : CSessionAddrList :=
  delete (set_addr_key from_io io_type) t.

Definition get_session_addr_info (t : CSessionAddrList) (from_io : ClientIPInfo) (io_type : EM_CONNECT_IO_TYPE)
  : CSessionAddr_Info :=
  match t !! set_addr_key from_io io_type with
  | Some f => mkAddrInfo (session_id f) (addr_session_ f)
  | None => CSessionAddr_Info_default
  end.

End SessionAddrList.
Arguments CSessionAddr_Info : clear implicits.

(** ** Keys identify addresses *)

Lemma bytes_of_string_inj s1 s2 : bytes_of_string s1 = bytes_of_string s2 → s1 = s2.
Proof.
  unfold bytes_of_string. intros H.
  assert (E : String.list_ascii_of_string s1 = String.list_ascii_of_string s2).
  { revert H. generalize (String.list_ascii_of_string s1), (String.list_ascii_of_string s2).
    intros l1. induction l1 as [|a l1 IH]; intros [|b l2]; cbn; try done.
    intros [= H1 H2]. f_equal; [|by apply IH].
    rewrite <- (Ascii.ascii_N_embedding a), <- (Ascii.ascii_N_embedding b). f_equal. lia. }
  rewrite <- (String.string_of_list_ascii_of_string s1), <- (String.string_of_list_ascii_of_string s2).
  by rewrite E.
Qed.

Lemma decimal_digits n : 0 <= n < 65536 →
  Forall (λ c, isdigit c = true) (decimal n) ∧ digits_val (decimal n) 0 = n.
Proof.
  intros Hn. unfold decimal. rewrite (proj2 (Z.ltb_ge n 0)) by lia.
  destruct (dec_digits_spec 20 n) as (? & _ & ?); [lia|lia|done].
Qed.

(** Splitting at the last separator is unambiguous. *)
Lemma split_last (l1 l2 d1 d2 : list Z) : 58 ∉ d1 → 58 ∉ d2 →
  l1 ++ [58] ++ d1 = l2 ++ [58] ++ d2 → l1 = l2 ∧ d1 = d2.
Proof.
  intros H1 H2. revert l2. induction l1 as [|a l1 IH]; intros [|b l2]; cbn [app].
  - by intros [= ->].
  - intros [= Eb Ed]. subst b d1. exfalso. apply H1. rewrite elem_of_app, elem_of_cons. auto.
  - intros [= Eb Ed]. subst a d2. exfalso. apply H2. rewrite elem_of_app, elem_of_cons. auto.
  - intros [= -> E]. destruct (IH l2 E) as [-> ->]. done.
Qed.

Definition plain_io (ty : EM_CONNECT_IO_TYPE) : Prop :=
  ty = CONNECT_IO_TCP ∨ ty = CONNECT_IO_UDP ∨ ty = CONNECT_IO_TTY.

Definition addr_ok (a : ClientIPInfo) : Prop := 0 <= m_u2Port a < 65536.

Lemma addr_suffix_inj ty1 ty2 : plain_io ty1 → plain_io ty2 → addr_suffix ty1 = addr_suffix ty2 → ty1 = ty2.
Proof. intros [->|[->| ->]] [->|[->| ->]]; done. Qed.

Lemma addr_suffix_len ty : length (addr_suffix ty) = 4%nat.
Proof. by destruct ty. Qed.

Lemma set_addr_key_inj a1 ty1 a2 ty2 : addr_ok a1 → addr_ok a2 → plain_io ty1 → plain_io ty2 →
  set_addr_key a1 ty1 = set_addr_key a2 ty2 → a1 = a2 ∧ ty1 = ty2.
Proof.
  intros H1 H2 Hp1 Hp2 E. unfold set_addr_key in E.
  destruct (decimal_digits _ H1) as [Hd1 Hv1]. destruct (decimal_digits _ H2) as [Hd2 Hv2].
  rewrite !app_assoc in E. apply app_inj_2 in E as [E Es]; [|by rewrite !addr_suffix_len].
  apply addr_suffix_inj in Es; [|done|done]. rewrite <- !app_assoc in E.
  assert (Hno : ∀ d, Forall (λ c, isdigit c = true) d → 58 ∉ d).
  { intros d Hd Hin. rewrite Forall_forall in Hd. by specialize (Hd 58 Hin). }
  apply split_last in E as [E1 E2]; [|auto|auto]. apply bytes_of_string_inj in E1.
  destruct a1 as [ip1 p1], a2 as [ip2 p2]. cbn in *. subst. rewrite <- Hv1, E2, Hv2. done.
Qed.

(** ** Properties *)

(** An idle check returns exactly the TCP and UDP sessions of the table that received
    nothing for the timeout, each once and appended to the list it was given, and only when
    a full period has passed since the last check; it never changes the table itself. *)
Theorem timeout_check_exact {session} `{!ISession session} (t : CSessionInterface session) now timeout acc :
  let '(l, t') := check_session_io_timeout t now timeout acc in
  sessions_list_ t' = sessions_list_ t ∧
  if elapsed_ge now (check_connect_time_ t) timeout then
    check_connect_time_ t' = now ∧
    ∃ new, l = acc ++ new ∧ NoDup (map session_id_ new) ∧
      ∀ id s, mkCancel id s ∈ new ↔
        ∃ e, sessions_list_ t !! id = Some e ∧ session_ e = s ∧ is_timeout now timeout (id, e) = true
  else l = acc ∧ t' = t.
Proof.
  unfold check_session_io_timeout, is_need_check_session.
  destruct (elapsed_ge now (check_connect_time_ t) timeout); cbn [negb sessions_list_ check_connect_time_]; [|done].
  split; [done|]. split; [done|]. eexists. split; [done|]. split.
  - rewrite map_map. cbn [session_id_].
    apply (timeout_ids_NoDup (sessions_list_ t) (is_timeout now timeout)).
  - intros id s. rewrite list_elem_of_fmap. split.
    + intros ([id' e] & [= -> ->] & Hin). apply list_elem_of_filter in Hin as [Ht Hin].
      apply elem_of_map_to_list in Hin. cbn in *. eauto.
    + intros (e & He & <- & Ht). exists (id, e). split; [done|]. apply list_elem_of_filter.
      split; [done|]. by apply elem_of_map_to_list.
Qed.
