(* ===== verification/Iobridge.v ===== *)
(** * IO bridging (src/PSS_ASIO/Message/IotoIo.{h,cpp}, Iobridge.{h,cpp})

    A mapping asks that the bytes of one address be forwarded to another; when sessions for
    both addresses exist, each is told the session to forward to.  Calls on sessions are
    returned as effects; a null session that is called is a fault. *)

From Stdlib Require Import ZArith Lia.
From S2P Require Import Prelude Define SessionTable.
From stdpp Require Import base numbers list gmap strings.
Local Open Scope Z_scope.

Section IotoIo.

Context {session : Type}.

Record CIo_Connect_Info := mkConnectInfo {
  from_io_ : ClientIPInfo;
  from_io_type_ : EM_CONNECT_IO_TYPE;
  from_session_id_ : Z;
  from_session_ : option session;
  to_io_ : ClientIPInfo;
  to_io_type_ : EM_CONNECT_IO_TYPE;
  to_session_id_ : Z;
  to_session_ : option session;
  bridge_type_ : ENUM_IO_BRIDGE_TYPE;
}.

Notation effects := (list (session_effect session)).

Definition compare_connect_io (from_io : ClientIPInfo) (from_io_type : EM_CONNECT_IO_TYPE)
    (target_io : ClientIPInfo) (target_io_type : EM_CONNECT_IO_TYPE) : bool :=
  String.eqb (m_strClientIP from_io) (m_strClientIP target_io) &&
  (m_u2Port from_io =? m_u2Port target_io) && bool_decide (from_io_type = target_io_type).

Fixpoint check_io_mapping (io_2_io_list : list CIo_Connect_Info) (connect_info : CIo_Connect_Info) : Z :=
  match io_2_io_list with
  | [] => 0
  | c :: io_2_io_list =>
      if compare_connect_io (from_io_ connect_info) (from_io_type_ connect_info) (from_io_ c) (from_io_type_ c)
      then 1
      else if (bool_decide (bridge_type_ connect_info = IO_BRIDGE_BATH) ||
               bool_decide (bridge_type_ c = IO_BRIDGE_BATH)) &&
              compare_connect_io (to_io_ connect_info) (to_io_type_ connect_info) (from_io_ c) (from_io_type_ c)
      then 2
      else check_io_mapping io_2_io_list connect_info
  end.

Definition iotoio_add (io_2_io_list : list CIo_Connect_Info) (from_io : ClientIPInfo)
    (from_io_type : EM_CONNECT_IO_TYPE) (to_io : ClientIPInfo) (to_io_type : EM_CONNECT_IO_TYPE)
    (bridge_type : ENUM_IO_BRIDGE_TYPE) : bool * list CIo_Connect_Info :=
  let connect_info := mkConnectInfo from_io from_io_type 0 None to_io to_io_type 0 None bridge_type in
  if negb (check_io_mapping io_2_io_list connect_info =? 0) then (false, io_2_io_list)
  else (true, io_2_io_list ++ [connect_info]).

(** [p->set_io_bridge_connect_id(...)]. *)
Definition call_bridge (p : option session) (from_id to_id : Z) : outcome effects :=
  match p with Some s => Ok [set_io_bridge_connect_id s from_id to_id] | None => Fault end.

Definition link_io_bridge (c : CIo_Connect_Info) : outcome effects :=
  if (0 <? from_session_id_ c) && (0 <? to_session_id_ c) then
    match bridge_type_ c with
    | IO_BRIDGE_BATH =>
        let* e1 := call_bridge (from_session_ c) (from_session_id_ c) (to_session_id_ c) in
        let* e2 := call_bridge (to_session_ c) (to_session_id_ c) (from_session_id_ c) in
        Ok (e1 ++ e2)
    | IO_BRIDGE_FROM => call_bridge (from_session_ c) (from_session_id_ c) (to_session_id_ c)
    | IO_BRIDGE_TO => call_bridge (to_session_ c) (to_session_id_ c) (from_session_id_ c)
    | IO_BRIDGE_NONE => Ok []
    end
  else Ok [].

Definition unlink_io_bridge (c : CIo_Connect_Info) : outcome effects :=
  if (0 <? from_session_id_ c) && (0 <? to_session_id_ c) then
    match bridge_type_ c with
    | IO_BRIDGE_BATH =>
        let* e1 := call_bridge (from_session_ c) (from_session_id_ c) 0 in
        let* e2 := call_bridge (to_session_ c) (to_session_id_ c) 0 in
        Ok (e1 ++ e2)
    | IO_BRIDGE_FROM => call_bridge (from_session_ c) (from_session_id_ c) 0
    | IO_BRIDGE_TO => call_bridge (to_session_ c) (to_session_id_ c) 0
    | IO_BRIDGE_NONE => Ok []
    end
  else Ok [].

(** [for (const auto& c : list) f(c);] *)
Fixpoint for_each (f : CIo_Connect_Info → outcome effects) (l : list CIo_Connect_Info) : outcome effects :=
  match l with
  | [] => Ok []
  | c :: l => let* e1 := f c in let* e2 := for_each f l in Ok (e1 ++ e2)
  end.

(** The search loop of the deletion: the first entry that matches is copied out and erased. *)
Fixpoint take_first (p : CIo_Connect_Info → bool) (l : list CIo_Connect_Info)
  : list CIo_Connect_Info * list CIo_Connect_Info :=
  match l with
  | [] => ([], [])
  | c :: l => if p c then ([c], l) else let '(hit, l) := take_first p l in (hit, c :: l)
  end.

Definition iotoio_delete (io_2_io_list : list CIo_Connect_Info) (from_io : ClientIPInfo)
    (from_io_type : EM_CONNECT_IO_TYPE) : outcome (effects * list CIo_Connect_Info) :=
  let '(hit1, l) :=
    take_first (fun c => compare_connect_io from_io from_io_type (from_io_ c) (from_io_type_ c)) io_2_io_list in
  let '(hit2, l) :=
    take_first (fun c => compare_connect_io from_io from_io_type (to_io_ c) (to_io_type_ c)) l in
  let* e := for_each unlink_io_bridge (hit1 ++ hit2) in
  Ok (e, l).

(** One entry of the registration loop: the entry afterwards and the copies pushed. *)
Definition set_from (c : CIo_Connect_Info) (id : Z) (s : option session) : CIo_Connect_Info :=
  mkConnectInfo (from_io_ c) (from_io_type_ c) id s (to_io_ c) (to_io_type_ c) (to_session_id_ c)
    (to_session_ c) (bridge_type_ c).
Definition set_to (c : CIo_Connect_Info) (id : Z) (s : option session) : CIo_Connect_Info :=
  mkConnectInfo (from_io_ c) (from_io_type_ c) (from_session_id_ c) (from_session_ c) (to_io_ c)
    (to_io_type_ c) id s (bridge_type_ c).

Definition is_from (io : ClientIPInfo) (ty : EM_CONNECT_IO_TYPE) (c : CIo_Connect_Info) : bool :=
  compare_connect_io (from_io_ c) (from_io_type_ c) io ty.
Definition is_to (io : ClientIPInfo) (ty : EM_CONNECT_IO_TYPE) (c : CIo_Connect_Info) : bool :=
  compare_connect_io (to_io_ c) (to_io_type_ c) io ty.

Definition regedit_entry (io : ClientIPInfo) (ty : EM_CONNECT_IO_TYPE) (id : Z) (s : option session)
    (c : CIo_Connect_Info) : CIo_Connect_Info * list CIo_Connect_Info :=
  let '(c, out1) := if is_from io ty c then (set_from c id s, [set_from c id s]) else (c, []) in
  let '(c, out2) := if is_to io ty c then (set_to c id s, [set_to c id s]) else (c, []) in
  (c, out1 ++ out2).

Definition unregedit_entry (io : ClientIPInfo) (ty : EM_CONNECT_IO_TYPE)
    (c : CIo_Connect_Info) : CIo_Connect_Info * list CIo_Connect_Info :=
  let '(c, out1) := if is_from io ty c then (set_from c 0 None, [c]) else (c, []) in
  let '(c, out2) := if is_to io ty c then (set_to c 0 None, [c]) else (c, []) in
  (c, out1 ++ out2).

Definition iotoio_regedit (l : list CIo_Connect_Info) (io : ClientIPInfo) (ty : EM_CONNECT_IO_TYPE)
    (id : Z) (s : option session) : outcome (effects * list CIo_Connect_Info) :=
  let r := map (regedit_entry io ty id s) l in
  let* e := for_each link_io_bridge (concat (map snd r)) in
  Ok (e, map fst r).

Definition iotoio_unregedit (l : list CIo_Connect_Info) (io : ClientIPInfo) (ty : EM_CONNECT_IO_TYPE)
  : outcome (effects * list CIo_Connect_Info) :=
  let r := map (unregedit_entry io ty) l in
  let* e := for_each unlink_io_bridge (concat (map snd r)) in
  Ok (e, map fst r).

(** ** CIoBridge *)

Record CIoBridge := mkBridge {
  iotoio_ : list CIo_Connect_Info;
  sesion_addr_list_ : gmap (list Z) (CSessionAddr_Info session);
}.

Definition regedit_bridge_session_info (b : CIoBridge) (from_io : ClientIPInfo) (io_type : EM_CONNECT_IO_TYPE)
    (id : Z) (from_session : option session) : outcome (effects * CIoBridge) :=
  let addrs := add_session_addr (sesion_addr_list_ b) from_io io_type id from_session in
  let* '(e, l) := iotoio_regedit (iotoio_ b) from_io io_type id from_session in
  Ok (e, mkBridge l addrs).

Definition unregedit_bridge_session_info (b : CIoBridge) (from_io : ClientIPInfo) (io_type : EM_CONNECT_IO_TYPE)
  : outcome (effects * CIoBridge) :=
  let addrs := del_session_addr (sesion_addr_list_ b) from_io io_type in
  let* '(e, l) := iotoio_unregedit (iotoio_ b) from_io io_type in
  Ok (e, mkBridge l addrs).

(** Register the session of an address that is already connected. *)
Definition regedit_existing (b : CIoBridge) (io : ClientIPInfo) (ty : EM_CONNECT_IO_TYPE)
  : outcome (effects * CIoBridge) :=
  let info := get_session_addr_info (sesion_addr_list_ b) io ty in
  if (0 <? session_id info) && bool_decide (is_Some (addr_session_ info))
  then regedit_bridge_session_info b io ty (session_id info) (addr_session_ info)
  else Ok ([], b).

Definition add_session_io_mapping (b : CIoBridge) (from_io : ClientIPInfo) (from_io_type : EM_CONNECT_IO_TYPE)
    (to_io : ClientIPInfo) (to_io_type : EM_CONNECT_IO_TYPE) (bridge_type : ENUM_IO_BRIDGE_TYPE)
  : outcome (bool * effects * CIoBridge) :=
  let '(ret, l) := iotoio_add (iotoio_ b) from_io from_io_type to_io to_io_type bridge_type in
  let b := mkBridge l (sesion_addr_list_ b) in
  if ret then
    let* '(e1, b) := regedit_existing b from_io from_io_type in
    let* '(e2, b) := regedit_existing b to_io to_io_type in
    Ok (ret, e1 ++ e2, b)
  else Ok (ret, [], b).

Definition delete_session_io_mapping (b : CIoBridge) (from_io : ClientIPInfo) (from_io_type : EM_CONNECT_IO_TYPE)
  : outcome (effects * CIoBridge) :=
  let* '(e, l) := iotoio_delete (iotoio_ b) from_io from_io_type in
  Ok (e, mkBridge l (sesion_addr_list_ b)).

End IotoIo.
Arguments CIo_Connect_Info : clear implicits.
Arguments CIoBridge : clear implicits.

(** ** The forwarding table

    Every session keeps the id it forwards to; the table of these fields after a list of
    effects. *)
Section Forwarding.

Context {session : Type}.
Implicit Types (M c : CIo_Connect_Info session) (l : list (CIo_Connect_Info session)).
Implicit Types (A : gmap (list Z) (CSessionAddr_Info session)) (T : gmap Z Z).

Definition apply_effect (T : gmap Z Z) (e : session_effect session) : gmap Z Z :=
  match e with set_io_bridge_connect_id _ x y => <[x := y]> T | _ => T end.
Definition apply_effects (T : gmap Z Z) (es : list (session_effect session)) : gmap Z Z :=
  fold_left apply_effect es T.

(** [M] makes session [x] forward to session [y]. *)
Definition links M (x y : Z) : Prop :=
  0 < from_session_id_ M ∧ 0 < to_session_id_ M ∧
  (x = from_session_id_ M ∧ y = to_session_id_ M ∧
     (bridge_type_ M = IO_BRIDGE_BATH ∨ bridge_type_ M = IO_BRIDGE_FROM) ∨
   x = to_session_id_ M ∧ y = from_session_id_ M ∧
     (bridge_type_ M = IO_BRIDGE_BATH ∨ bridge_type_ M = IO_BRIDGE_TO)).

(** Every forwarding is one that a mapping of the list asks for. *)
Definition justified l T : Prop := ∀ x y, T !! x = Some y → 0 < y → ∃ M, M ∈ l ∧ links M x y.

(** A registered end has its session. *)
Definition live M : Prop :=
  (0 < from_session_id_ M → is_Some (from_session_ M)) ∧ (0 < to_session_id_ M → is_Some (to_session_ M)).

Lemma apply_effects_app T es1 es2 : apply_effects T (es1 ++ es2) = apply_effects (apply_effects T es1) es2.
Proof. apply fold_left_app. Qed.

Lemma apply_effects_cases es : ∀ T x y, apply_effects T es !! x = Some y →
  (∃ s, set_io_bridge_connect_id s x y ∈ es) ∨
  (T !! x = Some y ∧ ∀ s z, set_io_bridge_connect_id s x z ∉ es).
Proof.
  induction es as [|e es IH] using rev_ind; intros T x y.
  - intros H. right. split; [done|]. intros s z. apply not_elem_of_nil.
  - rewrite apply_effects_app. unfold apply_effects at 1. cbn [fold_left].
    assert (Hskip : (∀ s z, e ≠ set_io_bridge_connect_id s x z) → apply_effects T es !! x = Some y →
      (∃ s, set_io_bridge_connect_id s x y ∈ es ++ [e]) ∨
      (T !! x = Some y ∧ ∀ s z, set_io_bridge_connect_id s x z ∉ es ++ [e])).
    { intros Hne H. destruct (IH T x y H) as [[s Hs]|[HT Hn]].
      - left. exists s. apply elem_of_app. by left.
      - right. split; [done|]. intros s z [Hin|Hin%list_elem_of_singleton]%elem_of_app; [by apply (Hn s z)|].
        by apply (Hne s z). }
    destruct e as [s a b| | | | |]; cbn [apply_effect]; try (intros H; by apply Hskip).
    destruct (decide (a = x)) as [->|Hax].
    + rewrite lookup_insert_eq. intros [= ->]. left. exists s. apply elem_of_app. right. by apply list_elem_of_singleton.
    + rewrite lookup_insert_ne by done. intros H. apply Hskip; [|done]. congruence.
Qed.

Lemma for_each_elem (f : CIo_Connect_Info session → _) l : ∀ es, for_each f l = Ok es →
  ∀ e, e ∈ es ↔ ∃ c es', c ∈ l ∧ f c = Ok es' ∧ e ∈ es'.
Proof.
  induction l as [|c l IH]; intros es; cbn [for_each].
  - intros [= <-] e. split; [by intros ?%not_elem_of_nil|]. intros (c & _ & Hc & _). by apply not_elem_of_nil in Hc.
  - destruct (f c) as [e1|] eqn:E1; [|done]. cbn [obind]. destruct (for_each f l) as [e2|]; [|done].
    cbn [obind]. intros [= <-] e. rewrite elem_of_app, (IH e2 eq_refl). split.
    + intros [H|(c' & es' & ? & ? & ?)].
      * exists c, e1. split; [by left|done].
      * exists c', es'. split; [by right|done].
    + intros (c' & es' & Hin & Hf & He). apply elem_of_cons in Hin as [->|Hin]; [left; congruence|].
      right. eauto.
Qed.

Lemma for_each_ok (f : CIo_Connect_Info session → _) l :
  (∀ c, c ∈ l → ∃ e, f c = Ok e) → ∃ es, for_each f l = Ok es.
Proof.
  induction l as [|c l IH]; intros H; cbn [for_each]; [eauto|].
  destruct (H c) as [e1 ->]; [by left|]. destruct IH as [e2 ->]; [intros c' Hc; apply H; by right|]. cbn. eauto.
Qed.

Lemma link_ok M : live M → ∃ es, link_io_bridge M = Ok es ∧
  ∀ s x y, set_io_bridge_connect_id s x y ∈ es → links M x y.
Proof.
  intros [Hf Ht]. unfold link_io_bridge, links.
  destruct (Z.ltb_spec 0 (from_session_id_ M)) as [H1|]; [|exists []; split; [done|]; by intros ??? ?%not_elem_of_nil].
  destruct (Z.ltb_spec 0 (to_session_id_ M)) as [H2|]; [|exists []; split; [done|]; by intros ??? ?%not_elem_of_nil].
  cbn [andb]. destruct (Hf H1) as [s1 ->], (Ht H2) as [s2 ->].
  destruct (bridge_type_ M); cbn [call_bridge obind]; eexists; (split; [reflexivity|]); intros s x y;
    rewrite ?elem_of_app, ?list_elem_of_singleton, ?elem_of_nil; naive_solver.
Qed.

Lemma unlink_ok M : live M → ∃ es, unlink_io_bridge M = Ok es ∧
  (∀ s x y, set_io_bridge_connect_id s x y ∈ es → y = 0) ∧
  (∀ x y, links M x y → ∃ s, set_io_bridge_connect_id s x 0 ∈ es).
Proof.
  intros [Hf Ht]. unfold unlink_io_bridge, links.
  destruct (Z.ltb_spec 0 (from_session_id_ M)) as [H1|];
    [|exists []; split; [done|]; split; [by intros ??? ?%not_elem_of_nil|intros; lia]].
  destruct (Z.ltb_spec 0 (to_session_id_ M)) as [H2|];
    [|exists []; split; [done|]; split; [by intros ??? ?%not_elem_of_nil|intros; lia]].
  cbn [andb]. destruct (Hf H1) as [s1 ->], (Ht H2) as [s2 ->].
  destruct (bridge_type_ M); cbn [call_bridge obind]; eexists; (split; [reflexivity|]); split.
  all: try (intros s x y; rewrite ?elem_of_app, ?list_elem_of_singleton, ?elem_of_nil; naive_solver).
  all: intros x y (_ & _ & [(-> & _ & H)|(-> & _ & H)]); destruct H as [H|H]; try discriminate H.
  all: setoid_rewrite list_elem_of_In; cbn [In app]; eauto.
Qed.

(** ** Registration and removal keep forwardings justified *)

Lemma compare_spec a t b u : compare_connect_io a t b u = true ↔ a = b ∧ t = u.
Proof.
  unfold compare_connect_io. rewrite !andb_true_iff, String.eqb_eq, Z.eqb_eq, bool_decide_eq_true.
  destruct a, b; cbn. naive_solver.
Qed.

(** The new session id is compatible with the ids already stored for the address. *)
Definition compatible (io : ClientIPInfo) (ty : EM_CONNECT_IO_TYPE) (id : Z) M : Prop :=
  (is_from io ty M = true → from_session_id_ M = 0 ∨ from_session_id_ M = id) ∧
  (is_to io ty M = true → to_session_id_ M = 0 ∨ to_session_id_ M = id).

Lemma links_ids M M' x y :
  from_session_id_ M = from_session_id_ M' → to_session_id_ M = to_session_id_ M' →
  bridge_type_ M = bridge_type_ M' → links M x y → links M' x y.
Proof. unfold links. by intros -> -> ->. Qed.

Lemma links_pos M x y : links M x y → 0 < from_session_id_ M ∧ 0 < to_session_id_ M.
Proof. by intros (? & ? & _). Qed.

Lemma regedit_entry_spec io ty id s M : 0 < id → compatible io ty id M → live M →
  let '(M', out) := regedit_entry io ty id (Some s) M in
  (∀ x y, links M x y → links M' x y) ∧ live M' ∧ Forall live out ∧
  (∀ c x y, c ∈ out → links c x y → links M' x y).
Proof.
  intros Hid [Hcf Hct] [Hlf Hlt]. unfold regedit_entry.
  assert (Hto : ∀ i o, is_to io ty (set_from M i o) = is_to io ty M) by done.
  destruct (is_from io ty M) eqn:Ef; rewrite ?Hto; destruct (is_to io ty M) eqn:Et; cbn [app];
    (split; [|split; [|split]]).
  all: try (unfold live; cbn; split; eauto; fail).
  all: try (repeat (apply Forall_cons; split); try apply Forall_nil; unfold live; cbn; split; eauto; fail).
  all: try (intros x y HL; pose proof (links_pos _ _ _ HL); revert HL; apply links_ids; cbn;
            try (destruct (Hcf eq_refl); lia); try (destruct (Hct eq_refl); lia); done).
  all: intros c x y Hc HL; pose proof (links_pos _ _ _ HL); rewrite ?elem_of_cons, ?elem_of_nil in Hc;
    revert HL; repeat destruct Hc as [->|Hc]; try done; apply links_ids; cbn in *;
    try (destruct (Hct eq_refl); lia); done.
Qed.

Lemma unregedit_entry_spec io ty M : live M →
  let '(M', out) := unregedit_entry io ty M in
  live M' ∧ Forall live out ∧ (∀ x y, links M x y → links M' x y ∨ M ∈ out).
Proof.
  intros [Hlf Hlt]. unfold unregedit_entry, is_to. destruct M as [fi ft fid fs ti tt tid ts bt].
  cbn in *. destruct (is_from io ty _) eqn:Ef; cbn [to_io_ to_io_type_ set_from];
    destruct (compare_connect_io ti tt io ty) eqn:Et; cbn [set_to set_from app from_session_id_ to_session_id_
      from_session_ to_session_ from_io_ from_io_type_ to_io_ to_io_type_ bridge_type_];
    unfold live; cbn;
    split_and!; repeat (apply Forall_cons; split); try apply Forall_nil; cbn; try naive_solver lia.
  all: intros x y Hl; rewrite ?elem_of_cons; auto.
Qed.

Lemma iotoio_regedit_ok l io ty id s T : 0 < id →
  Forall (compatible io ty id) l → Forall live l → justified l T →
  ∃ es l', iotoio_regedit l io ty id (Some s) = Ok (es, l') ∧
    l' = map (fun M => fst (regedit_entry io ty id (Some s) M)) l ∧
    Forall live l' ∧ justified l' (apply_effects T es).
Proof.
  intros Hid Hc Hl HT. unfold iotoio_regedit. set (r := map (regedit_entry io ty id (Some s)) l).
  assert (Hspec : ∀ M, M ∈ l → let '(M', out) := regedit_entry io ty id (Some s) M in
    (∀ x y, links M x y → links M' x y) ∧ live M' ∧ Forall live out ∧
    (∀ c x y, c ∈ out → links c x y → links M' x y)).
  { intros M HM. rewrite Forall_forall in Hc, Hl. by apply regedit_entry_spec; auto. }
  assert (Hout : ∀ c, c ∈ concat (map snd r) → ∃ M, M ∈ l ∧ c ∈ snd (regedit_entry io ty id (Some s) M)).
  { intros c Hin. apply list_elem_of_In, in_concat in Hin as (o & Ho & Hin).
    apply in_map_iff in Ho as (p & <- & Hp). apply in_map_iff in Hp as (M & <- & HM).
    exists M. split; by apply list_elem_of_In. }
  destruct (for_each_ok link_io_bridge (concat (map snd r))) as [es Hes].
  { intros c Hin. destruct (Hout c Hin) as (M & HM & Hc'). specialize (Hspec M HM).
    destruct (regedit_entry io ty id (Some s) M) as [M' out]. destruct Hspec as (_ & _ & Hlive & _).
    rewrite Forall_forall in Hlive. destruct (link_ok c) as (e & He & _); [by apply Hlive|eauto]. }
  rewrite Hes. cbn [obind]. eexists es, _. split; [reflexivity|].
  unfold r. rewrite map_map. split; [reflexivity|]. split.
  - apply Forall_forall. intros M' HM'. apply list_elem_of_In, in_map_iff in HM' as (M & <- & HM).
    apply list_elem_of_In in HM. specialize (Hspec M HM). destruct (regedit_entry _ _ _ _ M). tauto.
  - intros x y Hxy Hy. apply apply_effects_cases in Hxy as [[s' Hin]|[Hxy _]].
    + apply (for_each_elem _ _ _ Hes) in Hin as (c & es' & Hcin & Hlink & Hin).
      destruct (Hout c Hcin) as (M & HM & Hc'). specialize (Hspec M HM).
      exists (fst (regedit_entry io ty id (Some s) M)).
      split; [apply list_elem_of_In, in_map_iff; exists M; split; [done|by apply list_elem_of_In]|].
      destruct (regedit_entry io ty id (Some s) M) as [M' out]. destruct Hspec as (_ & _ & Hlive & Hlk).
      apply (Hlk c); [done|]. rewrite Forall_forall in Hlive.
      destruct (link_ok c (Hlive c Hc')) as (e & He & Hall). rewrite Hlink in He. injection He as <-. eauto.
    + destruct (HT x y Hxy Hy) as (M & HM & HL). exists (fst (regedit_entry io ty id (Some s) M)).
      split; [apply list_elem_of_In, in_map_iff; exists M; split; [done|by apply list_elem_of_In]|].
      specialize (Hspec M HM). destruct (regedit_entry _ _ _ _ M) as [M' out]. by apply Hspec.
Qed.

(** Unlinking a set of entries: what is still forwarded is forwarded by another entry. *)
Lemma unlink_all_ok l out T : Forall live out → justified l T →
  ∃ es, for_each unlink_io_bridge out = Ok es ∧
    ∀ x y, apply_effects T es !! x = Some y → 0 < y → ∃ M, M ∈ l ∧ links M x y ∧ M ∉ out.
Proof.
  intros Hl HT. rewrite Forall_forall in Hl.
  destruct (for_each_ok unlink_io_bridge out) as [es Hes].
  { intros c Hc. destruct (unlink_ok c (Hl c Hc)) as (e & He & _). eauto. }
  exists es. split; [done|]. intros x y Hxy Hy. apply apply_effects_cases in Hxy as [[s Hin]|[Hxy Hn]].
  - apply (for_each_elem _ _ _ Hes) in Hin as (c & es' & Hc & Hu & Hin).
    destruct (unlink_ok c (Hl c Hc)) as (e & He & H0 & _). rewrite Hu in He. injection He as <-.
    apply H0 in Hin. lia.
  - destruct (HT x y Hxy Hy) as (M & HM & HL). exists M. split_and!; [done|done|]. intros HMo.
    destruct (unlink_ok M (Hl M HMo)) as (e & He & _ & Hcov). destruct (Hcov x y HL) as [s Hin].
    apply (Hn s 0). apply (for_each_elem _ _ _ Hes). eauto.
Qed.

Lemma iotoio_unregedit_ok l io ty T : Forall live l → justified l T →
  ∃ es l', iotoio_unregedit l io ty = Ok (es, l') ∧
    l' = map (fun M => fst (unregedit_entry io ty M)) l ∧
    Forall live l' ∧ justified l' (apply_effects T es).
Proof.
  intros Hl HT. unfold iotoio_unregedit. set (r := map (unregedit_entry io ty) l).
  assert (Hspec : ∀ M, M ∈ l → let '(M', out) := unregedit_entry io ty M in
    live M' ∧ Forall live out ∧ (∀ x y, links M x y → links M' x y ∨ M ∈ out)).
  { intros M HM. rewrite Forall_forall in Hl. by apply unregedit_entry_spec; auto. }
  assert (Hin_out : ∀ M c, M ∈ l → c ∈ snd (unregedit_entry io ty M) → c ∈ concat (map snd r)).
  { intros M c HM Hc. apply list_elem_of_In, in_concat. exists (snd (unregedit_entry io ty M)).
    split; [|by apply list_elem_of_In]. apply in_map, in_map. by apply list_elem_of_In. }
  destruct (unlink_all_ok l (concat (map snd r)) T) as (es & Hes & Hjust); [|done|].
  { apply Forall_forall. intros c Hin. apply list_elem_of_In, in_concat in Hin as (o & Ho & Hin).
    apply in_map_iff in Ho as (p & <- & Hp). apply in_map_iff in Hp as (M & <- & HM).
    apply list_elem_of_In in HM. specialize (Hspec M HM). destruct (unregedit_entry io ty M).
    destruct Hspec as (_ & Ho & _). rewrite Forall_forall in Ho. apply Ho. by apply list_elem_of_In. }
  rewrite Hes. cbn [obind]. eexists es, _. split; [reflexivity|].
  unfold r. rewrite map_map. split; [reflexivity|]. split.
  - apply Forall_forall. intros M' HM'. apply list_elem_of_In, in_map_iff in HM' as (M & <- & HM).
    apply list_elem_of_In in HM. specialize (Hspec M HM). destruct (unregedit_entry io ty M). tauto.
  - intros x y Hxy Hy. destruct (Hjust x y Hxy Hy) as (M & HM & HL & Hno).
    exists (fst (unregedit_entry io ty M)).
    split; [apply list_elem_of_In, in_map_iff; exists M; split; [done|by apply list_elem_of_In]|].
    specialize (Hspec M HM). pose proof (Hin_out M M HM) as HMo.
    destruct (unregedit_entry io ty M) as [M' out]. destruct Hspec as (_ & _ & Hk).
    destruct (Hk x y HL) as [?|Ho]; [done|]. by destruct (Hno (HMo Ho)).
Qed.

End Forwarding.

(** ** Reachable states of the bridge *)
Section Bridge.

Context {session : Type}.
Implicit Types (M c : CIo_Connect_Info session) (l : list (CIo_Connect_Info session)).
Implicit Types (A : gmap (list Z) (CSessionAddr_Info session)) (T : gmap Z Z).

(** The ends of a mapping hold the sessions registered for their addresses. *)
Definition endpoint A (io : ClientIPInfo) (ty : EM_CONNECT_IO_TYPE) : Z * option session :=
  let i := get_session_addr_info A io ty in (session_id i, addr_session_ i).
Definition synced_from A M : Prop :=
  (from_session_id_ M, from_session_ M) = endpoint A (from_io_ M) (from_io_type_ M).
Definition synced_to A M : Prop :=
  (to_session_id_ M, to_session_ M) = endpoint A (to_io_ M) (to_io_type_ M).

Definition mapping_ok M : Prop :=
  (addr_ok (from_io_ M) ∧ plain_io (from_io_type_ M)) ∧ (addr_ok (to_io_ M) ∧ plain_io (to_io_type_ M)).

Definition addrs_ok A : Prop := ∀ k i, A !! k = Some i → 0 < session_id i ∧ is_Some (addr_session_ i).

(** The address a mapping forwards from. *)
Definition fkey M : ClientIPInfo * EM_CONNECT_IO_TYPE := (from_io_ M, from_io_type_ M).

Record bridge_inv (b : CIoBridge session) (T : gmap Z Z) : Prop := {
  inv_ok : Forall mapping_ok (iotoio_ b);
  inv_sync : Forall (λ M, synced_from (sesion_addr_list_ b) M ∧ synced_to (sesion_addr_list_ b) M) (iotoio_ b);
  inv_addrs : addrs_ok (sesion_addr_list_ b);
  inv_just : justified (iotoio_ b) T;
  inv_unique : NoDup (map fkey (iotoio_ b));
}.

Lemma endpoint_live A io ty : addrs_ok A → 0 < fst (endpoint A io ty) → is_Some (snd (endpoint A io ty)).
Proof.
  intros HA. unfold endpoint, get_session_addr_info. destruct (A !! _) as [i|] eqn:E; cbn; [|lia].
  intros _. by apply (HA _ _ E).
Qed.

Lemma synced_live A M : addrs_ok A → synced_from A M → synced_to A M → live M.
Proof.
  intros HA Hf Ht. unfold live, synced_from, synced_to in *.
  pose proof (endpoint_live A (from_io_ M) (from_io_type_ M) HA) as H1.
  pose proof (endpoint_live A (to_io_ M) (to_io_type_ M) HA) as H2.
  rewrite <- Hf in H1. rewrite <- Ht in H2. done.
Qed.

Lemma is_from_eq io ty M : is_from io ty M = true ↔ from_io_ M = io ∧ from_io_type_ M = ty.
Proof. apply compare_spec. Qed.
Lemma is_to_eq io ty M : is_to io ty M = true ↔ to_io_ M = io ∧ to_io_type_ M = ty.
Proof. apply compare_spec. Qed.

Lemma endpoint_add A io ty io' ty' id s :
  addr_ok io → plain_io ty → addr_ok io' → plain_io ty' →
  endpoint (add_session_addr A io ty id s) io' ty' =
  if compare_connect_io io' ty' io ty then (id, s) else endpoint A io' ty'.
Proof.
  intros. unfold endpoint, get_session_addr_info, add_session_addr.
  destruct (compare_connect_io io' ty' io ty) eqn:E.
  - apply compare_spec in E as [-> ->]. by rewrite lookup_insert_eq.
  - rewrite lookup_insert_ne; [done|]. intros Hk. apply set_addr_key_inj in Hk as [-> ->]; try done.
    rewrite (proj2 (compare_spec _ _ _ _)) in E; done.
Qed.

Lemma endpoint_del A io ty io' ty' :
  addr_ok io → plain_io ty → addr_ok io' → plain_io ty' →
  endpoint (del_session_addr A io ty) io' ty' =
  if compare_connect_io io' ty' io ty then (0, None) else endpoint A io' ty'.
Proof.
  intros. unfold endpoint, get_session_addr_info, del_session_addr.
  destruct (compare_connect_io io' ty' io ty) eqn:E.
  - apply compare_spec in E as [-> ->]. by rewrite lookup_delete_eq.
  - rewrite lookup_delete_ne; [done|]. intros Hk. apply set_addr_key_inj in Hk as [-> ->]; try done.
    rewrite (proj2 (compare_spec _ _ _ _)) in E; done.
Qed.

(** Registration brings the ends at the address in step with the new table. *)
Lemma regedit_sync A io ty id s M :
  addr_ok io → plain_io ty → mapping_ok M →
  let M' := fst (regedit_entry io ty id s M) in
  let A' := add_session_addr A io ty id s in
  mapping_ok M' ∧
  (is_from io ty M = true ∨ synced_from A M → synced_from A' M') ∧
  (is_to io ty M = true ∨ synced_to A M → synced_to A' M').
Proof.
  intros Hio Hty [[Hf1 Hf2] [Ht1 Ht2]]. cbv zeta. unfold regedit_entry, synced_from, synced_to.
  assert (Hto : ∀ i o, is_to io ty (set_from M i o) = is_to io ty M) by done.
  destruct (is_from io ty M) eqn:Ef; rewrite ?Hto; destruct (is_to io ty M) eqn:Et; cbn [fst set_from set_to
    from_io_ from_io_type_ to_io_ to_io_type_ from_session_id_ from_session_ to_session_id_ to_session_];
    rewrite !endpoint_add by done; unfold is_from, is_to in Ef, Et; rewrite Ef, Et;
    (split; [exact (conj (conj Hf1 Hf2) (conj Ht1 Ht2))|]); split; by intros [H|H].
Qed.

Lemma unregedit_sync A io ty M :
  addr_ok io → plain_io ty → mapping_ok M → synced_from A M → synced_to A M →
  let M' := fst (unregedit_entry io ty M) in
  let A' := del_session_addr A io ty in
  mapping_ok M' ∧ synced_from A' M' ∧ synced_to A' M'.
Proof.
  intros Hio Hty [[Hf1 Hf2] [Ht1 Ht2]] Hsf Hst. cbv zeta. unfold unregedit_entry, synced_from, synced_to in *.
  assert (Hto : ∀ i o, is_to io ty (set_from M i o) = is_to io ty M) by done.
  destruct (is_from io ty M) eqn:Ef; rewrite ?Hto; destruct (is_to io ty M) eqn:Et; cbn [fst set_from set_to
    from_io_ from_io_type_ to_io_ to_io_type_ from_session_id_ from_session_ to_session_id_ to_session_];
    rewrite !endpoint_del by done; unfold is_from, is_to in Ef, Et; rewrite Ef, Et;
    (split; [exact (conj (conj Hf1 Hf2) (conj Ht1 Ht2))|]); done.
Qed.

Lemma addrs_ok_add A io ty id s : 0 < id → addrs_ok A → addrs_ok (add_session_addr A io ty id (Some s)).
Proof.
  intros Hid HA k i. unfold add_session_addr. rewrite lookup_insert_Some.
  intros [[_ <-]|[_ H]]; [cbn; eauto|by apply (HA k)].
Qed.

Lemma addrs_ok_del A io ty : addrs_ok A → addrs_ok (del_session_addr A io ty).
Proof. intros HA k i. unfold del_session_addr. rewrite lookup_delete_Some. intros [_ H]. by apply (HA k). Qed.

(** ** Steps of the framework on the bridge *)

Inductive bridge_op :=
| OpAdd (from_io : ClientIPInfo) (from_ty : EM_CONNECT_IO_TYPE) (to_io : ClientIPInfo)
    (to_ty : EM_CONNECT_IO_TYPE) (bt : ENUM_IO_BRIDGE_TYPE)
| OpDelete (io : ClientIPInfo) (ty : EM_CONNECT_IO_TYPE)
| OpRegister (io : ClientIPInfo) (ty : EM_CONNECT_IO_TYPE) (id : Z) (s : session)
| OpUnregister (io : ClientIPInfo) (ty : EM_CONNECT_IO_TYPE).

Definition bridge_step (b : CIoBridge session) (T : gmap Z Z) (o : bridge_op) : outcome (CIoBridge session * gmap Z Z) :=
  match o with
  | OpAdd f ft t tty bt =>
      let* '(_, es, b') := add_session_io_mapping b f ft t tty bt in Ok (b', apply_effects T es)
  | OpDelete io ty => let* '(es, b') := delete_session_io_mapping b io ty in Ok (b', apply_effects T es)
  | OpRegister io ty id s =>
      let* '(es, b') := regedit_bridge_session_info b io ty id (Some s) in Ok (b', apply_effects T es)
  | OpUnregister io ty => let* '(es, b') := unregedit_bridge_session_info b io ty in Ok (b', apply_effects T es)
  end.

(** When the table of addresses describes the sessions: the addresses are IPv4-like and the
    sessions of the kinds whose keys do not collide (TCP, UDP and serial ports; the keys of
    KCP and TLS addresses do), a session registers with a positive id, and an address
    registers again only after it was unregistered. *)
Definition op_ok (b : CIoBridge session) (o : bridge_op) : Prop :=
  match o with
  | OpAdd f ft t tty _ => (addr_ok f ∧ plain_io ft) ∧ (addr_ok t ∧ plain_io tty)
  | OpDelete io ty | OpUnregister io ty => addr_ok io ∧ plain_io ty
  | OpRegister io ty id _ => (addr_ok io ∧ plain_io ty) ∧ 0 < id ∧ sesion_addr_list_ b !! set_addr_key io ty = None
  end.

(** Any operations at all. *)
Definition any_op (b : CIoBridge session) (o : bridge_op) : Prop := True.

(** The states reached by operations that satisfy [P]. *)
Inductive reachable (P : CIoBridge session → bridge_op → Prop) : CIoBridge session → gmap Z Z → Prop :=
| reach_start : reachable P (mkBridge [] ∅) ∅
| reach_step b T o b' T' :
    reachable P b T → P b o → bridge_step b T o = Ok (b', T') → reachable P b' T'.

Lemma reachable_mono (P Q : CIoBridge session → bridge_op → Prop) b T :
  (∀ b o, P b o → Q b o) → reachable P b T → reachable Q b T.
Proof. intros HPQ. induction 1; econstructor; eauto. Qed.

(** ** Each operation keeps the invariant *)

(** An end that is either in step or not yet set. *)
Definition loose A M : Prop :=
  (synced_from A M ∨ (from_session_id_ M, from_session_ M) = (0, None)) ∧
  (synced_to A M ∨ (to_session_id_ M, to_session_ M) = (0, None)).

Lemma loose_live A M : addrs_ok A → loose A M → live M.
Proof.
  intros HA [Hf Ht]. unfold live, synced_from, synced_to in *.
  pose proof (endpoint_live A (from_io_ M) (from_io_type_ M) HA) as H1.
  pose proof (endpoint_live A (to_io_ M) (to_io_type_ M) HA) as H2. split; intros Hpos.
  - destruct Hf as [Hf|Hf]; [rewrite <- Hf in H1; by apply H1|]. injection Hf as E _. lia.
  - destruct Ht as [Ht|Ht]; [rewrite <- Ht in H2; by apply H2|]. injection Ht as E _. lia.
Qed.

Lemma loose_compatible A io ty M : loose A M →
  compatible io ty (fst (endpoint A io ty)) M.
Proof.
  intros [Hf Ht]. unfold synced_from, synced_to in *. split.
  - intros [E1 E2]%is_from_eq. rewrite E1, E2 in Hf.
    destruct Hf as [Hf|Hf]; [right; by rewrite <- Hf|left; congruence].
  - intros [E1 E2]%is_to_eq. rewrite E1, E2 in Ht.
    destruct Ht as [Ht|Ht]; [right; by rewrite <- Ht|left; congruence].
Qed.

(** Registering the session of an address on a loosely synced list. *)
Lemma regedit_ok b T io ty id s :
  addr_ok io → plain_io ty → 0 < id →
  Forall mapping_ok (iotoio_ b) → Forall (loose (sesion_addr_list_ b)) (iotoio_ b) →
  Forall (compatible io ty id) (iotoio_ b) → addrs_ok (sesion_addr_list_ b) → justified (iotoio_ b) T →
  ∃ es b', regedit_bridge_session_info b io ty id (Some s) = Ok (es, b') ∧
    iotoio_ b' = map (fun M => fst (regedit_entry io ty id (Some s) M)) (iotoio_ b) ∧
    sesion_addr_list_ b' = add_session_addr (sesion_addr_list_ b) io ty id (Some s) ∧
    justified (iotoio_ b') (apply_effects T es).
Proof.
  intros Hio Hty Hid Hok Hloose Hc HA HT.
  assert (Hlive : Forall live (iotoio_ b)).
  { eapply Forall_impl; [exact Hloose|]. intros M. by apply loose_live. }
  destruct (iotoio_regedit_ok (iotoio_ b) io ty id s T Hid Hc Hlive HT) as (es & l' & E & El & _ & HT').
  unfold regedit_bridge_session_info. rewrite E. cbn [obind]. eexists es, _. split; [reflexivity|].
  cbn [iotoio_ sesion_addr_list_]. done.
Qed.

(** The second step of adding a mapping: the ends at [io] are brought in step, the table of
    addresses stays as it is. *)
Lemma regedit_existing_ok b T io ty :
  addr_ok io → plain_io ty → Forall mapping_ok (iotoio_ b) → Forall (loose (sesion_addr_list_ b)) (iotoio_ b) →
  addrs_ok (sesion_addr_list_ b) → justified (iotoio_ b) T →
  ∃ es b' g, regedit_existing b io ty = Ok (es, b') ∧ sesion_addr_list_ b' = sesion_addr_list_ b ∧
    iotoio_ b' = map g (iotoio_ b) ∧ justified (iotoio_ b') (apply_effects T es) ∧
    ∀ M, M ∈ iotoio_ b → mapping_ok (g M) ∧ loose (sesion_addr_list_ b) (g M) ∧
      (fkey (g M) = fkey M ∧ to_io_ (g M) = to_io_ M ∧ to_io_type_ (g M) = to_io_type_ M) ∧
      (is_from io ty M = true ∨ synced_from (sesion_addr_list_ b) M → synced_from (sesion_addr_list_ b) (g M)) ∧
      (is_to io ty M = true ∨ synced_to (sesion_addr_list_ b) M → synced_to (sesion_addr_list_ b) (g M)).
Proof.
  intros Hio Hty Hok Hloose HA HT. unfold regedit_existing. set (A := sesion_addr_list_ b) in *.
  destruct (A !! set_addr_key io ty) as [i|] eqn:E.
  - destruct (HA _ _ E) as [Hid [s Hs]].
    assert (Hi : get_session_addr_info A io ty = i) by (unfold get_session_addr_info; rewrite E; by destruct i).
    assert (He : endpoint A io ty = (session_id i, Some s)) by (unfold endpoint; by rewrite Hi, Hs).
    assert (HAA : add_session_addr A io ty (session_id i) (Some s) = A).
    { unfold add_session_addr. apply insert_id. rewrite E. destruct i; cbn in *; congruence. }
    rewrite Hi, Hs, (proj2 (Z.ltb_lt 0 _)), bool_decide_eq_true_2 by (done || eauto). cbn [andb].
    destruct (regedit_ok b T io ty (session_id i) s) as (es & b' & -> & El & EA & HT'); try done.
    { eapply Forall_impl; [exact Hloose|]. intros M HM. apply (loose_compatible A io ty) in HM. by rewrite He in HM. }
    change (sesion_addr_list_ b) with A in EA. rewrite HAA in EA.
    eexists es, b', _. split; [reflexivity|]. split; [exact EA|]. split; [exact El|]. split; [done|].
    intros M HM. rewrite Forall_forall in Hok, Hloose.
    destruct (regedit_sync A io ty (session_id i) (Some s) M Hio Hty (Hok M HM)) as (H1 & H2 & H3).
    rewrite HAA in H2, H3. split; [done|]. split; [|split; [|by split]].
    + pose proof (Hloose M HM) as [Hf Ht]. unfold loose, regedit_entry in *.
      assert (Hto : ∀ i o, is_to io ty (set_from M i o) = is_to io ty M) by done.
      destruct (is_from io ty M), (is_to io ty M) eqn:Et; rewrite ?Hto, ?Et in *; cbn in *; split; auto;
        try (left; by auto); try (destruct Hf; auto); try (destruct Ht; auto).
    + unfold regedit_entry. destruct (is_from io ty M);
        [change (is_to io ty (set_from M (session_id i) (Some s))) with (is_to io ty M)|];
        destruct (is_to io ty M); done.
  - assert (Hi : get_session_addr_info A io ty = CSessionAddr_Info_default)
      by (unfold get_session_addr_info; by rewrite E).
    rewrite Hi. cbn [session_id CSessionAddr_Info_default Z.ltb Z.compare andb].
    exists [], b, (fun M => M). rewrite map_id. split_and!; try done.
    intros M HM. rewrite Forall_forall in Hok, Hloose. split; [by apply Hok|]. pose proof (Hloose M HM) as HL.
    assert (He : endpoint A io ty = (0, None)) by (unfold endpoint; by rewrite Hi).
    split; [done|]. split; [by split_and!|]. split; destruct HL as [Hf Ht]; unfold synced_from, synced_to in *.
    + intros [[E1 E2]%is_from_eq|?]; [|done]. rewrite E1, E2, He in Hf |- *. destruct Hf; done.
    + intros [[E1 E2]%is_to_eq|?]; [|done]. rewrite E1, E2, He in Ht |- *. destruct Ht; done.
Qed.

Lemma regedit_fkey io ty id s M : fkey (fst (regedit_entry io ty id s M)) = fkey M.
Proof.
  unfold regedit_entry. destruct (is_from io ty M);
    [change (is_to io ty (set_from M id s)) with (is_to io ty M)|]; by destruct (is_to io ty M).
Qed.

Lemma unregedit_fkey io ty M : fkey (fst (unregedit_entry io ty M)) = fkey M.
Proof.
  unfold unregedit_entry. destruct (is_from io ty M);
    [change (is_to io ty (set_from M 0 None)) with (is_to io ty M)|]; by destruct (is_to io ty M).
Qed.

Lemma Forall_map_elem (P : CIo_Connect_Info session → Prop) (g : CIo_Connect_Info session → CIo_Connect_Info session) l :
  (∀ M, M ∈ l → P (g M)) → Forall P (map g l).
Proof.
  intros H. apply Forall_forall. intros y Hy. apply list_elem_of_In, in_map_iff in Hy as (M & <- & HM).
  apply H. by apply list_elem_of_In.
Qed.

Lemma map_fkey (g : CIo_Connect_Info session → CIo_Connect_Info session) l :
  (∀ M, M ∈ l → fkey (g M) = fkey M) → map fkey (map g l) = map fkey l.
Proof.
  intros H. rewrite map_map. apply map_ext_in. intros M HM. apply H. by apply list_elem_of_In.
Qed.

Lemma take_first_elem (p : CIo_Connect_Info session → bool) l hit l' : take_first p l = (hit, l') →
  ∀ M, (M ∈ l → M ∈ hit ∨ M ∈ l') ∧ (M ∈ hit ∨ M ∈ l' → M ∈ l).
Proof.
  revert hit l'. induction l as [|c l IH]; intros hit l'; cbn [take_first].
  - intros [= <- <-] M. by split; [left|intros [?|?]].
  - destruct (p c).
    + intros [= <- <-] M. rewrite elem_of_cons, list_elem_of_singleton. tauto.
    + destruct (take_first p l) as [h l1]. intros [= <- <-] M.
      destruct (IH h l1 eq_refl M). rewrite !elem_of_cons. tauto.
Qed.

Lemma take_first_sublist (p : CIo_Connect_Info session → bool) l hit l' :
  take_first p l = (hit, l') → sublist l' l.
Proof.
  revert hit l'. induction l as [|c l IH]; intros hit l'; cbn [take_first]; [by intros [= <- <-]|].
  destruct (p c); [intros [= <- <-]; by constructor|].
  destruct (take_first p l) as [h l1]. intros [= <- <-]. constructor. by eapply IH.
Qed.

Lemma check_io_mapping_fresh l c : check_io_mapping l c = 0 → fkey c ∉ map fkey l.
Proof.
  induction l as [|d l IH]; cbn [check_io_mapping map]; [intros _; apply not_elem_of_nil|].
  destruct (compare_connect_io (from_io_ c) (from_io_type_ c) (from_io_ d) (from_io_type_ d)) eqn:E; [done|].
  destruct (_ && _); [done|]. intros H. apply not_elem_of_cons. split; [|by apply IH].
  unfold fkey. intros [= E1 E2]. rewrite E1, E2, (proj2 (compare_spec _ _ _ _)) in E; done.
Qed.

Lemma inv_loose b T : bridge_inv b T → Forall (loose (sesion_addr_list_ b)) (iotoio_ b).
Proof. intros []. eapply Forall_impl; [exact inv_sync0|]. intros M [? ?]. by split; left. Qed.

Lemma inv_live b T : bridge_inv b T → Forall live (iotoio_ b).
Proof. intros []. eapply Forall_impl; [exact inv_sync0|]. intros M [? ?]. by eapply synced_live. Qed.

Lemma register_inv b T io ty id s : bridge_inv b T → op_ok b (OpRegister io ty id s) →
  ∃ b' T', bridge_step b T (OpRegister io ty id s) = Ok (b', T') ∧ bridge_inv b' T'.
Proof.
  intros Hinv [[Hio Hty] [Hid Hk]]. pose proof (inv_loose b T Hinv) as Hloose. destruct Hinv as [Hok Hs HA HT Hu].
  assert (Hc : Forall (compatible io ty id) (iotoio_ b)).
  { eapply Forall_impl; [exact Hloose|]. intros M HM. apply (loose_compatible _ io ty) in HM.
    unfold endpoint, get_session_addr_info in HM. rewrite Hk in HM. cbn in HM.
    destruct HM as [H1 H2]. split; intros H; [destruct (H1 H)|destruct (H2 H)]; auto. }
  destruct (regedit_ok b T io ty id s) as (es & b' & E & El & EA & HT'); try done.
  cbn [bridge_step]. rewrite E. cbn [obind]. eexists _, _. split; [reflexivity|].
  rewrite Forall_forall in Hok, Hs.
  split; rewrite ?El, ?EA.
  - apply Forall_map_elem. intros M HM.
    destruct (regedit_sync (sesion_addr_list_ b) io ty id (Some s) M) as (? & _ & _); auto.
  - apply Forall_map_elem. intros M HM. destruct (Hs M HM).
    destruct (regedit_sync (sesion_addr_list_ b) io ty id (Some s) M) as (_ & H1 & H2); auto.
  - by apply addrs_ok_add.
  - by rewrite <- El.
  - rewrite map_fkey; [done|]. intros M _. apply regedit_fkey.
Qed.

Lemma unregister_inv b T io ty : bridge_inv b T → op_ok b (OpUnregister io ty) →
  ∃ b' T', bridge_step b T (OpUnregister io ty) = Ok (b', T') ∧ bridge_inv b' T'.
Proof.
  intros Hinv [Hio Hty]. pose proof (inv_live b T Hinv) as Hlive. destruct Hinv as [Hok Hs HA HT Hu].
  destruct (iotoio_unregedit_ok (iotoio_ b) io ty T Hlive HT) as (es & l' & E & El & _ & HT').
  cbn [bridge_step]. unfold unregedit_bridge_session_info. rewrite E. cbn [obind].
  eexists _, _. split; [reflexivity|]. rewrite Forall_forall in Hok, Hs.
  split; cbn [iotoio_ sesion_addr_list_]; rewrite ?El.
  - apply Forall_map_elem. intros M HM. destruct (Hs M HM).
    destruct (unregedit_sync (sesion_addr_list_ b) io ty M) as (? & _ & _); auto.
  - apply Forall_map_elem. intros M HM. destruct (Hs M HM).
    destruct (unregedit_sync (sesion_addr_list_ b) io ty M) as (_ & ? & ?); auto.
  - by apply addrs_ok_del.
  - by rewrite <- El.
  - rewrite map_fkey; [done|]. intros M _. apply unregedit_fkey.
Qed.

Lemma delete_inv b T io ty : bridge_inv b T → op_ok b (OpDelete io ty) →
  ∃ b' T', bridge_step b T (OpDelete io ty) = Ok (b', T') ∧ bridge_inv b' T'.
Proof.
  intros Hinv _. pose proof (inv_live b T Hinv) as Hlive. destruct Hinv as [Hok Hs HA HT Hu].
  cbn [bridge_step]. unfold delete_session_io_mapping, iotoio_delete.
  destruct (take_first _ (iotoio_ b)) as [h1 l1] eqn:E1. destruct (take_first _ l1) as [h2 l2] eqn:E2.
  pose proof (take_first_elem _ _ _ _ E1) as H1. pose proof (take_first_elem _ _ _ _ E2) as H2.
  assert (Hsub : ∀ M, M ∈ h1 ++ h2 ∨ M ∈ l2 → M ∈ iotoio_ b).
  { intros M. rewrite elem_of_app. destruct (H1 M), (H2 M). tauto. }
  rewrite Forall_forall in Hok, Hs, Hlive.
  destruct (unlink_all_ok (iotoio_ b) (h1 ++ h2) T) as (es & E & HT');
    [apply Forall_forall; auto|done|].
  rewrite E. cbn [obind]. eexists _, _. split; [reflexivity|].
  split; cbn [iotoio_ sesion_addr_list_]; [apply Forall_forall; auto|apply Forall_forall; auto|done| |].
  - intros x y Hxy Hy. destruct (HT' x y Hxy Hy) as (M & HM & HL & Hno). exists M. split; [|done].
    rewrite elem_of_app in Hno. destruct (H1 M), (H2 M). tauto.
  - apply (sublist_NoDup _ (map fkey (iotoio_ b))); [done|].
    apply fmap_sublist. etrans; [by eapply take_first_sublist|by eapply take_first_sublist].
Qed.

Lemma add_inv b T f ft t tty bt : bridge_inv b T → op_ok b (OpAdd f ft t tty bt) →
  ∃ b' T', bridge_step b T (OpAdd f ft t tty bt) = Ok (b', T') ∧ bridge_inv b' T'.
Proof.
  intros Hinv [[Hf Hft] [Ht Htt]]. pose proof (inv_loose b T Hinv) as Hloose.
  cbn [bridge_step]. unfold add_session_io_mapping, iotoio_add.
  set (M0 := mkConnectInfo f ft 0 None t tty 0 None bt).
  destruct (Z.eqb_spec (check_io_mapping (iotoio_ b) M0) 0) as [Hfresh|_]; cbn [negb].
  2:{ cbn [obind]. exists b, T. split; [by destruct b|done]. }
  apply check_io_mapping_fresh in Hfresh. destruct Hinv as [Hok Hs HA HT Hu].
  set (b1 := mkBridge (iotoio_ b ++ [M0]) (sesion_addr_list_ b)). set (A := sesion_addr_list_ b) in *.
  assert (Hok1 : Forall mapping_ok (iotoio_ b1)) by (apply Forall_app; split; [done|]; by apply Forall_singleton).
  assert (Hl1 : Forall (loose A) (iotoio_ b1)).
  { apply Forall_app. split; [done|]. apply Forall_singleton. split; by right. }
  assert (HT1 : justified (iotoio_ b1) T).
  { intros x y Hxy Hy. destruct (HT x y Hxy Hy) as (M & HM & HL). exists M. split; [|done]. apply elem_of_app. by left. }
  destruct (regedit_existing_ok b1 T f ft Hf Hft Hok1 Hl1 HA HT1) as (e1 & b2 & g1 & -> & EA2 & El2 & HT2 & H2).
  cbn [obind]. rewrite Forall_forall in Hs.
  assert (Hok2 : Forall mapping_ok (iotoio_ b2)) by (rewrite El2; apply Forall_map_elem; intros M HM; by apply H2).
  assert (Hl2 : Forall (loose (sesion_addr_list_ b2)) (iotoio_ b2))
    by (rewrite El2, EA2; apply Forall_map_elem; intros M HM; by apply H2).
  destruct (regedit_existing_ok b2 (apply_effects T e1) t tty Ht Htt Hok2 Hl2) as (e2 & b3 & g2 & -> & EA3 & El3 & HT3 & H3);
    [by rewrite EA2|done|]. cbn [obind]. eexists _, _. split; [reflexivity|].
  rewrite apply_effects_app. rewrite EA2 in EA3.
  assert (Hcase : ∀ M, M ∈ iotoio_ b3 → ∃ M1, M1 ∈ iotoio_ b1 ∧ g1 M1 ∈ iotoio_ b2 ∧ M = g2 (g1 M1)).
  { intros M HM. rewrite El3 in HM. apply list_elem_of_In, in_map_iff in HM as (M2 & <- & HM2).
    pose proof HM2 as HM2'. rewrite El2 in HM2'. apply in_map_iff in HM2' as (M1 & <- & HM1).
    exists M1. split_and!; [by apply list_elem_of_In|by apply list_elem_of_In|done]. }
  split.
  - rewrite El3. apply Forall_map_elem. intros M HM. by apply H3.
  - apply Forall_forall. intros M HM. destruct (Hcase M HM) as (M1 & HM1 & HM2 & ->). rewrite EA3.
    destruct (H2 M1 HM1) as (_ & _ & (_ & Et1 & Et2) & Hf1 & Ht1).
    destruct (H3 _ HM2) as (_ & _ & _ & Hf2 & Ht2). rewrite EA2 in Hf2, Ht2.
    apply elem_of_app in HM1 as [HM1|HM1%list_elem_of_singleton].
    + destruct (Hs M1 HM1). split; [apply Hf2; right; apply Hf1|apply Ht2; right; apply Ht1]; by right.
    + subst M1. split.
      * apply Hf2. right. apply Hf1. left. by apply is_from_eq.
      * apply Ht2. left. apply is_to_eq. by rewrite Et1, Et2.
  - by rewrite EA3.
  - done.
  - rewrite El3, map_fkey by (intros M HM; by apply H3). rewrite El2, map_fkey by (intros M HM; by apply H2).
    unfold b1. cbn [iotoio_]. rewrite map_app. apply NoDup_app. split_and!; [done| |by apply NoDup_singleton].
    intros k Hk Hk0%list_elem_of_singleton. by subst k.
Qed.

Lemma bridge_step_inv b T o : bridge_inv b T → op_ok b o →
  ∃ b' T', bridge_step b T o = Ok (b', T') ∧ bridge_inv b' T'.
Proof.
  destruct o; intros; [by apply add_inv|by apply delete_inv|by apply register_inv|by apply unregister_inv].
Qed.

Lemma reachable_inv b T : reachable op_ok b T → bridge_inv b T.
Proof.
  induction 1 as [|b T o b' T' _ IH Hop Hst].
  - split; [constructor|constructor|by intros k i|by intros x y|constructor].
  - destruct (bridge_step_inv b T o IH Hop) as (b1 & T1 & E & Hinv). rewrite E in Hst. by injection Hst as <- <-.
Qed.

(** *** Whatever is asked of the bridge, it calls no session that is gone *)

Record bridge_live (b : CIoBridge session) : Prop := {
  bl_live : Forall live (iotoio_ b);
  bl_unique : NoDup (map fkey (iotoio_ b));
}.

Lemma set_from_live M id s : live M → live (set_from M id (Some s)).
Proof. intros [? ?]. split; cbn; [by eexists|done]. Qed.
Lemma set_to_live M id s : live M → live (set_to M id (Some s)).
Proof. intros [? ?]. split; cbn; [done|by eexists]. Qed.
Lemma clear_from_live M : live M → live (set_from M 0 None).
Proof. intros [? ?]. split; cbn; [lia|done]. Qed.
Lemma clear_to_live M : live M → live (set_to M 0 None).
Proof. intros [? ?]. split; cbn; [done|lia]. Qed.

Lemma regedit_entry_live io ty id s M : live M →
  live (fst (regedit_entry io ty id (Some s) M)) ∧ Forall live (snd (regedit_entry io ty id (Some s) M)).
Proof.
  intros HM. unfold regedit_entry.
  destruct (is_from io ty M); [change (is_to io ty (set_from M id (Some s))) with (is_to io ty M)|];
    destruct (is_to io ty M); cbn [fst snd app]; (split; [|repeat (apply Forall_cons; split); try apply Forall_nil]);
    auto using set_from_live, set_to_live.
Qed.

Lemma unregedit_entry_live io ty M : live M →
  live (fst (unregedit_entry io ty M)) ∧ Forall live (snd (unregedit_entry io ty M)).
Proof.
  intros HM. unfold unregedit_entry.
  destruct (is_from io ty M); [change (is_to io ty (set_from M 0 None)) with (is_to io ty M)|];
    destruct (is_to io ty M); cbn [fst snd app]; (split; [|repeat (apply Forall_cons; split); try apply Forall_nil]);
    auto using clear_from_live, clear_to_live.
Qed.

(** A loop over the entries that changes them by [g] and calls [f] on the copies. *)
Lemma entries_live (g : CIo_Connect_Info session → CIo_Connect_Info session * list (CIo_Connect_Info session)) l :
  Forall live l → (∀ M, live M → live (fst (g M)) ∧ Forall live (snd (g M))) →
  Forall live (map fst (map g l)) ∧ Forall live (concat (map snd (map g l))).
Proof.
  intros Hl Hg. induction Hl as [|M l HM _ [IH1 IH2]]; cbn; [by split|].
  destruct (Hg M HM). split; [by constructor|]. apply Forall_app. by split.
Qed.

Lemma for_each_live f l : (∀ M, live M → ∃ es, f M = Ok es) → Forall live l → ∃ es, for_each f l = Ok es.
Proof. intros Hf Hl. rewrite Forall_forall in Hl. apply for_each_ok. auto. Qed.

Lemma link_runs M : live M → ∃ es, link_io_bridge M = Ok es.
Proof. intros H. destruct (link_ok M H) as (es & ? & _). eauto. Qed.
Lemma unlink_runs M : live M → ∃ es, unlink_io_bridge M = Ok es.
Proof. intros H. destruct (unlink_ok M H) as (es & ? & _). eauto. Qed.

Lemma regedit_live b io ty id s : bridge_live b →
  ∃ es b', regedit_bridge_session_info b io ty id (Some s) = Ok (es, b') ∧ bridge_live b'.
Proof.
  intros [Hl Hu]. unfold regedit_bridge_session_info, iotoio_regedit.
  destruct (entries_live (regedit_entry io ty id (Some s)) (iotoio_ b) Hl) as [H1 H2];
    [intros M; apply regedit_entry_live|].
  destruct (for_each_live _ _ link_runs H2) as [es ->]. cbn [obind]. eexists es, _. split; [reflexivity|].
  split; cbn [iotoio_]; [done|]. rewrite (map_map _ fst), map_fkey; [done|]. intros M _. apply regedit_fkey.
Qed.

Lemma unregedit_live b io ty : bridge_live b →
  ∃ es b', unregedit_bridge_session_info b io ty = Ok (es, b') ∧ bridge_live b'.
Proof.
  intros [Hl Hu]. unfold unregedit_bridge_session_info, iotoio_unregedit.
  destruct (entries_live (unregedit_entry io ty) (iotoio_ b) Hl) as [H1 H2];
    [intros M; apply unregedit_entry_live|].
  destruct (for_each_live _ _ unlink_runs H2) as [es ->]. cbn [obind]. eexists es, _. split; [reflexivity|].
  split; cbn [iotoio_]; [done|]. rewrite (map_map _ fst), map_fkey; [done|]. intros M _. apply unregedit_fkey.
Qed.

Lemma existing_live b io ty : bridge_live b →
  ∃ es b', regedit_existing b io ty = Ok (es, b') ∧ bridge_live b'.
Proof.
  intros Hb. unfold regedit_existing. destruct (addr_session_ _) as [s|].
  - destruct (_ && _); [by apply regedit_live|eauto].
  - rewrite bool_decide_eq_false_2, andb_false_r by (by intros [? ?]). eauto.
Qed.

Lemma add_live b f ft t tty bt : bridge_live b →
  ∃ r es b', add_session_io_mapping b f ft t tty bt = Ok (r, es, b') ∧ bridge_live b'.
Proof.
  intros [Hl Hu]. unfold add_session_io_mapping, iotoio_add.
  set (M0 := mkConnectInfo f ft 0 None t tty 0 None bt).
  destruct (Z.eqb_spec (check_io_mapping (iotoio_ b) M0) 0) as [Hfresh|_]; cbn [negb];
    [|by eexists _, _, _].
  apply check_io_mapping_fresh in Hfresh.
  destruct (existing_live (mkBridge (iotoio_ b ++ [M0]) (sesion_addr_list_ b)) f ft) as (e1 & b1 & -> & H1).
  { split; cbn [iotoio_].
    - apply Forall_app. split; [done|]. apply Forall_singleton. split; cbn; lia.
    - rewrite map_app. apply NoDup_app. split_and!; [done| |by apply NoDup_singleton].
      intros k Hk Hk0%list_elem_of_singleton. by subst k. }
  cbn [obind]. destruct (existing_live b1 t tty H1) as (e2 & b2 & -> & H2). by eexists _, _, _.
Qed.

Lemma delete_live b io ty : bridge_live b →
  ∃ es b', delete_session_io_mapping b io ty = Ok (es, b') ∧ bridge_live b'.
Proof.
  intros [Hl Hu]. unfold delete_session_io_mapping, iotoio_delete.
  destruct (take_first _ (iotoio_ b)) as [h1 l1] eqn:E1. destruct (take_first _ l1) as [h2 l2] eqn:E2.
  pose proof (take_first_elem _ _ _ _ E1) as H1. pose proof (take_first_elem _ _ _ _ E2) as H2.
  rewrite Forall_forall in Hl.
  destruct (for_each_live _ (h1 ++ h2) unlink_runs) as [es ->].
  { apply Forall_forall. intros M. rewrite elem_of_app. destruct (H1 M), (H2 M). naive_solver. }
  cbn [obind]. eexists _, _. split; [reflexivity|]. split; cbn [iotoio_].
  - apply Forall_forall. intros M HM. destruct (H1 M), (H2 M). naive_solver.
  - apply (sublist_NoDup _ (map fkey (iotoio_ b))); [done|].
    apply fmap_sublist. etrans; by eapply take_first_sublist.
Qed.

Lemma bridge_step_live b T o : bridge_live b → ∃ b' T', bridge_step b T o = Ok (b', T') ∧ bridge_live b'.
Proof.
  intros Hb. destruct o as [f ft t tty bt|io ty|io ty id s|io ty]; cbn [bridge_step].
  - destruct (add_live b f ft t tty bt Hb) as (r & es & b' & -> & ?). cbn. eauto.
  - destruct (delete_live b io ty Hb) as (es & b' & -> & ?). cbn. eauto.
  - destruct (regedit_live b io ty id s Hb) as (es & b' & -> & ?). cbn. eauto.
  - destruct (unregedit_live b io ty Hb) as (es & b' & -> & ?). cbn. eauto.
Qed.

Lemma new_bridge_live : bridge_live (mkBridge [] ∅).
Proof. split; constructor. Qed.

Lemma reachable_live P b T : reachable P b T → bridge_live b.
Proof.
  induction 1 as [|b T o b' T' _ IH _ Hst]; [apply new_bridge_live|].
  destruct (bridge_step_live b T o IH) as (b1 & T1 & E & ?). rewrite E in Hst. by injection Hst as <- <-.
Qed.

End Bridge.

(** ** Property *)

(** C27: bridging, for any order of adding and deleting mappings and of sessions coming and
    going.
    (1) Whatever the operations are (any kinds of session, any addresses and ids, addresses
        registered again without having been unregistered): the next operation calls no
        session that is gone, and each address has at most one mapping it forwards from.
    (2) If the operations satisfy [op_ok] (IPv4-like addresses of TCP, UDP or serial
        sessions, positive ids, an address registered only when it is free), then moreover,
        whenever a session forwards to another, a mapping of the list asks for exactly that
        direction and both sessions are the ones currently registered for its addresses.
    Outside of [op_ok] part (2) fails: the keys of KCP and TLS addresses collide
    ([set_addr_key]), and an address that is registered twice keeps the forwarding of its
    first session. *)
Theorem bridge_forwarding_sound {session} (b : CIoBridge session) T :
  reachable any_op b T →
  (∀ o, ∃ r, bridge_step b T o = Ok r) ∧
  NoDup (map fkey (iotoio_ b)) ∧
  (reachable op_ok b T →
   ∀ x y, T !! x = Some y → 0 < y → ∃ M, M ∈ iotoio_ b ∧ links M x y ∧
     synced_from (sesion_addr_list_ b) M ∧ synced_to (sesion_addr_list_ b) M).
Proof.
  intros Hr. apply reachable_live in Hr. split_and!.
  - intros o. destruct (bridge_step_live b T o Hr) as (b' & T' & E & _). eauto.
  - apply Hr.
  - intros [_ Hs _ HT _]%reachable_inv x y Hxy Hy. destruct (HT x y Hxy Hy) as (M & HM & HL).
    rewrite Forall_forall in Hs. destruct (Hs M HM). eauto.
Qed.

(** A scenario: a mapping, then both sides connect, then one leaves. *)
Definition demo_a : ClientIPInfo := mkClientIPInfo "127.0.0.1" 10005.
Definition demo_b : ClientIPInfo := mkClientIPInfo "127.0.0.1" 10006.
Definition demo_ops : list (@bridge_op nat) :=
  [OpAdd demo_a CONNECT_IO_TCP demo_b CONNECT_IO_TCP IO_BRIDGE_BATH;
   OpRegister demo_a CONNECT_IO_TCP 1 100%nat; OpRegister demo_b CONNECT_IO_TCP 2 200%nat].
Fixpoint bridge_run {session} (b : CIoBridge session) (T : gmap Z Z) (os : list bridge_op)
  : outcome (CIoBridge session * gmap Z Z) :=
  match os with
  | [] => Ok (b, T)
  | o :: os => let* '(b, T) := bridge_step b T o in bridge_run b T os
  end.

Lemma bridge_forwarding_sound_witness :
  ∃ (b : CIoBridge nat) T, bridge_run (mkBridge [] ∅) ∅ demo_ops = Ok (b, T) ∧
    T !! 1 = Some 2 ∧ T !! 2 = Some 1 ∧ ∃ M, M ∈ iotoio_ b ∧ links M 1 2.
Proof.
  destruct (bridge_run (mkBridge [] ∅) ∅ demo_ops) as [[b T]|] eqn:E; [|vm_compute in E; discriminate E].
  exists b, T. split; [reflexivity|].
  assert (H12 : T !! 1 = Some 2 ∧ T !! 2 = Some 1)
    by (vm_compute in E; injection E as <- <-; vm_compute; done).
  destruct H12 as [H1 H2]. split_and!; [done|done|].
  assert (Hr : reachable op_ok b T).
  { unfold demo_ops in E. cbn [bridge_run] in E.
    destruct (bridge_step (mkBridge [] ∅) ∅ _) as [[b1 T1]|] eqn:E1; [|discriminate E]. cbn [obind] in E.
    destruct (bridge_step b1 T1 _) as [[b2 T2]|] eqn:E2; [|discriminate E]. cbn [obind] in E.
    destruct (bridge_step b2 T2 _) as [[b3 T3]|] eqn:E3; [|discriminate E]. cbn [obind] in E.
    injection E as <- <-.
    assert (Hok : ∀ a, a = demo_a ∨ a = demo_b → addr_ok a ∧ plain_io CONNECT_IO_TCP)
      by (intros a [->| ->]; split; [unfold addr_ok; cbn; lia|by left|unfold addr_ok; cbn; lia|by left]).
    eapply (reach_step _ b2 T2); [eapply (reach_step _ b1 T1); [eapply reach_step; [apply reach_start| |exact E1]| |exact E2]| |exact E3].
    - cbn. split; apply Hok; auto.
    - cbn. split; [apply Hok; auto|]. split; [lia|]. vm_compute in E1. injection E1 as <- <-. reflexivity.
    - cbn. split; [apply Hok; auto|]. split; [lia|]. vm_compute in E1. injection E1 as <- <-.
      vm_compute in E2. injection E2 as <- <-. reflexivity. }
  destruct (bridge_forwarding_sound b T (reachable_mono _ _ b T (λ _ _ _, I) Hr)) as (_ & _ & Hf).
  destruct (Hf Hr 1 2 H1) as (M & HM & HL & _); [lia|]. eauto.
Defined.
