(* ===== verification/Timer.v ===== *)
(** * The timer thread (src/Common/TimerManager.hpp)

    [Timer] objects live in a store, the priority queue holds their names, and the timer
    thread runs [timer_run] in a loop while other threads add, cancel and close.  The
    condition variable and the two mutexes give the atomic steps below; time is in
    nanoseconds.  [std::priority_queue] is used through the interface [PriorityQueue], of
    which a sorted list is an instance. *)

From Stdlib Require Import ZArith Lia.
From S2P Require Import Prelude.
From stdpp Require Import base numbers list gmap sorting.
Local Open Scope Z_scope.

Inductive EM_TIMER_STATE := TIMER_STATE_ADD_TIMER | TIMER_STATE_EXECUTE_TIMER.
Inductive ENUM_TIMER_TYPE := TIMER_TYPE_ONCE | TIMER_TYPE_LOOP.

#[export] Instance ENUM_TIMER_TYPE_eq_dec : EqDecision ENUM_TIMER_TYPE.
Proof. solve_decision. Defined.
#[export] Instance EM_TIMER_STATE_eq_dec : EqDecision EM_TIMER_STATE.
Proof. solve_decision. Defined.

(** ** The priority queue

    The queue is a list with its top at the head.  [pq_ok key q] is the heap order for the
    given keys; the laws are what [push], [top] and [pop] promise. *)
Class PriorityQueue := {
  pq_ok : (nat → Z) → list nat → Prop;
  pq_push : (nat → Z) → nat → list nat → list nat;
  pq_pop : (nat → Z) → list nat → list nat;
  pq_ok_nil key : pq_ok key [];
  pq_push_perm key x q : pq_push key x q ≡ₚ x :: q;
  pq_push_ok key x q : pq_ok key q → pq_ok key (pq_push key x q);
  pq_pop_perm key t q : pq_pop key (t :: q) ≡ₚ q;
  pq_pop_ok key t q : pq_ok key (t :: q) → pq_ok key (pq_pop key (t :: q));
  pq_push_top key x t q : pq_ok key (t :: q) → key t <= key x → ∃ q', pq_push key x (t :: q) = t :: q';
  pq_top_min key t q x : pq_ok key (t :: q) → x ∈ q → key t <= key x;
  pq_ok_ext key key' q : (∀ x, x ∈ q → key x = key' x) → pq_ok key q → pq_ok key' q;
}.

(** ** Timers *)

Section Timer.

Context {Callback : Type}.

Record Timer := mkTimer {
  mExecuteOnceFlag : bool;
  mCallback : option Callback;
  mStartTime : Z;
  mLastTime : Z;
  mDelayTime : Z;
  mTimerType : ENUM_TIMER_TYPE;
}.

(** The constructor. *)
Definition Timer_new (startTime lastTime delayTime : Z) (timertype : ENUM_TIMER_TYPE) (callback : Callback) : Timer :=
  mkTimer false (Some callback) startTime lastTime delayTime timertype.

(** [getLeftTime] consumes the initial delay. *)
Definition getLeftTime (t : Timer) (now : Z) : Z * Timer :=
  (mLastTime t - (now - mStartTime t) + mDelayTime t,
   mkTimer (mExecuteOnceFlag t) (mCallback t) (mStartTime t) (mLastTime t) 0 (mTimerType t)).

Definition cancel (t : Timer) : Timer :=
  if mExecuteOnceFlag t then t
  else mkTimer true None (mStartTime t) (mLastTime t) (mDelayTime t) (mTimerType t).

(** [operator()]: the callback that runs, and the timer afterwards. *)
Definition execute (t : Timer) (now : Z) : option Callback * Timer :=
  match mTimerType t with
  | TIMER_TYPE_ONCE =>
      if mExecuteOnceFlag t then (None, t)
      else (mCallback t, mkTimer true None (mStartTime t) (mLastTime t) (mDelayTime t) (mTimerType t))
  | TIMER_TYPE_LOOP =>
      (mCallback t, mkTimer (mExecuteOnceFlag t) (mCallback t) now (mLastTime t) (mDelayTime t) (mTimerType t))
  end.

(** The key of [CompareTimer]: start plus period; the initial delay does not take part. *)
Definition deadline (t : Timer) : Z := mStartTime t + mLastTime t.
Definition CompareTimer (left right : Timer) : bool :=
  0 <? (mStartTime left - mStartTime right) + (mLastTime left - mLastTime right).

Lemma CompareTimer_deadline l r : CompareTimer l r = true ↔ deadline r < deadline l.
Proof. unfold CompareTimer, deadline. rewrite Z.ltb_lt. lia. Qed.

(** ** The manager *)

(** Where the timer thread is: before [timer_run], waiting on the condition variable for
    the timer it looked at, about to pop and execute, or out of [schedule]. *)
Inductive pc_t := Idle | Waiting (tmp : nat) (until : Z) | Ready (tmp : nat) | Stopped.

(** A run of a callback: which timer, when, and the deadline it had. *)
Record firing := mkFiring { f_id : nat; f_time : Z; f_deadline : Z; f_callback : option Callback }.

Record TimerMgr := mkMgr {
  store : gmap nat Timer;
  mTimers : list nat;
  timer_run_ : bool;
  timer_wakeup_state : EM_TIMER_STATE;
  now : Z;
  pc : pc_t;
  fired : list firing;
}.

Definition key (st : gmap nat Timer) (x : nat) : Z :=
  match st !! x with Some t => deadline t | None => 0 end.

Context `{!PriorityQueue}.

(** [addTimer] and [addTimer_loop]: a new object is pushed under [mtx_queue]; then the
    wake-up state is set and the thread notified. *)
Definition push_timer (s : TimerMgr) (id : nat) (t : Timer) : TimerMgr :=
  let st := <[id := t]> (store s) in
  mkMgr st (pq_push (key st) id (mTimers s)) (timer_run_ s) (timer_wakeup_state s) (now s) (pc s) (fired s).
Definition signal_add (s : TimerMgr) : TimerMgr :=
  mkMgr (store s) (mTimers s) (timer_run_ s) TIMER_STATE_ADD_TIMER (now s) (pc s) (fired s).
Definition loop_timer (s : TimerMgr) (delayseconds timeout : Z) (callback : Callback) : Timer :=
  Timer_new (now s) timeout (delayseconds * 1000000000) TIMER_TYPE_LOOP callback.
Definition once_timer (s : TimerMgr) (timeout : Z) (callback : Callback) : Timer :=
  Timer_new (now s) timeout 0 TIMER_TYPE_ONCE callback.
Definition addTimer_loop (s : TimerMgr) (id : nat) (delayseconds timeout : Z) (callback : Callback) : TimerMgr :=
  signal_add (push_timer s id (loop_timer s delayseconds timeout callback)).
Definition addTimer (s : TimerMgr) (id : nat) (timeout : Z) (callback : Callback) : TimerMgr :=
  signal_add (push_timer s id (once_timer s timeout callback)).

Definition cancel_timer (s : TimerMgr) (id : nat) : TimerMgr :=
  mkMgr (alter cancel id (store s)) (mTimers s) (timer_run_ s) (timer_wakeup_state s) (now s) (pc s) (fired s).

Definition Close (s : TimerMgr) : TimerMgr :=
  mkMgr (store s) (mTimers s) false TIMER_STATE_ADD_TIMER (now s) (pc s) (fired s).

(** The other overload of [addTimer] queues an object that exists, and the queries. *)
Definition addTimer_ptr (s : TimerMgr) (id : nat) : TimerMgr :=
  signal_add (mkMgr (store s) (pq_push (key (store s)) id (mTimers s)) (timer_run_ s) (timer_wakeup_state s) (now s)
                (pc s) (fired s)).
Definition isEmpty (s : TimerMgr) : bool := match mTimers s with [] => true | _ => false end.
Definition nearLeftTime (s : TimerMgr) : Z * TimerMgr :=
  match mTimers s with
  | [] => (0, s)
  | tmp :: _ =>
      match store s !! tmp with
      | None => (0, s)
      | Some t =>
          let '(result, t) := getLeftTime t (now s) in
          (Z.max 0 result,
           mkMgr (<[tmp := t]> (store s)) (mTimers s) (timer_run_ s) (timer_wakeup_state s) (now s) (pc s) (fired s))
      end
  end.
Definition clear (s : TimerMgr) : TimerMgr :=
  mkMgr (store s) [] (timer_run_ s) (timer_wakeup_state s) (now s) (pc s) (fired s).

Definition set_pc (s : TimerMgr) (p : pc_t) : TimerMgr :=
  mkMgr (store s) (mTimers s) (timer_run_ s) (timer_wakeup_state s) (now s) p (fired s).

(** [timer_run] up to the wait: the thread looks at the top and asks for the time left.
    [None]: the queue is empty and the thread sleeps. *)
Definition timer_run_peek (s : TimerMgr) : option TimerMgr :=
  if negb (timer_run_ s) then Some (set_pc s Stopped)
  else match mTimers s with
       | [] => None
       | tmp :: _ =>
           match store s !! tmp with
           | None => None
           | Some t =>
               let '(timer_wait, t) := getLeftTime t (now s) in
               Some (mkMgr (<[tmp := t]> (store s)) (mTimers s) (timer_run_ s) (timer_wakeup_state s) (now s)
                       (if 0 <? timer_wait then Waiting tmp (now s + timer_wait) else Ready tmp) (fired s))
           end
       end.

(** After [wait_for]: a wake-up that found a new timer starts over. *)
Definition timer_run_wake (s : TimerMgr) (tmp : nat) : TimerMgr :=
  match timer_wakeup_state s with
  | TIMER_STATE_ADD_TIMER => set_pc s Idle
  | TIMER_STATE_EXECUTE_TIMER => set_pc s (Ready tmp)
  end.

(** The rest of [timer_run], under [mtx_queue]: pop the top, run [tmp], put a loop back. *)
Definition timer_run_fire (s : TimerMgr) (tmp : nat) : TimerMgr :=
  if negb (timer_run_ s) then set_pc s Stopped
  else
    match store s !! tmp with
    | None => set_pc s Idle
    | Some t =>
        let q := pq_pop (key (store s)) (mTimers s) in
        let '(cb, t') := execute t (now s) in
        let st := <[tmp := t']> (store s) in
        let q := if bool_decide (mTimerType t' = TIMER_TYPE_LOOP) && bool_decide (is_Some (mCallback t'))
                 then pq_push (key st) tmp q else q in
        mkMgr st q (timer_run_ s) TIMER_STATE_EXECUTE_TIMER (now s) Idle
          (fired s ++ [mkFiring tmp (now s) (deadline t) cb])
    end.

(** ** Steps

    [step r w s s']: the flags say how freely the threads interleave.  With [r] the push of a new timer and
    the setting of the wake-up state that follows it are also separate steps, as the locks allow;
    without it an addition is one step.  With [w] the wait of the timer thread may end at any
    time: [wait_for] has no predicate, so a spurious wake-up, or a [notify_one] that
    arrives after [timer_run] has reset the wake-up state, ends it early; without it a
    wait ends when its time is over or when the wake-up state says that a timer was added.
    [step true true] is what the source allows. *)
Inductive step (r w : bool) : TimerMgr → TimerMgr → Prop :=
| step_tick s d : 0 <= d →
    step r w s (mkMgr (store s) (mTimers s) (timer_run_ s) (timer_wakeup_state s) (now s + d) (pc s) (fired s))
| step_add s id timeout cb :
    store s !! id = None → 0 <= timeout → step r w s (addTimer s id timeout cb)
| step_add_loop s id delay timeout cb :
    store s !! id = None → 0 <= timeout → 0 <= delay → step r w s (addTimer_loop s id delay timeout cb)
| step_push s id timeout cb : r = true →
    store s !! id = None → step r w s (push_timer s id (once_timer s timeout cb))
| step_push_loop s id delay timeout cb : r = true →
    store s !! id = None → step r w s (push_timer s id (loop_timer s delay timeout cb))
| step_signal s : r = true → step r w s (signal_add s)
| step_cancel s id : step r w s (cancel_timer s id)
| step_close s : step r w s (Close s)
| step_peek s s' : pc s = Idle → timer_run_peek s = Some s' → step r w s s'
| step_wake s tmp until :
    pc s = Waiting tmp until → until <= now s ∨ timer_wakeup_state s = TIMER_STATE_ADD_TIMER ∨ w = true →
    step r w s (timer_run_wake s tmp)
| step_fire s tmp : pc s = Ready tmp → step r w s (timer_run_fire s tmp).

Definition mgr_start (t0 : Z) : TimerMgr := mkMgr ∅ [] true TIMER_STATE_EXECUTE_TIMER t0 Idle [].

Definition reachable (r w : bool) (s : TimerMgr) : Prop := ∃ t0, rtc (step r w) (mgr_start t0) s.

End Timer.
Arguments Timer : clear implicits.
Arguments TimerMgr : clear implicits.
Arguments firing : clear implicits.

(** ** A sorted list is a priority queue *)

Fixpoint insert_sorted (key : nat → Z) (x : nat) (q : list nat) : list nat :=
  match q with
  | [] => [x]
  | y :: q' => if key x <? key y then x :: q else y :: insert_sorted key x q'
  end.

Definition key_le (key : nat → Z) (x y : nat) : Prop := key x <= key y.

Lemma insert_sorted_perm key x q : insert_sorted key x q ≡ₚ x :: q.
Proof.
  induction q as [|y q IH]; cbn [insert_sorted]; [done|]. destruct (key x <? key y); [done|].
  rewrite IH. apply Permutation_swap.
Qed.

Lemma insert_sorted_ok key x q :
  StronglySorted (key_le key) q → StronglySorted (key_le key) (insert_sorted key x q).
Proof.
  induction 1 as [|y q Hq IH Hy]; cbn [insert_sorted]; [by repeat constructor|].
  destruct (Z.ltb_spec (key x) (key y)).
  - constructor; [by constructor|]. constructor; [unfold key_le; lia|].
    eapply Forall_impl; [exact Hy|]. unfold key_le. intros z. lia.
  - constructor; [done|]. rewrite insert_sorted_perm. constructor; [unfold key_le; lia|done].
Qed.

#[export] Program Instance sorted_queue : PriorityQueue := {|
  pq_ok key q := StronglySorted (key_le key) q;
  pq_push := insert_sorted;
  pq_pop _ q := tail q;
|}.
Next Obligation. constructor. Qed.
Next Obligation. apply insert_sorted_perm. Qed.
Next Obligation. by apply insert_sorted_ok. Qed.
Next Obligation. done. Qed.
Next Obligation. by inversion 1. Qed.
Next Obligation.
  intros key x t q _ Hlt. cbn [insert_sorted]. rewrite (proj2 (Z.ltb_ge _ _)) by lia. eauto.
Qed.
Next Obligation. intros key t q x H Hx. inversion_clear H as [|? ? _ Hf]. rewrite Forall_forall in Hf. by apply Hf. Qed.
Next Obligation.
  intros key key' q He. induction q as [|y q IH]; intros H; [constructor|].
  inversion_clear H as [|? ? Hq Hy]. constructor; [apply IH; [intros; apply He; by right|done]|].
  rewrite Forall_forall in Hy |- *. intros z Hz. unfold key_le in *.
  rewrite <- !He by (by left || by right). by apply Hy.
Qed.

(** ** Invariant of the runs in which additions are atomic and no wait ends early *)
Section Invariant.

Context {Callback : Type} `{!PriorityQueue}.
Implicit Types (s : TimerMgr Callback) (t : Timer Callback).

(** A timer that has left the queue for good: a one-shot that was executed or cancelled, or
    a cancelled loop. *)
Definition finished t : Prop :=
  match mTimerType t with
  | TIMER_TYPE_ONCE => mExecuteOnceFlag t = true
  | TIMER_TYPE_LOOP => mCallback t = None
  end.

Definition fired_ids s : list nat := map f_id (fired s).

Record tinv s : Prop := {
  i_store : ∀ x, x ∈ mTimers s → is_Some (store s !! x);
  i_nodup : NoDup (mTimers s);
  i_ok : pq_ok (key (store s)) (mTimers s);
  i_delay : ∀ x t, store s !! x = Some t → 0 <= mDelayTime t;
  i_pc : match pc s with
         | Ready tmp => (∃ q, mTimers s = tmp :: q) ∧ key (store s) tmp <= now s
         | Waiting tmp until =>
             is_Some (store s !! tmp) ∧ key (store s) tmp <= until ∧
             (timer_wakeup_state s = TIMER_STATE_EXECUTE_TIMER → ∃ q, mTimers s = tmp :: q)
         | _ => True
         end;
  i_kept : ∀ x t, store s !! x = Some t → x ∈ mTimers s ∨ finished t ∧ x ∈ fired_ids s;
  i_time : Forall (λ f, f_deadline f <= f_time f) (fired s);
  i_fired : ∀ x, x ∈ fired_ids s → is_Some (store s !! x);
  i_once : ∀ x t, store s !! x = Some t → mTimerType t = TIMER_TYPE_ONCE →
      (count_occ Nat.eq_dec (fired_ids s) x <= 1)%nat ∧ (x ∈ mTimers s → x ∉ fired_ids s);
}.

(** Changes to the store that keep the keys of the queue keep its order. *)
Lemma key_insert_same (st : gmap nat (Timer Callback)) x t t' y :
  st !! x = Some t → deadline t' = deadline t → key (<[x := t']> st) y = key st y.
Proof.
  intros Hx Hd. unfold key. destruct (decide (y = x)) as [->|Hne].
  - by rewrite lookup_insert_eq, Hx.
  - by rewrite lookup_insert_ne.
Qed.

Lemma key_insert_other (st : gmap nat (Timer Callback)) x t y : y ≠ x → key (<[x := t]> st) y = key st y.
Proof. intros. unfold key. by rewrite lookup_insert_ne. Qed.

Lemma key_alter_cancel (st : gmap nat (Timer Callback)) x y : key (alter cancel x st) y = key st y.
Proof.
  unfold key. destruct (decide (y = x)) as [->|Hne].
  - rewrite lookup_alter_eq. destruct (st !! x) as [t|]; cbn; [|done]. unfold cancel, deadline.
    by destruct (mExecuteOnceFlag t).
  - by rewrite lookup_alter_ne.
Qed.

Lemma pq_push_elem (k : nat → Z) x q y : y ∈ pq_push k x q ↔ y = x ∨ y ∈ q.
Proof. by rewrite pq_push_perm, elem_of_cons. Qed.

Lemma timer_add_inv s id t : tinv s → store s !! id = None → now s <= deadline t → 0 <= mDelayTime t →
  tinv (signal_add (push_timer s id t)).
Proof.
  intros [Hst Hnd Hok Hdl Hpc Hk Ht Hf Ho] Hid Hd Hdel.
  assert (Hidq : id ∉ mTimers s) by (intros Hin; destruct (Hst id Hin); congruence).
  assert (Hkey : ∀ x, x ∈ mTimers s → key (store s) x = key (<[id := t]> (store s)) x).
  { intros x Hx. rewrite key_insert_other; [done|]. by intros ->. }
  assert (Hok' : pq_ok (key (<[id := t]> (store s))) (mTimers s)) by (by eapply pq_ok_ext).
  assert (Hkid : key (<[id := t]> (store s)) id = deadline t) by (unfold key; by rewrite lookup_insert_eq).
  split; cbn [signal_add push_timer store mTimers now pc timer_wakeup_state fired]; unfold fired_ids in *; cbn [fired].
  - intros x [->|Hx]%pq_push_elem; [by rewrite lookup_insert_eq|].
    rewrite lookup_insert_ne by (by intros ->). by apply Hst.
  - rewrite pq_push_perm. by constructor.
  - by apply pq_push_ok.
  - intros x t' [[_ <-]|[_ Hx]]%lookup_insert_Some; [done|by eapply Hdl].
  - destruct (pc s) as [|tmp until|tmp|]; try done.
    + destruct Hpc as ((t' & Htmp) & Hu & _). assert (tmp ≠ id) by congruence.
      rewrite lookup_insert_ne, key_insert_other by done. split_and!; [eauto|done|done].
    + destruct Hpc as ((q & Hq) & Hn). rewrite Hq in *. rewrite <- (Hkey tmp) by (by left). split; [|done].
      apply pq_push_top; [done|]. rewrite <- Hkey, Hkid by (by left). lia.
  - intros x t' [[<- _]|[Hne Hx]]%lookup_insert_Some; [left; apply pq_push_elem; by left|].
    destruct (Hk x t' Hx) as [|?]; [left; apply pq_push_elem|]; auto.
  - done.
  - intros x Hx. destruct (decide (x = id)) as [->|]; [by rewrite lookup_insert_eq|].
    rewrite lookup_insert_ne by done. by apply Hf.
  - intros x t' Hx Hty. assert (Hidf : id ∉ map f_id (fired s)) by (intros Hin; destruct (Hf id Hin); congruence).
    apply lookup_insert_Some in Hx as [[<- _]|[Hne Hx]].
    + split; [|done]. rewrite (proj1 (count_occ_not_In Nat.eq_dec _ id)); [lia|]. by rewrite <- list_elem_of_In.
    + destruct (Ho x t' Hx Hty) as [H1 H2]. split; [done|]. intros [->|Hin]%pq_push_elem; auto.
Qed.

Lemma peek_inv s s' : tinv s → timer_run_peek s = Some s' → tinv s'.
Proof.
  intros [Hst Hnd Hok Hdl Hpc Hk Ht Hf Ho]. unfold timer_run_peek.
  destruct (timer_run_ s); cbn [negb]; [|by intros [= <-]; split].
  destruct (mTimers s) as [|tmp q] eqn:Hq; [done|].
  destruct (store s !! tmp) as [t|] eqn:Htmp; [|done]. unfold getLeftTime. intros [= <-].
  set (t0 := mkTimer _ _ _ _ _ _). assert (Hkey : ∀ y, key (<[tmp := t0]> (store s)) y = key (store s) y).
  { intros y. by apply (key_insert_same _ _ t). }
  assert (Hktmp : key (store s) tmp = mStartTime t + mLastTime t) by (unfold key; by rewrite Htmp).
  assert (Hlook : ∀ x t', <[tmp := t0]> (store s) !! x = Some t' →
    (x = tmp ∧ t' = t0) ∨ store s !! x = Some t') by (intros x t' [[<- <-]|[_ Hx]]%lookup_insert_Some; auto).
  pose proof (Hdl tmp t Htmp). split; cbn [store mTimers now pc timer_wakeup_state fired]; unfold fired_ids in *; cbn [fired].
  - intros x Hx. rewrite lookup_insert_is_Some. destruct (decide (x = tmp)); [by left|right]. auto.
  - done.
  - eapply pq_ok_ext; [|exact Hok]. by intros.
  - intros x t' [[-> ->]|Hx]%Hlook; [cbn; lia|by eapply Hdl].
  - destruct (Z.ltb_spec 0 (mLastTime t - (now s - mStartTime t) + mDelayTime t)).
    + rewrite lookup_insert_eq, Hkey, Hktmp. split_and!; [done|lia|eauto].
    + rewrite Hkey, Hktmp. split; [eauto|lia].
  - intros x t' [[-> ->]|Hx]%Hlook; [left; by left|by apply Hk].
  - done.
  - intros x Hx. rewrite lookup_insert_is_Some. destruct (decide (x = tmp)); [by left|right]. auto.
  - intros x t' [[-> ->]|Hx]%Hlook Hty; [by apply (Ho tmp t)|by apply (Ho x t')].
Qed.

Lemma cancel_inv s id : tinv s → tinv (cancel_timer s id).
Proof.
  intros [Hst Hnd Hok Hdl Hpc Hk Ht Hf Ho].
  assert (Hlook : ∀ x t', alter cancel id (store s) !! x = Some t' →
    ∃ t, store s !! x = Some t ∧ mTimerType t' = mTimerType t ∧ mDelayTime t' = mDelayTime t ∧ (finished t → finished t')).
  { intros x t'. destruct (decide (x = id)) as [->|Hne].
    - rewrite lookup_alter_eq. destruct (store s !! id) as [t|]; cbn; [|done]. intros [= <-]. exists t.
      unfold cancel, finished. destruct (mExecuteOnceFlag t) eqn:Ef; cbn; rewrite ?Ef; split_and!; try done; destruct (mTimerType t); done.
    - rewrite lookup_alter_ne by done. eauto. }
  assert (Hsome : ∀ x, is_Some (store s !! x) → is_Some (alter cancel id (store s) !! x)).
  { intros x. destruct (decide (x = id)) as [->|Hne]; [rewrite lookup_alter_eq|by rewrite lookup_alter_ne].
    by intros [t ->]. }
  split; cbn [cancel_timer store mTimers now pc timer_wakeup_state fired]; unfold fired_ids in *; cbn [fired]; auto.
  - eapply pq_ok_ext; [|exact Hok]. intros. by rewrite key_alter_cancel.
  - intros x t' (t & Hx & _ & -> & _)%Hlook. by eapply Hdl.
  - destruct (pc s); try done; rewrite ?key_alter_cancel; naive_solver.
  - intros x t' (t & Hx & _ & _ & Hfin)%Hlook. destruct (Hk x t Hx) as [|[? ?]]; auto.
  - intros x t' (t & Hx & -> & _)%Hlook. by apply (Ho x t).
Qed.

(** The queue after the pop and the possible push of [timer_run_fire]. *)
Lemma fire_queue (st st' : gmap nat (Timer Callback)) tmp q (again : bool) :
  pq_ok (key st) (tmp :: q) → NoDup (tmp :: q) → (∀ y, y ≠ tmp → key st' y = key st y) →
  let q' := if again then pq_push (key st') tmp (pq_pop (key st) (tmp :: q)) else pq_pop (key st) (tmp :: q) in
  pq_ok (key st') q' ∧ NoDup q' ∧ (∀ y, y ∈ q' ↔ (y ∈ q ∨ y = tmp ∧ again = true)).
Proof.
  intros Hok Hnd Hkey. inversion_clear Hnd as [|? ? Hnot Hnd'].
  assert (Hpop : pq_ok (key st') (pq_pop (key st) (tmp :: q))).
  { eapply pq_ok_ext; [|by apply pq_pop_ok]. intros y Hy. rewrite pq_pop_perm in Hy. rewrite Hkey; [done|].
    by intros ->. }
  destruct again; cbv zeta; split_and!.
  - by apply pq_push_ok.
  - rewrite pq_push_perm, pq_pop_perm. by constructor.
  - intros y. rewrite pq_push_elem, pq_pop_perm. naive_solver.
  - done.
  - by rewrite pq_pop_perm.
  - intros y. rewrite pq_pop_perm. naive_solver.
Qed.

(** Running a timer keeps its kind and delay; it is finished unless it is a live loop. *)
Lemma execute_facts t n cb t' : execute t n = (cb, t') →
  mTimerType t' = mTimerType t ∧ mDelayTime t' = mDelayTime t ∧
  (mTimerType t = TIMER_TYPE_ONCE → finished t') ∧ (mTimerType t = TIMER_TYPE_LOOP → mCallback t' = None → finished t').
Proof.
  intros Ex. unfold execute in Ex. unfold finished. destruct (mTimerType t) eqn:Ety.
  - destruct (mExecuteOnceFlag t) eqn:Ef; injection Ex as <- <-; cbn; rewrite ?Ety, ?Ef; by split_and!.
  - injection Ex as <- <-. cbn. rewrite ?Ety. by split_and!.
Qed.

(** A one-shot timer that is queued has not been counted yet. *)
Lemma fire_once (l : list nat) (x tmp : nat) : (count_occ Nat.eq_dec l x <= 1)%nat → (x = tmp → x ∉ l) →
  (count_occ Nat.eq_dec (l ++ [tmp]) x <= 1)%nat.
Proof.
  intros H1 H2. rewrite count_occ_app. cbn [count_occ]. destruct (Nat.eq_dec tmp x) as [->|]; [|lia].
  rewrite (proj1 (count_occ_not_In Nat.eq_dec l x)); [lia|]. rewrite <- list_elem_of_In. by apply H2.
Qed.

Lemma fire_inv s tmp : tinv s → pc s = Ready tmp → tinv (timer_run_fire s tmp).
Proof.
  intros [Hst Hnd Hok Hdl Hpc Hk Ht Hf Ho] Epc. unfold timer_run_fire.
  destruct (timer_run_ s); cbn [negb]; [|by split].
  rewrite Epc in Hpc. destruct Hpc as ((q & Hq) & Hnow). rewrite Hq in *.
  destruct (Hst tmp) as [t Htmp]; [by left|]. rewrite Htmp.
  assert (Hktmp : key (store s) tmp = deadline t) by (unfold key; by rewrite Htmp).
  destruct (execute t (now s)) as [cb t'] eqn:Ex.
  destruct (execute_facts _ _ _ _ Ex) as (Ety & Edl & Honce & Hloop).
  set (again := bool_decide (mTimerType t' = TIMER_TYPE_LOOP) && bool_decide (is_Some (mCallback t'))).
  destruct (fire_queue (store s) (<[tmp := t']> (store s)) tmp q again Hok Hnd) as (Hok' & Hnd' & Hin');
    [intros y Hy; by apply key_insert_other|].
  set (q' := if again then _ else _) in *.
  assert (Htmpq : tmp ∉ q) by (by inversion_clear Hnd).
  assert (Hlook : ∀ x t1, <[tmp := t']> (store s) !! x = Some t1 →
    (x = tmp ∧ t1 = t') ∨ x ≠ tmp ∧ store s !! x = Some t1)
    by (intros x t1 [[<- <-]|[Hne Hx]]%lookup_insert_Some; auto).
  split; cbn [store mTimers now pc timer_wakeup_state fired]; unfold fired_ids in *; cbn [fired]; rewrite ?map_app.
  - intros x [Hx|[-> _]]%Hin'; rewrite lookup_insert_is_Some; [|by left].
    destruct (decide (x = tmp)); [by left|right]. split; [done|]. apply Hst. by right.
  - done.
  - done.
  - intros x t1 [[-> ->]|[_ Hx]]%Hlook; [rewrite Edl; by eapply Hdl|by eapply Hdl].
  - done.
  - intros x t1 [[-> ->]|[Hne Hx]]%Hlook.
    + assert (Hlast : tmp ∈ map f_id (fired s) ++ [tmp]) by (apply elem_of_app; right; by left).
      rewrite Hin'. unfold again. rewrite Ety. destruct (mTimerType t) eqn:E; [right; auto|].
      destruct (mCallback t') eqn:Ec; [|right; auto]. left. right. done.
    + destruct (Hk x t1 Hx) as [Hxq|[? ?]]; [|right; split; [done|apply elem_of_app; by left]].
      left. apply Hin'. left.
      apply elem_of_cons in Hxq as [->|]; done.
  - apply Forall_app. split; [done|]. apply Forall_singleton. cbn. lia.
  - intros x. rewrite elem_of_app, lookup_insert_is_Some. cbn [map f_id].
    intros [Hx|Hx%list_elem_of_singleton]; [|by left]. destruct (decide (x = tmp)); [by left|right]. auto.
  - intros x t1 [[-> ->]|[Hne Hx]]%Hlook Hty.
    + rewrite Ety in Hty. destruct (Ho tmp t Htmp Hty) as [H1 Hno]. split; [apply fire_once; [done|intros _; apply Hno; by left]|].
      rewrite Hin'. unfold again. rewrite Ety, Hty. by intros [?|[_ ?]].
    + destruct (Ho x t1 Hx Hty) as [H1 H2]. split; [by apply fire_once|].
      rewrite Hin', elem_of_app. intros [Hxq|[-> _]]; [|done]. intros [?|?%list_elem_of_singleton]; [|done].
      apply H2; [by right|done].
Qed.

Lemma step_inv s s' : tinv s → step false false s s' → tinv s'.
Proof.
  intros Hinv Hs. pose proof Hinv as [Hst Hnd Hok Hdl Hpc Hk Ht Hf Ho].
  destruct Hs as [s d Hd|s id timeout cb Hid Hto|s id delay timeout cb Hid Hto Hde|s id timeout cb Hr
    |s id delay timeout cb Hr|s Hr|s id|s|s s' Hidle Hp|s tmp until Hw Hend|s tmp Hr]; try done.
  - split; try done. cbn. destruct (pc s); naive_solver lia.
  - apply timer_add_inv; [done|done|unfold deadline; cbn; lia|cbn; lia].
  - apply timer_add_inv; [done|done|unfold deadline; cbn; lia|cbn; lia].
  - by apply cancel_inv.
  - split; try done. cbn. destruct (pc s); naive_solver.
  - by eapply peek_inv.
  - unfold timer_run_wake. rewrite Hw in Hpc. destruct Hpc as (Hs & Hu & Hq).
    destruct (timer_wakeup_state s) eqn:E; split; try done. cbn. destruct Hend as [Hend|[|]]; [|congruence|done].
    split; [auto|lia].
  - by apply fire_inv.
Qed.

Lemma reachable_tinv s : reachable false false s → tinv s.
Proof.
  intros [t0 Hr]. remember (mgr_start t0) as s0 eqn:E0.
  assert (H0 : tinv s0).
  { subst s0. split; cbn.
    - by intros x ?%not_elem_of_nil.
    - constructor.
    - apply pq_ok_nil.
    - intros x t Hx. by rewrite lookup_empty in Hx.
    - done.
    - intros x t Hx. by rewrite lookup_empty in Hx.
    - constructor.
    - by intros x ?%not_elem_of_nil.
    - intros x t Hx. by rewrite lookup_empty in Hx. }
  clear E0. induction Hr as [|s1 s2 s3 H12 _ IH]; [done|]. apply IH. by eapply step_inv.
Qed.

(** ** Cancellation *)

(** The runs of a timer's callback. *)
Definition runs s (x : nat) : list (firing Callback) :=
  filter (λ f, f_id f = x ∧ is_Some (f_callback f)) (fired s).

(** What one step may do to a timer that exists: keep its flag and callback, or give the callback up. *)
Definition settled t t' : Prop :=
  mCallback t' = None ∨ mExecuteOnceFlag t' = mExecuteOnceFlag t ∧ mCallback t' = mCallback t.

Lemma execute_settled t n cb t' : execute t n = (cb, t') → settled t t' ∧ (mCallback t = None → cb = None).
Proof.
  unfold execute, settled. destruct (mTimerType t); [destruct (mExecuteOnceFlag t) eqn:E|]; intros [= <- <-]; cbn; auto.
Qed.

(** A step changes at most one timer and records at most one run, that of the timer it changes:
    a new timer is live; an existing one keeps its kind and is settled; one without a callback runs nothing, and
    a one-shot timer that runs gives its callback up. *)
Definition run_of t t' (y : nat) (f : firing Callback) : Prop :=
  f_id f = y ∧ (mCallback t = None → f_callback f = None) ∧
  (mTimerType t = TIMER_TYPE_ONCE → is_Some (f_callback f) → mCallback t' = None).
Definition change s s' : Prop :=
  store s' = store s ∧ fired s' = fired s ∨
  ∃ y t' fs, store s' = <[y := t']> (store s) ∧ fired s' = fired s ++ fs ∧ (length fs <= 1)%nat ∧
    match store s !! y with
    | None => mExecuteOnceFlag t' = false ∧ fs = []
    | Some t => settled t t' ∧ mTimerType t' = mTimerType t ∧ Forall (run_of t t' y) fs
    end.

Lemma change_silent s s' y t' : store s' = <[y := t']> (store s) → fired s' = fired s →
  match store s !! y with
  | None => mExecuteOnceFlag t' = false
  | Some t => settled t t' ∧ mTimerType t' = mTimerType t
  end → change s s'.
Proof.
  intros Hst Hf Hm. right. exists y, t', []. rewrite app_nil_r. split_and!; [done..|cbn; lia|].
  destruct (store s !! y); [|done]. destruct Hm. by split_and!.
Qed.

Lemma execute_run t n cb t' y : execute t n = (cb, t') → run_of t t' y (mkFiring y n (deadline t) cb).
Proof.
  unfold execute, run_of. destruct (mTimerType t) eqn:Et; [destruct (mExecuteOnceFlag t) eqn:E|]; intros [= <- <-]; cbn;
    rewrite ?Et; split_and!; try done; by intros _ [? ?].
Qed.

Lemma step_change r w s s' : step r w s s' → change s s'.
Proof.
  intros Hs. destruct Hs as [s d Hd|s id timeout cb Hid Hto|s id delay timeout cb Hid Hto Hde|s id timeout cb Hr Hid
    |s id delay timeout cb Hr Hid|s Hr|s id|s|s s' Hidle Hp|s tmp until Hw Hend|s tmp Hr]; try (by left).
  1-4: eapply change_silent; [reflexivity..|]; by rewrite Hid.
  - destruct (store s !! id) as [t|] eqn:Et.
    + eapply (change_silent s _ id (cancel t)); [|done|rewrite Et].
      * cbn. apply map_eq. intros x. destruct (decide (id = x)) as [->|Hne].
        -- by rewrite lookup_alter_eq, lookup_insert_eq, Et.
        -- by rewrite lookup_alter_ne, lookup_insert_ne.
      * unfold cancel, settled. destruct (mExecuteOnceFlag t) eqn:Ef; cbn; rewrite ?Ef; auto.
    + left. split; [|done]. cbn. apply alter_id. congruence.
  - unfold timer_run_peek in Hp. destruct (timer_run_ s); cbn [negb] in Hp; [|injection Hp as <-; by left].
    destruct (mTimers s) as [|y q]; [done|]. destruct (store s !! y) as [t|] eqn:Ey; [|done]. injection Hp as <-.
    eapply change_silent; [reflexivity..|]. rewrite Ey. split; [by right|done].
  - unfold timer_run_wake. destruct (timer_wakeup_state s); by left.
  - unfold timer_run_fire. destruct (timer_run_ s); cbn [negb]; [|by left].
    destruct (store s !! tmp) as [t|] eqn:Et; [|by left]. destruct (execute t (now s)) as [cb t1] eqn:Ex.
    destruct (execute_settled _ _ _ _ Ex). right. exists tmp, t1, [mkFiring tmp (now s) (deadline t) cb].
    destruct (execute_facts _ _ _ _ Ex) as (Ety & _).
    split_and!; [done..|]. rewrite Et. split_and!; [done..|]. apply Forall_singleton. by apply (execute_run t _ cb).
Qed.

Lemma filter_none {A} (P : A → Prop) `{!∀ x, Decision (P x)} l : Forall (λ x, ¬ P x) l → filter P l = [].
Proof. induction 1 as [|x l Hx _ IH]; [done|]. by rewrite filter_cons_False. Qed.

(** The same for one timer: its runs grow by [fs]. *)
Lemma change_timer s s' x : change s s' → ∃ fs, runs s' x = runs s x ++ fs ∧ (length fs <= 1)%nat ∧
  match store s !! x, store s' !! x with
  | Some t, Some t' => settled t t' ∧ mTimerType t' = mTimerType t ∧ (mCallback t = None → fs = []) ∧
      (mTimerType t = TIMER_TYPE_ONCE → fs ≠ [] → mCallback t' = None)
  | None, Some t' => mExecuteOnceFlag t' = false ∧ fs = []
  | None, None => fs = []
  | Some _, None => False
  end.
Proof.
  unfold runs. intros [[-> ->]|(y & t1 & fs & -> & -> & Hlen & Hm)].
  - exists []. rewrite app_nil_r. split_and!; [done|cbn; lia|]. destruct (store s !! x); [|done]. split_and!; try done. by right.
  - exists (filter (λ f, f_id f = x ∧ is_Some (f_callback f)) fs). rewrite filter_app.
    split; [done|]. split; [etrans; [apply length_filter|exact Hlen]|].
    destruct (decide (y = x)) as [->|Hne].
    + rewrite lookup_insert_eq. destruct (store s !! x) as [t|]; [|by destruct Hm as [? ->]].
      destruct Hm as (Hs & Ht & Hf). split_and!; [done|done| |].
      * intros Hn. apply filter_none, (Forall_impl _ _ _ Hf). intros f (_ & H1 & _) [_ [? H2]]. rewrite H1 in H2; done.
      * intros Ho Hne. destruct (filter _ fs) as [|f l] eqn:E; [done|].
        assert (Hin : f ∈ filter (λ f, f_id f = x ∧ is_Some (f_callback f)) fs) by (rewrite E; by left).
        apply list_elem_of_filter in Hin as [[_ Hr] Hin]. rewrite Forall_forall in Hf.
        by apply (Hf f Hin).
    + rewrite lookup_insert_ne by done.
      assert (filter (λ f, f_id f = x ∧ is_Some (f_callback f)) fs = []) as ->.
      { destruct (store s !! y) as [u|]; [|by destruct Hm as [_ ->]]. destruct Hm as (_ & _ & Hf).
        apply filter_none, (Forall_impl _ _ _ Hf). intros f (H1 & _) [H2 _]. congruence. }
      destruct (store s !! x); [|done]. split_and!; try done. by right.
Qed.

(** The callback of a one-shot timer runs at most once, and a timer whose flag is set has given
    its callback up. *)
Definition once_ok s : Prop := ∀ x,
  match store s !! x with
  | None => runs s x = []
  | Some t => (mExecuteOnceFlag t = true → mCallback t = None) ∧
      (mTimerType t = TIMER_TYPE_ONCE → runs s x = [] ∨ length (runs s x) = 1%nat ∧ mCallback t = None)
  end.

Lemma step_once r w s s' : once_ok s → step r w s s' → once_ok s'.
Proof.
  intros Hs Hstep%step_change x. specialize (Hs x). destruct (change_timer s s' x Hstep) as (fs & -> & Hl & Hm).
  destruct (store s !! x) as [t|], (store s' !! x) as [t'|]; try done.
  - destruct Hs as [Hf Ho], Hm as (Hset & Ht & Hn & Hc). split.
    + intros Hfl. destruct Hset as [|[E1 E2]]; [done|]. rewrite E2. apply Hf. congruence.
    + rewrite Ht. intros Hty. specialize (Hc Hty). destruct (Ho Hty) as [->|[H1 H2]].
      * destruct fs as [|f [|]]; [by left|right|cbn in Hl; lia]. split; [done|]. by apply Hc.
      * rewrite (Hn H2), app_nil_r. right. split; [done|]. destruct Hset as [|[_ E2]]; [done|congruence].
  - destruct Hm as [Hfl ->]. rewrite Hs. split; [congruence|by left].
  - by rewrite Hs, Hm.
Qed.

Lemma reachable_once r w s : reachable r w s → once_ok s.
Proof.
  intros [t0 Hr]. assert (H0 : once_ok (mgr_start t0 : TimerMgr Callback)) by (intros y; cbn; by rewrite lookup_empty).
  revert H0. induction Hr as [|s1 s2 s3 H12 _ IH]; [done|]. intros H0. apply IH. by eapply step_once.
Qed.

Lemma silent_steps r w s s' x t : rtc (step r w) s s' → store s !! x = Some t → mCallback t = None → runs s' x = runs s x.
Proof.
  intros Hr. revert t. induction Hr as [|s1 s2 s3 H12%step_change _ IH]; intros t Ht Hn; [done|].
  destruct (change_timer s1 s2 x H12) as (fs & E & _ & Hm). rewrite Ht in Hm.
  destruct (store s2 !! x) as [t2|] eqn:Ht2; [|done]. destruct Hm as (Hset & _ & Hfs & _).
  rewrite (IH t2); [|done|destruct Hset as [|[_ ->]]; done]. by rewrite E, (Hfs Hn), app_nil_r.
Qed.

Lemma cancel_silent r w s s' x : reachable r w s → is_Some (store s !! x) → rtc (step r w) (cancel_timer s x) s' →
  runs s' x = runs s x.
Proof.
  intros Hr [t Ht] Hs'. rewrite (silent_steps r w _ s' x (cancel t) Hs'); [done| |].
  - cbn. by rewrite lookup_alter_eq, Ht.
  - pose proof (reachable_once r w s Hr x) as Ho. rewrite Ht in Ho. destruct Ho as [Hf _].
    unfold cancel. destruct (mExecuteOnceFlag t) eqn:E; [by apply Hf|done].
Qed.

End Invariant.

(** ** Properties *)

(** C29: timers, for any priority queue that keeps its contract.  (1) In every interleaving the source
    allows (threads that add timers in two steps, cancel and close; waits of the timer
    thread that end at any time): the callback of a one-shot timer runs at most once, and once a timer is
    cancelled its callback never runs again.  (2) In the interleavings in which additions are
    atomic and a wait ends only when its time is over or a timer was added
    ([reachable false false]): no timer is executed before its deadline (start plus period); no timer
    is lost: it is in the queue, there once, or was executed as a one-shot (once) or as a cancelled
    loop; and the timer the thread is about to execute is the one it pops, and it is due.
    Part (2) needs both restrictions: [timer_push_signal_race] and [stray_wakeup_fires_early]. *)
Theorem timers_fire_correctly {Callback} `{!PriorityQueue} (s : TimerMgr Callback) :
  reachable true true s →
  (∀ x t, store s !! x = Some t → mTimerType t = TIMER_TYPE_ONCE → (length (runs s x) <= 1)%nat) ∧
  (∀ x s', is_Some (store s !! x) → rtc (step true true) (cancel_timer s x) s' → runs s' x = runs s x) ∧
  (reachable false false s →
   Forall (λ f, f_deadline f <= f_time f) (fired s) ∧ NoDup (mTimers s) ∧
   (∀ x t, store s !! x = Some t → x ∈ mTimers s ∨ finished t ∧ x ∈ fired_ids s) ∧
   (∀ x t, store s !! x = Some t → mTimerType t = TIMER_TYPE_ONCE → (count_occ Nat.eq_dec (fired_ids s) x <= 1)%nat) ∧
   (∀ x, pc s = Ready x → head (mTimers s) = Some x ∧ key (store s) x <= now s)).
Proof.
  intros Hr. split_and!.
  - intros x t Hx Hty. pose proof (reachable_once _ _ s Hr x) as Ho. rewrite Hx in Ho.
    destruct (proj2 Ho Hty) as [->|[-> _]]; cbn; lia.
  - intros x s' Hx Hs'. by eapply cancel_silent.
  - intros [_ Hnd _ _ Hpc Hk Ht _ Ho]%reachable_tinv. split_and!; try done.
    + intros x t Hx Hty. by apply (Ho x t).
    + intros x E. rewrite E in Hpc. by destruct Hpc as ((q & ->) & ?).
Qed.

(** Two timers, the earlier one due and executed, the thread waiting for the later one. *)
Definition demo_mgr : TimerMgr nat :=
  let s := addTimer (mgr_start 0) 0%nat 10 7%nat in
  let s := addTimer s 1%nat 100 8%nat in
  let s := mkMgr (store s) (mTimers s) true (timer_wakeup_state s) (now s + 10) (pc s) (fired s) in
  let s := default s (timer_run_peek s) in
  let s := timer_run_fire s 0%nat in
  default s (timer_run_peek s).

Lemma demo_mgr_steps r w : rtc (step r w) (mgr_start 0) demo_mgr.
Proof.
  unfold demo_mgr. eapply rtc_l; [apply (step_add r w _ 0%nat 10 7%nat); [reflexivity|lia]|].
  eapply rtc_l; [apply (step_add r w _ 1%nat 100 8%nat); [reflexivity|lia]|].
  eapply rtc_l; [apply (step_tick r w _ 10); lia|].
  eapply rtc_l; [apply step_peek; [reflexivity|vm_compute; reflexivity]|].
  eapply rtc_l; [apply (step_fire r w _ 0%nat); reflexivity|].
  eapply rtc_l; [apply step_peek; [reflexivity|vm_compute; reflexivity]|]. apply rtc_refl.
Qed.

Lemma timers_fire_correctly_witness :
  fired_ids demo_mgr = [0%nat] ∧ Forall (λ f, f_deadline f <= f_time f) (fired demo_mgr).
Proof.
  split; [vm_compute; reflexivity|].
  apply (timers_fire_correctly demo_mgr); exists 0; apply demo_mgr_steps.
Defined.

(** A wait that ends early executes its timer early: the thread does not look at the clock again.  Here
    the wait for a timer that is due at 100 ends at 10, and the callback runs then. *)
Theorem stray_wakeup_fires_early :
  ∃ s : TimerMgr nat, reachable false true s ∧
    ∃ f, f ∈ fired s ∧ f_callback f = Some 8%nat ∧ f_time f = 10 ∧ f_deadline f = 100.
Proof.
  exists (timer_run_fire (timer_run_wake demo_mgr 1%nat) 1%nat). split.
  - exists 0. etrans; [apply demo_mgr_steps|].
    eapply rtc_l; [apply (step_wake false true demo_mgr 1%nat 100); [reflexivity|by right; right]|].
    eapply rtc_l; [apply (step_fire false true _ 1%nat); reflexivity|]. apply rtc_refl.
  - exists (mkFiring 1%nat 10 100 (Some 8%nat)). split; [|done]. rewrite list_elem_of_In. vm_compute. auto.
Qed.

(** A timer can be lost when the thread that adds it is suspended between the push and
    the setting of the wake-up state: the timer thread, whose wait for a later timer ends,
    pops the new top and executes the later timer instead. *)
Theorem timer_push_signal_race :
  ∃ s : TimerMgr nat, reachable true false s ∧
    ∃ id t cb, store s !! id = Some t ∧ mCallback t = Some cb ∧ deadline t <= now s ∧
      id ∉ mTimers s ∧ id ∉ fired_ids s.
Proof.
  pose (s1 := mkMgr (store demo_mgr) (mTimers demo_mgr) true (timer_wakeup_state demo_mgr) (now demo_mgr + 40)
                (pc demo_mgr) (fired demo_mgr)).
  pose (s2 := push_timer s1 2%nat (once_timer s1 10 9%nat)).
  pose (s3 := mkMgr (store s2) (mTimers s2) true (timer_wakeup_state s2) (now s2 + 50) (pc s2) (fired s2)).
  pose (s4 := timer_run_fire (timer_run_wake s3 1%nat) 1%nat). exists s4. split.
  - exists 0. etrans; [apply demo_mgr_steps|].
    eapply rtc_l; [apply (step_tick true false _ 40); lia|].
    eapply rtc_l; [apply (step_push true false s1 2%nat 10 9%nat); [done|reflexivity]|].
    eapply rtc_l; [apply (step_tick true false s2 50); lia|].
    eapply rtc_l; [apply (step_wake true false s3 1%nat 100); [reflexivity|left; vm_compute; congruence]|].
    eapply rtc_l; [apply (step_fire true false _ 1%nat); reflexivity|]. apply rtc_refl.
  - exists 2%nat, (Timer_new 50 10 0 TIMER_TYPE_ONCE 9%nat), 9%nat.
    split_and!; [reflexivity|reflexivity|vm_compute; congruence| |];
      rewrite list_elem_of_In; vm_compute; intuition congruence.
Qed.

(** The initial delay of a loop timer is lost when another timer is added while the
    thread waits for it: the first look at the timer consumes the delay, and after the
    wake-up only the period counts.  Here a loop with a period of one second and a delay of
    ten seconds runs after one second. *)
Theorem loop_delay_lost :
  ∃ s : TimerMgr nat, reachable false false s ∧
    fired s = [mkFiring 0%nat 1000000000 1000000000 (Some 7%nat)] ∧
    (∃ s0, s0 = addTimer_loop (mgr_start 0) 0%nat 10 1000000000 7%nat ∧ rtc (step false false) s0 s).
Proof.
  pose (s0 := addTimer_loop (mgr_start 0) 0%nat 10 1000000000 7%nat).
  pose (s1 := default s0 (timer_run_peek s0)).
  pose (s2 := addTimer s1 1%nat 5000000000 8%nat).
  pose (s3 := timer_run_wake s2 0%nat).
  pose (s4 := mkMgr (store s3) (mTimers s3) true (timer_wakeup_state s3) (now s3 + 1000000000) (pc s3) (fired s3)).
  pose (s5 := default s4 (timer_run_peek s4)). pose (s6 := timer_run_fire s5 0%nat).
  assert (Hrun : rtc (step false false) s0 s6).
  { eapply rtc_l; [apply (step_peek false false s0 s1); vm_compute; reflexivity|].
    eapply rtc_l; [apply (step_add false false s1 1%nat 5000000000 8%nat); [reflexivity|lia]|].
    eapply rtc_l; [apply (step_wake false false s2 0%nat 11000000000); [reflexivity|right; left; reflexivity]|].
    eapply rtc_l; [apply (step_tick false false s3 1000000000); lia|].
    eapply rtc_l; [apply (step_peek false false s4 s5); vm_compute; reflexivity|].
    eapply rtc_l; [apply (step_fire false false s5 0%nat); reflexivity|]. apply rtc_refl. }
  exists s6. split_and!.
  - exists 0. eapply rtc_l; [apply (step_add_loop false false (mgr_start 0) 0%nat 10 1000000000 7%nat); [reflexivity|lia|lia]|].
    exact Hrun.
  - vm_compute. reflexivity.
  - exists s0. split; [reflexivity|done].
Qed.
