(* ===== verification/Tms.v ===== *)
(** * Logic threads and their queues (src/Common/ThreadQueue.h, src/Common/tms.hpp)

    [CMessageQueue], [CLogicTasK] and [TMS].  A [task_function] is a value of a type [F];
    running it is recorded, not interpreted, so the theorems hold for every task.  A logic
    thread is the loop [svc], cut at its two blocking points. *)

From Stdlib Require Import ZArith Lia.
From S2P Require Import Prelude Timer.
From stdpp Require Import base numbers list gmap.
Local Open Scope Z_scope.

(** ** CMessageQueue *)

Module MessageQueue.
Section Queue.
Context {T : Type}.
Definition Push (q : list T) (msg : T) : list T := q ++ [msg].
(** [Pop]: [None] where the blocking version waits and the other returns false. *)
Definition Pop (q : list T) : option (T * list T) :=
  match q with [] => None | m :: q => Some (m, q) end.
Definition Size (q : list T) : Z := i32 (zlen q).
Definition Empty (q : list T) : bool := match q with [] => true | _ => false end.
End Queue.
End MessageQueue.

Inductive EM_LOGIC_TYPE := LOGIC_TYPE_RUN | LOGIC_TYPE_CLOSE.
Inductive EM_TMS_EVENT_TYPE := TMS_EVENT_IMMEDIATELY | TMS_EVENT_DELAY | TMS_EVENT_TIMER.

Section Tms.

Context {F : Type} `{!PriorityQueue}.

(** ** CLogicTasK *)

(** A close message carries no function. *)
Record CLogicMessage := mkLogicMessage { m_func : option F; m_emType : EM_LOGIC_TYPE }.
Definition run_message (func : F) : CLogicMessage := mkLogicMessage (Some func) LOGIC_TYPE_RUN.
Definition close_message : CLogicMessage := mkLogicMessage None LOGIC_TYPE_CLOSE.

(** Where [svc] is: at the test of [m_run], in [Pop], or returned. *)
Inductive svc_pc := AtTest | AtPop | Returned.

Record CLogicTasK := mkTask {
  m_thread_queue : list CLogicMessage;
  m_run : bool;
  thread_id : Z;
  m_u4ThreadID : Z;
  svc_at : svc_pc;
  executed : list F;                (* the functions run so far, in order *)
}.

Definition Put (t : CLogicTasK) (msg : CLogicMessage) : CLogicTasK :=
  mkTask (MessageQueue.Push (m_thread_queue t) msg) (m_run t) (thread_id t) (m_u4ThreadID t) (svc_at t) (executed t).

(** [start]: the new thread gets the identifier [tid]. *)
Definition task_start (tid u4ThreadID : Z) : CLogicTasK := mkTask [] true tid u4ThreadID AtTest [].

(** [Close] up to the [join]: it stops the loop and wakes it. *)
Definition task_close (t : CLogicTasK) : CLogicTasK :=
  Put (mkTask (m_thread_queue t) false (thread_id t) (m_u4ThreadID t) (svc_at t) (executed t)) close_message.

Definition set_svc (t : CLogicTasK) (q : list CLogicMessage) (p : svc_pc) (ex : list F) : CLogicTasK :=
  mkTask q (m_run t) (thread_id t) (m_u4ThreadID t) p ex.

(** One step of [svc]; [None] when it blocks or has returned. *)
Definition svc_step (t : CLogicTasK) : option CLogicTasK :=
  match svc_at t with
  | AtTest => Some (set_svc t (m_thread_queue t) (if m_run t then AtPop else Returned) (executed t))
  | AtPop =>
      match MessageQueue.Pop (m_thread_queue t) with
      | None => None
      | Some (msg, q) =>
          match m_emType msg, m_func msg with
          | LOGIC_TYPE_RUN, Some f => Some (set_svc t q AtTest (executed t ++ [f]))
          | LOGIC_TYPE_RUN, None => None
          | LOGIC_TYPE_CLOSE, _ => Some (set_svc t q Returned (executed t))
          end
      end
  | Returned => None
  end.

(** ** TMS *)

Record CTMS_Event := mkEvent {
  u4LogicID_ : Z;
  event_func_ : F;
  em_tms_event_type_ : EM_TMS_EVENT_TYPE;
  millisecond_ : Z;
  delayseconds_ : Z;
}.

(** The callback of a timer puts a message into the queue of a thread. *)
Record TMS := mkTMS {
  m_timerManager : TimerMgr (Z * F);
  m_mapLogicList : gmap Z CLogicTasK;
  m_TidtologicidList : gmap Z Z;
  tms_is_start_ : bool;
  m_tmsEvents : list CTMS_Event;
}.

Definition set_logic (s : TMS) (m : gmap Z CLogicTasK) : TMS :=
  mkTMS (m_timerManager s) m (m_TidtologicidList s) (tms_is_start_ s) (m_tmsEvents s).
Definition set_timers (s : TMS) (m : TimerMgr (Z * F)) : TMS :=
  mkTMS m (m_mapLogicList s) (m_TidtologicidList s) (tms_is_start_ s) (m_tmsEvents s).
Definition add_event (s : TMS) (e : CTMS_Event) : TMS :=
  mkTMS (m_timerManager s) (m_mapLogicList s) (m_TidtologicidList s) (tms_is_start_ s) (m_tmsEvents s ++ [e]).

(** [TMS()] followed by [Init()]: the timer thread runs. *)
Definition TMS_init (t0 : Z) : TMS := mkTMS (mgr_start t0) ∅ ∅ false [].

Definition CreateLogic (s : TMS) (u4LogicID tid : Z) : bool * TMS :=
  match m_mapLogicList s !! u4LogicID with
  | Some _ => (false, s)
  | None =>
      (true, mkTMS (m_timerManager s) (<[u4LogicID := task_start tid u4LogicID]> (m_mapLogicList s))
               (<[tid := u4LogicID]> (m_TidtologicidList s)) (tms_is_start_ s) (m_tmsEvents s))
  end.

(** [GetLogicThreadID] called on the thread [tid]. *)
Definition GetLogicThreadID (s : TMS) (tid : Z) : Z := default 0 (m_TidtologicidList s !! tid).

(** [CloseLogic] up to the [join], and what follows it. *)
Definition CloseLogic_begin (s : TMS) (u4LogicID : Z) : bool * TMS :=
  match m_mapLogicList s !! u4LogicID with
  | Some t =>
      (true, mkTMS (m_timerManager s) (<[u4LogicID := task_close t]> (m_mapLogicList s))
               (delete (thread_id t) (m_TidtologicidList s)) (tms_is_start_ s) (m_tmsEvents s))
  | None => (false, s)
  end.
Definition CloseLogic_end (s : TMS) (u4LogicID : Z) : TMS :=
  set_logic s (delete u4LogicID (m_mapLogicList s)).

(** [AddMessage(id, func)]. *)
Definition AddMessage (s : TMS) (u4LogicID : Z) (func : F) : bool * TMS :=
  if negb (tms_is_start_ s) then (true, add_event s (mkEvent u4LogicID func TMS_EVENT_IMMEDIATELY 0 0))
  else
    match m_mapLogicList s !! u4LogicID with
    | Some t => (true, set_logic s (<[u4LogicID := Put t (run_message func)]> (m_mapLogicList s)))
    | None => (false, s)
    end.

(** [AddMessage(id, millisecond, func)] and [AddMessage_loop]: [tm] names the new timer. *)
Definition AddMessage_delay (s : TMS) (tm : nat) (u4LogicID millisecond : Z) (func : F) : option nat * TMS :=
  if negb (tms_is_start_ s) then (None, add_event s (mkEvent u4LogicID func TMS_EVENT_DELAY millisecond 0))
  else
    match m_mapLogicList s !! u4LogicID with
    | Some _ => (Some tm, set_timers s (addTimer (m_timerManager s) tm (millisecond * 1000000) (u4LogicID, func)))
    | None => (None, s)
    end.
Definition AddMessage_loop (s : TMS) (tm : nat) (u4LogicID delayseconds millisecond : Z) (func : F)
  : option nat * TMS :=
  if negb (tms_is_start_ s) then
    (None, add_event s (mkEvent u4LogicID func TMS_EVENT_TIMER millisecond delayseconds))
  else
    match m_mapLogicList s !! u4LogicID with
    | Some _ =>
        (Some tm, set_timers s
           (addTimer_loop (m_timerManager s) tm delayseconds (millisecond * 1000000) (u4LogicID, func)))
    | None => (None, s)
    end.

(** The callback of a timer: [m_mapLogicList[id]->Put(msg)]; the index operator makes a null
    entry when the thread is gone. *)
Definition timer_callback (s : TMS) (cb : Z * F) : outcome TMS :=
  match m_mapLogicList s !! cb.1 with
  | Some t => Ok (set_logic s (<[cb.1 := Put t (run_message cb.2)]> (m_mapLogicList s)))
  | None => Fault
  end.

(** [Start] sets the flag and then replays the events one by one, without a lock: messages
    that come in meanwhile find the flag set and go to the queues at once.  [replay_event] is
    one round of its loop ([tm] names a new timer); [Start] is the whole function when nothing
    happens in between, as in the start of the work threads. *)
Definition Start_begin (s : TMS) : TMS :=
  mkTMS (m_timerManager s) (m_mapLogicList s) (m_TidtologicidList s) true (m_tmsEvents s).
Definition replay_event (s : TMS) (tm : nat) (e : CTMS_Event) : TMS :=
  match em_tms_event_type_ e with
  | TMS_EVENT_IMMEDIATELY => snd (AddMessage s (u4LogicID_ e) (event_func_ e))
  | TMS_EVENT_DELAY => snd (AddMessage_delay s tm (u4LogicID_ e) (millisecond_ e) (event_func_ e))
  | TMS_EVENT_TIMER => snd (AddMessage_loop s tm (u4LogicID_ e) (delayseconds_ e) (millisecond_ e) (event_func_ e))
  end.
Fixpoint replay (s : TMS) (tm : nat) (es : list CTMS_Event) : TMS :=
  match es with
  | [] => s
  | e :: es => replay (replay_event s tm e) (S tm) es
  end.
Definition Start (s : TMS) (tm : nat) : TMS := replay (Start_begin s) tm (m_tmsEvents s).

(** [Close] of the system up to its joins: every thread is told to stop, then the timers. *)
Definition TMS_Close (s : TMS) : TMS :=
  mkTMS (Close (m_timerManager s)) (task_close <$> m_mapLogicList s) (m_TidtologicidList s) false (m_tmsEvents s).

(** One step of the thread of a logic id. *)
Definition thread_step (s : TMS) (u4LogicID : Z) : option TMS :=
  match m_mapLogicList s !! u4LogicID with
  | Some t => match svc_step t with
              | Some t => Some (set_logic s (<[u4LogicID := t]> (m_mapLogicList s)))
              | None => None
              end
  | None => None
  end.

End Tms.
Arguments TMS : clear implicits.
Arguments CLogicTasK : clear implicits.
Arguments CLogicMessage : clear implicits.
Arguments CTMS_Event : clear implicits.

(** ** Messages are executed once and in order *)
Section Fifo.

Context {F : Type} `{!PriorityQueue}.
Implicit Types (s : TMS F) (t : CLogicTasK F).

(** The system together with the events that a running [Start] still has to replay. *)
Definition tms_state : Type := TMS F * list (CTMS_Event F).
Implicit Types (st : tms_state).

Inductive tms_op :=
| OCreate (id tid : Z)
| OAdd (id : Z) (f : F)
| ODelay (tm : nat) (id ms : Z) (f : F)
| OLoop (tm : nat) (id delay ms : Z) (f : F)
| OStart                            (* [Start] sets its flag *)
| OReplay (tm : nat)                (* [Start] replays one event *)
| OTimer (cb : Z * F)               (* the timer thread runs a callback *)
| OThread (id : Z)                  (* a logic thread makes a step *)
| OClose (id : Z).

(** The program calls [Start] once. *)
Definition tms_step st (o : tms_op) : option tms_state :=
  let '(s, todo) := st in
  match o with
  | OCreate id tid => Some (snd (CreateLogic s id tid), todo)
  | OAdd id f => Some (snd (AddMessage s id f), todo)
  | ODelay tm id ms f => Some (snd (AddMessage_delay s tm id ms f), todo)
  | OLoop tm id d ms f => Some (snd (AddMessage_loop s tm id d ms f), todo)
  | OStart => if tms_is_start_ s then None else Some (Start_begin s, m_tmsEvents s)
  | OReplay tm => match todo with e :: todo => Some (replay_event s tm e, todo) | [] => None end
  | OTimer cb => if tms_is_start_ s then
                   match timer_callback s cb with Ok s => Some (s, todo) | Fault => None end
                 else None
  | OThread id => match thread_step s id with Some s => Some (s, todo) | None => None end
  | OClose id => Some (snd (CloseLogic_begin s id), todo)
  end.

Fixpoint tms_run st (os : list tms_op) : option tms_state :=
  match os with
  | [] => Some st
  | o :: os => match tms_step st o with Some st => tms_run st os | None => None end
  end.

(** The operations before [Start] sets its flag, and those after. *)
Fixpoint before_start (os : list tms_op) : list tms_op :=
  match os with [] => [] | OStart :: _ => [] | o :: os => o :: before_start os end.
Fixpoint after_start (os : list tms_op) : list tms_op :=
  match os with [] => [] | OStart :: os => os | _ :: os => after_start os end.

(** What an operation sends to a thread. *)
Definition sent_op (id : Z) (o : tms_op) : list F :=
  match o with
  | OAdd i f => if decide (i = id) then [f] else []
  | OTimer (i, f) => if decide (i = id) then [f] else []
  | _ => []
  end.
Definition sent (id : Z) (os : list tms_op) : list F := concat (map (sent_op id) os).

(** The functions waiting in a queue, and those waiting for [Start]. *)
Definition queued (q : list (CLogicMessage F)) : list F := omap m_func q.
Definition event_for (id : Z) (e : CTMS_Event F) : list F :=
  match em_tms_event_type_ e with
  | TMS_EVENT_IMMEDIATELY => if decide (u4LogicID_ e = id) then [event_func_ e] else []
  | _ => []
  end.
(** What was sent before [Start] and is not yet in the queue. *)
Definition to_replay st (id : Z) : list F :=
  concat (map (event_for id) (if tms_is_start_ (fst st) then snd st else m_tmsEvents (fst st))).

(** [merge a b l]: [l] holds the elements of [a] and of [b], each of the two in its order. *)
Inductive merge {A} : list A → list A → list A → Prop :=
| merge_nil : merge [] [] []
| merge_left a b l x : merge a b l → merge (a ++ [x]) b (l ++ [x])
| merge_right a b l x : merge a b l → merge a (b ++ [x]) (l ++ [x]).

Lemma merge_lefts {A} (x a b l : list A) : merge a b l → merge (a ++ x) b (l ++ x).
Proof.
  revert a l. induction x as [|y x IH]; intros a l Hm; [by rewrite !app_nil_r|].
  rewrite (cons_middle y a), (cons_middle y l), !app_assoc. by apply IH, merge_left.
Qed.
Lemma merge_rights {A} (x a b l : list A) : merge a b l → merge a (b ++ x) (l ++ x).
Proof.
  revert b l. induction x as [|y x IH]; intros b l Hm; [by rewrite !app_nil_r|].
  rewrite (cons_middle y b), (cons_middle y l), !app_assoc. by apply IH, merge_right.
Qed.
(** A thread that has not been told to close. *)
Definition open_task t : Prop :=
  m_run t = true ∧ svc_at t ≠ Returned ∧ Forall (λ m, ∃ f, m = run_message f) (m_thread_queue t).

(** What the thread was given so far, executed or not. *)
Definition taken t : list F := executed t ++ queued (m_thread_queue t).

Lemma queued_app q1 q2 : queued (q1 ++ q2) = queued q1 ++ queued q2.
Proof. apply omap_app. Qed.

Lemma open_put t f : open_task t → open_task (Put t (run_message f)).
Proof. intros (? & ? & ?). split_and!; try done. apply Forall_app. split; [done|]. apply Forall_singleton. eauto. Qed.

Lemma queued_put t f : queued (m_thread_queue (Put t (run_message f))) = queued (m_thread_queue t) ++ [f].
Proof. unfold Put, MessageQueue.Push. cbn [m_thread_queue]. by rewrite queued_app. Qed.

(** One step of an open thread moves the front of its queue to the executed list. *)
Lemma svc_step_open t t' : open_task t → svc_step t = Some t' →
  open_task t' ∧ executed t' ++ queued (m_thread_queue t') = executed t ++ queued (m_thread_queue t).
Proof.
  intros (Hr & Hs & Hq). unfold svc_step. destruct (svc_at t); [| |done].
  - intros [= <-]. rewrite Hr. by split_and!.
  - destruct (m_thread_queue t) as [|m q] eqn:Eq; cbn [MessageQueue.Pop]; [done|].
    apply Forall_cons in Hq as [[f ->] Hq]. cbn. intros [= <-]. split; [by split_and!|].
    cbn [set_svc executed m_thread_queue]. unfold queued. cbn [omap list_omap m_func run_message].
    by rewrite <- app_assoc.
Qed.

(** A started system: adding a message. *)
Lemma AddMessage_started s id f id' : tms_is_start_ s = true →
  m_mapLogicList (snd (AddMessage s id' f)) !! id =
    (if decide (id' = id) then (fun t => Put t (run_message f)) <$> m_mapLogicList s !! id
     else m_mapLogicList s !! id) ∧
  tms_is_start_ (snd (AddMessage s id' f)) = true.
Proof.
  intros Hs. unfold AddMessage. rewrite Hs. cbn [negb].
  destruct (m_mapLogicList s !! id') as [t|] eqn:E; cbn; (split; [|done]); destruct (decide (id' = id)) as [->|Hne];
    rewrite ?lookup_insert_eq, ?E, ?lookup_insert_ne by done; done.
Qed.

(** Of a started system, the operations that do not put anything into the queue of [id]. *)
Lemma replay_event_started s tm e : tms_is_start_ s = true → tms_is_start_ (replay_event s tm e) = true.
Proof.
  intros Hs. unfold replay_event, AddMessage, AddMessage_delay, AddMessage_loop. rewrite Hs. cbn [negb].
  destruct (em_tms_event_type_ e), (m_mapLogicList s !! u4LogicID_ e); done.
Qed.

Lemma replay_event_lookup s tm e id t : tms_is_start_ s = true → m_mapLogicList s !! id = Some t → open_task t →
  ∃ t', m_mapLogicList (replay_event s tm e) !! id = Some t' ∧ open_task t' ∧ taken t' = taken t ++ event_for id e.
Proof.
  intros Hs Ht Ho. unfold replay_event, event_for. destruct (em_tms_event_type_ e).
  - destruct (AddMessage_started s id (event_func_ e) (u4LogicID_ e) Hs) as [El _]. rewrite El, Ht.
    destruct (decide (u4LogicID_ e = id)); eexists; (split; [done|]).
    + split; [by apply open_put|]. unfold taken. rewrite queued_put. cbn [executed Put]. by rewrite app_assoc.
    + by rewrite app_nil_r.
  - unfold AddMessage_delay. rewrite Hs. cbn [negb]. rewrite app_nil_r.
    exists t. by destruct (m_mapLogicList s !! u4LogicID_ e).
  - unfold AddMessage_loop. rewrite Hs. cbn [negb]. rewrite app_nil_r.
    exists t. by destruct (m_mapLogicList s !! u4LogicID_ e).
Qed.

#[local] Instance tms_op_start_dec (o : tms_op) : Decision (o = OStart).
Proof. destruct o; first [by left | by right]. Defined.

(** What an operation does to the thread [id]: of the messages waiting for [Start] (with a
    message sent now, if the flag is not set) some at the front, [x], move to the queue,
    followed by the message sent now, if the flag is set; not both happen at once. *)
Definition moves st o st' id t t' (x : list F) : Prop :=
  m_mapLogicList (fst st') !! id = Some t' ∧ open_task t' ∧
  to_replay st id ++ (if tms_is_start_ (fst st) then [] else sent_op id o) = x ++ to_replay st' id ∧
  taken t' = taken t ++ x ++ (if tms_is_start_ (fst st) then sent_op id o else []) ∧
  (x ≠ [] → tms_is_start_ (fst st) = true ∧ sent_op id o = []) ∧
  tms_is_start_ (fst st') = tms_is_start_ (fst st) || bool_decide (o = OStart).

Lemma moves_same s s' todo o id t : m_mapLogicList s' !! id = Some t → open_task t →
  tms_is_start_ s' = tms_is_start_ s → m_tmsEvents s' = m_tmsEvents s → sent_op id o = [] → o ≠ OStart →
  moves (s, todo) o (s', todo) id t t [].
Proof.
  intros El Ho Es Ee E0 Hns. unfold moves, to_replay. cbn [fst snd].
  rewrite El, Es, Ee, E0, bool_decide_eq_false_2, orb_false_r by done.
  destruct (tms_is_start_ s); rewrite !app_nil_r; by split_and!.
Qed.

Lemma moves_event s todo o id t e : m_mapLogicList s !! id = Some t → open_task t → tms_is_start_ s = false →
  sent_op id o = event_for id e → o ≠ OStart → moves (s, todo) o (add_event s e, todo) id t t [].
Proof.
  intros Ht Ho Hs E0 Hns. unfold moves, to_replay. cbn [fst snd add_event m_mapLogicList tms_is_start_ m_tmsEvents].
  rewrite Hs, E0, map_app, concat_app, bool_decide_eq_false_2 by done. cbn. rewrite !app_nil_r. by split_and!.
Qed.

Lemma moves_put s todo o id t i f : m_mapLogicList s !! id = Some t → open_task t → tms_is_start_ s = true →
  sent_op id o = (if decide (i = id) then [f] else []) → o ≠ OStart →
  ∃ t', moves (s, todo) o (snd (AddMessage s i f), todo) id t t' [].
Proof.
  intros Ht Ho Hs E0 Hns. unfold moves, to_replay. cbn [fst snd]. destruct (AddMessage_started s id f i Hs) as [El Es].
  rewrite El, Es, Hs, E0, Ht, bool_decide_eq_false_2 by done.
  destruct (decide (i = id)); eexists; (split; [reflexivity|]); rewrite ?app_nil_r, ?app_nil_l; split_and!; try done.
  - by apply open_put.
  - unfold taken. rewrite queued_put. cbn [executed Put]. by rewrite app_assoc.
Qed.

Lemma callback_add s i f s' : tms_is_start_ s = true → timer_callback s (i, f) = Ok s' → s' = snd (AddMessage s i f).
Proof.
  intros Hs. unfold timer_callback, AddMessage. rewrite Hs. cbn. destruct (m_mapLogicList s !! i); [|done].
  by intros [= <-].
Qed.

Lemma tms_step_moves s todo o st' id t : o ≠ OClose id → tms_step (s, todo) o = Some st' →
  m_mapLogicList s !! id = Some t → open_task t → (tms_is_start_ s = false → todo = []) →
  ∃ t' x, moves (s, todo) o st' id t t' x.
Proof.
  intros Hno Hst Ht Ho Htodo.
  destruct o as [i tid|i f|tm i ms f|tm i d ms f| |tm|[i f]|i|i]; cbn [tms_step] in Hst.
  - injection Hst as <-. exists t, []. unfold CreateLogic. destruct (m_mapLogicList s !! i) eqn:Ei; apply moves_same; try done.
    cbn. by rewrite lookup_insert_ne by congruence.
  - injection Hst as <-. destruct (tms_is_start_ s) eqn:Hs.
    + destruct (moves_put s todo (OAdd i f) id t i f) as [t' ?]; eauto.
    + exists t, []. unfold AddMessage. rewrite Hs. by apply moves_event.
  - injection Hst as <-. exists t, []. unfold AddMessage_delay. destruct (tms_is_start_ s) eqn:Hs; cbn [negb].
    + destruct (m_mapLogicList s !! i); by apply moves_same.
    + by apply moves_event.
  - injection Hst as <-. exists t, []. unfold AddMessage_loop. destruct (tms_is_start_ s) eqn:Hs; cbn [negb].
    + destruct (m_mapLogicList s !! i); by apply moves_same.
    + by apply moves_event.
  - destruct (tms_is_start_ s) eqn:Hs; [done|]. injection Hst as <-. exists t, []. unfold moves, to_replay. cbn.
    rewrite Hs, !app_nil_r. by split_and!.
  - destruct todo as [|e todo]; [done|]. injection Hst as <-.
    destruct (tms_is_start_ s) eqn:Hs; [|by discriminate Htodo].
    destruct (replay_event_lookup s tm e id t Hs Ht Ho) as (t' & Ht' & Ho' & E).
    exists t', (event_for id e). unfold moves, to_replay. cbn [fst snd sent_op].
    rewrite Ht', (replay_event_started s tm e Hs), Hs, !app_nil_r. cbn. by split_and!.
  - destruct (tms_is_start_ s) eqn:Hs; [|done]. destruct (timer_callback s (i, f)) as [s'|] eqn:Ec; [|done].
    injection Hst as <-. apply callback_add in Ec as ->; [|done].
    destruct (moves_put s todo (OTimer (i, f)) id t i f) as [t' ?]; eauto.
  - unfold thread_step in Hst. destruct (m_mapLogicList s !! i) as [ti|] eqn:Ei; [|done].
    destruct (svc_step ti) as [ti'|] eqn:Esv; [|done]. injection Hst as <-. destruct (decide (i = id)) as [->|Hne].
    + rewrite Ht in Ei. injection Ei as <-. destruct (svc_step_open t ti' Ho Esv) as [Ho' Eq].
      exists ti', []. unfold moves, to_replay. cbn. rewrite lookup_insert_eq, orb_false_r.
      destruct (tms_is_start_ s); rewrite !app_nil_r; by split_and!.
    + exists t, []. apply moves_same; try done. cbn. by rewrite lookup_insert_ne.
  - injection Hst as <-. exists t, []. unfold CloseLogic_begin. assert (i ≠ id) by congruence.
    destruct (m_mapLogicList s !! i) eqn:Ei; apply moves_same; try done. cbn. by rewrite lookup_insert_ne.
Qed.

(** No message for [id] is sent while [Start] is replaying. *)
Fixpoint quiet (id : Z) st (os : list tms_op) : Prop :=
  match os with
  | [] => True
  | o :: os => (snd st ≠ [] → sent_op id o = []) ∧
               match tms_step st o with Some st => quiet id st os | None => True end
  end.

(** The account of the thread [id]: [bef] was sent before [Start] set its flag, [aft] after; with
    [q] nothing was sent while [Start] replayed. *)
Record account (q : Prop) (id : Z) st (bef aft : list F) : Prop := {
  ac_off : tms_is_start_ (fst st) = false → snd st = [] ∧ aft = [];
  ac_thread : ∃ t rep, m_mapLogicList (fst st) !! id = Some t ∧ open_task t ∧
    bef = rep ++ to_replay st id ∧ merge rep aft (taken t) ∧
    (tms_is_start_ (fst st) = false → rep = []) ∧
    (q → taken t = rep ++ aft ∧ (snd st ≠ [] → aft = []));
}.

Lemma tms_step_todo st o st' : tms_step st o = Some st' → o ≠ OStart → snd st' ≠ [] → snd st ≠ [].
Proof.
  destruct st as [s todo]. destruct o; cbn [tms_step]; intros E Hn; repeat case_match; by simplify_eq.
Qed.

Lemma account_step q id st o st' bef aft : o ≠ OClose id → tms_step st o = Some st' → account q id st bef aft →
  (q → snd st ≠ [] → sent_op id o = []) →
  account q id st' (bef ++ if tms_is_start_ (fst st) then [] else sent_op id o)
                   (aft ++ if tms_is_start_ (fst st) then sent_op id o else []).
Proof.
  intros Hno Hst [Hoff (t & rep & Ht & Ho & Hb & Hm & Hr & Hq)] Hquiet. destruct st as [s todo]. cbn [fst snd] in *.
  destruct (tms_step_moves s todo o st' id t Hno Hst Ht Ho) as (t' & x & Ht' & Ho' & Hw & Htk & Hx & Hon); [by intros [? _]%Hoff|].
  cbn [fst] in *. split.
  - rewrite Hon. intros [Hs Hns]%orb_false_iff. rewrite Hs. destruct (Hoff Hs) as [Htodo ->]. split; [|done].
    apply bool_decide_eq_false in Hns. destruct (snd st') eqn:E; [done|].
    exfalso. apply (tms_step_todo _ _ _ Hst Hns); [by rewrite E|done].
  - exists t', (rep ++ x). split_and!; try done.
    + by rewrite Hb, <- app_assoc, Hw, app_assoc.
    + rewrite Htk, app_assoc. by apply merge_rights, merge_lefts.
    + rewrite Hon. intros [Hs _]%orb_false_iff. rewrite (Hr Hs). destruct x; [done|]. destruct (Hx ltac:(done)). congruence.
    + intros Q. destruct (Hq Q) as [Htq Haq]. destruct (decide (x = [])) as [->|Hne].
      * rewrite Htk, Htq, !app_nil_l, app_nil_r, <- app_assoc. split; [done|]. intros Hn.
        destruct (decide (o = OStart)) as [->|Hns].
        -- cbn [tms_step] in Hst. destruct (tms_is_start_ s) eqn:Hs; [done|]. by destruct (Hoff eq_refl) as [_ ->].
        -- pose proof (tms_step_todo _ _ _ Hst Hns Hn) as Hn'. rewrite (Haq Hn'), (Hquiet Q Hn'). by destruct (tms_is_start_ s).
      * destruct (Hx Hne) as [Hs Hsent]. rewrite Hs, Hsent in *. rewrite !app_nil_r in *.
        assert (Htd : todo ≠ []).
        { intros ->. unfold to_replay in Hw. cbn [fst snd] in Hw. rewrite Hs in Hw. cbn in Hw. by destruct x. }
        rewrite Htk, Htq, (Haq Htd), !app_nil_r. by split.
Qed.

Lemma sent_cons id o os : sent id (o :: os) = sent_op id o ++ sent id os.
Proof. done. Qed.

Lemma account_run q id os : ∀ st st' bef aft, tms_run st os = Some st' → OClose id ∉ os → account q id st bef aft →
  (q → quiet id st os) →
  if tms_is_start_ (fst st) then account q id st' bef (aft ++ sent id os)
  else account q id st' (bef ++ sent id (before_start os)) (aft ++ sent id (after_start os)).
Proof.
  induction os as [|o os IH]; intros st st' bef aft; cbn [tms_run].
  - intros [= <-] _ Ha _. unfold sent. cbn. rewrite !app_nil_r. by destruct (tms_is_start_ (fst st)).
  - destruct (tms_step st o) as [st1|] eqn:E; [|done]. intros Hr [Hne Hnc]%not_elem_of_cons Ha Hq.
    assert (Hq1 : q → snd st ≠ [] → sent_op id o = []) by (intros Q; by apply Hq).
    assert (Hq2 : q → quiet id st1 os) by (intros Q; destruct (Hq Q) as [_ Hq0]; by rewrite E in Hq0).
    pose proof (account_step q id st o st1 bef aft ltac:(congruence) E Ha Hq1) as Ha1.
    specialize (IH st1 st' _ _ Hr Hnc Ha1 Hq2).
    assert (Hon : tms_is_start_ (fst st1) = tms_is_start_ (fst st) || bool_decide (o = OStart)).
    { destruct Ha as [Hoff (t & ? & Ht & Ho & _)]. destruct st as [s todo].
      destruct (tms_step_moves s todo o st1 id t ltac:(congruence) E Ht Ho) as (? & ? & _ & _ & _ & _ & _ & ?); [by intros [? _]%Hoff|done]. }
    rewrite Hon in IH. destruct (tms_is_start_ (fst st)) eqn:Hs; cbn [orb] in IH.
    + rewrite sent_cons. rewrite app_nil_r in IH. by rewrite app_assoc.
    + rewrite app_nil_r in IH. destruct (bool_decide_reflect (o = OStart)) as [->|Hns].
      * cbn [sent_op] in IH. rewrite app_nil_r in IH. cbn [before_start after_start]. unfold sent at 1. cbn. by rewrite app_nil_r.
      * rewrite <- app_assoc in IH. by destruct o.
Qed.

(** An open thread empties its queue. *)
Lemma svc_drains q : ∀ t, open_task t → m_thread_queue t = q →
  ∃ n t', nsteps (λ a b, svc_step a = Some b) n t t' ∧ open_task t' ∧ m_thread_queue t' = [] ∧
    executed t' = executed t ++ queued q.
Proof.
  induction q as [|m q IH]; intros t Ho Eq.
  - exists 0%nat, t. rewrite app_nil_r. split_and!; [constructor|done|done|done].
  - assert (∃ n t1, nsteps (λ a b, svc_step a = Some b) n t t1 ∧ open_task t1 ∧ svc_at t1 = AtPop ∧
      m_thread_queue t1 = m :: q ∧ executed t1 = executed t) as (n1 & t1 & Hn1 & Ho1 & Ha1 & Eq1 & Ee1).
    { destruct (svc_at t) eqn:Ea; [|exists 0%nat, t; split_and!; try done; constructor|by destruct Ho as (_ & ? & _)].
      pose proof Ho as (Hr & _ & _). eexists 1%nat, _. split.
      - eapply nsteps_l; [|constructor]. unfold svc_step. by rewrite Ea.
      - rewrite Hr. cbn. by destruct Ho as (_ & _ & ?). }
    pose proof Ho1 as (_ & _ & Hq1). rewrite Eq1 in Hq1. apply Forall_cons in Hq1 as [[f ->] _].
    assert (Estep : svc_step t1 = Some (set_svc t1 q AtTest (executed t1 ++ [f]))).
    { unfold svc_step. rewrite Ha1, Eq1. done. }
    destruct (svc_step_open t1 _ Ho1 Estep) as [Ho2 _].
    destruct (IH _ Ho2 eq_refl) as (n2 & t2 & Hn2 & Ho3 & Eq2 & Ee2).
    exists (n1 + (1 + n2))%nat, t2. split_and!; try done.
    + eapply nsteps_trans; [done|]. eapply nsteps_trans; [|done]. by apply nsteps_once.
    + rewrite Ee2. cbn [executed set_svc queued omap list_omap]. rewrite Ee1. cbn. by rewrite <- app_assoc.
Qed.

End Fifo.
Arguments tms_op : clear implicits.

(** ** Properties *)

(** C26: the messages of a logic thread.  Messages are sent to it before the system is started
    (and buffered), directly, or by timers; the threads, the timers and [Start], which sets its
    flag and then replays the buffered messages one by one, interleave in any way; the thread
    is not told to close ([OClose id]: closing drops what is still queued) and sending a
    message is one step.  Then nothing is lost, duplicated or invented: what the thread has
    executed, followed by its queue, holds the buffered messages that were replayed and the
    messages sent after the flag was set, each of the two in the order of sending; the rest of
    the buffered messages still waits to be replayed.  If no message was sent to the thread
    while [Start] was replaying, the order is that of sending throughout.  And the
    thread, if it goes on, empties its queue in order. *)
Theorem tms_fifo {F} `{!PriorityQueue} t0 id tid (os : list (tms_op F)) st :
  tms_run (TMS_init t0, []) (OCreate id tid :: os) = Some st → OClose id ∉ os →
  ∃ t rep, m_mapLogicList (fst st) !! id = Some t ∧
    let given := executed t ++ queued (m_thread_queue t) in
    sent id (before_start os) = rep ++ to_replay st id ∧
    merge rep (sent id (after_start os)) given ∧
    (quiet id (snd (CreateLogic (TMS_init t0) id tid), []) os →
       given = rep ++ sent id (after_start os)) ∧
    ∃ n t', nsteps (λ a b, svc_step a = Some b) n t t' ∧ m_thread_queue t' = [] ∧ executed t' = given.
Proof.
  intros Hrun Hnc. cbn [tms_run tms_step] in Hrun.
  set (st0 := (snd (CreateLogic (TMS_init t0) id tid), [] : list (CTMS_Event F))) in *.
  assert (Ha : account (quiet id st0 os) id st0 [] []).
  { unfold st0, CreateLogic, TMS_init. cbn. rewrite lookup_empty. cbn. split; [done|].
    exists (task_start tid id), []. cbn. rewrite lookup_insert_eq. split_and!; try done; constructor. }
  pose proof (account_run _ id os st0 st [] [] Hrun Hnc Ha ltac:(done)) as Hfin.
  assert (Hoff : tms_is_start_ (fst st0) = false) by (unfold st0, CreateLogic; cbn; by rewrite lookup_empty).
  rewrite Hoff in Hfin. destruct Hfin as [_ (t & rep & Ht & Ho & Hb & Hm & _ & Hq)].
  exists t, rep. split; [done|]. cbn zeta. split_and!; [done|done|by intros Q; apply Hq|].
  destruct (svc_drains _ t Ho eq_refl) as (n & t' & ? & _ & ? & ?). eauto.
Qed.

(** A message sent while [Start] replays overtakes the buffered ones. *)
Lemma tms_fifo_witness :
  ∃ (st : TMS nat * list (CTMS_Event nat)) t rep,
    tms_run (TMS_init 0, []) [OCreate 1 77; OAdd 1 10%nat; OAdd 1 11%nat; OStart; OReplay 0; OAdd 1 12%nat; OReplay 1; OThread 1; OThread 1] = Some st ∧
    m_mapLogicList (fst st) !! 1 = Some t ∧ executed t = [10%nat] ∧ queued (m_thread_queue t) = [12%nat; 11%nat] ∧
    merge rep [12%nat] (executed t ++ queued (m_thread_queue t)).
Proof.
  destruct (tms_run (TMS_init 0, []) [OCreate 1 77; OAdd 1 10%nat; OAdd 1 11%nat; OStart; OReplay 0; OAdd 1 12%nat; OReplay 1; OThread 1; OThread 1])
    as [st|] eqn:E; [|vm_compute in E; discriminate E].
  destruct (tms_fifo 0 1 77 [OAdd 1 10%nat; OAdd 1 11%nat; OStart; OReplay 0; OAdd 1 12%nat; OReplay 1; OThread 1; OThread 1] st E)
    as (t & rep & Ht & _ & Hm & _).
  { rewrite list_elem_of_In. cbn. intuition congruence. }
  exists st, t, rep. split; [reflexivity|]. split; [done|].
  assert (Hv : executed t = [10%nat] ∧ queued (m_thread_queue t) = [12%nat; 11%nat]).
  { vm_compute in E. injection E as <-. vm_compute in Ht. injection Ht as <-. done. }
  destruct Hv. split_and!; [done|done|exact Hm].
Defined.

(** A delayed message whose thread has been closed before the delay is over makes the
    timer thread dereference a null pointer: the index operator inserts an empty entry. *)
Theorem timer_after_close_faults {F} `{!PriorityQueue} (s : TMS F) id f :
  timer_callback (CloseLogic_end (snd (CloseLogic_begin s id)) id) (id, f) = Fault.
Proof.
  unfold timer_callback, CloseLogic_end. cbn [set_logic m_mapLogicList fst]. by rewrite lookup_delete_eq.
Qed.
