(* ===== verification/Modules.v ===== *)
(** * Plugin modules and the dispatch of messages to them

    The registration object handed to a plugin (src/PSS_ASIO/Common/FrameObject.hpp), the
    module loader (src/PSS_ASIO/Message/LoadModule.{h,cpp}), the asynchronous dispatch table
    of a work thread (ModuleInterfalce.{h,cpp}) and the synchronous one (SyncLogic.{h,cpp}).

    Plugins are shared libraries built outside the program: they are a parameter, the function
    [dlopen] from file names to the functions a library exports.  [W] is whatever state the
    plugins keep; each exported function may change it.  A function object is never empty here:
    a plugin registers real functions. *)

From Stdlib Require Import ZArith Lia.
From S2P Require Import Prelude Define.
From stdpp Require Import base numbers list gmap strings.
Local Open Scope Z_scope.

Inductive EM_LOGIC_RUN_STATE := LOGIC_RUN_SYNCHRONOUS | LOGIC_RUN_ASYNHRONOUS.
Inductive ENUM_LOGIC_COMMAND_TYPE := COMMAND_TYPE_NO_FN | COMMAND_TYPE_YES_FN.

#[export] Instance EM_LOGIC_RUN_STATE_eq_dec : EqDecision EM_LOGIC_RUN_STATE.
Proof. solve_decision. Defined.

(** A packet from [make_shared]; the source leaves its command id uninitialised. *)
Definition fresh_packet : CMessage_Packet := mkPacket [] [] 0.

Section Modules.

Context {W : Type}.

(** A handler may change the packets it is given a pointer to: it returns its code, the
    received packet, the packet to send and the plugins' state. *)
Definition Logic_message_dispose_fn : Type :=
  W → CMessage_Source → CMessage_Packet → CMessage_Packet → Z * CMessage_Packet * CMessage_Packet * W.
Definition dispose (f : Logic_message_dispose_fn) (w : W) (source : CMessage_Source) (recv send : CMessage_Packet)
  : Z * CMessage_Packet * CMessage_Packet * W := f w source recv send.
Definition module_run_fn : Type := W → CMessage_Packet → CMessage_Packet → Z * CMessage_Packet * CMessage_Packet * W.

(** ** CFrame_Object *)

Record CLogic_Command_Info := mkCommandInfo {
  logic_run_state_ : EM_LOGIC_RUN_STATE;
  ctype_ : ENUM_LOGIC_COMMAND_TYPE;
  info_command_id_ : Z;
  logic_fn_ : option Logic_message_dispose_fn;
}.

Record CFrame_Object := mkFrame {
  module_command_list_ : list CLogic_Command_Info;
  fo_session_service_ : option Z;
}.

Definition Regedit_command (fo : CFrame_Object) (command_id : Z) (em_logic_state : EM_LOGIC_RUN_STATE)
  : bool * CFrame_Object :=
  (true, mkFrame (module_command_list_ fo ++ [mkCommandInfo em_logic_state COMMAND_TYPE_NO_FN command_id None])
           (fo_session_service_ fo)).
Definition Regedit_command_fn (fo : CFrame_Object) (command_id : Z) (logic_fn : Logic_message_dispose_fn)
    (em_logic_state : EM_LOGIC_RUN_STATE) : bool * CFrame_Object :=
  (true, mkFrame (module_command_list_ fo ++
                  [mkCommandInfo em_logic_state COMMAND_TYPE_YES_FN command_id (Some logic_fn)])
           (fo_session_service_ fo)).
Definition get_session_service (fo : CFrame_Object) : option Z := fo_session_service_ fo.

(** ** Libraries *)

(** What [dlsym] finds under the names the loader asks for. *)
Record library := mkLibrary {
  lib_load_module : option (CFrame_Object → string → W → Z * CFrame_Object * W);
  lib_unload_module : option (W → W);
  lib_do_module_message : option Logic_message_dispose_fn;
  lib_module_state : option (W → bool * Z);
  lib_set_output : option (W → W);
  lib_module_run : option module_run_fn;
}.

Context (dlopen : string → option library).

Record ModuleInfo := mkModuleInfo {
  module_file_name_ : string;
  module_file_path_ : string;
  module_param_ : string;
  load_module_ : CFrame_Object → string → W → Z * CFrame_Object * W;
  unload_module_ : W → W;
  do_message_ : Logic_message_dispose_fn;
  module_run_finction_ptr_ : option module_run_fn;
  command_id_list_ : list Z;
}.

(** ** CLoadModule *)

(** [world] is the plugins' state, [open_handles] the libraries opened and not closed. *)
Record CLoadModule := mkLoadModule {
  module_list_ : gmap string ModuleInfo;
  module_name_list_ : list string;
  command_to_module_function_ : gmap Z Logic_message_dispose_fn;
  command_to_session_function_ : gmap Z Logic_message_dispose_fn;
  plugin_name_to_module_run_ : gmap string (option module_run_fn);
  session_service_ : option Z;
  world : W;
  open_handles : list string;
}.

Definition CLoadModule_new (w : W) : CLoadModule := mkLoadModule ∅ [] ∅ ∅ ∅ None w [].

Definition set_session_service (s : CLoadModule) (session_service : option Z) : CLoadModule :=
  mkLoadModule (module_list_ s) (module_name_list_ s) (command_to_module_function_ s)
    (command_to_session_function_ s) (plugin_name_to_module_run_ s) session_service (world s) (open_handles s).

Definition set_world (s : CLoadModule) (w : W) (h : list string) : CLoadModule :=
  mkLoadModule (module_list_ s) (module_name_list_ s) (command_to_module_function_ s)
    (command_to_session_function_ s) (plugin_name_to_module_run_ s) (session_service_ s) w h.

(** The function a registration stands for: the plugin's general handler, or its own. *)
Definition command_function (c : CLogic_Command_Info) (m : ModuleInfo) : Logic_message_dispose_fn :=
  match ctype_ c, logic_fn_ c with
  | COMMAND_TYPE_YES_FN, Some f => f
  | _, _ => do_message_ m
  end.

Definition add_command_to_module_function (s : CLoadModule) (c : CLogic_Command_Info) (m : ModuleInfo) : CLoadModule :=
  mkLoadModule (module_list_ s) (module_name_list_ s)
    (<[info_command_id_ c := command_function c m]> (command_to_module_function_ s))
    (command_to_session_function_ s) (plugin_name_to_module_run_ s) (session_service_ s) (world s) (open_handles s).
Definition add_command_to_session_function (s : CLoadModule) (c : CLogic_Command_Info) (m : ModuleInfo) : CLoadModule :=
  mkLoadModule (module_list_ s) (module_name_list_ s) (command_to_module_function_ s)
    (<[info_command_id_ c := command_function c m]> (command_to_session_function_ s))
    (plugin_name_to_module_run_ s) (session_service_ s) (world s) (open_handles s).

(** [load_module_info]: opens the library and looks its functions up; the table of functions,
    or nothing.  [module_run] may be missing. *)
Definition load_module_info (s : CLoadModule) (path name param : string) : option ModuleInfo * CLoadModule :=
  match dlopen (path ++ name) with
  | None => (None, s)
  | Some lib =>
      let s := set_world s (world s) (open_handles s ++ [name]) in
      match lib_load_module lib, lib_unload_module lib, lib_do_module_message lib, lib_module_state lib,
            lib_set_output lib with
      | Some ld, Some ul, Some dm, Some _, Some so =>
          (Some (mkModuleInfo name path param ld ul dm (lib_module_run lib) []), set_world s (so (world s)) (open_handles s))
      | _, _, _, _, _ => (None, s)
      end
  end.

(** The loop over the commands a plugin registered. *)
Fixpoint register_commands (s : CLoadModule) (m : ModuleInfo) (cs : list CLogic_Command_Info)
  : CLoadModule * ModuleInfo :=
  match cs with
  | [] => (s, m)
  | c :: cs =>
      let s := match logic_run_state_ c with
               | LOGIC_RUN_ASYNHRONOUS => add_command_to_module_function s c m
               | LOGIC_RUN_SYNCHRONOUS => add_command_to_session_function s c m
               end in
      register_commands s
        (mkModuleInfo (module_file_name_ m) (module_file_path_ m) (module_param_ m) (load_module_ m) (unload_module_ m)
           (do_message_ m) (module_run_finction_ptr_ m) (command_id_list_ m ++ [info_command_id_ c])) cs
  end.

Definition load_plugin_module (s : CLoadModule) (path name param : string) : bool * CLoadModule :=
  match load_module_info s path name param with
  | (None, s) => (false, s)
  | (Some m, s) =>
      match module_list_ s !! name with
      | Some _ => (false, s)
      | None =>
          let '(nRet, fo, w) := load_module_ m (mkFrame [] (session_service_ s)) param (world s) in
          let s := set_world s w (open_handles s) in
          if negb (nRet =? 0) then (false, s)
          else
            let '(s, m) := register_commands s m (module_command_list_ fo) in
            (true, mkLoadModule (<[name := m]> (module_list_ s)) (module_name_list_ s ++ [name])
                     (command_to_module_function_ s) (command_to_session_function_ s)
                     (<[name := module_run_finction_ptr_ m]> (plugin_name_to_module_run_ s)) (session_service_ s)
                     (world s) (open_handles s))
      end
  end.

(** [std::remove] and [erase]. *)
Definition delete_module_name_list (s : CLoadModule) (name : string) : list string :=
  filter (fun n => n ≠ name) (module_name_list_ s).

(** [dlclose] of one handle of the library. *)
Fixpoint close_handle (name : string) (h : list string) : list string :=
  match h with
  | [] => []
  | x :: h => if decide (x = name) then h else x :: close_handle name h
  end.

Definition unload_plugin_module (s : CLoadModule) (name : string) (is_delete : bool) : bool * CLoadModule :=
  match module_list_ s !! name with
  | None => (false, s)
  | Some m =>
      let cmds := foldl (fun t c => delete c t) (command_to_module_function_ s) (command_id_list_ m) in
      let w := unload_module_ m (world s) in
      let h := close_handle name (open_handles s) in
      if is_delete
      then (true, mkLoadModule (delete name (module_list_ s)) (delete_module_name_list s name) cmds
                    (command_to_session_function_ s) (plugin_name_to_module_run_ s) (session_service_ s) w h)
      else (true, mkLoadModule (module_list_ s) (module_name_list_ s) cmds
                    (command_to_session_function_ s) (plugin_name_to_module_run_ s) (session_service_ s) w h)
  end.

(** [Close]: every module is unloaded, in the order of the hash table. *)
Definition close_modules (ms : list (string * ModuleInfo)) (w : W) (h : list string) : W * list string :=
  foldl (fun '(w, h) '(n, m) => (unload_module_ m w, close_handle n h)) (w, h) ms.
Definition CLoadModule_Close (s : CLoadModule) : CLoadModule :=
  let '(w, h) := close_modules (map_to_list (module_list_ s)) (world s) (open_handles s) in
  mkLoadModule ∅ [] ∅ (command_to_session_function_ s) (plugin_name_to_module_run_ s) (session_service_ s) w h.

(** The queries. *)
Definition get_module_count (s : CLoadModule) : Z := i32 (Z.of_nat (size (module_list_ s))).
Definition find_module_info (s : CLoadModule) (name : string) : option ModuleInfo := module_list_ s !! name.
Definition get_module_exist (s : CLoadModule) (name : string) : bool :=
  match module_list_ s !! name with Some _ => true | None => false end.
(** A null pointer is turned into a string when the module is unknown. *)
Definition get_module_param (s : CLoadModule) (name : string) : outcome string :=
  match module_list_ s !! name with Some m => Ok (module_param_ m) | None => Fault end.
Definition get_module_file_path (s : CLoadModule) (name : string) : outcome string :=
  match module_list_ s !! name with Some m => Ok (module_file_path_ m) | None => Fault end.
Definition get_all_module_name (s : CLoadModule) : list string := module_name_list_ s.
Definition get_module_function_list (s : CLoadModule) := command_to_module_function_ s.
Definition get_session_function_list (s : CLoadModule) := command_to_session_function_ s.

(** A call from one plugin to another. *)
Definition plugin_in_name_to_module_run (s : CLoadModule) (name : string) (send return_packet : CMessage_Packet)
  : outcome (Z * CMessage_Packet * CMessage_Packet * CLoadModule) :=
  match plugin_name_to_module_run_ s !! name with
  | Some (Some f) =>
      let '(ret, send, return_packet, w) := f (world s) send return_packet in
      Ok (ret, send, return_packet, set_world s w (open_handles s))
  | Some None => Fault
  | None => Ok (-1, send, return_packet, s)
  end.

(** ** CModuleInterface and CSyncLogic *)

Notation command_table := (gmap Z Logic_message_dispose_fn).

Definition copy_from_module_list (old new : command_table) : command_table := new.
Definition close_interface (t : command_table) : command_table := ∅.

(** [do_module_message]; -1 for an unknown command. *)
Definition do_module_message (t : command_table) (w : W) (source : CMessage_Source) (recv send : CMessage_Packet)
  : Z * CMessage_Packet * CMessage_Packet * W :=
  match t !! command_id_ recv with
  | Some f => dispose f w source recv send
  | None => (-1, recv, send, w)
  end.

Definition CSyncLogic_Init (old new : command_table) : command_table := new.
Definition CSyncLogic_Close (t : command_table) : command_table := ∅.

Definition do_sync_message (t : command_table) (w : W) (command_id : Z) (source : CMessage_Source)
    (recv send : CMessage_Packet) : bool * CMessage_Packet * W :=
  match t !! command_id with
  | None => (false, send, w)
  | Some f => let '(_, _, send, w) := dispose f w source recv send in (true, send, w)
  end.

(** [std::remove_if] applies the predicate once to every element, from the front. *)
Fixpoint remove_sync (t : command_table) (w : W) (source : CMessage_Source) (l : list CMessage_Packet)
    (send : CMessage_Packet) : list CMessage_Packet * CMessage_Packet * W :=
  match l with
  | [] => ([], send, w)
  | p :: l =>
      let '(hit, send, w) := do_sync_message t w (command_id_ p) source p send in
      let '(rest, send, w) := remove_sync t w source l send in
      (if hit then rest else p :: rest, send, w)
  end.
Definition do_sync_message_list (t : command_table) (w : W) (source : CMessage_Source) (l : list CMessage_Packet)
    (send : CMessage_Packet) : list CMessage_Packet * CMessage_Packet * W :=
  if bool_decide (size t = 0%nat) then (l, send, w) else remove_sync t w source l send.

End Modules.
Arguments Logic_message_dispose_fn : clear implicits.
Arguments CLogic_Command_Info : clear implicits.
Arguments CFrame_Object : clear implicits.
Arguments library : clear implicits.
Arguments ModuleInfo : clear implicits.
Arguments CLoadModule : clear implicits.
Arguments module_run_fn : clear implicits.

(** ** Registration *)
Section ModuleLemmas.

Context {W : Type} (dlopen : string → option (library W)).
Implicit Types (s : CLoadModule W) (m : ModuleInfo W) (cs : list (CLogic_Command_Info W)).

(** The last registration of a command in the given mode. *)
Definition last_reg (st : EM_LOGIC_RUN_STATE) cs (c : Z) : option (CLogic_Command_Info W) :=
  last (filter (fun r => logic_run_state_ r = st ∧ info_command_id_ r = c) cs).

(** A table after the registrations: the last one wins. *)
Definition updated (st : EM_LOGIC_RUN_STATE) m cs (old : gmap Z (Logic_message_dispose_fn W)) (c : Z) :
    option (Logic_message_dispose_fn W) :=
  match last_reg st cs c with Some r => Some (command_function r m) | None => old !! c end.

Definition with_ids m (ids : list Z) : ModuleInfo W :=
  mkModuleInfo (module_file_name_ m) (module_file_path_ m) (module_param_ m) (load_module_ m) (unload_module_ m)
    (do_message_ m) (module_run_finction_ptr_ m) ids.

Lemma last_reg_cons st r cs c : last_reg st (r :: cs) c =
  match last_reg st cs c with
  | Some r' => Some r'
  | None => if decide (logic_run_state_ r = st ∧ info_command_id_ r = c) then Some r else None
  end.
Proof.
  unfold last_reg. rewrite filter_cons. destruct (decide _); [rewrite last_cons|]; by destruct (last _).
Qed.

(** One step of the loop on the table it writes, and on the other one. *)
Lemma updated_cons_hit m r cs t c : updated (logic_run_state_ r) m cs (<[info_command_id_ r := command_function r m]> t) c =
  updated (logic_run_state_ r) m (r :: cs) t c.
Proof.
  unfold updated. rewrite last_reg_cons. destruct (last_reg _ cs c); [done|].
  destruct (decide (info_command_id_ r = c)) as [->|Hne].
  - by rewrite lookup_insert_eq, decide_True.
  - rewrite lookup_insert_ne by done. by rewrite decide_False by tauto.
Qed.
Lemma updated_cons_miss st m r cs t c : logic_run_state_ r ≠ st → updated st m (r :: cs) t c = updated st m cs t c.
Proof. intros H. unfold updated. rewrite last_reg_cons. destruct (last_reg _ cs c); [done|]. by rewrite decide_False by tauto. Qed.

Lemma updated_ids st m ids cs t c : updated st (with_ids m ids) cs t c = updated st m cs t c.
Proof. unfold updated. by destruct (last_reg st cs c). Qed.

(** The loop touches nothing but the two tables. *)
Definition same_rest s s' : Prop :=
  module_list_ s' = module_list_ s ∧ module_name_list_ s' = module_name_list_ s ∧
  plugin_name_to_module_run_ s' = plugin_name_to_module_run_ s ∧ session_service_ s' = session_service_ s ∧
  world s' = world s ∧ open_handles s' = open_handles s.

Lemma register_commands_spec cs : ∀ s m s' m', register_commands s m cs = (s', m') →
  same_rest s s' ∧ m' = with_ids m (command_id_list_ m ++ map info_command_id_ cs) ∧
  (∀ c, command_to_module_function_ s' !! c = updated LOGIC_RUN_ASYNHRONOUS m cs (command_to_module_function_ s) c) ∧
  (∀ c, command_to_session_function_ s' !! c = updated LOGIC_RUN_SYNCHRONOUS m cs (command_to_session_function_ s) c).
Proof.
  induction cs as [|r cs IH]; intros s m s' m'; cbn [register_commands].
  - intros [= <- <-]. rewrite app_nil_r. split; [by split_and!|]. split; [by destruct m|]. done.
  - intros H. apply IH in H as (Hr & -> & Ha & Hs).
    split; [by destruct (logic_run_state_ r)|]. split; [cbn; by rewrite <- app_assoc|].
    split; intros c; [rewrite Ha|rewrite Hs]; change (mkModuleInfo _ _ _ _ _ _ _ ?l) with (with_ids m l);
      rewrite updated_ids; destruct (logic_run_state_ r) eqn:E;
      try (symmetry; apply updated_cons_miss; congruence); rewrite <- E; apply updated_cons_hit.
Qed.

Lemma updated_None st m cs t c : is_Some (updated st m cs t c) → c ∈ map info_command_id_ cs ∨ is_Some (t !! c).
Proof.
  unfold updated. destruct (last_reg st cs c) as [r|] eqn:E; [|by right]. intros _. left.
  unfold last_reg in E. apply last_Some_elem_of, list_elem_of_filter in E as [[_ <-] Hin].
  apply list_elem_of_fmap. eauto.
Qed.

(** What a failed load leaves alone. *)
Definition registry s :=
  (module_list_ s, module_name_list_ s, command_to_module_function_ s, command_to_session_function_ s,
   plugin_name_to_module_run_ s).

Lemma load_info_registry s path name param r s' :
  load_module_info dlopen s path name param = (r, s') → registry s' = registry s ∧ session_service_ s' = session_service_ s.
Proof. unfold load_module_info. intros. repeat case_match; by simplify_eq. Qed.

Lemma load_info_Some s path name param m s' :
  load_module_info dlopen s path name param = (Some m, s') →
  ∃ lib, dlopen (path ++ name)%string = Some lib ∧ lib_load_module lib = Some (load_module_ m) ∧
    lib_unload_module lib = Some (unload_module_ m) ∧ lib_do_module_message lib = Some (do_message_ m) ∧
    is_Some (lib_module_state lib) ∧ is_Some (lib_set_output lib) ∧
    lib_module_run lib = module_run_finction_ptr_ m ∧ module_file_name_ m = name ∧ command_id_list_ m = [].
Proof. unfold load_module_info. intros. repeat case_match; simplify_eq. eexists. split_and!; try done; eauto. Qed.

(** ** The registry *)

Inductive module_op :=
| MLoad (path name param : string)
| MUnload (name : string) (is_delete : bool)
| MClose.

Definition module_step s (o : module_op) : CLoadModule W :=
  match o with
  | MLoad path name param => snd (load_plugin_module dlopen s path name param)
  | MUnload name is_delete => snd (unload_plugin_module s name is_delete)
  | MClose => CLoadModule_Close s
  end.

Record registry_ok s : Prop := {
  reg_names_nodup : NoDup (module_name_list_ s);
  reg_names n : n ∈ module_name_list_ s ↔ is_Some (module_list_ s !! n);
  reg_self n m : module_list_ s !! n = Some m → module_file_name_ m = n;
  reg_commands c : is_Some (command_to_module_function_ s !! c) →
    ∃ n m, module_list_ s !! n = Some m ∧ c ∈ command_id_list_ m;
}.

Lemma registry_ok_ext s s' : registry s' = registry s → registry_ok s → registry_ok s'.
Proof. unfold registry. intros [= E1 E2 E3 E4 E5] [H1 H2 H3 H4]. split; by rewrite ?E1, ?E2, ?E3. Qed.

Lemma load_ok s path name param : registry_ok s → registry_ok (snd (load_plugin_module dlopen s path name param)).
Proof.
  intros Hok. unfold load_plugin_module.
  destruct (load_module_info dlopen s path name param) as [[m|] s1] eqn:E1; apply load_info_registry in E1 as Hr;
    destruct Hr as [Hr _]; [|by apply (registry_ok_ext s)].
  apply load_info_Some in E1 as (lib & _ & _ & _ & _ & _ & _ & _ & Hname & Hids).
  apply (registry_ok_ext s s1 Hr) in Hok. clear Hr.
  destruct (module_list_ s1 !! name) eqn:E2; [done|].
  destruct (load_module_ m _ param _) as [[nRet fo] w].
  destruct (negb (nRet =? 0)); [by apply (registry_ok_ext s1)|].
  destruct (register_commands _ m _) as [s2 m2] eqn:E3. apply register_commands_spec in E3 as ((El & En & _) & -> & Ha & _).
  cbn in El, En, Ha. destruct Hok as [H1 H2 H3 H4]. cbn. split; cbn.
  - rewrite En. apply NoDup_app. split_and!; [done| |apply NoDup_singleton].
    intros n Hn ->%list_elem_of_singleton. apply H2 in Hn. rewrite E2 in Hn. by destruct Hn.
  - intros n. rewrite En, El, elem_of_app, list_elem_of_singleton, H2.
    destruct (decide (name = n)) as [->|]; [rewrite lookup_insert_eq|rewrite lookup_insert_ne by done]; naive_solver.
  - intros n m'. rewrite El. destruct (decide (name = n)) as [->|]; [rewrite lookup_insert_eq|rewrite lookup_insert_ne by done].
    + by intros [= <-].
    + apply H3.
  - intros c. rewrite Ha, El. intros [Hc|Hc]%updated_None.
    + exists name, (with_ids m (command_id_list_ m ++ map info_command_id_ (module_command_list_ fo))).
      rewrite lookup_insert_eq. cbn. by rewrite Hids.
    + apply H4 in Hc as (n & m' & Hn & Hc). exists n, m'. rewrite lookup_insert_ne by congruence. done.
Qed.

Lemma foldl_delete_lookup {A} (l : list Z) : ∀ (t : gmap Z A) c,
  foldl (fun t c => delete c t) t l !! c = if decide (c ∈ l) then None else t !! c.
Proof.
  induction l as [|x l IH]; intros t c; [done|]. cbn [foldl]. rewrite IH.
  destruct (decide (c ∈ l)); [by rewrite decide_True by (by right)|].
  destruct (decide (c = x)) as [->|].
  - by rewrite lookup_delete_eq, decide_True by left.
  - rewrite lookup_delete_ne by done. rewrite decide_False; [done|]. by rewrite elem_of_cons; intros [|].
Qed.

Lemma unload_ok s name d : registry_ok s → registry_ok (snd (unload_plugin_module s name d)).
Proof.
  intros [H1 H2 H3 H4]. unfold unload_plugin_module. destruct (module_list_ s !! name) as [m|] eqn:E; [|done].
  assert (Hc : ∀ c, is_Some (foldl (λ t c, delete c t) (command_to_module_function_ s) (command_id_list_ m) !! c) →
    ∃ n m', module_list_ s !! n = Some m' ∧ c ∈ command_id_list_ m' ∧ n ≠ name).
  { intros c. rewrite foldl_delete_lookup. destruct (decide _) as [|Hnin]; [by intros []|].
    intros (n & m' & Hn & Hin)%H4. exists n, m'. split_and!; try done. intros ->. congruence. }
  destruct d; cbn; split; cbn; try done.
  - by apply NoDup_filter.
  - intros n. unfold delete_module_name_list. rewrite list_elem_of_filter, H2.
    destruct (decide (name = n)) as [->|]; [rewrite lookup_delete_eq|rewrite lookup_delete_ne by done].
    + split; [by intros []|by intros []].
    + naive_solver.
  - intros n m'. rewrite lookup_delete_Some. intros [_ ?]. by apply H3.
  - intros c (n & m' & Hn & Hin & Hne)%Hc. exists n, m'. by rewrite lookup_delete_ne.
  - intros c (n & m' & Hn & Hin & _)%Hc. eauto.
Qed.

Lemma close_ok s : registry_ok (CLoadModule_Close s).
Proof.
  unfold CLoadModule_Close. destruct (close_modules _ _ _) as [w h]. split; cbn.
  - constructor.
  - intros n. rewrite lookup_empty. split; [by intros ?%not_elem_of_nil|by intros []].
  - intros n m. by rewrite lookup_empty.
  - intros c. rewrite lookup_empty. by intros [].
Qed.

Lemma new_ok w : registry_ok (CLoadModule_new (W:=W) w).
Proof.
  split; cbn.
  - constructor.
  - intros n. rewrite lookup_empty. split; [by intros ?%not_elem_of_nil|by intros []].
  - intros n m. by rewrite lookup_empty.
  - intros c. rewrite lookup_empty. by intros [].
Qed.

Lemma module_steps_ok os : ∀ s, registry_ok s → registry_ok (foldl module_step s os).
Proof.
  induction os as [|o os IH]; intros s Hs; [done|]. apply IH. destruct o; [by apply load_ok|by apply unload_ok|apply close_ok].
Qed.

(** ** Synchronous dispatch *)

(** The handlers of the synchronous messages, run in order. *)
Definition run_sync (t : gmap Z (Logic_message_dispose_fn W)) (source : CMessage_Source)
    : CMessage_Packet * W → list CMessage_Packet → CMessage_Packet * W :=
  foldl (fun '(send, w) p => match t !! command_id_ p with
                             | Some f => let '(_, _, send, w) := dispose f w source p send in (send, w)
                             | None => (send, w)
                             end).

Definition is_sync (t : gmap Z (Logic_message_dispose_fn W)) (p : CMessage_Packet) : Prop := is_Some (t !! command_id_ p).
#[export] Instance is_sync_dec t p : Decision (is_sync t p).
Proof. unfold is_sync. apply _. Defined.

Lemma do_sync_list_spec t w source l send :
  do_sync_message_list t w source l send =
  let '(send', w') := run_sync t source (send, w) (filter (is_sync t) l) in
  (filter (fun p => ¬ is_sync t p) l, send', w').
Proof.
  assert (Hr : ∀ w send, remove_sync t w source l send =
    let '(send', w') := run_sync t source (send, w) (filter (is_sync t) l) in
    (filter (fun p => ¬ is_sync t p) l, send', w')).
  { induction l as [|p l IH]; intros w0 send0; [done|]. cbn [remove_sync]. unfold do_sync_message.
    rewrite !filter_cons. destruct (decide (is_sync t p)) as [[f Hf]|Hn].
    - rewrite Hf, decide_False by (intros H; apply H; by exists f).
      destruct (dispose f w0 source p send0) as [[[? ?] send1] w1] eqn:E. rewrite IH. cbn [run_sync foldl]. rewrite Hf, E.
      unfold run_sync. by destruct (foldl _ _ _).
    - assert (t !! command_id_ p = None) as -> by (apply eq_None_not_Some; exact Hn).
      rewrite decide_True by done. rewrite IH. by destruct (run_sync _ _ _ _). }
  unfold do_sync_message_list. case_bool_decide as Hsz; [|done].
  apply map_size_empty_inv in Hsz as ->.
  assert (Hno : ∀ p, ¬ is_sync ∅ p) by (intros p [? H]; by rewrite lookup_empty in H).
  clear Hr. assert (filter (is_sync ∅) l = [] ∧ filter (λ p, ¬ is_sync ∅ p) l = l) as [-> ->]; [|done].
  induction l as [|p l [IH1 IH2]]; [done|]. rewrite !filter_cons, decide_False, decide_True by done.
  by rewrite IH1, IH2.
Qed.

End ModuleLemmas.
Arguments module_op : clear implicits.

(** ** Properties *)

(** Loading a plugin either registers it completely or leaves the registry alone.  A
    successful load opened a library with all the functions that are called later, its
    [load_module] returned 0 and its name was not taken; afterwards each command maps to the
    function of the plugin's last registration of it in the table of its mode, every other
    entry of both tables is unchanged, and the module is listed once more by name with
    exactly the command ids it registered. *)
Theorem load_plugin_module_registers {W} dlopen (s : CLoadModule W) path name param :
  let '(ok, s') := load_plugin_module dlopen s path name param in
  if ok then
    ∃ lib m fo w, dlopen (path ++ name)%string = Some lib ∧ module_list_ s !! name = None ∧
      lib_load_module lib = Some (load_module_ m) ∧ lib_unload_module lib = Some (unload_module_ m) ∧
      lib_do_module_message lib = Some (do_message_ m) ∧
      load_module_ m (mkFrame [] (session_service_ s)) param w = (0, fo, world s') ∧
      (∀ c, command_to_module_function_ s' !! c =
        updated LOGIC_RUN_ASYNHRONOUS m (module_command_list_ fo) (command_to_module_function_ s) c) ∧
      (∀ c, command_to_session_function_ s' !! c =
        updated LOGIC_RUN_SYNCHRONOUS m (module_command_list_ fo) (command_to_session_function_ s) c) ∧
      module_list_ s' = <[name := with_ids m (map info_command_id_ (module_command_list_ fo))]> (module_list_ s) ∧
      module_name_list_ s' = module_name_list_ s ++ [name]
  else registry s' = registry s.
Proof.
  unfold load_plugin_module.
  destruct (load_module_info dlopen s path name param) as [[m|] s1] eqn:E1;
    apply load_info_registry in E1 as Hr; destruct Hr as [Hr Hs]; [|done].
  apply load_info_Some in E1 as (lib & Hlib & Hld & Hul & Hdm & _ & _ & _ & _ & Hids).
  destruct (module_list_ s1 !! name) eqn:E2; [done|].
  destruct (load_module_ m _ param _) as [[nRet fo] w] eqn:E3.
  destruct (Z.eqb_spec nRet 0) as [->|]; cbn [negb]; [|done].
  destruct (register_commands _ m _) as [s2 m2] eqn:E4.
  apply register_commands_spec in E4 as ((El & En & _ & _ & Ew & _) & -> & Ha & Hss).
  unfold registry in Hr. injection Hr as R1 R2 R3 R4 R5. cbn in *. rewrite Hids in *. cbn in *.
  exists lib, m, fo, (world s1). rewrite <- Hs, <- R1, <- R2, <- R3, <- R4, Ew, El, En. by split_and!.
Qed.

(** After any sequence of loads, unloads and closes the module list and the list of
    names agree and have no duplicates, and every command in the asynchronous table was
    registered by a module that is listed; removing a module takes all the commands it
    registered out of dispatch, those another module registered too, so that they are answered
    with -1, and its name out of the list. *)
Theorem module_registry_sound {W} dlopen (w : W) (os : list module_op) name m recv source send w' :
  let s := foldl (module_step dlopen) (CLoadModule_new w) os in
  NoDup (module_name_list_ s) ∧
  (∀ n, n ∈ module_name_list_ s ↔ is_Some (module_list_ s !! n)) ∧
  (∀ c, is_Some (command_to_module_function_ s !! c) →
     ∃ n m, module_list_ s !! n = Some m ∧ module_file_name_ m = n ∧ c ∈ command_id_list_ m) ∧
  (module_list_ s !! name = Some m → command_id_ recv ∈ command_id_list_ m →
   do_module_message (command_to_module_function_ (snd (unload_plugin_module s name true))) w' source recv send =
     (-1, recv, send, w') ∧
   name ∉ module_name_list_ (snd (unload_plugin_module s name true))).
Proof.
  intros s. pose proof (module_steps_ok dlopen os _ (new_ok w)) as Hok. fold s in Hok.
  split_and!; [apply Hok|apply Hok| |].
  - intros c Hc. destruct (reg_commands _ Hok c Hc) as (n & m' & Hn & Hin). exists n, m'.
    split_and!; [done|by apply (reg_self _ Hok)|done].
  - intros Hm Hin. unfold unload_plugin_module. rewrite Hm. cbn. split.
    + unfold do_module_message. by rewrite foldl_delete_lookup, decide_True by done.
    + unfold delete_module_name_list. rewrite list_elem_of_filter. tauto.
Qed.

Definition demo_lib : library unit :=
  mkLibrary (Some (fun fo _ w => (0, snd (Regedit_command fo 4097 LOGIC_RUN_ASYNHRONOUS), w))) (Some (fun w => w))
    (Some (fun w _ recv send => (0, recv, recv, w))) (Some (fun w => (true, 0))) (Some (fun w => w)) None.
Definition demo_dlopen (file : string) : option (library unit) :=
  if decide (file = "./libTest_Logic.so") then Some demo_lib else None.

Lemma module_registry_sound_witness :
  ∃ m, module_list_ (foldl (module_step demo_dlopen) (CLoadModule_new tt) [MLoad "./" "libTest_Logic.so" ""])
         !! "libTest_Logic.so" = Some m ∧
    do_module_message (command_to_module_function_ (snd (unload_plugin_module
      (foldl (module_step demo_dlopen) (CLoadModule_new tt) [MLoad "./" "libTest_Logic.so" ""]) "libTest_Logic.so" true)))
      tt CMessage_Source_default (mkPacket [] [1] 4097) fresh_packet = (-1, mkPacket [] [1] 4097, fresh_packet, tt).
Proof.
  eexists. split; [vm_compute; reflexivity|].
  eapply (module_registry_sound demo_dlopen tt [MLoad "./" "libTest_Logic.so" ""] "libTest_Logic.so").
  - vm_compute. reflexivity.
  - vm_compute. left.
Defined.
