(* ===== verification/Communication.v ===== *)
(** * Connections to other servers (src/PSS_ASIO/Common/CommunicationService.{h,cpp})

    [CCommunicationService] keeps the configured peer servers, the connection each one has,
    and the peers a connection attempt is under way for.  [ICommunicationInterface] is what it
    promises to the work threads (src/PSS_ASIO/Common/ICommunicationService.h).

    Starting a client session (TCP, UDP or serial) is a parameter: the [n]-th start returns the
    session, whether it succeeded, and the connection ids it reported before it returned (UDP and
    serial clients register themselves at once, a TCP client later or never). *)

From Stdlib Require Import ZArith Lia.
From S2P Require Import Prelude Define SessionTable.
From stdpp Require Import base numbers list gmap strings.
Local Open Scope Z_scope.

(** ** The interface *)

Class ICommunicationInterface (comm : Type) := {
  comm_add_connect : comm → CConnect_IO_Info → EM_CONNECT_IO_TYPE → bool * comm;
  comm_set_connect_id : comm → Z → Z → comm;
  comm_get_connect_id : comm → Z → Z;
  comm_get_server_id : comm → Z → Z;
  comm_reset_connect : comm → Z → comm;
  comm_close_connect : comm → Z → comm;
  comm_is_exist : comm → Z → bool;
  comm_close : comm → comm;
  (** A peer that was given a connection is found by it, and the connection by the peer. *)
  comm_set_get c sid cid : comm_is_exist c sid = true → comm_get_connect_id (comm_set_connect_id c sid cid) sid = cid;
  comm_set_server c sid cid : comm_is_exist c sid = true → cid ≠ 0 →
    comm_get_server_id (comm_set_connect_id c sid cid) cid = sid;
  comm_set_exist c sid cid sid' : comm_is_exist (comm_set_connect_id c sid cid) sid' = comm_is_exist c sid';
}.

(** ** The service *)
Section Communication.

Context {session : Type} `{!ISession session}.
Context (start_client : nat → CConnect_IO_Info → EM_CONNECT_IO_TYPE → session * bool * list Z).

Record CCommunicationIOInfo := mkCommInfo {
  csession_ : option session;
  cconnect_id_ : Z;
  io_info_ : CConnect_IO_Info;
  io_type_ : EM_CONNECT_IO_TYPE;
}.

(** What happened, in order: a client session was started for a server, or a connection (or
    its end) was reported for it. *)
Inductive comm_event := Attempt (server : Z) | Report (server : Z).

Record CCommunicationService := mkComm {
  communication_list_ : gmap Z CCommunicationIOInfo;
  server_connect_id_list_ : gmap Z Z;
  server_is_connect_list_ : gmap Z Z;
  communication_is_run_ : bool;
  events : list comm_event;
}.

Definition CCommunicationService_new : CCommunicationService := mkComm ∅ ∅ ∅ false [].

#[export] Instance comm_event_eq_dec : EqDecision comm_event.
Proof. solve_decision. Defined.
Definition is_attempt (e : comm_event) : bool := match e with Attempt _ => true | Report _ => false end.
Definition attempts (s : CCommunicationService) : nat :=
  length (filter (fun e => is_attempt e = true) (events s)).

Definition set_connect_id (s : CCommunicationService) (server connect_id : Z) : CCommunicationService :=
  let connecting := delete server (server_is_connect_list_ s) in
  let log := events s ++ [Report server] in
  match communication_list_ s !! server with
  | None => mkComm (communication_list_ s) (server_connect_id_list_ s) connecting (communication_is_run_ s) log
  | Some f =>
      if connect_id =? 0
      then mkComm (<[server := mkCommInfo None connect_id (io_info_ f) (io_type_ f)]> (communication_list_ s))
             (delete connect_id (server_connect_id_list_ s)) connecting (communication_is_run_ s) log
      else mkComm (<[server := mkCommInfo (csession_ f) connect_id (io_info_ f) (io_type_ f)]> (communication_list_ s))
             (<[connect_id := server]> (server_connect_id_list_ s)) connecting (communication_is_run_ s) log
  end.

(** [communication_list_[server_id].session_ = session]. *)
Definition set_session (s : CCommunicationService) (server : Z) (x : session) : CCommunicationService :=
  mkComm (alter (fun f => mkCommInfo (Some x) (cconnect_id_ f) (io_info_ f) (io_type_ f)) server (communication_list_ s))
    (server_connect_id_list_ s) (server_is_connect_list_ s) (communication_is_run_ s) (events s).

(** The start of a client session of the given kind; [only_if_ok]: a TCP session is kept only
    when its start succeeded. *)
Definition start_session (s : CCommunicationService) (info : CCommunicationIOInfo) (only_if_ok : bool)
  : CCommunicationService :=
  let server := server_id (io_info_ info) in
  let '(x, ok, ids) := start_client (attempts s) (io_info_ info) (io_type_ info) in
  let s := mkComm (communication_list_ s) (server_connect_id_list_ s) (server_is_connect_list_ s)
             (communication_is_run_ s) (events s ++ [Attempt server]) in
  let s := foldl (fun s id => set_connect_id s server id) s ids in
  if only_if_ok && negb ok then s else set_session s server x.

Definition io_connect (s : CCommunicationService) (info : CCommunicationIOInfo) : CCommunicationService :=
  let server := server_id (io_info_ info) in
  let s := mkComm (<[server := info]> (communication_list_ s)) (server_connect_id_list_ s) (server_is_connect_list_ s)
             (communication_is_run_ s) (events s) in
  if negb (communication_is_run_ s) then s
  else
    match server_is_connect_list_ s !! server with
    | Some _ => s
    | None =>
        let s := mkComm (communication_list_ s) (server_connect_id_list_ s)
                   (<[server := server]> (server_is_connect_list_ s)) (communication_is_run_ s) (events s) in
        match io_type_ info with
        | CONNECT_IO_TCP => start_session s info true
        | CONNECT_IO_UDP | CONNECT_IO_TTY => start_session s info false
        | _ => s
        end
    end.

Definition add_connect (s : CCommunicationService) (info : CConnect_IO_Info) (ty : EM_CONNECT_IO_TYPE)
  : bool * CCommunicationService := (true, io_connect s (mkCommInfo None 0 info ty)).

Definition get_connect_id (s : CCommunicationService) (server : Z) : Z :=
  match communication_list_ s !! server with Some f => cconnect_id_ f | None => 0 end.
Definition is_exist (s : CCommunicationService) (server : Z) : bool :=
  match communication_list_ s !! server with Some _ => true | None => false end.
Definition get_server_id (s : CCommunicationService) (connect_id : Z) : Z :=
  default 0 (server_connect_id_list_ s !! connect_id).

(** [close_connect] looks the id up in the table of connections. *)
Definition close_connect (s : CCommunicationService) (server : Z) : CCommunicationService :=
  let s := mkComm (delete server (communication_list_ s)) (server_connect_id_list_ s) (server_is_connect_list_ s)
             (communication_is_run_ s) (events s) in
  let connect_id := get_server_id s server in
  if 0 <? connect_id
  then mkComm (communication_list_ s) (delete connect_id (server_connect_id_list_ s)) (server_is_connect_list_ s)
         (communication_is_run_ s) (events s)
  else s.

Definition comm_close_all (s : CCommunicationService) : CCommunicationService :=
  mkComm ∅ ∅ (server_is_connect_list_ s) (communication_is_run_ s) (events s).

Definition reset_connect (s : CCommunicationService) (server : Z) : CCommunicationService :=
  match communication_list_ s !! server with Some f => io_connect s f | None => s end.

(** [each_io_connect]: the loop visits every server and passes its current entry. *)
Definition each_io_connect (f : CCommunicationService → CCommunicationIOInfo → CCommunicationService)
    (s : CCommunicationService) : CCommunicationService :=
  foldl (fun s server => match communication_list_ s !! server with Some i => f s i | None => s end)
    s (map fst (map_to_list (communication_list_ s))).

Definition run_check_task (s : CCommunicationService) : CCommunicationService :=
  each_io_connect (fun s i =>
    if match csession_ i with None => true | Some x => negb (is_connect x) end && is_need_reconnect (io_info_ i)
    then io_connect s i else s) s.
Definition run_first_io_connect (s : CCommunicationService) : CCommunicationService := each_io_connect io_connect s.
Definition run_server_to_server (s : CCommunicationService) : CCommunicationService :=
  run_first_io_connect
    (mkComm (communication_list_ s) (server_connect_id_list_ s) (server_is_connect_list_ s) true (events s)).

(** The service implements the interface. *)
#[export] Program Instance CCommunicationService_interface : ICommunicationInterface CCommunicationService := {|
  comm_add_connect := add_connect;
  comm_set_connect_id := set_connect_id;
  comm_get_connect_id := get_connect_id;
  comm_get_server_id := get_server_id;
  comm_reset_connect := reset_connect;
  comm_close_connect := close_connect;
  comm_is_exist := is_exist;
  comm_close := comm_close_all;
|}.
Next Obligation.
  intros c sid cid. unfold is_exist, get_connect_id, set_connect_id. destruct (communication_list_ c !! sid) as [f|]; [|done].
  intros _. destruct (cid =? 0); cbn; by rewrite lookup_insert_eq.
Qed.
Next Obligation.
  intros c sid cid. unfold is_exist, get_server_id, set_connect_id. destruct (communication_list_ c !! sid) as [f|]; [|done].
  intros _ H. rewrite (proj2 (Z.eqb_neq cid 0) H). cbn. by rewrite lookup_insert_eq.
Qed.
Next Obligation.
  intros c sid cid sid'. unfold is_exist, set_connect_id. destruct (communication_list_ c !! sid) as [f|] eqn:E; [|done].
  destruct (decide (sid = sid')) as [<-|]; destruct (cid =? 0); cbn;
    rewrite ?lookup_insert_eq, ?E, ?lookup_insert_ne by done; done.
Qed.

End Communication.
Arguments CCommunicationService : clear implicits.
Arguments CCommunicationIOInfo : clear implicits.

(** ** Attempts and reports *)
Section CommLemmas.

Context {session : Type} `{!ISession session}.
Context (start_client : nat → CConnect_IO_Info → EM_CONNECT_IO_TYPE → session * bool * list Z).
Notation service := (CCommunicationService session).

Inductive comm_op :=
| CAdd (info : CConnect_IO_Info) (ty : EM_CONNECT_IO_TYPE)
| CSet (server connect_id : Z)
| CReset (server : Z)
| CCloseConnect (server : Z)
| CCheck
| CRun
| CClose.

Definition comm_step (s : service) (o : comm_op) : service :=
  match o with
  | CAdd info ty => snd (add_connect start_client s info ty)
  | CSet server connect_id => set_connect_id s server connect_id
  | CReset server => reset_connect start_client s server
  | CCloseConnect server => close_connect s server
  | CCheck => run_check_task start_client s
  | CRun => run_server_to_server start_client s
  | CClose => comm_close_all s
  end.

(** Whether an attempt on the server is open after the events; [None] when a second one was
    started before the first reported. *)
Fixpoint open_attempt (server : Z) (acc : bool) (es : list comm_event) : option bool :=
  match es with
  | [] => Some acc
  | Attempt x :: es => if decide (x = server) then if acc then None else open_attempt server true es
                       else open_attempt server acc es
  | Report x :: es => if decide (x = server) then open_attempt server false es else open_attempt server acc es
  end.

Lemma open_attempt_app server es1 : ∀ acc es2,
  open_attempt server acc (es1 ++ es2) =
  match open_attempt server acc es1 with Some acc => open_attempt server acc es2 | None => None end.
Proof. induction es1 as [|[x|x] es1 IH]; intros acc es2; cbn; [done| |]; destruct (decide (x = server)); try destruct acc; auto. Qed.

(** An open attempt is always recorded in the list of servers being connected. *)
Definition attempts_ok (s : service) : Prop := ∀ server,
  ∃ b, open_attempt server false (events s) = Some b ∧ (b = true → is_Some (server_is_connect_list_ s !! server)).

Lemma attempts_ok_ext (s s' : service) : events s' = events s → server_is_connect_list_ s' = server_is_connect_list_ s →
  attempts_ok s → attempts_ok s'.
Proof. unfold attempts_ok. by intros -> ->. Qed.

Lemma set_connect_id_log (s : service) server id :
  events (set_connect_id s server id) = events s ++ [Report server] ∧
  server_is_connect_list_ (set_connect_id s server id) = delete server (server_is_connect_list_ s).
Proof. unfold set_connect_id. by destruct (communication_list_ s !! server); [destruct (id =? 0)|]. Qed.

Lemma set_connect_id_ok (s : service) server id : attempts_ok s → attempts_ok (set_connect_id s server id).
Proof.
  intros H x. destruct (set_connect_id_log s server id) as [-> ->]. destruct (H x) as (b & Hb & Hc).
  rewrite open_attempt_app, Hb. cbn. destruct (decide (server = x)) as [->|].
  - by exists false.
  - exists b. by rewrite lookup_delete_ne.
Qed.

Lemma foldl_set_ok server ids : ∀ s : service, attempts_ok s →
  attempts_ok (foldl (fun s id => set_connect_id s server id) s ids).
Proof. induction ids; intros s Hs; [done|]. by apply IHids, set_connect_id_ok. Qed.

(** Marking the server and starting the session. *)
Definition marked (s : service) (server : Z) : service :=
  mkComm (communication_list_ s) (server_connect_id_list_ s) (<[server := server]> (server_is_connect_list_ s))
    (communication_is_run_ s) (events s).

Lemma start_session_ok (s : service) info b : attempts_ok s →
  server_is_connect_list_ s !! server_id (io_info_ info) = None →
  attempts_ok (start_session start_client (marked s (server_id (io_info_ info))) info b).
Proof.
  intros H Hn. unfold start_session. destruct (start_client _ _ _) as [[x ok] ids].
  match goal with |- attempts_ok (if _ then ?f else _) => assert (Hf : attempts_ok f) end.
  { apply foldl_set_ok. intros y. cbn. destruct (H y) as (b' & Hb & Hc). rewrite open_attempt_app, Hb. cbn.
    destruct (decide (server_id (io_info_ info) = y)) as [<-|].
    - destruct b'; [rewrite Hn in Hc; by destruct (Hc eq_refl)|]. exists true. rewrite lookup_insert_eq. eauto.
    - exists b'. by rewrite lookup_insert_ne. }
  by destruct (b && negb ok).
Qed.

Lemma marked_ok (s : service) server : attempts_ok s → attempts_ok (marked s server).
Proof.
  intros H x. destruct (H x) as (b & Hb & Hc). exists b. split; [done|]. intros Hbt. cbn.
  destruct (decide (server = x)) as [->|]; [rewrite lookup_insert_eq; eauto|rewrite lookup_insert_ne by done; auto].
Qed.

Lemma io_connect_ok (s : service) info : attempts_ok s → attempts_ok (io_connect start_client s info).
Proof.
  intros H. unfold io_connect. cbn [communication_is_run_].
  destruct (negb (communication_is_run_ s)); [done|]. cbn [server_is_connect_list_].
  destruct (server_is_connect_list_ s !! _) eqn:E; [done|].
  set (s1 := mkComm (<[server_id (io_info_ info) := info]> (communication_list_ s)) (server_connect_id_list_ s)
    (server_is_connect_list_ s) (communication_is_run_ s) (events s)).
  assert (attempts_ok s1) by done. destruct (io_type_ info);
    try (by apply (start_session_ok s1)); by apply (marked_ok s1).
Qed.

Lemma each_ind (P : service → Prop) f (s : service) : (∀ s i, P s → P (f s i)) → P s → P (each_io_connect f s).
Proof.
  intros Hf. unfold each_io_connect. generalize (map fst (map_to_list (communication_list_ s))). intros l. revert s.
  induction l as [|x l IH]; intros s Hs; [done|]. cbn. apply IH. destruct (communication_list_ s !! x); auto.
Qed.

Lemma comm_step_ok (s : service) o : attempts_ok s → attempts_ok (comm_step s o).
Proof.
  intros H. destruct o; cbn [comm_step].
  - by apply io_connect_ok.
  - by apply set_connect_id_ok.
  - unfold reset_connect. destruct (communication_list_ s !! server); [by apply io_connect_ok|done].
  - unfold close_connect. by destruct (0 <? _).
  - unfold run_check_task. apply each_ind; [|done]. intros s' i Hs'. destruct (_ && _); [by apply io_connect_ok|done].
  - unfold run_server_to_server, run_first_io_connect. apply each_ind; [|done]. intros s' i Hs'. by apply io_connect_ok.
  - done.
Qed.

(** ** A server that is marked is not tried again until it reports *)

Definition stuck (server : Z) (n : nat) (s : service) : Prop :=
  is_Some (server_is_connect_list_ s !! server) ∧
  length (filter (fun e => e = Attempt server) (events s)) = n.

Lemma stuck_set server n (s : service) x id : x ≠ server → stuck server n s → stuck server n (set_connect_id s x id).
Proof.
  intros Hne [H1 H2]. unfold stuck. destruct (set_connect_id_log s x id) as [-> ->].
  rewrite lookup_delete_ne by done. by rewrite filter_app, length_app, filter_cons_False, filter_nil, Nat.add_0_r.
Qed.

Lemma stuck_foldl server n x ids : x ≠ server → ∀ s : service, stuck server n s →
  stuck server n (foldl (fun s id => set_connect_id s x id) s ids).
Proof. intros Hne. induction ids; intros s Hs; [done|]. by apply IHids, stuck_set. Qed.

Lemma stuck_io_connect server n (s : service) info : stuck server n s → stuck server n (io_connect start_client s info).
Proof.
  intros Hs. unfold io_connect. cbn [communication_is_run_].
  destruct (negb (communication_is_run_ s)); [done|]. cbn [server_is_connect_list_].
  destruct (server_is_connect_list_ s !! server_id (io_info_ info)) eqn:E; [done|].
  assert (Hne : server_id (io_info_ info) ≠ server) by (intros <-; destruct Hs as [[? Hs] _]; congruence).
  destruct Hs as [H1 H2].
  assert (Hstart : ∀ l c b, stuck server n (start_session start_client (mkComm l c
    (<[server_id (io_info_ info) := server_id (io_info_ info)]> (server_is_connect_list_ s)) (communication_is_run_ s)
    (events s)) info b)).
  { intros l c b. unfold start_session. destruct (start_client _ _ _) as [[x ok] ids].
    match goal with |- stuck _ _ (if _ then ?f else _) => assert (Hf : stuck server n f) end.
    { apply stuck_foldl; [done|]. split; cbn; [by rewrite lookup_insert_ne|].
      rewrite filter_app, length_app, filter_cons_False, filter_nil by congruence. cbn. lia. }
    by destruct (b && negb ok). }
  destruct (io_type_ info); try apply Hstart; (split; [cbn; by rewrite lookup_insert_ne|done]).
Qed.

Lemma comm_stuck_step server n (s : service) o : (∀ id, o ≠ CSet server id) → stuck server n s → stuck server n (comm_step s o).
Proof.
  intros Ho H. destruct o; cbn [comm_step].
  - by apply stuck_io_connect.
  - apply stuck_set; [|done]. intros ->. by apply (Ho connect_id).
  - unfold reset_connect. destruct (communication_list_ s !! server0); [by apply stuck_io_connect|done].
  - unfold close_connect. by destruct (0 <? _).
  - unfold run_check_task. apply each_ind; [|done]. intros s' i Hs'. destruct (_ && _); [by apply stuck_io_connect|done].
  - unfold run_server_to_server, run_first_io_connect. apply each_ind; [|done]. intros s' i Hs'. by apply stuck_io_connect.
  - done.
Qed.

Lemma stuck_steps server n os : ∀ s : service, (∀ id, CSet server id ∉ os) → stuck server n s →
  stuck server n (foldl comm_step s os).
Proof.
  induction os as [|o os IH]; intros s Hno Hs; [done|]. cbn. apply IH.
  - intros id Hin. apply (Hno id). by right.
  - apply comm_stuck_step; [|done]. intros id ->. apply (Hno id). by left.
Qed.

End CommLemmas.

(** ** Properties *)

(** The service never has two connection attempts to one server under way: in every
    history, between two starts of a client session for the same server the server reported a
    connection or the end of one. *)
Theorem single_connect_attempt {session} `{!ISession session} start_client (os : list comm_op) server l1 l2 l3 :
  events (foldl (comm_step start_client) CCommunicationService_new os) = l1 ++ Attempt server :: l2 ++ Attempt server :: l3 →
  Report server ∈ l2.
Proof.
  intros E. assert (Hok : attempts_ok (foldl (comm_step start_client) CCommunicationService_new os)).
  { assert (H0 : attempts_ok (CCommunicationService_new (session:=session))) by (intros x; by exists false).
    revert H0. clear E. generalize (CCommunicationService_new (session:=session)). induction os as [|o os IH]; intros s Hs; [done|].
    by apply IH, comm_step_ok. }
  destruct (Hok server) as (b & Hb & _). rewrite E in Hb. rewrite open_attempt_app in Hb.
  destruct (open_attempt server false l1) as [b1|]; [|done]. cbn in Hb. rewrite decide_True in Hb by done.
  destruct b1; [done|]. revert Hb. clear. induction l2 as [|[x|x] l2 IH]; cbn.
  - by rewrite decide_True.
  - destruct (decide (x = server)); [done|]. intros H. right. by apply IH.
  - destruct (decide (x = server)) as [->|]; intros H; [left|right; by apply IH].
Qed.

(** A server that accepts the second time; the first report ends the first connection. *)
Definition demo_peer : CConnect_IO_Info :=
  mkConnectIOInfo 1001 "127.0.0.1" 10050 "" 0 1 1024 1024 "" true.
#[export] Instance demo_session : ISession unit := {|
  get_remote_ip _ _ := ClientIPInfo_default;
  get_io_type _ := CONNECT_IO_TCP;
  get_mark_id _ _ := 1001;
  get_recv_time _ _ := 0;
  format_send_packet _ _ _ _ := None;
  is_need_send_format _ := false;
  is_connect _ := false;
  SessionTable.get_connect_id _ := 0;
|}.
Definition demo_start (n : nat) (i : CConnect_IO_Info) (ty : EM_CONNECT_IO_TYPE) : unit * bool * list Z := (tt, true, []).

Lemma single_connect_attempt_witness :
  events (foldl (comm_step demo_start) CCommunicationService_new
    [CAdd demo_peer CONNECT_IO_TCP; CRun; CCheck; CSet 1001 7; CSet 1001 0; CCheck]) =
    [] ++ Attempt 1001 :: [Report 1001; Report 1001] ++ Attempt 1001 :: [] ∧
  Report 1001 ∈ [Report 1001; Report 1001].
Proof.
  assert (H : events (foldl (comm_step demo_start) CCommunicationService_new
    [CAdd demo_peer CONNECT_IO_TCP; CRun; CCheck; CSet 1001 7; CSet 1001 0; CCheck]) =
    [] ++ Attempt 1001 :: [Report 1001; Report 1001] ++ Attempt 1001 :: []) by (vm_compute; reflexivity).
  split; [exact H|]. exact (single_connect_attempt _ _ _ _ _ _ H).
Defined.

(** A connection attempt that never reports blocks the server for good: whatever is
    called afterwards (periodic checks with reconnection enabled, an explicit reset, removing
    and adding the server, closing), no further session is started for it.  A TCP connection
    that is refused does not report. *)
Theorem failed_connect_blocks_reconnect {session} `{!ISession session} start_client (s : CCommunicationService session)
    server (os : list comm_op) :
  is_Some (server_is_connect_list_ s !! server) → (∀ id, CSet server id ∉ os) →
  filter (λ e, e = Attempt server) (events (foldl (comm_step start_client) s os)) =
  filter (λ e, e = Attempt server) (events s).
Proof.
  intros Hs Hno. destruct (stuck_steps start_client server _ os s Hno (conj Hs eq_refl)) as [_ Hlen].
  assert (Hrep : ∀ es : list comm_event, filter (λ e, e = Attempt server) es =
    replicate (length (filter (λ e, e = Attempt server) es)) (Attempt server)).
  { intros es. symmetry. apply replicate_as_elem_of. split; [done|]. intros x [-> _]%list_elem_of_filter. done. }
  rewrite Hrep, Hlen. by rewrite <- Hrep.
Qed.

Lemma failed_connect_blocks_reconnect_witness :
  events (foldl (comm_step demo_start) CCommunicationService_new [CAdd demo_peer CONNECT_IO_TCP; CRun]) = [Attempt 1001] ∧
  filter (λ e, e = Attempt 1001)
    (events (foldl (comm_step demo_start) (foldl (comm_step demo_start) CCommunicationService_new
      [CAdd demo_peer CONNECT_IO_TCP; CRun]) [CCheck; CReset 1001; CCloseConnect 1001; CAdd demo_peer CONNECT_IO_TCP; CCheck]))
  = [Attempt 1001].
Proof.
  split; [vm_compute; reflexivity|].
  rewrite (failed_connect_blocks_reconnect demo_start _ 1001).
  - vm_compute. reflexivity.
  - eexists. vm_compute. reflexivity.
  - intros id. rewrite list_elem_of_In. cbn. intuition congruence.
Defined.
