(* ===== verification/WorkThread.v ===== *)
(** * Work threads (src/PSS_ASIO/Message/ModuleLogic.{h,cpp})

    [CModuleLogic] is the part of a work thread: its sessions, its copy of the dispatch
    table and its state.  [CWorkThreadLogic] is the dispatcher: it puts every event of a
    connection into the queue of one thread, hands synchronous commands to the plugins at
    once, forwards bridged data, and runs the tasks of the plugins.

    The other singletons it calls are the models of their files: the loader ([Modules]), the
    queues ([Tms]), the timers ([Timer]), the bridge ([Iobridge]) and, through its interface,
    the communication service.  A closure put into a queue is a value of [task]; running it is
    [run_task].  Calls on sessions are recorded in [trace]. *)

From Stdlib Require Import ZArith Lia.
From S2P Require Import Prelude Define SessionBuffer HttpFormat SessionTable Iobridge Timer Tms Modules Communication.
From stdpp Require Import base numbers list gmap strings.
Local Open Scope Z_scope.

Inductive ENUM_WORK_THREAD_STATE := WORK_THREAD_INIT | WORK_THREAD_BEGIN | WORK_THREAD_END.

Section WorkThread.

Context {W session comm : Type} `{!ISession session} `{!ICommunicationInterface comm} `{!PriorityQueue}.
Notation table := (gmap Z (Logic_message_dispose_fn W)).
Notation ptr := nat.

(** A function a plugin asks to be run on a thread. *)
Definition task_function : Type := W → W.

Inductive task :=
| TDispatch (module_logic : ptr) (source : CMessage_Source) (recv send : CMessage_Packet)
| TClose (connect_id : Z) (x : option session)
| TMessages (x : session) (connect_id : Z) (l : list CMessage_Packet) (module_logic : ptr)
| TDelivery (connect_id : Z) (p : CMessage_Packet) (module_logic : ptr)
| TPlugin (module_logic : ptr) (message_tag : string) (recv : CMessage_Packet)
| TFrameEvents (command_id mark_id : Z) (remote_ip : string) (remote_port : Z) (io_type : EM_CONNECT_IO_TYPE)
| TCheckTimeout (connect_timeout : Z) (module_logic : ptr)
| TCloseAll (module_logic : ptr)
| TRunCheck (timeout_seconds : Z)
| TFunc (func : task_function).

(** The closures given to the timer manager. *)
Inductive timer_task :=
| KRunCheck (timeout_seconds : Z)
| KPlugin (module_logic : ptr) (message_tag : string) (p : CMessage_Packet) (timer_id : Z)
| KFunc (tag_thread_id : Z) (func : task_function) (timer_id : Z).

(** ** CModuleLogic *)

Record CModuleLogic := mkML {
  sessions_interface_ : CSessionInterface session;
  modules_interface_ : table;
  ml_work_thread_id_ : Z;                 (* uint16 *)
  last_dispose_command_id_ : Z;           (* uint16 *)
  work_thread_state_ : ENUM_WORK_THREAD_STATE;
  work_thread_run_time_ : Z;              (* nanoseconds *)
}.

(** [make_shared] followed by [init_logic]. *)
Definition init_logic (functions : table) (work_thread_id now : Z) : CModuleLogic :=
  mkML (start_check (mkSI ∅ 0) now) (copy_from_module_list ∅ functions) (u16 work_thread_id) 0 WORK_THREAD_INIT now.

Definition ml_add_session (m : CModuleLogic) (connect_id : Z) (x : session) (local remote : ClientIPInfo) : CModuleLogic :=
  mkML (add_session_interface (sessions_interface_ m) connect_id x local remote) (modules_interface_ m)
    (ml_work_thread_id_ m) (last_dispose_command_id_ m) (work_thread_state_ m) (work_thread_run_time_ m).
Definition ml_get_session (m : CModuleLogic) (connect_id : Z) : option session :=
  get_session_interface (sessions_interface_ m) connect_id.
Definition ml_delete_session (m : CModuleLogic) (connect_id : Z) : CModuleLogic :=
  mkML (delete_session_interface (sessions_interface_ m) connect_id) (modules_interface_ m)
    (ml_work_thread_id_ m) (last_dispose_command_id_ m) (work_thread_state_ m) (work_thread_run_time_ m).
Definition ml_close (m : CModuleLogic) : CModuleLogic :=
  mkML (sessions_interface_ m) (close_interface (modules_interface_ m)) (ml_work_thread_id_ m)
    (last_dispose_command_id_ m) (work_thread_state_ m) (work_thread_run_time_ m).

(** [do_thread_module_logic] before and after the call of the plugin. *)
Definition ml_begin (m : CModuleLogic) (command_id : Z) : CModuleLogic :=
  mkML (sessions_interface_ m) (modules_interface_ m) (ml_work_thread_id_ m) command_id WORK_THREAD_BEGIN
    (work_thread_run_time_ m).
Definition ml_end (m : CModuleLogic) (now : Z) : CModuleLogic :=
  mkML (sessions_interface_ m) (modules_interface_ m) (ml_work_thread_id_ m) (last_dispose_command_id_ m)
    WORK_THREAD_END now.

(** Seconds, truncated. *)
Definition get_work_thread_timeout (m : CModuleLogic) (now : Z) : Z :=
  match work_thread_state_ m with
  | WORK_THREAD_BEGIN => i32 (Z.quot (now - work_thread_run_time_ m) 1000000000)
  | _ => 0
  end.

Definition ml_check_timeout (m : CModuleLogic) (now connect_timeout : Z)
  : list (CSessionIO_Cancel session) * CModuleLogic :=
  let '(l, si) := check_session_io_timeout (sessions_interface_ m) now connect_timeout [] in
  (l, mkML si (modules_interface_ m) (ml_work_thread_id_ m) (last_dispose_command_id_ m) (work_thread_state_ m)
        (work_thread_run_time_ m)).

(** ** CWorkThreadLogic *)

Record CDelayPluginMessage := mkDelayMessage {
  dm_tag_thread_id_ : Z;
  dm_message_tag_ : string;
  dm_send_packet_ : CMessage_Packet;
  dm_delay_timer_ : CFrame_Message_Delay;
}.
Record CDelayPluginFunc := mkDelayFunc {
  df_tag_thread_id_ : Z;
  df_delay_timer_ : CFrame_Message_Delay;
  df_func_ : task_function;
}.

Record CWorkThreadLogic := mkWTL {
  thread_module_list_ : list ptr;
  thread_count_ : Z;                      (* uint16 *)
  module_init_finish_ : bool;
  plugin_work_thread_buffer_list_ : list Z;
  plugin_work_thread_buffer_message_list_ : list CDelayPluginMessage;
  plugin_work_thread_buffer_Func_list_ : list CDelayPluginFunc;
  plugin_work_thread_list_ : gmap Z ptr;
  plgin_timer_list_ : gmap Z nat;
  connect_timeout_ : Z;                   (* uint32 *)
}.

(** The whole state: the dispatcher, the objects its pointers designate, the other singletons
    and the calls made on sessions.  [now (core_timer s)] is the clock. *)
Record sys := mkSys {
  logic : CWorkThreadLogic;
  modules : list CModuleLogic;
  loader : CLoadModule W;
  communicate_service_ : option comm;
  tms : TMS task;
  core_timer : TimerMgr timer_task;
  bridge : CIoBridge session;
  sync : table;
  trace : list (session_effect session);
}.

Definition with_logic (s : sys) (l : CWorkThreadLogic) : sys :=
  mkSys l (modules s) (loader s) (communicate_service_ s) (tms s) (core_timer s) (bridge s) (sync s) (trace s).
Definition with_modules (s : sys) (ms : list CModuleLogic) : sys :=
  mkSys (logic s) ms (loader s) (communicate_service_ s) (tms s) (core_timer s) (bridge s) (sync s) (trace s).
Definition with_loader (s : sys) (l : CLoadModule W) : sys :=
  mkSys (logic s) (modules s) l (communicate_service_ s) (tms s) (core_timer s) (bridge s) (sync s) (trace s).
Definition with_comm (s : sys) (c : option comm) : sys :=
  mkSys (logic s) (modules s) (loader s) c (tms s) (core_timer s) (bridge s) (sync s) (trace s).
Definition with_tms (s : sys) (t : TMS task) : sys :=
  mkSys (logic s) (modules s) (loader s) (communicate_service_ s) t (core_timer s) (bridge s) (sync s) (trace s).
Definition with_core (s : sys) (t : TimerMgr timer_task) : sys :=
  mkSys (logic s) (modules s) (loader s) (communicate_service_ s) (tms s) t (bridge s) (sync s) (trace s).
Definition with_sync (s : sys) (t : table) : sys :=
  mkSys (logic s) (modules s) (loader s) (communicate_service_ s) (tms s) (core_timer s) (bridge s) t (trace s).
Definition with_bridge (s : sys) (b : CIoBridge session) (e : list (session_effect session)) : sys :=
  mkSys (logic s) (modules s) (loader s) (communicate_service_ s) (tms s) (core_timer s) b (sync s) (trace s ++ e).
Definition emit (s : sys) (e : list (session_effect session)) : sys := with_bridge s (bridge s) e.

Definition clock (s : sys) : Z := now (core_timer s).
Definition plugins (s : sys) : W := world (loader s).
Definition with_plugins (s : sys) (w : W) : sys := with_loader s (set_world (loader s) w (open_handles (loader s))).

(** [App_tms::instance()->AddMessage]. *)
Definition post (s : sys) (i : Z) (t : task) : sys := with_tms s (snd (AddMessage (tms s) i t)).

(** Dereferencing a [shared_ptr<CModuleLogic>], indexing the vector of threads, and
    [connect_id % thread_count_]. *)
Definition get_ml (s : sys) (p : ptr) : outcome CModuleLogic :=
  match modules s !! p with Some m => Ok m | None => Fault end.
Definition set_ml (s : sys) (p : ptr) (m : CModuleLogic) : sys := with_modules s (<[p := m]> (modules s)).
Definition curr_thread_index (s : sys) (connect_id : Z) : outcome Z :=
  if thread_count_ (logic s) =? 0 then Fault else Ok (connect_id mod thread_count_ (logic s)).
Definition thread_module (s : sys) (i : Z) : outcome ptr :=
  match thread_module_list_ (logic s) !! Z.to_nat i with Some p => Ok p | None => Fault end.
Definition get_comm (s : sys) : outcome comm :=
  match communicate_service_ s with Some c => Ok c | None => Fault end.

(** [CModuleLogic::do_thread_module_logic]: the plugin's code and the packet to send. *)
Definition do_thread_module_logic (s : sys) (p : ptr) (source : CMessage_Source) (recv send : CMessage_Packet)
  : outcome (Z * CMessage_Packet * sys) :=
  let* m := get_ml s p in
  let s := set_ml s p (ml_begin m (command_id_ recv)) in
  let '(ret, _, send, w) := do_module_message (modules_interface_ m) (plugins s) source recv send in
  let s := with_plugins s w in
  let* m := get_ml s p in
  Ok (ret, send, set_ml s p (ml_end m (clock s))).

Definition do_work_thread_frame_events (s : sys) (command_id mark_id : Z) (ip : string) (port : Z)
    (io_type : EM_CONNECT_IO_TYPE) : outcome sys :=
  let* p := thread_module s 0 in
  let* m := get_ml s p in
  let addr := mkClientIPInfo ip port in
  let source :=
    if command_id =? LOGIC_CONNECT_SERVER_ERROR
    then mkSource (ml_work_thread_id_ m) 0 mark_id io_type ClientIPInfo_default addr
    else if command_id =? LOGIC_LISTEN_SERVER_ERROR
    then mkSource (ml_work_thread_id_ m) 0 mark_id io_type addr ClientIPInfo_default
    else mkSource 0 0 0 io_type ClientIPInfo_default ClientIPInfo_default in
  let* '(_, _, s) := do_thread_module_logic s p source (mkPacket [] [] command_id) fresh_packet in
  Ok s.
Definition add_frame_events (s : sys) (command_id mark_id : Z) (ip : string) (port : Z) (io_type : EM_CONNECT_IO_TYPE)
  : sys := post s 0 (TFrameEvents command_id mark_id ip port io_type).

(** [communicate_service_->set_connect_id] when the session belongs to a server link. *)
Definition report_connect (s : sys) (server connect_id : Z) : outcome sys :=
  if 0 <? server then let* c := get_comm s in Ok (with_comm s (Some (comm_set_connect_id c server connect_id))) else Ok s.

Definition add_thread_session (s : sys) (connect_id : Z) (x : session) (local remote : ClientIPInfo) : outcome sys :=
  let* i := curr_thread_index s connect_id in
  let* p := thread_module s i in
  let server := get_mark_id x connect_id in
  let* s := report_connect s server connect_id in
  let* m := get_ml s p in
  let s := set_ml s p (ml_add_session m connect_id x local remote) in
  let recv := mkPacket [] [] LOGIC_COMMAND_CONNECT in
  let source := mkSource (ml_work_thread_id_ m) connect_id server (get_io_type x) local remote in
  let* '(e, b) := regedit_bridge_session_info (bridge s) remote (get_io_type x) connect_id (Some x) in
  let s := with_bridge s b e in
  let '(hit, send, w) := do_sync_message (sync s) (plugins s) LOGIC_COMMAND_CONNECT source recv fresh_packet in
  let s := with_plugins s w in
  if hit then
    Ok (if 0 <? zlen (pbuffer_ send) then emit s [do_write_immediately x connect_id (pbuffer_ send)] else s)
  else Ok (post s i (TDispatch p source recv send)).

Definition delete_thread_session (s : sys) (connect_id : Z) (x : session) (local : ClientIPInfo)
    (io_type : EM_CONNECT_IO_TYPE) : outcome sys :=
  let* i := curr_thread_index s connect_id in
  let* p := thread_module s i in
  let server := get_mark_id x connect_id in
  let* s := report_connect s server 0 in
  let* m := get_ml s p in
  let s := set_ml s p (ml_delete_session m connect_id) in
  let* '(e, b) := unregedit_bridge_session_info (bridge s) local io_type in
  let s := with_bridge s b e in
  let recv := mkPacket [] [] LOGIC_COMMAND_DISCONNECT in
  let source := mkSource (ml_work_thread_id_ m) connect_id server io_type ClientIPInfo_default ClientIPInfo_default in
  let '(hit, send, w) := do_sync_message (sync s) (plugins s) LOGIC_COMMAND_DISCONNECT source recv fresh_packet in
  let s := with_plugins s w in
  if hit then Ok s else Ok (post s i (TDispatch p source recv send)).

Definition close_session_event (s : sys) (connect_id : Z) (x : option session) : outcome sys :=
  let* i := curr_thread_index s connect_id in
  let* p := thread_module s i in
  Ok (post s i (TClose connect_id x)).

(** The three ways a session hands received packets over. *)
Definition assignation_thread_module_logic (s : sys) (connect_id : Z) (l : list CMessage_Packet) (x : session)
  : outcome sys :=
  let source := mkSource 0 connect_id (get_mark_id x connect_id) (get_io_type x) ClientIPInfo_default ClientIPInfo_default in
  let '(l, send, w) := do_sync_message_list (sync s) (plugins s) source l fresh_packet in
  let s := with_plugins s w in
  let s := if 0 <? zlen (pbuffer_ send) then emit s [do_write_immediately x connect_id (pbuffer_ send)] else s in
  if 0 <? zlen l then
    let* i := curr_thread_index s connect_id in
    let* p := thread_module s i in
    Ok (post s i (TMessages x connect_id l p))
  else Ok s.

Definition set_command (p : CMessage_Packet) (c : Z) : CMessage_Packet := mkPacket (param_arg_ p) (pbuffer_ p) c.
Definition assignation_thread_module_logic_iotoio_error (s : sys) (connect_id : Z) (l : list CMessage_Packet)
    (x : session) : outcome sys :=
  let* i := curr_thread_index s connect_id in
  let* p := thread_module s i in
  Ok (post s i (TMessages x connect_id (map (fun q => set_command q LOGIC_IOTOIO_CONNECT_NO_EXIST) l) p)).
Definition assignation_thread_module_logic_with_events (s : sys) (connect_id : Z) (l : list CMessage_Packet)
    (x : session) : outcome sys :=
  let* i := curr_thread_index s connect_id in
  let* p := thread_module s i in
  Ok (post s i (TMessages x connect_id l p)).

(** [do_work_thread_module_logic]: the replies of the messages are collected and written once. *)
Fixpoint messages_loop (s : sys) (connect_id : Z) (source : CMessage_Source) (l : list CMessage_Packet) (p : ptr)
    (send_buffer : list Z) : outcome (list Z * sys) :=
  match l with
  | [] => Ok (send_buffer, s)
  | recv :: l =>
      let* '(_, curr_send, s) := do_thread_module_logic s p source recv fresh_packet in
      if zlen (pbuffer_ curr_send) =? 0 then messages_loop s connect_id source l p send_buffer
      else
        let* m := get_ml s p in
        match ml_get_session m connect_id with
        | None => messages_loop s connect_id source l p send_buffer
        | Some io =>
            if is_need_send_format io then
              match format_send_packet io connect_id curr_send fresh_packet with
              | Some f => messages_loop s connect_id source l p (send_buffer ++ pbuffer_ f)
              | None => messages_loop s connect_id source l p send_buffer
              end
            else messages_loop s connect_id source l p (send_buffer ++ pbuffer_ curr_send)
        end
  end.
Definition do_work_thread_module_logic (s : sys) (x : session) (connect_id : Z) (l : list CMessage_Packet) (p : ptr)
  : outcome sys :=
  let* m := get_ml s p in
  let source := mkSource (ml_work_thread_id_ m) connect_id (get_mark_id x connect_id) (get_io_type x)
                  ClientIPInfo_default ClientIPInfo_default in
  let* '(buf, s) := messages_loop s connect_id source l p [] in
  Ok (if 0 <? zlen buf then emit s [set_write_buffer x connect_id buf; do_write x connect_id] else s).

(** A packet for a connection: formatted and written at once, or the peer is reconnected. *)
Definition send_io_buffer_to_session (s : sys) (connect_id : Z) (x : session) (p : CMessage_Packet) : sys :=
  emit s [do_write_immediately x connect_id (pbuffer_ p)].
Definition do_io_message_delivery (s : sys) (connect_id : Z) (send : CMessage_Packet) (p : ptr) : outcome sys :=
  let* m := get_ml s p in
  match ml_get_session m connect_id with
  | Some x =>
      if is_need_send_format x then
        match format_send_packet x connect_id send fresh_packet with
        | None => Ok s
        | Some f => Ok (send_io_buffer_to_session s connect_id x f)
        end
      else Ok (send_io_buffer_to_session s connect_id x send)
  | None =>
      let* c := get_comm s in
      let server := comm_get_server_id c connect_id in
      if 0 <? server then Ok (with_comm s (Some (comm_reset_connect c server))) else Ok s
  end.
Definition send_io_message (s : sys) (connect_id : Z) (send : CMessage_Packet) : outcome sys :=
  let* i := curr_thread_index s connect_id in
  let* p := thread_module s i in
  Ok (post s i (TDelivery connect_id send p)).

(** Bridged data. *)
Definition send_io_bridge_message (s : sys) (bridge_id : Z) (send : CMessage_Packet) : outcome (bool * sys) :=
  let* i := curr_thread_index s bridge_id in
  let* p := thread_module s i in
  let* m := get_ml s p in
  match ml_get_session m bridge_id with
  | Some x => Ok (true, emit s [do_write_immediately x bridge_id (pbuffer_ send)])
  | None => Ok (false, s)
  end.
Definition send_io_bridge_message_fail (s : sys) (connect_id : Z) (p : CMessage_Packet) (x : session) : outcome sys :=
  assignation_thread_module_logic s connect_id [set_command p LOGIC_IOTOIO_DATA_ERROR] x.
Definition do_io_bridge_data (s : sys) (connect_id bridge_id : Z) (buf : CSessionBuffer) (len : Z) (x : session)
  : outcome (Z * CSessionBuffer * sys) :=
  let* data := mem_read (read buf) 0 len in
  let packet := mkPacket [] data 0 in
  let* '(ret, s) :=
    (if 0 <? bridge_id then
       let* '(ok, s) := send_io_bridge_message s bridge_id packet in
       if ok then Ok (0, s)
       else let* s := send_io_bridge_message_fail s connect_id packet x in Ok (1, s)
     else let* s := send_io_bridge_message_fail s connect_id packet x in Ok (2, s)) in
  let* buf := move buf len in
  Ok (ret, buf, s).

(** Server links. *)
Definition connect_io_server (s : sys) (info : CConnect_IO_Info) (ty : EM_CONNECT_IO_TYPE) : outcome (bool * sys) :=
  let* c := get_comm s in
  if comm_is_exist c (server_id info) then Ok (false, s)
  else let '(r, c) := comm_add_connect c info ty in Ok (r, with_comm s (Some c)).
Definition wt_get_connect_id (s : sys) (server : Z) : outcome Z :=
  let* c := get_comm s in Ok (if comm_is_exist c server then comm_get_connect_id c server else 0).
Definition close_io_server (s : sys) (server : Z) : outcome sys :=
  let* c := get_comm s in Ok (with_comm s (Some (comm_close_connect c server))).
Definition get_io_server_id (s : sys) (connect_id : Z) : outcome Z :=
  let* c := get_comm s in Ok (comm_get_server_id c connect_id).

(** Threads of the plugins. *)
Definition with_plugin_threads (l : CWorkThreadLogic) (buf : list Z) (t : gmap Z ptr) : CWorkThreadLogic :=
  mkWTL (thread_module_list_ l) (thread_count_ l) (module_init_finish_ l) buf (plugin_work_thread_buffer_message_list_ l)
    (plugin_work_thread_buffer_Func_list_ l) t (plgin_timer_list_ l) (connect_timeout_ l).
Definition with_timer_list (l : CWorkThreadLogic) (t : gmap Z nat) : CWorkThreadLogic :=
  mkWTL (thread_module_list_ l) (thread_count_ l) (module_init_finish_ l) (plugin_work_thread_buffer_list_ l)
    (plugin_work_thread_buffer_message_list_ l) (plugin_work_thread_buffer_Func_list_ l) (plugin_work_thread_list_ l)
    t (connect_timeout_ l).

(** A new [CModuleLogic] and its thread; [tid] is the identifier of the new thread. *)
Definition new_module (s : sys) (work_thread_id : Z) : ptr * sys :=
  (length (modules s),
   with_modules s (modules s ++ [init_logic (get_module_function_list (loader s)) work_thread_id (clock s)])).
Definition create_plugin_thread (s : sys) (thread_id tid : Z) : sys :=
  let '(p, s) := new_module s thread_id in
  let s := with_logic s (with_plugin_threads (logic s) (plugin_work_thread_buffer_list_ (logic s))
                           (<[thread_id := p]> (plugin_work_thread_list_ (logic s)))) in
  with_tms s (snd (CreateLogic (tms s) thread_id tid)).

Definition create_frame_work_thread (s : sys) (thread_id tid : Z) : bool * sys :=
  if thread_id <? thread_count_ (logic s) then (false, s)
  else if negb (module_init_finish_ (logic s))
  then (true, with_logic s (with_plugin_threads (logic s) (plugin_work_thread_buffer_list_ (logic s) ++ [thread_id])
                              (plugin_work_thread_list_ (logic s))))
  else match plugin_work_thread_list_ (logic s) !! thread_id with
       | Some _ => (false, s)
       | None => (true, create_plugin_thread s thread_id tid)
       end.
Definition close_frame_work_thread (s : sys) (thread_id : Z) : outcome (bool * sys) :=
  if thread_id <? thread_count_ (logic s) then Ok (false, s)
  else match plugin_work_thread_list_ (logic s) !! thread_id with
       | Some p =>
           let* m := get_ml s p in
           let s := set_ml s p (ml_close m) in
           Ok (true, with_logic s (with_plugin_threads (logic s) (plugin_work_thread_buffer_list_ (logic s))
                                     (delete thread_id (plugin_work_thread_list_ (logic s)))))
       | None => Ok (false, s)
       end.

(** A message to the thread of a plugin. *)
Definition do_plugin_thread_module_logic (s : sys) (p : ptr) (tag : string) (recv : CMessage_Packet) : outcome sys :=
  let* m := get_ml s p in Ok (post s (ml_work_thread_id_ m) (TPlugin p tag recv)).

(** The name of a new timer object, and its entry for a later cancellation. *)
Definition new_timer (s : sys) (d : CFrame_Message_Delay) (k : timer_task) : sys :=
  let id := fresh (dom (store (core_timer s))) in
  let s := with_core s (addTimer (core_timer s) id (delay_seconds_ d * 1000000000) k) in
  if 0 <? timer_id_ d
  then with_logic s (with_timer_list (logic s) (<[timer_id_ d := id]> (plgin_timer_list_ (logic s)))) else s.
Definition do_frame_message (s : sys) (tag_thread_id : Z) (tag : string) (send : CMessage_Packet)
    (d : CFrame_Message_Delay) : outcome (bool * sys) :=
  match plugin_work_thread_list_ (logic s) !! tag_thread_id with
  | None => Ok (false, s)
  | Some p =>
      if delay_seconds_ d =? 0 then let* s := do_plugin_thread_module_logic s p tag send in Ok (true, s)
      else Ok (true, new_timer s d (KPlugin p tag send (timer_id_ d)))
  end.
Definition do_work_thread_logic (s : sys) (tag_thread_id : Z) (d : CFrame_Message_Delay) (func : task_function)
  : bool * sys :=
  match plugin_work_thread_list_ (logic s) !! tag_thread_id with
  | None => (false, s)
  | Some _ =>
      if delay_seconds_ d =? 0 then (true, post s tag_thread_id (TFunc func))
      else (true, new_timer s d (KFunc tag_thread_id func (timer_id_ d)))
  end.
Definition with_buffers (l : CWorkThreadLogic) (ms : list CDelayPluginMessage) (fs : list CDelayPluginFunc)
  : CWorkThreadLogic :=
  mkWTL (thread_module_list_ l) (thread_count_ l) (module_init_finish_ l) (plugin_work_thread_buffer_list_ l) ms fs
    (plugin_work_thread_list_ l) (plgin_timer_list_ l) (connect_timeout_ l).
Definition send_frame_message (s : sys) (tag_thread_id : Z) (tag : string) (send : CMessage_Packet)
    (d : CFrame_Message_Delay) : outcome (bool * sys) :=
  if negb (module_init_finish_ (logic s))
  then Ok (true, with_logic s (with_buffers (logic s)
              (plugin_work_thread_buffer_message_list_ (logic s) ++ [mkDelayMessage tag_thread_id tag send d])
              (plugin_work_thread_buffer_Func_list_ (logic s))))
  else do_frame_message s tag_thread_id tag send d.
Definition run_work_thread_logic (s : sys) (tag_thread_id : Z) (d : CFrame_Message_Delay) (func : task_function)
  : bool * sys :=
  if negb (module_init_finish_ (logic s))
  then (true, with_logic s (with_buffers (logic s) (plugin_work_thread_buffer_message_list_ (logic s))
              (plugin_work_thread_buffer_Func_list_ (logic s) ++ [mkDelayFunc tag_thread_id d func])))
  else do_work_thread_logic s tag_thread_id d func.
Definition delete_frame_message_timer (s : sys) (timer_id : Z) : bool * sys :=
  match plgin_timer_list_ (logic s) !! timer_id with
  | Some t => (true, with_logic (with_core s (cancel_timer (core_timer s) t))
                       (with_timer_list (logic s) (delete timer_id (plgin_timer_list_ (logic s)))))
  | None => (false, s)
  end.

(** The callbacks of the timers. *)
Definition run_timer_callback (s : sys) (k : timer_task) : outcome sys :=
  match k with
  | KRunCheck t => Ok (post s 0 (TRunCheck t))
  | KPlugin p tag send id =>
      let s := with_logic s (with_timer_list (logic s) (delete id (plgin_timer_list_ (logic s)))) in
      do_plugin_thread_module_logic s p tag send
  | KFunc t func id =>
      Ok (post (with_logic s (with_timer_list (logic s) (delete id (plgin_timer_list_ (logic s))))) t (TFunc func))
  end.

(** ** Checks *)

Definition JSON_MODULE_THREAD_ID : list Z := 123 :: 34 :: bytes_of_string "thread id" ++ [34; 58].
Definition JSON_MODULE_COMMAND_ID : list Z := [44; 32; 34] ++ bytes_of_string "command id" ++ [34; 58; 34].
Definition JSON_MODULE_WORK_THREAD_TIMEOUT : list Z :=
  [34; 44; 32; 34] ++ bytes_of_string "work_thread_timeout" ++ [34; 58].
Definition JSON_MODULE_END : list Z := [34; 125].

Definition do_work_thread_timeout (s : sys) (work_thread_id last_command work_thread_timeout : Z) : outcome sys :=
  let buf := JSON_MODULE_THREAD_ID ++ decimal work_thread_id ++ JSON_MODULE_COMMAND_ID ++ decimal last_command ++
             JSON_MODULE_WORK_THREAD_TIMEOUT ++ decimal work_thread_timeout ++ JSON_MODULE_END in
  let source := mkSource work_thread_id 0 0 CONNECT_IO_SERVER_TCP ClientIPInfo_default ClientIPInfo_default in
  let* p := thread_module s 0 in
  let* '(_, _, s) := do_thread_module_logic s p source (mkPacket [] buf LOGIC_THREAD_DEAD_LOCK) fresh_packet in
  Ok s.

Fixpoint check_threads (s : sys) (ps : list ptr) (timeout_seconds : Z) : outcome sys :=
  match ps with
  | [] => Ok s
  | p :: ps =>
      let* m := get_ml s p in
      let t := get_work_thread_timeout m (clock s) in
      if i32 timeout_seconds <? t
      then let* s := do_work_thread_timeout s (ml_work_thread_id_ m) (last_dispose_command_id_ m) t in
           check_threads s ps timeout_seconds
      else check_threads s ps timeout_seconds
  end.
Fixpoint post_checks (s : sys) (ps : list ptr) : outcome sys :=
  match ps with
  | [] => Ok s
  | p :: ps =>
      let* m := get_ml s p in
      post_checks (post s (ml_work_thread_id_ m) (TCheckTimeout (connect_timeout_ (logic s)) p)) ps
  end.
Definition run_check_task (s : sys) (timeout_seconds : Z) : outcome sys :=
  let* s := check_threads s (thread_module_list_ (logic s)) timeout_seconds in
  if 0 <? connect_timeout_ (logic s) then post_checks s (thread_module_list_ (logic s)) else Ok s.

(** The events of a list of sessions to close. *)
Fixpoint close_events (s : sys) (l : list (Z * option session)) : outcome sys :=
  match l with
  | [] => Ok s
  | (id, x) :: l => let* s := close_session_event s id x in close_events s l
  end.
Definition ml_check_session_io_timeout (s : sys) (p : ptr) (connect_timeout : Z) : outcome sys :=
  let* m := get_ml s p in
  let '(l, m) := ml_check_timeout m (clock s) connect_timeout in
  close_events (set_ml s p m) (map (fun c => (session_id_ c, Some (cancel_session_ c))) l).

(** ** Running the closures *)

Definition run_task (s : sys) (t : task) : outcome sys :=
  match t with
  | TDispatch p source recv send => let* '(_, _, s) := do_thread_module_logic s p source recv send in Ok s
  | TClose c x => Ok (match x with Some x => emit s [close x c] | None => s end)
  | TMessages x c l p => do_work_thread_module_logic s x c l p
  | TDelivery c p ml => do_io_message_delivery s c p ml
  | TPlugin p tag recv =>
      let* m := get_ml s p in
      let source := mkSource (ml_work_thread_id_ m) 0 0 CONNECT_IO_FRAME ClientIPInfo_default (mkClientIPInfo tag 0) in
      let* '(_, _, s) := do_thread_module_logic s p source recv fresh_packet in Ok s
  | TFrameEvents c mk ip port ty => do_work_thread_frame_events s c mk ip port ty
  | TCheckTimeout t p => ml_check_session_io_timeout s p t
  | TCloseAll p =>
      let* m := get_ml s p in
      close_events s (map (fun id => (id, ml_get_session m id)) (each_session_id (sessions_interface_ m)))
  | TRunCheck t => run_check_task s t
  | TFunc f => Ok (with_plugins s (f (plugins s)))
  end.

(** The message a thread is about to run, and a step of the thread. *)
Definition next_task (s : sys) (i : Z) : option task :=
  match m_mapLogicList (tms s) !! i with
  | Some t => match svc_at t, m_thread_queue t with
              | AtPop, mkLogicMessage (Some f) LOGIC_TYPE_RUN :: _ => Some f
              | _, _ => None
              end
  | None => None
  end.
Definition exec_thread (s : sys) (i : Z) : outcome sys :=
  match thread_step (tms s) i with
  | None => Ok s
  | Some t => match next_task s i with Some f => run_task (with_tms s t) f | None => Ok (with_tms s t) end
  end.

(** A step of the timer thread; a callback runs in it.  With [stray] a wait ends early. *)
Definition exec_timer (s : sys) (stray : bool) : outcome sys :=
  let m := core_timer s in
  match pc m with
  | Idle => Ok (match timer_run_peek m with Some m => with_core s m | None => s end)
  | Waiting tmp until =>
      Ok (if (until <=? now m) || bool_decide (timer_wakeup_state m = TIMER_STATE_ADD_TIMER) || stray
          then with_core s (timer_run_wake m tmp) else s)
  | Ready tmp =>
      let cb := if timer_run_ m then match store m !! tmp with Some t => fst (execute t (now m)) | None => None end
                else None in
      let s := with_core s (timer_run_fire m tmp) in
      match cb with Some k => run_timer_callback s k | None => Ok s end
  | Stopped => Ok s
  end.
Definition tick (s : sys) (d : Z) : sys :=
  let m := core_timer s in
  with_core s (mkMgr (store m) (mTimers m) (timer_run_ m) (timer_wakeup_state m) (now m + Z.max 0 d) (pc m) (fired m)).

(** ** Start and end *)

(** [init_work_thread_logic] up to the creation of the threads: plugins are loaded while
    [module_init_finish_] is false. *)
Record config_logic := mkConfigLogic { logic_path_ : string; logic_file_name_ : string; logic_param_ : string }.

Definition init_begin (dlopen : string → option (library W)) (s : sys) (thread_count connect_timeout : Z)
    (logic_list : list config_logic) (service : option Z) : sys :=
  let l := logic s in
  let s := with_logic s (mkWTL (thread_module_list_ l) (u16 thread_count) (module_init_finish_ l)
             (plugin_work_thread_buffer_list_ l) (plugin_work_thread_buffer_message_list_ l)
             (plugin_work_thread_buffer_Func_list_ l) (plugin_work_thread_list_ l) (plgin_timer_list_ l) connect_timeout) in
  let s := with_tms s (TMS_init (clock s)) in
  let s := with_loader s (set_session_service (loader s) service) in
  with_loader s (foldl (fun ld c => snd (load_plugin_module dlopen ld (logic_path_ c) (logic_file_name_ c) (logic_param_ c)))
                   (loader s) logic_list).

(** The loop over the threads; [tids i] is the identifier of the [i]-th one. *)
Fixpoint create_threads (s : sys) (tids : Z → Z) (i : Z) (n : nat) : sys :=
  match n with
  | O => s
  | S n =>
      let '(p, s) := new_module s i in
      let l := logic s in
      let s := with_logic s (mkWTL (thread_module_list_ l ++ [p]) (thread_count_ l) (module_init_finish_ l)
                 (plugin_work_thread_buffer_list_ l) (plugin_work_thread_buffer_message_list_ l)
                 (plugin_work_thread_buffer_Func_list_ l) (plugin_work_thread_list_ l) (plgin_timer_list_ l)
                 (connect_timeout_ l)) in
      create_threads (with_tms s (snd (CreateLogic (tms s) i (tids i)))) tids (i + 1) n
  end.
Definition set_init_finish (l : CWorkThreadLogic) : CWorkThreadLogic :=
  mkWTL (thread_module_list_ l) (thread_count_ l) true (plugin_work_thread_buffer_list_ l)
    (plugin_work_thread_buffer_message_list_ l) (plugin_work_thread_buffer_Func_list_ l) (plugin_work_thread_list_ l)
    (plgin_timer_list_ l) (connect_timeout_ l).
Fixpoint create_plugin_threads (s : sys) (tids : Z → Z) (l : list Z) : sys :=
  match l with
  | [] => s
  | id :: l =>
      match plugin_work_thread_list_ (logic s) !! id with
      | Some _ => create_plugin_threads s tids l
      | None => create_plugin_threads (create_plugin_thread s id (tids id)) tids l
      end
  end.
Fixpoint replay_messages (s : sys) (l : list CDelayPluginMessage) : outcome sys :=
  match l with
  | [] => Ok s
  | m :: l =>
      let* '(_, s) := do_frame_message s (dm_tag_thread_id_ m) (dm_message_tag_ m) (dm_send_packet_ m) (dm_delay_timer_ m) in
      replay_messages s l
  end.
Definition replay_funcs (s : sys) (l : list CDelayPluginFunc) : sys :=
  foldl (fun s f => snd (do_work_thread_logic s (df_tag_thread_id_ f) (df_delay_timer_ f) (df_func_ f))) s l.
Definition start_check_timer (s : sys) (timeout_seconds : Z) : sys :=
  with_core s (addTimer_loop (core_timer s) (fresh (dom (store (core_timer s)))) 0 (timeout_seconds * 1000000000)
                 (KRunCheck timeout_seconds)).
Definition init_end (s : sys) (thread_count timeout_seconds : Z) (tids : Z → Z) : outcome sys :=
  let s := with_sync s (CSyncLogic_Init (sync s) (get_session_function_list (loader s))) in
  let s := create_threads s tids 0 (Z.to_nat thread_count) in
  let s := with_logic s (set_init_finish (logic s)) in
  let s := create_plugin_threads s tids (plugin_work_thread_buffer_list_ (logic s)) in
  let s := with_tms s (Start (tms s) 0) in
  let s := with_logic s (with_plugin_threads (logic s) [] (plugin_work_thread_list_ (logic s))) in
  let* s := replay_messages s (plugin_work_thread_buffer_message_list_ (logic s)) in
  let s := with_logic s (with_buffers (logic s) [] (plugin_work_thread_buffer_Func_list_ (logic s))) in
  let s := replay_funcs s (plugin_work_thread_buffer_Func_list_ (logic s)) in
  let s := with_logic s (with_buffers (logic s) (plugin_work_thread_buffer_message_list_ (logic s)) []) in
  Ok (start_check_timer s timeout_seconds).
Definition init_work_thread_logic (dlopen : string → option (library W)) (s : sys)
    (thread_count timeout_seconds connect_timeout : Z) (logic_list : list config_logic) (service : option Z)
    (tids : Z → Z) : outcome sys :=
  init_end (init_begin dlopen s thread_count connect_timeout logic_list service) thread_count timeout_seconds tids.
Definition init_communication_service (s : sys) (c : comm) : sys := with_comm s (Some c).

(** [close] up to the joins: the tasks still in the queues are not run. *)
Fixpoint post_close_all (s : sys) (ps : list ptr) : outcome sys :=
  match ps with
  | [] => Ok s
  | p :: ps => let* m := get_ml s p in post_close_all (post s (ml_work_thread_id_ m) (TCloseAll p)) ps
  end.
Fixpoint close_interfaces (s : sys) (ps : list ptr) : outcome sys :=
  match ps with
  | [] => Ok s
  | p :: ps => let* m := get_ml s p in close_interfaces (set_ml s p (ml_close m)) ps
  end.
Definition wt_close (s : sys) : outcome sys :=
  let s := with_comm s (comm_close <$> communicate_service_ s) in
  let* s := post_close_all s (thread_module_list_ (logic s)) in
  let* s := close_interfaces s (map snd (map_to_list (plugin_work_thread_list_ (logic s)))) in
  let s := with_tms s (TMS_Close (tms s)) in
  let* s := close_interfaces s (thread_module_list_ (logic s)) in
  let l := logic s in
  let s := with_logic s (mkWTL [] (thread_count_ l) (module_init_finish_ l) (plugin_work_thread_buffer_list_ l)
             (plugin_work_thread_buffer_message_list_ l) (plugin_work_thread_buffer_Func_list_ l)
             (plugin_work_thread_list_ l) (plgin_timer_list_ l) (connect_timeout_ l)) in
  Ok (with_loader s (CLoadModule_Close (loader s))).

(** The remaining queries. *)
Definition get_io_work_thread_count (s : sys) : Z := thread_count_ (logic s).
Definition get_plugin_work_thread_count (s : sys) : Z := u16 (Z.of_nat (size (plugin_work_thread_list_ (logic s)))).
Definition module_run (s : sys) (name : string) (send ret : CMessage_Packet)
  : outcome (Z * CMessage_Packet * CMessage_Packet * sys) :=
  let* '(r, send, ret, l) := plugin_in_name_to_module_run (loader s) name send ret in
  Ok (r, send, ret, with_loader s l).
Definition get_curr_thread_logic_id (s : sys) (tid : Z) : Z := GetLogicThreadID (tms s) tid.
Definition wt_get_session_interface (s : sys) (connect_id : Z) : outcome (option session) :=
  let* i := curr_thread_index s connect_id in
  let* p := thread_module s i in
  let* m := get_ml s p in
  Ok (ml_get_session m connect_id).

End WorkThread.
Arguments task : clear implicits.
Arguments timer_task : clear implicits.
Arguments sys : clear implicits.
Arguments CModuleLogic : clear implicits.
Arguments CWorkThreadLogic : clear implicits.

(** ** The invariant *)
Section WorkThreadLemmas.

Context {W session comm : Type} `{!ISession session} `{!ICommunicationInterface comm} `{PQ : !PriorityQueue}.
Notation system := (sys W session comm).
Implicit Types (s : system) (f : task W session) (k : timer_task W).

(** The connection a task is about, and the module it uses. *)
Definition task_connect f : option Z :=
  match f with
  | TDispatch _ source _ _ => Some (connect_id_ source)
  | TClose c _ => Some c
  | TMessages _ c _ _ => Some c
  | TDelivery c _ _ => Some c
  | _ => None
  end.
Definition task_ptr f : option nat :=
  match f with
  | TDispatch p _ _ _ | TMessages _ _ _ p | TDelivery _ _ p | TPlugin p _ _ | TCheckTimeout _ p | TCloseAll p => Some p
  | _ => None
  end.
Definition timer_ptr k : option nat := match k with KPlugin p _ _ _ => Some p | _ => None end.

(** A task of thread [i]: its connection belongs to the thread, and the module of a
    connection's task is the module of the thread. *)
Definition task_ok s (i : Z) f : Prop :=
  (∀ c, task_connect f = Some c → c mod thread_count_ (logic s) = i) ∧
  (∀ p, task_ptr f = Some p → (p < length (modules s))%nat ∧
     (is_Some (task_connect f) → thread_module_list_ (logic s) !! Z.to_nat i = Some p)).

Definition tasks_of (t : CLogicTasK (task W session)) : list (task W session) := executed t ++ queued (m_thread_queue t).

(** The module of thread [i]. *)
Definition module_ok s (i : nat) (m : CModuleLogic W session) : Prop :=
  ml_work_thread_id_ m = Z.of_nat i ∧
  ∀ c, is_Some (sessions_list_ (sessions_interface_ m) !! c) → c mod thread_count_ (logic s) = Z.of_nat i.

Record wf_core s : Prop := {
  w_count : 0 < thread_count_ (logic s) < 65536;
  w_mod i p : thread_module_list_ (logic s) !! i = Some p → ∃ m, modules s !! p = Some m ∧ module_ok s i m;
  w_plugin th p : plugin_work_thread_list_ (logic s) !! th = Some p → (p < length (modules s))%nat;
  w_tasks i t f : m_mapLogicList (tms s) !! i = Some t → f ∈ tasks_of t → task_ok s i f;
  w_comm : is_Some (communicate_service_ s);
  w_timers id t k p : store (core_timer s) !! id = Some t → mCallback t = Some k → timer_ptr k = Some p →
    (p < length (modules s))%nat;
  w_bridge : bridge_live (bridge s);
}.
Record wf_sys s : Prop := {
  wf_is_core : wf_core s;
  w_len : length (thread_module_list_ (logic s)) = Z.to_nat (thread_count_ (logic s));
  w_start : tms_is_start_ (tms s) = true;
}.

(** What every operation keeps. *)
Definition frame s s' : Prop :=
  thread_count_ (logic s') = thread_count_ (logic s) ∧ thread_module_list_ (logic s') = thread_module_list_ (logic s) ∧
  (length (modules s) <= length (modules s'))%nat ∧ sync s' = sync s ∧
  ∀ i, is_Some (m_mapLogicList (tms s) !! i) → is_Some (m_mapLogicList (tms s') !! i).

#[export] Instance frame_preorder : PreOrder frame.
Proof.
  split; [by intros s; split_and!|]. intros s1 s2 s3 (? & ? & ? & ? & ?) (? & ? & ? & ? & ?). split_and!; try congruence; [lia|auto].
Qed.

(** Good outcomes: no fault, and the invariant. *)
Definition good s (o : outcome system) : Prop := ∃ s', o = Ok s' ∧ wf_sys s' ∧ frame s s'.

Lemma good_ok s s' : wf_sys s' → frame s s' → good s (Ok s').
Proof. intros. by exists s'. Qed.
Lemma good_bind s s1 (o : outcome system) (g : system → outcome system) :
  good s o → (∀ s', wf_sys s' → frame s s' → good s' (g s')) → good s (obind o g).
Proof.
  intros (s' & -> & Hw & Hf) Hg. destruct (Hg s' Hw Hf) as (s2 & E & Hw2 & Hf2). exists s2. cbn.
  split_and!; [done|done|by etrans].
Qed.

Lemma task_ok_mono s s' i f : frame s s' → task_ok s i f → task_ok s' i f.
Proof.
  intros (E1 & E2 & E3 & _) [H1 H2]. split; rewrite ?E1, ?E2; [done|].
  intros p Hp. destruct (H2 p Hp). split; [lia|done].
Qed.

(** The pieces the operations are made of. *)
Lemma get_ml_ok s p : (p < length (modules s))%nat → ∃ m, get_ml s p = Ok m ∧ modules s !! p = Some m.
Proof. intros H. apply lookup_lt_is_Some in H as [m Hm]. exists m. unfold get_ml. by rewrite Hm. Qed.

Lemma thread_ok s c : wf_sys s → ∃ p, curr_thread_index s c = Ok (c mod thread_count_ (logic s)) ∧
  thread_module s (c mod thread_count_ (logic s)) = Ok p ∧
  thread_module_list_ (logic s) !! Z.to_nat (c mod thread_count_ (logic s)) = Some p ∧ (p < length (modules s))%nat.
Proof.
  intros [Hc Hl _]. pose proof (w_count _ Hc) as Hn.
  pose proof (Z.mod_pos_bound c (thread_count_ (logic s)) (proj1 Hn)) as Hm.
  destruct (lookup_lt_is_Some_2 (thread_module_list_ (logic s)) (Z.to_nat (c mod thread_count_ (logic s)))) as [p Hp]; [lia|].
  exists p. unfold curr_thread_index, thread_module. rewrite Hp. split_and!; try done.
  - destruct (Z.eqb_spec (thread_count_ (logic s)) 0); [lia|done].
  - destruct (w_mod _ Hc _ _ Hp) as (m & Hm' & _). by apply lookup_lt_Some in Hm'.
Qed.

Lemma thread0_ok s : wf_sys s → ∃ p, thread_module s 0 = Ok p ∧ (p < length (modules s))%nat.
Proof.
  intros H. pose proof (w_count _ (wf_is_core _ H)) as Hn. destruct (thread_ok s 0 H) as (p & _ & H2 & _ & H4).
  rewrite Z.mod_0_l in H2 by lia. eauto.
Qed.

Lemma post_good s i f : wf_sys s → task_ok s i f → wf_sys (post s i f) ∧ frame s (post s i f).
Proof.
  intros [Hc Hl Hs] Hf.
  assert (Hfr : frame s (post s i f)).
  { split_and!; try done. intros j. unfold post. cbn [with_tms tms]. destruct (AddMessage_started (tms s) j f i Hs) as [-> _].
    destruct (decide (i = j)); [by rewrite fmap_is_Some|done]. }
  split; [|done]. unfold post.
  destruct (AddMessage_started (tms s) i f i Hs) as [_ Hs']. split; [|done|done].
  destruct Hc as [? ? ? Ht ? ? ?]. split; cbn; try done. intros j t g Hj Hg.
  destruct (AddMessage_started (tms s) j f i Hs) as [Ej _]. rewrite Ej in Hj.
  destruct (decide (i = j)) as [->|]; [|by apply (Ht j t)].
  destruct (m_mapLogicList (tms s) !! j) as [t0|] eqn:E; [|done]. cbn in Hj. injection Hj as <-.
  unfold tasks_of in Hg. rewrite queued_put, app_assoc in Hg. cbn [executed Put] in Hg.
  apply elem_of_app in Hg as [Hg|Hg]; [by apply (Ht j t0)|]. apply list_elem_of_singleton in Hg as ->. done.
Qed.

Lemma set_ml_good s p m m' : wf_sys s → modules s !! p = Some m → ml_work_thread_id_ m' = ml_work_thread_id_ m →
  (∀ c, is_Some (sessions_list_ (sessions_interface_ m') !! c) →
     is_Some (sessions_list_ (sessions_interface_ m) !! c) ∨ c mod thread_count_ (logic s) = ml_work_thread_id_ m) →
  wf_sys (set_ml s p m') ∧ frame s (set_ml s p m').
Proof.
  intros [Hc Hl Hs] Hm Hid Hses.
  assert (Hf : frame s (set_ml s p m')) by (split_and!; try done; cbn; by rewrite length_insert).
  split; [|done]. split; [|done|done]. pose proof (lookup_lt_Some _ _ _ Hm) as Hlt. destruct Hc as [H1 H2 H3 H4 H5 H6 H7].
  split; try done.
  - intros i q Hq. destruct (H2 i q Hq) as (mq & Hmq & Hok). cbn. destruct (decide (p = q)) as [<-|].
    + exists m'. rewrite list_lookup_insert_eq by done. split; [done|]. rewrite Hm in Hmq. injection Hmq as <-.
      destruct Hok as [Ha Hb]. split; [congruence|]. intros c [Hc|Hc]%Hses; [by apply Hb|]. cbn. congruence.
    + exists mq. by rewrite list_lookup_insert_ne.
  - intros k q Hq. cbn. rewrite length_insert. by apply (H3 k).
  - intros i t f Ht Hin. apply (task_ok_mono s); [done|]. by apply (H4 i t f).
  - intros id t k q. cbn. rewrite length_insert. apply H6.
Qed.

(** Changes that do not touch what the invariant is about. *)
Lemma wf_ext s s' : logic s' = logic s → modules s' = modules s → tms s' = tms s → core_timer s' = core_timer s →
  is_Some (communicate_service_ s') → bridge_live (bridge s') → sync s' = sync s →
  wf_sys s → wf_sys s' ∧ frame s s'.
Proof.
  intros E1 E2 E3 E4 E5 E6 E7 [[H1 H2 H3 H4 H5 H6 H7] Hl Hs]. split; [|split_and!; try congruence; by rewrite E2].
  split; [split|by rewrite E1|by rewrite E3]; unfold module_ok, task_ok in *; rewrite ?E1, ?E2, ?E3, ?E4; done.
Qed.

Lemma emit_good s e : wf_sys s → wf_sys (emit s e) ∧ frame s (emit s e).
Proof. intros Hw. pose proof Hw as [[? ? ? ? ? ? Hb] _ _]. by apply wf_ext. Qed.
Lemma with_comm_good s c : wf_sys s → wf_sys (with_comm s (Some c)) ∧ frame s (with_comm s (Some c)).
Proof. intros Hw. pose proof Hw as [[? ? ? ? ? ? Hb] _ _]. apply wf_ext; try done. Qed.
Lemma with_plugins_good s w : wf_sys s → wf_sys (with_plugins s w) ∧ frame s (with_plugins s w).
Proof. intros Hw. pose proof Hw as [[? ? ? ? ? ? Hb] _ _]. apply wf_ext; try done. Qed.

(** Chains of good steps. *)
Lemma good_trans s s1 o : frame s s1 → good s1 o → good s o.
Proof. intros Hf (s2 & -> & Hw & Hf2). exists s2. split_and!; try done. by etrans. Qed.

Lemma get_comm_ok s : wf_sys s → ∃ c, get_comm s = Ok c.
Proof. intros [[? ? ? ? [c Hc] ? ?] _ _]. exists c. unfold get_comm. by rewrite Hc. Qed.

Lemma dispatch_good s p source recv send : wf_sys s → (p < length (modules s))%nat →
  ∃ r send' s', do_thread_module_logic s p source recv send = Ok (r, send', s') ∧ wf_sys s' ∧ frame s s' ∧ trace s' = trace s.
Proof.
  intros Hw Hp. destruct (get_ml_ok s p Hp) as (m & Em & Hm). unfold do_thread_module_logic. rewrite Em. cbn [obind].
  destruct (set_ml_good s p m (ml_begin m (command_id_ recv)) Hw Hm) as [Hw1 Hf1]; [done|by left|].
  destruct (do_module_message _ _ _ _ _) as [[[ret ?] send'] w]. cbv beta iota.
  set (s1 := set_ml s p (ml_begin m (command_id_ recv))) in *.
  destruct (with_plugins_good s1 w Hw1) as [Hw2 Hf2]. set (s2 := with_plugins s1 w) in *.
  assert (Hm2 : modules s2 !! p = Some (ml_begin m (command_id_ recv))) by (cbn; by rewrite list_lookup_insert_eq).
  unfold get_ml. rewrite Hm2. cbn [obind].
  destruct (set_ml_good s2 p _ (ml_end (ml_begin m (command_id_ recv)) (clock s2)) Hw2 Hm2) as [Hw3 Hf3]; [done|by left|].
  eexists _, _, _. split; [reflexivity|]. split; [done|]. split; [|done]. by etrans; [|etrans].
Qed.

Lemma report_good s server c : wf_sys s → good s (report_connect s server c).
Proof.
  intros Hw. unfold report_connect. destruct (0 <? server); [|by apply good_ok].
  destruct (get_comm_ok s Hw) as [cm ->]. cbn. destruct (with_comm_good s (comm_set_connect_id cm server c) Hw). by apply good_ok.
Qed.

Lemma frame_count s s' : frame s s' → thread_count_ (logic s') = thread_count_ (logic s).
Proof. by intros (? & _). Qed.

(** A task for connection [c] put into the queue of its thread. *)
Lemma post_connect_good s c p f : wf_sys s →
  thread_module_list_ (logic s) !! Z.to_nat (c mod thread_count_ (logic s)) = Some p → (p < length (modules s))%nat →
  task_connect f = Some c → (∀ q, task_ptr f = Some q → q = p) →
  good s (Ok (post s (c mod thread_count_ (logic s)) f)).
Proof.
  intros Hw Hp Hl Hc Hq. destruct (post_good s (c mod thread_count_ (logic s)) f Hw) as [? ?]; [|by apply good_ok].
  split; [by intros c'; rewrite Hc; intros [= <-]|]. intros q ->%Hq. done.
Qed.

Ltac on_thread s c Hw p := destruct (thread_ok s c Hw) as (p & Hidx & Hthr & Hlook & Hlt); rewrite Hidx; cbn [obind]; rewrite Hthr; cbn [obind].

Lemma close_session_event_good s c x : wf_sys s → good s (close_session_event s c x).
Proof. intros Hw. unfold close_session_event. on_thread s c Hw p. by apply (post_connect_good s c p). Qed.

Lemma send_io_message_good s c q : wf_sys s → good s (send_io_message s c q).
Proof. intros Hw. unfold send_io_message. on_thread s c Hw p. apply (post_connect_good s c p); try done. by intros ? [= <-]. Qed.

Lemma with_events_good s c l x : wf_sys s → good s (assignation_thread_module_logic_with_events s c l x).
Proof.
  intros Hw. unfold assignation_thread_module_logic_with_events. on_thread s c Hw p.
  apply (post_connect_good s c p); try done. by intros ? [= <-].
Qed.
Lemma iotoio_error_good s c l x : wf_sys s → good s (assignation_thread_module_logic_iotoio_error s c l x).
Proof.
  intros Hw. unfold assignation_thread_module_logic_iotoio_error. on_thread s c Hw p.
  apply (post_connect_good s c p); try done. by intros ? [= <-].
Qed.

Lemma assignation_good s c l x : wf_sys s → good s (assignation_thread_module_logic s c l x).
Proof.
  intros Hw. unfold assignation_thread_module_logic. destruct (do_sync_message_list _ _ _ _ _) as [[l' send] w].
  destruct (with_plugins_good s w Hw) as [Hw1 Hf1]. apply (good_trans _ _ _ Hf1).
  match goal with |- good _ (if _ then obind (curr_thread_index ?s2 _) _ else _) => assert (Hs2 : wf_sys s2 ∧ frame (with_plugins s w) s2) end.
  { destruct (0 <? zlen (pbuffer_ send)); [|done]. by apply emit_good. }
  destruct Hs2 as [Hw2 Hf2]. apply (good_trans _ _ _ Hf2). revert Hw2.
  match goal with |- wf_sys ?s2 → _ => generalize s2 end. intros s2 Hw2.
  destruct (0 <? zlen l'); [|by apply good_ok]. on_thread s2 c Hw2 p.
  apply (post_connect_good s2 c p); try done. by intros ? [= <-].
Qed.

(** Calls of the bridge. *)
Lemma bridge_good s o : wf_sys s →
  ∃ b' T', bridge_step (bridge s) (apply_effects ∅ (trace s)) o = Ok (b', T') ∧ bridge_live b'.
Proof. intros [[? ? ? ? ? ? Hb] _ _]. by apply bridge_step_live. Qed.

Lemma with_bridge_good s b e : wf_sys s → bridge_live b →
  wf_sys (with_bridge s b e) ∧ frame s (with_bridge s b e).
Proof.
  intros Hw Hb. pose proof Hw as [[? ? ? ? ? ? _] _ _]. by apply wf_ext.
Qed.

(** The first half of both session operations: the report to the communication service and
    the change of the session table of the thread. *)
Lemma session_update_good s c p server v (upd : CModuleLogic W session → CModuleLogic W session) : wf_sys s →
  thread_module_list_ (logic s) !! Z.to_nat (c mod thread_count_ (logic s)) = Some p →
  (∀ m, ml_work_thread_id_ (upd m) = ml_work_thread_id_ m ∧ ∀ c',
     is_Some (sessions_list_ (sessions_interface_ (upd m)) !! c') →
     is_Some (sessions_list_ (sessions_interface_ m) !! c') ∨ c' = c) →
  ∃ s1 m, report_connect s server v = Ok s1 ∧ get_ml s1 p = Ok m ∧ wf_sys (set_ml s1 p (upd m)) ∧
    frame s (set_ml s1 p (upd m)) ∧ bridge s1 = bridge s ∧ trace s1 = trace s.
Proof.
  intros Hw Hlook Hupd.
  assert (Hbr : ∀ s1, report_connect s server v = Ok s1 → bridge s1 = bridge s ∧ trace s1 = trace s).
  { intros s1. unfold report_connect. destruct (0 <? server); [|by intros [= <-]].
    destruct (get_comm s); [|done]. cbn. by intros [= <-]. }
  destruct (report_good s server v Hw) as (s1 & E1 & Hw1 & Hf1). destruct (Hbr s1 E1) as [Hb1 Ht1].
  pose proof Hf1 as (Hc1 & Hl1 & _). rewrite <- Hc1, <- Hl1 in Hlook.
  destruct (w_mod _ (wf_is_core _ Hw1) _ _ Hlook) as (m & Hm & [Hid _]).
  pose proof (Z.mod_pos_bound c _ (proj1 (w_count _ (wf_is_core _ Hw1)))) as Hpos. rewrite Z2Nat.id in Hid by lia.
  destruct (Hupd m) as [Hid' Hses].
  destruct (set_ml_good s1 p m (upd m) Hw1 Hm Hid') as [Hw2 Hf2].
  { intros c' [?| ->]%Hses; [by left|right; congruence]. }
  exists s1, m. unfold get_ml. rewrite Hm. split_and!; try done. by etrans.
Qed.

(** The second half: the event goes to the synchronous handler or to the queue. *)
Lemma session_event_good s c p cmd source recv (reply : CMessage_Packet → list (session_effect session)) : wf_sys s →
  thread_module_list_ (logic s) !! Z.to_nat (c mod thread_count_ (logic s)) = Some p → connect_id_ source = c →
  good s (let '(hit, send, w) := do_sync_message (sync s) (plugins s) cmd source recv fresh_packet in
          if hit then Ok (emit (with_plugins s w) (reply send))
          else Ok (post (with_plugins s w) (c mod thread_count_ (logic s)) (TDispatch p source recv send))).
Proof.
  intros Hw Hlook Hc. destruct (w_mod _ (wf_is_core _ Hw) _ _ Hlook) as (m & Hm & _). apply lookup_lt_Some in Hm.
  destruct (do_sync_message _ _ _ _ _ _) as [[hit send] w]. destruct (with_plugins_good s w Hw) as [Hw1 Hf1].
  apply (good_trans _ _ _ Hf1). destruct hit.
  - destruct (emit_good (with_plugins s w) (reply send)) as [? ?]; [done|by apply good_ok].
  - apply (post_connect_good (with_plugins s w) c p); try done; [cbn; by f_equal|by intros ? [= <-]].
Qed.

(** The immediate write of a reply, if there is one. *)
Definition write_reply (x : session) (c : Z) (send : CMessage_Packet) : list (session_effect session) :=
  if 0 <? zlen (pbuffer_ send) then [do_write_immediately x c (pbuffer_ send)] else [].
Lemma emit_nil s : emit s [] = s.
Proof. unfold emit, with_bridge. rewrite app_nil_r. by destruct s. Qed.

Lemma add_thread_session_good s c x local remote : wf_sys s → good s (add_thread_session s c x local remote).
Proof.
  intros Hw. unfold add_thread_session. on_thread s c Hw p.
  destruct (session_update_good s c p (get_mark_id x c) c (λ m, ml_add_session m c x local remote) Hw Hlook)
    as (s1 & m & -> & E2 & Hw2 & Hf2 & Hb & Ht).
  { intros m. split; [done|]. intros c'. cbn. unfold add_session_interface.
    destruct (sessions_list_ _ !! c); [by left|]. cbn.
    destruct (decide (c = c')) as [<-|]; [by right|rewrite lookup_insert_ne by done; by left]. }
  cbn [obind]. rewrite E2. cbn [obind]. apply (good_trans _ _ _ Hf2). pose proof Hf2 as (Hc2 & Hl2 & _).
  set (s2 := set_ml s1 p (ml_add_session m c x local remote)) in *.
  rewrite <- Hc2, <- Hl2 in Hlook. rewrite <- Hc2.
  destruct (bridge_good s2 (OpRegister remote (get_io_type x) c x) Hw2) as (b' & T' & E & Hb').
  unfold bridge_step in E. destruct (regedit_bridge_session_info _ _ _ _ _) as [[e b]|]; [|done]. cbn [obind] in *.
  injection E as <- <-. destruct (with_bridge_good s2 b e Hw2 Hb') as [Hw3 Hf3]. apply (good_trans _ _ _ Hf3).
  pose proof (session_event_good (with_bridge s2 b e) c p LOGIC_COMMAND_CONNECT
    (mkSource (ml_work_thread_id_ m) c (get_mark_id x c) (get_io_type x) local remote) (mkPacket [] [] LOGIC_COMMAND_CONNECT)
    (write_reply x c) Hw3 Hlook eq_refl) as H.
  destruct (do_sync_message _ _ _ _ _ _) as [[hit send] w].
  destruct hit; [|apply H]. unfold write_reply in H. destruct (0 <? zlen (pbuffer_ send)); [|rewrite emit_nil in H]; apply H.
Qed.

Lemma delete_thread_session_good s c x local ty : wf_sys s → good s (delete_thread_session s c x local ty).
Proof.
  intros Hw. unfold delete_thread_session. on_thread s c Hw p.
  destruct (session_update_good s c p (get_mark_id x c) 0 (λ m, ml_delete_session m c) Hw Hlook)
    as (s1 & m & -> & E2 & Hw2 & Hf2 & Hb & Ht).
  { intros m. split; [done|]. intros c'. cbn. intros [y Hy]. apply lookup_delete_Some in Hy as [_ Hy]. left. eauto. }
  cbn [obind]. rewrite E2. cbn [obind]. apply (good_trans _ _ _ Hf2). pose proof Hf2 as (Hc2 & Hl2 & _).
  set (s2 := set_ml s1 p (ml_delete_session m c)) in *. rewrite <- Hc2, <- Hl2 in Hlook. rewrite <- Hc2.
  destruct (bridge_good s2 (OpUnregister local ty) Hw2) as (b' & T' & E & Hb').
  unfold bridge_step in E. destruct (unregedit_bridge_session_info _ _ _) as [[e b]|]; [|done]. cbn [obind] in *.
  injection E as <- <-. destruct (with_bridge_good s2 b e Hw2 Hb') as [Hw3 Hf3]. apply (good_trans _ _ _ Hf3).
  pose proof (session_event_good (with_bridge s2 b e) c p LOGIC_COMMAND_DISCONNECT
    (mkSource (ml_work_thread_id_ m) c (get_mark_id x c) ty ClientIPInfo_default ClientIPInfo_default)
    (mkPacket [] [] LOGIC_COMMAND_DISCONNECT) (λ _, []) Hw3 Hlook eq_refl) as H.
  destruct (do_sync_message _ _ _ _ _ _) as [[hit send] w].
  destruct hit; [rewrite emit_nil in H|]; apply H.
Qed.

(** ** The tasks *)

Lemma frame_lt s s' p : frame s s' → (p < length (modules s))%nat → (p < length (modules s'))%nat.
Proof. intros (_ & _ & ? & _) ?. lia. Qed.

Lemma messages_loop_good l p c source : ∀ s buf, wf_sys s → (p < length (modules s))%nat →
  ∃ buf' s', messages_loop s c source l p buf = Ok (buf', s') ∧ wf_sys s' ∧ frame s s'.
Proof.
  induction l as [|recv l IH]; intros s buf Hw Hp; cbn [messages_loop]; [by exists buf, s|].
  destruct (dispatch_good s p source recv fresh_packet Hw Hp) as (r & send & s1 & -> & Hw1 & Hf1 & _). cbn [obind].
  pose proof (frame_lt _ _ _ Hf1 Hp) as Hp1.
  assert (Hrec : ∀ buf, ∃ buf' s', messages_loop s1 c source l p buf = Ok (buf', s') ∧ wf_sys s' ∧ frame s s').
  { intros b. destruct (IH s1 b Hw1 Hp1) as (b' & s' & E & ? & ?). exists b', s'. split_and!; try done. by etrans. }
  destruct (zlen (pbuffer_ send) =? 0); [apply Hrec|].
  destruct (get_ml_ok s1 p Hp1) as (m & -> & _). cbn [obind].
  destruct (ml_get_session m c) as [io|]; [|apply Hrec]. destruct (is_need_send_format io); [|apply Hrec].
  destruct (format_send_packet io c send fresh_packet); apply Hrec.
Qed.

Lemma do_messages_good s x c l p : wf_sys s → (p < length (modules s))%nat → good s (do_work_thread_module_logic s x c l p).
Proof.
  intros Hw Hp. unfold do_work_thread_module_logic. destruct (get_ml_ok s p Hp) as (m & -> & _). cbn [obind].
  destruct (messages_loop_good l p c (mkSource (ml_work_thread_id_ m) c (get_mark_id x c) (get_io_type x)
    ClientIPInfo_default ClientIPInfo_default) s [] Hw Hp) as (buf & s' & -> & Hw' & Hf'). cbn [obind].
  apply (good_trans _ _ _ Hf'). destruct (0 <? zlen buf); [|by apply good_ok].
  destruct (emit_good s' [set_write_buffer x c buf; do_write x c]); [done|by apply good_ok].
Qed.

Lemma delivery_good s c q p : wf_sys s → (p < length (modules s))%nat → good s (do_io_message_delivery s c q p).
Proof.
  intros Hw Hp. unfold do_io_message_delivery, send_io_buffer_to_session. destruct (get_ml_ok s p Hp) as (m & -> & _). cbn [obind].
  assert (He : ∀ x d, good s (Ok (emit s [do_write_immediately x c d]))).
  { intros x d. destruct (emit_good s [do_write_immediately x c d]); [done|by apply good_ok]. }
  destruct (ml_get_session m c) as [x|].
  - destruct (is_need_send_format x); [|apply He]. destruct (format_send_packet x c q fresh_packet); [apply He|by apply good_ok].
  - destruct (get_comm_ok s Hw) as [cm ->]. cbn [obind]. destruct (0 <? _); [|by apply good_ok].
    destruct (with_comm_good s (comm_reset_connect cm (comm_get_server_id cm c)) Hw). by apply good_ok.
Qed.

Lemma close_events_good l : ∀ s, wf_sys s → good s (close_events s l).
Proof.
  induction l as [|[c x] l IH]; intros s Hw; cbn [close_events]; [by apply good_ok|].
  apply (good_bind s s); [by apply close_session_event_good|]. intros s' Hw' _. by apply IH.
Qed.

Lemma dispatch_task_good s p source recv send : wf_sys s → (p < length (modules s))%nat →
  good s (let* '(_, _, s) := do_thread_module_logic s p source recv send in Ok s).
Proof.
  intros Hw Hp. destruct (dispatch_good s p source recv send Hw Hp) as (r & send' & s1 & -> & Hw1 & Hf1 & _). cbn. by apply good_ok.
Qed.

Lemma frame_events_good s c mk ip port ty : wf_sys s → good s (do_work_thread_frame_events s c mk ip port ty).
Proof.
  intros Hw. unfold do_work_thread_frame_events. destruct (thread0_ok s Hw) as (p & -> & Hp). cbn [obind].
  destruct (get_ml_ok s p Hp) as (m & -> & _). cbn [obind]. by apply dispatch_task_good.
Qed.

Lemma thread_timeout_good s i cmd t : wf_sys s → good s (do_work_thread_timeout s i cmd t).
Proof.
  intros Hw. unfold do_work_thread_timeout. destruct (thread0_ok s Hw) as (p & -> & Hp). cbn [obind]. by apply dispatch_task_good.
Qed.

Lemma check_threads_good ps t : ∀ s, wf_sys s → (∀ p, p ∈ ps → (p < length (modules s))%nat) → good s (check_threads s ps t).
Proof.
  induction ps as [|p ps IH]; intros s Hw Hps; cbn [check_threads]; [by apply good_ok|].
  destruct (get_ml_ok s p (Hps p ltac:(by left))) as (m & -> & _). cbn [obind].
  destruct (i32 t <? _); [|apply IH; [done|]; intros q Hq; apply Hps; by right].
  apply (good_bind s s); [by apply thread_timeout_good|]. intros s' Hw' Hf'. apply IH; [done|].
  intros q Hq. apply (frame_lt s); [done|]. apply Hps. by right.
Qed.

(** A task about no connection can go to any thread. *)
Lemma post_free_good s i f : wf_sys s → task_connect f = None →
  (∀ p, task_ptr f = Some p → (p < length (modules s))%nat) → good s (Ok (post s i f)).
Proof.
  intros Hw Hc Hp. destruct (post_good s i f Hw); [|by apply good_ok]. split; rewrite Hc; [done|].
  intros p Hq. split; [by apply Hp|by intros []].
Qed.

Lemma post_checks_good ps : ∀ s, wf_sys s → (∀ p, p ∈ ps → (p < length (modules s))%nat) → good s (post_checks s ps).
Proof.
  induction ps as [|p ps IH]; intros s Hw Hps; cbn [post_checks]; [by apply good_ok|].
  pose proof (Hps p ltac:(by left)) as Hp. destruct (get_ml_ok s p Hp) as (m & -> & _). cbn [obind].
  destruct (post_free_good s (ml_work_thread_id_ m) (TCheckTimeout (connect_timeout_ (logic s)) p) Hw eq_refl) as (s' & [= <-] & Hw' & Hf').
  { by intros ? [= <-]. }
  apply (good_trans _ _ _ Hf'). apply IH; [done|]. intros q Hq. apply (frame_lt s); [done|]. apply Hps. by right.
Qed.

Lemma thread_ptrs s p : wf_sys s → p ∈ thread_module_list_ (logic s) → (p < length (modules s))%nat.
Proof.
  intros Hw [i Hi]%list_elem_of_lookup. destruct (w_mod _ (wf_is_core _ Hw) _ _ Hi) as (m & Hm & _). by apply lookup_lt_Some in Hm.
Qed.

Lemma run_check_good s t : wf_sys s → good s (run_check_task s t).
Proof.
  intros Hw. unfold run_check_task. apply (good_bind s s).
  - apply check_threads_good; [done|]. intros p. by apply thread_ptrs.
  - intros s' Hw' _. destruct (0 <? _); [|by apply good_ok]. apply post_checks_good; [done|]. intros p. by apply thread_ptrs.
Qed.

Lemma check_timeout_good s p t : wf_sys s → (p < length (modules s))%nat → good s (ml_check_session_io_timeout s p t).
Proof.
  intros Hw Hp. unfold ml_check_session_io_timeout. destruct (get_ml_ok s p Hp) as (m & -> & Hm). cbn [obind].
  destruct (ml_check_timeout m (clock s) t) as [l m'] eqn:E.
  assert (ml_work_thread_id_ m' = ml_work_thread_id_ m ∧
    sessions_list_ (sessions_interface_ m') = sessions_list_ (sessions_interface_ m)) as [Hid Hs].
  { unfold ml_check_timeout, check_session_io_timeout, is_need_check_session in E.
    destruct (elapsed_ge _ _ _); cbn in E; by injection E as <- <-. }
  destruct (set_ml_good s p m m' Hw Hm Hid) as [Hw1 Hf1]; [intros c; rewrite Hs; by left|].
  apply (good_trans _ _ _ Hf1). by apply close_events_good.
Qed.

Lemma run_task_good s f i : wf_sys s → task_ok s i f → good s (run_task s f).
Proof.
  intros Hw [_ Hp]. destruct f; cbn [run_task task_ptr] in *; try (destruct (Hp _ eq_refl) as [Hlt _]).
  - by apply dispatch_task_good.
  - destruct x; [|by apply good_ok]. destruct (emit_good s [close s0 connect_id]); [done|by apply good_ok].
  - by apply do_messages_good.
  - by apply delivery_good.
  - destruct (get_ml_ok s _ Hlt) as (m & -> & _). cbn [obind]. by apply dispatch_task_good.
  - by apply frame_events_good.
  - by apply check_timeout_good.
  - destruct (get_ml_ok s _ Hlt) as (m & -> & _). cbn [obind]. by apply close_events_good.
  - by apply run_check_good.
  - destruct (with_plugins_good s (func (plugins s)) Hw). by apply good_ok.
Qed.

Lemma queued_cons (m : CLogicMessage (task W session)) q :
  queued (m :: q) = match m_func m with Some f => f :: queued q | None => queued q end.
Proof. done. Qed.

Lemma svc_step_tasks (t t' : CLogicTasK (task W session)) f : svc_step t = Some t' → f ∈ tasks_of t' → f ∈ tasks_of t.
Proof.
  unfold svc_step, tasks_of. destruct (svc_at t); [by intros [= <-]| |done].
  destruct (m_thread_queue t) as [|[fn ty] q]; [done|]. cbn [MessageQueue.Pop m_emType m_func].
  destruct ty, fn as [g|]; intros [= <-]; cbn [executed m_thread_queue set_svc]; rewrite queued_cons; cbn [m_func];
    rewrite !elem_of_app, ?elem_of_cons, ?elem_of_nil; tauto.
Qed.

Lemma exec_thread_good s i : wf_sys s → good s (exec_thread s i).
Proof.
  intros Hw. unfold exec_thread, thread_step. destruct (m_mapLogicList (tms s) !! i) as [t|] eqn:Et; [|by apply good_ok].
  destruct (svc_step t) as [t'|] eqn:Est; [|by apply good_ok].
  set (s1 := with_tms s (set_logic (tms s) (<[i := t']> (m_mapLogicList (tms s))))).
  pose proof Hw as [[H1 H2 H3 H4 H5 H6 H7] Hl Hs].
  assert (Hw1 : wf_sys s1).
  { split; [|done|done]. split; try done. intros j tj f. cbn. destruct (decide (i = j)) as [<-|].
    - rewrite lookup_insert_eq. intros [= <-] Hf. apply (H4 i t f Et). by eapply svc_step_tasks.
    - rewrite lookup_insert_ne by done. apply H4. }
  assert (Hf1 : frame s s1).
  { split_and!; try done. intros j. cbn. destruct (decide (i = j)) as [<-|]; [rewrite lookup_insert_eq; eauto|by rewrite lookup_insert_ne]. }
  apply (good_trans _ s1 _ Hf1). unfold next_task. rewrite Et.
  destruct (svc_at t); try (by apply good_ok). destruct (m_thread_queue t) as [|[[f|] []] q] eqn:Eq; try (by apply good_ok).
  apply (run_task_good s1 f i); [done|]. apply (task_ok_mono s _ _ _ Hf1). apply (H4 i t f Et).
  unfold tasks_of. rewrite Eq, queued_cons. cbn [m_func]. rewrite elem_of_app, elem_of_cons. tauto.
Qed.

(** ** Server links, plugin threads and timers *)

Lemma bridge_data_good s c b buf len x : wf_sys s → wf buf → 0 <= len <= write_size_ buf →
  ∃ r buf' s', do_io_bridge_data s c b buf len x = Ok (r, buf', s') ∧ wf_sys s' ∧ frame s s' ∧ wf buf' ∧
    contents buf' = zdrop len (contents buf).
Proof.
  intros Hw Hb Hlen. pose proof Hb as [Hbl Hbw Hbm]. unfold do_io_bridge_data, read.
  rewrite mem_read_ok by lia. cbn [obind].
  set (pk := mkPacket [] _ 0). set (o := if 0 <? b then _ else _).
  assert (∃ r s', o = Ok (r, s') ∧ wf_sys s' ∧ frame s s') as (r & s' & -> & Hw' & Hf').
  { assert (Hfail : ∀ s1 (n : Z), wf_sys s1 → frame s s1 → ∃ (r : Z) s', (let* s0 := send_io_bridge_message_fail s1 c pk x in Ok (n, s0)) = Ok (r, s')
      ∧ wf_sys s' ∧ frame s s').
    { intros s1 n Hw1 Hf1. destruct (assignation_good s1 c [set_command pk LOGIC_IOTOIO_DATA_ERROR] x Hw1) as (s2 & E & Hw2 & Hf2).
      unfold send_io_bridge_message_fail. rewrite E. cbn. exists n, s2. split_and!; try done. by etrans. }
    unfold o. destruct (0 <? b); [|by apply Hfail]. unfold send_io_bridge_message. on_thread s b Hw p.
    destruct (get_ml_ok s p Hlt) as (m & -> & _). cbn [obind].
    destruct (ml_get_session m b) as [y|]; cbn [obind]; [|by apply Hfail].
    destruct (emit_good s [do_write_immediately y b (pbuffer_ pk)]); [done|]. eauto. }
  cbn [obind]. destruct (move_contents buf len Hb ltac:(lia)) as (buf' & -> & Hwf' & Hc' & _). cbn [obind].
  exists r, buf', s'. by split_and!.
Qed.

Lemma connect_io_server_good s info ty : wf_sys s →
  ∃ r s', connect_io_server s info ty = Ok (r, s') ∧ wf_sys s' ∧ frame s s'.
Proof.
  intros Hw. unfold connect_io_server. destruct (get_comm_ok s Hw) as [c ->]. cbn [obind].
  destruct (comm_is_exist c (server_id info)); [by exists false, s|].
  destruct (comm_add_connect c info ty) as [r c']. destruct (with_comm_good s c' Hw). eauto.
Qed.
Lemma close_io_server_good s server : wf_sys s → good s (close_io_server s server).
Proof.
  intros Hw. unfold close_io_server. destruct (get_comm_ok s Hw) as [c ->]. cbn [obind].
  destruct (with_comm_good s (comm_close_connect c server) Hw). by apply good_ok.
Qed.

(** Changes of the dispatcher that keep the threads, with valid plugin threads. *)
Lemma with_logic_good s l : wf_sys s → thread_count_ l = thread_count_ (logic s) →
  thread_module_list_ l = thread_module_list_ (logic s) →
  (∀ th p, plugin_work_thread_list_ l !! th = Some p → (p < length (modules s))%nat) →
  wf_sys (with_logic s l) ∧ frame s (with_logic s l).
Proof.
  intros [[H1 H2 H3 H4 H5 H6 H7] Hl Hs] E1 E2 Hp. split; [|done].
  split; [split|cbn; congruence|done]; unfold module_ok, task_ok in *; cbn; rewrite ?E1, ?E2; done.
Qed.

Lemma with_core_good s m : wf_sys s →
  (∀ id t k p, store m !! id = Some t → mCallback t = Some k → timer_ptr k = Some p → (p < length (modules s))%nat) →
  wf_sys (with_core s m) ∧ frame s (with_core s m).
Proof. intros [[H1 H2 H3 H4 H5 H6 H7] Hl Hs] Hm. split; [|done]. split; [by split|done|done]. Qed.

Lemma create_core s th tid : wf_core s →
  wf_core (create_plugin_thread s th tid) ∧ frame s (create_plugin_thread s th tid) ∧
  tms_is_start_ (tms (create_plugin_thread s th tid)) = tms_is_start_ (tms s) ∧
  m_tmsEvents (tms (create_plugin_thread s th tid)) = m_tmsEvents (tms s).
Proof.
  intros [H1 H2 H3 H4 H5 H6 H7]. unfold create_plugin_thread. cbn [new_module].
  match goal with |- wf_core ?s' ∧ _ => assert (Hf : frame s s') end.
  { split_and!; try done; [cbn; rewrite length_app; lia|]. intros j. cbn. unfold CreateLogic.
    destruct (m_mapLogicList (tms s) !! th); [done|]. cbn.
    destruct (decide (th = j)) as [<-|]; [rewrite lookup_insert_eq; eauto|by rewrite lookup_insert_ne]. }
  split; [|split; [done|]].
  - split; try done.
    + intros i p Hp. destruct (H2 i p Hp) as (m & Hm & Hok). exists m. split; [|done]. cbn. by apply lookup_app_l_Some.
    + intros k p. cbn. rewrite length_app. cbn. destruct (decide (th = k)) as [<-|].
      * rewrite lookup_insert_eq. intros [= <-]. lia.
      * rewrite lookup_insert_ne by done. intros Hp%H3. lia.
    + intros i t f Ht Hin. eapply task_ok_mono; [exact Hf|]. cbn in Ht. unfold CreateLogic in Ht.
      destruct (m_mapLogicList (tms s) !! th) eqn:E; [by apply (H4 i t f)|]. cbn in Ht.
      destruct (decide (th = i)) as [<-|]; [rewrite lookup_insert_eq in Ht|rewrite lookup_insert_ne in Ht by done].
      * injection Ht as <-. by apply not_elem_of_nil in Hin.
      * by apply (H4 i t f).
    + intros id t k p. cbn. rewrite length_app. intros Hst Hcb Hk. pose proof (H6 id t k p Hst Hcb Hk). cbn. lia.
  - cbn. unfold CreateLogic. by destruct (m_mapLogicList (tms s) !! th).
Qed.

Lemma create_thread_good s th tid : wf_sys s → wf_sys (snd (create_frame_work_thread s th tid)) ∧ frame s (snd (create_frame_work_thread s th tid)).
Proof.
  intros Hw. pose proof Hw as [Hc Hl Hs]. unfold create_frame_work_thread. destruct (th <? _); [done|]. destruct (negb _).
  - cbn [snd]. apply with_logic_good; try done. cbn. apply (w_plugin _ Hc).
  - destruct (plugin_work_thread_list_ (logic s) !! th); [done|]. cbn [snd].
    destruct (create_core s th tid Hc) as (Hc' & Hf' & Hs' & _). split; [|done]. split; [done| |congruence].
    destruct Hf' as (-> & -> & _). done.
Qed.

Lemma close_thread_good s th : wf_sys s → ∃ r s', close_frame_work_thread s th = Ok (r, s') ∧ wf_sys s' ∧ frame s s'.
Proof.
  intros Hw. pose proof Hw as [Hc _ _]. unfold close_frame_work_thread. destruct (th <? _); [by exists false, s|].
  destruct (plugin_work_thread_list_ (logic s) !! th) as [p|] eqn:E; [|by exists false, s].
  destruct (get_ml_ok s p (w_plugin _ Hc _ _ E)) as (m & -> & Hm). cbn [obind].
  destruct (set_ml_good s p m (ml_close m) Hw Hm) as [Hw1 Hf1]; [done|by left|].
  eexists true, _. split; [reflexivity|].
  destruct (with_logic_good (set_ml s p (ml_close m)) (with_plugin_threads (logic s) (plugin_work_thread_buffer_list_ (logic s))
    (delete th (plugin_work_thread_list_ (logic s)))) Hw1) as [Hw2 Hf2]; try done.
  intros k q. cbn. rewrite lookup_delete_Some, length_insert. intros [_ Hq]. by apply (w_plugin _ Hc k).
Qed.

Lemma plugin_post_good s p tag q : wf_sys s → (p < length (modules s))%nat → good s (do_plugin_thread_module_logic s p tag q).
Proof.
  intros Hw Hp. unfold do_plugin_thread_module_logic. destruct (get_ml_ok s p Hp) as (m & -> & _). cbn [obind].
  apply post_free_good; try done. by intros ? [= <-].
Qed.

Lemma new_timer_good s d k : wf_sys s → (∀ p, timer_ptr k = Some p → (p < length (modules s))%nat) →
  wf_sys (new_timer s d k) ∧ frame s (new_timer s d k).
Proof.
  intros Hw Hk. unfold new_timer. set (id := fresh _).
  destruct (with_core_good s (addTimer (core_timer s) id (delay_seconds_ d * 1000000000) k) Hw) as [Hw1 Hf1].
  { intros id' t k' p. cbn. destruct (decide (id = id')) as [<-|].
    - rewrite lookup_insert_eq. intros [= <-] [= <-]. apply Hk.
    - rewrite lookup_insert_ne by done. apply (w_timers _ (wf_is_core _ Hw)). }
  destruct (0 <? timer_id_ d); [|done].
  destruct (with_logic_good _ (with_timer_list (logic s) (<[timer_id_ d := id]> (plgin_timer_list_ (logic s)))) Hw1) as [Hw2 Hf2];
    [done|done|apply (w_plugin _ (wf_is_core _ Hw1))|]. split; [done|by etrans].
Qed.

Lemma frame_message_good s th tag q d : wf_sys s → ∃ r s', do_frame_message s th tag q d = Ok (r, s') ∧ wf_sys s' ∧ frame s s'.
Proof.
  intros Hw. unfold do_frame_message. destruct (plugin_work_thread_list_ (logic s) !! th) as [p|] eqn:E; [|by exists false, s].
  pose proof (w_plugin _ (wf_is_core _ Hw) _ _ E) as Hp. destruct (delay_seconds_ d =? 0).
  - destruct (plugin_post_good s p tag q Hw Hp) as (s' & -> & ? & ?). by exists true, s'.
  - eexists true, _. split; [reflexivity|]. apply new_timer_good; [done|]. by intros ? [= <-].
Qed.

Lemma thread_logic_good s th d fn : wf_sys s →
  wf_sys (snd (do_work_thread_logic s th d fn)) ∧ frame s (snd (do_work_thread_logic s th d fn)).
Proof.
  intros Hw. unfold do_work_thread_logic. destruct (plugin_work_thread_list_ (logic s) !! th); [|done].
  destruct (delay_seconds_ d =? 0); cbn [snd]; [apply post_good; [done|by split]|by apply new_timer_good].
Qed.

Lemma with_buffers_good s ms fs : wf_sys s →
  wf_sys (with_logic s (with_buffers (logic s) ms fs)) ∧ frame s (with_logic s (with_buffers (logic s) ms fs)).
Proof. intros Hw. apply with_logic_good; try done. apply (w_plugin _ (wf_is_core _ Hw)). Qed.

Lemma send_frame_good s th tag q d : wf_sys s → ∃ r s', send_frame_message s th tag q d = Ok (r, s') ∧ wf_sys s' ∧ frame s s'.
Proof.
  intros Hw. unfold send_frame_message. destruct (negb _); [|by apply frame_message_good].
  eexists true, _. split; [reflexivity|]. by apply with_buffers_good.
Qed.
Lemma run_logic_good s th d fn : wf_sys s →
  wf_sys (snd (run_work_thread_logic s th d fn)) ∧ frame s (snd (run_work_thread_logic s th d fn)).
Proof. intros Hw. unfold run_work_thread_logic. destruct (negb _); [by apply with_buffers_good|by apply thread_logic_good]. Qed.

Lemma with_timer_list_good s t : wf_sys s →
  wf_sys (with_logic s (with_timer_list (logic s) t)) ∧ frame s (with_logic s (with_timer_list (logic s) t)).
Proof. intros Hw. apply with_logic_good; try done. apply (w_plugin _ (wf_is_core _ Hw)). Qed.

Lemma delete_timer_good s id : wf_sys s →
  wf_sys (snd (delete_frame_message_timer s id)) ∧ frame s (snd (delete_frame_message_timer s id)).
Proof.
  intros Hw. unfold delete_frame_message_timer. destruct (plgin_timer_list_ (logic s) !! id) as [tm|]; [|done]. cbn [snd].
  destruct (with_core_good s (cancel_timer (core_timer s) tm) Hw) as [Hw1 Hf1].
  { intros id' t k p. cbn. destruct (decide (tm = id')) as [<-|].
    - rewrite lookup_alter_eq. destruct (store (core_timer s) !! tm) as [t0|] eqn:E; [|done]. cbn. intros [= <-].
      unfold Timer.cancel. destruct (mExecuteOnceFlag t0); [|by cbn]. intros Hcb Hk. by eapply (w_timers _ (wf_is_core _ Hw)).
    - rewrite lookup_alter_ne by done. apply (w_timers _ (wf_is_core _ Hw)). }
  destruct (with_timer_list_good _ (delete id (plgin_timer_list_ (logic s))) Hw1) as [Hw2 Hf2].
  split; [exact Hw2|]. etrans; [exact Hf1|exact Hf2].
Qed.

Lemma timer_callback_good s k : wf_sys s → (∀ p, timer_ptr k = Some p → (p < length (modules s))%nat) → good s (run_timer_callback s k).
Proof.
  intros Hw Hk. destruct k as [t|p tag q id|th fn id]; cbn [run_timer_callback].
  - by apply post_free_good.
  - destruct (with_timer_list_good s (delete id (plgin_timer_list_ (logic s))) Hw) as [Hw1 Hf1].
    apply (good_trans _ _ _ Hf1). apply plugin_post_good; [done|]. by apply Hk.
  - destruct (with_timer_list_good s (delete id (plgin_timer_list_ (logic s))) Hw) as [Hw1 Hf1].
    apply (good_trans _ _ _ Hf1). by apply post_free_good.
Qed.

Lemma exec_timer_good s stray : wf_sys s → good s (exec_timer s stray).
Proof.
  intros Hw. pose proof (w_timers _ (wf_is_core _ Hw)) as Ht. unfold exec_timer. destruct (pc (core_timer s)) as [|tmp until|tmp|].
  - destruct (timer_run_peek (core_timer s)) as [m|] eqn:E; [|by apply good_ok].
    destruct (with_core_good s m Hw); [|by apply good_ok]. intros id t k p. unfold timer_run_peek in E.
    destruct (negb _); [injection E as <-; apply Ht|]. destruct (mTimers (core_timer s)) as [|tmp q]; [done|].
    destruct (store (core_timer s) !! tmp) as [t0|] eqn:Es; [|done]. cbn in E. injection E as <-. cbn.
    destruct (decide (tmp = id)) as [<-|]; [rewrite lookup_insert_eq|rewrite lookup_insert_ne by done; apply Ht].
    intros [= <-]. cbn. by apply (Ht tmp).
  - destruct (_ || _); [|by apply good_ok]. destruct (with_core_good s (timer_run_wake (core_timer s) tmp) Hw); [|by apply good_ok].
    unfold timer_run_wake. destruct (timer_wakeup_state _); apply Ht.
  - destruct (with_core_good s (timer_run_fire (core_timer s) tmp) Hw) as [Hw1 Hf1].
    { unfold timer_run_fire. destruct (negb _); [apply Ht|]. destruct (store (core_timer s) !! tmp) as [t0|] eqn:Es; [|apply Ht].
      destruct (execute t0 (now (core_timer s))) as [cb t1] eqn:Ex. cbn. intros id t k p.
      destruct (decide (tmp = id)) as [<-|]; [rewrite lookup_insert_eq|rewrite lookup_insert_ne by done; apply Ht].
      intros [= <-] Hcb. unfold execute in Ex. apply (Ht tmp t0); [done|].
      destruct (mTimerType t0); [destruct (mExecuteOnceFlag t0)|]; injection Ex as <- <-; done. }
    apply (good_trans _ _ _ Hf1). destruct (timer_run_ (core_timer s)); [|by apply good_ok].
    destruct (store (core_timer s) !! tmp) as [t0|] eqn:Es; [|by apply good_ok].
    destruct (fst (execute t0 (now (core_timer s)))) as [k|] eqn:Ek; [|by apply good_ok].
    apply timer_callback_good; [done|]. intros p Hp. apply (Ht tmp t0 k p Es); [|done]. unfold execute in Ek.
    destruct (mTimerType t0); [by destruct (mExecuteOnceFlag t0)|done].
  - by apply good_ok.
Qed.

Lemma tick_good s d : wf_sys s → wf_sys (tick s d) ∧ frame s (tick s d).
Proof. intros Hw. apply with_core_good; [done|]. apply (w_timers _ (wf_is_core _ Hw)). Qed.

(** ** Start *)

Definition sys_new (w : W) (c : comm) (t0 : Z) : system :=
  mkSys (mkWTL [] 0 false [] [] [] ∅ ∅ 0) [] (CLoadModule_new w) (Some c) (TMS_init t0) (mgr_start t0) (mkBridge [] ∅) ∅ [].

(** What plugins may ask for while they are loaded: these calls are kept until the end. *)
Inductive request :=
| RThread (thread_id tid : Z)
| RMessage (tag_thread_id : Z) (tag : string) (q : CMessage_Packet) (d : CFrame_Message_Delay)
| RFunc (tag_thread_id : Z) (d : CFrame_Message_Delay) (fn : task_function (W:=W)).

Definition do_request s (r : request) : outcome system :=
  match r with
  | RThread th tid => Ok (snd (create_frame_work_thread s th tid))
  | RMessage th tag q d => let* '(_, s) := send_frame_message s th tag q d in Ok s
  | RFunc th d fn => Ok (snd (run_work_thread_logic s th d fn))
  end.
Fixpoint do_requests s (rs : list request) : outcome system :=
  match rs with [] => Ok s | r :: rs => let* s := do_request s r in do_requests s rs end.

Record pre_init s : Prop := {
  pi_finish : module_init_finish_ (logic s) = false;
  pi_list : thread_module_list_ (logic s) = [];
  pi_start : tms_is_start_ (tms s) = false;
  pi_events : m_tmsEvents (tms s) = [];
  pi_core : 0 < thread_count_ (logic s) < 65536 → wf_core s;
}.

Lemma pre_begin dlopen w c t0 n ct l svc : pre_init (init_begin dlopen (sys_new w c t0) n ct l svc).
Proof.
  split; try done. intros Hn. split; try done; cbn.
  apply new_bridge_live.
Qed.

Lemma pre_ext s l : module_init_finish_ l = false → thread_count_ l = thread_count_ (logic s) →
  thread_module_list_ l = [] → plugin_work_thread_list_ l = plugin_work_thread_list_ (logic s) →
  pre_init s → pre_init (with_logic s l).
Proof.
  intros E1 E2 E3 E4 [H1 H2 H3 H4 H5]. split; try done. cbn. rewrite E2. intros Hn. destruct (H5 Hn) as [I1 I2 I3 I4 I5 I6 I7].
  split; cbn; unfold module_ok, task_ok in *; cbn; rewrite ?E2, ?E3, ?E4 in *; rewrite ?H2 in *; done.
Qed.

Lemma request_pre s r : pre_init s → ∃ s', do_request s r = Ok s' ∧ pre_init s' ∧ thread_count_ (logic s') = thread_count_ (logic s).
Proof.
  intros Hs. pose proof Hs as [H1 H2 _ _ _]. destruct r; cbn [do_request].
  - eexists. split; [reflexivity|]. unfold create_frame_work_thread. rewrite H1. destruct (thread_id <? _); [done|]. cbn [snd negb].
    split; [|done]. by apply pre_ext.
  - unfold send_frame_message. rewrite H1. cbn [obind negb]. eexists. split; [reflexivity|]. split; [|done]. by apply pre_ext.
  - eexists. split; [reflexivity|]. unfold run_work_thread_logic. rewrite H1. cbn [snd negb]. split; [|done]. by apply pre_ext.
Qed.

Lemma requests_pre rs : ∀ s, pre_init s → ∃ s', do_requests s rs = Ok s' ∧ pre_init s' ∧ thread_count_ (logic s') = thread_count_ (logic s).
Proof.
  induction rs as [|r rs IH]; intros s Hs; cbn [do_requests]; [by exists s|].
  destruct (request_pre s r Hs) as (s1 & -> & H1 & E1). cbn [obind]. destruct (IH s1 H1) as (s2 & -> & H2 & E2).
  exists s2. split_and!; [done|done|congruence].
Qed.

(** One more thread. *)
Definition add_thread s (i tid : Z) : system :=
  let '(p, s) := new_module s i in
  let l := logic s in
  let s := with_logic s (mkWTL (thread_module_list_ l ++ [p]) (thread_count_ l) (module_init_finish_ l)
             (plugin_work_thread_buffer_list_ l) (plugin_work_thread_buffer_message_list_ l)
             (plugin_work_thread_buffer_Func_list_ l) (plugin_work_thread_list_ l) (plgin_timer_list_ l)
             (connect_timeout_ l)) in
  with_tms s (snd (CreateLogic (tms s) i tid)).

Lemma create_threads_step s tids i n : create_threads s tids i (S n) = create_threads (add_thread s i (tids i)) tids (i + 1) n.
Proof. done. Qed.

Lemma create_logic_tasks (t : TMS (task W session)) i tid j tk f :
  m_mapLogicList (snd (CreateLogic t i tid)) !! j = Some tk → f ∈ tasks_of tk →
  ∃ tk', m_mapLogicList t !! j = Some tk' ∧ f ∈ tasks_of tk'.
Proof.
  unfold CreateLogic. destruct (m_mapLogicList t !! i); cbn; [eauto|]. destruct (decide (i = j)) as [<-|].
  - rewrite lookup_insert_eq. intros [= <-] H. by apply not_elem_of_nil in H.
  - rewrite lookup_insert_ne by done. eauto.
Qed.

Lemma add_thread_core s i tid : wf_core s → length (thread_module_list_ (logic s)) = Z.to_nat i → 0 <= i < 65536 →
  wf_core (add_thread s i tid).
Proof.
  intros [H1 H2 H3 H4 H5 H6 H7] Hl Hi. unfold add_thread. cbn [new_module]. split; try done.
  - intros j p. cbn. rewrite lookup_app_Some. intros [Hj|[Hj Hp]].
    + destruct (H2 j p Hj) as (m & Hm & Hok). exists m. split; [by apply lookup_app_l_Some|done].
    + apply list_lookup_singleton_Some in Hp as [Hj' <-]. eexists. rewrite lookup_app_r, Nat.sub_diag by lia. cbn.
      split; [done|]. assert (j = Z.to_nat i) as -> by lia. split; cbn.
      * rewrite u16_small by lia. lia.
      * intros c. rewrite lookup_empty. by intros [].
  - intros th p Hp%H3. cbn. rewrite length_app. cbn. lia.
  - intros j tk f Hj Hf. cbn in Hj. destruct (create_logic_tasks _ _ _ _ _ _ Hj Hf) as (tk' & Hj' & Hf').
    destruct (H4 j tk' f Hj' Hf') as [Ha Hb]. split; [done|]. intros p Hp. destruct (Hb p Hp) as [Hc Hd]. cbn. split.
    + rewrite length_app. lia.
    + intros Hsome. by apply lookup_app_l_Some, Hd.
  - intros id t k p Ht Hk Hp. pose proof (H6 id t k p Ht Hk Hp). cbn. rewrite length_app. lia.
Qed.

Definition not_started s : Prop := tms_is_start_ (tms s) = false ∧ m_tmsEvents (tms s) = [].

Lemma create_logic_started (t : TMS (task W session)) i tid :
  tms_is_start_ (snd (CreateLogic t i tid)) = tms_is_start_ t ∧ m_tmsEvents (snd (CreateLogic t i tid)) = m_tmsEvents t.
Proof. unfold CreateLogic. by destruct (m_mapLogicList t !! i). Qed.

Lemma create_threads_core tids n : ∀ s i, wf_core s → not_started s → length (thread_module_list_ (logic s)) = Z.to_nat i →
  0 <= i → i + Z.of_nat n <= 65536 →
  wf_core (create_threads s tids i n) ∧ not_started (create_threads s tids i n) ∧
  length (thread_module_list_ (logic (create_threads s tids i n))) = (Z.to_nat i + n)%nat ∧
  thread_count_ (logic (create_threads s tids i n)) = thread_count_ (logic s).
Proof.
  induction n as [|n IH]; intros s i Hs Hn Hl Hi Hin; [cbn; by rewrite Nat.add_0_r|].
  rewrite create_threads_step. destruct (create_logic_started (tms s) i (tids i)) as [E1 E2]. destruct Hn as [N1 N2].
  destruct (IH (add_thread s i (tids i)) (i + 1)) as (A & B & C & D); try lia.
  - apply add_thread_core; [done|done|lia].
  - split; cbn; congruence.
  - cbn. rewrite length_app. cbn. lia.
  - split_and!; [done|done|rewrite C; lia|by rewrite D].
Qed.

Lemma create_logic_exists (t : TMS (task W session)) i tid j :
  j = i ∨ is_Some (m_mapLogicList t !! j) → is_Some (m_mapLogicList (snd (CreateLogic t i tid)) !! j).
Proof.
  unfold CreateLogic. destruct (m_mapLogicList t !! i) eqn:E; cbn; [intros [->|]; [rewrite E; eauto|done]|].
  destruct (decide (i = j)) as [<-|]; [rewrite lookup_insert_eq; eauto|rewrite lookup_insert_ne by done; naive_solver].
Qed.
Lemma create_threads_exist tids n : ∀ s i, (∀ j, 0 <= j < i → is_Some (m_mapLogicList (tms s) !! j)) →
  ∀ j, 0 <= j < i + Z.of_nat n → is_Some (m_mapLogicList (tms (create_threads s tids i n)) !! j).
Proof.
  induction n as [|n IH]; intros s i Hs j Hj; [apply Hs; lia|]. rewrite create_threads_step. apply IH; [|lia].
  intros k Hk. cbn. apply create_logic_exists. destruct (decide (k = i)); [by left|right; apply Hs; lia].
Qed.

Definition threads_exist s : Prop := ∀ i, 0 <= i < thread_count_ (logic s) → is_Some (m_mapLogicList (tms s) !! i).

Lemma frame_exist s s' : frame s s' → threads_exist s → threads_exist s'.
Proof. intros (E & _ & _ & _ & H) Hs i Hi. apply H, Hs. by rewrite <- E. Qed.

Lemma create_plugins_core tids l : ∀ s, wf_core s → not_started s →
  wf_core (create_plugin_threads s tids l) ∧ not_started (create_plugin_threads s tids l) ∧ frame s (create_plugin_threads s tids l).
Proof.
  induction l as [|id l IH]; intros s Hs Hn; cbn [create_plugin_threads]; [done|].
  destruct (plugin_work_thread_list_ (logic s) !! id); [by apply IH|].
  destruct (create_core s id (tids id) Hs) as (Hc & Hf & E1 & E2). destruct Hn as [N1 N2].
  destruct (IH _ Hc ltac:(split; congruence)) as (A & B & C). split_and!; [done|apply B|by etrans].
Qed.

Lemma replay_messages_good l : ∀ s, wf_sys s → good s (replay_messages s l).
Proof.
  induction l as [|m l IH]; intros s Hw; cbn [replay_messages]; [by apply good_ok|].
  destruct (frame_message_good s (dm_tag_thread_id_ m) (dm_message_tag_ m) (dm_send_packet_ m) (dm_delay_timer_ m) Hw)
    as (r & s1 & -> & Hw1 & Hf1). cbn [obind]. apply (good_trans _ _ _ Hf1). by apply IH.
Qed.
Lemma replay_funcs_good l : ∀ s, wf_sys s → wf_sys (replay_funcs s l) ∧ frame s (replay_funcs s l).
Proof.
  induction l as [|m l IH]; intros s Hw; [done|]. unfold replay_funcs. cbn [foldl].
  destruct (thread_logic_good s (df_tag_thread_id_ m) (df_delay_timer_ m) (df_func_ m) Hw) as [Hw1 Hf1].
  destruct (IH _ Hw1) as [Hw2 Hf2]. split; [done|by etrans].
Qed.

Lemma init_end_good s n ts tids : pre_init s → 0 < n < 65536 → thread_count_ (logic s) = n →
  ∃ s', init_end s n ts tids = Ok s' ∧ wf_sys s' ∧ thread_count_ (logic s') = n ∧ threads_exist s'.
Proof.
  intros Hs Hn Ec. pose proof Hs as [_ H2 H3 H4 H5]. unfold init_end.
  set (s1 := with_sync s _).
  assert (Hc1 : wf_core s1) by (destruct (H5 ltac:(lia)); by split).
  destruct (create_threads_core tids (Z.to_nat n) s1 0 Hc1) as (Hc2 & Hn2 & Hl2 & E2); try lia; [by split|by cbn; rewrite H2|].
  set (s2 := create_threads s1 tids 0 (Z.to_nat n)) in *.
  set (s3 := with_logic s2 (set_init_finish (logic s2))).
  assert (Hc3 : wf_core s3) by (destruct Hc2; by split).
  destruct (create_plugins_core tids (plugin_work_thread_buffer_list_ (logic s3)) s3 Hc3 Hn2) as (Hc4 & Hn4 & Hf4).
  set (s4 := create_plugin_threads s3 tids _) in *. pose proof Hf4 as (Ec4 & El4 & _).
  set (s5 := with_tms s4 (Start (tms s4) 0)).
  assert (El5 : thread_module_list_ (logic s5) = thread_module_list_ (logic s2)) by exact El4.
  assert (Ec5 : thread_count_ (logic s5) = n) by (etrans; [exact Ec4|]; etrans; [exact E2|exact Ec]).
  assert (Hw5 : wf_sys s5).
  { assert (Est : Start (tms s4) 0 = mkTMS (m_timerManager (tms s4)) (m_mapLogicList (tms s4)) (m_TidtologicidList (tms s4)) true
      (m_tmsEvents (tms s4))) by (unfold Start, Start_begin; destruct Hn4 as [_ ->]; done).
    split; [|rewrite El5, Hl2, Ec5; lia|unfold s5; cbn [with_tms tms]; by rewrite Est].
    destruct Hc4 as [? ? ? I4 ? ? ?]. split; try done. unfold s5. cbn [with_tms tms]. rewrite Est. done. }
  destruct (with_logic_good s5 (with_plugin_threads (logic s5) [] (plugin_work_thread_list_ (logic s5))) Hw5)
    as [Hw6 Hf6]; [done|done|apply (w_plugin _ (wf_is_core _ Hw5))|].
  set (s6 := with_logic s5 _) in *.
  destruct (replay_messages_good (plugin_work_thread_buffer_message_list_ (logic s6)) s6 Hw6) as (s7 & -> & Hw7 & Hf7). cbn [obind].
  destruct (with_buffers_good s7 [] (plugin_work_thread_buffer_Func_list_ (logic s7)) Hw7) as [Hw8 Hf8]. set (s8 := with_logic s7 _) in *.
  destruct (replay_funcs_good (plugin_work_thread_buffer_Func_list_ (logic s8)) s8 Hw8) as [Hw9 Hf9]. set (s9 := replay_funcs s8 _) in *.
  destruct (with_buffers_good s9 (plugin_work_thread_buffer_message_list_ (logic s9)) [] Hw9) as [Hw10 Hf10]. set (s10 := with_logic s9 _) in *.
  eexists. split; [reflexivity|].
  destruct (with_core_good s10 (core_timer (start_check_timer s10 ts)) Hw10) as [Hw11 Hf11].
  { intros id t k p. cbn. destruct (decide (fresh (dom (store (core_timer s10))) = id)) as [<-|].
    - rewrite lookup_insert_eq. intros [= <-] [= <-]. done.
    - rewrite lookup_insert_ne by done. apply (w_timers _ (wf_is_core _ Hw10)). }
  split; [exact Hw11|].
  assert (Hf : frame s5 s10) by (etrans; [exact Hf6|]; etrans; [exact Hf7|]; etrans; [exact Hf8|]; etrans; [exact Hf9|exact Hf10]).
  split; [destruct Hf as (Ef & _); etrans; [exact Ef|exact Ec5]|].
  apply (frame_exist s10 _ Hf11), (frame_exist s5 _ Hf). intros i Hi. rewrite Ec5 in Hi.
  assert (is_Some (m_mapLogicList (tms s2) !! i)) as Hi2 by (apply create_threads_exist; [intros; lia|lia]).
  destruct Hf4 as (_ & _ & _ & _ & Hm4). specialize (Hm4 i Hi2). unfold s5. cbn [with_tms tms]. unfold Start, Start_begin.
  destruct Hn4 as [_ ->]. exact Hm4.
Qed.

Lemma module_run_good s name send ret : wf_sys s → plugin_name_to_module_run_ (loader s) !! name ≠ Some None →
  good s (let* '(_, _, _, s) := module_run s name send ret in Ok s).
Proof.
  intros Hw Hn. unfold module_run, plugin_in_name_to_module_run.
  destruct (plugin_name_to_module_run_ (loader s) !! name) as [[f|]|]; [|done|].
  - destruct (f _ _ _) as [[[r x] y] w]. destruct (with_plugins_good s w Hw). by apply good_ok.
  - cbn [obind]. destruct (with_plugins_good s (plugins s) Hw) as [Hw' Hf].
    replace (with_loader s (loader s)) with s by (by destruct s). by apply good_ok.
Qed.

(** ** The running system *)

Inductive wt_op :=
| WAdd (c : Z) (x : session) (local remote : ClientIPInfo)
| WDelete (c : Z) (x : session) (local : ClientIPInfo) (ty : EM_CONNECT_IO_TYPE)
| WCloseEvent (c : Z) (x : option session)
| WMessages (c : Z) (l : list CMessage_Packet) (x : session)
| WIotoioError (c : Z) (l : list CMessage_Packet) (x : session)
| WEvents (c : Z) (l : list CMessage_Packet) (x : session)
| WSend (c : Z) (q : CMessage_Packet)
| WBridge (c b : Z) (buf : CSessionBuffer) (len : Z) (x : session)
| WFrameEvents (cmd mark : Z) (ip : string) (port : Z) (ty : EM_CONNECT_IO_TYPE)
| WConnect (info : CConnect_IO_Info) (ty : EM_CONNECT_IO_TYPE)
| WCloseServer (server : Z)
| WRequest (r : request)
| WCloseThread (th : Z)
| WDeleteTimer (id : Z)
| WThread (i : Z)                 (* a thread makes a step *)
| WTimer (stray : bool)           (* the timer thread makes a step *)
| WTick (d : Z)
| WModuleRun (name : string) (send ret : CMessage_Packet).

Definition wt_step s (o : wt_op) : outcome system :=
  match o with
  | WAdd c x local remote => add_thread_session s c x local remote
  | WDelete c x local ty => delete_thread_session s c x local ty
  | WCloseEvent c x => close_session_event s c x
  | WMessages c l x => assignation_thread_module_logic s c l x
  | WIotoioError c l x => assignation_thread_module_logic_iotoio_error s c l x
  | WEvents c l x => assignation_thread_module_logic_with_events s c l x
  | WSend c q => send_io_message s c q
  | WBridge c b buf len x => let* '(_, _, s) := do_io_bridge_data s c b buf len x in Ok s
  | WFrameEvents cmd mark ip port ty => Ok (add_frame_events s cmd mark ip port ty)
  | WConnect info ty => let* '(_, s) := connect_io_server s info ty in Ok s
  | WCloseServer server => close_io_server s server
  | WRequest r => do_request s r
  | WCloseThread th => let* '(_, s) := close_frame_work_thread s th in Ok s
  | WDeleteTimer id => Ok (snd (delete_frame_message_timer s id))
  | WThread i => exec_thread s i
  | WTimer stray => exec_timer s stray
  | WTick d => Ok (tick s d)
  | WModuleRun name send ret => let* '(_, _, _, s) := module_run s name send ret in Ok s
  end.

(** What is asked of the callers: the bytes that a session asks to bridge are in its buffer; the
    module whose function is called was not loaded without that function. *)
Definition op_pre s (o : wt_op) : Prop :=
  match o with
  | WBridge _ _ buf len _ => wf buf ∧ 0 <= len <= write_size_ buf
  | WModuleRun name _ _ => plugin_name_to_module_run_ (loader s) !! name ≠ Some None
  | _ => True
  end.

Lemma wt_step_good s o : wf_sys s → op_pre s o → good s (wt_step s o).
Proof.
  intros Hw Ho. destruct o; cbn [wt_step op_pre] in *.
  - by apply add_thread_session_good.
  - by apply delete_thread_session_good.
  - by apply close_session_event_good.
  - by apply assignation_good.
  - by apply iotoio_error_good.
  - by apply with_events_good.
  - by apply send_io_message_good.
  - destruct (bridge_data_good s c b buf len x Hw (proj1 Ho) (proj2 Ho)) as (r & buf' & s' & -> & ? & ? & _). by apply good_ok.
  - by apply post_free_good.
  - destruct (connect_io_server_good s info ty Hw) as (r & s' & -> & ? & ?). by apply good_ok.
  - by apply close_io_server_good.
  - destruct r; cbn [do_request].
    + destruct (create_thread_good s thread_id tid Hw). by apply good_ok.
    + destruct (send_frame_good s tag_thread_id tag q d Hw) as (r & s' & -> & ? & ?). by apply good_ok.
    + destruct (run_logic_good s tag_thread_id d fn Hw). by apply good_ok.
  - destruct (close_thread_good s th Hw) as (r & s' & -> & ? & ?). by apply good_ok.
  - destruct (delete_timer_good s id Hw). by apply good_ok.
  - by apply exec_thread_good.
  - by apply exec_timer_good.
  - destruct (tick_good s d Hw). by apply good_ok.
  - by apply module_run_good.
Qed.

(** The states of a system started with [n] threads: plugins are loaded and make their
    requests, the threads start, and then everything interleaves. *)
Inductive wt_reachable (n : Z) : system → Prop :=
| wt_start dlopen w c t0 ct ts l svc rs tids s s' : 0 < n < 65536 →
    do_requests (init_begin dlopen (sys_new w c t0) n ct l svc) rs = Ok s →
    init_end s n ts tids = Ok s' → wt_reachable n s'
| wt_next s o s' : wt_reachable n s → op_pre s o → wt_step s o = Ok s' → wt_reachable n s'.

Lemma wt_start_good n dlopen w c t0 ct ts l svc rs tids : 0 < n < 65536 →
  ∃ s s', do_requests (init_begin dlopen (sys_new w c t0) n ct l svc) rs = Ok s ∧ init_end s n ts tids = Ok s' ∧
    wf_sys s' ∧ thread_count_ (logic s') = n ∧ threads_exist s'.
Proof.
  intros Hn. destruct (requests_pre rs _ (pre_begin dlopen w c t0 n ct l svc)) as (s & E & Hs & Ec).
  destruct (init_end_good s n ts tids Hs Hn) as (s' & E' & H'); [rewrite Ec; cbn; apply u16_small; lia|]. eauto 10.
Qed.

Lemma wt_reachable_good n s : wt_reachable n s → wf_sys s ∧ thread_count_ (logic s) = n ∧ threads_exist s.
Proof.
  induction 1 as [dlopen w c t0 ct ts l svc rs tids s s' Hn E E'|s o s' _ (Hw & Hc & Hx) Ho E].
  - destruct (wt_start_good n dlopen w c t0 ct ts l svc rs tids Hn) as (s1 & s2 & E1 & E2 & H). congruence.
  - destruct (wt_step_good s o Hw Ho) as (s2 & E2 & Hw2 & Hf). rewrite E in E2. injection E2 as <-.
    split; [done|]. split; [destruct Hf as (-> & _); done|by eapply frame_exist].
Qed.

(** ** Closing *)

Lemma post_close_all_ok ps : ∀ (y : system), (∀ i, i ∈ ps → (i < length (modules y))%nat) →
  ∃ y', post_close_all y ps = Ok y' ∧ modules y' = modules y ∧ logic y' = logic y.
Proof.
  induction ps as [|i ps IH]; intros y H; cbn [post_close_all]; [by exists y|].
  destruct (get_ml_ok y i) as (m & -> & _); [apply H; by left|]. cbn [obind].
  destruct (IH (post y (ml_work_thread_id_ m) (TCloseAll i))) as (y' & E & ? & ?); [intros j Hj; apply H; by right|by exists y'].
Qed.

Lemma close_interfaces_ok ps : ∀ (y : system), (∀ i, i ∈ ps → (i < length (modules y))%nat) →
  ∃ y', close_interfaces y ps = Ok y' ∧ length (modules y') = length (modules y) ∧ logic y' = logic y.
Proof.
  induction ps as [|i ps IH]; intros y H; cbn [close_interfaces]; [by exists y|].
  destruct (get_ml_ok y i) as (m & -> & _); [apply H; by left|]. cbn [obind].
  destruct (IH (set_ml y i (ml_close m))) as (y' & E & El & Eg).
  - intros j Hj. cbn. rewrite length_insert. apply H. by right.
  - exists y'. cbn in El, Eg. rewrite length_insert in El. done.
Qed.

Lemma wt_close_ok (y : system) : wf_sys y → ∃ y', wt_close y = Ok y' ∧ thread_module_list_ (logic y') = [].
Proof.
  intros Hw. pose proof (wf_is_core _ Hw) as Hc. unfold wt_close.
  set (y0 := with_comm y _).
  destruct (post_close_all_ok (thread_module_list_ (logic y0)) y0) as (y1 & -> & Em1 & El1).
  { intros i Hi. exact (thread_ptrs y i Hw Hi). }
  cbn [obind]. rewrite El1. change (logic y0) with (logic y). change (modules y0) with (modules y) in Em1.
  destruct (close_interfaces_ok (map snd (map_to_list (plugin_work_thread_list_ (logic y)))) y1) as (y2 & -> & Em2 & El2).
  { intros i ([th p] & -> & Hi)%list_elem_of_fmap. rewrite Em1. apply elem_of_map_to_list in Hi. by apply (w_plugin _ Hc th). }
  cbn [obind].
  destruct (close_interfaces_ok (thread_module_list_ (logic (with_tms y2 (TMS_Close (tms y2))))) (with_tms y2 (TMS_Close (tms y2)))) as (y3 & -> & _).
  { intros i Hi. cbn in *. rewrite Em2, Em1. rewrite El2, El1 in Hi. exact (thread_ptrs y i Hw Hi). }
  eexists. split; [reflexivity|done].
Qed.

End WorkThreadLemmas.
