(* ===== verification/Dispatch.v ===== *)
(** * What the dispatcher promises

    The properties of the work threads modelled in [WorkThread]: the tasks of a connection
    belong to one thread, received messages are handled once, replies are written in order and
    bridged data is either forwarded or handed to the plugins. *)

From Stdlib Require Import ZArith Lia.
From S2P Require Import Prelude Define SessionBuffer SessionTable Iobridge Timer Tms Modules Communication WorkThread.
From stdpp Require Import base numbers list gmap strings.
Local Open Scope Z_scope.

Section DispatchLemmas.

Context {W session comm : Type} `{!ISession session} `{!ICommunicationInterface comm} `{PQ : !PriorityQueue}.
Notation system := (sys W session comm).
Implicit Types (s : system).

(** The queue of a thread. *)
Definition queue_of s (i : Z) : option (list (task W session)) := (λ t, queued (m_thread_queue t)) <$> m_mapLogicList (tms s) !! i.

Lemma queue_post s i f j : tms_is_start_ (tms s) = true →
  queue_of (post s i f) j = if decide (i = j) then (λ q, q ++ [f]) <$> queue_of s j else queue_of s j.
Proof.
  intros Hs. unfold queue_of, post. cbn [with_tms tms]. destruct (AddMessage_started (tms s) j f i Hs) as [-> _].
  destruct (decide (i = j)); [|done]. destruct (m_mapLogicList (tms s) !! j) as [t|]; [|done].
  change (Some (queued (m_thread_queue (Put t (run_message f)))) = Some (queued (m_thread_queue t) ++ [f])).
  by rewrite queued_put.
Qed.

(** ** Received messages *)

Definition message_source (x : session) (c : Z) : CMessage_Source :=
  mkSource 0 c (get_mark_id x c) (get_io_type x) ClientIPInfo_default ClientIPInfo_default.

(** The messages handled at once, and those put into the queue. *)
Definition sync_messages s (l : list CMessage_Packet) := filter (is_sync (sync s)) l.
Definition async_messages s (l : list CMessage_Packet) := filter (λ p, ¬ is_sync (sync s) p) l.

Lemma assignation_spec s c l x : wf_sys s → threads_exist s →
  ∃ s' p send w, assignation_thread_module_logic s c l x = Ok s' ∧
    run_sync (sync s) (message_source x c) (fresh_packet, plugins s) (sync_messages s l) = (send, w) ∧
    plugins s' = w ∧ trace s' = trace s ++ write_reply x c send ∧
    thread_module_list_ (logic s) !! Z.to_nat (c mod thread_count_ (logic s)) = Some p ∧
    (∀ j, queue_of s' j = if decide (c mod thread_count_ (logic s) = j ∧ async_messages s l ≠ [])
                          then (λ q, q ++ [TMessages x c (async_messages s l) p]) <$> queue_of s j else queue_of s j).
Proof.
  intros Hw _. unfold assignation_thread_module_logic. fold (message_source x c). rewrite do_sync_list_spec.
  fold (sync_messages s l) (async_messages s l).
  destruct (run_sync (sync s) (message_source x c) (fresh_packet, plugins s) (sync_messages s l)) as [send w] eqn:Er.
  destruct (thread_ok s c Hw) as (p & _ & _ & Hlook & _).
  set (s1 := with_plugins s w). set (s2 := if 0 <? zlen (pbuffer_ send) then _ else s1).
  assert (H2 : logic s2 = logic s ∧ tms s2 = tms s ∧ plugins s2 = w ∧ trace s2 = trace s ++ write_reply x c send).
  { unfold s2, write_reply. destruct (0 <? zlen (pbuffer_ send)); split_and!; try done. cbn. by rewrite app_nil_r. }
  destruct H2 as (E1 & E2 & E3 & E4). pose proof (w_start _ Hw) as Hs.
  destruct (decide (async_messages s l = [])) as [->|Hne].
  - exists s2, p, send, w. split_and!; try done. intros j. rewrite decide_False by tauto. unfold queue_of. by rewrite E2.
  - assert (0 <? zlen (async_messages s l) = true) as ->.
    { apply Z.ltb_lt. unfold zlen. destruct (async_messages s l); [done|cbn; lia]. }
    unfold curr_thread_index, thread_module. rewrite E1. pose proof (w_count _ (wf_is_core _ Hw)) as Hn.
    rewrite (proj2 (Z.eqb_neq _ 0)) by lia. cbn [obind]. rewrite Hlook. cbn [obind].
    eexists _, p, send, w. split; [reflexivity|]. split_and!; try done. intros j. rewrite queue_post by (by rewrite E2).
    assert (queue_of s2 j = queue_of s j) as -> by (unfold queue_of; by rewrite E2).
    destruct (decide (c mod thread_count_ (logic s) = j)); [by rewrite decide_True|by rewrite decide_False by tauto].
Qed.

(** ** Replies *)

(** The plugins' answers to a list of messages, in order. *)
Fixpoint answers (t : gmap Z (Logic_message_dispose_fn W)) (w : W) (source : CMessage_Source) (l : list CMessage_Packet)
  : list CMessage_Packet * W :=
  match l with
  | [] => ([], w)
  | p :: l =>
      let '(_, _, send, w) := do_module_message t w source p fresh_packet in
      let '(r, w) := answers t w source l in (send :: r, w)
  end.

(** What an answer adds to the output of a connection. *)
Definition reply_bytes (io : option session) (c : Z) (send : CMessage_Packet) : list Z :=
  match io with
  | None => []
  | Some io =>
      if is_need_send_format io
      then if zlen (pbuffer_ send) =? 0 then [] else
           match format_send_packet io c send fresh_packet with Some f => pbuffer_ f | None => [] end
      else pbuffer_ send
  end.

Lemma zlen_0_nil {A} (l : list A) : (zlen l =? 0) = true → l = [].
Proof. rewrite Z.eqb_eq. apply zlen_zero. Qed.

(** What handling messages of the module [m] leaves alone. *)
Definition same_module (p : nat) m s s' : Prop :=
  trace s' = trace s ∧ tms s' = tms s ∧
  ∃ m', modules s' !! p = Some m' ∧ modules_interface_ m' = modules_interface_ m ∧
    sessions_interface_ m' = sessions_interface_ m ∧ ml_work_thread_id_ m' = ml_work_thread_id_ m.

Lemma dispatch_spec s p m source recv send : modules s !! p = Some m →
  ∃ r recv' send' w s', do_module_message (modules_interface_ m) (plugins s) source recv send = (r, recv', send', w) ∧
    do_thread_module_logic s p source recv send = Ok (r, send', s') ∧ plugins s' = w ∧ same_module p m s s'.
Proof.
  intros Hm. pose proof (lookup_lt_Some _ _ _ Hm) as Hlt. unfold do_thread_module_logic, get_ml. rewrite Hm. cbn [obind].
  change (plugins (set_ml s p (ml_begin m (command_id_ recv)))) with (plugins s).
  destruct (do_module_message (modules_interface_ m) (plugins s) source recv send) as [[[r recv'] send'] w].
  assert (Em : modules (with_plugins (set_ml s p (ml_begin m (command_id_ recv))) w) !! p = Some (ml_begin m (command_id_ recv)))
    by (cbn; by rewrite list_lookup_insert_eq).
  rewrite Em. cbn [obind]. eexists r, recv', send', w, _. split; [done|]. split; [reflexivity|]. split; [done|]. split; [done|]. split; [done|].
  eexists. cbn. rewrite list_lookup_insert_eq by (by rewrite length_insert). by split_and!.
Qed.

Lemma messages_loop_spec p c source l : ∀ s m buf, modules s !! p = Some m →
  ∃ s', messages_loop s c source l p buf =
    Ok (buf ++ concat (map (reply_bytes (ml_get_session m c) c) (fst (answers (modules_interface_ m) (plugins s) source l))), s') ∧
    plugins s' = snd (answers (modules_interface_ m) (plugins s) source l) ∧ same_module p m s s'.
Proof.
  induction l as [|q l IH]; intros s m buf Hm; cbn [messages_loop answers].
  - exists s. cbn. rewrite app_nil_r. split_and!; try done. split_and!; try done. by exists m.
  - destruct (dispatch_spec s p m source q fresh_packet Hm) as (r & q' & send & w & s1 & -> & -> & Hw & Ht & Htm & m' & Hm' & Hi & Hse & Hid).
    cbn [obind]. unfold get_ml. rewrite Hm'. cbn [obind].
    assert (Hio : ml_get_session m' c = ml_get_session m c) by (unfold ml_get_session; by rewrite Hse). rewrite Hio.
    assert (Hrec : ∀ buf' extra, buf' = buf ++ extra → extra = reply_bytes (ml_get_session m c) c send →
      ∃ s', messages_loop s1 c source l p buf' = Ok (buf ++ concat (map (reply_bytes (ml_get_session m c) c)
        (fst (let '(r, w) := answers (modules_interface_ m) w source l in (send :: r, w)))), s') ∧
        plugins s' = snd (let '(r, w) := answers (modules_interface_ m) w source l in (send :: r, w)) ∧ same_module p m s s').
    { intros buf' extra -> ->. destruct (IH s1 m' (buf ++ reply_bytes (ml_get_session m c) c send) Hm') as (s' & E & Hp & Htr & Htm' & m2 & ? & ? & ? & ?).
      rewrite Hi, Hio, Hw in *. exists s'. destruct (answers (modules_interface_ m) w source l) as [rs w']. cbn in *.
      rewrite E, <- app_assoc. split_and!; try done. split_and!; [congruence..|]. exists m2. split_and!; congruence. }
    destruct (zlen (pbuffer_ send) =? 0) eqn:Ez.
    + apply (Hrec buf []); [by rewrite app_nil_r|]. unfold reply_bytes. destruct (ml_get_session m c) as [io|]; [|done].
      rewrite Ez. destruct (is_need_send_format io); [done|]. by rewrite (zlen_0_nil _ Ez).
    + destruct (ml_get_session m c) as [io|] eqn:Eio; [|by apply (Hrec buf []); [rewrite app_nil_r|]].
      destruct (is_need_send_format io) eqn:En; [|apply (Hrec _ (pbuffer_ send)); [done|]; cbn; by rewrite En].
      destruct (format_send_packet io c send fresh_packet) as [fm|] eqn:Ef;
        [apply (Hrec _ (pbuffer_ fm)); [done|]|apply (Hrec buf []); [by rewrite app_nil_r|]]; cbn; by rewrite En, Ez, Ef.
Qed.

End DispatchLemmas.

(** ** Properties *)


(** A system of two threads with a plugin that answers command 0x1001, and connection 5. *)
Notation demo_sys := (sys unit unit (CCommunicationService unit)).
Notation demo_begin :=
  (init_begin demo_dlopen (sys_new tt CCommunicationService_new 0 : demo_sys) 2 0
     [mkConfigLogic "./" "libTest_Logic.so" ""] None).
#[local] Existing Instance sorted_queue.
#[local] Instance demo_comm : ICommunicationInterface (CCommunicationService unit) := CCommunicationService_interface demo_start.
Definition demo_rest : list (wt_op (W:=unit) (session:=unit)) :=
  [WMessages 5 [mkPacket [] [104; 105] 4097] tt; WThread 1; WThread 1; WThread 1; WThread 1].
Definition demo_ops : list (wt_op (W:=unit) (session:=unit)) := WAdd 5 tt demo_a demo_a :: demo_rest.
Fixpoint demo_run (s : demo_sys) (os : list (wt_op (W:=unit) (session:=unit))) : outcome demo_sys :=
  match os with [] => Ok s | o :: os => let* s := wt_step s o in demo_run s os end.
Notation demo_started := (init_end demo_begin 2 60 (λ i, i + 100)).

Lemma demo_bridge : (let* s := demo_started in Ok (bridge s)) = Ok (mkBridge [] ∅).
Proof. vm_compute. reflexivity. Qed.

(** What thread 1 executed in the end, and what was written. *)
Definition demo_summary (s : demo_sys) : option (nat * list (session_effect unit)) :=
  (λ t, (length (executed t), trace s)) <$> m_mapLogicList (tms s) !! 1.
Lemma demo_final : (let* s := demo_started in let* s := demo_run s demo_ops in Ok (demo_summary s)) =
  Ok (Some (2%nat, [set_write_buffer tt 5 [104; 105]; do_write tt 5])).
Proof. vm_compute. reflexivity. Qed.

Lemma demo_modules : (let* s := demo_started in let* s := demo_run s demo_ops in Ok (length (modules s))) = Ok 2%nat.
Proof. vm_compute. reflexivity. Qed.

Lemma demo_reach_start s : demo_started = Ok s → wt_reachable 2 s ∧ bridge s = mkBridge [] ∅.
Proof.
  intros E. split.
  - eapply (wt_start 2 _ _ _ _ _ _ _ _ []); [lia|reflexivity|exact E].
  - pose proof demo_bridge as H. rewrite E in H. by injection H.
Qed.

(** After the first operation every one is allowed. *)
Lemma demo_reach_run os : Forall (λ o, ∀ s : demo_sys, op_pre s o) os → ∀ s s', wt_reachable 2 s → demo_run s os = Ok s' →
  wt_reachable 2 s'.
Proof.
  induction 1 as [|o os Ho _ IH]; intros s s' Hr; cbn [demo_run]; [by intros [= <-]|].
  destruct (wt_step s o) as [s1|] eqn:E; [|done]. cbn [obind]. apply IH. by eapply wt_next.
Qed.

Lemma demo_reachable s s' : demo_started = Ok s → demo_run s demo_ops = Ok s' → wt_reachable 2 s'.
Proof.
  intros E1. destruct (demo_reach_start s E1) as [H0 _]. by apply demo_reach_run; [repeat constructor|].
Qed.


(** C30: every packet a session hands over is handled exactly once.  The packets whose
    commands are registered as synchronous are given to their handlers at once, in order, and
    what these answer is written to the session; all the others, in their order, become one
    task at the end of the queue of the connection's thread, and nothing else is queued. *)
Theorem received_messages_handled_once {W session comm} `{!ISession session} `{!ICommunicationInterface comm}
    `{!PriorityQueue} n (s : sys W session comm) c l x :
  wt_reachable n s →
  ∃ s' p send w, assignation_thread_module_logic s c l x = Ok s' ∧
    filter (is_sync (sync s)) l ++ filter (λ q, ¬ is_sync (sync s) q) l ≡ₚ l ∧
    run_sync (sync s) (message_source x c) (fresh_packet, plugins s) (filter (is_sync (sync s)) l) = (send, w) ∧
    plugins s' = w ∧ trace s' = trace s ++ write_reply x c send ∧
    (filter (λ q, ¬ is_sync (sync s) q) l ≠ [] →
     ∃ q, queue_of s (c mod n) = Some q ∧
       queue_of s' (c mod n) = Some (q ++ [TMessages x c (filter (λ q, ¬ is_sync (sync s) q) l) p])) ∧
    (∀ j, j ≠ c mod n ∨ filter (λ q, ¬ is_sync (sync s) q) l = [] → queue_of s' j = queue_of s j).
Proof.
  intros Hr. destruct (wt_reachable_good n s Hr) as (Hw & Hn & Hx). subst n.
  destruct (assignation_spec s c l x Hw Hx) as (s' & p & send & w & E & Er & Ep & Et & _ & Hq).
  exists s', p, send, w. split_and!; try done.
  - clear. induction l as [|q l IH]; [done|]. rewrite !filter_cons. destruct (decide (is_sync (sync s) q)).
    + rewrite decide_False by tauto. cbn. by rewrite IH.
    + rewrite decide_True by done. by rewrite <- Permutation_middle, IH.
  - intros Hne. destruct (Hx (c mod thread_count_ (logic s))) as [t Ht].
    { apply Z.mod_pos_bound. apply (w_count _ (wf_is_core _ Hw)). }
    exists (queued (m_thread_queue t)). unfold queue_of at 1. rewrite Ht. split; [done|]. rewrite Hq.
    rewrite decide_True by done. unfold queue_of. by rewrite Ht.
  - intros j Hj. rewrite Hq. by rewrite decide_False by (intros [? Hne]; destruct Hj; [congruence|by apply Hne]).
Qed.

Lemma received_messages_handled_once_witness :
  ∃ (s : demo_sys), wt_reachable 2 s ∧
  ∃ s' send, assignation_thread_module_logic s 7 [mkPacket [] [1] 4097; mkPacket [] [2] 4098] tt = Ok s' ∧
    trace s' = trace s ++ write_reply tt 7 send ∧ ∀ j, j ≠ 7 mod 2 → queue_of s' j = queue_of s j.
Proof.
  pose proof demo_final as H. destruct demo_started as [s0|] eqn:E0; [|discriminate H]. cbn [obind] in H.
  destruct (demo_run s0 demo_ops) as [s|] eqn:E; [|discriminate H].
  pose proof (demo_reachable s0 s E0 E) as Hr. exists s. split; [exact Hr|].
  destruct (received_messages_handled_once 2 s 7 [mkPacket [] [1] 4097; mkPacket [] [2] 4098] tt Hr)
    as (s' & p & send & w & Ha & _ & _ & _ & Hd & _ & Hq).
  exists s', send. split; [exact Ha|]. split; [exact Hd|]. intros j Hj. apply Hq. left. exact Hj.
Defined.

(** Running the task of a connection's messages gives each of them to the plugins in
    order, and the answers (formatted by the session where its protocol needs it) are
    concatenated in that order and written to the session by one write, or by none when there
    is nothing to send. *)
Theorem replies_in_order {W session comm} `{!ISession session} `{!ICommunicationInterface comm} `{!PriorityQueue}
    (s : sys W session comm) x c l p m :
  modules s !! p = Some m →
  let source := mkSource (ml_work_thread_id_ m) c (get_mark_id x c) (get_io_type x) ClientIPInfo_default ClientIPInfo_default in
  let sends := fst (answers (modules_interface_ m) (plugins s) source l) in
  let out := concat (map (reply_bytes (ml_get_session m c) c) sends) in
  ∃ s', run_task s (TMessages x c l p) = Ok s' ∧ length sends = length l ∧
    plugins s' = snd (answers (modules_interface_ m) (plugins s) source l) ∧
    trace s' = trace s ++ (if decide (out = []) then [] else [set_write_buffer x c out; do_write x c]).
Proof.
  intros Hm source sends out. cbn [run_task]. unfold do_work_thread_module_logic, get_ml. rewrite Hm. cbn [obind].
  destruct (messages_loop_spec p c source l s m [] Hm) as (s' & E & Hp & Ht & _). fold source sends out in E |- *.
  rewrite E. cbn [obind app].
  assert (Hlen : ∀ w l, length (fst (answers (modules_interface_ m) w source l)) = length l).
  { intros w l0. revert w. induction l0 as [|q l0 IH]; intros w; [done|]. cbn [answers].
    destruct (do_module_message _ w source q fresh_packet) as [[[? ?] ?] w']. specialize (IH w').
    destruct (answers _ w' source l0). cbn in *. by rewrite IH. }
  destruct (decide (out = [])) as [Ho|Ho].
  - rewrite Ho. exists s'. cbn. rewrite app_nil_r. split_and!; try done. apply Hlen.
  - assert (0 <? zlen out = true) as ->. { apply Z.ltb_lt. unfold zlen. destruct out; [done|cbn; lia]. }
    eexists. split; [reflexivity|]. split; [apply Hlen|]. split; [done|]. cbn. by rewrite Ht.
Qed.

Lemma replies_in_order_witness :
  ∃ (s : demo_sys) m s', modules s !! 1%nat = Some m ∧
    run_task s (TMessages tt 5 [mkPacket [] [1; 2] 4097; mkPacket [] [] 9; mkPacket [] [3] 4097] 1%nat) = Ok s' ∧
    plugins s' = snd (answers (modules_interface_ m) (plugins s) (mkSource (ml_work_thread_id_ m) 5 1001 CONNECT_IO_TCP
      ClientIPInfo_default ClientIPInfo_default) [mkPacket [] [1; 2] 4097; mkPacket [] [] 9; mkPacket [] [3] 4097]).
Proof.
  pose proof demo_final as H. destruct demo_started as [s0|] eqn:E0; [|discriminate H]. cbn [obind] in H.
  destruct (demo_run s0 demo_ops) as [s|] eqn:E; [|discriminate H].
  destruct (modules s !! 1%nat) as [m|] eqn:Em.
  - destruct (replies_in_order s tt 5 [mkPacket [] [1; 2] 4097; mkPacket [] [] 9; mkPacket [] [3] 4097] 1%nat m Em)
      as (s' & Ha & _ & Hb & _).
    exists s, m, s'. split; [exact Em|]. split; [exact Ha|exact Hb].
  - exfalso. pose proof demo_modules as Hd. rewrite E0 in Hd. cbn [obind] in Hd. rewrite E in Hd. cbn [obind] in Hd.
    injection Hd as Hd. apply lookup_ge_None in Em. lia.
Defined.

(** Data received on a bridged session is never lost: it leaves the receive buffer, and it
    is either written to the session of the other end, or, when that session is gone or not
    known, handed to the plugins as an IOTOIO_DATA_ERROR packet of the receiving connection;
    the returned code tells which. *)
Theorem bridged_data_not_lost {W session comm} `{!ISession session} `{!ICommunicationInterface comm} `{!PriorityQueue} n
    (s : sys W session comm) c b buf len x :
  wt_reachable n s → wf buf → 0 <= len <= write_size_ buf →
  ∃ r buf' s', do_io_bridge_data s c b buf len x = Ok (r, buf', s') ∧ contents buf' = zdrop len (contents buf) ∧
    let data := ztake len (contents buf) in
    (r = 0 ∧ 0 < b ∧ tms s' = tms s ∧
     ∃ y, wt_get_session_interface s b = Ok (Some y) ∧ trace s' = trace s ++ [do_write_immediately y b data]) ∨
    ((r = 1 ∧ 0 < b ∧ wt_get_session_interface s b = Ok None ∨ r = 2 ∧ b <= 0) ∧
     assignation_thread_module_logic s c [mkPacket [] data LOGIC_IOTOIO_DATA_ERROR] x = Ok s').
Proof.
  intros Hr Hb Hlen. destruct (wt_reachable_good n s Hr) as (Hw & _ & _). pose proof Hb as [Hbl Hbw Hbm].
  assert (Hd : ztake len (zdrop 0 (buffer_ buf)) = ztake len (contents buf)).
  { rewrite zdrop_0. unfold contents. by rewrite ztake_ztake by lia. }
  unfold do_io_bridge_data, read. rewrite mem_read_ok by lia. rewrite Hd. cbn [obind].
  destruct (move_contents buf len Hb ltac:(lia)) as (buf' & Em & _ & Hc & _).
  assert (Hfail : ∃ s', send_io_bridge_message_fail s c (mkPacket [] (ztake len (contents buf)) 0) x = Ok s' ∧
    assignation_thread_module_logic s c [mkPacket [] (ztake len (contents buf)) LOGIC_IOTOIO_DATA_ERROR] x = Ok s').
  { destruct (assignation_good s c [mkPacket [] (ztake len (contents buf)) LOGIC_IOTOIO_DATA_ERROR] x Hw) as (s' & E & _). by exists s'. }
  destruct Hfail as (sf & Ef & Ea).
  destruct (0 <? b) eqn:Eb; [apply Z.ltb_lt in Eb|apply Z.ltb_ge in Eb; rewrite Ef; cbn [obind]; rewrite Em; cbn [obind]].
  - unfold send_io_bridge_message, wt_get_session_interface. destruct (thread_ok s b Hw) as (p & -> & Ht & _ & Hlt). cbn [obind].
    rewrite Ht. cbn [obind]. destruct (get_ml_ok s p Hlt) as (m & -> & _). cbn [obind].
    destruct (ml_get_session m b) as [y|]; cbn [obind]; [|rewrite Ef; cbn [obind]]; rewrite Em; cbn [obind];
      eexists _, buf', _; (split; [reflexivity|]); split; try done; [left|right; split; [left|]; eauto].
    split_and!; try done. by exists y.
  - eexists _, buf', sf. split; [reflexivity|]. split; [done|]. right. split; [right; split; [done|lia]|done].
Qed.

Lemma bridged_data_not_lost_witness :
  ∃ (s : demo_sys) r buf' s', wt_reachable 2 s ∧
    do_io_bridge_data s 5 0 (mkSessionBuffer [1; 2; 3; 9] 3 4) 2 tt = Ok (r, buf', s') ∧ contents buf' = [3].
Proof.
  pose proof demo_final as H. destruct demo_started as [s0|] eqn:E0; [|discriminate H]. cbn [obind] in H.
  destruct (demo_run s0 demo_ops) as [s|] eqn:E; [|discriminate H].
  pose proof (demo_reachable s0 s E0 E) as Hr.
  destruct (bridged_data_not_lost 2 s 5 0 (mkSessionBuffer [1; 2; 3; 9] 3 4) 2 tt Hr) as (r & buf' & s' & Ha & Hc & _).
  - split; [reflexivity|cbn; lia|reflexivity].
  - cbn. lia.
  - exists s, r, buf', s'. split; [exact Hr|]. split; [exact Ha|]. rewrite Hc. reflexivity.
Defined.
