(* ===== verification/SessionCalls.v ===== *)
(** * What the IO sessions share

    The calls an IO session makes on the other components (recorded in order in its state), the
    counter of connection ids (src/PSS_ASIO/Common/ConnectCounter.{h,cpp}), the contract of a packet
    parser plugin as a session uses it (src/PSS_ASIO/Message/LoadPacketParse.h) and the two things every
    datagram or client session does with its send buffer. *)

From Stdlib Require Import ZArith Lia.
From S2P Require Import Prelude Define SessionBuffer.
From stdpp Require Import base numbers list strings.
Local Open Scope Z_scope.

(** ** Calls on other components *)

Inductive app_call :=
| PacketConnect (c : Z) (remote local : ClientIPInfo)
| PacketDisconnect (c : Z)
| AddThreadSession (c : Z) (local remote : ClientIPInfo)
| DeleteThreadSession (c : Z) (remote : ClientIPInfo) (ty : EM_CONNECT_IO_TYPE)
| CloseSessionEvent (c : Z)
| AssignationMessages (c : Z) (l : list CMessage_Packet)
| AssignationEvents (c : Z) (l : list CMessage_Packet)
| BridgeData (c b : Z) (data : list Z)
| BridgeMessage (b : Z) (p : CMessage_Packet)
| FrameEvent (command mark : Z) (ip : string) (port : Z) (ty : EM_CONNECT_IO_TYPE)
| AddAccept (ip : string) (port : Z) (ty : EM_CONNECT_IO_TYPE)
| DelAccept (ip : string) (port : Z) (ty : EM_CONNECT_IO_TYPE)
| PostClose (thread c : Z).

(** The connections a list of calls reports. *)
Definition connects (l : list app_call) : list Z :=
  omap (λ a, match a with AddThreadSession c _ _ => Some c | _ => None end) l.

Lemma connects_app l1 l2 : connects (l1 ++ l2) = connects l1 ++ connects l2.
Proof. apply omap_app. Qed.

(** ** CConnectCounter: an atomic 32-bit counter *)

Definition CreateCounter (count_index : Z) : Z * Z := let c := count_index +u32 1 in (c, c).

Lemma CreateCounter_small n : 0 <= n < 2 ^ 32 - 1 → CreateCounter n = (n + 1, n + 1).
Proof. intros. unfold CreateCounter. assert (n +u32 1 = n + 1) as -> by mach. done. Qed.

(** ** One call of the parser plugin

    A plugin may keep state between calls, so each call is a function of its own.  A call that keeps
    the contract returns, and only takes bytes from the front of the buffer. *)

Definition parser_call : Type := CSessionBuffer → outcome (bool * CSessionBuffer * list CMessage_Packet).

Definition consumes (b b' : CSessionBuffer) : Prop :=
  wf b' ∧ max_buff_size_ b' = max_buff_size_ b ∧ ∃ n, 0 <= n ∧ contents b' = zdrop n (contents b).

Definition parser_ok (parse : parser_call) : Prop :=
  ∀ b, wf b → ∃ ret b' l, parse b = Ok (ret, b', l) ∧ consumes b b'.

(** Moving a buffer past everything it held before the parser was called empties it. *)
Lemma consumes_move b b' : wf b → consumes b b' →
  ∃ b'', move b' (zlen (contents b)) = Ok b'' ∧ wf b'' ∧ contents b'' = [] ∧ max_buff_size_ b'' = max_buff_size_ b.
Proof.
  intros Hwf (Hwf' & Hm & n & Hn & Hc). destruct (move_contents b' (zlen (contents b))) as (b'' & -> & ? & Hc'' & ?);
    [done|apply zlen_nonneg|].
  exists b''. split_and!; [done..| |congruence]. rewrite Hc'', zdrop_all; [done|].
  rewrite Hc. pose proof (zlen_nonneg (contents b)). destruct (decide (n <= zlen (contents b))).
  - rewrite zlen_zdrop; lia.
  - rewrite zdrop_all by lia. change (zlen []) with 0. lia.
Qed.

Lemma consumes_refl b : wf b → consumes b b.
Proof. intros Hb. split; [done|]. split; [done|]. exists 0. by rewrite zdrop_0. Qed.

Lemma move_consumes b b0 len : consumes b b0 → 0 <= len → ∃ b', move b0 len = Ok b' ∧ consumes b b'.
Proof.
  intros (Hw & Hm & n & Hn & Hc) Hlen. destruct (move_contents b0 len Hw Hlen) as (b' & -> & ? & Hc' & ?).
  exists b'. split; [done|]. split_and!; [done|congruence|]. exists (len + n). split; [lia|].
  rewrite Hc', Hc. rewrite zdrop_zdrop by lia. f_equal. lia.
Qed.

(** ** Send buffers

    [set_write_buffer] of the UDP, KCP, serial and TCP client sessions: data that does not leave at
    least one byte free is refused. *)
Definition append_send_buffer (b : CSessionBuffer) (data : list Z) : outcome CSessionBuffer :=
  if get_buffer_size b <=? zlen data then Ok b
  else let* '(_, b) := recv_into b data in Ok b.

(** [clear_write_buffer]. *)
Definition clear_write_buffer (b : CSessionBuffer) : outcome CSessionBuffer := move b (get_write_size b).

(** The buffered bytes are copied out and the buffer is cleared, as [do_write] does. *)
Definition take_send_buffer (b : CSessionBuffer) : outcome (list Z * CSessionBuffer) :=
  let* data := mem_read (read b) 0 (get_write_size b) in
  let* b := clear_write_buffer b in Ok (data, b).

Lemma append_send_buffer_ok b data : wf b →
  ∃ b', append_send_buffer b data = Ok b' ∧ wf b' ∧ max_buff_size_ b' = max_buff_size_ b ∧
    contents b' = contents b ++ (if get_buffer_size b <=? zlen data then [] else data).
Proof.
  intros Hwf. unfold append_send_buffer. destruct (get_buffer_size b <=? zlen data) eqn:E.
  - exists b. rewrite app_nil_r. by split_and!.
  - apply Z.leb_gt in E. destruct (recv_into_fits b data) as (b' & -> & ? & ? & ?); [done|lia|].
    exists b'. by split_and!.
Qed.

Lemma clear_write_buffer_ok b : wf b →
  ∃ b', clear_write_buffer b = Ok b' ∧ wf b' ∧ max_buff_size_ b' = max_buff_size_ b ∧ contents b' = [].
Proof.
  intros Hwf. unfold clear_write_buffer, get_write_size. rewrite <- contents_len by done.
  destruct (move_contents b (zlen (contents b))) as (b' & -> & ? & Hc & ?); [done|apply zlen_nonneg|].
  exists b'. split_and!; try done. by rewrite Hc, zdrop_all.
Qed.

Lemma take_send_buffer_ok b : wf b →
  ∃ b', take_send_buffer b = Ok (contents b, b') ∧ wf b' ∧ max_buff_size_ b' = max_buff_size_ b ∧ contents b' = [].
Proof.
  intros Hwf. unfold take_send_buffer, get_write_size. pose proof Hwf as [Hl Hw _].
  rewrite mem_read_ok by (unfold read; lia). cbn.
  destruct (clear_write_buffer_ok b Hwf) as (b' & -> & ? & ? & ?). exists b'. by split_and!.
Qed.

(** ** Received data of a stream session

    The middle of [do_read_some] of the TCP client, TLS and serial sessions and of [do_receive_from] of
    the UDP client: [len] bytes have been added to the buffer [b]; they go to the bridge
    ([do_io_bridge_data], which answers [bridge_ret]) or the buffer goes to the parser.  The result says
    whether the parser accepted; [bridge_time] is the receive time after forwarding, which some sessions
    do not update. *)
Record received_state := mkReceived {
  rs_accepted : bool;
  rs_buffer : CSessionBuffer;
  rs_time : Z;
  rs_bridge : Z;
  rs_call : app_call;
}.

Definition receive_data (c : Z) (state : EM_SESSION_STATE) (bridge old_time bridge_time time bridge_ret : Z)
    (parse : parser_call) (b : CSessionBuffer) (len : Z) : outcome received_state :=
  match state with
  | SESSION_IO_BRIDGE =>
      let* data := mem_read (read b) 0 len in
      let* b := move b len in
      Ok (mkReceived true b bridge_time (if bridge_ret =? 1 then 0 else bridge) (BridgeData c bridge data))
  | SESSION_IO_LOGIC =>
      let* '(ret, b, l) := parse b in
      if ret : bool then Ok (mkReceived true b time bridge (AssignationMessages c l))
      else Ok (mkReceived false b old_time bridge (CloseSessionEvent c))
  end.

Lemma receive_data_ok c state bridge t0 t1 t2 ret parse b len : wf b → 0 <= len <= max_buff_size_ b → parser_ok parse →
  ∃ r, receive_data c state bridge t0 t1 t2 ret parse b len = Ok r ∧ consumes b (rs_buffer r) ∧ connects [rs_call r] = [].
Proof.
  intros Hb Hlen Hp. unfold receive_data. destruct state.
  - destruct (Hp b Hb) as (r & b' & l & -> & Hc). cbn [obind]. destruct r; eexists; by split_and!.
  - pose proof (wf_write b Hb). pose proof (wf_len b Hb). rewrite mem_read_ok by (unfold read; lia). cbn [obind].
    destruct (move_consumes b b len (consumes_refl b Hb)) as (b' & -> & ?); [lia|]. eexists. by split_and!.
Qed.

(** What receiving may tell the work threads. *)
Lemma receive_data_call c state bridge t0 t1 t2 ret parse b len r :
  receive_data c state bridge t0 t1 t2 ret parse b len = Ok r →
  rs_call r = CloseSessionEvent c ∨ ∃ l, rs_call r = AssignationMessages c l ∨ ∃ d, rs_call r = BridgeData c bridge d.
Proof.
  unfold receive_data. destruct state.
  - destruct (parse b) as [[[[] b'] l]|]; [| |done]; intros [= <-]; cbn; eauto.
  - destruct (mem_read _ _ _) as [d|]; [|done]. cbn [obind]. destruct (move b len); [|done]. intros [= <-]. right. exists []. cbn. eauto.
Qed.

(** Sets a bridge, or clears it: [set_io_bridge_connect_id]. *)
Definition bridge_to (to_io_connect_id : Z) : EM_SESSION_STATE * Z :=
  if 0 <? to_io_connect_id then (SESSION_IO_BRIDGE, to_io_connect_id) else (SESSION_IO_LOGIC, 0).
