(* ===== verification/TcpSession.v ===== *)
(** * TCP sessions (src/PSS_ASIO/TcpSession/TcpSession.{h,cpp})

    A session owns a receive buffer that the socket fills and the packet parser empties, and an
    output path: data is appended to a send buffer, handed to the socket by an asynchronous
    write, and accounted for when the write completes; a close waits for the writes under way.

    The packet parser plugin is a parameter.  Calls of the parser's connection hooks and of the
    work threads are recorded in [calls]; [in_flight] holds the writes that were started and
    have not completed, [sent] and [refused] are the history of the output.  The closures given
    to the I/O context are counted ([pending_close]) and run later. *)

From Stdlib Require Import ZArith Lia.
From S2P Require Import Prelude Define SessionBuffer SessionCalls.
From stdpp Require Import base numbers list.
Local Open Scope Z_scope.

Record CTcpSession := mkTcp {
  socket_open : bool;
  tconnect_id_ : Z;                        (* uint32 *)
  io_bridge_connect_id_ : Z;               (* uint32 *)
  session_recv_buffer_ : CSessionBuffer;
  session_send_buffer_ : list Z;
  io_send_count_ : Z;                      (* uint32 *)
  recv_data_size_ : Z;                     (* size_t *)
  send_data_size_ : Z;                     (* size_t *)
  send_buffer_size_ : Z;                   (* size_t *)
  is_active_close_ : bool;
  tremote_ip_ : ClientIPInfo;
  tlocal_ip_ : ClientIPInfo;
  recv_data_time_ : Z;
  io_state_ : EM_SESSION_STATE;
  (* the environment *)
  calls : list app_call;
  in_flight : list (list Z);
  sent : list (list Z);
  refused : list (list Z);
  pending_close : nat;
}.

Implicit Types (s : CTcpSession).

Definition call s (l : list app_call) : CTcpSession := s <| calls := calls s ++ l |>.

(** [do_read]: a full buffer asks for the session to be closed; the read is started anyway. *)
Definition do_read s : CTcpSession :=
  if get_buffer_size (session_recv_buffer_ s) =? 0 then call s [CloseSessionEvent (tconnect_id_ s)] else s.

(** The constructor and [open]; [id] comes from the connection counter. *)
Definition open (junk : nat → Z) (id recv_size time : Z) (remote local : ClientIPInfo) : CTcpSession :=
  let s := mkTcp true id 0 (Init junk recv_size) [] 0 0 0 0 false remote local time SESSION_IO_LOGIC [] [] [] [] 0 in
  do_read (call s [PacketConnect id remote local; AddThreadSession id local remote]).

(** [close_immediaterly]: the work is given to the I/O context. *)
Definition close_immediaterly s : CTcpSession :=
  if negb (socket_open s) then s else s <| pending_close := S (pending_close s) |>.

(** One of these closures runs. *)
Definition run_close s : CTcpSession :=
  match pending_close s with
  | O => s
  | S n =>
      call s [PacketDisconnect (tconnect_id_ s); DeleteThreadSession (tconnect_id_ s) (tremote_ip_ s) CONNECT_IO_TCP]
        <| socket_open := false |> <| pending_close := n |>
  end.

(** [send_write_fail_to_logic]: the first [len] bytes of the buffer in an event packet. *)
Definition send_write_fail_to_logic s (buf : list Z) (len : Z) : CTcpSession :=
  call s [AssignationEvents (tconnect_id_ s) [mkPacket [] (ztake len buf) LOGIC_THREAD_WRITE_IO_ERROR]].

Definition set_write_buffer s (data : list Z) : CTcpSession := s <| session_send_buffer_ := session_send_buffer_ s ++ data |>.

(** [do_write], with [clear_write_buffer]: the buffered data is counted, then refused after an
    active close, or given to the socket. *)
Definition do_write s : CTcpSession :=
  match session_send_buffer_ s with
  | [] => s
  | d =>
      let s1 := s <| session_send_buffer_ := [] |> <| send_buffer_size_ := send_buffer_size_ s +u64 zlen d |> in
      if is_active_close_ s
      then send_write_fail_to_logic (s1 <| refused := refused s ++ [d] |>) d (zlen d)
      else s1 <| in_flight := in_flight s ++ [d] |> <| sent := sent s ++ [d] |>
  end.
Definition do_write_immediately s (data : list Z) : CTcpSession := do_write (set_write_buffer s data).

(** [close]. *)
Definition set_active_close s : CTcpSession := s <| is_active_close_ := true |>.
Definition close s : CTcpSession :=
  if send_buffer_size_ s =? send_data_size_ s then close_immediaterly s else set_active_close (do_write s).

Definition add_send_finish_size s (send_length : Z) : CTcpSession :=
  s <| send_data_size_ := send_data_size_ s +u64 send_length |> <| io_send_count_ := io_send_count_ s +u32 1 |>.

(** The completion of a write: with an error after [len] bytes, or of all of it.  Several
    [async_write] may be under way at once, and they may complete in any order ([i] says
    which one does). *)
Definition do_write_finish s (ec : bool) (buf : list Z) (len : Z) : CTcpSession :=
  if ec then
    let s := send_write_fail_to_logic s buf len in
    if is_active_close_ s then close_immediaterly s else s
  else
    let s := add_send_finish_size s len in
    if is_active_close_ s && (send_buffer_size_ s =? send_data_size_ s) then close_immediaterly s else s.
Definition write_completes s (i : nat) (ec : bool) (len : Z) : CTcpSession :=
  match in_flight s !! i with
  | None => s
  | Some d => do_write_finish (s <| in_flight := delete i (in_flight s) |>) ec d (if ec then len else zlen d)
  end.

(** The completion of a read of [data]; [bridge_ret] is what the bridge answers. *)
Definition do_read_some s (ec : bool) (data : list Z) (time bridge_ret : Z) (parse : parser_call) : outcome CTcpSession :=
  if ec then Ok (call s [CloseSessionEvent (tconnect_id_ s)])
  else
    let s := s <| recv_data_size_ := recv_data_size_ s +u64 zlen data |> in
    let* '(_, b) := recv_into (session_recv_buffer_ s) data in
    let* r := receive_data (tconnect_id_ s) (io_state_ s) (io_bridge_connect_id_ s) (recv_data_time_ s) time time bridge_ret
                parse b (zlen data) in
    Ok (do_read (call (s <| session_recv_buffer_ := rs_buffer r |> <| recv_data_time_ := rs_time r |>
                         <| io_bridge_connect_id_ := rs_bridge r |>) [rs_call r])).

Definition set_io_bridge_connect_id s (from_id to_id : Z) : CTcpSession :=
  s <| io_state_ := fst (bridge_to to_id) |> <| io_bridge_connect_id_ := snd (bridge_to to_id) |>.

(** The queries; the last two ask the parser plugin. *)
Definition tget_remote_ip s (connect_id : Z) : ClientIPInfo := tremote_ip_ s.
Definition tget_io_type s : EM_CONNECT_IO_TYPE := CONNECT_IO_TCP.
Definition tget_mark_id s (connect_id : Z) : Z := 0.
Definition tget_connect_id s : Z := tconnect_id_ s.
Definition tget_recv_time s (connect_id : Z) : Z := recv_data_time_ s.
Definition tformat_send_packet (format : Z → CMessage_Packet → CMessage_Packet → option CMessage_Packet) s (connect_id : Z)
    (m f : CMessage_Packet) : option CMessage_Packet := format connect_id m f.
Definition tis_need_send_format (need_format : bool) s : bool := need_format.

(** ** Steps *)

Inductive tcp_op :=
| TSet (data : list Z)
| TWrite
| TWriteNow (data : list Z)
| TCloseReq
| TRunClose
| TWriteDone (i : nat) (ec : bool) (len : Z)
| TRead (ec : bool) (data : list Z) (time bridge_ret : Z) (parse : parser_call)
| TBridge (from_id to_id : Z).

(** A read gets at most the free part of the buffer. *)
Definition tcp_step s (o : tcp_op) : outcome CTcpSession :=
  match o with
  | TSet d => Ok (set_write_buffer s d)
  | TWrite => Ok (do_write s)
  | TWriteNow d => Ok (do_write_immediately s d)
  | TCloseReq => Ok (close s)
  | TRunClose => Ok (run_close s)
  | TWriteDone i ec len => Ok (write_completes s i ec len)
  | TRead ec d t r parse => do_read_some s ec (ztake (get_buffer_size (session_recv_buffer_ s)) d) t r parse
  | TBridge f t => Ok (set_io_bridge_connect_id s f t)
  end.
Fixpoint tcp_run s (os : list tcp_op) : outcome CTcpSession :=
  match os with [] => Ok s | o :: os => let* s := tcp_step s o in tcp_run s os end.

(** ** The output stream *)

(** The bytes an operation asks to send. *)
Definition op_bytes (o : tcp_op) : list Z := match o with TSet d | TWriteNow d => d | _ => [] end.
Definition requested (os : list tcp_op) : list Z := concat (map op_bytes os).

(** [acc] is all that was requested: the output so far, what was refused and the buffer. *)
Record out_inv s (acc : list Z) : Prop := {
  oi_bytes : acc = concat (sent s) ++ concat (refused s) ++ session_send_buffer_ s;
  oi_flight : in_flight s `sublist_of` sent s;
  oi_refused : refused s ≠ [] → is_active_close_ s = true;
}.

(** The part of the state the output is about. *)
Definition same_output s s' : Prop :=
  sent s' = sent s ∧ refused s' = refused s ∧ session_send_buffer_ s' = session_send_buffer_ s ∧
  in_flight s' = in_flight s ∧ is_active_close_ s' = is_active_close_ s ∧ send_buffer_size_ s' = send_buffer_size_ s ∧
  send_data_size_ s' = send_data_size_ s.

Lemma out_inv_same s s' acc : same_output s s' → out_inv s acc → out_inv s' acc.
Proof. intros (E1 & E2 & E3 & E4 & E5 & _) [H1 H2 H3]. split; by rewrite ?E1, ?E2, ?E3, ?E4, ?E5. Qed.

#[local] Instance same_output_preorder : PreOrder same_output.
Proof.
  split; [by intros s; split_and!|].
  intros s1 s2 s3 (? & ? & ? & ? & ? & ? & ?) (? & ? & ? & ? & ? & ? & ?). split_and!; congruence.
Qed.

Lemma close_imm_same s : same_output s (close_immediaterly s).
Proof. unfold close_immediaterly. by destruct (negb (socket_open s)). Qed.
Lemma run_close_same s : same_output s (run_close s).
Proof. unfold run_close. by destruct (pending_close s). Qed.
Lemma do_read_same s : same_output s (do_read s).
Proof. unfold do_read. by destruct (_ =? 0). Qed.
Lemma read_same s ec d t r parse s' : do_read_some s ec d t r parse = Ok s' → same_output s s'.
Proof.
  unfold do_read_some. destruct ec; [by intros [= <-]|]. destruct (recv_into _ d) as [[ok b]|]; [|done]. cbn [obind].
  destruct (receive_data _ _ _ _ _ _ _ _ b _) as [x|]; [|done]. intros [= <-]. etrans; [|apply do_read_same]. done.
Qed.
Lemma bridge_same s f t : same_output s (set_io_bridge_connect_id s f t).
Proof. done. Qed.

(** [do_write] moves the buffer to the output or to the refused data. *)
Lemma do_write_out s acc : out_inv s acc → out_inv (do_write s) acc.
Proof.
  intros [H1 H2 H3]. unfold do_write. destruct (session_send_buffer_ s) as [|x l] eqn:E.
  { split; [by rewrite E|done|done]. }
  destruct (is_active_close_ s) eqn:Ea.
  - split; cbn; [|done|done]. rewrite H1, concat_app. cbn. by rewrite !app_nil_r.
  - assert (Er : refused s = []) by (destruct (refused s); [done|by discriminate H3]).
    split; cbn; rewrite ?Er; [|by apply sublist_app|done].
    rewrite H1, Er, concat_app. cbn. by rewrite !app_nil_r.
Qed.

Lemma set_buffer_out s acc d : out_inv s acc → out_inv (set_write_buffer s d) (acc ++ d).
Proof. intros [H1 H2 H3]. split; [|done|done]. rewrite H1. cbn. by rewrite !app_assoc. Qed.

Lemma completes_same s i ec len : match in_flight s !! i with
  | None => write_completes s i ec len = s
  | Some d => sent (write_completes s i ec len) = sent s ∧ refused (write_completes s i ec len) = refused s ∧
      session_send_buffer_ (write_completes s i ec len) = session_send_buffer_ s ∧
      in_flight (write_completes s i ec len) = delete i (in_flight s) ∧
      is_active_close_ (write_completes s i ec len) = is_active_close_ s ∧
      send_buffer_size_ (write_completes s i ec len) = send_buffer_size_ s ∧
      send_data_size_ (write_completes s i ec len) = (if ec then send_data_size_ s else send_data_size_ s +u64 zlen d)
  end.
Proof.
  unfold write_completes. destruct (in_flight s !! i) as [d|]; [|done]. unfold do_write_finish. destruct ec.
  - match goal with |- context [send_write_fail_to_logic ?a ?b ?c] => set (s1 := send_write_fail_to_logic a b c) end.
    destruct (close_imm_same s1) as (E1 & E2 & E3 & E4 & E5 & E6 & E7).
    destruct (is_active_close_ s1) eqn:Ea; rewrite ?E1, ?E2, ?E3, ?E4, ?E5, ?E6, ?E7; split_and!; done.
  - match goal with |- context [add_send_finish_size ?a ?b] => set (s1 := add_send_finish_size a b) end.
    destruct (close_imm_same s1) as (E1 & E2 & E3 & E4 & E5 & E6 & E7).
    destruct (_ && _); rewrite ?E1, ?E2, ?E3, ?E4, ?E5, ?E6, ?E7; by split_and!.
Qed.

Lemma completes_out s acc i ec len : out_inv s acc → out_inv (write_completes s i ec len) acc.
Proof.
  intros [H1 H2 H3]. pose proof (completes_same s i ec len) as H. destruct (in_flight s !! i) as [x|] eqn:E.
  - destruct H as (E1 & E2 & E3 & E4 & E5 & _). split; rewrite ?E1, ?E2, ?E3, ?E4, ?E5; [done| |done].
    etrans; [apply sublist_delete|done].
  - by rewrite H.
Qed.

Lemma close_out s acc : out_inv s acc → out_inv (close s) acc.
Proof.
  intros H. unfold close. destruct (_ =? _); [by apply (out_inv_same s _ _ (close_imm_same s))|].
  destruct (do_write_out s acc H) as [H1 H2 H3]. by split.
Qed.

Lemma step_out s o s' acc : tcp_step s o = Ok s' → out_inv s acc → out_inv s' (acc ++ op_bytes o).
Proof.
  intros E H. destruct o; cbn [tcp_step op_bytes] in *; rewrite ?app_nil_r; try (injection E as <-).
  - by apply set_buffer_out.
  - by apply do_write_out.
  - by apply do_write_out, set_buffer_out.
  - by apply close_out.
  - by apply (out_inv_same s _ _ (run_close_same s)).
  - by apply completes_out.
  - by apply (out_inv_same s _ _ (read_same _ _ _ _ _ _ _ E)).
  - by apply (out_inv_same s _ _ (bridge_same s _ _)).
Qed.

(** ** Sizes *)

(** All the bytes of a list of writes. *)
Definition total (l : list (list Z)) : Z := zlen (concat l).
Lemma total_app l1 l2 : total (l1 ++ l2) = total l1 + total l2.
Proof. unfold total. by rewrite concat_app, zlen_app. Qed.
Lemma total_one d : total [d] = zlen d.
Proof. unfold total. cbn. by rewrite app_nil_r. Qed.
Lemma total_cons d l : total (d :: l) = zlen d + total l.
Proof. unfold total. cbn. by rewrite zlen_app. Qed.
Lemma total_delete l i d : l !! i = Some d → total l = zlen d + total (delete i l).
Proof.
  revert i. induction l as [|x l IH]; intros [|i] E; try done; cbn in E.
  - injection E as ->. apply total_cons.
  - change (delete (S i) (x :: l)) with (x :: delete i l). rewrite !total_cons, (IH i E). lia.
Qed.
Lemma total_nonneg l : 0 <= total l.
Proof. apply zlen_nonneg. Qed.

(** Without a failed write the counters say what is under way, as long as they do not wrap. *)
Record size_inv s : Prop := {
  si_sent : send_buffer_size_ s = total (sent s) + total (refused s);
  si_done : send_data_size_ s + total (in_flight s) + total (refused s) = send_buffer_size_ s;
  si_low : 0 <= send_data_size_ s;
  si_nonempty : Forall (λ d, d ≠ []) (in_flight s) ∧ Forall (λ d, d ≠ []) (refused s);
}.

Lemma size_same s s' : same_output s s' → size_inv s → size_inv s'.
Proof. intros (E1 & E2 & E3 & E4 & E5 & E6 & E7) [H1 H2 H3 H4]. split; by rewrite ?E1, ?E2, ?E3, ?E4, ?E5, ?E6, ?E7. Qed.

Lemma do_write_size s acc : out_inv s acc → zlen acc < 2 ^ 64 → size_inv s → size_inv (do_write s).
Proof.
  intros Ho Hb [H1 H2 H3 [H4 H5]]. destruct Ho as [Ha _ _]. unfold do_write. destruct (session_send_buffer_ s) as [|x l] eqn:E; [by split|].
  assert (Hsz : send_buffer_size_ s +u64 zlen (x :: l) = send_buffer_size_ s + zlen (x :: l)).
  { apply u64_small. rewrite Ha, !zlen_app in Hb. unfold total in *. pose proof (zlen_nonneg (x :: l)).
    pose proof (total_nonneg (sent s)). pose proof (total_nonneg (refused s)). unfold total in *. lia. }
  rewrite Hsz. destruct (is_active_close_ s); split; cbn; rewrite ?total_app, ?total_one; try lia; split; try done;
    apply Forall_app; split; try done; by constructor.
Qed.

Lemma completes_size s i acc : out_inv s acc → zlen acc < 2 ^ 64 → size_inv s → size_inv (write_completes s i false 0).
Proof.
  intros [Ha _ _] Hb [H1 H2 H3 [H4 H5]]. pose proof (completes_same s i false 0) as H.
  destruct (in_flight s !! i) as [d|] eqn:E; [|by rewrite H].
  destruct H as (E1 & E2 & E3 & E4 & E5 & E6 & E7). rewrite Ha, !zlen_app in Hb. rewrite (total_delete _ i d E) in H2.
  pose proof (total_nonneg (delete i (in_flight s))). pose proof (total_nonneg (refused s)). pose proof (zlen_nonneg d).
  pose proof (zlen_nonneg (session_send_buffer_ s)).
  assert (send_data_size_ s +u64 zlen d = send_data_size_ s + zlen d) as Hu by (apply u64_small; unfold total in *; lia).
  split; rewrite ?E1, ?E2, ?E3, ?E4, ?E6, ?E7, ?Hu; [done|lia|lia|]. split; [by apply Forall_delete|done].
Qed.

Lemma close_size s acc : out_inv s acc → zlen acc < 2 ^ 64 → size_inv s → size_inv (close s).
Proof.
  intros Ho Hb H. unfold close. destruct (_ =? _); [by apply (size_same s _ (close_imm_same s))|].
  destruct (do_write_size s acc Ho Hb H) as [H1 H2 H3 H4]. by split.
Qed.

Definition write_error (o : tcp_op) : Prop := match o with TWriteDone _ true _ => True | _ => False end.

Lemma step_size s o s' acc : tcp_step s o = Ok s' → out_inv s acc → zlen (acc ++ op_bytes o) < 2 ^ 64 → ¬ write_error o →
  size_inv s → size_inv s'.
Proof.
  intros E Ho Hb Hne H. pose proof (zlen_nonneg (op_bytes o)). rewrite zlen_app in Hb.
  assert (Hb' : zlen acc < 2 ^ 64) by lia.
  destruct o; cbn [tcp_step op_bytes] in *; try (injection E as <-).
  - by destruct H.
  - by eapply do_write_size.
  - eapply (do_write_size _ (acc ++ data)); [by apply set_buffer_out|rewrite zlen_app; lia|by destruct H].
  - by eapply close_size.
  - by apply (size_same s _ (run_close_same s)).
  - destruct ec; [by destruct Hne|]. change (write_completes s i false len) with (write_completes s i false 0). by eapply completes_size.
  - by apply (size_same s _ (read_same _ _ _ _ _ _ _ E)).
  - by apply (size_same s _ (bridge_same s _ _)).
Qed.

(** Equal counters mean that nothing is under way. *)
Lemma total_zero l : Forall (λ d, d ≠ []) l → total l = 0 → l = [].
Proof.
  destruct l as [|d l]; [done|]. intros [Hd _]%Forall_cons. rewrite total_cons. pose proof (total_nonneg l).
  destruct d; [done|]. rewrite zlen_cons. pose proof (zlen_nonneg d). lia.
Qed.
Lemma sizes_equal s : size_inv s → send_buffer_size_ s = send_data_size_ s → in_flight s = [] ∧ refused s = [].
Proof.
  intros [H1 H2 H3 [H4 H5]] E. pose proof (total_nonneg (in_flight s)). pose proof (total_nonneg (refused s)).
  split; apply total_zero; try done; lia.
Qed.
Lemma sizes_differ s : size_inv s → send_buffer_size_ s ≠ send_data_size_ s → in_flight s ≠ [] ∨ refused s ≠ [].
Proof.
  intros [H1 H2 H3 _] E. destruct (decide (in_flight s = [])) as [Hi|]; [|by left]. right. intros Hr.
  rewrite Hi, Hr in H2. change (total []) with 0 in H2. lia.
Qed.

(** ** Closing *)

(** The session is closed or will be by the I/O context. *)
Definition closing s : Prop := (0 < pending_close s)%nat ∨ socket_open s = false.

Lemma close_imm_closing s : closing (close_immediaterly s).
Proof. unfold closing, close_immediaterly. destruct (socket_open s) eqn:E; cbn; [left; lia|by right]. Qed.

Definition same_sched s s' : Prop := pending_close s' = pending_close s ∧ socket_open s' = socket_open s.
Lemma do_write_sched s : same_sched s (do_write s).
Proof. unfold do_write. destruct (session_send_buffer_ s); [done|]. by destruct (is_active_close_ s). Qed.
Lemma do_read_sched s : same_sched s (do_read s).
Proof. unfold do_read. by destruct (_ =? 0). Qed.
Lemma read_sched s ec d t r parse s' : do_read_some s ec d t r parse = Ok s' → same_sched s s'.
Proof.
  unfold do_read_some. destruct ec; [by intros [= <-]|]. destruct (recv_into _ d) as [[ok b]|]; [|done]. cbn [obind].
  destruct (receive_data _ _ _ _ _ _ _ _ b _) as [x|]; [|done]. intros [= <-].
  match goal with |- same_sched _ (do_read ?a) => destruct (do_read_sched a) as [E1 E2] end. unfold same_sched. by rewrite E1, E2.
Qed.
Lemma bridge_sched s f t : same_sched s (set_io_bridge_connect_id s f t).
Proof. done. Qed.
Lemma closing_same s s' : same_sched s s' → closing s → closing s'.
Proof. intros [E1 E2]. unfold closing. by rewrite E1, E2. Qed.

(** A close that was asked for and waits has something to wait for. *)
Definition waits s : Prop := is_active_close_ s = true → in_flight s = [] → refused s = [] → closing s.

Lemma waits_same s s' : same_output s s' → same_sched s s' → waits s → waits s'.
Proof.
  intros (_ & E2 & _ & E4 & E5 & _) Hs Hw. unfold waits. rewrite E2, E4, E5. intros. eapply closing_same; [done|]. by apply Hw.
Qed.

Lemma do_write_grows s : in_flight (do_write s) = [] → refused (do_write s) = [] →
  in_flight s = [] ∧ refused s = [] ∧ do_write s = s.
Proof.
  unfold do_write. destruct (session_send_buffer_ s); [done|].
  destruct (is_active_close_ s); cbn; [by destruct (refused s)|by destruct (in_flight s)].
Qed.
Lemma do_write_waits s : waits s → waits (do_write s).
Proof. intros Hw Ha Hi Hr. destruct (do_write_grows s Hi Hr) as (_ & _ & E). rewrite E in *. by apply Hw. Qed.

Lemma completes_waits s i acc : out_inv s acc → zlen acc < 2 ^ 64 → size_inv s → waits s → waits (write_completes s i false 0).
Proof.
  intros Ho Hb Hs Hw. pose proof (completes_size s i acc Ho Hb Hs) as Hs'. revert Hs'. unfold write_completes.
  destruct (in_flight s !! i) as [d|]; [|done]. unfold do_write_finish.
  match goal with |- context [add_send_finish_size ?a ?b] => set (s1 := add_send_finish_size a b) end.
  destruct (is_active_close_ s1) eqn:Ea; cbn [andb]; [|intros _ H; by rewrite Ea in H].
  destruct (Z.eqb_spec (send_buffer_size_ s1) (send_data_size_ s1)) as [E|E].
  - intros _ _ _ _. apply close_imm_closing.
  - intros Hs' _ Hi Hr. by destruct (sizes_differ s1 Hs' E).
Qed.

Lemma step_waits s o s' acc : tcp_step s o = Ok s' → out_inv s acc → zlen (acc ++ op_bytes o) < 2 ^ 64 → ¬ write_error o →
  size_inv s → waits s → waits s'.
Proof.
  intros E Ho Hb Hne Hs Hw. assert (Hb' : zlen acc < 2 ^ 64) by (rewrite zlen_app in Hb; pose proof (zlen_nonneg (op_bytes o)); lia).
  destruct o; cbn [tcp_step op_bytes] in *; try (injection E as <-).
  - done.
  - by apply do_write_waits.
  - by apply do_write_waits.
  - unfold close. destruct (Z.eqb_spec (send_buffer_size_ s) (send_data_size_ s)) as [Eq|Eq].
    + intros _ _ _. apply close_imm_closing.
    + intros _ Hi Hr. cbn in Hi, Hr. destruct (do_write_grows s Hi Hr) as (Hi' & Hr' & _). by destruct (sizes_differ s Hs Eq).
  - unfold run_close. destruct (pending_close s); [done|]. intros _ _ _. by right.
  - destruct ec; [by destruct Hne|]. change (write_completes s i false len) with (write_completes s i false 0). by eapply completes_waits.
  - by apply (waits_same s _ (read_same _ _ _ _ _ _ _ E) (read_sched _ _ _ _ _ _ _ E)).
  - by apply (waits_same s _ (bridge_same s _ _) (bridge_sched s _ _)).
Qed.

(** A close is given to the I/O context only when everything sent was confirmed. *)
Lemma step_closes s o s' acc : tcp_step s o = Ok s' → out_inv s acc → zlen (acc ++ op_bytes o) < 2 ^ 64 → ¬ write_error o →
  size_inv s → (pending_close s < pending_close s')%nat → in_flight s' = [] ∧ refused s' = [].
Proof.
  intros E Ho Hb Hne Hs Hp. pose proof (step_size s o s' acc E Ho Hb Hne Hs) as Hs'.
  destruct o; cbn [tcp_step op_bytes] in *; try (injection E as <-); try (cbn in Hp; lia).
  - destruct (do_write_sched s) as [E1 _]. lia.
  - destruct (do_write_sched (set_write_buffer s data)) as [E1 _]. unfold do_write_immediately in Hp. rewrite E1 in Hp. cbn in Hp. lia.
  - revert Hp Hs'. unfold close. destruct (Z.eqb_spec (send_buffer_size_ s) (send_data_size_ s)) as [Eq|Eq].
    + intros _ _. destruct (close_imm_same s) as (_ & E2 & _ & E4 & _). rewrite E2, E4. by apply sizes_equal.
    + destruct (do_write_sched s) as [E1 _]. cbn. lia.
  - revert Hp. unfold run_close. destruct (pending_close s) eqn:E; cbn; lia.
  - destruct ec; [by destruct Hne|]. revert Hp Hs'. unfold write_completes.
    destruct (in_flight s !! i) as [d|]; [|lia]. unfold do_write_finish.
    match goal with |- context [add_send_finish_size ?a ?b] => set (s1 := add_send_finish_size a b) end.
    destruct (is_active_close_ s1); cbn [andb]; [|cbn; lia].
    destruct (Z.eqb_spec (send_buffer_size_ s1) (send_data_size_ s1)) as [Eq|]; [|cbn; lia].
    destruct (close_imm_same s1) as (_ & E2 & _ & E4 & _ & E6 & E7). intros _ Hs'. apply sizes_equal; [done|]. by rewrite E6, E7.
  - destruct (read_sched _ _ _ _ _ _ _ E). lia.
Qed.

Lemma run_graceful os : ∀ s acc s', tcp_run s os = Ok s' → out_inv s acc → size_inv s → waits s →
  Forall (λ o, ¬ write_error o) os → zlen (acc ++ requested os) < 2 ^ 64 →
  out_inv s' (acc ++ requested os) ∧ size_inv s' ∧ waits s'.
Proof.
  induction os as [|o os IH]; intros s acc s'; cbn [tcp_run].
  - intros [= <-] Ho Hs Hw _ _. unfold requested. cbn. by rewrite app_nil_r.
  - destruct (tcp_step s o) as [s1|] eqn:E; [|done]. cbn [obind]. intros Hr Ho Hs Hw [Hne Hos]%Forall_cons Hb.
    unfold requested in *. cbn [map concat] in *. rewrite app_assoc in *.
    assert (Hb1 : zlen (acc ++ op_bytes o) < 2 ^ 64).
    { rewrite zlen_app in Hb. pose proof (zlen_nonneg (concat (map op_bytes os))). lia. }
    apply (IH s1 (acc ++ op_bytes o)); try done; [by eapply step_out|by eapply step_size|by eapply step_waits].
Qed.

Lemma open_inv junk id n t remote local :
  out_inv (open junk id n t remote local) [] ∧ size_inv (open junk id n t remote local) ∧ waits (open junk id n t remote local).
Proof.
  unfold open. match goal with |- context [do_read ?a] => set (s := a) end.
  assert (out_inv s [] ∧ size_inv s ∧ waits s) as (H1 & H2 & H3).
  { split; [split; cbn; [done|constructor|done]|]. split; [split; by cbn|]. by intros H. }
  split; [by apply (out_inv_same s _ _ (do_read_same s))|]. split; [by apply (size_same s _ (do_read_same s))|].
  by apply (waits_same s _ (do_read_same s) (do_read_sched s)).
Qed.

(** ** A failed write *)

(** The close waits for bytes that no write will confirm. *)
Definition stuck s : Prop :=
  socket_open s = true ∧ pending_close s = 0%nat ∧ in_flight s = [] ∧ is_active_close_ s = true ∧
  send_data_size_ s < send_buffer_size_ s.

Definition room s : Z := send_buffer_size_ s + zlen (session_send_buffer_ s).

Definition disconnects (l : list app_call) : list app_call :=
  filter (λ c, match c with DeleteThreadSession _ _ _ => true | _ => false end = true) l.

(** What the stuck state keeps. *)
Definition keeps s s' : Prop := stuck s' ∧ disconnects (calls s') = disconnects (calls s).

Lemma disconnects_app l1 l2 : disconnects (l1 ++ l2) = disconnects l1 ++ disconnects l2.
Proof. apply filter_app. Qed.

Lemma disconnects_more l a : disconnects [a] = [] → disconnects (l ++ [a]) = disconnects l.
Proof. intros Ha. by rewrite disconnects_app, Ha, app_nil_r. Qed.

Lemma stuck_write s : 0 <= send_data_size_ s → room s < 2 ^ 64 → stuck s →
  keeps s (do_write s) ∧ room (do_write s) = room s ∧ send_data_size_ (do_write s) = send_data_size_ s.
Proof.
  intros H0 Hr (H1 & H2 & H3 & H4 & H5). unfold keeps, stuck, do_write, room in *.
  destruct (session_send_buffer_ s) as [|x l] eqn:E; [by rewrite E|]. rewrite H4.
  pose proof (zlen_nonneg (x :: l)).
  assert (send_buffer_size_ s +u64 zlen (x :: l) = send_buffer_size_ s + zlen (x :: l)) as -> by (apply u64_small; lia).
  cbn -[zlen].
  split; [split; [split_and!; try done; lia|]|]. { by apply disconnects_more. } split; [|done]. unfold zlen at 2. cbn. lia.
Qed.

(** Steps that only touch the rest of the state and the calls. *)
Lemma stuck_same s s' : same_output s s' → same_sched s s' → disconnects (calls s') = disconnects (calls s) →
  stuck s → keeps s s' ∧ room s' = room s ∧ send_data_size_ s' = send_data_size_ s.
Proof.
  intros (_ & _ & E3 & E4 & E5 & E6 & E7) [E8 E9] Hc (H1 & H2 & H3 & H4 & H5). unfold keeps, stuck, room.
  rewrite E3, E4, E5, E6, E7, E8, E9. by split_and!.
Qed.

Lemma do_read_calls s : disconnects (calls (do_read s)) = disconnects (calls s).
Proof. unfold do_read. destruct (_ =? 0); [|done]. by apply disconnects_more. Qed.
Lemma read_calls s ec d t r parse s' : do_read_some s ec d t r parse = Ok s' → disconnects (calls s') = disconnects (calls s).
Proof.
  unfold do_read_some. destruct ec.
  { intros [= <-]. by apply disconnects_more. }
  destruct (recv_into _ d) as [[ok b]|]; [|done]. cbn [obind].
  destruct (receive_data _ _ _ _ _ _ _ _ b _) as [x|] eqn:E; [|done]. intros [= <-]. rewrite do_read_calls. apply disconnects_more.
  by destruct (receive_data_call _ _ _ _ _ _ _ _ _ _ _ E) as [-> |[? [-> |[? ->]]]].
Qed.

Lemma stuck_step s o s' : tcp_step s o = Ok s' → 0 <= send_data_size_ s → room s + zlen (op_bytes o) < 2 ^ 64 → stuck s →
  keeps s s' ∧ room s' = room s + zlen (op_bytes o) ∧ send_data_size_ s' = send_data_size_ s.
Proof.
  intros E H0 Hr Hs. pose proof Hs as (H1 & H2 & H3 & H4 & H5).
  destruct o; cbn [tcp_step op_bytes] in *; try (injection E as <-); try (change (zlen []) with 0 in *; rewrite ?Z.add_0_r in * ).
  - unfold room in *. cbn. rewrite zlen_app. split; [done|]. split; [lia|done].
  - by apply stuck_write.
  - destruct (stuck_write (set_write_buffer s data)) as (A & B & C); [done| |done|].
    + unfold room in *. cbn. rewrite zlen_app. lia.
    + split; [exact A|]. split; [|exact C]. unfold do_write_immediately. rewrite B. unfold room. cbn. rewrite zlen_app. lia.
  - unfold close. rewrite (proj2 (Z.eqb_neq _ _)) by lia. destruct (stuck_write s H0 Hr Hs) as ([(A1 & A2 & A3 & A4 & A5) B] & C & D).
    split; [by split|]. by split.
  - unfold run_close. rewrite H2. by split_and!.
  - unfold write_completes. rewrite H3. by split_and!.
  - apply stuck_same; [by eapply read_same|by eapply read_sched|by eapply read_calls|done].
  - apply stuck_same; [apply bridge_same|apply bridge_sched| |done]. done.
Qed.

Lemma stuck_run os : ∀ s s', tcp_run s os = Ok s' → 0 <= send_data_size_ s → room s + zlen (requested os) < 2 ^ 64 → stuck s →
  keeps s s'.
Proof.
  induction os as [|o os IH]; intros s s'; cbn [tcp_run]; [by intros [= <-]|].
  destruct (tcp_step s o) as [s1|] eqn:E; [|done]. cbn [obind]. unfold requested. cbn [map concat]. rewrite zlen_app.
  intros Hr H0 Hb Hs. pose proof (zlen_nonneg (concat (map op_bytes os))).
  destruct (stuck_step s o s1 E H0 ltac:(lia) Hs) as ([Hs1 Hc1] & Er & Ed).
  destruct (IH s1 s' Hr ltac:(lia) ltac:(unfold requested; lia) Hs1) as [Hs' Hc']. split; [done|]. by rewrite Hc'.
Qed.

(** ** The receive buffer *)

(** No operation faults while the parsers keep their contract. *)
Definition op_ok (o : tcp_op) : Prop := match o with TRead _ _ _ _ parse => parser_ok parse | _ => True end.

Record recv_inv (n : Z) s : Prop := {
  ri_wf : wf (session_recv_buffer_ s);
  ri_size : max_buff_size_ (session_recv_buffer_ s) = n;
}.

Lemma do_write_recv s : session_recv_buffer_ (do_write s) = session_recv_buffer_ s.
Proof. unfold do_write. destruct (session_send_buffer_ s); [done|]. by destruct (is_active_close_ s). Qed.
Lemma close_imm_recv s : session_recv_buffer_ (close_immediaterly s) = session_recv_buffer_ s.
Proof. unfold close_immediaterly. by destruct (negb (socket_open s)). Qed.
Lemma completes_recv s i ec len : session_recv_buffer_ (write_completes s i ec len) = session_recv_buffer_ s.
Proof.
  unfold write_completes. destruct (in_flight s !! i); [|done]. unfold do_write_finish. destruct ec;
    [destruct (is_active_close_ _)|destruct (_ && _)]; by rewrite ?close_imm_recv.
Qed.
Lemma do_read_recv s : session_recv_buffer_ (do_read s) = session_recv_buffer_ s.
Proof. unfold do_read. by destruct (_ =? 0). Qed.

Lemma read_recv n s ec d t r parse : recv_inv n s → parser_ok parse →
  ∃ s', tcp_step s (TRead ec d t r parse) = Ok s' ∧ recv_inv n s'.
Proof.
  intros [Hw Hn] Hp. cbn [tcp_step]. unfold do_read_some. destruct ec; [by eexists|]. cbn -[recv_into get_buffer_size receive_data].
  set (b := session_recv_buffer_ s) in *. set (data := ztake (get_buffer_size b) d).
  assert (Hd : 0 <= zlen data <= get_buffer_size b).
  { split; [apply zlen_nonneg|by apply fit_le]. }
  rewrite get_buffer_size_wf in Hd by done. pose proof (zlen_nonneg (contents b)).
  destruct (recv_into_fits b data) as (b1 & -> & Hw1 & _ & Hm1); [done|rewrite get_buffer_size_wf by done; lia|]. cbn [obind].
  destruct (receive_data_ok (tconnect_id_ s) (io_state_ s) (io_bridge_connect_id_ s) (recv_data_time_ s) t t r parse b1 (zlen data))
    as (x & E & (Hw2 & Hm2 & _) & _); [done|lia|done|].
  cbn [tconnect_id_ io_state_ io_bridge_connect_id_ recv_data_time_]. rewrite E. cbn [obind]. eexists. split; [done|].
  split; rewrite do_read_recv; cbn; [done|congruence].
Qed.

Lemma step_recv n s o : recv_inv n s → op_ok o → ∃ s', tcp_step s o = Ok s' ∧ recv_inv n s'.
Proof.
  intros Hi Ho. destruct o; try (by apply read_recv); cbn [tcp_step]; eexists; (split; [done|]);
    destruct Hi as [Hw Hn]; split; unfold close, run_close, do_write_immediately, set_active_close;
    rewrite ?do_write_recv, ?completes_recv; try done; repeat case_match; cbn; rewrite ?close_imm_recv, ?do_write_recv; done.
Qed.

Lemma run_recv n os : ∀ s, recv_inv n s → Forall op_ok os → ∃ s', tcp_run s os = Ok s' ∧ recv_inv n s'.
Proof.
  induction os as [|o os IH]; intros s Hi; cbn [tcp_run]; [by exists s|]. intros [Ho Hos]%Forall_cons.
  destruct (step_recv n s o Hi Ho) as (s1 & -> & Hi1). cbn [obind]. by apply IH.
Qed.

Lemma open_recv junk id n t remote local : 0 <= n < 2 ^ 63 → recv_inv n (open junk id n t remote local).
Proof. intros Hn. destruct (Init_wf junk n Hn). unfold open. by split; rewrite do_read_recv. Qed.

(** ** Properties *)


Definition demo_open : CTcpSession := open (λ _, 0) 5 1024 0 ClientIPInfo_default ClientIPInfo_default.
Definition demo_ops : list tcp_op := [TWriteNow [1; 2]; TWriteNow [3]; TCloseReq; TWriteDone 1 false 1; TWriteDone 0 false 2].


(** After a write failed, a close of the session has no effect: the counters stay apart,
    the close waits for a confirmation that never comes, and whatever is called afterwards
    (further closes, writes, reads that fail) the socket stays open and the disconnection is
    never reported, until the counters wrap. *)
Theorem tcp_failed_write_blocks_close s os s' :
  stuck s → 0 <= send_data_size_ s → room s + zlen (requested os) < 2 ^ 64 → tcp_run s os = Ok s' →
  socket_open s' = true ∧ pending_close s' = 0%nat ∧ disconnects (calls s') = disconnects (calls s).
Proof.
  intros Hs H0 Hb Hr. destruct (stuck_run os s s' Hr H0 Hb Hs) as [(H1 & H2 & _) Hc]. by split_and!.
Qed.

Definition demo_parse : parser_call := λ b, Ok (true, b, []).

Lemma tcp_failed_write_blocks_close_witness :
  ∃ s s', tcp_run demo_open [TWriteNow [1; 2]; TWriteDone 0 true 0; TRead true [] 0 0 demo_parse; TCloseReq] = Ok s ∧ stuck s ∧
    tcp_run s [TCloseReq; TWriteNow [7]; TRunClose; TCloseReq; TRunClose] = Ok s' ∧
    socket_open s' = true ∧ pending_close s' = 0%nat ∧ disconnects (calls s') = disconnects (calls s).
Proof.
  eexists _, _. split; [reflexivity|]. split; [split_and!; reflexivity|]. split; [reflexivity|].
  apply (tcp_failed_write_blocks_close _ [TCloseReq; TWriteNow [7]; TRunClose; TCloseReq; TRunClose]).
  - split_and!; reflexivity.
  - cbn. discriminate.
  - reflexivity.
  - reflexivity.
Defined.
