(* ===== verification/EndpointTables.v ===== *)
(** * Endpoints and connections of a datagram server

    The UDP and the KCP server keep the same two tables: from endpoints to connection ids and from ids to
    connections.  Their invariant, and what keeps it, for any type of connections [info] with the
    endpoint each sends to and a condition [ok] on it. *)

From Stdlib Require Import ZArith Lia.
From S2P Require Import Prelude.
From stdpp Require Import base numbers list gmap.
Local Open Scope Z_scope.

(** A datagram given to the socket for a connection. *)
Record datagram (endpoint : Type) := mkDatagram { d_connect : Z; d_endpoint : endpoint; d_data : list Z }.
Arguments mkDatagram {endpoint}.
Arguments d_connect {endpoint}.
Arguments d_endpoint {endpoint}.
Arguments d_data {endpoint}.

Section Tables.

Context {endpoint info : Type} `{Countable endpoint} (endpoint_of : info → endpoint) (ok : Z → info → Prop).
Implicit Types (i : info) (m : gmap Z info) (em : gmap endpoint Z) (l : list (datagram endpoint)).

(** The two tables describe one bijection, ids come from the counter, and everything sent for an id
    went to one endpoint, that of the id as long as it is in the table. *)
Record tables_ok (count : Z) m em l : Prop := {
  t_bij : ∀ ep id, em !! ep = Some id ↔ ∃ i, m !! id = Some i ∧ endpoint_of i = ep;
  t_info : ∀ id i, m !! id = Some i → ok id i ∧ 0 < id <= count;
  t_sent : ∀ d, d ∈ l → d_connect d <= count ∧ ∀ i, m !! d_connect d = Some i → endpoint_of i = d_endpoint d;
  t_once : ∀ d d', d ∈ l → d' ∈ l → d_connect d = d_connect d' → d_endpoint d = d_endpoint d';
}.

Lemma tables_init count : tables_ok count ∅ ∅ [].
Proof.
  split.
  - intros ep id. split; [done|]. by intros (? & ? & ?).
  - done.
  - by intros d ?%not_elem_of_nil.
  - by intros d d' ?%not_elem_of_nil.
Qed.

Lemma tables_count count count' m em l : count <= count' → tables_ok count m em l → tables_ok count' m em l.
Proof.
  intros Hle [H1 H2 H3 H4]. split; [done| |intros d Hd; destruct (H3 d Hd); split; [lia|done]|done].
  intros id i Hi. destruct (H2 id i Hi). split; [done|lia].
Qed.

(** Changing a connection but not where it sends to. *)
Lemma tables_alter count m em l f id :
  (∀ i, m !! id = Some i → endpoint_of (f i) = endpoint_of i ∧ (ok id i → ok id (f i))) →
  tables_ok count m em l → tables_ok count (alter f id m) em l.
Proof.
  intros Hf [H1 H2 H3 H4].
  assert (Hlook : ∀ k i', alter f id m !! k = Some i' → ∃ i, m !! k = Some i ∧ endpoint_of i' = endpoint_of i ∧ (ok k i → ok k i')).
  { intros k i' E. destruct (decide (id = k)) as [->|Hne].
    - rewrite lookup_alter_eq in E. destruct (m !! k) as [i|] eqn:Ei; [|done]. injection E as <-. exists i. split; [done|by apply Hf].
    - rewrite lookup_alter_ne in E by done. by exists i'. }
  split.
  - intros ep k. rewrite H1. split; [|naive_solver]. intros (i & Hi & He). destruct (decide (id = k)) as [->|Hne].
    + exists (f i). rewrite lookup_alter_eq, Hi. split; [done|]. by rewrite (proj1 (Hf i Hi)).
    + exists i. by rewrite lookup_alter_ne.
  - intros k i' (i & Hi & _ & Hw)%Hlook. destruct (H2 k i Hi). auto.
  - intros d Hd. destruct (H3 d Hd) as [? Hs]. split; [done|]. intros i' (i & Hi & -> & _)%Hlook. auto.
  - done.
Qed.

(** A new connection for an endpoint that has none. *)
Lemma tables_new count m em l i : tables_ok count m em l → 0 <= count →
  em !! endpoint_of i = None → ok (count + 1) i →
  tables_ok (count + 1) (<[count + 1 := i]> m) (<[endpoint_of i := count + 1]> em) l.
Proof.
  intros [H1 H2 H3 H4] H0 Hem Hok.
  assert (Hfresh : m !! (count + 1) = None).
  { destruct (m !! (count + 1)) as [i'|] eqn:E; [|done]. destruct (H2 _ _ E). lia. }
  split.
  - intros ep k. destruct (decide (ep = endpoint_of i)) as [->|Hne].
    + rewrite lookup_insert_eq. split; [intros [= <-]; exists i; by rewrite lookup_insert_eq|].
      intros (i' & [[<- <-]|[Hk Hi']]%lookup_insert_Some & He); [done|].
      assert (em !! endpoint_of i = Some k) by (apply H1; eauto). congruence.
    + rewrite lookup_insert_ne by done. rewrite H1. split; intros (i' & Hi' & He).
      * exists i'. rewrite lookup_insert_ne; [done|]. intros <-. congruence.
      * apply lookup_insert_Some in Hi' as [[<- <-]|[Hk Hi']]; [congruence|eauto].
  - intros k i' [[<- <-]|[_ Hi']]%lookup_insert_Some; [split; [done|lia]|].
    destruct (H2 k i' Hi'). split; [done|lia].
  - intros d Hd. destruct (H3 d Hd) as [? Hs]. split; [lia|]. intros i'. rewrite lookup_insert_ne by lia. auto.
  - done.
Qed.

Lemma tables_delete count m em l id i : tables_ok count m em l → m !! id = Some i →
  tables_ok count (delete id m) (delete (endpoint_of i) em) l.
Proof.
  intros [H1 H2 H3 H4] Hi. split.
  - intros ep k. split.
    + intros [Hne (i' & Hi' & He)%H1]%lookup_delete_Some. exists i'. split; [|done].
      apply lookup_delete_Some. split; [|done]. intros ->. congruence.
    + intros (i' & [Hne Hi']%lookup_delete_Some & He). apply lookup_delete_Some. split; [|apply H1; eauto].
      intros Hs. apply Hne. assert (em !! ep = Some id) by (apply H1; eauto).
      assert (em !! ep = Some k) by (apply H1; eauto). congruence.
  - intros k i' [_ Hi']%lookup_delete_Some. eauto.
  - intros d Hd. destruct (H3 d Hd) as [? Hs]. split; [done|]. intros i' [_ Hi']%lookup_delete_Some. auto.
  - done.
Qed.

Lemma tables_clear count m em l : tables_ok count m em l → tables_ok count ∅ ∅ l.
Proof.
  intros [H1 H2 H3 H4]. split; [|done| |done].
  - intros ep k. split; [done|]. by intros (? & ? & ?).
  - intros d Hd. split; [by apply H3|done].
Qed.

(** Sending for a connection of the table, to its endpoint. *)
Lemma tables_send count m em l id i data : tables_ok count m em l → m !! id = Some i →
  tables_ok count m em (l ++ [mkDatagram id (endpoint_of i) data]).
Proof.
  intros [H1 H2 H3 H4] Hi.
  assert (Hall : ∀ d, d ∈ l ++ [mkDatagram id (endpoint_of i) data] →
    d_connect d <= count ∧ ∀ i, m !! d_connect d = Some i → endpoint_of i = d_endpoint d).
  { intros d [Hd| ->%list_elem_of_singleton]%elem_of_app; [auto|]. cbn. destruct (H2 id i Hi).
    split; [lia|]. intros. congruence. }
  split; [done..|].
  intros d d' [Hd|Hd%list_elem_of_singleton]%elem_of_app [Hd'|Hd'%list_elem_of_singleton]%elem_of_app; subst; cbn; intros E.
  - auto.
  - subst id. symmetry. by apply H3.
  - subst id. by apply H3.
  - done.
Qed.

End Tables.
