(* ===== verification/UdpServer.v ===== *)
(** * The UDP server (src/PSS_ASIO/UdpSession/UdpServer.{h,cpp})

    One socket serves all peers: a datagram from an unknown endpoint creates a connection, the two
    tables map endpoints to connection ids and ids to connections.  Endpoints are asio's, a countable
    type with the printed address of each.

    A handler is one step, except closing a connection: its two critical sections, before and after the
    work threads are told, are separate steps ([closing] holds the closes in between).  [receiving]
    tells whether a receive is pending; [sends] is the history of the datagrams given to the socket,
    [in_flight] those whose completion is outstanding. *)

From Stdlib Require Import ZArith Lia.
From S2P Require Import Prelude Define SessionBuffer SessionCalls EndpointTables.
From stdpp Require Import base numbers list gmap gmultiset strings.
Local Open Scope Z_scope.

Inductive EM_UDP_VALID := UDP_INVALUD | UDP_VALUD.

#[export] Instance EM_UDP_VALID_eq_dec : EqDecision EM_UDP_VALID.
Proof. solve_decision. Defined.

Section UdpServer.

Context {endpoint : Type} `{Countable endpoint} (address : endpoint → ClientIPInfo).

Record CUdp_Session_Info := mkUdpInfo {
  connect_id_ : Z;                          (* uint32 *)
  io_bridge_connect_id_ : Z;                (* uint32 *)
  io_state_ : EM_SESSION_STATE;
  send_endpoint : endpoint;
  recv_data_size_ : Z;                      (* size_t *)
  send_data_size_ : Z;                      (* size_t *)
  session_send_buffer_ : CSessionBuffer;
  udp_state : EM_UDP_VALID;
}.

Record CUdpServer := mkUdp {
  socket_open : bool;
  local_endpoint : ClientIPInfo;
  udp_id_2_endpoint_list_ : gmap Z CUdp_Session_Info;
  udp_endpoint_2_id_list_ : gmap endpoint Z;
  max_recv_size_ : Z;                       (* uint32 *)
  max_send_size_ : Z;                       (* uint32 *)
  recv_data_time_ : Z;
  session_recv_buffer_ : CSessionBuffer;
  cid_recv_data_time_ : gmap Z Z;
  server_ip_ : string;
  server_port_ : Z;
  (* the environment *)
  count_index : Z;
  receiving : bool;
  closing : gmultiset Z;
  calls : list app_call;
  in_flight : list (datagram endpoint);
  sends : list (datagram endpoint);
}.

Implicit Types (s : CUdpServer) (ep : endpoint) (info : CUdp_Session_Info).

Definition call s (l : list app_call) : CUdpServer := s <| calls := calls s ++ l |>.
Definition do_receive s : CUdpServer := s <| receiving := true |>.

(** The constructor and [start]; [bound] is the address the socket is bound to, and [junk] what the
    new buffer holds. *)
Definition start (junk : nat → Z) (config_io : CConfigNetIO) (bound : ClientIPInfo) (now count : Z) : CUdpServer :=
  let s := mkUdp true bound ∅ ∅ (recv_buff_size_ config_io) (send_buff_size_ config_io) now
             (Init junk (recv_buff_size_ config_io)) ∅ (ip_ config_io) (port_ config_io) count false ∅ [] [] [] in
  do_receive (call s [AddAccept (server_ip_ s) (server_port_ s) CONNECT_IO_UDP]).

Definition find_udp_endpoint_by_id s (connect_id : Z) : option CUdp_Session_Info :=
  udp_id_2_endpoint_list_ s !! connect_id.

Definition get_remote_ip s (connect_id : Z) : ClientIPInfo :=
  match find_udp_endpoint_by_id s connect_id with
  | Some info => address (send_endpoint info)
  | None => ClientIPInfo_default
  end.

(** [check_udp_endpoint_list]: the id of the endpoint, whether it is new. *)
Definition check_udp_endpoint_list (junk : nat → Z) s ep (length max_buffer_length : Z) : Z * bool * CUdpServer :=
  match udp_endpoint_2_id_list_ s !! ep with
  | Some id => (id, false, s)
  | None =>
      let '(id, count) := CreateCounter (count_index s) in
      let info := mkUdpInfo id 0 SESSION_IO_LOGIC ep (u64 length) 0 (Init junk max_buffer_length) UDP_VALUD in
      (id, true,
       s <| count_index := count |>
         <| udp_endpoint_2_id_list_ := <[ep := id]> (udp_endpoint_2_id_list_ s) |>
         <| udp_id_2_endpoint_list_ := <[id := info]> (udp_id_2_endpoint_list_ s) |>)
  end.

(** [add_udp_endpoint]: [None] when [local_endpoint] throws because the socket is closed. *)
Definition add_udp_endpoint (junk : nat → Z) s ep (length max_buffer_length : Z) : option Z * CUdpServer :=
  let '(id, is_new, s) := check_udp_endpoint_list junk s ep length max_buffer_length in
  if negb is_new then (Some id, s)
  else if negb (socket_open s) then (None, s)
  else (Some id, call s [PacketConnect id (address ep) (local_endpoint s);
                         AddThreadSession id (local_endpoint s) (address ep)]).

Definition set_recv_time s (connect_id time : Z) : CUdpServer :=
  s <| recv_data_time_ := time |> <| cid_recv_data_time_ := <[connect_id := time]> (cid_recv_data_time_ s) |>.

Definition set_info s (connect_id : Z) (f : CUdp_Session_Info → CUdp_Session_Info) : CUdpServer :=
  s <| udp_id_2_endpoint_list_ := alter f connect_id (udp_id_2_endpoint_list_ s) |>.

(** The part of [do_receive_from] that calls the parser.  The source passes the member
    [connect_client_id_], which is never assigned: [parse] is the function of the plugin for the id 0. *)
Definition parse_datagram s (connect_id : Z) (b : CSessionBuffer) (length time : Z) (parse : parser_call)
    : outcome (CSessionBuffer * CUdpServer) :=
  let* '(ret, b, message_list) := parse b in
  if negb ret then
    let* b := move b length in
    Ok (b, call s [CloseSessionEvent connect_id])
  else
    Ok (b, call (set_recv_time s connect_id time) [AssignationMessages connect_id message_list]).

(** The part of [do_receive_from] that hands the datagram on: to the bridge (which answers
    [bridge_ret] and takes the bytes), or to the parser. *)
Definition dispose s (connect_id : Z) (b : CSessionBuffer) (length time bridge_ret : Z) (parse : parser_call)
    : outcome (CSessionBuffer * CUdpServer) :=
  match find_udp_endpoint_by_id s connect_id with
  | Some (mkUdpInfo id bridge_id SESSION_IO_BRIDGE _ _ _ _ _) =>
      let s := call (set_recv_time s connect_id time) [BridgeData id bridge_id (ztake length (contents b))] in
      let* b := move b length in
      Ok (b, if bridge_ret =? 1
             then set_info s connect_id (λ i, i <| io_bridge_connect_id_ := 0 |> <| io_state_ := SESSION_IO_LOGIC |>)
             else s)
  | _ => parse_datagram s connect_id b length time parse
  end.

(** [do_receive_from] for a datagram that was received without an error. *)
Definition do_receive_from (junk : nat → Z) s ep (data : list Z) (time bridge_ret : Z) (parse : parser_call)
    : outcome CUdpServer :=
  let length := zlen data in
  match add_udp_endpoint junk s ep length (max_send_size_ s) with
  | (None, s) => Ok s
  | (Some connect_id, s) =>
      if 0 <? length then
        if get_buffer_size (session_recv_buffer_ s) =? 0 then
          let* b := move (session_recv_buffer_ s) length in
          Ok (do_receive (call (s <| session_recv_buffer_ := b |>) [CloseSessionEvent connect_id]))
        else
          let* '(_, b) := recv_into (session_recv_buffer_ s) data in
          let* '(b, s) := dispose s connect_id b length time bridge_ret parse in
          let* b := move b length in
          Ok (do_receive (s <| session_recv_buffer_ := b |>))
      else Ok s
  end.

Definition set_listen_error_event s : CUdpServer :=
  call s [FrameEvent LOGIC_LISTEN_SERVER_ERROR 0 (server_ip_ s) (server_port_ s) CONNECT_IO_UDP].

(** [do_receive_data_logic], the completion of the pending receive; what does not fit into the buffer
    is cut off by the socket. *)
Definition do_receive_data_logic (junk : nat → Z) s (ec : bool) ep (data : list Z) (time bridge_ret : Z)
    (parse : parser_call) : outcome CUdpServer :=
  if negb (receiving s) then Ok s
  else
    let s := s <| receiving := false |> in
    if ec then Ok (set_listen_error_event s)
    else do_receive_from junk s ep (ztake (get_buffer_size (session_recv_buffer_ s)) data) time bridge_ret parse.

(** [close_udp_endpoint_by_id], before and after the work threads are told. *)
Definition close_begin s (connect_id : Z) : CUdpServer :=
  if negb (socket_open s) then s
  else
    let s := s <| closing := closing s ⊎ {[+ connect_id +]} |> in
    match find_udp_endpoint_by_id s connect_id with
    | Some info =>
        call s [PacketDisconnect connect_id;
                DeleteThreadSession connect_id (address (send_endpoint info)) CONNECT_IO_UDP]
    | None => s
    end.

Definition close_end s (connect_id : Z) : CUdpServer :=
  if negb (bool_decide (connect_id ∈ closing s)) then s
  else
    let s := s <| closing := closing s ∖ {[+ connect_id +]} |>
               <| cid_recv_data_time_ := delete connect_id (cid_recv_data_time_ s) |> in
    match find_udp_endpoint_by_id s connect_id with
    | Some info =>
        s <| udp_id_2_endpoint_list_ := delete connect_id (udp_id_2_endpoint_list_ s) |>
          <| udp_endpoint_2_id_list_ := delete (send_endpoint info) (udp_endpoint_2_id_list_ s) |>
    | None => s
    end.

Definition close_server s : CUdpServer :=
  if negb (socket_open s) then s
  else
    let l := map_entries (udp_id_2_endpoint_list_ s) in
    call (s <| udp_id_2_endpoint_list_ := ∅ |> <| udp_endpoint_2_id_list_ := ∅ |> <| socket_open := false |>)
      (map (λ e, PacketDisconnect e.1) l ++
       map (λ e, DeleteThreadSession e.1 (address (send_endpoint e.2)) CONNECT_IO_UDP) l).

Definition set_send_buffer s (connect_id : Z) (b : CSessionBuffer) : CUdpServer :=
  set_info s connect_id (λ i, i <| session_send_buffer_ := b |>).

Definition set_write_buffer s (connect_id : Z) (data : list Z) : outcome CUdpServer :=
  match find_udp_endpoint_by_id s connect_id with
  | None => Ok s
  | Some info =>
      let* b := append_send_buffer (session_send_buffer_ info) data in
      Ok (set_send_buffer s connect_id b)
  end.

Definition async_send_to s (d : datagram endpoint) : CUdpServer :=
  s <| in_flight := in_flight s ++ [d] |> <| sends := sends s ++ [d] |>.

Definition do_write s (connect_id : Z) : outcome CUdpServer :=
  match find_udp_endpoint_by_id s connect_id with
  | None => Ok s
  | Some info =>
      match udp_state info with
      | UDP_INVALUD =>
          let* b := clear_write_buffer (session_send_buffer_ info) in Ok (set_send_buffer s connect_id b)
      | UDP_VALUD =>
          let* '(data, b) := take_send_buffer (session_send_buffer_ info) in
          Ok (async_send_to (set_send_buffer s connect_id b) (mkDatagram connect_id (send_endpoint info) data))
      end
  end.

(** [do_write_immediately]; what was buffered is dropped. *)
Definition do_write_immediately s (connect_id : Z) (data : list Z) : outcome CUdpServer :=
  match find_udp_endpoint_by_id s connect_id with
  | None => Ok s
  | Some info =>
      let* b := clear_write_buffer (session_send_buffer_ info) in
      let s := set_send_buffer s connect_id b in
      Ok (match udp_state info with
          | UDP_INVALUD => s
          | UDP_VALUD => async_send_to s (mkDatagram connect_id (send_endpoint info) data)
          end)
  end.

Definition add_send_finish_size s (connect_id length : Z) : CUdpServer :=
  set_info s connect_id (λ i, i <| send_data_size_ := send_data_size_ i +u64 length |>).

(** The completion of one of the sends under way. *)
Definition send_completes s (n : nat) (ec : bool) : CUdpServer :=
  match in_flight s !! n with
  | None => s
  | Some d =>
      let s := s <| in_flight := delete n (in_flight s) |> in
      if ec then s else add_send_finish_size s (d_connect d) (zlen (d_data d))
  end.

Definition set_io_bridge_connect_id s (from_io_connect_id to_io_connect_id : Z) : CUdpServer :=
  set_info s from_io_connect_id (λ i,
    if 0 <? to_io_connect_id
    then i <| io_state_ := SESSION_IO_BRIDGE |> <| io_bridge_connect_id_ := to_io_connect_id |>
    else i <| io_state_ := SESSION_IO_LOGIC |> <| io_bridge_connect_id_ := 0 |>).

(** The queries. *)
Definition get_io_type s : EM_CONNECT_IO_TYPE := CONNECT_IO_UDP.
Definition get_mark_id s (connect_id : Z) : Z := 0.
Definition get_connect_id s : Z := 0.
Definition get_recv_time s (connect_id : Z) : Z := default (recv_data_time_ s) (cid_recv_data_time_ s !! connect_id).

(** ** Steps *)

Inductive udp_op :=
| UReceive (ec : bool) (ep : endpoint) (data : list Z) (time bridge_ret : Z) (parse : parser_call)
| USet (c : Z) (data : list Z)
| UWrite (c : Z)
| UWriteNow (c : Z) (data : list Z)
| USendDone (n : nat) (ec : bool)
| UCloseBegin (c : Z)
| UCloseEnd (c : Z)
| UCloseServer
| UBridge (from_id to_id : Z)
| UOtherConnection.        (* another session takes a connection id *)

Definition udp_step (junk : nat → Z) s (o : udp_op) : outcome CUdpServer :=
  match o with
  | UReceive ec ep data time ret parse => do_receive_data_logic junk s ec ep data time ret parse
  | USet c d => set_write_buffer s c d
  | UWrite c => do_write s c
  | UWriteNow c d => do_write_immediately s c d
  | USendDone n ec => Ok (send_completes s n ec)
  | UCloseBegin c => Ok (close_begin s c)
  | UCloseEnd c => Ok (close_end s c)
  | UCloseServer => Ok (close_server s)
  | UBridge f t => Ok (set_io_bridge_connect_id s f t)
  | UOtherConnection => Ok (s <| count_index := snd (CreateCounter (count_index s)) |>)
  end.

Fixpoint udp_run (junk : nat → Z) s (os : list udp_op) : outcome CUdpServer :=
  match os with [] => Ok s | o :: os => let* s := udp_step junk s o in udp_run junk s os end.

End UdpServer.

Arguments CUdp_Session_Info : clear implicits.
Arguments CUdpServer endpoint {_ _}.
Arguments udp_op : clear implicits.

(** ** The invariant *)

Section Invariant.

Context {endpoint : Type} `{Countable endpoint} (address : endpoint → ClientIPInfo).
Implicit Types (s : CUdpServer endpoint).

Definition info_ok (id : Z) (i : CUdp_Session_Info endpoint) : Prop :=
  connect_id_ i = id ∧ wf (session_send_buffer_ i).

Definition tables s : Prop :=
  tables_ok send_endpoint info_ok (count_index s) (udp_id_2_endpoint_list_ s) (udp_endpoint_2_id_list_ s) (sends s).

Record udp_inv s : Prop := {
  v_tables : tables s;
  v_recv : wf (session_recv_buffer_ s) ∧ contents (session_recv_buffer_ s) = [];
  v_max : 0 <= max_send_size_ s < 2 ^ 63;
  v_count : 0 <= count_index s;
  v_conn : NoDup (connects (calls s)) ∧ Forall (λ c, c <= count_index s) (connects (calls s));
  v_reported : socket_open s = true →
    ∀ id, is_Some (udp_id_2_endpoint_list_ s !! id) → id ∈ connects (calls s);
}.

(** What an operation that creates no connection and leaves the receive buffer keeps. *)
Record keeps s s' : Prop := {
  k_tables : tables s → tables s';
  k_recv : session_recv_buffer_ s' = session_recv_buffer_ s;
  k_max : max_send_size_ s' = max_send_size_ s;
  k_count : count_index s' = count_index s;
  k_conn : connects (calls s') = connects (calls s);
  k_open : socket_open s' = true → socket_open s = true;
  k_known : ∀ id, is_Some (udp_id_2_endpoint_list_ s' !! id) → is_Some (udp_id_2_endpoint_list_ s !! id);
}.

#[local] Instance keeps_preorder : PreOrder keeps.
Proof.
  split; [by split|]. intros s1 s2 s3 [] []. split; [auto|congruence..|auto|auto].
Qed.

Lemma udp_keeps_inv s s' : keeps s s' → udp_inv s → udp_inv s'.
Proof. intros [K1 K2 K3 K4 K5 K6 K7] []. split; [auto|rewrite ?K2, ?K3, ?K4, ?K5; auto..]. Qed.

Lemma udp_call_keeps s l : connects l = [] → keeps s (call s l).
Proof. intros Hl. split; try done. cbn. by rewrite connects_app, Hl, app_nil_r. Qed.

Lemma udp_set_info_keeps s id f :
  (∀ i, connect_id_ (f i) = connect_id_ i ∧ send_endpoint (f i) = send_endpoint i ∧
        (wf (session_send_buffer_ i) → wf (session_send_buffer_ (f i)))) →
  keeps s (set_info s id f).
Proof.
  intros Hf. split; try done; [|intros k; cbn; by rewrite lookup_alter_is_Some]. apply tables_alter. intros i _. destruct (Hf i) as (E1 & E2 & Hw).
  split; [done|]. intros [Hk Hb]. split; [congruence|auto].
Qed.

Lemma set_recv_time_keeps s id time : keeps s (set_recv_time s id time).
Proof. by split. Qed.

Lemma udp_set_send_buffer_keeps s id b : wf b → keeps s (set_send_buffer s id b).
Proof. intros Hb. apply udp_set_info_keeps. intros i. by cbn. Qed.

(** The part of a receive after the connection is known. *)
Lemma parse_datagram_keeps s id b len time parse : wf b → 0 <= len → parser_ok parse →
  ∃ b' s', parse_datagram s id b len time parse = Ok (b', s') ∧ consumes b b' ∧ keeps s s'.
Proof.
  intros Hb Hlen Hp. unfold parse_datagram. destruct (Hp b Hb) as (r & b0 & l & -> & Hc). cbn. destruct r; cbn.
  - eexists _, _. split; [done|]. split; [done|]. by etrans; [apply set_recv_time_keeps|apply udp_call_keeps].
  - destruct (move_consumes b b0 len Hc Hlen) as (b' & -> & ?). cbn. eexists _, _. split; [done|]. split; [done|].
    by apply udp_call_keeps.
Qed.

Lemma dispose_keeps s id b len time ret parse : wf b → 0 <= len → parser_ok parse →
  ∃ b' s', dispose s id b len time ret parse = Ok (b', s') ∧ consumes b b' ∧ keeps s s'.
Proof.
  intros Hb Hlen Hp. unfold dispose. pose proof (parse_datagram_keeps s id b len time parse Hb Hlen Hp) as Hparse.
  destruct (find_udp_endpoint_by_id s id) as [[i bi [] e r0 d0 sb us]|]; [done| |done].
  destruct (move_consumes b b len (consumes_refl b Hb) Hlen) as (b' & -> & ?).
  cbn. eexists _, _. split; [done|]. split; [done|].
  assert (keeps s (call (set_recv_time s id time) [BridgeData i bi (ztake len (contents b))]))
    by (by etrans; [apply set_recv_time_keeps|apply udp_call_keeps]).
  destruct (ret =? 1); [|done]. etrans; [done|]. by apply udp_set_info_keeps.
Qed.

(** A connection for a new endpoint. *)
Definition new_connection (junk : nat → Z) s ep (len : Z) : CUdpServer endpoint :=
  let id := count_index s + 1 in
  s <| count_index := id |>
    <| udp_endpoint_2_id_list_ := <[ep := id]> (udp_endpoint_2_id_list_ s) |>
    <| udp_id_2_endpoint_list_ :=
         <[id := mkUdpInfo id 0 SESSION_IO_LOGIC ep (u64 len) 0 (Init junk (max_send_size_ s)) UDP_VALUD]>
           (udp_id_2_endpoint_list_ s) |>.

Definition new_calls s ep : list app_call :=
  [PacketConnect (count_index s + 1) (address ep) (local_endpoint s);
   AddThreadSession (count_index s + 1) (local_endpoint s) (address ep)].

Lemma udp_add_udp_endpoint_eq junk s ep len : 0 <= count_index s < 2 ^ 32 - 1 →
  add_udp_endpoint address junk s ep len (max_send_size_ s) =
  match udp_endpoint_2_id_list_ s !! ep with
  | Some id => (Some id, s)
  | None => if socket_open s then (Some (count_index s + 1), call (new_connection junk s ep len) (new_calls s ep))
            else (None, new_connection junk s ep len)
  end.
Proof.
  intros Hc. unfold add_udp_endpoint, check_udp_endpoint_list. destruct (udp_endpoint_2_id_list_ s !! ep); [done|].
  rewrite CreateCounter_small by done. cbn.
  unfold new_connection. cbn. by destruct (socket_open s).
Qed.

(** The new connection, with the calls made for it: none if the socket is closed. *)
Lemma udp_new_connection_inv junk s ep len : udp_inv s → udp_endpoint_2_id_list_ s !! ep = None →
  udp_inv (call (new_connection junk s ep len) (if socket_open s then new_calls s ep else [])).
Proof.
  intros [Ht Hr Hm Hc [Hnd Hle] Hrep] Hep.
  assert (Hnew : ∀ x, x ∈ connects (calls s) → x <= count_index s) by (rewrite Forall_forall in Hle; auto).
  split; [|done|done|cbn; lia|..].
  - apply (tables_new send_endpoint info_ok _ _ _ _ (mkUdpInfo (count_index s + 1) 0 SESSION_IO_LOGIC ep (u64 len) 0
      (Init junk (max_send_size_ s)) UDP_VALUD)); cbn; [done..|]. split; [done|]. apply (Init_wf junk (max_send_size_ s)). lia.
  - cbn. rewrite connects_app. split.
    + apply NoDup_app. split; [done|]. destruct (socket_open s); cbn; [|split; [by intros ? _ ?%not_elem_of_nil|constructor]].
      split; [|apply NoDup_singleton]. intros x Hx ->%list_elem_of_singleton. apply Hnew in Hx. lia.
    + apply Forall_app. split; [apply Forall_forall; intros x ?%Hnew; lia|]. destruct (socket_open s); repeat constructor. lia.
  - cbn. intros Ho id. rewrite Ho, connects_app, elem_of_app. destruct (decide (count_index s + 1 = id)) as [<-|Hne].
    + intros _. right. by apply list_elem_of_singleton.
    + rewrite lookup_insert_ne by done. auto.
Qed.

Lemma add_udp_endpoint_inv junk s ep len r s' : udp_inv s → count_index s < 2 ^ 32 - 1 →
  add_udp_endpoint address junk s ep len (max_send_size_ s) = (r, s') →
  udp_inv s' ∧ count_index s' <= count_index s + 1 ∧ session_recv_buffer_ s' = session_recv_buffer_ s.
Proof.
  intros Hi Hc. pose proof (v_count s Hi). rewrite udp_add_udp_endpoint_eq by lia.
  destruct (udp_endpoint_2_id_list_ s !! ep) as [id|] eqn:E; [intros [= <- <-]; split_and!; [done|lia|done]|].
  pose proof (udp_new_connection_inv junk s ep len Hi E) as Hn.
  destruct (socket_open s); intros [= <- <-]; split_and!; try done; try (cbn; lia).
  replace (new_connection junk s ep len) with (call (new_connection junk s ep len) []); [done|].
  unfold call. rewrite app_nil_r. by destruct s.
Qed.

Lemma do_receive_from_inv junk s ep data time ret parse : udp_inv s → count_index s < 2 ^ 32 - 1 →
  zlen data <= get_buffer_size (session_recv_buffer_ s) → parser_ok parse →
  ∃ s', do_receive_from address junk s ep data time ret parse = Ok s' ∧ udp_inv s' ∧ count_index s' <= count_index s + 1.
Proof.
  intros Hi Hc Hfit Hp. unfold do_receive_from.
  destruct (add_udp_endpoint _ _ _ _ _ _) as [r s1] eqn:E.
  destruct (add_udp_endpoint_inv _ _ _ _ _ _ Hi Hc E) as (Hi1 & Hc1 & Hr1). destruct r as [id|]; [|by eauto].
  destruct (0 <? zlen data) eqn:El; [|by eauto]. apply Z.ltb_lt in El. rewrite <- Hr1 in Hfit.
  destruct (get_buffer_size (session_recv_buffer_ s1) =? 0) eqn:Eb; [lia|].
  destruct (v_recv s1 Hi1) as [Hwf Hempty].
  destruct (recv_into_fits _ data Hwf Hfit) as (b & -> & Hb & Hcb & _). cbn.
  destruct (dispose_keeps s1 id b (zlen data) time ret parse Hb) as (b1 & s2 & -> & Hcons & Hk); [lia|done|]. cbn.
  assert (Hlen : zlen data = zlen (contents b)) by (by rewrite Hcb, Hempty). rewrite Hlen.
  destruct (consumes_move b b1 Hb Hcons) as (b2 & -> & Hb2 & He2 & _). cbn.
  eexists. split; [done|]. destruct (udp_keeps_inv _ _ Hk Hi1) as [Ht Hr Hm Hco Hcn Hrep]. destruct Hk as [_ _ _ Hk4 _ _ _].
  split; [|cbn; lia]. by split.
Qed.

Definition op_ok (o : udp_op endpoint) : Prop :=
  match o with UReceive _ _ _ _ _ parse => parser_ok parse | _ => True end.

(** An operation on one connection of the table. *)
Lemma udp_write_keeps s c (k : CUdp_Session_Info endpoint → outcome (CUdpServer endpoint)) :
  udp_inv s → (∀ i, find_udp_endpoint_by_id s c = Some i → wf (session_send_buffer_ i) → ∃ s', k i = Ok s' ∧ keeps s s') →
  ∃ s', match find_udp_endpoint_by_id s c with None => Ok s | Some i => k i end = Ok s' ∧ keeps s s'.
Proof.
  intros Hi Hk. destruct (find_udp_endpoint_by_id s c) as [i|] eqn:E; [|by exists s].
  apply Hk; [done|]. by apply (t_info _ _ _ _ _ _ (v_tables s Hi) c i).
Qed.

Lemma send_keeps s c i b data : find_udp_endpoint_by_id s c = Some i → wf b →
  keeps s (async_send_to (set_send_buffer s c b) (mkDatagram c (send_endpoint i) data)).
Proof.
  intros Ei Hb. etrans; [by apply (udp_set_send_buffer_keeps s c b)|]. split; try done. intros Ht.
  change (send_endpoint i) with (send_endpoint (i <| session_send_buffer_ := b |>)).
  apply tables_send; [done|]. cbn. rewrite lookup_alter_eq. unfold find_udp_endpoint_by_id in Ei. by rewrite Ei.
Qed.

Lemma udp_step_inv junk s o : udp_inv s → count_index s < 2 ^ 32 - 1 → op_ok o →
  ∃ s', udp_step address junk s o = Ok s' ∧ udp_inv s' ∧ count_index s' <= count_index s + 1.
Proof.
  intros Hi Hc Ho.
  assert (Hkeep : ∀ s', keeps s s' → udp_inv s' ∧ count_index s' <= count_index s + 1).
  { intros s' Hk. split; [by eapply udp_keeps_inv|]. rewrite (k_count _ _ Hk). lia. }
  assert (Hkeep' : ∀ r : outcome (CUdpServer endpoint), (∃ s', r = Ok s' ∧ keeps s s') →
    ∃ s', r = Ok s' ∧ udp_inv s' ∧ count_index s' <= count_index s + 1) by naive_solver.
  destruct o as [ec ep data time ret parse|c d|c|c d|n ec|c|c| |f t|]; cbn [udp_step].
  - unfold do_receive_data_logic. destruct (receiving s); cbn [negb]; [|apply Hkeep'; by exists s].
    assert (Hi' : udp_inv (s <| receiving := false |>)) by (by destruct Hi; split).
    destruct ec; [apply Hkeep'; eexists; split; [done|]; split; try done; cbn; by rewrite connects_app, app_nil_r|].
    edestruct (do_receive_from_inv junk (s <| receiving := false |>)) as (s' & -> & ? & ?); [done..| |exact Ho|by exists s'].
    cbn. apply fit_le. apply (v_recv s Hi).
  - apply Hkeep'. apply udp_write_keeps; [done|]. intros i Ei Hw.
    destruct (append_send_buffer_ok (session_send_buffer_ i) d Hw) as (b & -> & Hb & _). cbn. eauto using udp_set_send_buffer_keeps.
  - apply Hkeep'. apply udp_write_keeps; [done|]. intros i Ei Hw. destruct (udp_state i).
    + destruct (clear_write_buffer_ok _ Hw) as (b & -> & Hb & _). cbn. eauto using udp_set_send_buffer_keeps.
    + destruct (take_send_buffer_ok _ Hw) as (b & -> & Hb & _). cbn. eauto using send_keeps.
  - apply Hkeep'. apply udp_write_keeps; [done|]. intros i Ei Hw.
    destruct (clear_write_buffer_ok _ Hw) as (b & -> & Hb & _). cbn.
    destruct (udp_state i); eauto using udp_set_send_buffer_keeps, send_keeps.
  - apply Hkeep'. eexists. split; [done|]. unfold send_completes. destruct (in_flight s !! n); [|done].
    destruct ec; [by split|]. etrans; [|apply udp_set_info_keeps; by intros]. by split.
  - apply Hkeep'. eexists. split; [done|]. unfold close_begin. destruct (socket_open s); cbn [negb]; [|done].
    assert (keeps s (s <| closing := closing s ⊎ {[+ c +]} |>)) by (by split).
    destruct (find_udp_endpoint_by_id _ c); [|done]. etrans; [done|]. by apply udp_call_keeps.
  - apply Hkeep'. eexists. split; [done|]. unfold close_end. destruct (bool_decide _); cbn [negb]; [|done].
    destruct (find_udp_endpoint_by_id _ c) as [i|] eqn:Ei; [|by split]. split; try done.
    + intros Ht. by apply tables_delete.
    + intros k. cbn. rewrite lookup_delete_is_Some. tauto.
  - apply Hkeep'. eexists. split; [done|]. unfold close_server. destruct (socket_open s); cbn [negb]; [|done].
    etrans; [|apply udp_call_keeps].
    + split; try done; [apply tables_clear|]. intros k. cbn. rewrite lookup_empty. by intros [].
    + rewrite connects_app. by induction (map_entries _) as [|e l IH].
  - apply Hkeep'. eexists. split; [done|]. apply udp_set_info_keeps. intros i. by destruct (0 <? t).
  - pose proof (v_count s Hi). rewrite CreateCounter_small by lia. cbn. eexists. split; [done|]. split; [|cbn; lia].
    destruct Hi as [Ht Hr Hm Hco [Hnd Hle] Hrep]. split; unfold tables; cbn; [apply (tables_count _ _ (count_index s)); [lia|done]|done|done|lia| |done].
    split; [done|]. eapply Forall_impl; [exact Hle|]. cbn. intros. lia.
Qed.

Lemma udp_run_inv junk os : ∀ s, udp_inv s → count_index s + zlen os < 2 ^ 32 → Forall op_ok os →
  ∃ s', udp_run address junk s os = Ok s' ∧ udp_inv s' ∧ count_index s' <= count_index s + zlen os.
Proof.
  induction os as [|o os IH]; intros s Hi Hc Ho; cbn [udp_run].
  - exists s. change (zlen []) with 0. split_and!; [done..|lia].
  - apply Forall_cons in Ho as [Ho Hos]. rewrite zlen_cons in *. pose proof (zlen_nonneg os).
    destruct (udp_step_inv junk s o Hi) as (s1 & -> & Hi1 & Hc1); [lia|done|]. cbn.
    destruct (IH s1) as (s2 & -> & ? & ?); [done|lia|done|]. exists s2. split_and!; [done..|lia].
Qed.

End Invariant.

(** ** A listener that has stopped *)

Definition is_handed_on (a : app_call) : bool :=
  match a with AssignationMessages _ _ | BridgeData _ _ _ => true | _ => false end.
(** The datagrams handed on. *)
Definition handed_on (l : list app_call) : list app_call := List.filter is_handed_on l.

Section Stopped.

Context {endpoint : Type} `{Countable endpoint} (address : endpoint → ClientIPInfo).
Implicit Types (s : CUdpServer endpoint).

Definition quiet s s' : Prop := receiving s' = receiving s ∧ handed_on (calls s') = handed_on (calls s).

#[local] Instance quiet_preorder : PreOrder quiet.
Proof. split; [by split|]. intros s1 s2 s3 [] []. split; congruence. Qed.

Lemma call_quiet s l : handed_on l = [] → quiet s (call s l).
Proof. intros Hl. split; [done|]. unfold handed_on in *. cbn. by rewrite List.filter_app, Hl, app_nil_r. Qed.

Lemma add_udp_endpoint_quiet junk s ep len max r s' : add_udp_endpoint address junk s ep len max = (r, s') → quiet s s'.
Proof.
  unfold add_udp_endpoint, check_udp_endpoint_list. destruct (udp_endpoint_2_id_list_ s !! ep); [by intros [= _ <-]|].
  destruct (CreateCounter _) as [id count]. cbn [negb]. destruct (socket_open _); intros [= _ <-]; [|by split].
  etrans; [|by apply call_quiet]. by split.
Qed.

Lemma closes_quiet (l : list (Z * CUdp_Session_Info endpoint)) :
  handed_on (map (λ e, PacketDisconnect e.1) l ++
             map (λ e, DeleteThreadSession e.1 (address (send_endpoint e.2)) CONNECT_IO_UDP) l) = [].
Proof. unfold handed_on. rewrite List.filter_app. by induction l. Qed.

Lemma stopped_step junk s o s' : receiving s = false → udp_step address junk s o = Ok s' → quiet s s'.
Proof.
  intros Hr. destruct o as [ec ep data time ret parse|c d|c|c d|n ec|c|c| |f t|]; cbn [udp_step].
  - unfold do_receive_data_logic. rewrite Hr. cbn. by intros [= <-].
  - unfold set_write_buffer. destruct (find_udp_endpoint_by_id s c); [|by intros [= <-]].
    destruct (append_send_buffer _ _); [|done]. by intros [= <-].
  - unfold do_write. destruct (find_udp_endpoint_by_id s c) as [i|]; [|by intros [= <-]]. destruct (udp_state i).
    + destruct (clear_write_buffer _); [|done]. by intros [= <-].
    + destruct (take_send_buffer _) as [[]|]; [|done]. by intros [= <-].
  - unfold do_write_immediately. destruct (find_udp_endpoint_by_id s c) as [i|]; [|by intros [= <-]].
    destruct (clear_write_buffer _); [|done]. intros [= <-]. by destruct (udp_state i).
  - intros [= <-]. unfold send_completes. destruct (in_flight s !! n); [|done]. by destruct ec.
  - intros [= <-]. unfold close_begin. destruct (socket_open s); [|done]. cbn [negb].
    destruct (find_udp_endpoint_by_id _ c); [|done]. etrans; [|by apply call_quiet]. done.
  - intros [= <-]. unfold close_end. destruct (bool_decide _); [|done]. cbn [negb].
    by destruct (find_udp_endpoint_by_id _ c).
  - intros [= <-]. unfold close_server. destruct (socket_open s); [|done]. cbn [negb].
    etrans; [|apply call_quiet, closes_quiet]. done.
  - intros [= <-]. done.
  - by intros [= <-].
Qed.

Lemma stopped_run junk os : ∀ s s', receiving s = false → udp_run address junk s os = Ok s' → quiet s s'.
Proof.
  induction os as [|o os IH]; intros s s' Hr; cbn [udp_run]; [by intros [= <-]|].
  destruct (udp_step address junk s o) as [s1|] eqn:E; [|done]. cbn. intros Hrun.
  pose proof (stopped_step _ _ _ _ Hr E) as Hq. etrans; [exact Hq|]. apply IH; [|done]. by rewrite (proj1 Hq).
Qed.

End Stopped.

(** ** Properties *)

Section Properties.

Context {endpoint : Type} `{Countable endpoint} (address : endpoint → ClientIPInfo) (junk : nat → Z).
Implicit Types (s : CUdpServer endpoint).

(** What becomes of a datagram of connection [id]: the bridge gets the bytes, or the parser is
    called on a buffer that holds exactly them. *)
Definition handling s (id : Z) (data : list Z) (parse : parser_call) (b : CSessionBuffer) : app_call :=
  match find_udp_endpoint_by_id s id with
  | Some (mkUdpInfo i bridge_id SESSION_IO_BRIDGE _ _ _ _ _) => BridgeData i bridge_id data
  | _ => match parse b with
         | Ok (true, _, l) => AssignationMessages id l
         | _ => CloseSessionEvent id
         end
  end.

Lemma udp_dispose_calls s id b time ret parse b' s' :
  dispose s id b (zlen (contents b)) time ret parse = Ok (b', s') →
  calls s' = calls s ++ [handling s id (contents b) parse b] ∧ udp_endpoint_2_id_list_ s' = udp_endpoint_2_id_list_ s.
Proof.
  unfold dispose, handling.
  assert (Hp : parse_datagram s id b (zlen (contents b)) time parse = Ok (b', s') →
    calls s' = calls s ++ [match parse b with Ok (true, _, l) => AssignationMessages id l | _ => CloseSessionEvent id end] ∧
    udp_endpoint_2_id_list_ s' = udp_endpoint_2_id_list_ s).
  { unfold parse_datagram. destruct (parse b) as [[[[] b1] l]|]; cbn; [by intros [= _ <-]| |done].
    destruct (move b1 _); cbn; [|done]. by intros [= _ <-]. }
  destruct (find_udp_endpoint_by_id s id) as [[i bi [] e r0 d0 sb us]|]; [done| |done].
  destruct (move b _) as [b1|]; cbn; [|done]. rewrite ztake_all by done. intros [= <- <-]. by destruct (ret =? 1).
Qed.

(** The connection a datagram belongs to: its id, the state after a new one is entered, the calls
    that report it. *)
Definition connection_of s ep (len : Z) : Z * CUdpServer endpoint * list app_call :=
  match udp_endpoint_2_id_list_ s !! ep with
  | Some id => (id, s, [])
  | None => (count_index s + 1, call (new_connection junk s ep len) (new_calls address s ep), new_calls address s ep)
  end.

Lemma receive_handles s ep data time ret parse id s1 new : udp_inv s → count_index s < 2 ^ 32 - 1 → parser_ok parse →
  receiving s = true → socket_open s = true → 0 < zlen data <= get_buffer_size (session_recv_buffer_ s) →
  connection_of s ep (zlen data) = (id, s1, new) →
  ∃ s' b, udp_step address junk s (UReceive false ep data time ret parse) = Ok s' ∧ receiving s' = true ∧
    udp_endpoint_2_id_list_ s' !! ep = Some id ∧ contents b = data ∧
    calls s' = calls s ++ new ++ [handling s1 id data parse b] ∧ contents (session_recv_buffer_ s') = [].
Proof.
  intros Hi Hc Hp Hr Ho Hd Hconn. cbn [udp_step]. unfold do_receive_data_logic. rewrite Hr. cbn [negb].
  set (s0 := s <| receiving := false |>). pose proof (v_count s Hi).
  assert (Hi0 : udp_inv s0) by (by destruct Hi; split).
  rewrite ztake_all by (cbn; lia). unfold do_receive_from. rewrite udp_add_udp_endpoint_eq by (cbn; lia).
  assert (Hadd : ∃ t, match udp_endpoint_2_id_list_ s0 !! ep with
      | Some id => (Some id, s0)
      | None => if socket_open s0 then (Some (count_index s0 + 1), call (new_connection junk s0 ep (zlen data)) (new_calls address s0 ep))
                else (None, new_connection junk s0 ep (zlen data))
      end = (Some id, t) ∧ calls t = calls s ++ new ∧ session_recv_buffer_ t = session_recv_buffer_ s ∧
      udp_id_2_endpoint_list_ t = udp_id_2_endpoint_list_ s1 ∧ udp_endpoint_2_id_list_ t !! ep = Some id).
  { unfold connection_of in Hconn. cbn. destruct (udp_endpoint_2_id_list_ s !! ep) eqn:E.
    - injection Hconn as <- <- <-. eexists. split; [done|]. by rewrite app_nil_r.
    - rewrite Ho. injection Hconn as <- <- <-. eexists. split; [done|]. cbn. by rewrite lookup_insert_eq. }
  destruct Hadd as (t & -> & Hct & Hrt & Hit & Het). rewrite (proj2 (Z.ltb_lt _ _)) by lia. rewrite Hrt.
  destruct (get_buffer_size _ =? 0) eqn:Eb; [lia|]. destruct (v_recv s Hi) as [Hwf Hempty].
  destruct (recv_into_fits _ data Hwf) as (b & -> & Hb & Hcb & _); [lia|]. cbn. rewrite Hempty in Hcb. cbn in Hcb.
  destruct (dispose_keeps t id b (zlen data) time ret parse Hb) as (b1 & s2 & E & Hcons & _); [lia|done|].
  rewrite E. cbn. rewrite <- Hcb in E. apply udp_dispose_calls in E as [Ecalls Etab].
  destruct (consumes_move b b1 Hb Hcons) as (b2 & Emove & _ & Hb2 & _). rewrite Hcb in Emove. rewrite Emove. cbn. eexists _, b. split; [done|]. cbn.
  rewrite Ecalls, Etab, Hct, <- app_assoc, Hcb. split_and!; [done..| |done].
  unfold handling, find_udp_endpoint_by_id. by rewrite Hit.
Qed.

Definition config_ok (config : CConfigNetIO) : Prop :=
  0 <= recv_buff_size_ config < 2 ^ 63 ∧ 0 <= send_buff_size_ config < 2 ^ 63.

Lemma udp_start_inv config bound now count : config_ok config → 0 <= count → udp_inv (start junk config bound now count : CUdpServer endpoint).
Proof.
  intros [Hr Hs] Hc. destruct (Init_wf junk (recv_buff_size_ config) Hr) as [Hwf He]. split; [|done..|split; constructor|].
  - apply tables_init.
  - intros _ id. cbn. rewrite lookup_empty. by intros [].
Qed.

End Properties.

(** C14: the tables of the UDP server stay consistent.  Under any sequence of datagrams, writes,
    completions and (interleaved) closes, with parsers that keep their contract ([parser_ok]: they return
    and take bytes from the front of the buffer), buffers of less than 2^63 bytes and as long as fewer
    than 2^32 connection ids are taken: no operation touches memory outside its buffers; the two tables
    are inverse to each other; no datagram leaves bytes behind in the receive buffer; no connection is
    reported to the work threads twice, and while the socket is open every connection of the tables
    was reported; and everything ever sent for a connection id went to one endpoint. *)
Theorem udp_connections_consistent {endpoint} `{Countable endpoint} (address : endpoint → ClientIPInfo) junk config
    bound now count (os : list (udp_op endpoint)) :
  config_ok config → 0 <= count → count + zlen os < 2 ^ 32 → Forall op_ok os →
  ∃ s, udp_run address junk (start junk config bound now count) os = Ok s ∧
    (∀ ep id, udp_endpoint_2_id_list_ s !! ep = Some id ↔
       ∃ i, udp_id_2_endpoint_list_ s !! id = Some i ∧ send_endpoint i = ep) ∧
    contents (session_recv_buffer_ s) = [] ∧ NoDup (connects (calls s)) ∧
    (socket_open s = true → ∀ id, is_Some (udp_id_2_endpoint_list_ s !! id) → id ∈ connects (calls s)) ∧
    (∀ d d', d ∈ sends s → d' ∈ sends s → d_connect d = d_connect d' → d_endpoint d = d_endpoint d').
Proof.
  intros Hcfg Hc Hn Ho. pose proof (udp_start_inv (endpoint:=endpoint) junk config bound now count Hcfg Hc) as Hi.
  destruct (udp_run_inv address junk os _ Hi Hn Ho) as (s & -> & [[H1 _ _ H4] [_ Hr] _ _ [Hnd _] Hrep] & _).
  exists s. by split_and!.
Qed.

(** A parser that takes the whole buffer as one packet. *)
Definition demo_parse : parser_call := λ b,
  let* b' := move b (get_write_size b) in Ok (true, b', [mkPacket [] (contents b) 0]).

Lemma udp_demo_parse_ok : parser_ok demo_parse.
Proof.
  intros b Hb. unfold demo_parse, get_write_size. pose proof (wf_write b Hb).
  destruct (move_consumes b b (write_size_ b) (consumes_refl b Hb)) as (b' & -> & ?); [lia|]. cbn. eauto 6.
Qed.

Definition demo_address (ep : nat) : ClientIPInfo := mkClientIPInfo "10.0.0.1" (Z.of_nat ep).
Definition demo_config : CConfigNetIO := CConfigNetIO_default.
Definition demo_start : CUdpServer nat := start (λ _, 0) demo_config ClientIPInfo_default 0 0.
Definition demo_ops : list (udp_op nat) :=
  [UReceive false 7%nat [1; 2; 3] 5 0 demo_parse; UReceive false 8%nat [4] 6 0 demo_parse; UOtherConnection;
   USet 1 [9; 9]; UWrite 1; UCloseBegin 2; UReceive false 8%nat [5] 7 0 demo_parse; UWriteNow 2 [6]; UCloseEnd 2;
   UReceive false 8%nat [4] 8 0 demo_parse; USendDone 1 false].

Lemma udp_demo_ops_ok : Forall op_ok demo_ops.
Proof. repeat constructor; apply udp_demo_parse_ok. Qed.

Lemma udp_connections_consistent_witness :
  ∃ s, udp_run demo_address (λ _, 0) demo_start demo_ops = Ok s ∧ contents (session_recv_buffer_ s) = [] ∧
    NoDup (connects (calls s)) ∧ connects (calls s) = [1; 2; 4] ∧
    udp_endpoint_2_id_list_ s !! 8%nat = Some 4 ∧ map d_connect (sends s) = [1; 2].
Proof.
  destruct (udp_connections_consistent demo_address (λ _, 0) demo_config ClientIPInfo_default 0 0 demo_ops)
    as (s & E & _ & Hr & Hnd & _); [split; cbn; lia|lia|reflexivity|exact udp_demo_ops_ok|].
  exists s. split; [exact E|]. split; [exact Hr|]. split; [exact Hnd|]. vm_compute in E. injection E as <-. by vm_compute.
Defined.



(** An empty datagram stops the server.  After a datagram of length zero no receive is pending, and
    whatever happens afterwards none is ever started again: no data of any peer is handed on any more. *)
Theorem udp_empty_datagram_stops {endpoint} `{Countable endpoint} (address : endpoint → ClientIPInfo) junk
    (s : CUdpServer endpoint) ep time ret parse os s1 s2 :
  receiving s = true → udp_step address junk s (UReceive false ep [] time ret parse) = Ok s1 →
  udp_run address junk s1 os = Ok s2 →
  receiving s2 = false ∧ handed_on (calls s2) = handed_on (calls s).
Proof.
  intros Hr E Hrun. assert (Hs1 : receiving s1 = false ∧ handed_on (calls s1) = handed_on (calls s)).
  { revert E. cbn [udp_step]. unfold do_receive_data_logic. rewrite Hr. cbn [negb]. unfold ztake. rewrite take_nil.
    unfold do_receive_from. destruct (add_udp_endpoint _ _ _ _ _ _) as [r s'] eqn:Ea. apply add_udp_endpoint_quiet in Ea.
    by destruct r; intros [= <-]. }
  destruct (stopped_run address junk os s1 s2 (proj1 Hs1) Hrun) as [-> ->]. done.
Qed.

Lemma udp_empty_datagram_stops_witness :
  ∃ s1 s2, udp_step demo_address (λ _, 0) demo_start (UReceive false 7%nat [] 1 0 demo_parse) = Ok s1 ∧
    udp_run demo_address (λ _, 0) s1 demo_ops = Ok s2 ∧ receiving s2 = false ∧ handed_on (calls s2) = [].
Proof.
  eexists _, _. split; [vm_compute; reflexivity|]. split; [vm_compute; reflexivity|].
  eapply (udp_empty_datagram_stops demo_address (λ _, 0) demo_start 7%nat 1 0 demo_parse demo_ops);
    [reflexivity|vm_compute; reflexivity..].
Defined.
