(* ===== verification/KcpServer.v ===== *)
(** * The KCP server (src/PSS_ASIO/UdpSession/KcpServer.{h,cpp})

    A UDP socket shared by all peers, with a KCP control block per connection: a peer first asks for
    an id with a fixed text, then sends KCP segments, which the control block turns into messages.

    The protocol itself is the vendored ikcp library, here the class [KCP]: what the program calls, with
    the behaviour of [ikcp_recv]; the library's control blocks are an instance (IkcpInstance.v).  The output callback of the library
    ([kcp_udpOutPut]) is called from [ikcp_update], which therefore returns the datagrams it outputs.
    A control block is [None] when the library could not allocate it; using it then is a fault, as is an
    exception that nothing catches. *)

From Stdlib Require Import ZArith Lia.
From S2P Require Import Prelude Define SessionBuffer SessionCalls EndpointTables.
From stdpp Require Import base numbers list gmap strings.
Local Open Scope Z_scope.

Class KCP (kcp : Type) := {
  ikcp_create : Z → option kcp;
  ikcp_nodelay : kcp → Z → Z → Z → Z → kcp;
  ikcp_wndsize : kcp → Z → Z → kcp;
  ikcp_update : kcp → Z → kcp * list (list Z);
  ikcp_input : kcp → list Z → kcp;
  ikcp_send : kcp → list Z → Z * kcp;
  ikcp_recv : kcp → Z → option (list Z) * kcp;      (* [None]: a negative result *)
  (** The messages received completely and in order, oldest first. *)
  ikcp_pending : kcp → list (list Z);
  ikcp_recv_empty : ∀ k len, 0 <= len → ikcp_pending k = [] → fst (ikcp_recv k len) = None;
  ikcp_recv_large : ∀ k len m ms, ikcp_pending k = m :: ms → 0 <= len < zlen m → fst (ikcp_recv k len) = None;
  ikcp_recv_message : ∀ k len m ms, ikcp_pending k = m :: ms → zlen m <= len →
    fst (ikcp_recv k len) = Some m ∧ ikcp_pending (snd (ikcp_recv k len)) = ms;
}.

Definition kcp_key_id_create : list Z := bytes_of_string "kcp key id create".

Inductive EM_KCP_VALID := KCP_INVALUD | KCP_VALUD | KCP_ID_VALID.

#[export] Instance EM_KCP_VALID_eq_dec : EqDecision EM_KCP_VALID.
Proof. solve_decision. Defined.

Section KcpServer.

Context {endpoint kcp : Type} `{Countable endpoint} `{!KCP kcp} (address : endpoint → ClientIPInfo).

(** [send_endpoint] is [None] until it is first set. *)
Record CKcp_send_info := mkSendInfo { send_connect_id_ : Z; send_to : option endpoint }.

Record CKcp_Session_Info := mkKcpInfo {
  send_endpoint : endpoint;
  recv_data_size_ : Z;                      (* size_t *)
  send_data_size_ : Z;                      (* size_t *)
  session_send_buffer_ : CSessionBuffer;
  udp_state_ : EM_KCP_VALID;
  kcp_id_ : Z;                              (* uint32 *)
  kcpcb_ : option kcp;
}.

Record CKcpServer := mkKcp {
  socket_open : bool;
  local_endpoint : ClientIPInfo;
  io_bridge_connect_id_ : Z;                (* uint32 *)
  udp_id_2_endpoint_list_ : gmap Z CKcp_Session_Info;
  udp_endpoint_2_id_list_ : gmap endpoint Z;
  max_recv_size_ : Z;                       (* uint32 *)
  max_send_size_ : Z;                       (* uint32 *)
  recv_data_time_ : Z;
  session_recv_buffer_ : CSessionBuffer;
  session_recv_data_buffer_ : CSessionBuffer;
  io_state_ : EM_SESSION_STATE;
  kcp_send_info_ : CKcp_send_info;
  server_ip_ : string;
  server_port_ : Z;
  (* the environment *)
  count_index : Z;
  receiving : bool;
  calls : list app_call;
  in_flight : list (datagram (option endpoint));
  sends : list (datagram (option endpoint));
}.

Implicit Types (s : CKcpServer) (ep : endpoint) (info : CKcp_Session_Info).

Definition call s (l : list app_call) : CKcpServer := s <| calls := calls s ++ l |>.
Definition do_receive s : CKcpServer := s <| receiving := true |>.
Definition set_info s (connect_id : Z) (f : CKcp_Session_Info → CKcp_Session_Info) : CKcpServer :=
  s <| udp_id_2_endpoint_list_ := alter f connect_id (udp_id_2_endpoint_list_ s) |>.

(** The constructor and [start]. *)
Definition start (junk : nat → Z) (server_ip : string) (port max_recv_size max_send_size : Z) (bound : ClientIPInfo)
    (now count : Z) : CKcpServer :=
  let s := mkKcp true bound 0 ∅ ∅ max_recv_size max_send_size now (Init junk max_recv_size) (Init junk max_recv_size)
             SESSION_IO_LOGIC (mkSendInfo 0 None) server_ip port count false [] [] [] in
  do_receive (call s [AddAccept (server_ip_ s) (server_port_ s) CONNECT_IO_KCP]).

Definition find_udp_endpoint_by_id s (connect_id : Z) : option CKcp_Session_Info :=
  udp_id_2_endpoint_list_ s !! connect_id.

Definition get_remote_ip s (connect_id : Z) : ClientIPInfo :=
  match find_udp_endpoint_by_id s connect_id with
  | Some info => address (send_endpoint info)
  | None => ClientIPInfo_default
  end.

(** [send_io_data_to_point]: the connection is the one in [kcp_send_info_], which is used up. *)
Definition send_io_data_to_point s (data : list Z) (to : option endpoint) : CKcpServer :=
  let connect_id := send_connect_id_ (kcp_send_info_ s) in
  if connect_id =? 0 then s
  else
    let d := mkDatagram connect_id to data in
    s <| kcp_send_info_ := (kcp_send_info_ s) <| send_connect_id_ := 0 |> |>
      <| in_flight := in_flight s ++ [d] |> <| sends := sends s ++ [d] |>.

Definition set_kcp_send_info s (connect_id : Z) ep : CKcpServer :=
  s <| kcp_send_info_ := mkSendInfo connect_id (Some ep) |>.

(** [kcp_udpOutPut], for each datagram a flush outputs. *)
Definition kcp_udpOutPut s (data : list Z) : CKcpServer := send_io_data_to_point s data (send_to (kcp_send_info_ s)).

(** [ikcp_update] on the control block of a connection. *)
Definition update_kcp s (connect_id : Z) (k : kcp) (iclock : Z) : kcp * CKcpServer :=
  let '(k, outs) := ikcp_update k iclock in
  (k, set_info (foldl kcp_udpOutPut s outs) connect_id (λ i, i <| kcpcb_ := Some k |>)).

(** [init_kcp]; the caller passes its receive size as [max_send_size] and its send size as [max_recv_size]. *)
Definition init_kcp info (kcp_id max_send_size max_recv_size : Z) : bool * CKcp_Session_Info :=
  let info := info <| kcp_id_ := kcp_id |> in
  match ikcp_create kcp_id with
  | None => (false, info <| kcpcb_ := None |>)
  | Some k => (true, info <| kcpcb_ := Some (ikcp_wndsize (ikcp_nodelay k 0 10 0 0) max_send_size max_recv_size) |>)
  end.

(** [add_udp_endpoint]: the connection of the endpoint, 0 when its control block cannot be made. *)
Definition add_udp_endpoint (junk : nat → Z) s ep (length max_buffer_length iclock : Z) : outcome (Z * CKcpServer) :=
  match udp_endpoint_2_id_list_ s !! ep with
  | Some id => Ok (id, s)
  | None =>
      let '(id, count) := CreateCounter (count_index s) in
      let info := mkKcpInfo ep (u64 length) 0 (Init junk max_buffer_length) KCP_VALUD 0 None in
      let '(init_ret, info) := init_kcp info id (max_recv_size_ s) (max_send_size_ s) in
      let s := s <| count_index := count |>
                 <| udp_endpoint_2_id_list_ := <[ep := id]> (udp_endpoint_2_id_list_ s) |>
                 <| udp_id_2_endpoint_list_ := <[id := info]> (udp_id_2_endpoint_list_ s) |> in
      if negb init_ret then Ok (0, s)
      else match kcpcb_ info with
           | None => Fault
           | Some k =>
               let '(_, s) := update_kcp s id k iclock in
               if negb (socket_open s) then Fault
               else Ok (id, call s [PacketConnect id (address ep) (local_endpoint s);
                                    AddThreadSession id (local_endpoint s) (address ep)])
           end
  end.

Definition is_kcp_id_create (kcp_data : list Z) (kcp_size : Z) : outcome bool :=
  if 24 <=? kcp_size then Ok false
  else let* data := mem_read kcp_data 0 kcp_size in
       Ok ((kcp_size =? zlen kcp_key_id_create) && bool_decide (kcp_key_id_create = data)).

(** The [while (true)] around [ikcp_recv]: each message is written at the start of the buffer. *)
Fixpoint recv_loop (fuel : nat) (k : kcp) (b : CSessionBuffer) (length logic_data_length : Z)
    : outcome (kcp * CSessionBuffer * Z) :=
  match fuel with
  | O => Fault
  | S fuel =>
      match ikcp_recv k length with
      | (None, k) => Ok (k, b, logic_data_length)
      | (Some m, k) =>
          let* mem := mem_write (read b) 0 m in
          let b := snd (set_write_data (mkSessionBuffer mem (write_size_ b) (max_buff_size_ b)) (zlen m)) in
          recv_loop fuel k b length (i32 (logic_data_length + zlen m))
      end
  end.

(** Handing the messages on: to the bridge, or to the parser. *)
Definition dispose s (connect_id length logic_data_length time : Z) (parse : parser_call) : outcome CKcpServer :=
  if bool_decide (io_state_ s = SESSION_IO_BRIDGE) && (0 <? io_bridge_connect_id_ s) then
    let* data := mem_read (read (session_recv_buffer_ s)) 0 length in
    let* b := move (session_recv_buffer_ s) length in
    Ok (call (s <| session_recv_buffer_ := b |>) [BridgeMessage (io_bridge_connect_id_ s) (mkPacket [] data 0)])
  else
    let* '(ret, b, message_list) := parse (session_recv_data_buffer_ s) in
    if negb ret then
      let* b := move b (u64 logic_data_length) in
      Ok (call (s <| session_recv_data_buffer_ := b |>) [CloseSessionEvent connect_id])
    else
      Ok (call (s <| session_recv_data_buffer_ := b |> <| recv_data_time_ := time |>)
            [AssignationMessages connect_id message_list]).

(** The KCP part of [do_receive_from]: [session_kcp] is the connection [connect_id]; the datagram has been
    accounted for in the receive buffer. *)
Definition receive_segments s ep (connect_id length time iclock1 iclock2 : Z) (parse : parser_call) (k : kcp)
    : outcome CKcpServer :=
  let '(k, s) := update_kcp s connect_id k iclock1 in
  let* data := mem_read (read (session_recv_buffer_ s)) 0 length in
  let k := ikcp_input k data in
  let* '(k, b, logic_data_length) :=
    recv_loop (S (List.length (ikcp_pending k))) k (session_recv_data_buffer_ s) length 0 in
  let s := set_info (s <| session_recv_data_buffer_ := b |>) connect_id (λ i, i <| kcpcb_ := Some k |>) in
  let* b := move (session_recv_buffer_ s) length in
  let s := s <| session_recv_buffer_ := b |> in
  if logic_data_length =? 0 then Ok (do_receive s)
  else
    let* s := dispose s connect_id length logic_data_length time parse in
    let '(_, s) := update_kcp (set_kcp_send_info s connect_id ep) connect_id k iclock2 in
    Ok (do_receive s).

(** The answer to a peer that asks for an id. *)
Definition send_kcp_id s ep (connect_id length : Z) : outcome CKcpServer :=
  let* b := move (session_recv_buffer_ s) length in
  let s := s <| session_recv_buffer_ := b |>
             <| kcp_send_info_ := (kcp_send_info_ s) <| send_connect_id_ := connect_id |> |> in
  let s := send_io_data_to_point s (le_bytes 4 connect_id) (Some ep) in
  Ok (do_receive (set_info s connect_id (λ i, i <| udp_state_ := KCP_ID_VALID |>))).

Definition do_receive_from (junk : nat → Z) s ep (data : list Z) (time iclock0 iclock1 iclock2 : Z) (parse : parser_call)
    : outcome CKcpServer :=
  let length := zlen data in
  let* '(connect_id, s) := add_udp_endpoint junk s ep length (max_send_size_ s) iclock0 in
  if connect_id =? 0 then Ok s
  else
    match find_udp_endpoint_by_id s connect_id with
    | Some session_kcp =>
        if 0 <? length then
          if get_buffer_size (session_recv_buffer_ s) =? 0 then
            let* b := move (session_recv_buffer_ s) length in
            Ok (do_receive (call (s <| session_recv_buffer_ := b |>) [CloseSessionEvent connect_id]))
          else
            let* '(_, b) := recv_into (session_recv_buffer_ s) data in
            let s := s <| session_recv_buffer_ := b |> in
            let* create := is_kcp_id_create (read b) (u32 length) in
            if create : bool then send_kcp_id s ep connect_id length
            else match kcpcb_ session_kcp with
                 | None => Fault
                 | Some k => receive_segments s ep connect_id length time iclock1 iclock2 parse k
                 end
        else Ok (do_receive s)
    | None => Ok (do_receive s)
    end.

(** The completion of the pending receive. *)
Definition receive_completes (junk : nat → Z) s (ec : bool) ep (data : list Z) (time iclock0 iclock1 iclock2 : Z)
    (parse : parser_call) : outcome CKcpServer :=
  if negb (receiving s) then Ok s
  else
    let s := s <| receiving := false |> in
    if ec then
      Ok (call s [FrameEvent LOGIC_LISTEN_SERVER_ERROR 0 (server_ip_ s) (server_port_ s) CONNECT_IO_KCP;
                  DelAccept (server_ip_ s) (server_port_ s) CONNECT_IO_KCP])
    else do_receive_from junk s ep (ztake (get_buffer_size (session_recv_buffer_ s)) data) time iclock0 iclock1 iclock2 parse.

Definition close_udp_endpoint_by_id s (connect_id : Z) : CKcpServer :=
  let s := match find_udp_endpoint_by_id s connect_id with
           | Some info =>
               call s [PacketDisconnect connect_id]
                 <| udp_id_2_endpoint_list_ := delete connect_id (udp_id_2_endpoint_list_ s) |>
                 <| udp_endpoint_2_id_list_ := delete (send_endpoint info) (udp_endpoint_2_id_list_ s) |>
           | None => s
           end in
  call s [DeleteThreadSession connect_id (get_remote_ip s connect_id) CONNECT_IO_KCP].

(** [close(connect_id)]: the control block is released without asking whether the connection exists. *)
Definition close s (connect_id : Z) : outcome CKcpServer :=
  match find_udp_endpoint_by_id s connect_id with
  | None => Fault
  | Some _ => Ok (close_udp_endpoint_by_id s connect_id)
  end.

Fixpoint close_list s (l : list Z) : outcome CKcpServer :=
  match l with [] => Ok s | c :: l => let* s := close s c in close_list s l end.

(** [close()]. *)
Definition close_all s : outcome CKcpServer :=
  let* s := close_list s (map fst (map_entries (udp_id_2_endpoint_list_ s))) in
  Ok (s <| socket_open := false |>).

Definition set_send_buffer s (connect_id : Z) (b : CSessionBuffer) : CKcpServer :=
  set_info s connect_id (λ i, i <| session_send_buffer_ := b |>).

Definition set_write_buffer s (connect_id : Z) (data : list Z) : outcome CKcpServer :=
  match find_udp_endpoint_by_id s connect_id with
  | None => Ok s
  | Some info =>
      let* b := append_send_buffer (session_send_buffer_ info) data in
      Ok (set_send_buffer s connect_id b)
  end.

(** [ikcp_send] and the flush that follows it. *)
Definition send_kcp s info (connect_id : Z) (data : list Z) (iclock : Z) : outcome CKcpServer :=
  match kcpcb_ info with
  | None => Fault
  | Some k =>
      let s := set_kcp_send_info s connect_id (send_endpoint info) in
      let '(_, k) := ikcp_send k data in
      Ok (snd (update_kcp s connect_id k iclock))
  end.

Definition do_write s (connect_id iclock : Z) : outcome CKcpServer :=
  match find_udp_endpoint_by_id s connect_id with
  | None => Ok s
  | Some info =>
      let* '(data, b) := take_send_buffer (session_send_buffer_ info) in
      if bool_decide (udp_state_ info = KCP_ID_VALID) then
        let* s := send_kcp s info connect_id data iclock in Ok (set_send_buffer s connect_id b)
      else Ok (set_send_buffer s connect_id b)
  end.

Definition do_write_immediately s (connect_id : Z) (data : list Z) (iclock : Z) : outcome CKcpServer :=
  match find_udp_endpoint_by_id s connect_id with
  | None => Ok s
  | Some info =>
      let* s := if bool_decide (udp_state_ info = KCP_ID_VALID) then send_kcp s info connect_id data iclock else Ok s in
      let* b := clear_write_buffer (session_send_buffer_ info) in
      Ok (set_send_buffer s connect_id b)
  end.

Definition add_send_finish_size s (connect_id length : Z) : CKcpServer :=
  set_info s connect_id (λ i, i <| send_data_size_ := send_data_size_ i +u64 length |>).

(** The completion of one of the sends under way. *)
Definition send_completes s (n : nat) (ec : bool) : CKcpServer :=
  match in_flight s !! n with
  | None => s
  | Some d =>
      let s := s <| in_flight := delete n (in_flight s) |> in
      if ec then s else add_send_finish_size s (d_connect d) (zlen (d_data d))
  end.

(** [set_io_bridge_connect_id]: one bridge for all connections of the server. *)
Definition set_io_bridge_connect_id s (from_io_connect_id to_io_connect_id : Z) : CKcpServer :=
  if 0 <? to_io_connect_id
  then s <| io_state_ := SESSION_IO_BRIDGE |> <| io_bridge_connect_id_ := to_io_connect_id |>
  else s <| io_state_ := SESSION_IO_LOGIC |> <| io_bridge_connect_id_ := 0 |>.

(** The queries. *)
Definition get_io_type s : EM_CONNECT_IO_TYPE := CONNECT_IO_KCP.
Definition get_mark_id s (connect_id : Z) : Z := 0.
Definition get_connect_id s : Z := 0.
Definition get_recv_time s (connect_id : Z) : Z := recv_data_time_ s.
Definition get_kcp_send_endpoint s : option endpoint := send_to (kcp_send_info_ s).

(** [iclock64] and [iclock], from the seconds and microseconds of the clock. *)
Definition iclock64 (sec usec : Z) : Z := i64 (sec * 1000 + Z.quot usec 1000).
Definition iclock (sec usec : Z) : Z := Z.land (iclock64 sec usec) 4294967295.

(** ** Steps *)

Inductive kcp_op :=
| KReceive (ec : bool) (ep : endpoint) (data : list Z) (time iclock0 iclock1 iclock2 : Z) (parse : parser_call)
| KSet (c : Z) (data : list Z)
| KWrite (c iclock : Z)
| KWriteNow (c : Z) (data : list Z) (iclock : Z)
| KSendDone (n : nat) (ec : bool)
| KClose (c : Z)
| KCloseAll
| KBridge (from_id to_id : Z)
| KOtherConnection.        (* another session takes a connection id *)

Definition kcp_step (junk : nat → Z) s (o : kcp_op) : outcome CKcpServer :=
  match o with
  | KReceive ec ep data time c0 c1 c2 parse => receive_completes junk s ec ep data time c0 c1 c2 parse
  | KSet c d => set_write_buffer s c d
  | KWrite c t => do_write s c t
  | KWriteNow c d t => do_write_immediately s c d t
  | KSendDone n ec => Ok (send_completes s n ec)
  | KClose c => close s c
  | KCloseAll => close_all s
  | KBridge f t => Ok (set_io_bridge_connect_id s f t)
  | KOtherConnection => Ok (s <| count_index := snd (CreateCounter (count_index s)) |>)
  end.

Fixpoint kcp_run (junk : nat → Z) s (os : list kcp_op) : outcome CKcpServer :=
  match os with [] => Ok s | o :: os => let* s := kcp_step junk s o in kcp_run junk s os end.

End KcpServer.

Arguments CKcp_Session_Info : clear implicits.
Arguments CKcpServer endpoint kcp {_ _}.
Arguments kcp_op : clear implicits.

(** ** The invariant *)

Section Invariant.

Context {endpoint kcp : Type} `{Countable endpoint} `{!KCP kcp} (address : endpoint → ClientIPInfo).
Implicit Types (s : CKcpServer endpoint kcp).

(** A connection without a control block never gets as far as sending; the KCP id is the connection id. *)
Definition info_ok (id : Z) (i : CKcp_Session_Info endpoint kcp) : Prop :=
  wf (session_send_buffer_ i) ∧ (kcpcb_ i = None → udp_state_ i ≠ KCP_ID_VALID) ∧ kcp_id_ i = id.

Definition tables s : Prop :=
  tables_ok send_endpoint info_ok (count_index s) (udp_id_2_endpoint_list_ s) (udp_endpoint_2_id_list_ s) [].

Definition owned s : Prop := ∀ id i, udp_id_2_endpoint_list_ s !! id = Some i → is_Some (kcpcb_ i).
Definition reported s : Prop := ∀ id, is_Some (udp_id_2_endpoint_list_ s !! id) → id ∈ connects (calls s).

(** Every connection has a control block and was reported to the work threads. *)
Definition blocks s : Prop := owned s ∧ reported s.

Record kcp_inv s : Prop := {
  v_tables : tables s;
  v_recv : wf (session_recv_buffer_ s) ∧ max_buff_size_ (session_recv_buffer_ s) = max_recv_size_ s;
  v_data : wf (session_recv_data_buffer_ s) ∧ max_buff_size_ (session_recv_data_buffer_ s) = max_recv_size_ s;
  v_max : 0 <= max_send_size_ s < 2 ^ 63;
  v_count : 0 <= count_index s;
  v_conn : NoDup (connects (calls s)) ∧ Forall (λ c, c <= count_index s) (connects (calls s));
  v_kcp : receiving s = true → blocks s;
}.

(** What an operation keeps that creates no connection and leaves the receive buffers. *)
Record keeps s s' : Prop := {
  k_tables : tables s → tables s';
  k_owned : owned s → owned s';
  k_recv : session_recv_buffer_ s' = session_recv_buffer_ s;
  k_data : session_recv_data_buffer_ s' = session_recv_data_buffer_ s;
  k_maxr : max_recv_size_ s' = max_recv_size_ s;
  k_max : max_send_size_ s' = max_send_size_ s;
  k_count : count_index s' = count_index s;
  k_conn : connects (calls s') = connects (calls s);
  k_receiving : receiving s' = receiving s;
  k_open : socket_open s' = socket_open s;
  k_known : ∀ id, is_Some (udp_id_2_endpoint_list_ s' !! id) → is_Some (udp_id_2_endpoint_list_ s !! id);
}.

#[local] Instance keeps_preorder : PreOrder keeps.
Proof. split; [by split|]. intros s1 s2 s3 [] []. split; [auto|auto|congruence..|auto]. Qed.

Lemma k_blocks s s' : keeps s s' → blocks s → blocks s'.
Proof.
  intros Hk [Ho Hr]. split; [by apply (k_owned _ _ Hk)|]. intros id Hid. rewrite (k_conn _ _ Hk). apply Hr. by apply (k_known _ _ Hk).
Qed.

Lemma kcp_keeps_inv s s' : keeps s s' → kcp_inv s → kcp_inv s'.
Proof.
  intros Hk []. pose proof (k_blocks _ _ Hk) as Kb. destruct Hk as [K1 _ K3 K4 K5 K6 K7 K8 K9 _ _].
  split; [auto|rewrite ?K3, ?K4, ?K5, ?K6, ?K7, ?K8, ?K9; auto..].
Qed.

Lemma kcp_call_keeps s l : connects l = [] → keeps s (call s l).
Proof. intros Hl. split; try done. cbn. by rewrite connects_app, Hl, app_nil_r. Qed.

Lemma kcp_set_info_keeps s id f :
  (∀ i, udp_id_2_endpoint_list_ s !! id = Some i → send_endpoint (f i) = send_endpoint i ∧
     (info_ok id i → info_ok id (f i)) ∧ (is_Some (kcpcb_ i) → is_Some (kcpcb_ (f i)))) →
  keeps s (set_info s id f).
Proof.
  intros Hf. split; try done.
  - apply tables_alter. intros i Hi. by destruct (Hf i Hi) as (? & ? & _).
  - intros Hb k i. cbn. destruct (decide (id = k)) as [->|Hne].
    + rewrite lookup_alter_eq. destruct (udp_id_2_endpoint_list_ s !! k) as [i0|] eqn:E; [|done]. intros [= <-].
      apply (Hf i0 eq_refl). by eapply Hb.
    + rewrite lookup_alter_ne by done. apply Hb.
  - intros k. cbn. by rewrite lookup_alter_is_Some.
Qed.

Lemma set_kcpcb_keeps s id k : keeps s (set_info s id (λ i, i <| kcpcb_ := Some k |>)).
Proof. apply kcp_set_info_keeps. intros i _. split; [done|]. split; [intros (? & _ & ?); by split_and!|done]. Qed.

Lemma kcp_set_send_buffer_keeps s id b : wf b → keeps s (set_send_buffer s id b).
Proof. intros Hb. apply kcp_set_info_keeps. intros i _. split; [done|]. split; [intros [? ?]; by split|done]. Qed.

Lemma send_io_keeps s data to : keeps s (send_io_data_to_point s data to).
Proof. unfold send_io_data_to_point. destruct (_ =? 0); [done|]. by split. Qed.

Lemma outputs_keep outs : ∀ s, keeps s (foldl kcp_udpOutPut s outs).
Proof. induction outs as [|d outs IH]; intros s; cbn; [done|]. etrans; [apply send_io_keeps|apply IH]. Qed.

Lemma update_kcp_keeps s id k t : keeps s (snd (update_kcp s id k t)).
Proof.
  unfold update_kcp. destruct (ikcp_update k t) as [k' outs]. cbn. etrans; [apply outputs_keep|apply set_kcpcb_keeps].
Qed.

Lemma update_kcp_e2i s id k t : udp_endpoint_2_id_list_ (snd (update_kcp s id k t)) = udp_endpoint_2_id_list_ s.
Proof.
  unfold update_kcp. destruct (ikcp_update k t) as [k' outs]. cbn. revert s. induction outs as [|d outs IH]; intros s; [done|].
  cbn. rewrite IH. unfold kcp_udpOutPut, send_io_data_to_point. by destruct (_ =? 0).
Qed.

Lemma send_kcp_keeps s i id data t : is_Some (kcpcb_ i) → ∃ s', send_kcp s i id data t = Ok s' ∧ keeps s s'.
Proof.
  intros [k Hk]. unfold send_kcp. rewrite Hk. destruct (ikcp_send k data) as [r k']. eexists. split; [done|].
  etrans; [|apply update_kcp_keeps]. by split.
Qed.

(** The loop around [ikcp_recv] ends after the pending messages and stays inside the buffer. *)
Lemma recv_loop_ok len fuel : ∀ (k : kcp) b acc, wf b → 0 <= len <= max_buff_size_ b → (List.length (ikcp_pending k) < fuel)%nat →
  ∃ k' b' n, recv_loop fuel k b len acc = Ok (k', b', n) ∧ wf b' ∧ max_buff_size_ b' = max_buff_size_ b.
Proof.
  induction fuel as [|fuel IH]; intros k b acc Hb Hlen Hf; [lia|]. cbn [recv_loop].
  destruct (ikcp_recv k len) as [r k'] eqn:E. destruct (ikcp_pending k) as [|m ms] eqn:Ep.
  { pose proof (ikcp_recv_empty k len (proj1 Hlen) Ep) as Hn. rewrite E in Hn. cbn in Hn. subst r. eauto 7. }
  destruct (decide (len < zlen m)) as [Hl|Hl].
  { pose proof (ikcp_recv_large k len m ms Ep (conj (proj1 Hlen) Hl)) as Hn. rewrite E in Hn. cbn in Hn. subst r. eauto 7. }
  destruct (ikcp_recv_message k len m ms Ep) as [Hm Hms]; [lia|]. rewrite E in Hm, Hms. cbn in Hm, Hms. subst r.
  pose proof Hb as [Hbl Hw Hmx]. pose proof (zlen_nonneg m). unfold read, mem_write.
  rewrite (proj2 (Z.leb_le 0 0)), (proj2 (Z.leb_le (0 + zlen m) _)) by lia. cbn [andb obind].
  set (mem := ztake 0 (buffer_ b) ++ m ++ zdrop (0 + zlen m) (buffer_ b)).
  assert (Hmem : zlen mem = max_buff_size_ b).
  { unfold mem. rewrite !zlen_app, zlen_ztake, zlen_zdrop by lia. lia. }
  set (b1 := mkSessionBuffer mem (write_size_ b) (max_buff_size_ b)).
  assert (Hb1 : wf b1) by (split; cbn; lia).
  rewrite set_write_data_wf by (done || lia). destruct (_ <? _) eqn:Ew; cbn [snd].
  - apply (IH k' b1); [done..|]. cbn in Hf. rewrite Hms. lia.
  - apply Z.ltb_ge in Ew. cbn in Ew. apply (IH k' (mkSessionBuffer mem (write_size_ b + zlen m) (max_buff_size_ b)));
      [split; cbn; lia|done|]. cbn in Hf. rewrite Hms. lia.
Qed.

(** ** Receiving *)

Definition new_info (junk : nat → Z) s ep (len : Z) (k : option kcp) : CKcp_Session_Info endpoint kcp :=
  mkKcpInfo ep (u64 len) 0 (Init junk (max_send_size_ s)) KCP_VALUD (count_index s + 1) k.

(** A connection for a new endpoint, before its control block is first updated. *)
Definition new_connection (junk : nat → Z) s ep (len : Z) (k : option kcp) : CKcpServer endpoint kcp :=
  let id := count_index s + 1 in
  s <| count_index := id |>
    <| udp_endpoint_2_id_list_ := <[ep := id]> (udp_endpoint_2_id_list_ s) |>
    <| udp_id_2_endpoint_list_ := <[id := new_info junk s ep len k]> (udp_id_2_endpoint_list_ s) |>.

Definition new_calls s ep : list app_call :=
  [PacketConnect (count_index s + 1) (address ep) (local_endpoint s);
   AddThreadSession (count_index s + 1) (local_endpoint s) (address ep)].

Definition new_block s (id : Z) : option kcp :=
  (λ k, ikcp_wndsize (ikcp_nodelay k 0 10 0 0) (max_recv_size_ s) (max_send_size_ s)) <$> ikcp_create id.

Lemma kcp_add_udp_endpoint_eq junk s ep len t : 0 <= count_index s < 2 ^ 32 - 1 →
  add_udp_endpoint address junk s ep len (max_send_size_ s) t =
  match udp_endpoint_2_id_list_ s !! ep with
  | Some id => Ok (id, s)
  | None =>
      let s1 := new_connection junk s ep len (new_block s (count_index s + 1)) in
      match new_block s (count_index s + 1) with
      | None => Ok (0, s1)
      | Some k =>
          let s2 := snd (update_kcp s1 (count_index s + 1) k t) in
          if socket_open s2
          then Ok (count_index s + 1, call s2 [PacketConnect (count_index s + 1) (address ep) (local_endpoint s2);
                                               AddThreadSession (count_index s + 1) (local_endpoint s2) (address ep)])
          else Fault
      end
  end.
Proof.
  intros Hc. unfold add_udp_endpoint, new_block. destruct (udp_endpoint_2_id_list_ s !! ep); [done|].
  rewrite CreateCounter_small by done. unfold init_kcp. destruct (ikcp_create (count_index s + 1)) as [k|]; cbn -[update_kcp]; [|done].
  unfold new_connection, new_info. cbn -[update_kcp]. destruct (update_kcp _ _ _ _) as [k' s2]. cbn [snd]. by destruct (socket_open s2).
Qed.

(** Entering a connection keeps the invariant; the receive is not pending while this happens. *)
Lemma kcp_new_connection_inv junk s ep len k : kcp_inv s → receiving s = false → udp_endpoint_2_id_list_ s !! ep = None →
  kcp_inv (new_connection junk s ep len k).
Proof.
  intros [Ht Hr Hd Hm Hc [Hnd Hle] _] Hrc Hep. split; cbn; [|done|done|done|lia| |by rewrite Hrc].
  - apply (tables_new send_endpoint info_ok _ _ _ _ (new_info junk s ep len k)); cbn; [done..|].
    split; cbn; [apply (Init_wf junk (max_send_size_ s)); lia|done].
  - split; [done|]. eapply Forall_impl; [exact Hle|]. cbn. intros. lia.
Qed.

Lemma new_connection_owned junk s ep len k : owned s → is_Some k → owned (new_connection junk s ep len k).
Proof. intros Hb Hk id i. cbn. intros [[<- <-]|[_ Hi]]%lookup_insert_Some; [done|by eapply Hb]. Qed.

Lemma new_calls_conn s s' c ep : kcp_inv s → connects (calls s') = connects (calls s) → count_index s < c →
  NoDup (connects (calls s' ++ [PacketConnect c (address ep) (local_endpoint s');
    AddThreadSession c (local_endpoint s') (address ep)])) ∧
  Forall (λ x, x <= c) (connects (calls s' ++ [PacketConnect c (address ep) (local_endpoint s');
    AddThreadSession c (local_endpoint s') (address ep)])).
Proof.
  intros Hi Hs Hc. rewrite connects_app, Hs. cbn. destruct (v_conn s Hi) as [Hnd Hall]. split.
  - apply NoDup_app. split; [done|]. split; [|apply NoDup_singleton]. intros x Hx ->%list_elem_of_singleton.
    rewrite Forall_forall in Hall. apply Hall in Hx. lia.
  - apply Forall_app. split; [eapply Forall_impl; [exact Hall|]; cbn; intros; lia|]. apply Forall_singleton. lia.
Qed.

(** The connection of a datagram: it is in the table with a control block, or none could be made. *)
Lemma add_udp_endpoint_ok junk s ep len t : kcp_inv s → count_index s < 2 ^ 32 - 1 → receiving s = false → blocks s →
  socket_open s = true →
  ∃ id s', add_udp_endpoint address junk s ep len (max_send_size_ s) t = Ok (id, s') ∧ kcp_inv s' ∧ receiving s' = false ∧
    count_index s' <= count_index s + 1 ∧ session_recv_buffer_ s' = session_recv_buffer_ s ∧
    (id = 0 ∨ blocks s' ∧ udp_endpoint_2_id_list_ s' !! ep = Some id).
Proof.
  intros Hi Hc Hr Hb Ho. pose proof (v_count s Hi). rewrite kcp_add_udp_endpoint_eq by lia.
  destruct (udp_endpoint_2_id_list_ s !! ep) as [id|] eqn:E.
  { eexists _, _. split; [done|]. split_and!; [done|done|lia|done|]. by right. }
  set (s1 := new_connection junk s ep len (new_block s (count_index s + 1))).
  pose proof (kcp_new_connection_inv junk s ep len (new_block s (count_index s + 1)) Hi Hr E) as Hi1. fold s1 in Hi1.
  destruct (new_block s (count_index s + 1)) as [k|] eqn:Ek.
  2: { cbv zeta. eexists _, _. split; [done|]. split_and!; [done|done|cbn; lia|done|by left]. }
  cbv zeta. pose proof (update_kcp_keeps s1 (count_index s + 1) k t) as Hk.
  set (s2 := snd (update_kcp s1 (count_index s + 1) k t)) in *.
  rewrite (k_open _ _ Hk). unfold s1 at 1. cbn. rewrite Ho. eexists _, _. split; [done|].
  pose proof (kcp_keeps_inv _ _ Hk Hi1) as [Ht2 Hr2 Hd2 Hm2 Hc2 _ _].
  assert (Hcount : count_index s2 = count_index s + 1) by (by rewrite (k_count _ _ Hk)).
  assert (Hrec : receiving s2 = false) by (by rewrite (k_receiving _ _ Hk)).
  split_and!; [|done|cbn; lia|by apply (k_recv _ _ Hk)|].
  - split; try done; [|cbn; by rewrite Hrec]. cbn. rewrite Hcount.
    apply (new_calls_conn s); [done|by rewrite (k_conn _ _ Hk)|lia].
  - right. split.
    { split; [apply (k_owned _ _ Hk), new_connection_owned; [apply Hb|by eexists]|]. intros id Hid. cbn. rewrite connects_app, elem_of_app.
      apply (k_known _ _ Hk) in Hid. cbn in Hid. destruct (decide (count_index s + 1 = id)) as [<-|Hne].
      - right. by apply list_elem_of_singleton.
      - left. rewrite (k_conn _ _ Hk). apply Hb. by rewrite lookup_insert_ne in Hid. }
    change (udp_endpoint_2_id_list_ s2 !! ep = Some (count_index s + 1)).
    unfold s2. rewrite update_kcp_e2i. cbn. by rewrite lookup_insert_eq.
Qed.

Lemma kcp_do_receive_inv s : kcp_inv s → blocks s → kcp_inv (do_receive s).
Proof. intros [] Hb. by split. Qed.

Lemma kcp_call_inv s l : connects l = [] → kcp_inv s → kcp_inv (call s l).
Proof. intros Hl. by apply kcp_keeps_inv, kcp_call_keeps. Qed.

Lemma kcp_set_recv_inv s b : kcp_inv s → wf b → max_buff_size_ b = max_recv_size_ s → kcp_inv (s <| session_recv_buffer_ := b |>).
Proof. intros [] Hb Hm. by split. Qed.

Lemma set_data_inv s b : kcp_inv s → wf b → max_buff_size_ b = max_recv_size_ s → kcp_inv (s <| session_recv_data_buffer_ := b |>).
Proof. intros [] Hb Hm. by split. Qed.

Lemma kcp_call_blocks s l : connects l = [] → blocks s → blocks (call s l).
Proof. intros Hl. by apply k_blocks, kcp_call_keeps. Qed.

(** The parts of a receive: [s'] is as good as [s], and the receive buffer has been emptied when it held
    one datagram. *)
Definition received s s' : Prop :=
  kcp_inv s' ∧ blocks s' ∧ count_index s' = count_index s ∧ contents (session_recv_buffer_ s') = [].

Lemma dispose_ok s id len n time parse : kcp_inv s → blocks s → contents (session_recv_buffer_ s) = [] →
  0 <= len <= max_recv_size_ s → parser_ok parse →
  ∃ s', dispose s id len n time parse = Ok s' ∧ received s s'.
Proof.
  intros Hi Hb He Hlen Hp. unfold dispose. destruct (v_recv s Hi) as (Hwf & Hm). destruct (v_data s Hi) as (Hwfd & Hmd).
  destruct (_ && _).
  - unfold read. rewrite mem_read_ok by (pose proof (wf_len _ Hwf); lia). cbn [obind].
    destruct (move_contents _ len Hwf) as (b & -> & Hb' & Hc' & Hm'); [lia|]. eexists. split; [done|].
    split; [|split; [by apply kcp_call_blocks|split; [done|]]].
    + apply kcp_call_inv; [done|]. apply kcp_set_recv_inv; [done..|congruence].
    + cbn. rewrite Hc', He. by unfold zdrop; rewrite drop_nil.
  - destruct (Hp _ Hwfd) as (ret & b & l & -> & Hcons). cbn [obind]. pose proof Hcons as (Hwb & Hmb & _).
    destruct ret; cbn [negb].
    + eexists. split; [done|]. split; [|split; [by apply kcp_call_blocks|done]]. apply kcp_call_inv; [done|].
      destruct (set_data_inv s b Hi Hwb) as []; [congruence|]. by split.
    + destruct (move_consumes _ b (u64 n) Hcons) as (b' & -> & Hwb' & Hmb' & _); [by apply Z.mod_pos_bound|]. eexists. split; [done|].
      split; [|split; [by apply kcp_call_blocks|done]]. apply kcp_call_inv; [done|]. apply set_data_inv; [done..|congruence].
Qed.

Lemma update_kcp_inv s id k t : kcp_inv s → kcp_inv (snd (update_kcp s id k t)).
Proof. apply kcp_keeps_inv, update_kcp_keeps. Qed.

Lemma receive_segments_ok s ep id time c1 c2 parse k : kcp_inv s → blocks s → parser_ok parse →
  ∃ s', receive_segments s ep id (zlen (contents (session_recv_buffer_ s))) time c1 c2 parse k = Ok s' ∧ received s s'.
Proof.
  intros Hi Hb Hp. unfold receive_segments. destruct (v_recv s Hi) as [Hwf Hm].
  pose proof (contents_len _ Hwf) as Hlen. pose proof (wf_write _ Hwf) as Hw. rewrite Hlen.
  set (len := write_size_ (session_recv_buffer_ s)) in *.
  destruct (update_kcp s id k c1) as [k1 s1] eqn:E1.
  pose proof (update_kcp_keeps s id k c1) as Hk1. rewrite E1 in Hk1. cbn [snd] in Hk1.
  pose proof (kcp_keeps_inv _ _ Hk1 Hi) as Hi1. pose proof (k_blocks _ _ Hk1 Hb) as Hb1. rewrite (k_recv _ _ Hk1).
  unfold read. rewrite mem_read_ok by (pose proof (wf_len _ Hwf); lia). cbn [obind].
  set (k2 := ikcp_input k1 _). destruct (v_data s1 Hi1) as [Hwd Hmd].
  destruct (recv_loop_ok len (S (length (ikcp_pending k2))) k2 (session_recv_data_buffer_ s1) 0 Hwd) as (k3 & d & n & -> & Hd & Hmd');
    [rewrite Hmd, (k_maxr _ _ Hk1); lia|lia|]. cbn [obind].
  set (s2 := set_info _ id _).
  assert (Hi2 : kcp_inv s2).
  { eapply kcp_keeps_inv; [apply set_kcpcb_keeps|]. apply set_data_inv; [done|done|congruence]. }
  assert (Hb2 : blocks s2) by (by apply (k_blocks _ _ (set_kcpcb_keeps _ id k3))).
  change (session_recv_buffer_ s2) with (session_recv_buffer_ s1). rewrite (k_recv _ _ Hk1).
  destruct (move_contents _ len Hwf) as (b & -> & Hwb & Hcb & Hmb); [lia|]. cbn [obind].
  assert (Hempty : contents b = []) by (rewrite Hcb; apply zdrop_all; lia).
  assert (Hmax : max_recv_size_ s2 = max_recv_size_ s) by (apply (k_maxr _ _ Hk1)).
  assert (Hcount : count_index s2 = count_index s) by (apply (k_count _ _ Hk1)).
  pose proof (kcp_set_recv_inv s2 b Hi2 Hwb ltac:(congruence)) as Hi3.
  destruct (n =? 0).
  - eexists. split; [done|]. split_and!; [by apply kcp_do_receive_inv|done|done|done].
  - destruct (dispose_ok (s2 <| session_recv_buffer_ := b |>) id len n time parse Hi3 Hb2 Hempty) as (s4 & -> & Hi4 & Hb4 & Hc4 & He4);
      [change (0 <= len <= max_recv_size_ s2); lia|done|]. cbn [obind].
    assert (Hk5 : keeps s4 (set_kcp_send_info s4 id ep)) by (by split).
    pose proof (update_kcp_keeps (set_kcp_send_info s4 id ep) id k3 c2) as Hk6.
    destruct (update_kcp (set_kcp_send_info s4 id ep) id k3 c2) as [k5 s5]. cbn [snd] in Hk6. assert (Hk : keeps s4 s5) by (etrans; [exact Hk5|exact Hk6]).
    eexists. split; [done|]. split_and!.
    + apply kcp_do_receive_inv; [by eapply kcp_keeps_inv|by apply (k_blocks _ _ Hk)].
    + by apply (k_blocks _ _ Hk).
    + cbn. rewrite (k_count _ _ Hk), Hc4. done.
    + cbn. by rewrite (k_recv _ _ Hk).
Qed.

Lemma send_kcp_id_ok s ep id : kcp_inv s → blocks s →
  ∃ s', send_kcp_id s ep id (zlen (contents (session_recv_buffer_ s))) = Ok s' ∧ received s s'.
Proof.
  intros Hi Hb. unfold send_kcp_id. destruct (v_recv s Hi) as [Hwf Hm].
  destruct (move_contents _ (zlen (contents (session_recv_buffer_ s))) Hwf) as (b & -> & Hwb & Hcb & Hmb); [apply zlen_nonneg|].
  cbn [obind]. set (s1 := s <| session_recv_buffer_ := b |> <| kcp_send_info_ := _ |>).
  assert (Hi1 : kcp_inv s1) by (destruct (kcp_set_recv_inv s b Hi Hwb) as []; [congruence|by split]).
  pose proof (send_io_keeps s1 (le_bytes 4 id) (Some ep)) as Hk1. set (s2 := send_io_data_to_point s1 _ _) in *.
  assert (Hk2 : keeps s2 (set_info s2 id (λ i, i <| udp_state_ := KCP_ID_VALID |>))).
  { apply kcp_set_info_keeps. intros i Hl. pose proof (k_owned _ _ Hk1 (proj1 Hb) id i Hl) as [k Hk].
    split; [done|]. split; [intros (? & ? & ?); split_and!; [done| |done]; cbn; by rewrite Hk|done]. }
  assert (Hk : keeps s1 (set_info s2 id (λ i, i <| udp_state_ := KCP_ID_VALID |>))) by (etrans; [exact Hk1|exact Hk2]).
  eexists. split; [done|]. split_and!.
  - apply kcp_do_receive_inv; [by eapply kcp_keeps_inv|by apply (k_blocks _ _ Hk)].
  - by apply (k_blocks _ _ Hk).
  - apply (k_count _ _ Hk).
  - transitivity (contents (session_recv_buffer_ s1)); [by rewrite <- (k_recv _ _ Hk)|]. cbn. rewrite Hcb. by apply zdrop_all.
Qed.

Lemma do_receive_from_ok junk s ep data time c0 c1 c2 parse : kcp_inv s → contents (session_recv_buffer_ s) = [] →
  count_index s < 2 ^ 32 - 1 → receiving s = false → blocks s → socket_open s = true →
  zlen data <= get_buffer_size (session_recv_buffer_ s) → parser_ok parse →
  ∃ s', do_receive_from address junk s ep data time c0 c1 c2 parse = Ok s' ∧ kcp_inv s' ∧
    contents (session_recv_buffer_ s') = [] ∧ count_index s' <= count_index s + 1.
Proof.
  intros Hi He Hc Hr Hb Ho Hfit Hp. unfold do_receive_from.
  destruct (add_udp_endpoint_ok junk s ep (zlen data) c0 Hi Hc Hr Hb Ho) as (id & s1 & -> & Hi1 & Hr1 & Hc1 & Hrb & Hid).
  cbn [obind]. rewrite <- Hrb in He, Hfit. destruct (id =? 0) eqn:E0; [by eauto|].
  destruct Hid as [->|[Hb1 Hep]]; [done|].
  destruct (find_udp_endpoint_by_id s1 id) as [i|] eqn:Ei.
  2: { eexists. split; [done|]. split_and!; [by apply kcp_do_receive_inv|done..]. }
  destruct (0 <? zlen data) eqn:El.
  2: { eexists. split; [done|]. split_and!; [by apply kcp_do_receive_inv|done..]. }
  apply Z.ltb_lt in El. destruct (get_buffer_size _ =? 0) eqn:Eb; [lia|]. destruct (v_recv s1 Hi1) as [Hwf Hm].
  destruct (recv_into_fits _ data Hwf Hfit) as (b & -> & Hwb & Hcb & Hmb). cbn [obind].
  rewrite He in Hcb. cbn [app] in Hcb. set (s2 := s1 <| session_recv_buffer_ := b |>).
  assert (Hi2 : kcp_inv s2) by (apply kcp_set_recv_inv; [done..|congruence]).
  assert (Hlen : zlen data = zlen (contents (session_recv_buffer_ s2))) by (cbn; by rewrite Hcb).
  assert (Hfin : ∀ r, (∃ s', r = Ok s' ∧ received s2 s') → ∃ s', r = Ok s' ∧ kcp_inv s' ∧
    contents (session_recv_buffer_ s') = [] ∧ count_index s' <= count_index s + 1).
  { intros r (s' & -> & ? & ? & Hcs & ?). exists s'. rewrite Hcs. by split_and!. }
  assert (Hcreate : ∃ c, is_kcp_id_create (read b) (u32 (zlen data)) = Ok c).
  { unfold is_kcp_id_create. destruct (24 <=? u32 (zlen data)); [by eauto|]. pose proof (wf_write _ Hwb). pose proof (wf_len _ Hwb).
    rewrite <- Hcb, contents_len by done. rewrite mem_read_ok; [by eauto|lia|by apply Z.mod_pos_bound|].
    unfold read. assert (u32 (write_size_ b) <= write_size_ b) by (apply Z.mod_le; lia). lia. }
  destruct Hcreate as [create ->]. cbn [obind]. destruct create.
  - apply Hfin. rewrite Hlen. by apply send_kcp_id_ok.
  - destruct (proj1 Hb1 id i Ei) as [k ->]. apply Hfin. rewrite Hlen. by apply receive_segments_ok.
Qed.

(** ** Steps *)

(** What the other components promise: a datagram is received while the socket is open, only known
    connections are closed, the ids have not run out. *)
Definition op_pre s (o : kcp_op endpoint) : Prop :=
  count_index s < 2 ^ 32 - 1 ∧
  match o with
  | KReceive ec _ _ _ _ _ _ parse => parser_ok parse ∧ socket_open s = true
  | KClose c => is_Some (udp_id_2_endpoint_list_ s !! c)
  | _ => True
  end.

Lemma close_inv s c : kcp_inv s → is_Some (udp_id_2_endpoint_list_ s !! c) →
  ∃ s', close address s c = Ok s' ∧ kcp_inv s' ∧ count_index s' = count_index s ∧
    session_recv_buffer_ s' = session_recv_buffer_ s ∧ udp_id_2_endpoint_list_ s' = delete c (udp_id_2_endpoint_list_ s).
Proof.
  intros Hi [i Hc]. unfold close, close_udp_endpoint_by_id. change (find_udp_endpoint_by_id s c) with (udp_id_2_endpoint_list_ s !! c).
  rewrite Hc. eexists. split; [done|]. split; [|done]. apply kcp_call_inv; [done|].
  destruct (kcp_call_inv s [PacketDisconnect c] eq_refl Hi) as [Ht Hr Hd Hm Hco Hcn Hk].
  split; try done; [by apply tables_delete|]. intros Hrc. destruct (Hk Hrc) as [Hw Hrep]. split.
  - intros id i'. cbn. intros [_ Hi']%lookup_delete_Some. by apply (Hw id i').
  - intros id. cbn. rewrite lookup_delete_is_Some. intros [_ Hid]. by apply (Hrep id).
Qed.

Lemma close_list_inv l : ∀ s, kcp_inv s → NoDup l → (∀ c, c ∈ l → is_Some (udp_id_2_endpoint_list_ s !! c)) →
  ∃ s', close_list address s l = Ok s' ∧ kcp_inv s' ∧ count_index s' = count_index s ∧
    session_recv_buffer_ s' = session_recv_buffer_ s.
Proof.
  induction l as [|c l IH]; intros s Hi Hnd Hl; cbn [close_list]; [by eauto 6|].
  apply NoDup_cons in Hnd as [Hc Hnd]. destruct (close_inv s c Hi) as (s1 & -> & Hi1 & Hc1 & Hr1 & Ht1); [apply Hl; by left|].
  cbn [obind]. destruct (IH s1 Hi1 Hnd) as (s2 & -> & ? & ? & ?).
  - intros c' Hc'. rewrite Ht1, lookup_delete_ne by (by intros ->). apply Hl. by right.
  - exists s2. split_and!; [done|done|congruence..].
Qed.

Lemma kcp_write_keeps s c (k : CKcp_Session_Info endpoint kcp → outcome (CKcpServer endpoint kcp)) :
  kcp_inv s → (∀ i, find_udp_endpoint_by_id s c = Some i → info_ok c i → ∃ s', k i = Ok s' ∧ keeps s s') →
  ∃ s', match find_udp_endpoint_by_id s c with None => Ok s | Some i => k i end = Ok s' ∧ keeps s s'.
Proof.
  intros Hi Hk. destruct (find_udp_endpoint_by_id s c) as [i|] eqn:E; [|by exists s].
  apply Hk; [done|]. by apply (t_info _ _ _ _ _ _ (v_tables s Hi) c i).
Qed.

Lemma valid_block c (i : CKcp_Session_Info endpoint kcp) : info_ok c i → udp_state_ i = KCP_ID_VALID → is_Some (kcpcb_ i).
Proof. intros (_ & Hn & _) Hv. destruct (kcpcb_ i); [by eexists|]. by destruct (Hn eq_refl). Qed.

Lemma kcp_step_inv junk s o : kcp_inv s → contents (session_recv_buffer_ s) = [] → op_pre s o →
  ∃ s', kcp_step address junk s o = Ok s' ∧ kcp_inv s' ∧ contents (session_recv_buffer_ s') = [].
Proof.
  intros Hi He [Hc Ho].
  assert (Hkeep : ∀ r : outcome (CKcpServer endpoint kcp), (∃ s', r = Ok s' ∧ keeps s s') →
    ∃ s', r = Ok s' ∧ kcp_inv s' ∧ contents (session_recv_buffer_ s') = []).
  { intros r (s' & -> & Hk). exists s'. split; [done|]. split; [by eapply kcp_keeps_inv|]. by rewrite (k_recv _ _ Hk). }
  destruct o as [ec ep data time c0 c1 c2 parse|c d|c t|c d t|n ec|c| |f t|]; cbn [kcp_step].
  - unfold receive_completes. destruct (receiving s) eqn:Er; cbn [negb]; [|apply Hkeep; by exists s].
    assert (Hi' : kcp_inv (s <| receiving := false |>)) by (by destruct Hi; split).
    destruct ec.
    { eexists. split; [done|]. split; [by apply (kcp_call_inv (s <| receiving := false |>))|done]. }
    edestruct (do_receive_from_ok junk (s <| receiving := false |>)) as (s' & -> & ? & ? & ?); [done..| | | | |by exists s'].
    + by apply (v_kcp s Hi Er).
    + apply Ho.
    + cbn. apply fit_le. apply (v_recv s Hi).
    + apply Ho.
  - apply Hkeep. apply kcp_write_keeps; [done|]. intros i Ei [Hw _].
    destruct (append_send_buffer_ok (session_send_buffer_ i) d Hw) as (b & -> & Hb & _). cbn [obind]. eauto using kcp_set_send_buffer_keeps.
  - apply Hkeep. apply kcp_write_keeps; [done|]. intros i Ei Hok. destruct (take_send_buffer_ok _ (proj1 Hok)) as (b & -> & Hb & _).
    cbn [obind]. destruct (bool_decide_reflect (udp_state_ i = KCP_ID_VALID)) as [Hv|]; [|eauto using kcp_set_send_buffer_keeps].
    destruct (send_kcp_keeps s i c (contents (session_send_buffer_ i)) t (valid_block c i Hok Hv)) as (s1 & -> & Hk). cbn [obind].
    eexists. split; [done|]. etrans; [exact Hk|by apply kcp_set_send_buffer_keeps].
  - apply Hkeep. apply kcp_write_keeps; [done|]. intros i Ei Hok. destruct (clear_write_buffer_ok _ (proj1 Hok)) as (b & Eb & Hb & _).
    destruct (bool_decide_reflect (udp_state_ i = KCP_ID_VALID)) as [Hv|]; cbn [obind].
    + destruct (send_kcp_keeps s i c d t (valid_block c i Hok Hv)) as (s1 & -> & Hk). cbn [obind]. rewrite Eb. cbn [obind].
      eexists. split; [done|]. etrans; [exact Hk|by apply kcp_set_send_buffer_keeps].
    + rewrite Eb. cbn [obind]. eauto using kcp_set_send_buffer_keeps.
  - apply Hkeep. eexists. split; [done|]. unfold send_completes. destruct (in_flight s !! n); [|done].
    destruct ec; [by split|]. etrans; [|apply kcp_set_info_keeps; intros i _; split; [done|split; [by intros []|done]]]. by split.
  - destruct (close_inv s c Hi Ho) as (s' & -> & ? & ? & Hr & _). exists s'. by rewrite Hr.
  - unfold close_all. destruct (close_list_inv (map fst (map_entries (udp_id_2_endpoint_list_ s))) s Hi) as (s' & -> & Hi' & _ & Hr).
    + apply map_entries_keys_NoDup.
    + intros c ([c' i] & -> & Hin)%list_elem_of_fmap. apply elem_of_map_entries in Hin. by eexists.
    + eexists. split; [done|]. split; [by destruct Hi'; split|]. cbn. by rewrite Hr.
  - apply Hkeep. eexists. split; [done|]. unfold set_io_bridge_connect_id. destruct (0 <? t); by split.
  - pose proof (v_count s Hi). rewrite CreateCounter_small by lia. eexists. split; [done|]. split; [|done].
    destruct Hi as [Ht Hr Hd Hm Hco [Hnd Hle] Hk]. split; unfold tables; cbn; try done; [|lia|].
    + apply (tables_count _ _ (count_index s)); [lia|done].
    + split; [done|]. eapply Forall_impl; [exact Hle|]. cbn. intros. lia.
Qed.

End Invariant.

(** ** Reachable states *)

Section Properties.

Context {endpoint kcp : Type} `{Countable endpoint} `{!KCP kcp} (address : endpoint → ClientIPInfo) (junk : nat → Z).
Implicit Types (s : CKcpServer endpoint kcp).

Record start_state s : Prop := {
  st_recv : 0 <= max_recv_size_ s < 2 ^ 63;
  st_send : 0 <= max_send_size_ s < 2 ^ 63;
  st_count : 0 <= count_index s;
  st_started : s = start junk (server_ip_ s) (server_port_ s) (max_recv_size_ s) (max_send_size_ s)
                     (local_endpoint s) (recv_data_time_ s) (count_index s);
}.

Inductive kcp_reachable : CKcpServer endpoint kcp → Prop :=
| reach_start s : start_state s → kcp_reachable s
| reach_step s o s' : kcp_reachable s → op_pre s o → kcp_step address junk s o = Ok s' → kcp_reachable s'.

Lemma kcp_start_inv s : start_state s → kcp_inv s ∧ contents (session_recv_buffer_ s) = [].
Proof.
  intros [Hr Hs Hc ->]. destruct (Init_wf junk (max_recv_size_ s) Hr) as [Hwf He]. split; [|done].
  split; cbn; [apply tables_init|done..|split; constructor|].
  intros _. split; [intros id i; by cbn|]. intros id [i Hid]. by cbn in Hid.
Qed.

Lemma kcp_reachable_inv s : kcp_reachable s → kcp_inv s ∧ contents (session_recv_buffer_ s) = [].
Proof.
  induction 1 as [s Hs|s o s' _ [Hi He] Ho E]; [by apply kcp_start_inv|].
  destruct (kcp_step_inv address junk s o Hi He Ho) as (s2 & E2 & ?). rewrite E in E2. by injection E2 as <-.
Qed.

(** One flush: the first datagram uses up [kcp_send_info_], the others find no connection. *)
Lemma outputs_without_target outs : ∀ s, send_connect_id_ (kcp_send_info_ s) = 0 → foldl kcp_udpOutPut s outs = s.
Proof.
  induction outs as [|d outs IH]; intros s Hs; [done|]. cbn. unfold kcp_udpOutPut, send_io_data_to_point. rewrite Hs. by apply IH.
Qed.

Lemma outputs_sends s d outs : send_connect_id_ (kcp_send_info_ s) ≠ 0 →
  sends (foldl kcp_udpOutPut s (d :: outs)) =
  sends s ++ [mkDatagram (send_connect_id_ (kcp_send_info_ s)) (send_to (kcp_send_info_ s)) d].
Proof.
  intros Hs%Z.eqb_neq. cbn [foldl]. unfold kcp_udpOutPut at 2, send_io_data_to_point. rewrite Hs.
  by rewrite outputs_without_target.
Qed.

(** ** The id negotiation *)

Lemma kcp_key_not_segment : 0 < zlen kcp_key_id_create < 24.
Proof. done. Qed.

Lemma is_kcp_id_create_key b : wf b → contents b = kcp_key_id_create →
  is_kcp_id_create (read b) (u32 (zlen kcp_key_id_create)) = Ok true.
Proof.
  intros Hb Hc. change (u32 (zlen kcp_key_id_create)) with (zlen kcp_key_id_create). unfold is_kcp_id_create.
  change (24 <=? zlen kcp_key_id_create) with false. cbv iota. unfold read.
  pose proof (contents_len b Hb) as Hl. rewrite Hc in Hl. pose proof (wf_write b Hb). pose proof (wf_len b Hb).
  rewrite mem_read_ok by lia. cbn [obind]. change (zdrop 0 (buffer_ b)) with (buffer_ b).
  unfold contents in Hc. rewrite <- Hl in Hc. rewrite Hc. f_equal.
Qed.

Lemma send_kcp_id_sends s ep id len s' : id ≠ 0 → send_kcp_id s ep id len = Ok s' →
  sends s' = sends s ++ [mkDatagram id (Some ep) (le_bytes 4 id)] ∧ receiving s' = true ∧ calls s' = calls s ∧
  udp_endpoint_2_id_list_ s' = udp_endpoint_2_id_list_ s ∧
  udp_id_2_endpoint_list_ s' = alter (λ i, i <| udp_state_ := KCP_ID_VALID |>) id (udp_id_2_endpoint_list_ s).
Proof.
  intros Hid%Z.eqb_neq. unfold send_kcp_id. destruct (move _ _); cbn; [|done]. unfold send_io_data_to_point. cbn. rewrite Hid.
  by intros [= <-].
Qed.

(** A receive that completes with a datagram that fits, up to the part that depends on its contents. *)
Lemma receive_completes_eq s ep data time c0 c1 c2 parse :
  receiving s = true → zlen data <= get_buffer_size (session_recv_buffer_ s) →
  kcp_step address junk s (KReceive false ep data time c0 c1 c2 parse) =
  do_receive_from address junk (s <| receiving := false |>) ep data time c0 c1 c2 parse.
Proof. intros Hr Hd. cbn [kcp_step]. unfold receive_completes. rewrite Hr. cbn [negb]. by rewrite ztake_all. Qed.

Lemma not_receiving_inv s : kcp_inv s → kcp_inv (s <| receiving := false |>).
Proof. intros []. by split. Qed.

(** The connection is there as soon as its control block can be made. *)
Lemma add_udp_endpoint_nonzero s ep len t s' : kcp_inv s → count_index s < 2 ^ 32 - 1 →
  (udp_endpoint_2_id_list_ s !! ep = None → is_Some (ikcp_create (count_index s + 1))) →
  ¬ add_udp_endpoint address junk s ep len (max_send_size_ s) t = Ok (0, s').
Proof.
  intros Hi Hc Hk. pose proof (v_count s Hi). rewrite kcp_add_udp_endpoint_eq by lia.
  destruct (udp_endpoint_2_id_list_ s !! ep) as [id|] eqn:Ee.
  - intros [= -> _]. apply (t_bij _ _ _ _ _ _ (v_tables s Hi)) in Ee as (i & Ei & _).
    apply (t_info _ _ _ _ _ _ (v_tables s Hi)) in Ei as [_ ?]. lia.
  - destruct (Hk eq_refl) as [k Ek]. unfold new_block. rewrite Ek. cbn [fmap option_fmap option_map]. cbv zeta.
    destruct (socket_open _); [|done]. intros [= Hz _]. lia.
Qed.

Lemma negotiation s ep time c0 c1 c2 parse : kcp_inv s → contents (session_recv_buffer_ s) = [] → count_index s < 2 ^ 32 - 1 →
  receiving s = true → socket_open s = true → zlen kcp_key_id_create <= get_buffer_size (session_recv_buffer_ s) →
  (udp_endpoint_2_id_list_ s !! ep = None → is_Some (ikcp_create (count_index s + 1))) →
  ∃ s' id i, kcp_step address junk s (KReceive false ep kcp_key_id_create time c0 c1 c2 parse) = Ok s' ∧ receiving s' = true ∧
    udp_endpoint_2_id_list_ s' !! ep = Some id ∧ udp_id_2_endpoint_list_ s' !! id = Some i ∧ udp_state_ i = KCP_ID_VALID ∧
    0 < id < 2 ^ 32 ∧ last (sends s') = Some (mkDatagram id (Some ep) (le_bytes 4 id)).
Proof.
  intros Hi He Hc Hr Ho Hfit Hk. rewrite receive_completes_eq by done. unfold do_receive_from.
  set (s0 := s <| receiving := false |>). pose proof (not_receiving_inv s Hi) as Hi0. fold s0 in Hi0.
  destruct (add_udp_endpoint_ok address junk s0 ep (zlen kcp_key_id_create) c0 Hi0 Hc eq_refl (v_kcp s Hi Hr) Ho)
    as (id & s1 & Eadd & Hi1 & Hr1 & Hc1 & Hrb & Hid).
  rewrite Eadd. cbn [obind].
  assert (Hid' : udp_endpoint_2_id_list_ s1 !! ep = Some id).
  { destruct Hid as [->|[_ ?]]; [|done]. by destruct (add_udp_endpoint_nonzero _ _ _ _ _ Hi0 Hc Hk Eadd). }
  pose proof Hid' as (i & Ei & Hep)%(t_bij _ _ _ _ _ _ (v_tables s1 Hi1)).
  pose proof (proj2 (t_info _ _ _ _ _ _ (v_tables s1 Hi1) id i Ei)) as Hpos. cbn in Hc1.
  rewrite (proj2 (Z.eqb_neq id 0)) by lia. change (find_udp_endpoint_by_id s1 id) with (udp_id_2_endpoint_list_ s1 !! id). rewrite Ei.
  change (0 <? zlen kcp_key_id_create) with true. cbv iota. rewrite Hrb. change (session_recv_buffer_ s0) with (session_recv_buffer_ s).
  pose proof kcp_key_not_segment. destruct (get_buffer_size _ =? 0) eqn:Eb; [lia|]. destruct (v_recv s Hi) as [Hwf Hm].
  destruct (recv_into_fits _ kcp_key_id_create Hwf Hfit) as (b & -> & Hwb & Hcb & Hmb). cbn [obind].
  rewrite He in Hcb. cbn [app] in Hcb. rewrite is_kcp_id_create_key by done. cbn [obind].
  destruct Hid as [->|[Hb1 _]]; [lia|].
  set (s2 := s1 <| session_recv_buffer_ := b |>).
  destruct (send_kcp_id_ok s2 ep id) as (s3 & E3 & _); [apply kcp_set_recv_inv; [done..|]|done|].
  { etrans; [|apply (v_recv s1 Hi1)]. by rewrite Hrb, Hmb. }
  change (contents (session_recv_buffer_ s2)) with (contents b) in E3. rewrite Hcb in E3. rewrite E3.
  apply send_kcp_id_sends in E3 as (Hs & Hrec & _ & He2i & Hi2e); [|lia].
  eexists s3, id, _. split; [done|]. rewrite Hi2e, He2i, Hs, lookup_alter_eq, last_snoc. cbn. rewrite Ei. by split_and!; try lia.
Qed.

(** ** Messages *)

(** What becomes of the bytes the parser was given. *)
Definition handled (id : Z) (parse : parser_call) (b : CSessionBuffer) : app_call :=
  match parse b with Ok (true, _, l) => AssignationMessages id l | _ => CloseSessionEvent id end.

Lemma kcp_dispose_calls s id len n time parse s' : io_state_ s = SESSION_IO_LOGIC → dispose s id len n time parse = Ok s' →
  calls s' = calls s ++ [handled id parse (session_recv_data_buffer_ s)].
Proof.
  intros Hs. unfold dispose, handled. rewrite Hs. cbn [andb bool_decide]. rewrite bool_decide_eq_false_2 by done. cbn [andb].
  destruct (parse _) as [[[[] b1] l]|]; cbn; [by intros [= <-]| |done]. destruct (move b1 _); cbn; [|done]. by intros [= <-].
Qed.

Lemma outputs_calls outs : ∀ s, calls (foldl kcp_udpOutPut s outs) = calls s ∧ io_state_ (foldl kcp_udpOutPut s outs) = io_state_ s.
Proof.
  induction outs as [|d outs IH]; intros s; [done|]. cbn. destruct (IH (kcp_udpOutPut s d)) as [-> ->].
  unfold kcp_udpOutPut, send_io_data_to_point. by destruct (_ =? 0).
Qed.

Lemma update_kcp_calls s id k t : calls (snd (update_kcp s id k t)) = calls s ∧ io_state_ (snd (update_kcp s id k t)) = io_state_ s ∧
  fst (update_kcp s id k t) = fst (ikcp_update k t).
Proof. unfold update_kcp. destruct (ikcp_update k t) as [k' outs]. cbn. destruct (outputs_calls outs s). done. Qed.

(** Where the datagrams of a connection go: the state of the server, its endpoints, the control block. *)
Definition place s (id : Z) := (io_state_ s, (socket_open s, max_recv_size_ s), udp_endpoint_2_id_list_ s, kcpcb_ <$> udp_id_2_endpoint_list_ s !! id).
Definition place_of s (k : kcp) := (io_state_ s, (socket_open s, max_recv_size_ s), udp_endpoint_2_id_list_ s, Some (Some k)).

Lemma outputs_place outs id : ∀ s, place (foldl kcp_udpOutPut s outs) id = place s id.
Proof.
  induction outs as [|d outs IH]; intros s; [done|]. cbn. rewrite IH. unfold kcp_udpOutPut, send_io_data_to_point. by destruct (_ =? 0).
Qed.

Lemma set_block_place s id k i : kcpcb_ <$> udp_id_2_endpoint_list_ s !! id = Some i →
  place (set_info s id (λ i, i <| kcpcb_ := Some k |>)) id = place_of s k.
Proof. intros Hi. unfold place, place_of. cbn. rewrite lookup_alter_eq. by destruct (udp_id_2_endpoint_list_ s !! id). Qed.

Lemma update_kcp_place s id k t i : kcpcb_ <$> udp_id_2_endpoint_list_ s !! id = Some i →
  place (snd (update_kcp s id k t)) id = place_of s (fst (ikcp_update k t)).
Proof.
  intros Hi. unfold update_kcp. destruct (ikcp_update k t) as [k' outs]. cbn [fst snd]. pose proof (outputs_place outs id s) as E.
  injection E as E1 E2 E2' E3 E4. erewrite set_block_place; [unfold place_of; by rewrite E1, E2, E2', E3|]. by rewrite E4.
Qed.

(** What is in the data buffer [d'] when the parser was given [n] new bytes at the end of [d]. *)
Definition left_over (parse : parser_call) (d : CSessionBuffer) (n : Z) (d' : CSessionBuffer) : Prop :=
  ∀ ret b l, parse d = Ok (ret, b, l) → if ret : bool then d' = b else move b (u64 n) = Ok d'.

Lemma dispose_place s id len n time parse s' id' : io_state_ s = SESSION_IO_LOGIC → dispose s id len n time parse = Ok s' →
  place s' id' = place s id' ∧ left_over parse (session_recv_data_buffer_ s) n (session_recv_data_buffer_ s').
Proof.
  intros Hs. unfold dispose, left_over. rewrite Hs. rewrite bool_decide_eq_false_2 by done. cbn [andb].
  destruct (parse _) as [[[[] b1] l1]|]; cbn; [intros [= <-]; split; [done|by intros ret b l [= <- <- _]]| |done].
  destruct (move b1 _) eqn:E; cbn; [|done]. intros [= <-]. split; [done|]. by intros ret b l [= <- <- _].
Qed.

(** What the control block holds after the segments of a datagram are put in. *)
Definition after_input (k : kcp) (t : Z) (data : list Z) : kcp := ikcp_input (fst (ikcp_update k t)) data.

Lemma receive_segments_calls s ep id time c1 c2 parse k k' d n s' : kcp_inv s → io_state_ s = SESSION_IO_LOGIC →
  let data := contents (session_recv_buffer_ s) in
  let k2 := after_input k c1 data in
  recv_loop (S (length (ikcp_pending k2))) k2 (session_recv_data_buffer_ s) (zlen data) 0 = Ok (k', d, n) → n ≠ 0 →
  receive_segments s ep id (zlen data) time c1 c2 parse k = Ok s' →
  calls s' = calls s ++ [handled id parse d] ∧ receiving s' = true ∧
  (∀ i, kcpcb_ <$> udp_id_2_endpoint_list_ s !! id = Some i → place s' id = place_of s (fst (ikcp_update k' c2))) ∧
  left_over parse d n (session_recv_data_buffer_ s').
Proof.
  intros Hi Hs data k2 Hloop Hn%Z.eqb_neq. unfold receive_segments.
  destruct (update_kcp_calls s id k c1) as (Hc1 & Hs1 & Hf1). pose proof (update_kcp_keeps s id k c1) as Hk1.
  pose proof (update_kcp_place s id k c1) as Hp1.
  destruct (update_kcp s id k c1) as [k1 s1]. cbn [fst snd] in *. rewrite (k_recv _ _ Hk1), (k_data _ _ Hk1).
  destruct (v_recv s Hi) as [Hwf Hm]. pose proof (contents_len _ Hwf) as Hlen. pose proof (wf_write _ Hwf). pose proof (wf_len _ Hwf).
  unfold data at 1. rewrite Hlen. unfold read. rewrite mem_read_ok by lia. cbn [obind].
  change (ztake (write_size_ (session_recv_buffer_ s)) (zdrop 0 (buffer_ (session_recv_buffer_ s)))) with data.
  subst k1. fold (after_input k c1 data). fold k2. rewrite Hloop. cbn [obind].
  destruct (move _ _) as [b|]; cbn [obind]; [|done]. rewrite Hn.
  destruct (dispose _ _ _ _ _ _) as [s4|] eqn:E4; cbn [obind]; [|done].
  apply kcp_dispose_calls in E4 as Hc4; [|by rewrite <- Hs, <- Hs1].
  apply (dispose_place _ _ _ _ _ _ _ id) in E4 as [Hp4 Hd4]; [|by rewrite <- Hs, <- Hs1].
  pose proof (update_kcp_keeps (set_kcp_send_info s4 id ep) id k' c2) as Hk5.
  pose proof (update_kcp_place (set_kcp_send_info s4 id ep) id k' c2) as Hp5.
  destruct (update_kcp_calls (set_kcp_send_info s4 id ep) id k' c2) as (Hc5 & _).
  destruct (update_kcp (set_kcp_send_info s4 id ep) id k' c2) as [k5 s5]. cbn [snd] in Hc5, Hp5, Hk5. intros [= <-]. split_and!; [|done| |].
  - cbn. rewrite Hc5. cbn. rewrite Hc4. cbn. by rewrite Hc1.
  - intros i Hi'. specialize (Hp1 i Hi'). injection Hp1 as P1 P2 P2' P3 P4.
    assert (Hp2 : place s4 id = place_of s k').
    { rewrite Hp4. etrans; [by apply (set_block_place _ id k' (Some (fst (ikcp_update k c1))))|]. unfold place_of. cbn. by rewrite P1, P2, P2', P3. }
    injection Hp2 as Q1 Q2 Q2' Q3 Q4. specialize (Hp5 (Some k') Q4). injection Hp5 as R1 R2 R2' R3 R4. unfold place, place_of. cbn in *.
    by rewrite R1, R2, R2', R3, R4, Q1, Q2, Q2', Q3.
  - change (left_over parse d n (session_recv_data_buffer_ s5)). rewrite (k_data _ _ Hk5). exact Hd4.
Qed.

(** The bytes of a buffer after each message was written at its start, and how many are counted. *)
Definition overwrite (mem m : list Z) : list Z := m ++ zdrop (zlen m) mem.
Definition total (ms : list (list Z)) : Z := zlen (concat ms).

Lemma overwrites_len len ms : ∀ mem, Forall (λ m, zlen m <= len) ms → len <= zlen mem → zlen (foldl overwrite mem ms) = zlen mem.
Proof.
  induction ms as [|m ms IH]; intros mem Hms Hlen; [done|]. apply Forall_cons in Hms as [Hm Hms]. cbn. pose proof (zlen_nonneg m).
  assert (Ho : zlen (overwrite mem m) = zlen mem) by (unfold overwrite; rewrite zlen_app, zlen_zdrop; lia).
  rewrite IH; [done|done|lia].
Qed.

(** The control block after [n] calls of [ikcp_recv]. *)
Fixpoint recv_blocks (n : nat) (k : kcp) (len : Z) : kcp :=
  match n with O => k | S n => recv_blocks n (snd (ikcp_recv k len)) len end.

Lemma recv_loop_messages len ms : ∀ (k : kcp) b acc, wf b → ikcp_pending k = ms → Forall (λ m, zlen m <= len) ms →
  0 <= len <= max_buff_size_ b → write_size_ b + total ms <= max_buff_size_ b → 0 <= acc → acc + total ms < 2 ^ 31 →
  recv_loop (S (length (ikcp_pending k))) k b len acc =
    Ok (recv_blocks (S (length ms)) k len, mkSessionBuffer (foldl overwrite (buffer_ b) ms) (write_size_ b + total ms) (max_buff_size_ b), acc + total ms).
Proof.
  induction ms as [|m ms IH]; intros k b acc Hb Hp Hms Hlen Hfit Hacc Hi; rewrite Hp; cbn [recv_loop length].
  { pose proof (ikcp_recv_empty k len (proj1 Hlen) Hp) as Hn. cbn [recv_blocks]. destruct (ikcp_recv k len) as [r k']. cbn in Hn. subst r.
    unfold total, zlen in *. cbn. rewrite !Z.add_0_r. by destruct b. }
  apply Forall_cons in Hms as [Hm Hms]. destruct (ikcp_recv_message k len m ms Hp Hm) as [Hr Hp'].
  cbn [recv_blocks length]. destruct (ikcp_recv k len) as [r k']. cbn [fst snd] in Hr, Hp' |- *. subst r.
  assert (Ht : total (m :: ms) = zlen m + total ms) by (unfold total; cbn; by rewrite zlen_app). rewrite Ht in *.
  pose proof (zlen_nonneg m). pose proof (zlen_nonneg (concat ms)) as Hc0. fold (total ms) in Hc0. pose proof (wf_len b Hb). pose proof (wf_write b Hb). pose proof (wf_max b Hb).
  unfold read, mem_write. rewrite (proj2 (Z.leb_le 0 0)), (proj2 (Z.leb_le (0 + zlen m) _)) by lia. cbn [andb obind].
  change (ztake 0 (buffer_ b) ++ m ++ zdrop (0 + zlen m) (buffer_ b)) with (overwrite (buffer_ b) m).
  assert (Hol : zlen (overwrite (buffer_ b) m) = max_buff_size_ b) by (unfold overwrite; rewrite zlen_app, zlen_zdrop; lia).
  rewrite set_write_data_wf by (try split; cbn; lia). destruct (_ <? _) eqn:Ew; [cbn in Ew; lia|]. cbn [snd write_size_ max_buff_size_ buffer_].
  rewrite i32_small by lia.
  opose proof* (IH k' (mkSessionBuffer (overwrite (buffer_ b) m) (write_size_ b + zlen m) (max_buff_size_ b)) (acc + zlen m)) as E; [split; cbn; lia|done|done|done|cbn; lia|lia|lia|].
  rewrite Hp' in E. cbn [buffer_ write_size_ max_buff_size_] in E. etrans; [exact E|]. cbn [foldl]. by rewrite <- !Z.add_assoc.
Qed.

Lemma is_kcp_id_create_other b : wf b → contents b ≠ kcp_key_id_create →
  is_kcp_id_create (read b) (u32 (zlen (contents b))) = Ok false ∨ 2 ^ 32 <= zlen (contents b).
Proof.
  intros Hb Hne. pose proof (zlen_nonneg (contents b)). destruct (decide (2 ^ 32 <= zlen (contents b))); [by right|left].
  rewrite u32_small by lia. unfold is_kcp_id_create. destruct (24 <=? _); [done|]. unfold read.
  pose proof (contents_len b Hb) as Hl. pose proof (wf_write b Hb). pose proof (wf_len b Hb). rewrite mem_read_ok by lia. cbn [obind].
  rewrite Hl. change (ztake (write_size_ b) (zdrop 0 (buffer_ b))) with (contents b).
  rewrite (bool_decide_eq_false_2 (_ = contents b)) by (by intros E). by rewrite andb_false_r.
Qed.

(** A connection that is ready to receive from [ep] without a bridge. *)
Record listening s ep (id : Z) (k : kcp) : Prop := {
  l_receiving : receiving s = true;
  l_open : socket_open s = true;
  l_logic : io_state_ s = SESSION_IO_LOGIC;
  l_id : udp_endpoint_2_id_list_ s !! ep = Some id;
  l_block : kcpcb_ <$> udp_id_2_endpoint_list_ s !! id = Some (Some k);
}.

Lemma messages_handled s ep id k data time c0 c1 c2 parse ms : kcp_inv s → contents (session_recv_buffer_ s) = [] →
  count_index s < 2 ^ 32 - 1 → listening s ep id k → parser_ok parse → data ≠ kcp_key_id_create →
  0 < zlen data <= get_buffer_size (session_recv_buffer_ s) → zlen data < 2 ^ 32 →
  ikcp_pending (after_input k c1 data) = ms → Forall (λ m, zlen m <= zlen data) ms → 0 < total ms < 2 ^ 31 →
  write_size_ (session_recv_data_buffer_ s) + total ms <= max_recv_size_ s →
  ∃ s', kcp_step address junk s (KReceive false ep data time c0 c1 c2 parse) = Ok s' ∧ receiving s' = true ∧
    let d := mkSessionBuffer (foldl overwrite (buffer_ (session_recv_data_buffer_ s)) ms)
      (write_size_ (session_recv_data_buffer_ s) + total ms) (max_recv_size_ s) in
    calls s' = calls s ++ [handled id parse d] ∧ count_index s' = count_index s ∧ max_recv_size_ s' = max_recv_size_ s ∧
    listening s' ep id (fst (ikcp_update (recv_blocks (S (length ms)) (after_input k c1 data) (zlen data)) c2)) ∧
    left_over parse d (total ms) (session_recv_data_buffer_ s').
Proof.
  intros Hi He Hc [Hr Ho Hl Hid Hk] Hp Hkey Hd Hd32 Hms Hall Ht Hfit. rewrite receive_completes_eq by (done || lia). unfold do_receive_from.
  pose proof (v_count s Hi). rewrite kcp_add_udp_endpoint_eq by (cbn; lia).
  set (s0 := s <| receiving := false |>). pose proof (not_receiving_inv s Hi) as Hi0. fold s0 in Hi0.
  change (udp_endpoint_2_id_list_ s0 !! ep) with (udp_endpoint_2_id_list_ s !! ep). rewrite Hid. cbn [obind].
  destruct (udp_id_2_endpoint_list_ s !! id) as [i|] eqn:Ei; [|done]. injection Hk as Hk.
  pose proof (proj2 (t_info _ _ _ _ _ _ (v_tables s Hi) id i Ei)). rewrite (proj2 (Z.eqb_neq id 0)) by lia.
  change (find_udp_endpoint_by_id s0 id) with (udp_id_2_endpoint_list_ s !! id). rewrite Ei, (proj2 (Z.ltb_lt 0 _)) by lia.
  change (session_recv_buffer_ s0) with (session_recv_buffer_ s). destruct (get_buffer_size _ =? 0) eqn:Eb; [lia|].
  destruct (v_recv s Hi) as [Hwf Hm]. destruct (recv_into_fits _ data Hwf (proj2 Hd)) as (b & -> & Hwb & Hcb & Hmb). cbn [obind].
  rewrite He in Hcb. cbn [app] in Hcb.
  destruct (is_kcp_id_create_other b Hwb) as [Hf|?]; [by rewrite Hcb| |rewrite Hcb in *; lia]. rewrite Hcb in Hf. rewrite Hf. cbn [obind]. rewrite Hk.
  set (s1 := s0 <| session_recv_buffer_ := b |>). assert (Hi1 : kcp_inv s1) by (apply kcp_set_recv_inv; [done..|by rewrite Hmb]).
  destruct (receive_segments_ok s1 ep id time c1 c2 parse k Hi1 (v_kcp s Hi Hr) Hp) as (s' & E & Hrc).
  destruct (v_data s Hi) as [Hwd Hmd].
  opose proof* (recv_loop_messages (zlen data) ms (after_input k c1 data) (session_recv_data_buffer_ s) 0) as Eloop;
    [done|done|done|rewrite Hmd; pose proof (wf_write _ Hwb); pose proof (contents_len b Hwb); rewrite Hcb in *; lia|lia|lia|lia|].
  change (contents (session_recv_buffer_ s1)) with (contents b) in E. rewrite Hcb in E.
  edestruct (receive_segments_calls s1 ep id time c1 c2 parse k) as (Hcalls & Hrec & Hplace & Hleft); [done|done| | |..].
  - cbn. rewrite Hcb. exact Eloop.
  - lia.
  - cbn. rewrite Hcb. exact E.
  - exists s'. split; [done|]. split; [done|]. rewrite Hmd in Hcalls, Hleft. specialize (Hplace (kcpcb_ i) ltac:(cbn; by rewrite Ei)).
    injection Hplace as P1 P2 P2' P3 P4. split_and!; [done|apply Hrc|by rewrite P2'| |done].
    split; [done|..]; [by rewrite P2|by rewrite P1|by rewrite P3|done].
Qed.

End Properties.

(** ** A protocol for the examples

    Every byte put in is a message of its own, except after 255, where the rest is one message; every
    byte sent is a datagram of its own. *)

Record demo_kcp := mkDemo { in_queue : list (list Z); out_queue : list (list Z) }.

Definition demo_recv (k : demo_kcp) (len : Z) : option (list Z) * demo_kcp :=
  match in_queue k with
  | m :: ms => if zlen m <=? len then (Some m, mkDemo ms (out_queue k)) else (None, k)
  | [] => (None, k)
  end.

#[local] Instance demo_KCP : KCP demo_kcp.
Proof.
  refine {|
    ikcp_create _ := Some (mkDemo [] []);
    ikcp_nodelay k _ _ _ _ := k;
    ikcp_wndsize k _ _ := k;
    ikcp_update k _ := (mkDemo (in_queue k) [], out_queue k);
    ikcp_input k data := mkDemo (in_queue k ++ match data with 255 :: m => [m] | _ => map (λ b, [b]) data end) (out_queue k);
    ikcp_send k data := (0, mkDemo (in_queue k) (out_queue k ++ map (λ b, [b]) data));
    ikcp_recv := demo_recv;
    ikcp_pending := in_queue;
  |}; unfold demo_recv.
  - by intros k len _ ->.
  - intros k len m ms -> [_ Hlen]. by rewrite (proj2 (Z.leb_gt _ _)).
  - intros k len m ms -> Hlen. by rewrite (proj2 (Z.leb_le _ _)).
Defined.

Definition demo_parse : parser_call := λ b,
  let* b' := move b (get_write_size b) in Ok (true, b', [mkPacket [] (contents b) 0]).

Lemma kcp_demo_parse_ok : parser_ok demo_parse.
Proof.
  intros b Hb. unfold demo_parse, get_write_size. pose proof (wf_write b Hb).
  destruct (move_consumes b b (write_size_ b) (consumes_refl b Hb)) as (b' & -> & ?); [lia|]. cbn. eauto 6.
Qed.

Definition demo_address (ep : nat) : ClientIPInfo := mkClientIPInfo "10.0.0.1" (Z.of_nat ep).
Definition demo_junk : nat → Z := λ _, 0.
Definition demo_start : CKcpServer nat demo_kcp := start demo_junk "127.0.0.1" 10005 64 64 ClientIPInfo_default 0 0.
Definition demo_receive (ep : nat) (data : list Z) : kcp_op nat := KReceive false ep data 1 2 3 4 demo_parse.

Definition demo_after (s : CKcpServer nat demo_kcp) (o : kcp_op nat) : CKcpServer nat demo_kcp :=
  match kcp_step demo_address demo_junk s o with Ok s => s | Fault => s end.

(** A peer that has asked for an id. *)
Definition demo_connected : CKcpServer nat demo_kcp := demo_after demo_start (demo_receive 7 kcp_key_id_create).

Definition demo_info : CKcp_Session_Info nat demo_kcp :=
  mkKcpInfo 7%nat 17 0 (Init demo_junk 64) KCP_ID_VALID 1 (Some (mkDemo [] [])).

Lemma demo_start_reachable : kcp_reachable demo_address demo_junk demo_start.
Proof. apply reach_start. split; [cbn; lia..|reflexivity]. Qed.

Lemma demo_connected_reachable : kcp_reachable demo_address demo_junk demo_connected.
Proof.
  apply (reach_step _ _ demo_start (demo_receive 7 kcp_key_id_create)).
  - exact demo_start_reachable.
  - split; [reflexivity|]. split; [exact kcp_demo_parse_ok|reflexivity].
  - vm_compute. reflexivity.
Qed.

(** ** Theorems *)

(** C15: the tables of the KCP server stay consistent.  The states are those that datagrams, writes, send
    completions in any order, bridge changes, connections of other sessions and closes lead to from a
    started server with buffers of less than 2^63 bytes, under the conditions of [op_pre]: fewer than
    2^32 connection ids have been taken, a datagram arrives while the socket is open, the parser called
    for it keeps its contract ([parser_ok]: it returns and takes bytes from the front of the buffer),
    and [close] is asked only for connections of the table (for another one the code dereferences a null
    pointer: [kcp_double_close_faults]).  In such a state the next such operation succeeds without leaving
    its buffers; the two tables are inverse to each other; both receive buffers are well formed and
    the one of the socket is empty; no connection is reported to the work threads twice; each has
    its connection id as its KCP id; and while the server
    receives, every connection of the tables was reported and has a control block (one whose block could not
    be made is entered unreported, and the server then stops receiving). *)
Theorem kcp_connections_consistent {endpoint kcp} `{Countable endpoint} `{!KCP kcp} (address : endpoint → ClientIPInfo) junk
    (s : CKcpServer endpoint kcp) :
  kcp_reachable address junk s →
  (∀ o, op_pre s o → ∃ s', kcp_step address junk s o = Ok s') ∧
  (∀ ep id, udp_endpoint_2_id_list_ s !! ep = Some id ↔
     ∃ i, udp_id_2_endpoint_list_ s !! id = Some i ∧ send_endpoint i = ep) ∧
  wf (session_recv_buffer_ s) ∧ wf (session_recv_data_buffer_ s) ∧ contents (session_recv_buffer_ s) = [] ∧
  NoDup (connects (calls s)) ∧
  (∀ id i, udp_id_2_endpoint_list_ s !! id = Some i → kcp_id_ i = id) ∧
  (receiving s = true → ∀ id i, udp_id_2_endpoint_list_ s !! id = Some i → is_Some (kcpcb_ i) ∧ id ∈ connects (calls s)).
Proof.
  intros Hr. destruct (kcp_reachable_inv address junk s Hr) as [Hi He]. split.
  - intros o Ho. destruct (kcp_step_inv address junk s o Hi He Ho) as (s' & E & _). by exists s'.
  - split; [apply (t_bij _ _ _ _ _ _ (v_tables s Hi))|]. split; [apply (v_recv s Hi)|]. split; [apply (v_data s Hi)|].
    split; [done|]. split; [apply (v_conn s Hi)|].
    split; [intros id i Ei; apply (t_info _ _ _ _ _ _ (v_tables s Hi) id i Ei)|]. intros Hrc id i Ei. destruct (v_kcp s Hi Hrc) as [Hb Hrep].
    split; [by apply (Hb id i)|]. apply Hrep. by exists i.
Qed.

Lemma kcp_connections_consistent_witness :
  (∃ s', kcp_step demo_address demo_junk demo_connected (demo_receive 8 [255; 1]) = Ok s') ∧
  udp_endpoint_2_id_list_ demo_connected !! 7%nat = Some 1 ∧ connects (calls demo_connected) = [1] ∧
  NoDup (connects (calls demo_connected)).
Proof.
  destruct (kcp_connections_consistent demo_address demo_junk demo_connected demo_connected_reachable) as (H1 & H2 & _ & _ & _ & H4 & _).
  split; [apply H1; split; [reflexivity|split; [exact kcp_demo_parse_ok|reflexivity]]|].
  split; [vm_compute; reflexivity|]. split; [vm_compute; reflexivity|exact H4].
Defined.

(** The negotiation of a KCP id.  In every reachable state with a pending receive, a peer that sends
    the text "kcp key id create" has a connection in the state [KCP_ID_VALID] afterwards, the last
    datagram sent is addressed to that peer and its four bytes are the id of the connection. *)
Theorem kcp_id_negotiation {endpoint kcp} `{Countable endpoint} `{!KCP kcp} (address : endpoint → ClientIPInfo) junk
    (s : CKcpServer endpoint kcp) ep time c0 c1 c2 parse :
  kcp_reachable address junk s → count_index s < 2 ^ 32 - 1 → receiving s = true → socket_open s = true →
  zlen kcp_key_id_create <= get_buffer_size (session_recv_buffer_ s) → (∀ id, is_Some (ikcp_create id)) →
  ∃ s' id i d, kcp_step address junk s (KReceive false ep kcp_key_id_create time c0 c1 c2 parse) = Ok s' ∧ receiving s' = true ∧
    udp_endpoint_2_id_list_ s' !! ep = Some id ∧ udp_id_2_endpoint_list_ s' !! id = Some i ∧ udp_state_ i = KCP_ID_VALID ∧
    last (sends s') = Some d ∧ d_endpoint d = Some ep ∧ zlen (d_data d) = 4 ∧ le_val (d_data d) = id.
Proof.
  intros Hr Hc Hrec Ho Hfit Hk. destruct (kcp_reachable_inv address junk s Hr) as [Hi He].
  destruct (negotiation address junk s ep time c0 c1 c2 parse Hi He Hc Hrec Ho Hfit (λ _, Hk _))
    as (s' & id & i & E & ? & ? & ? & ? & Hid & Hlast).
  eexists s', id, i, _. rewrite Hlast. split_and!; try done. cbn [d_data]. rewrite le_val_le_bytes. apply Z.mod_small. lia.
Qed.

Lemma kcp_id_negotiation_witness :
  ∃ s' id i d, kcp_step demo_address demo_junk demo_connected (demo_receive 8 kcp_key_id_create) = Ok s' ∧ receiving s' = true ∧
    udp_endpoint_2_id_list_ s' !! 8%nat = Some id ∧ udp_id_2_endpoint_list_ s' !! id = Some i ∧ udp_state_ i = KCP_ID_VALID ∧
    last (sends s') = Some d ∧ d_endpoint d = Some 8%nat ∧ zlen (d_data d) = 4 ∧ le_val (d_data d) = id.
Proof.
  apply (kcp_id_negotiation demo_address demo_junk demo_connected 8%nat 1 2 3 4 demo_parse demo_connected_reachable).
  - reflexivity.
  - reflexivity.
  - reflexivity.
  - vm_compute. discriminate.
  - intros id. by eexists.
Defined.

(** The messages of a datagram that completes one message. *)
Lemma message_delivered {endpoint kcp} `{Countable endpoint} `{!KCP kcp} (address : endpoint → ClientIPInfo) junk
    (s : CKcpServer endpoint kcp) ep id k data time c0 c1 c2 parse m :
  kcp_reachable address junk s → count_index s < 2 ^ 32 - 1 → listening s ep id k → parser_ok parse →
  data ≠ kcp_key_id_create → zlen data <= get_buffer_size (session_recv_buffer_ s) → zlen data < 2 ^ 31 →
  contents (session_recv_data_buffer_ s) = [] →
  ikcp_pending (after_input k c1 data) = [m] → 0 < zlen m <= zlen data →
  ∃ s' b, kcp_step address junk s (KReceive false ep data time c0 c1 c2 parse) = Ok s' ∧ receiving s' = true ∧
    contents b = m ∧ calls s' = calls s ++ [handled id parse b].
Proof.
  intros Hr Hc Hl Hp Hkey Hfit H31 Hd Hms Hm. destruct (kcp_reachable_inv address junk s Hr) as [Hi He].
  assert (Ht : total [m] = zlen m) by (unfold total; cbn; by rewrite app_nil_r).
  destruct (v_recv s Hi) as [Hwf Hmr]. destruct (v_data s Hi) as [Hwd Hmd]. pose proof (contents_len _ Hwd) as Hlen. rewrite Hd in Hlen.
  rewrite get_buffer_size_wf in Hfit by done. pose proof (wf_write _ Hwf).
  destruct (messages_handled address junk s ep id k data time c0 c1 c2 parse [m] Hi He Hc Hl Hp Hkey) as (s' & E & Hrec & Hcalls & _);
    [rewrite get_buffer_size_wf by done; lia|lia|done|apply Forall_singleton; lia|lia|unfold zlen in *; cbn in *; lia|].
  eexists s', _. split; [done|]. split; [done|]. split; [|done]. unfold contents. cbn. rewrite <- Hlen, Ht. apply ztake_app_eq.
  by rewrite Z.add_0_l.
Qed.

(** A single KCP message reaches the parser.  When the segments of a datagram complete one message
    no longer than the datagram, the data buffer was empty and there is no bridge, then the parser gets
    exactly the bytes of the message, its packets go to the work threads under the id of the
    connection, and the next receive is pending. *)
Theorem kcp_message_delivered {endpoint kcp} `{Countable endpoint} `{!KCP kcp} (address : endpoint → ClientIPInfo) junk
    (s : CKcpServer endpoint kcp) ep id k data time c0 c1 c2 parse m :
  kcp_reachable address junk s → count_index s < 2 ^ 32 - 1 → listening s ep id k → parser_ok parse →
  data ≠ kcp_key_id_create → zlen data <= get_buffer_size (session_recv_buffer_ s) → zlen data < 2 ^ 31 →
  contents (session_recv_data_buffer_ s) = [] →
  ikcp_pending (after_input k c1 data) = [m] → 0 < zlen m <= zlen data →
  ∃ s' b, kcp_step address junk s (KReceive false ep data time c0 c1 c2 parse) = Ok s' ∧ receiving s' = true ∧
    contents b = m ∧ calls s' = calls s ++ [handled id parse b].
Proof. apply message_delivered. Qed.

Lemma kcp_message_delivered_witness :
  ∃ s' b, kcp_step demo_address demo_junk demo_connected (demo_receive 7 [255; 1; 2; 3]) = Ok s' ∧ receiving s' = true ∧
    contents b = [1; 2; 3] ∧ calls s' = calls demo_connected ++ [handled 1 demo_parse b].
Proof.
  apply (kcp_message_delivered demo_address demo_junk demo_connected 7%nat 1 (mkDemo [] []) [255; 1; 2; 3] 1 2 3 4 demo_parse [1; 2; 3]
    demo_connected_reachable).
  - reflexivity.
  - split; reflexivity.
  - exact kcp_demo_parse_ok.
  - discriminate.
  - vm_compute. discriminate.
  - reflexivity.
  - reflexivity.
  - reflexivity.
  - by vm_compute.
Defined.

(** Messages overwrite each other and what the parser left.  Each message is written at the start of
    the data buffer, but all are counted: when a datagram completes the messages [ms] and then [m], the
    bytes the parser gets are as many as were left in the buffer and all of them have, and begin with [m], the last. *)
Theorem kcp_messages_overwrite {endpoint kcp} `{Countable endpoint} `{!KCP kcp} (address : endpoint → ClientIPInfo) junk
    (s : CKcpServer endpoint kcp) ep id k data time c0 c1 c2 parse ms m :
  kcp_reachable address junk s → count_index s < 2 ^ 32 - 1 → listening s ep id k → parser_ok parse →
  data ≠ kcp_key_id_create → 0 < zlen data <= get_buffer_size (session_recv_buffer_ s) → zlen data < 2 ^ 31 →
  ikcp_pending (after_input k c1 data) = ms ++ [m] → Forall (λ m, zlen m <= zlen data) (ms ++ [m]) →
  0 < total (ms ++ [m]) < 2 ^ 31 → zlen (contents (session_recv_data_buffer_ s)) + total (ms ++ [m]) <= max_recv_size_ s →
  ∃ s' b, kcp_step address junk s (KReceive false ep data time c0 c1 c2 parse) = Ok s' ∧
    zlen (contents b) = zlen (contents (session_recv_data_buffer_ s)) + total (ms ++ [m]) ∧ ztake (zlen m) (contents b) = m ∧ calls s' = calls s ++ [handled id parse b].
Proof.
  intros Hr Hc Hl Hp Hkey Hfit H31 Hms Hall Ht Hmax. destruct (kcp_reachable_inv address junk s Hr) as [Hi He].
  destruct (v_data s Hi) as [Hwd Hmd]. pose proof (contents_len _ Hwd) as Hlen.
  destruct (messages_handled address junk s ep id k data time c0 c1 c2 parse (ms ++ [m]) Hi He Hc Hl Hp Hkey Hfit)
    as (s' & E & Hrec & Hcalls & _); [lia|done|done|done|lia|].
  assert (Hlast : zlen m <= total (ms ++ [m])).
  { unfold total. rewrite concat_app, zlen_app. cbn. rewrite app_nil_r. pose proof (zlen_nonneg (concat ms)). lia. }
  pose proof (zlen_nonneg m). pose proof (wf_len _ Hwd). destruct (v_recv s Hi) as [Hwf Hmr]. pose proof (wf_write _ Hwf).
  rewrite get_buffer_size_wf, He in Hfit by done. change (zlen (@nil Z)) with 0 in Hfit.
  pose proof (zlen_nonneg (contents (session_recv_data_buffer_ s))) as Hn0. rewrite <- Hlen in Hcalls.
  set (n := zlen (contents (session_recv_data_buffer_ s))) in *. clearbody n.
  eexists s', _. split; [done|]. rewrite Hcalls. split_and!; [| |done]; unfold contents; cbn [buffer_ write_size_].
  - rewrite zlen_ztake; [done|]. rewrite (overwrites_len (zlen data)) by (done || lia). lia.
  - rewrite ztake_ztake, foldl_snoc by lia. by apply ztake_app_eq.
Qed.

(** Three messages of one byte: the parser gets the last one and two bytes that nobody sent. *)
Lemma kcp_messages_overwrite_witness :
  ∃ s' b, kcp_step demo_address demo_junk demo_connected (demo_receive 7 [1; 2; 3]) = Ok s' ∧
    zlen (contents b) = 3 ∧ ztake 1 (contents b) = [3] ∧ calls s' = calls demo_connected ++ [handled 1 demo_parse b] ∧
    last (calls s') = Some (AssignationMessages 1 [mkPacket [] [3; 0; 0] 0]).
Proof.
  destruct (kcp_messages_overwrite demo_address demo_junk demo_connected 7%nat 1 (mkDemo [] []) [1; 2; 3] 1 2 3 4 demo_parse [[1]; [2]] [3]
    demo_connected_reachable) as (s' & b & E & H1 & H2 & H3).
  - reflexivity.
  - split; reflexivity.
  - exact kcp_demo_parse_ok.
  - discriminate.
  - by vm_compute.
  - reflexivity.
  - reflexivity.
  - repeat constructor; vm_compute; discriminate.
  - split; reflexivity.
  - vm_compute. discriminate.
  - exists s', b. split; [exact E|]. split; [exact H1|]. split; [exact H2|]. split; [exact H3|].
    vm_compute in E. injection E as <-. reflexivity.
Defined.

(** A flush sends one datagram.  Writing to a connection hands the data to its control block; of the
    datagrams the block then puts out, the first goes to the connection's endpoint and the others are
    not sent. *)
Theorem kcp_flush_sends_first {endpoint kcp} `{Countable endpoint} `{!KCP kcp} (s : CKcpServer endpoint kcp) c
    (i : CKcp_Session_Info endpoint kcp) k data t d outs s' :
  kcpcb_ i = Some k → c ≠ 0 → snd (ikcp_update (snd (ikcp_send k data)) t) = d :: outs →
  send_kcp s i c data t = Ok s' →
  sends s' = sends s ++ [mkDatagram c (Some (send_endpoint i)) d].
Proof.
  intros Hk Hc Hout. unfold send_kcp. rewrite Hk. destruct (ikcp_send k data) as [r k1]. cbn [snd] in *. unfold update_kcp.
  destruct (ikcp_update k1 t) as [k2 outs2]. cbn [snd] in *. subst outs2. intros [= <-]. unfold set_info.
  change (sends (foldl kcp_udpOutPut (set_kcp_send_info s c (send_endpoint i)) (d :: outs)) =
    sends s ++ [mkDatagram c (Some (send_endpoint i)) d]).
  by rewrite outputs_sends.
Qed.

(** Three datagrams are put out, one is sent. *)
Lemma kcp_flush_sends_first_witness :
  ∃ s', udp_id_2_endpoint_list_ demo_connected !! 1 = Some demo_info ∧ send_kcp demo_connected demo_info 1 [4; 5; 6] 9 = Ok s' ∧
    sends s' = sends demo_connected ++ [mkDatagram 1 (Some 7%nat) [4]].
Proof.
  destruct (send_kcp demo_connected demo_info 1 [4; 5; 6] 9) as [s'|] eqn:E; [|discriminate].
  exists s'. split; [vm_compute; reflexivity|]. split; [reflexivity|].
  exact (kcp_flush_sends_first demo_connected 1 demo_info (mkDemo [] []) [4; 5; 6] 9 [4] [[5]; [6]] s' eq_refl ltac:(discriminate) eq_refl E).
Defined.

(** Closing a connection twice faults: the second close uses the control block of a connection that
    is no longer in the table. *)
Theorem kcp_double_close_faults {endpoint kcp} `{Countable endpoint} `{!KCP kcp} (address : endpoint → ClientIPInfo) junk
    (s : CKcpServer endpoint kcp) c :
  kcp_run address junk s [KClose c; KClose c] = Fault.
Proof.
  cbn [kcp_run kcp_step]. unfold close at 1. unfold find_udp_endpoint_by_id at 1.
  destruct (udp_id_2_endpoint_list_ s !! c) as [i|] eqn:E; [|done]. cbn [obind].
  unfold close, close_udp_endpoint_by_id, find_udp_endpoint_by_id. rewrite E. cbn. by rewrite lookup_delete_eq.
Qed.
