(* ===== verification/Ikcp.v ===== *)
(** * The KCP protocol (src/third_include/kcp/ikcp.{h,c})

    A control block [ikcpcb] turns messages into numbered segments of at most [mss] bytes, sends and resends
    them in datagrams of at most [mtu] bytes until they are acknowledged, and puts the segments it receives
    back in order.  Every function of the protocol is here, at the widths of the source: sequence numbers and
    times are 32-bit numbers that wrap, compared by [itimediff].

    The queues of the source are lists; a segment is its header and its data, whose length is [seg->len].
    The buffer in which [ikcp_flush] builds a datagram has [(mtu + 24) * 3] bytes, the destination of
    [ikcp_recv] [room] bytes: a write beyond them is a [Fault].  What the output callback is given is the
    list of datagrams that a function returns.  The log is left out, allocations succeed, signed overflow
    wraps, and a few fields that the source never reads are left out too. *)

From Stdlib Require Import ZArith Lia.
From S2P Require Import Prelude.
From stdpp Require Import base numbers list.
Local Open Scope Z_scope.
Local Open Scope mach_scope.

Definition IKCP_RTO_NDL : Z := 30.
Definition IKCP_RTO_MIN : Z := 100.
Definition IKCP_RTO_DEF : Z := 200.
Definition IKCP_RTO_MAX : Z := 60000.
Definition IKCP_CMD_PUSH : Z := 81.
Definition IKCP_CMD_ACK : Z := 82.
Definition IKCP_CMD_WASK : Z := 83.
Definition IKCP_CMD_WINS : Z := 84.
Definition IKCP_ASK_SEND : Z := 1.
Definition IKCP_ASK_TELL : Z := 2.
Definition IKCP_WND_SND : Z := 32.
Definition IKCP_WND_RCV : Z := 128.
Definition IKCP_MTU_DEF : Z := 1400.
Definition IKCP_INTERVAL : Z := 100.
Definition IKCP_OVERHEAD : Z := 24.
Definition IKCP_DEADLINK : Z := 20.
Definition IKCP_THRESH_INIT : Z := 2.
Definition IKCP_THRESH_MIN : Z := 2.
Definition IKCP_PROBE_INIT : Z := 7000.
Definition IKCP_PROBE_LIMIT : Z := 120000.
Definition IKCP_FASTACK_LIMIT : Z := 5.

(** ** Numbers *)

Definition imin (a b : Z) : Z := if a <=? b then a else b.
Definition imax (a b : Z) : Z := if b <=? a then a else b.
Definition ibound (lower middle upper : Z) : Z := imin (imax lower middle) upper.
Definition itimediff (later earlier : Z) : Z := i32 (later - earlier).

(** [ikcp_encode8u] ... [ikcp_encode32u] append to what has been written, [ikcp_decode8u] ... read and advance. *)
Definition encode8u (c : Z) : list Z := le_bytes 1 c.
Definition encode16u (w : Z) : list Z := le_bytes 2 w.
Definition encode32u (l : Z) : list Z := le_bytes 4 l.
Definition decode (n : Z) (p : list Z) : outcome (Z * list Z) := let* b := mem_read p 0 n in Ok (le_val b, zdrop n p).
Definition decode8u (p : list Z) : outcome (Z * list Z) := decode 1 p.
Definition decode16u (p : list Z) : outcome (Z * list Z) := decode 2 p.
Definition decode32u (p : list Z) : outcome (Z * list Z) := decode 4 p.

(** ** Segments and control blocks *)

Record IKCPSEG := mkSeg {
  seg_conv : Z;                            (* all IUINT32 *)
  seg_cmd : Z;
  seg_frg : Z;
  seg_wnd : Z;
  seg_ts : Z;
  seg_sn : Z;
  seg_una : Z;
  seg_resendts : Z;
  seg_rto : Z;
  seg_fastack : Z;
  seg_xmit : Z;
  seg_data : list Z;
}.
Definition seg_len (seg : IKCPSEG) : Z := zlen (seg_data seg).

Record ikcpcb := mkKcpcb {
  conv : Z; mtu : Z; mss : Z; state : Z;                               (* IUINT32 *)
  snd_una : Z; snd_nxt : Z; rcv_nxt : Z;                               (* IUINT32 *)
  ssthresh : Z;                                                        (* IUINT32 *)
  rx_rttval : Z; rx_srtt : Z; rx_rto : Z; rx_minrto : Z;               (* IINT32 *)
  snd_wnd : Z; rcv_wnd : Z; rmt_wnd : Z; cwnd : Z; probe : Z;          (* IUINT32 *)
  current : Z; interval : Z; ts_flush : Z; xmit : Z;                   (* IUINT32 *)
  nrcv_buf : Z; nsnd_buf : Z; nrcv_que : Z; nsnd_que : Z;              (* IUINT32 *)
  nodelay : Z; updated : bool;
  ts_probe : Z; probe_wait : Z;                                        (* IUINT32 *)
  dead_link : Z; incr : Z;                                             (* IUINT32 *)
  snd_queue : list IKCPSEG; rcv_queue : list IKCPSEG; snd_buf : list IKCPSEG; rcv_buf : list IKCPSEG;
  acklist : list (Z * Z);                                              (* sn and ts of the [ackcount] entries *)
  ackblock : Z;                                                        (* entries there is room for *)
  fastresend : Z; fastlimit : Z; nocwnd : Z; stream : Z;               (* int *)
}.

Definition ikcp_create (c : Z) : ikcpcb :=
  {| conv := c; mtu := IKCP_MTU_DEF; mss := IKCP_MTU_DEF - IKCP_OVERHEAD; state := 0;
     snd_una := 0; snd_nxt := 0; rcv_nxt := 0; ssthresh := IKCP_THRESH_INIT;
     rx_rttval := 0; rx_srtt := 0; rx_rto := IKCP_RTO_DEF; rx_minrto := IKCP_RTO_MIN;
     snd_wnd := IKCP_WND_SND; rcv_wnd := IKCP_WND_RCV; rmt_wnd := IKCP_WND_RCV; cwnd := 0; probe := 0;
     current := 0; interval := IKCP_INTERVAL; ts_flush := IKCP_INTERVAL; xmit := 0;
     nrcv_buf := 0; nsnd_buf := 0; nrcv_que := 0; nsnd_que := 0; nodelay := 0; updated := false;
     ts_probe := 0; probe_wait := 0; dead_link := IKCP_DEADLINK; incr := 0;
     snd_queue := []; rcv_queue := []; snd_buf := []; rcv_buf := []; acklist := []; ackblock := 0;
     fastresend := 0; fastlimit := IKCP_FASTACK_LIMIT; nocwnd := 0; stream := 0 |}.

Implicit Types (k : ikcpcb) (seg : IKCPSEG).

(** ** Receiving messages *)

Fixpoint peek_loop (l : list IKCPSEG) (length : Z) : Z :=
  match l with
  | [] => length
  | seg :: l =>
      let length := i32 (length + seg_len seg) in
      if seg_frg seg =? 0 then length else peek_loop l length
  end.

Definition ikcp_peeksize k : Z :=
  match rcv_queue k with
  | [] => -1
  | seg :: _ =>
      if seg_frg seg =? 0 then i32 (seg_len seg)
      else if nrcv_que k <? seg_frg seg +u32 1 then -1
      else peek_loop (rcv_queue k) 0
  end.

(** The segments of a message are copied one after the other to a destination of [room] bytes; the
    bytes copied, the rest of the queue and the number of segments. *)
Fixpoint merge_loop (room : Z) (l : list IKCPSEG) (buffer : list Z) (n : Z) : outcome (list Z * list IKCPSEG * Z) :=
  match l with
  | [] => Ok (buffer, [], n)
  | seg :: l =>
      if room <? zlen buffer + seg_len seg then Fault
      else
        let buffer := buffer ++ seg_data seg in
        if seg_frg seg =? 0 then Ok (buffer, l, n + 1) else merge_loop room l buffer (n + 1)
  end.

(** Segments that are next in order go from [rcv_buf] to [rcv_queue] while this has room. *)
Fixpoint move_ready (buf : list IKCPSEG) k : ikcpcb :=
  match buf with
  | [] => k <| rcv_buf := [] |>
  | seg :: rest =>
      if (seg_sn seg =? rcv_nxt k) && (nrcv_que k <? rcv_wnd k)
      then move_ready rest (k <| nrcv_buf := u32 (nrcv_buf k - 1) |> <| rcv_queue := rcv_queue k ++ [seg] |>
                              <| nrcv_que := nrcv_que k +u32 1 |> <| rcv_nxt := rcv_nxt k +u32 1 |>)
      else k <| rcv_buf := buf |>
  end.

(** The result and what was written to the destination. *)
Definition ikcp_recv k (len room : Z) : outcome (Z * list Z * ikcpcb) :=
  let ispeek := len <? 0 in
  match rcv_queue k with
  | [] => Ok (-1, [], k)
  | _ =>
      let len := if len <? 0 then i32 (- len) else len in
      let peeksize := ikcp_peeksize k in
      if peeksize <? 0 then Ok (-2, [], k)
      else if len <? peeksize then Ok (-3, [], k)
      else
        let recover := rcv_wnd k <=? nrcv_que k in
        let* '(buffer, rest, n) := merge_loop room (rcv_queue k) [] 0 in
        let k := if ispeek then k else k <| rcv_queue := rest |> <| nrcv_que := u32 (nrcv_que k - n) |> in
        let k := move_ready (rcv_buf k) k in
        let k := if (nrcv_que k <? rcv_wnd k) && recover then k <| probe := Z.lor (probe k) IKCP_ASK_TELL |> else k in
        Ok (i32 (zlen buffer), buffer, k)
  end.

(** ** Sending messages *)

(** A segment as [ikcp_send] makes it; the other fields are set when it is first sent. *)
Definition new_segment (frg : Z) (data : list Z) : IKCPSEG := mkSeg 0 0 frg 0 0 0 0 0 0 0 0 data.

(** The remaining [count] fragments. *)
Fixpoint send_loop (count : nat) k (buffer : list Z) : ikcpcb :=
  match count with
  | O => k
  | S i =>
      let size := if mss k <? zlen buffer then mss k else zlen buffer in
      let seg := new_segment (if stream k =? 0 then Z.of_nat i else 0) (ztake size buffer) in
      send_loop i (k <| snd_queue := snd_queue k ++ [seg] |> <| nsnd_que := nsnd_que k +u32 1 |>) (zdrop size buffer)
  end.

(** In stream mode the last waiting segment is filled up first. *)
Definition extend_last k (buffer : list Z) : ikcpcb * list Z :=
  match last (snd_queue k) with
  | Some old =>
      if seg_len old <? mss k then
        let capacity := mss k - seg_len old in
        let extend := if zlen buffer <? capacity then zlen buffer else capacity in
        let seg := new_segment 0 (seg_data old ++ ztake extend buffer) in
        (k <| snd_queue := removelast (snd_queue k) ++ [seg] |>, zdrop extend buffer)
      else (k, buffer)
  | None => (k, buffer)
  end.

Definition ikcp_send k (buffer : list Z) : Z * ikcpcb :=
  let '(k, buffer) := if stream k =? 0 then (k, buffer) else extend_last k buffer in
  if negb (stream k =? 0) && (zlen buffer <=? 0) then (0, k)
  else
    let count := if zlen buffer <=? mss k then 1 else u32 (zlen buffer + mss k - 1) / mss k in
    if IKCP_WND_RCV <=? count then (-2, k)
    else
      let count := if count =? 0 then 1 else count in
      (0, send_loop (Z.to_nat count) k buffer).

(** ** Acknowledgements *)

Definition ikcp_update_ack k (rtt : Z) : ikcpcb :=
  let k :=
    if rx_srtt k =? 0 then k <| rx_srtt := rtt |> <| rx_rttval := Z.quot rtt 2 |>
    else
      let delta := Z.abs (i32 (rtt - rx_srtt k)) in
      let k := k <| rx_rttval := i32 (Z.quot (i32 (3 * rx_rttval k) + delta) 4) |> in
      let k := k <| rx_srtt := Z.quot (i32 (i32 (7 * rx_srtt k) + rtt)) 8 |> in
      if rx_srtt k <? 1 then k <| rx_srtt := 1 |> else k in
  let rto := i32 (rx_srtt k + imax (interval k) (u32 (i32 (4 * rx_rttval k)))) in
  k <| rx_rto := ibound (u32 (rx_minrto k)) (u32 rto) IKCP_RTO_MAX |>.

Definition ikcp_shrink_buf k : ikcpcb :=
  match snd_buf k with
  | seg :: _ => k <| snd_una := seg_sn seg |>
  | [] => k <| snd_una := snd_nxt k |>
  end.

(** Without the segment [sn]; whether it was found. *)
Fixpoint ack_loop (sn : Z) (l : list IKCPSEG) : bool * list IKCPSEG :=
  match l with
  | [] => (false, [])
  | seg :: l =>
      if sn =? seg_sn seg then (true, l)
      else if itimediff sn (seg_sn seg) <? 0 then (false, seg :: l)
      else let '(found, l) := ack_loop sn l in (found, seg :: l)
  end.

Definition in_flight_sn k (sn : Z) : bool := negb ((itimediff sn (snd_una k) <? 0) || (0 <=? itimediff sn (snd_nxt k))).

Definition ikcp_parse_ack k (sn : Z) : ikcpcb :=
  if in_flight_sn k sn then
    let '(found, l) := ack_loop sn (snd_buf k) in
    let k := k <| snd_buf := l |> in
    if found : bool then k <| nsnd_buf := u32 (nsnd_buf k - 1) |> else k
  else k.

Fixpoint una_loop (una : Z) (l : list IKCPSEG) k : ikcpcb :=
  match l with
  | [] => k <| snd_buf := [] |>
  | seg :: rest =>
      if 0 <? itimediff una (seg_sn seg) then una_loop una rest (k <| nsnd_buf := u32 (nsnd_buf k - 1) |>)
      else k <| snd_buf := l |>
  end.
Definition ikcp_parse_una k (una : Z) : ikcpcb := una_loop una (snd_buf k) k.

Fixpoint fastack_loop (sn : Z) (l : list IKCPSEG) : list IKCPSEG :=
  match l with
  | [] => []
  | seg :: rest =>
      if itimediff sn (seg_sn seg) <? 0 then l
      else (if negb (sn =? seg_sn seg) then seg <| seg_fastack := seg_fastack seg +u32 1 |> else seg) :: fastack_loop sn rest
  end.
Definition ikcp_parse_fastack k (sn : Z) : ikcpcb :=
  if in_flight_sn k sn then k <| snd_buf := fastack_loop sn (snd_buf k) |> else k.

(** The list of acknowledgements grows by doubling; 28 rounds reach every size that can be allocated. *)
Fixpoint grow (fuel : nat) (newblock newsize : Z) : Z :=
  match fuel with
  | O => newblock
  | S fuel => if newblock <? newsize then grow fuel (u32 (newblock * 2)) newsize else newblock
  end.
Definition ikcp_ack_push k (sn ts : Z) : outcome ikcpcb :=
  let newsize := u32 (zlen (acklist k) + 1) in
  let k := if ackblock k <? newsize then k <| ackblock := grow 28 8 newsize |> else k in
  if ackblock k <=? zlen (acklist k) then Fault else Ok (k <| acklist := acklist k ++ [(sn, ts)] |>).

(** ** Input *)

(** [rcv_buf] is searched from its end, here from the head of the reversed list; [None] when the
    segment is there already. *)
Fixpoint insert_back (r : list IKCPSEG) (newseg : IKCPSEG) : option (list IKCPSEG) :=
  match r with
  | [] => Some [newseg]
  | seg :: r' =>
      if seg_sn seg =? seg_sn newseg then None
      else if 0 <? itimediff (seg_sn newseg) (seg_sn seg) then Some (newseg :: r)
      else cons seg <$> insert_back r' newseg
  end.

Definition in_window k (sn : Z) : bool :=
  negb ((0 <=? itimediff sn (rcv_nxt k +u32 rcv_wnd k)) || (itimediff sn (rcv_nxt k) <? 0)).

Definition ikcp_parse_data k (newseg : IKCPSEG) : ikcpcb :=
  if in_window k (seg_sn newseg) then
    let k := match insert_back (rev (rcv_buf k)) newseg with
             | Some r => k <| rcv_buf := rev r |> <| nrcv_buf := nrcv_buf k +u32 1 |>
             | None => k
             end in
    move_ready (rcv_buf k) k
  else k.

(** The header of a segment and the data after it. *)
Record header := mkHeader {
  h_conv : Z; h_cmd : Z; h_frg : Z; h_wnd : Z; h_ts : Z; h_sn : Z; h_una : Z; h_len : Z;
}.

Definition decode_header (data : list Z) : outcome (header * list Z) :=
  let* '(c, data) := decode32u data in
  let* '(cmd, data) := decode8u data in
  let* '(frg, data) := decode8u data in
  let* '(wnd, data) := decode16u data in
  let* '(ts, data) := decode32u data in
  let* '(sn, data) := decode32u data in
  let* '(una, data) := decode32u data in
  let* '(len, data) := decode32u data in
  Ok (mkHeader c cmd frg wnd ts sn una len, data).

(** The largest sequence number that was acknowledged so far, if any. *)
Definition input_ack k (h : header) (maxack : option Z) : ikcpcb * option Z :=
  let k := if 0 <=? itimediff (current k) (h_ts h) then ikcp_update_ack k (itimediff (current k) (h_ts h)) else k in
  let k := ikcp_shrink_buf (ikcp_parse_ack k (h_sn h)) in
  (k, match maxack with
      | None => Some (h_sn h)
      | Some m => if 0 <? itimediff (h_sn h) m then Some (h_sn h) else Some m
      end).

Definition input_push k (h : header) (data : list Z) : outcome ikcpcb :=
  if itimediff (h_sn h) (rcv_nxt k +u32 rcv_wnd k) <? 0 then
    let* k := ikcp_ack_push k (h_sn h) (h_ts h) in
    if 0 <=? itimediff (h_sn h) (rcv_nxt k) then
      let* d := mem_read data 0 (h_len h) in
      Ok (ikcp_parse_data k (mkSeg (h_conv h) (h_cmd h) (h_frg h) (h_wnd h) (h_ts h) (h_sn h) (h_una h) 0 0 0 0 d))
    else Ok k
  else Ok k.

(** One segment: an error code, or the state and the largest acknowledgement. *)
Definition input_segment k (h : header) (data : list Z) (maxack : option Z) : outcome (Z + ikcpcb * option Z) :=
  if (zlen data <? h_len h) || (i32 (h_len h) <? 0) then Ok (inl (-2))
  else if negb ((h_cmd h =? IKCP_CMD_PUSH) || (h_cmd h =? IKCP_CMD_ACK) || (h_cmd h =? IKCP_CMD_WASK) || (h_cmd h =? IKCP_CMD_WINS))
  then Ok (inl (-3))
  else
    let k := ikcp_shrink_buf (ikcp_parse_una (k <| rmt_wnd := h_wnd h |>) (h_una h)) in
    if h_cmd h =? IKCP_CMD_ACK then Ok (inr (input_ack k h maxack))
    else if h_cmd h =? IKCP_CMD_PUSH then let* k := input_push k h data in Ok (inr (k, maxack))
    else if h_cmd h =? IKCP_CMD_WASK then Ok (inr (k <| probe := Z.lor (probe k) IKCP_ASK_TELL |>, maxack))
    else Ok (inr (k, maxack)).

(** The congestion window after new acknowledgements. *)
Definition open_cwnd k : ikcpcb :=
  if cwnd k <? rmt_wnd k then
    let k :=
      if cwnd k <? ssthresh k then k <| cwnd := cwnd k +u32 1 |> <| incr := incr k +u32 mss k |>
      else
        let k := if incr k <? mss k then k <| incr := mss k |> else k in
        let k := k <| incr := incr k +u32 (u32 (mss k * mss k) / incr k + mss k / 16) |> in
        if u32 ((cwnd k + 1) * mss k) <=? incr k
        then k <| cwnd := u32 (incr k + mss k - 1) / (if 0 <? mss k then mss k else 1) |> else k in
    if rmt_wnd k <? cwnd k then k <| cwnd := rmt_wnd k |> <| incr := u32 (rmt_wnd k * mss k) |> else k
  else k.

Definition input_end k (prev_una : Z) (maxack : option Z) : ikcpcb :=
  let k := match maxack with Some m => ikcp_parse_fastack k m | None => k end in
  if 0 <? itimediff (snd_una k) prev_una then open_cwnd k else k.

(** The segments of a datagram; each takes at least the bytes of its header. *)
Fixpoint input_loop (fuel : nat) k (prev_una : Z) (maxack : option Z) (data : list Z) : outcome (Z * ikcpcb) :=
  if zlen data <? IKCP_OVERHEAD then Ok (0, input_end k prev_una maxack)
  else
    match fuel with
    | O => Fault
    | S fuel =>
        let* '(c, _) := decode32u data in
        if negb (c =? conv k) then Ok (-1, k)
        else
          let* '(h, data) := decode_header data in
          let* r := input_segment k h data maxack in
          match r with
          | inl error => Ok (error, k)
          | inr (k, maxack) => input_loop fuel k prev_una maxack (zdrop (h_len h) data)
          end
    end.

Definition ikcp_input k (data : list Z) : outcome (Z * ikcpcb) :=
  if i32 (zlen data) <? IKCP_OVERHEAD then Ok (-1, k) else input_loop (length data) k (snd_una k) None data.

(** ** Flush *)

Definition ikcp_encode_seg (s : IKCPSEG) (len : Z) : list Z :=
  encode32u (seg_conv s) ++ encode8u (seg_cmd s) ++ encode8u (seg_frg s) ++ encode16u (seg_wnd s) ++
  encode32u (seg_ts s) ++ encode32u (seg_sn s) ++ encode32u (seg_una s) ++ encode32u len.

Definition ikcp_wnd_unused k : Z := if nrcv_que k <? rcv_wnd k then i32 (rcv_wnd k - nrcv_que k) else 0.

(** The datagram under construction ([buffer] up to [ptr]) and those given to the output callback. *)
Record output := mkOutput { ptr : list Z; datagrams : list (list Z) }.

(** [ikcp_output]: nothing is sent when there is nothing to send. *)
Definition ikcp_output (o : output) : output :=
  mkOutput [] (match ptr o with [] => datagrams o | p => datagrams o ++ [p] end).

(** Room for [need] bytes within the [mtu], and the bytes. *)
Definition make_room k (o : output) (need : Z) : output := if mtu k <? i32 (zlen (ptr o) + need) then ikcp_output o else o.
Definition put k (o : output) (bytes : list Z) : outcome output :=
  if u32 (u32 (mtu k + IKCP_OVERHEAD) * 3) <? zlen (ptr o) + zlen bytes then Fault
  else Ok (mkOutput (ptr o ++ bytes) (datagrams o)).
Definition put_header k (o : output) (s : IKCPSEG) : outcome output :=
  put k (make_room k o IKCP_OVERHEAD) (ikcp_encode_seg s 0).

(** The acknowledgements; the last one stays in [seg]. *)
Fixpoint flush_acks k (acks : list (Z * Z)) (seg : IKCPSEG) (o : output) : outcome (IKCPSEG * output) :=
  match acks with
  | [] => Ok (seg, o)
  | (sn, ts) :: acks =>
      let seg := seg <| seg_sn := sn |> <| seg_ts := ts |> in
      let* o := put_header k o seg in
      flush_acks k acks seg o
  end.

(** Probing a remote window of size 0. *)
Definition probe_window k : ikcpcb :=
  if rmt_wnd k =? 0 then
    if probe_wait k =? 0 then k <| probe_wait := IKCP_PROBE_INIT |> <| ts_probe := current k +u32 IKCP_PROBE_INIT |>
    else if 0 <=? itimediff (current k) (ts_probe k) then
      let wait := if probe_wait k <? IKCP_PROBE_INIT then IKCP_PROBE_INIT else probe_wait k in
      let wait := wait +u32 wait / 2 in
      let wait := if IKCP_PROBE_LIMIT <? wait then IKCP_PROBE_LIMIT else wait in
      k <| probe_wait := wait |> <| ts_probe := current k +u32 wait |> <| probe := Z.lor (probe k) IKCP_ASK_SEND |>
    else k
  else k <| ts_probe := 0 |> <| probe_wait := 0 |>.

Definition asked k (mask : Z) : bool := negb (Z.land (probe k) mask =? 0).
Definition flush_probe k (mask cmd : Z) (seg : IKCPSEG) (o : output) : outcome (IKCPSEG * output) :=
  if asked k mask then
    let seg := seg <| seg_cmd := cmd |> in
    let* o := put_header k o seg in Ok (seg, o)
  else Ok (seg, o).

(** New segments enter the window. *)
Fixpoint fill_window (queue : list IKCPSEG) k (window wnd : Z) : ikcpcb :=
  match queue with
  | [] => k <| snd_queue := [] |>
  | newseg :: rest =>
      if itimediff (snd_nxt k) (snd_una k +u32 window) <? 0 then
        let newseg := mkSeg (conv k) IKCP_CMD_PUSH (seg_frg newseg) wnd (current k) (snd_nxt k) (rcv_nxt k) (current k) (rx_rto k) 0 0
                        (seg_data newseg) in
        fill_window rest (k <| snd_buf := snd_buf k ++ [newseg] |> <| nsnd_que := u32 (nsnd_que k - 1) |>
                            <| nsnd_buf := nsnd_buf k +u32 1 |> <| snd_nxt := snd_nxt k +u32 1 |>) window wnd
      else k <| snd_queue := queue |>
  end.

(** Why a segment is sent. *)
Inductive sending := First | Timeout | Fast | NotNow.

Definition when_to_send k (resent : Z) (s : IKCPSEG) : sending :=
  if seg_xmit s =? 0 then First
  else if 0 <=? itimediff (current k) (seg_resendts s) then Timeout
  else if (resent <=? seg_fastack s) && ((i32 (seg_xmit s) <=? fastlimit k) || (fastlimit k <=? 0)) then Fast
  else NotNow.

Definition sent_segment k (rtomin wnd : Z) (w : sending) (s : IKCPSEG) : IKCPSEG :=
  let s :=
    match w with
    | First => s <| seg_xmit := seg_xmit s +u32 1 |> <| seg_rto := u32 (rx_rto k) |>
                 <| seg_resendts := current k +u32 u32 (rx_rto k) +u32 rtomin |>
    | Timeout =>
        let rto :=
          if nodelay k =? 0 then seg_rto s +u32 imax (seg_rto s) (u32 (rx_rto k))
          else seg_rto s +u32 Z.quot (if nodelay k <? 2 then i32 (seg_rto s) else rx_rto k) 2 in
        s <| seg_xmit := seg_xmit s +u32 1 |> <| seg_rto := rto |> <| seg_resendts := current k +u32 rto |>
    | Fast => s <| seg_xmit := seg_xmit s +u32 1 |> <| seg_fastack := 0 |> <| seg_resendts := current k +u32 seg_rto s |>
    | NotNow => s
    end in
  match w with
  | NotNow => s
  | _ => s <| seg_ts := current k |> <| seg_wnd := wnd |> <| seg_una := rcv_nxt k |>
  end.

(** The segments of [snd_buf]: the segments afterwards, and whether one was lost or resent early. *)
Record flushed := mkFlushed { f_kcp : ikcpcb; f_change : Z; f_lost : bool; f_out : output }.

Fixpoint flush_data (l : list IKCPSEG) (resent rtomin wnd : Z) (f : flushed) : outcome (list IKCPSEG * flushed) :=
  match l with
  | [] => Ok ([], f)
  | s :: l =>
      let k := f_kcp f in
      let w := when_to_send k resent s in
      let s := sent_segment k rtomin wnd w s in
      let* f :=
        match w with
        | NotNow => Ok f
        | _ =>
            let k := match w with Timeout => k <| xmit := xmit k +u32 1 |> | _ => k end in
            let* o := put k (make_room k (f_out f) (IKCP_OVERHEAD + seg_len s)) (ikcp_encode_seg s (seg_len s) ++ seg_data s) in
            let k := if dead_link k <=? seg_xmit s then k <| state := u32 (-1) |> else k in
            Ok (mkFlushed k (match w with Fast => f_change f + 1 | _ => f_change f end)
                  (match w with Timeout => true | _ => f_lost f end) o)
        end in
      let* '(l, f) := flush_data l resent rtomin wnd f in
      Ok (s :: l, f)
  end.

(** The congestion window after a flush. *)
Definition update_cwnd k (change lost : bool) (window resent : Z) : ikcpcb :=
  let k :=
    if change then
      let ss := u32 (snd_nxt k - snd_una k) / 2 in
      let ss := if ss <? IKCP_THRESH_MIN then IKCP_THRESH_MIN else ss in
      k <| ssthresh := ss |> <| cwnd := ss +u32 resent |> <| incr := u32 ((ss +u32 resent) * mss k) |>
    else k in
  let k :=
    if lost then
      let ss := window / 2 in
      let ss := if ss <? IKCP_THRESH_MIN then IKCP_THRESH_MIN else ss in
      k <| ssthresh := ss |> <| cwnd := 1 |> <| incr := mss k |>
    else k in
  if cwnd k <? 1 then k <| cwnd := 1 |> <| incr := mss k |> else k.

Definition flush_window k : Z :=
  let window := imin (snd_wnd k) (rmt_wnd k) in
  if nocwnd k =? 0 then imin (cwnd k) window else window.

Definition ikcp_flush k : outcome (ikcpcb * list (list Z)) :=
  if negb (updated k) then Ok (k, [])
  else
    let wnd := ikcp_wnd_unused k in
    let seg := mkSeg (conv k) IKCP_CMD_ACK 0 wnd 0 0 (rcv_nxt k) 0 0 0 0 [] in
    let* '(seg, o) := flush_acks k (acklist k) seg (mkOutput [] []) in
    let k := probe_window (k <| acklist := [] |>) in
    let* '(seg, o) := flush_probe k IKCP_ASK_SEND IKCP_CMD_WASK seg o in
    let* '(seg, o) := flush_probe k IKCP_ASK_TELL IKCP_CMD_WINS seg o in
    let k := k <| probe := 0 |> in
    let window := flush_window k in
    let k := fill_window (snd_queue k) k window wnd in
    let resent := if 0 <? fastresend k then fastresend k else 4294967295 in
    let rtomin := if nodelay k =? 0 then Z.shiftr (rx_rto k) 3 else 0 in
    let* '(l, f) := flush_data (snd_buf k) resent rtomin wnd (mkFlushed k 0 false o) in
    let k := f_kcp f <| snd_buf := l |> in
    let o := ikcp_output (f_out f) in
    Ok (update_cwnd k (negb (f_change f =? 0)) (f_lost f) window resent, datagrams o).

(** ** Time *)

Definition ikcp_update k (now : Z) : outcome (ikcpcb * list (list Z)) :=
  let k := k <| current := now |> in
  let k := if updated k then k else k <| updated := true |> <| ts_flush := current k |> in
  let slap := itimediff (current k) (ts_flush k) in
  let '(k, slap) := if (10000 <=? slap) || (slap <? 0) then (k <| ts_flush := current k |>, 0) else (k, slap) in
  if 0 <=? slap then
    let k := k <| ts_flush := ts_flush k +u32 interval k |> in
    let k := if 0 <=? itimediff (current k) (ts_flush k) then k <| ts_flush := current k +u32 interval k |> else k in
    ikcp_flush k
  else Ok (k, []).

(** The time until the first segment is to be resent, [None] when one is due. *)
Fixpoint check_loop (l : list IKCPSEG) (now tm_packet : Z) : option Z :=
  match l with
  | [] => Some tm_packet
  | seg :: l =>
      let diff := itimediff (seg_resendts seg) now in
      if diff <=? 0 then None else check_loop l now (if diff <? tm_packet then diff else tm_packet)
  end.

Definition ikcp_check k (now : Z) : Z :=
  if negb (updated k) then now
  else
    let ts := if (10000 <=? itimediff now (ts_flush k)) || (itimediff now (ts_flush k) <? -10000) then now else ts_flush k in
    if 0 <=? itimediff now ts then now
    else
      let tm_flush := itimediff ts now in
      match check_loop (snd_buf k) now 2147483647 with
      | None => now
      | Some tm_packet =>
          let minimal := u32 (if tm_packet <? tm_flush then tm_packet else tm_flush) in
          now +u32 (if interval k <=? minimal then interval k else minimal)
      end.

(** ** Settings *)

Definition ikcp_setmtu k (m : Z) : Z * ikcpcb :=
  if (m <? 50) || (m <? IKCP_OVERHEAD) then (-1, k) else (0, k <| mtu := m |> <| mss := m - IKCP_OVERHEAD |>).

Definition bound_interval (n : Z) : Z := if 5000 <? n then 5000 else if n <? 10 then 10 else n.
Definition ikcp_interval k (n : Z) : ikcpcb := k <| interval := bound_interval n |>.

Definition ikcp_nodelay k (nd n resend nc : Z) : ikcpcb :=
  let k := if 0 <=? nd then k <| nodelay := nd |> <| rx_minrto := if nd =? 0 then IKCP_RTO_MIN else IKCP_RTO_NDL |> else k in
  let k := if 0 <=? n then k <| interval := bound_interval n |> else k in
  let k := if 0 <=? resend then k <| fastresend := resend |> else k in
  if 0 <=? nc then k <| nocwnd := nc |> else k.

Definition ikcp_wndsize k (sndwnd rcvwnd : Z) : ikcpcb :=
  let k := if 0 <? sndwnd then k <| snd_wnd := sndwnd |> else k in
  if 0 <? rcvwnd then k <| rcv_wnd := imax rcvwnd IKCP_WND_RCV |> else k.

Definition ikcp_waitsnd k : Z := i32 (nsnd_buf k + nsnd_que k).
Definition ikcp_getconv (data : list Z) : outcome Z := let* '(c, _) := decode32u data in Ok c.
