(* ===== verification/IkcpFacts.v ===== *)
(** * Properties of one KCP control block

    Headers are read back as they were written; a well-formed control block stays well formed under every
    operation and every datagram, whatever its bytes; no operation reads or writes outside its buffers, and
    no datagram is longer than the [mtu]. *)

From Stdlib Require Import ZArith Lia.
From S2P Require Import Prelude Ikcp.
From stdpp Require Import base numbers list sorting.
Local Open Scope Z_scope.
Local Open Scope mach_scope.

Implicit Types (k : ikcpcb) (seg s : IKCPSEG) (d : list Z).

(** ** Headers *)

Lemma decode_le n v rest : decode (Z.of_nat n) (le_bytes n v ++ rest) = Ok (v mod 256 ^ Z.of_nat n, rest).
Proof.
  unfold decode. pose proof (mem_read_app_middle [] (le_bytes n v) rest) as H.
  cbn [app] in H. change (zlen []) with 0 in H. rewrite zlen_le_bytes in H. rewrite H. cbn [obind].
  rewrite le_val_le_bytes, zdrop_app_eq; [done|]. by rewrite zlen_le_bytes.
Qed.

Lemma decode_header_encode seg len rest :
  decode_header (ikcp_encode_seg seg len ++ rest) =
  Ok (mkHeader (u32 (seg_conv seg)) (u8 (seg_cmd seg)) (u8 (seg_frg seg)) (u16 (seg_wnd seg)) (u32 (seg_ts seg)) (u32 (seg_sn seg))
        (u32 (seg_una seg)) (u32 len), rest).
Proof.
  unfold decode_header, ikcp_encode_seg, decode32u, decode16u, decode8u, encode32u, encode16u, encode8u.
  repeat rewrite <- app_assoc.
  repeat (rewrite ?(decode_le 4), ?(decode_le 2), ?(decode_le 1); cbn [obind]). done.
Qed.

Lemma zlen_encode_seg seg len : zlen (ikcp_encode_seg seg len) = IKCP_OVERHEAD.
Proof. unfold ikcp_encode_seg, encode32u, encode16u, encode8u. autorewrite with pss_len. by rewrite !zlen_le_bytes. Qed.

(** A header can be read wherever there are 24 bytes. *)
Lemma decode_ok n d : 0 <= n <= zlen d → wf_bytes d → ∃ v, decode n d = Ok (v, zdrop n d) ∧ 0 <= v < 256 ^ n.
Proof.
  intros Hn Hd. unfold decode. rewrite mem_read_ok by lia. cbn [obind]. eexists. split; [done|].
  change (zdrop 0 d) with d. pose proof (le_val_range (ztake n d) (wf_bytes_ztake n d Hd)) as H. rewrite zlen_ztake in H by lia. done.
Qed.

Record header_wf (h : header) : Prop := {
  hw_conv : 0 <= h_conv h < 2 ^ 32; hw_cmd : 0 <= h_cmd h < 256; hw_frg : 0 <= h_frg h < 256; hw_wnd : 0 <= h_wnd h < 65536;
  hw_ts : 0 <= h_ts h < 2 ^ 32; hw_sn : 0 <= h_sn h < 2 ^ 32; hw_una : 0 <= h_una h < 2 ^ 32; hw_len : 0 <= h_len h < 2 ^ 32;
}.

(** Reads one field of a header. *)
Ltac step_decode n := match goal with |- context [decode n ?p] =>
  let v := fresh "v" in let E := fresh "E" in let H := fresh "Hv" in
  destruct (decode_ok n p) as (v & E & H); [zlen_solve | by repeat apply wf_bytes_zdrop | rewrite E; cbn [obind]; rewrite ?zdrop_zdrop by lia; cbn [Z.add Pos.add Pos.succ]] end.

Lemma decode_header_ok d : IKCP_OVERHEAD <= zlen d → wf_bytes d →
  ∃ h, decode_header d = Ok (h, zdrop IKCP_OVERHEAD d) ∧ header_wf h ∧
    ∃ rest, decode32u d = Ok (h_conv h, rest).
Proof.
  unfold IKCP_OVERHEAD. intros Hn Hd. unfold decode_header, decode32u, decode16u, decode8u.
  step_decode 4. step_decode 1. step_decode 1. step_decode 2. step_decode 4. step_decode 4. step_decode 4. step_decode 4.
  eexists. split; [reflexivity|]. split; [split; cbn; lia|]. cbn. eexists. reflexivity.
Qed.

(** ** What the parts of the protocol leave alone *)

(** The fields of the receiving side. *)
Definition rcv_core k := (rcv_wnd k, rcv_nxt k, nrcv_que k, rcv_queue k, nrcv_buf k, rcv_buf k).

(** The fields of the sending side that matter here. *)
Definition snd_core k := (snd_buf k, snd_queue k, nsnd_buf k, nsnd_que k, snd_nxt k, conv k, mtu k, mss k, stream k, acklist k, ackblock k).

(** What a segment is: its number, its place in its message and its bytes. *)
Definition seg_id seg := (seg_conv seg, seg_cmd seg, seg_frg seg, seg_sn seg, seg_data seg).

(** Segments may have left [snd_buf]. *)
Record shrinks k k' : Prop := {
  sh_rcv : rcv_core k' = rcv_core k;
  sh_sub : map seg_id (snd_buf k') `sublist_of` map seg_id (snd_buf k);
  sh_queue : snd_queue k' = snd_queue k;
  sh_nque : nsnd_que k' = nsnd_que k;
  sh_nbuf : nsnd_buf k = u32 (zlen (snd_buf k)) → nsnd_buf k' = u32 (zlen (snd_buf k'));
  sh_nxt : snd_nxt k' = snd_nxt k;
  sh_conv : conv k' = conv k;
  sh_mtu : mtu k' = mtu k;
  sh_mss : mss k' = mss k;
  sh_stream : stream k' = stream k;
  sh_acks : acklist k' = acklist k ∧ ackblock k' = ackblock k;
}.

#[export] Instance shrinks_preorder : PreOrder shrinks.
Proof.
  split; [intros k; by split|]. intros k1 k2 k3 [] []. split; try congruence; [by etrans|auto|].
  destruct sh_acks0, sh_acks1. split; congruence.
Qed.

(** A step that only changes other fields. *)
Lemma shrinks_ext k k' : rcv_core k' = rcv_core k → snd_core k' = snd_core k → shrinks k k'.
Proof. intros Hr [= Hb]. split; try done; [by rewrite Hb|congruence]. Qed.

Lemma update_ack_shrinks k rtt : shrinks k (ikcp_update_ack k rtt).
Proof. unfold ikcp_update_ack. destruct (rx_srtt k =? 0); [by apply shrinks_ext|]. cbn -[i32]. destruct (_ <? 1); by apply shrinks_ext. Qed.

Lemma shrink_buf_shrinks k : shrinks k (ikcp_shrink_buf k).
Proof. unfold ikcp_shrink_buf. destruct (snd_buf k) eqn:E; by apply shrinks_ext. Qed.

Lemma ack_loop_sublist sn l : map seg_id (snd (ack_loop sn l)) `sublist_of` map seg_id l ∧
  zlen (snd (ack_loop sn l)) = zlen l - (if fst (ack_loop sn l) then 1 else 0).
Proof.
  induction l as [|s l [IH IH']]; cbn [ack_loop]; [done|]. destruct (sn =? seg_sn s).
  { cbn. split; [by constructor|]. rewrite zlen_cons. lia. }
  destruct (_ <? 0); [cbn; split; [done|lia]|]. destruct (ack_loop sn l) as [found l']. cbn in *. rewrite !zlen_cons.
  split; [by constructor|lia].
Qed.

Lemma u32_pred n m : n = u32 m → u32 (n - 1) = u32 (m - 1).
Proof. intros ->. unfold u32, uwrap. by rewrite Zminus_mod_idemp_l. Qed.
Lemma u32_succ n m : n = u32 m → u32 (n + 1) = u32 (m + 1).
Proof. intros ->. unfold u32, uwrap. by rewrite Zplus_mod_idemp_l. Qed.

Lemma parse_ack_shrinks k sn : shrinks k (ikcp_parse_ack k sn).
Proof.
  unfold ikcp_parse_ack. destruct (in_flight_sn k sn); [|done]. destruct (ack_loop_sublist sn (snd_buf k)) as [Hs Hl].
  destruct (ack_loop sn (snd_buf k)) as [[] l]; cbn in *; split; try done; cbn; intros H; rewrite Hl; [by apply u32_pred|by rewrite Z.sub_0_r].
Qed.

Lemma una_loop_shrinks una l : ∀ k, snd_buf k = l → shrinks k (una_loop una l k).
Proof.
  enough (H : ∀ k pre, snd_buf k = pre ++ l → (nsnd_buf k = u32 (zlen l) → True) →
    rcv_core (una_loop una l k) = rcv_core k ∧ map seg_id (snd_buf (una_loop una l k)) `sublist_of` map seg_id l ∧
    snd_queue (una_loop una l k) = snd_queue k ∧ nsnd_que (una_loop una l k) = nsnd_que k ∧
    (nsnd_buf k = u32 (zlen l) → nsnd_buf (una_loop una l k) = u32 (zlen (snd_buf (una_loop una l k)))) ∧
    (snd_nxt (una_loop una l k), conv (una_loop una l k), mtu (una_loop una l k), mss (una_loop una l k), stream (una_loop una l k),
     acklist (una_loop una l k), ackblock (una_loop una l k)) =
    (snd_nxt k, conv k, mtu k, mss k, stream k, acklist k, ackblock k)).
  { intros k Hk. destruct (H k []) as (? & Hsub & ? & ? & Hn & E); [done|done|]. injection E as ? ? ? ? ? ? ?.
    split; try done; [by rewrite Hk|]. rewrite Hk. done. }
  induction l as [|s l IH]; intros k pre Hk _; cbn [una_loop]; [by split_and!|].
  destruct (0 <? _); [|by split_and!].
  destruct (IH (k <| nsnd_buf := u32 (nsnd_buf k - 1) |>) (pre ++ [s])) as (H1 & H2 & H3 & H4 & H5 & H6); [by cbn; rewrite <- app_assoc|done|].
  split_and!; try done; [by apply sublist_cons|]. intros Hn. apply H5. cbn. rewrite (u32_pred _ _ Hn), zlen_cons. f_equal. lia.
Qed.

Lemma parse_una_shrinks k una : shrinks k (ikcp_parse_una k una).
Proof. by apply una_loop_shrinks. Qed.

Lemma fastack_loop_id sn l : map seg_id (fastack_loop sn l) = map seg_id l.
Proof.
  induction l as [|s l IH]; cbn [fastack_loop]; [done|]. destruct (_ <? 0); [done|]. cbn. rewrite IH. by destruct (negb _).
Qed.

Lemma parse_fastack_shrinks k sn : shrinks k (ikcp_parse_fastack k sn).
Proof.
  unfold ikcp_parse_fastack. destruct (in_flight_sn k sn); [|done].
  pose proof (fastack_loop_id sn (snd_buf k)) as H. split; try done; cbn; [by rewrite H|]. intros ->.
  apply (f_equal length) in H. rewrite !length_map in H. unfold zlen. by rewrite H.
Qed.

Lemma shrinks_if (c : bool) k k1 k2 : shrinks k k1 → shrinks k k2 → shrinks k (if c then k1 else k2).
Proof. by destruct c. Qed.

Lemma set_cwnd_shrinks k c i : shrinks k (k <| cwnd := c |> <| incr := i |>) ∧ shrinks k (k <| cwnd := c |>) ∧ shrinks k (k <| incr := i |>).
Proof. split_and!; by apply shrinks_ext. Qed.

Lemma open_cwnd_shrinks k : shrinks k (open_cwnd k).
Proof.
  unfold open_cwnd. apply shrinks_if; [|done]. lazy zeta.
  match goal with |- shrinks k (if _ then (?a <| cwnd := _ |> <| incr := _ |>) else _) => assert (shrinks k a) as Ha end.
  { apply shrinks_if; [apply set_cwnd_shrinks|].
    match goal with |- shrinks k (if _ then (?a <| cwnd := _ |>) else _) => assert (shrinks k a) as Ha end.
    { match goal with |- shrinks k (?a <| incr := _ |>) => assert (shrinks k a) as Ha by (apply shrinks_if; [apply (set_cwnd_shrinks k 0)|done]) end.
      etrans; [exact Ha|]. eapply (set_cwnd_shrinks _ 0). }
    apply shrinks_if; [etrans; [exact Ha|]; eapply (set_cwnd_shrinks _ _ 0)|exact Ha]. }
  apply shrinks_if; [etrans; [exact Ha|]; apply set_cwnd_shrinks|exact Ha].
Qed.

Lemma input_end_shrinks k una maxack : shrinks k (input_end k una maxack).
Proof.
  unfold input_end. destruct maxack as [m|]; [etrans; [apply (parse_fastack_shrinks k m)|]|];
    (destruct (0 <? _); [apply open_cwnd_shrinks|done]).
Qed.

Lemma input_ack_shrinks k h m : shrinks k (fst (input_ack k h m)).
Proof.
  unfold input_ack. cbn [fst]. etrans; [|apply shrink_buf_shrinks]. etrans; [|apply parse_ack_shrinks].
  destruct (0 <=? _); [apply update_ack_shrinks|done].
Qed.

(** ** The receiving side *)

(** How far a segment is ahead of the next one that is expected. *)
Definition dist (nxt : Z) seg : Z := u32 (seg_sn seg - nxt).

Record rcv_wf k : Prop := {
  rw_wnd : 0 < rcv_wnd k < 2 ^ 31;
  rw_nxt : 0 <= rcv_nxt k < 2 ^ 32;
  rw_nque : nrcv_que k = zlen (rcv_queue k);
  rw_que : nrcv_que k < 2 ^ 31;
  rw_nbuf : nrcv_buf k = u32 (zlen (rcv_buf k));
  rw_sorted : StronglySorted (λ s1 s2, dist (rcv_nxt k) s1 < dist (rcv_nxt k) s2) (rcv_buf k);
  rw_near : Forall (λ s, 0 <= seg_sn s < 2 ^ 32 ∧ dist (rcv_nxt k) s < 2 ^ 31) (rcv_buf k);
}.

Lemma rcv_wf_ext k k' : rcv_core k' = rcv_core k → rcv_wf k → rcv_wf k'.
Proof. intros [= H1 H2 H3 H4 H5 H6] []. split; rewrite ?H1, ?H2, ?H3, ?H4, ?H5, ?H6; done. Qed.

Lemma dist_next nxt seg : 0 < dist nxt seg → dist (u32 (nxt + 1)) seg = dist nxt seg - 1.
Proof. unfold dist. mach. Qed.

Lemma dist_zero nxt seg : 0 <= nxt < 2 ^ 32 → 0 <= seg_sn seg < 2 ^ 32 → dist nxt seg = 0 → seg_sn seg = nxt.
Proof. unfold dist. mach. Qed.

Lemma dist_self nxt seg : seg_sn seg = nxt → dist nxt seg = 0.
Proof. intros <-. unfold dist. by rewrite Z.sub_diag. Qed.

(** What moving does: the moved segments are the next ones in order. *)
Lemma move_ready_spec buf : ∀ k, 0 <= rcv_nxt k < 2 ^ 32 →
  ∃ moved, buf = moved ++ rcv_buf (move_ready buf k) ∧ rcv_queue (move_ready buf k) = rcv_queue k ++ moved ∧
    rcv_nxt (move_ready buf k) = u32 (rcv_nxt k + zlen moved) ∧
    (∀ i s, moved !! i = Some s → seg_sn s = u32 (rcv_nxt k + Z.of_nat i)).
Proof.
  induction buf as [|s buf IH]; intros k Hk; cbn [move_ready].
  { exists []. cbn. rewrite app_nil_r, Z.add_0_r. split_and!; try done. symmetry. by apply u32_small. }
  destruct (_ && _) eqn:E.
  2:{ exists []. cbn. rewrite app_nil_r, Z.add_0_r. split_and!; try done. symmetry. by apply u32_small. }
  apply andb_true_iff in E as [E%Z.eqb_eq _].
  set (k1 := k <| nrcv_buf := _ |> <| rcv_queue := _ |> <| nrcv_que := _ |> <| rcv_nxt := _ |>).
  destruct (IH k1) as (moved & H1 & H2 & H3 & H4); [cbn; apply u32_range|].
  exists (s :: moved). split_and!.
  - cbn. by rewrite <- H1.
  - rewrite H2. cbn. by rewrite <- app_assoc.
  - rewrite H3. cbn. rewrite zlen_cons. unfold u32, uwrap. rewrite Zplus_mod_idemp_l. f_equal. lia.
  - intros [|i] s' Hi; cbn in Hi.
    + injection Hi as <-. rewrite E, Z.add_0_r. symmetry. by apply u32_small.
    + rewrite (H4 i s' Hi). cbn. unfold u32, uwrap. rewrite Zplus_mod_idemp_l. f_equal. lia.
Qed.

Lemma move_ready_snd buf : ∀ k, snd_core (move_ready buf k) = snd_core k ∧ rcv_wnd (move_ready buf k) = rcv_wnd k.
Proof.
  induction buf as [|s buf IH]; intros k; cbn [move_ready]; [done|]. destruct (_ && _); [|done].
  match goal with |- context [move_ready buf ?a] => destruct (IH a) as [-> ->] end. done.
Qed.

(** One segment moves on. *)
Lemma move_one_wf k s buf : rcv_wf (k <| rcv_buf := s :: buf |>) → seg_sn s = rcv_nxt k → nrcv_que k < rcv_wnd k →
  rcv_wf (k <| nrcv_buf := u32 (nrcv_buf k - 1) |> <| rcv_queue := rcv_queue k ++ [s] |>
            <| nrcv_que := nrcv_que k +u32 1 |> <| rcv_nxt := rcv_nxt k +u32 1 |> <| rcv_buf := buf |>).
Proof.
  intros [H1 H2 H3 H4 H5 H6 H7] E El. cbn in *.
  inversion H6 as [|? ? Hs Hf]; subst. inversion H7 as [|? ? [Hn Hd] Hn']; subst.
  assert (Hpos : Forall (λ s', 0 < dist (rcv_nxt k) s') buf).
  { eapply Forall_impl; [exact Hf|]. intros s' Hs'. cbn in Hs'. rewrite (dist_self _ s E) in Hs'. done. }
  pose proof (zlen_nonneg (rcv_queue k)). split; cbn; try done.
  - apply u32_range.
  - rewrite zlen_app, u32_small by lia. rewrite H3. done.
  - rewrite u32_small; lia.
  - rewrite H5, zlen_cons. unfold u32, uwrap. rewrite Zminus_mod_idemp_l. f_equal. lia.
  - clear -Hs Hpos. induction Hs as [|a l Hl IHl Ha]; constructor; inversion Hpos; subst; [by apply IHl|].
    rewrite Forall_forall in *. intros x Hx. rewrite !dist_next by auto. specialize (Ha x Hx). lia.
  - rewrite Forall_forall in *. intros x Hx. destruct (Hn' x Hx). rewrite dist_next by auto. split; [done|lia].
Qed.

Lemma move_ready_wf buf : ∀ k, rcv_wf (k <| rcv_buf := buf |>) → rcv_wf (move_ready buf k).
Proof.
  induction buf as [|s buf IH]; intros k Hk; cbn [move_ready]; [done|].
  destruct (_ && _) eqn:E; [|done]. apply andb_true_iff in E as [E%Z.eqb_eq El%Z.ltb_lt]. by apply IH, (move_one_wf k s buf).
Qed.

(** Within half of the numbers, comparing sequence numbers compares their distances. *)
Definition near (nxt : Z) seg : Prop := 0 <= seg_sn seg < 2 ^ 32 ∧ dist nxt seg < 2 ^ 31.

Lemma near_timediff nxt s1 s2 : near nxt s1 → near nxt s2 → itimediff (seg_sn s1) (seg_sn s2) = dist nxt s1 - dist nxt s2.
Proof. unfold near, dist, itimediff. mach. Qed.

Lemma near_eq nxt s1 s2 : near nxt s1 → near nxt s2 → dist nxt s1 = dist nxt s2 → seg_sn s1 = seg_sn s2.
Proof. unfold near, dist. mach. Qed.

Lemma elem_of_rev {A} (x : A) l : x ∈ rev l ↔ x ∈ l.
Proof. rewrite !list_elem_of_In. symmetry. apply in_rev. Qed.
Lemma elem_of_rev_1 {A} (x : A) l : x ∈ rev l → x ∈ l.
Proof. by rewrite elem_of_rev. Qed.

Lemma sorted_rev {A} (R : A → A → Prop) (l : list A) : StronglySorted R (rev l) ↔ StronglySorted (flip R) l.
Proof.
  induction l as [|a l IH]; cbn [rev]; [split; intros; constructor|].
  rewrite StronglySorted_app, IH, (StronglySorted_cons (flip R)), Forall_forall. split.
  - intros (H1 & H2 & _). split; [|done]. intros x Hx. apply H1; [by apply elem_of_rev|by left].
  - intros [H1 H2]. split_and!; [|done|by repeat constructor].
    intros x y Hx%elem_of_rev_1 ->%list_elem_of_singleton. exact (H1 x Hx).
Qed.

Lemma insert_back_spec nxt new r : near nxt new → Forall (near nxt) r →
  StronglySorted (flip (λ s1 s2, dist nxt s1 < dist nxt s2)) r →
  match insert_back r new with
  | Some r' => StronglySorted (flip (λ s1 s2, dist nxt s1 < dist nxt s2)) r' ∧ r' ≡ₚ new :: r
  | None => ∃ s, s ∈ r ∧ seg_sn s = seg_sn new
  end.
Proof.
  intros Hnew. induction r as [|s r IH]; intros Hn Hs; cbn [insert_back]; [split; [by repeat constructor|done]|].
  inversion Hn as [|? ? Hns Hnr]; subst. apply StronglySorted_cons in Hs as [Hf Hs].
  destruct (Z.eqb_spec (seg_sn s) (seg_sn new)) as [E|Hne]; [exists s; split; [by left|done]|].
  rewrite (near_timediff nxt new s Hnew Hns). destruct (Z.ltb_spec 0 (dist nxt new - dist nxt s)).
  - split; [|done]. apply StronglySorted_cons. split; [|by apply StronglySorted_cons].
    constructor; [cbn; lia|]. eapply Forall_impl; [exact Hf|]. cbn. intros x Hx. lia.
  - specialize (IH Hnr Hs). destruct (insert_back r new) as [r'|]; cbn.
    + destruct IH as [IH1 IH2]. split; [|by rewrite IH2; constructor].
      apply StronglySorted_cons. split; [|done]. rewrite IH2. constructor; [|done]. cbn.
      assert (dist nxt new ≠ dist nxt s) by (intros E; apply (near_eq nxt new s Hnew Hns) in E; congruence). lia.
    + destruct IH as (x & Hx & Ex). exists x. split; [by right|done].
Qed.

Lemma insert_back_Forall (Q : IKCPSEG → Prop) r new r' : insert_back r new = Some r' → Q new → Forall Q r → Forall Q r'.
Proof.
  revert r'. induction r as [|s r IH]; intros r'; cbn [insert_back]; [intros [= <-] ? _; by constructor|].
  destruct (_ =? _); [done|]. destruct (0 <? _); [intros [= <-] ? ?; by constructor|].
  intros (r1 & E & ->)%fmap_Some Hn Hf. inversion Hf; subst. constructor; [done|by apply IH].
Qed.

Lemma in_window_near k seg : rcv_wf k → 0 <= seg_sn seg < 2 ^ 32 → in_window k (seg_sn seg) = true → near (rcv_nxt k) seg ∧ dist (rcv_nxt k) seg < rcv_wnd k.
Proof.
  intros [Hw Hn _ _ _ _ _] Hs. unfold in_window, near, dist, itimediff. rewrite negb_true_iff, orb_false_iff, Z.leb_gt, Z.ltb_ge.
  intros [H1 H2]. split; [split; [done|]|]; mach.
Qed.

(** A segment is put in its place. *)
Lemma insert_wf k s r : rcv_wf k → near (rcv_nxt k) s → insert_back (rev (rcv_buf k)) s = Some r →
  rcv_wf (k <| rcv_buf := rev r |> <| nrcv_buf := nrcv_buf k +u32 1 |>).
Proof.
  intros [H1 H2 H3 H4 H5 H6 H7] Hnear Ei. pose proof (insert_back_spec (rcv_nxt k) s (rev (rcv_buf k)) Hnear) as Hi. rewrite Ei in Hi.
  destruct Hi as [Hi Hp].
  { apply Forall_forall. intros x Hx%elem_of_rev_1. rewrite Forall_forall in H7. by apply H7. }
  { apply (proj1 (sorted_rev _ _)). by rewrite rev_involutive. }
  split; cbn; try done.
  - rewrite (u32_succ _ _ H5). f_equal. apply Permutation_length in Hp. unfold zlen. rewrite length_rev, Hp. cbn. rewrite length_rev. lia.
  - by apply (proj2 (sorted_rev _ _)).
  - rewrite Forall_forall in *. intros x Hx%elem_of_rev_1. rewrite Hp, elem_of_cons in Hx.
    destruct Hx as [->|Hx%elem_of_rev_1]; [done|by apply H7].
Qed.

(** Receiving a segment: it is put in its place unless it is there already, and what is next moves on. *)
Lemma parse_data_wf k seg : rcv_wf k → 0 <= seg_sn seg < 2 ^ 32 → rcv_wf (ikcp_parse_data k seg).
Proof.
  intros Hk Hs. unfold ikcp_parse_data. destruct (in_window k (seg_sn seg)) eqn:Ew; [|done].
  destruct (in_window_near k seg Hk Hs Ew) as [Hnear _].
  destruct (insert_back _ seg) as [r|] eqn:Ei; [|apply move_ready_wf; eapply rcv_wf_ext; [|exact Hk]; done].
  apply move_ready_wf. eapply rcv_wf_ext; [|by eapply insert_wf]. done.
Qed.

Lemma parse_data_snd k seg : snd_core (ikcp_parse_data k seg) = snd_core k ∧ rcv_wnd (ikcp_parse_data k seg) = rcv_wnd k.
Proof.
  unfold ikcp_parse_data. destruct (in_window k _); [|done].
  destruct (insert_back _ _) as [r|]; match goal with |- context [move_ready ?b ?a] => destruct (move_ready_snd b a) as [-> ->] end; done.
Qed.

(** ** The sending side *)

Record snd_wf k : Prop := {
  sw_mtu : 50 <= mtu k < 2 ^ 30;
  sw_mss : mss k = mtu k - IKCP_OVERHEAD;
  sw_len : Forall (λ s, seg_len s <= mss k) (snd_queue k ++ snd_buf k);
  sw_nbuf : nsnd_buf k = u32 (zlen (snd_buf k));
  sw_nque : nsnd_que k = u32 (zlen (snd_queue k));
  sw_ack : zlen (acklist k) <= ackblock k;
  sw_nxt : 0 <= snd_nxt k < 2 ^ 32;
}.

Definition kcp_wf k : Prop := rcv_wf k ∧ snd_wf k.

Lemma snd_wf_ext k k' : snd_core k' = snd_core k → snd_wf k → snd_wf k'.
Proof. intros [= E1 E2 E3 E4 E5 E6 E7 E8 E9 E10 E11] []. split; rewrite ?E1, ?E2, ?E3, ?E4, ?E5, ?E7, ?E8, ?E10, ?E11; done. Qed.

Lemma seg_id_len s s' : seg_id s = seg_id s' → seg_len s = seg_len s'.
Proof. intros [= _ _ _ _ E]. unfold seg_len. by rewrite E. Qed.

Lemma id_len_Forall l n : Forall (λ s, seg_len s <= n) l ↔ Forall (λ x, zlen x.2 <= n) (map seg_id l).
Proof. by rewrite Forall_map. Qed.

Lemma sublist_Forall {A} (P : A → Prop) l l' : l `sublist_of` l' → Forall P l' → Forall P l.
Proof. induction 1; inversion 1; subst; auto. Qed.

Lemma shrinks_wf k k' : shrinks k k' → kcp_wf k → kcp_wf k'.
Proof.
  intros [Hrc Hsub Hq Hnq Hnb Hnx Hcv Hmt Hms Hst [Ea1 Ea2]] [Hr [H1 H2 H3 H4 H5 H6 H7]]. split; [by eapply rcv_wf_ext|].
  split; rewrite ?Hmt, ?Hms, ?Hq, ?Hnq, ?Ea1, ?Ea2, ?Hnx; auto.
  apply Forall_app in H3 as [Hfq Hfb]. apply Forall_app. split; [done|].
  apply id_len_Forall. eapply sublist_Forall; [exact Hsub|]. by apply id_len_Forall.
Qed.

Lemma ikcp_create_wf c : kcp_wf (ikcp_create c).
Proof. split; split; cbn; unfold IKCP_WND_RCV, IKCP_MTU_DEF, IKCP_OVERHEAD; try done; try lia; constructor. Qed.

Lemma grow_enough fuel : ∀ b n, 0 < b → b * 2 ^ Z.of_nat fuel < 2 ^ 32 → n <= b * 2 ^ Z.of_nat fuel → n <= grow fuel b n.
Proof.
  induction fuel as [|fuel IH]; intros b n Hb Hm Hn; cbn [grow]; [change (2 ^ Z.of_nat 0) with 1 in *; lia|].
  destruct (Z.ltb_spec b n); [|lia]. rewrite Nat2Z.inj_succ, Z.pow_succ_r in * by lia.
  pose proof (Z.pow_pos_nonneg 2 (Z.of_nat fuel)). rewrite u32_small by nia. apply IH; nia.
Qed.

Lemma ack_push_ok k sn ts : kcp_wf k → zlen (acklist k) < 2 ^ 31 - 1 →
  ∃ k', ikcp_ack_push k sn ts = Ok k' ∧ kcp_wf k' ∧ rcv_core k' = rcv_core k ∧ acklist k' = acklist k ++ [(sn, ts)] ∧
    conv k' = conv k ∧ snd_queue k' = snd_queue k ∧ snd_buf k' = snd_buf k ∧ snd_nxt k' = snd_nxt k ∧ stream k' = stream k ∧ mtu k' = mtu k.
Proof.
  intros [Hr Hs] Hn. pose proof (zlen_nonneg (acklist k)). unfold ikcp_ack_push. rewrite u32_small by lia.
  set (k1 := if _ <? _ then _ else _). destruct Hs as [H1 H2 H3 H4 H5 H6 H7].
  assert (Hb : zlen (acklist k) < ackblock k1).
  { unfold k1. destruct (Z.ltb_spec (ackblock k) (zlen (acklist k) + 1)); [|lia]. cbn -[grow].
    pose proof (grow_enough 28 8 (zlen (acklist k) + 1)). lia. }
  assert (E : k1 = k <| ackblock := ackblock k1 |>) by (unfold k1; destruct (_ <? _); by destruct k).
  assert (Ea : acklist k1 = acklist k) by (by rewrite E). rewrite Ea.
  rewrite (proj2 (Z.leb_gt _ _) Hb). eexists. split; [done|]. rewrite E. split_and!; try done.
  split; [by apply (rcv_wf_ext k)|]. split; cbn; try done. rewrite zlen_app. change (zlen [(sn, ts)]) with 1. lia.
Qed.

(** ** Input *)

(** What one datagram may change on the sending side and in the settings. *)
Definition same_sender k k' : Prop :=
  map seg_id (snd_buf k') `sublist_of` map seg_id (snd_buf k) ∧ snd_queue k' = snd_queue k ∧ snd_nxt k' = snd_nxt k ∧
  conv k' = conv k ∧ stream k' = stream k ∧ rcv_wnd k' = rcv_wnd k ∧ mtu k' = mtu k.

#[export] Instance same_sender_preorder : PreOrder same_sender.
Proof.
  split; [intros k; by split_and!|]. intros k1 k2 k3 (?&?&?&?&?&?&?) (?&?&?&?&?&?&?). split_and!; try congruence. by etrans.
Qed.

Lemma shrinks_sender k k' : shrinks k k' → same_sender k k'.
Proof. intros [Hrc Hsub Hq Hnq Hnb Hnx Hcv Hmt Hms Hst Ha]. injection Hrc as E1 _ _ _ _ _. split_and!; try done. Qed.

(** The segment that [ikcp_input] makes of a header and its data. *)
Definition received_segment (h : header) (d : list Z) : IKCPSEG :=
  mkSeg (h_conv h) (h_cmd h) (h_frg h) (h_wnd h) (h_ts h) (h_sn h) (h_una h) 0 0 0 0 d.

(** Every segment of data that is read from a datagram satisfies [P]. *)
Inductive carries (P : IKCPSEG → Prop) : list Z → Prop :=
  | carries_end d : zlen d < IKCP_OVERHEAD → carries P d
  | carries_segment d h rest : decode_header d = Ok (h, rest) →
      (h_cmd h = IKCP_CMD_PUSH → h_len h <= zlen rest → P (received_segment h (ztake (h_len h) rest))) →
      (h_len h <= zlen rest → carries P (zdrop (h_len h) rest)) → carries P d.

Lemma carries_any (P : IKCPSEG → Prop) : (∀ s, P s) → ∀ n d, zlen d <= Z.of_nat n → wf_bytes d → carries P d.
Proof.
  intros HP. induction n as [|n IH]; intros d Hn Hd.
  { apply carries_end. unfold IKCP_OVERHEAD. lia. }
  destruct (Z.ltb_spec (zlen d) IKCP_OVERHEAD); [by apply carries_end|].
  destruct (decode_header_ok d) as (h & E & Hh & _); [lia|done|]. eapply carries_segment; [exact E|done|].
  unfold IKCP_OVERHEAD in *. destruct Hh. intros Hl. apply IH; [|by do 2 apply wf_bytes_zdrop].
  rewrite zlen_zdrop in Hl by lia. rewrite !zlen_zdrop; rewrite ?zlen_zdrop; lia.
Qed.

(** An invariant [R] of the receiving side that a segment which satisfies [P] preserves. *)
Section input.
Context (P : IKCPSEG → Prop) (R : ikcpcb → Prop).
Context (R_ext : ∀ k k', rcv_core k' = rcv_core k → R k → R k').
Context (R_data : ∀ k s, rcv_wf k → R k → 0 <= seg_sn s < 2 ^ 32 → P s → R (ikcp_parse_data k s)).

Lemma input_push_ok k h d : kcp_wf k → R k → header_wf h → h_len h <= zlen d → zlen (acklist k) < 2 ^ 31 - 1 →
  P (received_segment h (ztake (h_len h) d)) →
  ∃ k', input_push k h d = Ok k' ∧ kcp_wf k' ∧ R k' ∧ zlen (acklist k') <= zlen (acklist k) + 1 ∧ same_sender k k'.
Proof.
  intros Hk HR Hh Hd Hn HP. unfold input_push. destruct (_ <? 0); [|exists k; split_and!; [done|done|done|lia|done]].
  destruct (ack_push_ok k (h_sn h) (h_ts h) Hk Hn) as (k1 & -> & Hk1 & Hr1 & Ha1 & Hc1 & Hq1 & Hb1 & Hx1 & Hst1 & Hm1). cbn [obind].
  assert (Hs1 : same_sender k k1).
  { pose proof Hr1 as E. injection E as ? ? ? ? ? ?. split_and!; try done. by rewrite Hb1. }
  assert (HR1 : R k1) by by eapply R_ext.
  destruct (0 <=? _).
  2:{ exists k1. rewrite Ha1, zlen_app. split_and!; try done. }
  destruct Hh. rewrite mem_read_ok by lia. cbn [obind]. eexists. split; [reflexivity|].
  change (mkSeg _ _ _ _ _ _ _ _ _ _ _ _) with (received_segment h (ztake (h_len h) d)).
  set (seg := received_segment _ _) in *. destruct (parse_data_snd k1 seg) as [Es Ew]. split_and!.
  - destruct Hk1. split; [by apply parse_data_wf|by eapply snd_wf_ext].
  - destruct Hk1. by apply R_data.
  - injection Es as ? ? ? ? ? ? ? ? ? -> ?. rewrite Ha1, zlen_app. done.
  - etrans; [exact Hs1|]. injection Es as E1 E2 ? ? ? ? ? ? ? ? ?. split_and!; try done. by rewrite E1.
Qed.

Lemma shrinks_ok k k' : shrinks k k' → kcp_wf k → R k → kcp_wf k' ∧ R k' ∧ zlen (acklist k') = zlen (acklist k) ∧ same_sender k k'.
Proof.
  intros H Hk HR. split_and!; [by eapply shrinks_wf| |by destruct (sh_acks _ _ H) as [-> _]|by apply shrinks_sender].
  eapply R_ext; [apply (sh_rcv _ _ H)|done].
Qed.

Lemma input_segment_ok k h d m : kcp_wf k → R k → header_wf h → zlen (acklist k) < 2 ^ 31 - 1 →
  (h_cmd h = IKCP_CMD_PUSH → h_len h <= zlen d → P (received_segment h (ztake (h_len h) d))) →
  (∃ e, input_segment k h d m = Ok (inl e)) ∨
  ∃ k' m', input_segment k h d m = Ok (inr (k', m')) ∧ h_len h <= zlen d ∧ kcp_wf k' ∧ R k' ∧
    zlen (acklist k') <= zlen (acklist k) + 1 ∧ same_sender k k'.
Proof.
  intros Hk HR Hh Hn HP. unfold input_segment. destruct (Z.ltb_spec (zlen d) (h_len h)); [left; eauto|]. cbn [orb].
  destruct (_ <? 0); [left; eauto|]. destruct (negb _); [left; eauto|]. right. lazy zeta.
  set (k1 := ikcp_shrink_buf _).
  assert (H1 : shrinks k k1).
  { etrans; [|apply shrink_buf_shrinks]. etrans; [|apply parse_una_shrinks]. by apply shrinks_ext. }
  destruct (shrinks_ok k k1 H1 Hk HR) as (Hk1 & HR1 & Ha1 & Hs1).
  destruct (h_cmd h =? IKCP_CMD_ACK).
  { pose proof (input_ack_shrinks k1 h m) as H2. destruct (input_ack k1 h m) as [k2 m2]. cbn in H2.
    destruct (shrinks_ok k1 k2 H2 Hk1 HR1) as (Hk2 & HR2 & Ha2 & Hs2).
    exists k2, m2. split_and!; try done; [lia|by etrans]. }
  destruct (Z.eqb_spec (h_cmd h) IKCP_CMD_PUSH).
  { destruct (input_push_ok k1 h d) as (k2 & -> & Hk2 & HR2 & Ha2 & Hs2); auto; [lia|]. cbn [obind].
    exists k2, m. split_and!; try done; [lia|by etrans]. }
  destruct (h_cmd h =? IKCP_CMD_WASK); [|exists k1, m; split_and!; try done; lia].
  set (k2 := k1 <| probe := _ |>). assert (H2 : shrinks k1 k2) by by apply shrinks_ext.
  destruct (shrinks_ok k1 k2 H2 Hk1 HR1) as (Hk2 & HR2 & Ha2 & Hs2). exists k2, m. split_and!; try done. lia.
Qed.

Lemma input_loop_ok fuel : ∀ k una m d, kcp_wf k → R k → wf_bytes d → carries P d → zlen d <= Z.of_nat fuel →
  zlen (acklist k) + zlen d < 2 ^ 31 - 1 →
  ∃ r k', input_loop fuel k una m d = Ok (r, k') ∧ kcp_wf k' ∧ R k' ∧ zlen (acklist k') <= zlen (acklist k) + zlen d ∧ same_sender k k'.
Proof.
  induction fuel as [|fuel IH]; intros k una m d Hk HR Hd HP Hf Hn; cbn [input_loop];
    pose proof (zlen_nonneg d); destruct (Z.ltb_spec (zlen d) IKCP_OVERHEAD) as [Hlt|Hge].
  1,3: destruct (shrinks_ok k _ (input_end_shrinks k una m) Hk HR) as (H1 & H2 & H3 & H4); eexists _, _; split; [reflexivity|];
    split_and!; try done; lia.
  { unfold IKCP_OVERHEAD in Hge. lia. }
  destruct (decode_header_ok d Hge Hd) as (h & Eh & Hh & rest & ->). cbn [obind].
  destruct (negb _); [exists (-1), k; split_and!; try done; lia|]. rewrite Eh. cbn [obind].
  assert (Hc : (h_cmd h = IKCP_CMD_PUSH → h_len h <= zlen (zdrop IKCP_OVERHEAD d) → P (received_segment h (ztake (h_len h) (zdrop IKCP_OVERHEAD d)))) ∧
               (h_len h <= zlen (zdrop IKCP_OVERHEAD d) → carries P (zdrop (h_len h) (zdrop IKCP_OVERHEAD d)))).
  { inversion HP as [? Hlt|? h' rest' Eh' H1 H2]; subst; [lia|]. rewrite Eh in Eh'. by injection Eh' as <- <-. }
  destruct Hc as [Hc1 Hc2]. unfold IKCP_OVERHEAD in *.
  destruct (input_segment_ok k h (zdrop 24 d) m) as [[e ->]|(k1 & m1 & -> & Hl & Hk1 & HR1 & Ha1 & Hs1)]; auto; [lia| |]; cbn [obind].
  { exists e, k. split_and!; try done; lia. }
  destruct Hh. rewrite zlen_zdrop in Hl by lia.
  assert (Hz : zlen (zdrop (h_len h) (zdrop 24 d)) = zlen d - 24 - h_len h) by (rewrite !zlen_zdrop; rewrite ?zlen_zdrop; lia).
  destruct (IH k1 una m1 (zdrop (h_len h) (zdrop 24 d))) as (r & k2 & -> & Hk2 & HR2 & Ha2 & Hs2); try done.
  - by do 2 apply wf_bytes_zdrop.
  - apply Hc2. rewrite zlen_zdrop; lia.
  - lia.
  - lia.
  - exists r, k2. split_and!; try done; [lia|by etrans].
Qed.

Lemma input_ok k d : kcp_wf k → R k → wf_bytes d → carries P d → zlen (acklist k) + zlen d < 2 ^ 31 - 1 →
  ∃ r k', ikcp_input k d = Ok (r, k') ∧ kcp_wf k' ∧ R k' ∧ zlen (acklist k') <= zlen (acklist k) + zlen d ∧ same_sender k k'.
Proof.
  intros Hk HR Hd HP Hn. unfold ikcp_input. destruct (_ <? _).
  { pose proof (zlen_nonneg d). exists (-1), k. split_and!; try done; lia. }
  apply input_loop_ok; try done.
Qed.
End input.

Lemma ikcp_input_any k d : kcp_wf k → wf_bytes d → zlen (acklist k) + zlen d < 2 ^ 31 - 1 →
  ∃ r k', ikcp_input k d = Ok (r, k') ∧ kcp_wf k' ∧ zlen (acklist k') <= zlen (acklist k) + zlen d ∧ same_sender k k'.
Proof.
  intros Hk Hd Hn. destruct (input_ok (λ _, True) (λ _, True)) with (k := k) (d := d) as (r & k' & E & ? & ? & ? & ?); try done.
  { apply (carries_any _ (λ _, I) (length d)); [unfold zlen; lia|done]. }
  eauto 10.
Qed.

(** C16: A datagram of any bytes leaves a well-formed control block well formed: [ikcp_input] reads the headers and the
    data within the datagram, writes within its lists, and returns; on the sending side it only removes segments
    that wait for an acknowledgement. *)
Theorem kcp_input_safe k d : kcp_wf k → wf_bytes d → zlen (acklist k) + zlen d < 2 ^ 31 - 1 →
  ∃ r k', ikcp_input k d = Ok (r, k') ∧ kcp_wf k' ∧ zlen (acklist k') <= zlen (acklist k) + zlen d ∧ same_sender k k'.
Proof. apply ikcp_input_any. Qed.

Lemma kcp_input_safe_witness : ∃ r k', ikcp_input (ikcp_create 7) (replicate 60 255) = Ok (r, k') ∧ kcp_wf k' ∧
  zlen (acklist k') <= 60 ∧ same_sender (ikcp_create 7) k'.
Proof.
  apply (kcp_input_safe (ikcp_create 7) (replicate 60 255)); [apply ikcp_create_wf|apply Forall_replicate; by compute|reflexivity].
Defined.

(** ** The receive window *)

(** What is received fits in the window. *)
Definition fits k : Prop := nrcv_que k <= rcv_wnd k ∧ Forall (λ s, dist (rcv_nxt k) s < rcv_wnd k) (rcv_buf k).

Lemma fits_ext k k' : rcv_core k' = rcv_core k → fits k → fits k'.
Proof. unfold fits. intros [= E1 E2 E3 E4 E5 E6]. by rewrite E1, E2, E3, E6. Qed.

Lemma move_ready_fits buf : ∀ k, rcv_wf (k <| rcv_buf := buf |>) → fits (k <| rcv_buf := buf |>) → fits (move_ready buf k).
Proof.
  induction buf as [|s buf IH]; intros k Hk [Hq Hb]; cbn [move_ready]; [by split|].
  destruct (_ && _) eqn:E; [|by split]. apply andb_true_iff in E as [E%Z.eqb_eq El%Z.ltb_lt].
  pose proof (move_one_wf k s buf Hk E El) as Hk1. apply IH; [done|]. destruct Hk as [H1 H2 H3 H4 H5 H6 H7]. cbn in *.
  pose proof (zlen_nonneg (rcv_queue k)). inversion Hb as [|? ? Hd Hb']; subst. inversion H6 as [|? ? Hs Hf]; subst. split; cbn.
  - rewrite u32_small; lia.
  - rewrite Forall_forall in *. intros x Hx. specialize (Hf x Hx). cbn in Hf. rewrite (dist_self _ s E) in Hf.
    rewrite dist_next by done. specialize (Hb' x Hx). cbn in Hb'. lia.
Qed.

Lemma parse_data_fits k s : rcv_wf k → fits k → 0 <= seg_sn s < 2 ^ 32 → fits (ikcp_parse_data k s).
Proof.
  intros Hk Hf Hs. unfold ikcp_parse_data. destruct (in_window k (seg_sn s)) eqn:Ew; [|done].
  destruct (in_window_near k s Hk Hs Ew) as [Hn Hd].
  destruct (insert_back (rev (rcv_buf k)) s) as [r|] eqn:Ei.
  - apply move_ready_fits; [eapply rcv_wf_ext; [|by eapply insert_wf]; done|]. destruct Hf as [H1 H2]. split; cbn; [done|].
    apply Forall_rev. eapply insert_back_Forall; [exact Ei|done|by apply Forall_rev].
  - apply move_ready_fits; [eapply rcv_wf_ext; [|exact Hk]; done|done].
Qed.

(** Distinct distances below [w]. *)
Lemma sorted_length nxt w l : 0 <= w → StronglySorted (λ s1 s2, dist nxt s1 < dist nxt s2) l → Forall (λ s, dist nxt s < w) l → zlen l <= w.
Proof.
  intros Hw Hs. revert w Hw. enough (H : ∀ w, Forall (λ s, dist nxt s < w) l → l ≠ [] → zlen l <= w - dist nxt (hd (mkSeg 0 0 0 0 0 0 0 0 0 0 0 []) l)).
  { intros w Hw Hf. destruct l as [|s l]; [done|]. specialize (H w Hf ltac:(done)). cbn [hd] in H. unfold dist in H.
    pose proof (u32_range (seg_sn s - nxt)). lia. }
  induction Hs as [|s l Hs IH Hf]; intros w Hw Hne; [done|]. inversion Hw as [|? ? Hd Hw']; subst. rewrite zlen_cons. cbn [hd].
  destruct l as [|s' l]; [change (zlen []) with 0; lia|]. specialize (IH w Hw' ltac:(done)). cbn [hd] in IH. inversion Hf; subst. lia.
Qed.

(** However many segments the peer sends and whatever their numbers, what the receiving side keeps of them
    stays within the receive window: at most [rcv_wnd] segments wait for the application, and at most as many for
    a missing one. *)
Theorem kcp_window_bounded k d : kcp_wf k → fits k → wf_bytes d → zlen (acklist k) + zlen d < 2 ^ 31 - 1 →
  ∃ r k', ikcp_input k d = Ok (r, k') ∧ fits k' ∧ rcv_wnd k' = rcv_wnd k ∧
    zlen (rcv_queue k') <= rcv_wnd k ∧ zlen (rcv_buf k') <= rcv_wnd k.
Proof.
  intros Hk Hf Hd Hn. destruct (input_ok (λ _, True) fits) with (k := k) (d := d) as (r & k' & E & Hk' & Hf' & _ & Hs); try done.
  { apply fits_ext. }
  { intros. by apply parse_data_fits. }
  { apply (carries_any _ (λ _, I) (length d)); [unfold zlen; lia|done]. }
  destruct Hs as (_ & _ & _ & _ & _ & Ew & _). exists r, k'. destruct Hk' as [[H1 H2 H3 H4 H5 H6 H7] _]. pose proof Hf' as [F1 F2].
  split_and!; try done; [by rewrite <- H3, <- Ew|]. rewrite <- Ew. eapply sorted_length; [lia|exact H6|exact F2].
Qed.

Lemma kcp_window_bounded_witness : ∃ r k', ikcp_input (ikcp_create 7) (replicate 60 255) = Ok (r, k') ∧ fits k' ∧ rcv_wnd k' = 128 ∧
  zlen (rcv_queue k') <= 128 ∧ zlen (rcv_buf k') <= 128.
Proof.
  apply (kcp_window_bounded (ikcp_create 7) (replicate 60 255)); [apply ikcp_create_wf|by split|apply Forall_replicate; by compute|reflexivity].
Defined.

(** ** Flush *)

(** A segment on the wire, and the datagrams of segments that satisfy [P]. *)
Definition wire seg : list Z := ikcp_encode_seg seg (seg_len seg) ++ seg_data seg.
Definition datagram (P : IKCPSEG → Prop) (n : Z) d : Prop :=
  ∃ segs, d = concat (map wire segs) ∧ Forall P segs ∧ zlen d <= n.

Lemma zlen_wire seg : zlen (wire seg) = IKCP_OVERHEAD + seg_len seg.
Proof. unfold wire. by rewrite zlen_app, zlen_encode_seg. Qed.

(** The identities of segments once they are numbered from [n] on. *)
Fixpoint numbered (c n : Z) (l : list IKCPSEG) :=
  match l with
  | [] => []
  | s :: l => (c, IKCP_CMD_PUSH, seg_frg s, n, seg_data s) :: numbered c (u32 (n + 1)) l
  end.

(** What a flush does not change. *)
Definition settings k := (conv k, mtu k, mss k, stream k, rcv_core k).

Lemma settings_eq k k' : settings k' = settings k →
  conv k' = conv k ∧ mtu k' = mtu k ∧ mss k' = mss k ∧ stream k' = stream k ∧ rcv_core k' = rcv_core k.
Proof. unfold settings, rcv_core. intros [= ? ? ? ? ? ? ? ? ? ?]. split_and!; congruence. Qed.

Lemma numbered_app c n l l' : numbered c n (l ++ l') = numbered c n l ++ numbered c (u32 (n + zlen l)) l' ∨ l = [].
Proof.
  revert n. induction l as [|s l IH]; intros n; [by right|left]. cbn [app numbered]. f_equal.
  destruct (IH (u32 (n + 1))) as [->| ->]; [|by cbn]. do 2 f_equal. rewrite zlen_cons. unfold u32, uwrap. rewrite Zplus_mod_idemp_l. f_equal. lia.
Qed.

Lemma numbered_prefix c n l l' : numbered c n l `prefix_of` numbered c n (l ++ l').
Proof. destruct (numbered_app c n l l') as [->| ->]; [by eexists|apply prefix_nil]. Qed.

Lemma fill_window_spec queue : ∀ k window wnd, 0 <= snd_nxt k < 2 ^ 32 → nsnd_que k = u32 (zlen queue) → nsnd_buf k = u32 (zlen (snd_buf k)) →
  let k' := fill_window queue k window wnd in
  ∃ moved, queue = moved ++ snd_queue k' ∧ map seg_id (snd_buf k') = map seg_id (snd_buf k) ++ numbered (conv k) (snd_nxt k) moved ∧
    snd_nxt k' = u32 (snd_nxt k + zlen moved) ∧ nsnd_que k' = u32 (zlen (snd_queue k')) ∧ nsnd_buf k' = u32 (zlen (snd_buf k')) ∧
    settings k' = settings k ∧ acklist k' = acklist k ∧ ackblock k' = ackblock k ∧ updated k' = updated k.
Proof.
  induction queue as [|s queue IH]; intros k window wnd Hx Hq Hb; cbn [fill_window].
  { exists []. cbn. rewrite app_nil_r, Z.add_0_r, (u32_small (snd_nxt k)) by done. by split_and!. }
  destruct (_ <? 0).
  2:{ exists []. cbn. rewrite app_nil_r, Z.add_0_r, (u32_small (snd_nxt k)) by done. by split_and!. }
  match goal with |- context [fill_window queue ?a _ _] => set (k1 := a) end.
  destruct (IH k1 window wnd) as (moved & H1 & H2 & H3 & H4 & H5 & H6 & H7 & H8 & H9).
  - cbn. apply u32_range.
  - cbn. rewrite (u32_pred _ _ Hq), zlen_cons. f_equal. lia.
  - cbn. rewrite (u32_succ _ _ Hb), zlen_app. done.
  - exists (s :: moved). split_and!; try done.
    + cbn. by rewrite <- H1.
    + rewrite H2. cbn. by rewrite map_app, <- app_assoc.
    + rewrite H3. cbn. rewrite zlen_cons. unfold u32, uwrap. rewrite Zplus_mod_idemp_l. f_equal. lia.
Qed.

(** The counters and lists of the sending side other than [snd_buf]. *)
Definition snd_rest k := (snd_queue k, nsnd_buf k, nsnd_que k, snd_nxt k, acklist k, ackblock k).

Lemma snd_rest_eq k k' : snd_rest k' = snd_rest k → snd_queue k' = snd_queue k ∧ nsnd_buf k' = nsnd_buf k ∧ nsnd_que k' = nsnd_que k ∧
  snd_nxt k' = snd_nxt k ∧ acklist k' = acklist k ∧ ackblock k' = ackblock k.
Proof. intros [= ? ? ? ? ? ?]. by split_and!. Qed.

(** Sending a segment changes the counter of resends and the state of the link. *)
Definition ticked k k' : Prop := ∃ x st, k' = k <| xmit := x |> <| state := st |>.

Lemma ticked_refl k : ticked k k.
Proof. exists (xmit k), (state k). by destruct k. Qed.
Lemma ticked_trans k1 k2 k3 : ticked k1 k2 → ticked k2 k3 → ticked k1 k3.
Proof. intros (x & st & ->) (x' & st' & ->). by exists x', st'. Qed.
Lemma ticked_xmit k x : ticked k (k <| xmit := x |>).
Proof. exists x, (state k). by destruct k. Qed.
Lemma ticked_state k (c : bool) st : ticked k (if c then k <| state := st |> else k).
Proof. destruct c; [|apply ticked_refl]. exists (xmit k), st. by destruct k. Qed.

Section flush.
Context (P : IKCPSEG → Prop).
Context (P_ext : ∀ s s', seg_id s' = seg_id s → P s → P s').
Context (P_ctl : ∀ s, 0 <= seg_cmd s < 256 → seg_cmd s ≠ IKCP_CMD_PUSH → seg_data s = [] → P s).

Definition out_ok (n : Z) (o : output) : Prop := datagram P n (ptr o) ∧ Forall (datagram P n) (datagrams o).

Lemma datagram_nil n : 0 <= n → datagram P n [].
Proof. intros. exists []. by split_and!. Qed.

Lemma ikcp_output_ok n o : 0 <= n → out_ok n o → out_ok n (ikcp_output o) ∧ ptr (ikcp_output o) = [].
Proof.
  intros Hn [H1 H2]. split; [|done]. split; [by apply datagram_nil|]. cbn. destruct (ptr o); [done|].
  apply Forall_app. split; [done|by constructor].
Qed.

Lemma put_ok k o s : 50 <= mtu k < 2 ^ 30 → out_ok (mtu k) o → seg_len s <= mtu k - IKCP_OVERHEAD → P s →
  ∃ o', put k (make_room k o (IKCP_OVERHEAD + seg_len s)) (wire s) = Ok o' ∧ out_ok (mtu k) o'.
Proof.
  intros Hm Ho Hs HP. set (o1 := make_room _ _ _).
  pose proof (zlen_nonneg (seg_data s)) as Hl. fold (seg_len s) in Hl.
  assert (H1 : out_ok (mtu k) o1 ∧ zlen (ptr o1) + (IKCP_OVERHEAD + seg_len s) <= mtu k).
  { unfold o1, make_room. destruct Ho as [[segs (E & Hsegs & Hlen)] Ho]. pose proof (zlen_nonneg (ptr o)). unfold IKCP_OVERHEAD in *.
    rewrite i32_small by lia. destruct (Z.ltb_spec (mtu k) (zlen (ptr o) + (24 + seg_len s))).
    - destruct (ikcp_output_ok (mtu k) o) as [H1 ->]; [lia|split; [by exists segs|done]|]. split; [done|]. change (zlen []) with 0. lia.
    - split; [split; [by exists segs|done]|lia]. }
  destruct H1 as [[(segs & E & Hsegs & Hlen) Ho1] Hroom]. unfold put. rewrite zlen_wire. pose proof (zlen_nonneg (ptr o1)). unfold IKCP_OVERHEAD in *.
  rewrite (u32_small (mtu k + 24)), u32_small by lia. rewrite (proj2 (Z.ltb_ge _ _)) by lia.
  eexists. split; [reflexivity|]. split; [|done]. exists (segs ++ [s]). cbn [ptr]. rewrite map_app, concat_app. cbn [map concat]. rewrite app_nil_r.
  split_and!; [by rewrite E|apply Forall_app; split; [done|by constructor]|]. rewrite zlen_app, zlen_wire. unfold IKCP_OVERHEAD. lia.
Qed.

Lemma put_header_ok k o s : 50 <= mtu k < 2 ^ 30 → out_ok (mtu k) o → 0 <= seg_cmd s < 256 → seg_cmd s ≠ IKCP_CMD_PUSH → seg_data s = [] →
  ∃ o', put_header k o s = Ok o' ∧ out_ok (mtu k) o'.
Proof.
  intros Hm Ho Hr Hc Hd. unfold put_header. destruct (put_ok k o s) as (o' & E & H); auto.
  { unfold seg_len. rewrite Hd. change (zlen []) with 0. unfold IKCP_OVERHEAD. lia. }
  exists o'. split; [|done]. unfold wire, seg_len in E. rewrite Hd, app_nil_r in E. exact E.
Qed.

(** A header without data whose command is not that of data. *)
Definition control s : Prop := (0 <= seg_cmd s < 256) ∧ seg_cmd s ≠ IKCP_CMD_PUSH ∧ seg_data s = [].

Lemma flush_acks_ok k acks : ∀ s o, 50 <= mtu k < 2 ^ 30 → out_ok (mtu k) o → control s →
  ∃ s' o', flush_acks k acks s o = Ok (s', o') ∧ control s' ∧ out_ok (mtu k) o'.
Proof.
  induction acks as [|[sn ts] acks IH]; intros s o Hm Ho Hs; cbn [flush_acks]; [eauto|].
  destruct (put_header_ok k o (s <| seg_sn := sn |> <| seg_ts := ts |>)) as (o' & -> & Ho'); try apply Hs; try done. cbn [obind].
  by apply IH.
Qed.

Lemma flush_probe_ok k mask cmd s o : 50 <= mtu k < 2 ^ 30 → out_ok (mtu k) o → control s → 0 <= cmd < 256 → cmd ≠ IKCP_CMD_PUSH →
  ∃ s' o', flush_probe k mask cmd s o = Ok (s', o') ∧ control s' ∧ out_ok (mtu k) o'.
Proof.
  intros Hm Ho Hs Hr Hc. unfold flush_probe. destruct (asked k mask); [|eauto].
  assert (control (s <| seg_cmd := cmd |>)) as Hs' by (split; [done|split; [done|apply Hs]]).
  destruct (put_header_ok k o (s <| seg_cmd := cmd |>)) as (o' & -> & Ho'); try apply Hs'; try done. cbn [obind]. eauto.
Qed.

Lemma sent_segment_id k rtomin wnd w s : seg_id (sent_segment k rtomin wnd w s) = seg_id s.
Proof. by destruct w. Qed.

(** One segment of [snd_buf]. *)
Lemma flush_one_ok f w s : let n := mtu (f_kcp f) in
  50 <= n < 2 ^ 30 → seg_len s <= n - IKCP_OVERHEAD → P s → out_ok n (f_out f) →
  ∃ f1, match w with NotNow => Ok f | _ =>
      let k := match w with Timeout => f_kcp f <| xmit := xmit (f_kcp f) +u32 1 |> | _ => f_kcp f end in
      let* o := put k (make_room k (f_out f) (IKCP_OVERHEAD + seg_len s)) (wire s) in
      let k := if dead_link k <=? seg_xmit s then k <| state := u32 (-1) |> else k in
      Ok (mkFlushed k (match w with Fast => f_change f + 1 | _ => f_change f end)
            (match w with Timeout => true | _ => f_lost f end) o) end = Ok f1 ∧
    ticked (f_kcp f) (f_kcp f1) ∧ out_ok n (f_out f1).
Proof.
  intros n Hm Hs HP Ho.
  assert (Hput : ∀ k, mtu k = n → ∃ o', put k (make_room k (f_out f) (IKCP_OVERHEAD + seg_len s)) (wire s) = Ok o' ∧ out_ok n o').
  { intros k Hk. rewrite <- Hk. apply put_ok; rewrite ?Hk; done. }
  destruct w; cbn zeta.
  4:{ exists f. split_and!; [done|apply ticked_refl|done]. }
  2:{ destruct (Hput (f_kcp f <| xmit := xmit (f_kcp f) +u32 1 |>)) as (o' & -> & Ho'); [done|]. cbn [obind].
      eexists. split; [reflexivity|]. split; [|done]. cbn [f_kcp]. eapply ticked_trans; [apply ticked_xmit|apply ticked_state]. }
  all: destruct (Hput (f_kcp f)) as (o' & -> & Ho'); [done|]; cbn [obind];
    eexists; (split; [reflexivity|]); split; [apply ticked_state|done].
Qed.

Lemma flush_data_ok l : ∀ resent rtomin wnd f, let n := mtu (f_kcp f) in
  50 <= n < 2 ^ 30 → Forall (λ s, seg_len s <= n - IKCP_OVERHEAD ∧ P s) l → out_ok n (f_out f) →
  ∃ l' f', flush_data l resent rtomin wnd f = Ok (l', f') ∧ map seg_id l' = map seg_id l ∧
    ticked (f_kcp f) (f_kcp f') ∧ out_ok n (f_out f').
Proof.
  induction l as [|s l IH]; intros resent rtomin wnd f n Hm Hl Ho; cbn [flush_data].
  { exists [], f. split_and!; try done. apply ticked_refl. }
  inversion Hl as [|? ? [Hs HP] Hl']; subst. lazy zeta. set (w := when_to_send _ _ _).
  pose proof (sent_segment_id (f_kcp f) rtomin wnd w s) as Hid. set (s' := sent_segment _ _ _ _ _) in *.
  destruct (flush_one_ok f w s') as (f1 & E & Hf1 & Ho1); [done|by rewrite (seg_id_len _ _ Hid)|by eapply P_ext|done|].
  cbn zeta in E. unfold wire in E. rewrite E. cbn [obind]. destruct Hf1 as (x & st & Hf1).
  destruct (IH resent rtomin wnd f1) as (l' & f2 & -> & Hl2 & Hf2 & Ho2); [by rewrite Hf1..|]. cbn [obind].
  exists (s' :: l'), f2. split_and!; try done; [by cbn; rewrite Hid, Hl2| |by rewrite Hf1 in Ho2].
  eapply ticked_trans; [|exact Hf2]. by exists x, st.
Qed.

Lemma probe_window_core k :
  settings (probe_window k) = settings k ∧ snd_buf (probe_window k) = snd_buf k ∧ snd_rest (probe_window k) = snd_rest k.
Proof.
  unfold probe_window. destruct (_ =? 0); [|done]. destruct (_ =? 0); [done|]. by destruct (0 <=? _).
Qed.

Lemma update_cwnd_core k change lost window resent : let k' := update_cwnd k change lost window resent in
  settings k' = settings k ∧ snd_buf k' = snd_buf k ∧ snd_rest k' = snd_rest k.
Proof. unfold update_cwnd. destruct change, lost; cbn zeta; (destruct (_ <? 1)); done. Qed.

(** What a flush does: some segments of the queue are numbered and enter [snd_buf], and the
    datagrams hold segments that satisfy [P]. *)
Record flush_result k k' (ds : list (list Z)) (moved : list IKCPSEG) : Prop := {
  fr_wf : kcp_wf k';
  fr_queue : snd_queue k = moved ++ snd_queue k';
  fr_buf : map seg_id (snd_buf k') = map seg_id (snd_buf k) ++ numbered (conv k) (snd_nxt k) moved;
  fr_nxt : snd_nxt k' = u32 (snd_nxt k + zlen moved);
  fr_set : settings k' = settings k;
  fr_acks : zlen (acklist k') <= zlen (acklist k);
  fr_out : Forall (datagram P (mtu k)) ds;
}.

Lemma Forall_id (Q : IKCPSEG → Prop) l l' : (∀ s s', seg_id s' = seg_id s → Q s → Q s') →
  map seg_id l' = map seg_id l → Forall Q l → Forall Q l'.
Proof.
  intros HQ. revert l. induction l' as [|s' l' IH]; intros [|s l]; cbn; try done. intros Heq HF.
  inversion HF; subst. injection Heq as E1 E2. constructor; [|by eapply IH].
  eapply HQ; [|done]. unfold seg_id. congruence.
Qed.

(** The identity, as a segment. *)
Definition of_id (i : Z * Z * Z * Z * list Z) : IKCPSEG := let '(c, cmd, frg, sn, d) := i in mkSeg c cmd frg 0 0 sn 0 0 0 0 0 d.

Lemma Forall_of_id (Q : IKCPSEG → Prop) l : (∀ s s', seg_id s' = seg_id s → Q s → Q s') →
  Forall Q l ↔ Forall (λ i, Q (of_id i)) (map seg_id l).
Proof. intros HQ. rewrite Forall_map. split; intros H; (eapply Forall_impl; [exact H|]); intros s; by apply HQ. Qed.

Lemma numbered_len c n l b : Forall (λ s, seg_len s <= b) l → Forall (λ i, seg_len (of_id i) <= b) (numbered c n l).
Proof. revert n. induction l as [|s l IH]; intros n; cbn [numbered]; inversion 1; subst; constructor; auto. Qed.

(** The last part of a flush: the segments of [snd_buf]. *)
Lemma flush_send_ok k o resent rtomin wnd window : 50 <= mtu k < 2 ^ 30 →
  Forall (λ s, seg_len s <= mtu k - IKCP_OVERHEAD ∧ P s) (snd_buf k) → out_ok (mtu k) o →
  ∃ k' ds, (let* '(l, f) := flush_data (snd_buf k) resent rtomin wnd (mkFlushed k 0 false o) in
      let k := f_kcp f <| snd_buf := l |> in
      let o := ikcp_output (f_out f) in
      Ok (update_cwnd k (negb (f_change f =? 0)) (f_lost f) window resent, datagrams o)) = Ok (k', ds) ∧
    settings k' = settings k ∧ map seg_id (snd_buf k') = map seg_id (snd_buf k) ∧ snd_rest k' = snd_rest k ∧ Forall (datagram P (mtu k)) ds.
Proof.
  intros Hm Hl Ho. destruct (flush_data_ok (snd_buf k) resent rtomin wnd (mkFlushed k 0 false o)) as (l & f & -> & Hid & Hf & Hof); [done..|].
  cbn [obind]. eexists _, _. split; [reflexivity|]. cbn [f_kcp] in *. destruct Hf as (x & st & ->).
  match goal with |- context [update_cwnd ?a ?b ?c ?d ?e] => destruct (update_cwnd_core a b c d e) as (E1 & E2 & E3) end.
  split_and!; [by rewrite E1|by rewrite E2|by rewrite E3|]. apply ikcp_output_ok; [lia|done].
Qed.

Lemma ids_len l ids n : map seg_id l = ids → Forall (λ i, seg_len (of_id i) <= n) ids ↔ Forall (λ s, seg_len s <= n) l.
Proof. intros <-. symmetry. apply Forall_of_id. intros s s' E. by rewrite (seg_id_len _ _ E). Qed.

(** The segments that wait for an acknowledgement once the window is filled. *)
Lemma fill_segments_ok k k2 moved : snd_wf k → Forall P (snd_buf k) → Forall (λ i, P (of_id i)) (numbered (conv k) (snd_nxt k) (snd_queue k)) →
  snd_queue k = moved ++ snd_queue k2 → map seg_id (snd_buf k2) = map seg_id (snd_buf k) ++ numbered (conv k) (snd_nxt k) moved →
  Forall (λ s, seg_len s <= mtu k - IKCP_OVERHEAD ∧ P s) (snd_buf k2).
Proof.
  intros [Hm Hms Hlen _ _ _ _] HPb HPq Hq Hb. apply Forall_app in Hlen as [Hlq Hlb]. rewrite <- Hms. apply Forall_and. split.
  - apply (ids_len _ _ _ Hb), Forall_app. split; [by apply (ids_len (snd_buf k))|].
    apply numbered_len. rewrite Hq, Forall_app in Hlq. apply Hlq.
  - apply (Forall_of_id P); [done|]. rewrite Hb. apply Forall_app. split; [by apply Forall_of_id|].
    rewrite Hq in HPq. destruct (numbered_prefix (conv k) (snd_nxt k) moved (snd_queue k2)) as [x Ex].
    rewrite Ex, Forall_app in HPq. apply HPq.
Qed.

Lemma ikcp_flush_ok k : kcp_wf k → Forall P (snd_buf k) → Forall (λ i, P (of_id i)) (numbered (conv k) (snd_nxt k) (snd_queue k)) →
  ∃ k' ds moved, ikcp_flush k = Ok (k', ds) ∧ flush_result k k' ds moved.
Proof.
  intros Hk HPb HPq. unfold ikcp_flush. pose proof Hk as [Hr [Hm Hms Hlen Hnb Hnq Hak Hnx]]. destruct (negb _).
  { exists k, [], []. split; [done|]. split; cbn; try done; [by rewrite app_nil_r|].
    rewrite Z.add_0_r. symmetry. by apply u32_small. }
  lazy zeta.
  destruct (flush_acks_ok k (acklist k) (mkSeg (conv k) IKCP_CMD_ACK 0 (ikcp_wnd_unused k) 0 0 (rcv_nxt k) 0 0 0 0 []) (mkOutput [] []))
    as (s1 & o1 & -> & Hs1 & Ho1); [done| |done|].
  { split; [apply datagram_nil; cbn; lia|constructor]. }
  cbn [obind]. destruct (probe_window_core (k <| acklist := [] |>)) as (Es1 & Eb & Ec1).
  set (k1 := probe_window _) in *. apply settings_eq in Es1 as (Ecv & Em & Ems & Est & Erc).
  apply snd_rest_eq in Ec1 as (Eq & Enb & Enq & Enx & Eal & Eab). cbn in Ecv, Em, Ems, Est, Eb, Eq, Enb, Enq, Enx, Eal, Eab.
  destruct (flush_probe_ok k1 IKCP_ASK_SEND IKCP_CMD_WASK s1 o1) as (s2 & o2 & -> & Hs2 & Ho2); rewrite ?Em; try done. cbn [obind].
  destruct (flush_probe_ok k1 IKCP_ASK_TELL IKCP_CMD_WINS s2 o2) as (s3 & o3 & -> & Hs3 & Ho3); rewrite ?Em; rewrite ?Em in Ho2; try done. cbn [obind].
  match goal with |- context [fill_window ?q ?a ?w ?n] => destruct (fill_window_spec q a w n) as (moved & H1 & H2 & H3 & H4 & H5 & H6 & H7 & H8 & _);
    [by cbn; rewrite Enx|by cbn; rewrite Enq, Eq|by cbn; rewrite Enb, Eb|]; set (k2 := fill_window q a w n) in *; clearbody k2 end.
  cbn -[settings] in H1, H2, H3, H7, H8. rewrite Eq in H1. rewrite Eb, Ecv, Enx in H2. rewrite Enx in H3. rewrite Eal in H7. rewrite Eab in H8.
  apply settings_eq in H6 as (Ecv2 & Em2 & Ems2 & Est2 & Erc2). cbn in Ecv2, Em2, Ems2, Est2. rewrite Em in Em2, Ho3.
  assert (Erc' : rcv_core k2 = rcv_core k) by (rewrite Erc2; exact Erc).
  pose proof (fill_segments_ok k k2 moved (proj2 Hk) HPb HPq H1 H2) as Hl2.
  match goal with |- context [flush_data _ ?a ?b ?c _] => match goal with |- context [update_cwnd _ _ _ ?w _] =>
    destruct (flush_send_ok k2 o3 a b c w) as (k' & ds & E & Es & Eb' & Er & Hds) end end; [by rewrite Em2..|].
  apply settings_eq in Es as (Ecv3 & Em3 & Ems3 & Est3 & Erc3). apply snd_rest_eq in Er as (Eq3 & Enb3 & Enq3 & Enx3 & Eal3 & Eab3).
  exists k', ds, moved. split; [exact E|]. split.
  - split; [eapply rcv_wf_ext; [|exact Hr]; congruence|].
    assert (Hl : length (snd_buf k') = length (snd_buf k2)) by (apply (f_equal length) in Eb'; by rewrite !length_map in Eb').
    split; rewrite ?Em3, ?Ems3, ?Enb3, ?Enq3, ?Eq3, ?Eal3, ?Eab3, ?Enx3, ?Em2, ?Ems2, ?Ems, ?H7, ?H8, ?H3; unfold zlen; rewrite ?Hl; try done.
    + apply Forall_app in Hlen as [Hlq _]. rewrite H1, Forall_app in Hlq. apply Forall_app. split; [apply Hlq|].
      apply (ids_len _ _ _ Eb'), (ids_len (snd_buf k2) _ _ eq_refl). rewrite Hms. eapply Forall_impl; [exact Hl2|]. by intros ? [].
    + pose proof (zlen_nonneg (acklist k)). cbn. lia.
    + apply u32_range.
  - by rewrite Eq3.
  - by rewrite Eb'.
  - by rewrite Enx3.
  - unfold settings. congruence.
  - rewrite Eal3, H7. apply zlen_nonneg.
  - by rewrite Em2 in Hds.
Qed.
End flush.

(** [ikcp_update] is a flush, or nothing, after changes of times only. *)
Lemma ikcp_update_ok (P : IKCPSEG → Prop) k now :
  (∀ s s', seg_id s' = seg_id s → P s → P s') →
  (∀ s, 0 <= seg_cmd s < 256 → seg_cmd s ≠ IKCP_CMD_PUSH → seg_data s = [] → P s) →
  kcp_wf k → Forall P (snd_buf k) → Forall (λ i, P (of_id i)) (numbered (conv k) (snd_nxt k) (snd_queue k)) →
  ∃ k' ds moved, ikcp_update k now = Ok (k', ds) ∧ flush_result P k k' ds moved.
Proof.
  intros Pe Pc Hk HPb HPq. unfold ikcp_update. lazy zeta. set (k1 := if updated _ then _ else _).
  assert (E1 : ∃ c u t, k1 = k <| current := c |> <| updated := u |> <| ts_flush := t |>).
  { unfold k1. destruct (updated _); [exists now, (updated k), (ts_flush k); by destruct k|eexists _, _, _; reflexivity]. }
  clearbody k1. destruct E1 as (c & u & t & ->).
  match goal with |- context [if ?b then (?x, 0) else ?y] => set (p := if b then (x, 0) else y) end. assert (E2 : ∃ t' sl, p = (k <| current := c |> <| updated := u |> <| ts_flush := t' |>, sl)).
  { unfold p. destruct (_ || _); eexists _, _; reflexivity. }
  clearbody p. destruct E2 as (t' & sl & ->).
  assert (Hf : ∀ t, ∃ k' ds moved, ikcp_flush (k <| current := c |> <| updated := u |> <| ts_flush := t |>) = Ok (k', ds) ∧ flush_result P k k' ds moved).
  { intros t2. destruct (ikcp_flush_ok P Pe Pc (k <| current := c |> <| updated := u |> <| ts_flush := t2 |>)) as (k' & ds & moved & E & H); try done.
    { destruct Hk as [Hr Hs]. split; [by apply (rcv_wf_ext k)|by apply (snd_wf_ext k)]. }
    exists k', ds, moved. split; [done|]. destruct H. by split. }
  destruct (0 <=? sl).
  - match goal with |- context [ikcp_flush ?a] => set (k2 := a) end.
    assert (E3 : ∃ t, k2 = k <| current := c |> <| updated := u |> <| ts_flush := t |>) by (unfold k2; destruct (0 <=? _); eexists; reflexivity).
    destruct E3 as [t3 ->]. apply Hf.
  - eexists _, [], []. split; [reflexivity|]. pose proof (sw_nxt _ (proj2 Hk)). destruct Hk as [Hr Hs]. split; cbn; try done.
    + split; [by apply (rcv_wf_ext k)|by apply (snd_wf_ext k)].
    + by rewrite app_nil_r.
    + rewrite Z.add_0_r, u32_small; done.
Qed.

(** ** Settings *)

Lemma ikcp_nodelay_core k nd n resend nc : rcv_core (ikcp_nodelay k nd n resend nc) = rcv_core k ∧ snd_core (ikcp_nodelay k nd n resend nc) = snd_core k.
Proof. unfold ikcp_nodelay. by destruct (0 <=? nd), (0 <=? n), (0 <=? resend), (0 <=? nc). Qed.

Lemma ikcp_nodelay_wf k nd n resend nc : kcp_wf k → kcp_wf (ikcp_nodelay k nd n resend nc).
Proof. intros [Hr Hs]. destruct (ikcp_nodelay_core k nd n resend nc). split; [by eapply rcv_wf_ext|by eapply snd_wf_ext]. Qed.

(** The windows; [rcvwnd] is an [int]. *)
Lemma ikcp_wndsize_wf k sw rw : rw < 2 ^ 31 → kcp_wf k → kcp_wf (ikcp_wndsize k sw rw).
Proof.
  intros Hw [Hr Hs]. destruct Hr as [H1 H2 H3 H4 H5 H6 H7]. unfold ikcp_wndsize.
  destruct (0 <? sw), (Z.ltb_spec 0 rw); (split; [|by apply (snd_wf_ext k)]); split; cbn; try done;
    unfold imax, IKCP_WND_RCV; destruct (Z.leb_spec 128 rw); lia.
Qed.
