(* ===== verification/IkcpMessages.v ===== *)
(** * Messages over KCP

    [ikcp_send] cuts a message into fragments that are numbered down to 0, and [ikcp_recv] puts a message together
    from the first segments of the receive queue: the fragments of a message merge to the message. *)

From Stdlib Require Import ZArith Lia.
From S2P Require Import Prelude Ikcp IkcpFacts.
From stdpp Require Import base numbers list sorting.
Local Open Scope Z_scope.
Local Open Scope mach_scope.

Implicit Types (k : ikcpcb) (seg s : IKCPSEG) (d : list Z).

(** ** Fragments *)

(** [n] fragments of at most [m] bytes, each with the number of those that follow. *)
Fixpoint chunks (n : nat) (m : Z) (d : list Z) : list (Z * list Z) :=
  match n with
  | O => []
  | S i =>
      let size := if m <? zlen d then m else zlen d in
      (Z.of_nat i, ztake size d) :: chunks i m (zdrop size d)
  end.

(** How many fragments a message has, and the fragments. *)
Definition fragment_count (m n : Z) : Z := if n <=? m then 1 else (n + m - 1) / m.
Definition fragments (m : Z) (d : list Z) : list (Z * list Z) := chunks (Z.to_nat (fragment_count m (zlen d))) m d.

(** What a segment holds of a message. *)
Definition seg_part seg : Z * list Z := (seg_frg seg, seg_data seg).

Lemma fragment_count_pos m n : 0 < m → 0 <= n → 1 <= fragment_count m n.
Proof. intros. unfold fragment_count. destruct (Z.leb_spec n m); [lia|]. apply Z.div_le_lower_bound; lia. Qed.

Lemma fragment_count_enough m n : 0 < m → 0 <= n → n <= fragment_count m n * m.
Proof.
  intros. unfold fragment_count. destruct (Z.leb_spec n m); [lia|].
  pose proof (Z.div_mod (n + m - 1) m). pose proof (Z.mod_pos_bound (n + m - 1) m). lia.
Qed.

Lemma length_chunks n m d : length (chunks n m d) = n.
Proof. revert d. induction n; intros d; cbn; auto. Qed.

Lemma chunks_lookup n m d i f : chunks n m d !! i = Some f → fst f = Z.of_nat (n - 1 - i).
Proof.
  revert d i. induction n as [|n IH]; intros d [|i]; cbn [chunks]; try done.
  - intros [= <-]. cbn. f_equal. lia.
  - intros H%IH. rewrite H. f_equal. lia.
Qed.

Lemma chunks_concat n m d : 0 < m → zlen d <= Z.of_nat n * m → concat (map snd (chunks n m d)) = d.
Proof.
  intros Hm. revert d. induction n as [|n IH]; intros d Hd; cbn [chunks map concat snd].
  { symmetry. apply zlen_zero. pose proof (zlen_nonneg d). lia. }
  pose proof (zlen_nonneg d). set (size := if _ <? _ then _ else _ : Z).
  assert (0 <= size <= zlen d ∧ zlen d - size <= Z.of_nat n * m).
  { unfold size. destruct (Z.ltb_spec m (zlen d)); nia. }
  rewrite IH; [apply ztake_zdrop|]. rewrite zlen_zdrop by lia. lia.
Qed.

Lemma fragments_concat m d : 0 < m → concat (map snd (fragments m d)) = d.
Proof.
  intros Hm. pose proof (zlen_nonneg d). apply chunks_concat; [done|].
  pose proof (fragment_count_pos m (zlen d)). rewrite Z2Nat.id by lia. by apply fragment_count_enough.
Qed.

Lemma chunks_len n m d : 0 < m → Forall (λ f, zlen (snd f) <= m) (chunks n m d).
Proof.
  intros Hm. revert d. induction n as [|n IH]; intros d; cbn [chunks]; constructor; [|done]. cbn [snd].
  pose proof (zlen_nonneg d). destruct (Z.ltb_spec m (zlen d)); rewrite zlen_ztake; lia.
Qed.

(** ** Sending *)

Lemma send_loop_spec n : ∀ k d, 0 < mss k → stream k = 0 → let k' := send_loop n k d in
  snd_queue k' = snd_queue k ++ map (λ f, new_segment (fst f) (snd f)) (chunks n (mss k) d) ∧
  (nsnd_que k = u32 (zlen (snd_queue k)) → nsnd_que k' = u32 (zlen (snd_queue k'))) ∧
  snd_buf k' = snd_buf k ∧ nsnd_buf k' = nsnd_buf k ∧ snd_nxt k' = snd_nxt k ∧ settings k' = settings k ∧
  acklist k' = acklist k ∧ ackblock k' = ackblock k.
Proof.
  induction n as [|n IH]; intros k d Hm Hs; cbn [send_loop chunks map]; [by rewrite app_nil_r|]. rewrite Hs. cbn [Z.eqb].
  match goal with |- context [send_loop n ?a ?b] => destruct (IH a b) as (H1 & H2 & H3 & H4 & H5 & H6 & H7 & H8); [done|done|]; set (k' := send_loop n a b) in * end.
  cbn zeta. cbn -[chunks zlen settings] in H1, H2, H3, H4, H5, H7, H8. split_and!; try done.
  - rewrite H1, <- app_assoc. done.
  - intros Hq. apply H2. rewrite (u32_succ _ _ Hq), zlen_app. done.
Qed.

(** Sending changes the send queue and its counter only. *)
Record queued k k' (l : list IKCPSEG) : Prop := {
  qu_queue : snd_queue k' = l;
  qu_nque : nsnd_que k = u32 (zlen (snd_queue k)) → nsnd_que k' = u32 (zlen (snd_queue k'));
  qu_buf : snd_buf k' = snd_buf k ∧ nsnd_buf k' = nsnd_buf k;
  qu_nxt : snd_nxt k' = snd_nxt k;
  qu_set : settings k' = settings k;
  qu_ack : acklist k' = acklist k ∧ ackblock k' = ackblock k;
}.

Lemma queued_wf k k' l : queued k k' l → kcp_wf k → Forall (λ s, seg_len s <= mss k) l → kcp_wf k'.
Proof.
  intros [Hq Hn [Hb Hnb] Hx Hs [Ha Hab]] [Hr [H1 H2 H3 H4 H5 H6 H7]] Hl.
  apply settings_eq in Hs as (Ec & Em & Ems & Est & Er). split; [by eapply rcv_wf_ext|].
  split; rewrite ?Em, ?Ems, ?Hb, ?Hnb, ?Hx, ?Ha, ?Hab; auto. rewrite Hq. apply Forall_app in H3 as [_ H3]. by apply Forall_app.
Qed.

(** One message on the wire: [ikcp_send] cuts it into its fragments, or refuses it and changes nothing. *)
Lemma ikcp_send_spec k d : kcp_wf k → stream k = 0 → zlen d < 2 ^ 31 →
  (fragment_count (mss k) (zlen d) < IKCP_WND_RCV ∧ ∃ k', ikcp_send k d = (0, k') ∧ kcp_wf k' ∧
     queued k k' (snd_queue k ++ map (λ f, new_segment (fst f) (snd f)) (fragments (mss k) d))) ∨
  (IKCP_WND_RCV <= fragment_count (mss k) (zlen d) ∧ ikcp_send k d = (-2, k)).
Proof.
  intros Hk Hs Hd. pose proof Hk as [_ [Hm Hms Hl _ _ _ _]]. unfold IKCP_OVERHEAD in Hms. pose proof (zlen_nonneg d).
  unfold ikcp_send. rewrite Hs. cbn [Z.eqb]. rewrite Hs. cbn [Z.eqb negb andb].
  assert (Ec : (if zlen d <=? mss k then 1 else u32 (zlen d + mss k - 1) / mss k) = fragment_count (mss k) (zlen d)).
  { unfold fragment_count. by rewrite u32_small by lia. }
  rewrite Ec. pose proof (fragment_count_pos (mss k) (zlen d)).
  destruct (Z.leb_spec IKCP_WND_RCV (fragment_count (mss k) (zlen d))); [by right|left]. split; [done|].
  rewrite (proj2 (Z.eqb_neq _ _)) by lia. eexists. split; [reflexivity|].
  destruct (send_loop_spec (Z.to_nat (fragment_count (mss k) (zlen d))) k d) as (H1' & H2 & H3 & H4 & H5 & H6 & H7 & H8); [lia|done|].
  assert (Hq : queued k (send_loop (Z.to_nat (fragment_count (mss k) (zlen d))) k d)
    (snd_queue k ++ map (λ f, new_segment (fst f) (snd f)) (fragments (mss k) d))) by by split.
  split; [|done]. eapply queued_wf; [done..|]. apply Forall_app in Hl as [Hl _]. apply Forall_app. split; [done|].
  apply Forall_map. eapply Forall_impl; [apply chunks_len; lia|]. done.
Qed.

(** ** Receiving *)

(** The segments of the first message of the queue, up to the one with the number 0. *)
Fixpoint first_message (l : list IKCPSEG) : list IKCPSEG * list IKCPSEG :=
  match l with
  | [] => ([], [])
  | s :: l => if seg_frg s =? 0 then ([s], l) else let '(m, rest) := first_message l in (s :: m, rest)
  end.
Definition bytes (l : list IKCPSEG) : list Z := concat (map seg_data l).

Lemma first_message_app l : l = fst (first_message l) ++ snd (first_message l).
Proof. induction l as [|s l IH]; cbn; [done|]. destruct (_ =? 0); [done|]. destruct (first_message l). cbn in *. by rewrite IH. Qed.

Lemma bytes_app l l' : bytes (l ++ l') = bytes l ++ bytes l'.
Proof. unfold bytes. by rewrite map_app, concat_app. Qed.

Lemma bytes_cons s l : zlen (bytes (s :: l)) = seg_len s + zlen (bytes l).
Proof. unfold bytes. cbn [map concat]. by rewrite zlen_app. Qed.

Lemma seg_len_nonneg s : 0 <= seg_len s.
Proof. apply zlen_nonneg. Qed.

Lemma peek_loop_spec l : ∀ n, 0 <= n → n + zlen (bytes (fst (first_message l))) < 2 ^ 31 →
  peek_loop l n = n + zlen (bytes (fst (first_message l))).
Proof.
  induction l as [|s l IH]; intros n Hn; cbn [peek_loop first_message]; [cbn [fst]; change (zlen (bytes [])) with 0; lia|].
  pose proof (seg_len_nonneg s). destruct (_ =? 0); cbn [fst]; [|destruct (first_message l) as [m rest]; cbn [fst] in *];
    rewrite bytes_cons; intros Hl.
  - change (zlen (bytes [])) with 0 in *. rewrite i32_small by lia. lia.
  - pose proof (zlen_nonneg (bytes m)). rewrite i32_small by lia. rewrite IH by lia. lia.
Qed.

Lemma merge_loop_spec room l : ∀ buf n, zlen buf + zlen (bytes (fst (first_message l))) <= room →
  merge_loop room l buf n = Ok (buf ++ bytes (fst (first_message l)), snd (first_message l), n + zlen (fst (first_message l))).
Proof.
  induction l as [|s l IH]; intros buf n; cbn [merge_loop first_message].
  { intros _. cbn. by rewrite app_nil_r, Z.add_0_r. }
  destruct (seg_frg s =? 0) eqn:E.
  - cbn. rewrite app_nil_r. unfold seg_len. intros H. rewrite (proj2 (Z.ltb_ge _ _)) by lia. done.
  - destruct (first_message l) as [m rest] eqn:Em. cbn [fst snd]. unfold bytes. cbn [map concat]. rewrite zlen_app. fold (bytes m).
    intros H. pose proof (zlen_nonneg (bytes m)). unfold seg_len. rewrite (proj2 (Z.ltb_ge _ _)) by lia.
    cbn [fst snd] in IH. rewrite IH by (rewrite zlen_app; lia). rewrite <- app_assoc, zlen_cons. do 2 f_equal. lia.
Qed.

Lemma merge_loop_fault room l : ∀ buf n, zlen buf <= room → room < zlen buf + zlen (bytes (fst (first_message l))) → merge_loop room l buf n = Fault.
Proof.
  induction l as [|s l IH]; intros buf n Hr; cbn [merge_loop first_message].
  { cbn [fst]. change (zlen (bytes [])) with 0. lia. }
  destruct (Z.ltb_spec room (zlen buf + seg_len s)); [done|].
  destruct (seg_frg s =? 0); cbn [fst]; [|destruct (first_message l) as [m rest]; cbn [fst] in *]; rewrite bytes_cons.
  - change (zlen (bytes [])) with 0. lia.
  - intros Hlt. apply IH; rewrite zlen_app; change (zlen (seg_data s)) with (seg_len s); lia.
Qed.

(** A message is in the queue whole: [ikcp_peeksize] finds its last segment. *)
Definition whole k : bool :=
  match rcv_queue k with [] => false | s :: _ => (seg_frg s =? 0) || (seg_frg s +u32 1 <=? nrcv_que k) end.

Lemma peeksize_spec k : zlen (bytes (fst (first_message (rcv_queue k)))) < 2 ^ 31 →
  ikcp_peeksize k = if whole k then zlen (bytes (fst (first_message (rcv_queue k)))) else -1.
Proof.
  intros Hb. unfold ikcp_peeksize, whole. destruct (rcv_queue k) as [|s l] eqn:E; [done|].
  destruct (seg_frg s =? 0) eqn:Ef; cbn [orb].
  - revert Hb. cbn [first_message]. rewrite Ef. cbn [fst]. rewrite bytes_cons. change (zlen (bytes [])) with 0. pose proof (seg_len_nonneg s).
    intros Hb. rewrite i32_small by lia. lia.
  - rewrite Z.ltb_antisym. destruct (_ <=? _); cbn [negb]; [|done]. by rewrite peek_loop_spec by lia.
Qed.

(** The control block after a message has been taken out: what was held back moves up. *)
Definition taken k (rest : list IKCPSEG) : ikcpcb :=
  let k := k <| rcv_queue := rest |> <| nrcv_que := zlen rest |> in move_ready (rcv_buf k) k.

(** [ikcp_recv] on a destination of at least [len] bytes: an error that changes nothing, or the bytes of the
    first message, which leaves the queue. *)
Lemma ikcp_recv_spec k len room : kcp_wf k → zlen (bytes (rcv_queue k)) < 2 ^ 31 → 0 <= len <= room →
  let '(m, rest) := first_message (rcv_queue k) in
  (∃ r, r < 0 ∧ ikcp_recv k len room = Ok (r, [], k) ∧ (whole k = false ∨ len < zlen (bytes m))) ∨
  (whole k = true ∧ zlen (bytes m) <= len ∧
   ∃ k', ikcp_recv k len room = Ok (zlen (bytes m), bytes m, k') ∧ kcp_wf k' ∧
     rcv_core k' = rcv_core (taken k rest) ∧ snd_core k' = snd_core k).
Proof.
  intros Hk Hb Hl. pose proof (first_message_app (rcv_queue k)) as Happ.
  pose proof (peeksize_spec k) as Hp. destruct (first_message (rcv_queue k)) as [m rest] eqn:Em. cbn [fst snd] in Happ, Hp.
  assert (Hbm : zlen (bytes m) < 2 ^ 31).
  { rewrite Happ, bytes_app, zlen_app in Hb. pose proof (zlen_nonneg (bytes rest)). lia. }
  specialize (Hp Hbm). pose proof (zlen_nonneg (bytes m)).
  unfold ikcp_recv. rewrite (proj2 (Z.ltb_ge len 0)) by lia.
  destruct (rcv_queue k) as [|s l] eqn:Eq; [left; exists (-1); split_and!; [lia|done|left; unfold whole; by rewrite Eq]|].
  rewrite Hp. destruct (whole k) eqn:Ew; [|left; exists (-2); split_and!; [lia|done|by left]].
  rewrite (proj2 (Z.ltb_ge (zlen (bytes m)) 0)) by lia.
  destruct (Z.ltb_spec len (zlen (bytes m))); [left; exists (-3); split_and!; [lia|done|right; lia]|].
  right. split; [done|]. split; [lia|].
  rewrite merge_loop_spec; rewrite Em; cbn [fst snd]; [|change (zlen []) with 0; lia]. cbn [obind app].
  eexists. rewrite i32_small by lia. split; [reflexivity|].
  pose proof Hk as [[H1 H2 H3 H4 H5 H6 H7] Hs].
  assert (En : u32 (nrcv_que k - (0 + zlen m)) = zlen rest).
  { rewrite H3, Eq, Happ, zlen_app. pose proof (zlen_nonneg rest). pose proof (zlen_nonneg m).
    rewrite H3, Eq, Happ, zlen_app in H4. rewrite u32_small; lia. }
  rewrite En. set (k1 := k <| rcv_queue := rest |> <| nrcv_que := zlen rest |>).
  assert (Hk1 : rcv_wf (move_ready (rcv_buf k1) k1)).
  { apply move_ready_wf. split; cbn; try done. rewrite <- En. pose proof (zlen_nonneg m).
    rewrite En. rewrite H3, Eq, Happ, zlen_app in H4. lia. }
  destruct (move_ready_snd (rcv_buf k1) k1) as [Es _].
  assert (E : ∀ c : bool, rcv_core (if c then move_ready (rcv_buf k1) k1 <| probe := Z.lor (probe (move_ready (rcv_buf k1) k1)) IKCP_ASK_TELL |> else move_ready (rcv_buf k1) k1)
      = rcv_core (taken k rest) ∧
    snd_core (if c then move_ready (rcv_buf k1) k1 <| probe := Z.lor (probe (move_ready (rcv_buf k1) k1)) IKCP_ASK_TELL |> else move_ready (rcv_buf k1) k1)
      = snd_core k) by (intros []; done).
  match goal with |- context [if ?c then _ else _] => destruct (E c) as [E1 E2] end.
  split; [|done]. split; [eapply rcv_wf_ext; [exact E1|exact Hk1]|by eapply snd_wf_ext].
Qed.

(** The fragments of a message at the head of a queue are its first message. *)
Lemma first_message_chunks n m : ∀ d q rest, map seg_part q = chunks (S n) m d ++ rest →
  first_message q = (take (S n) q, drop (S n) q).
Proof.
  induction n as [|n IH]; intros d [|s q] rest; cbn [chunks map]; try done; intros [= Ef Ed Eq]; cbn [first_message].
  - by rewrite Ef.
  - rewrite (proj2 (Z.eqb_neq _ _)) by lia. by rewrite (IH _ _ _ Eq).
Qed.

Lemma bytes_parts l : bytes l = concat (map snd (map seg_part l)).
Proof. unfold bytes. by rewrite map_map. Qed.

(** Merging the first message undoes the fragmentation. *)
Lemma first_message_fragments m d q rest : 0 < m → map seg_part q = fragments m d ++ rest →
  bytes (fst (first_message q)) = d ∧ map seg_part (snd (first_message q)) = rest.
Proof.
  intros Hm Hq. unfold fragments in Hq. pose proof (fragment_count_pos m (zlen d) Hm (zlen_nonneg d)).
  destruct (Z.to_nat (fragment_count m (zlen d))) as [|n] eqn:En; [lia|].
  rewrite (first_message_chunks _ _ _ _ _ Hq). cbn [fst snd]. rewrite bytes_parts, <- firstn_map, <- skipn_map, Hq.
  rewrite take_app_length', drop_app_length' by (by rewrite length_chunks). split; [|done].
  rewrite <- En. by apply fragments_concat.
Qed.

Lemma ikcp_send_wf k d : kcp_wf k → stream k = 0 → zlen d < 2 ^ 31 → kcp_wf (snd (ikcp_send k d)).
Proof. intros Hk Hs Hd. destruct (ikcp_send_spec k d Hk Hs Hd) as [(_ & k' & -> & H & _)|[_ ->]]; done. Qed.

(** ** Datagrams *)

(** C17: [ikcp_update] always returns: it writes within its buffer, no datagram that it gives to the output callback
    is longer than the [mtu], each is a sequence of whole segments, and the control block stays well formed. *)
Theorem kcp_update_mtu k now : kcp_wf k →
  ∃ k' ds, ikcp_update k now = Ok (k', ds) ∧ kcp_wf k' ∧
    Forall (λ d, zlen d <= mtu k ∧ ∃ segs, d = concat (map wire segs)) ds.
Proof.
  intros Hk. destruct (ikcp_update_ok (λ _, True) k now) as (k' & ds & moved & E & H); try done; [by apply Forall_true..|].
  exists k', ds. split_and!; [done|by apply H|]. eapply Forall_impl; [apply H|]. intros d (segs & ? & _ & ?). eauto.
Qed.

Lemma kcp_update_mtu_witness : ∃ k' ds, ikcp_update (snd (ikcp_send (ikcp_create 7) (replicate 100 65))) 5 = Ok (k', ds) ∧ kcp_wf k' ∧
  Forall (λ d, zlen d <= 1400 ∧ ∃ segs, d = concat (map wire segs)) ds.
Proof. apply kcp_update_mtu, ikcp_send_wf; [apply ikcp_create_wf|done|by compute]. Defined.

(** ** The next segment *)

Lemma decode32u_wire s : ∃ rest, decode32u (wire s) = Ok (u32 (seg_conv s), rest).
Proof.
  unfold wire, ikcp_encode_seg, decode32u, encode32u. rewrite <- !app_assoc. eexists. by rewrite (decode_le 4).
Qed.

(** A segment that is next in order moves to the queue at once. *)
Lemma parse_data_next k s : rcv_wf k → rcv_queue k = [] → rcv_buf k = [] → seg_sn s = rcv_nxt k →
  rcv_queue (ikcp_parse_data k s) = [s] ∧ rcv_buf (ikcp_parse_data k s) = [] ∧ rcv_nxt (ikcp_parse_data k s) = rcv_nxt k +u32 1.
Proof.
  intros [H1 H2 H3 H4 H5 H6 H7] Hq Hb Hs. unfold ikcp_parse_data.
  assert (Hw : in_window k (seg_sn s) = true).
  { unfold in_window, itimediff. rewrite Hs, negb_true_iff, orb_false_iff, Z.leb_gt, Z.ltb_ge. mach. }
  rewrite Hw, Hb. cbn [rev insert_back app]. cbn [move_ready rcv_buf rcv_nxt nrcv_que rcv_wnd].
  cbn -[Z.eqb Z.ltb]. rewrite Hs, Z.eqb_refl, H3, Hq. change (zlen []) with 0. rewrite (proj2 (Z.ltb_lt _ _)) by lia. cbn. by rewrite ?Hq.
Qed.

Lemma input_push_next k h d : kcp_wf k → header_wf h → rcv_queue k = [] → rcv_buf k = [] → h_sn h = rcv_nxt k → h_len h = zlen d → zlen (acklist k) < 2 ^ 31 - 1 →
  ∃ k', input_push k h d = Ok k' ∧ kcp_wf k' ∧ rcv_queue k' = [received_segment h d] ∧ rcv_buf k' = [] ∧
    rcv_nxt k' = rcv_nxt k +u32 1 ∧ conv k' = conv k ∧ zlen (acklist k') = zlen (acklist k) + 1.
Proof.
  intros Hk Hh Hq Hb Hs Hl Hn. unfold input_push. pose proof (rw_wnd _ (proj1 Hk)). pose proof (rw_nxt _ (proj1 Hk)).
  rewrite (proj2 (Z.ltb_lt _ _)) by (rewrite Hs; unfold itimediff; mach).
  destruct (ack_push_ok k (h_sn h) (h_ts h) Hk Hn) as (k1 & -> & Hk1 & Hr1 & Ha1 & Hv1 & _). cbn [obind].
  pose proof Hr1 as E. injection E as E1 E2 E3 E4 E5 E6. rewrite E2.
  rewrite (proj2 (Z.leb_le _ _)) by (rewrite Hs; unfold itimediff; rewrite Z.sub_diag; done).
  rewrite mem_read_ok by (pose proof (zlen_nonneg d); lia). cbn [obind]. eexists. split; [reflexivity|].
  assert (Hd : ztake (h_len h) (zdrop 0 d) = d) by (rewrite zdrop_0, ztake_all; [done|lia]). rewrite Hd. fold (received_segment h d).
  destruct (parse_data_snd k1 (received_segment h d)) as [Es _]. destruct Hk1 as [Hr Hsn].
  destruct (parse_data_next k1 (received_segment h d) Hr) as (Hq' & Hb' & Hn'); [by rewrite E4|by rewrite E6|by rewrite E2|].
  pose proof Es as Es'. injection Es' as _ _ _ _ _ Ec _ _ _ Ea _.
  split_and!; try done; [split; [apply parse_data_wf; [done|apply Hh]|by eapply snd_wf_ext]|by rewrite Hn', E2|by rewrite Ec|].
  by rewrite Ea, Ha1, zlen_app.
Qed.

(** A datagram that holds the segment that is next in order, and nothing held it back: the segment is in the queue. *)
Lemma input_next k s : kcp_wf k → rcv_queue k = [] → rcv_buf k = [] → zlen (acklist k) < 2 ^ 31 - 1 →
  seg_conv s = conv k → 0 <= conv k < 2 ^ 32 → seg_cmd s = IKCP_CMD_PUSH → 0 <= seg_frg s < 256 → seg_sn s = rcv_nxt k →
  seg_len s < 2 ^ 31 - IKCP_OVERHEAD → wf_bytes (seg_data s) →
  ∃ k' s', ikcp_input k (wire s) = Ok (0, k') ∧ kcp_wf k' ∧ rcv_queue k' = [s'] ∧ seg_part s' = seg_part s ∧ rcv_buf k' = [] ∧
    rcv_nxt k' = rcv_nxt k +u32 1 ∧ conv k' = conv k ∧ zlen (acklist k') = zlen (acklist k) + 1.
Proof.
  intros Hk Hq Hb Hn Hc Hcr Hcmd Hf Hs Hl Hw. pose proof (seg_len_nonneg s). pose proof (rw_nxt _ (proj1 Hk)). unfold IKCP_OVERHEAD in Hl.
  unfold ikcp_input. rewrite zlen_wire. unfold IKCP_OVERHEAD. rewrite i32_small by lia. rewrite (proj2 (Z.ltb_ge _ _)) by lia.
  assert (Hlen : length (wire s) = S (Z.to_nat (23 + seg_len s))).
  { pose proof (zlen_wire s) as E. unfold zlen, IKCP_OVERHEAD in E. lia. }
  rewrite Hlen. cbn [input_loop]. rewrite zlen_wire. rewrite (proj2 (Z.ltb_ge _ _)) by (unfold IKCP_OVERHEAD; lia).
  destruct (decode32u_wire s) as [rest ->]. cbn [obind]. rewrite Hc, u32_small, Z.eqb_refl by done. cbn [negb].
  unfold wire. rewrite decode_header_encode. cbn [obind]. rewrite Hc, Hcmd, Hs.
  change (u8 IKCP_CMD_PUSH) with IKCP_CMD_PUSH. assert (Ef : u8 (seg_frg s) = seg_frg s) by (unfold u8, uwrap; by rewrite Z.mod_small).
  rewrite Ef, (u32_small (conv k)), (u32_small (rcv_nxt k)), (u32_small (seg_len s)) by lia.
  match goal with |- context [input_segment k ?a _ _] => set (h := a) end.
  unfold input_segment. change (h_len h) with (seg_len s). change (zlen (seg_data s)) with (seg_len s). rewrite Z.ltb_irrefl, i32_small by lia.
  rewrite (proj2 (Z.ltb_ge (seg_len s) 0)) by lia. cbn [orb]. change (h_cmd h) with IKCP_CMD_PUSH. cbn [Z.eqb IKCP_CMD_PUSH IKCP_CMD_ACK Pos.eqb orb negb]. lazy zeta.
  set (k1 := ikcp_shrink_buf _). assert (H1 : shrinks k k1).
  { etrans; [|apply shrink_buf_shrinks]. etrans; [|apply parse_una_shrinks]. by apply shrinks_ext. }
  pose proof (shrinks_wf _ _ H1 Hk) as Hk1. pose proof (sh_rcv _ _ H1) as Er. injection Er as E1 E2 E3 E4 E5 E6.
  assert (Hh : header_wf h).
  { split; unfold h; cbn [h_conv h_cmd h_frg h_wnd h_ts h_sn h_una h_len]; first [done|apply u32_range|apply Z.mod_pos_bound; lia|lia]. }
  destruct (input_push_next k1 h (seg_data s)) as (k2 & -> & Hk2 & Hq2 & Hb2 & Hn2 & Hc2 & Ha2); first [done|by rewrite E4|by rewrite E6|by rewrite E2|by rewrite (proj1 (sh_acks _ _ H1))|idtac].
  cbn [obind]. assert (Ez : zdrop (seg_len s) (seg_data s) = []) by (by apply zdrop_all). rewrite Ez.
  assert (Eend : ∀ fuel m, input_loop fuel k2 (snd_una k) m [] = Ok (0, input_end k2 (snd_una k) m)) by (by intros []). rewrite Eend.
  pose proof (input_end_shrinks k2 (snd_una k) None) as H3. pose proof (sh_rcv _ _ H3) as Er3. injection Er3 as F1 F2 F3 F4 F5 F6.
  exists (input_end k2 (snd_una k) None), (received_segment h (seg_data s)).
  split_and!; [done|by eapply shrinks_wf|by rewrite F4|done|by rewrite F6|by rewrite F2, Hn2, E2|by rewrite (sh_conv _ _ H3), Hc2, (sh_conv _ _ H1)|].
  by rewrite (proj1 (sh_acks _ _ H3)), Ha2, (proj1 (sh_acks _ _ H1)).
Qed.

(** ** Limits of the protocol *)

(** A peer that numbers the fragments of a message beyond the receive window blocks the receiver: the message is
    never whole, and the messages behind it wait with it. *)
Lemma long_message_blocks k s q len room : kcp_wf k → fits k → rcv_queue k = s :: q → rcv_wnd k <= seg_frg s < 256 → 0 <= len →
  ikcp_recv k len room = Ok (-2, [], k).
Proof.
  intros [[H1 _ _ _ _ _ _] _] [Hf _] Hq Hs Hlen. unfold ikcp_recv, ikcp_peeksize. rewrite Hq.
  rewrite (proj2 (Z.eqb_neq (seg_frg s) 0)), (u32_small (seg_frg s + 1)) by lia. rewrite (proj2 (Z.ltb_lt (nrcv_que k) _)) by lia. done.
Qed.

(** A smaller [mtu] while longer segments wait: the next flush writes beyond the new buffer. *)
Lemma setmtu_overrun : ikcp_update (snd (ikcp_setmtu (ikcp_nodelay (snd (ikcp_send (ikcp_create 7) (replicate 1000 65))) 1 10 2 1) 50)) 5 = Fault.
Proof. vm_compute. reflexivity. Qed.
