(* ===== verification/IkcpNet.v ===== *)
(** * Reliable delivery of messages over KCP

    Two control blocks joined by a network that loses, repeats and reorders datagrams: whatever it does, the
    messages that one side receives are those that the other side sent, in the order in which they were sent,
    none twice and none left out. *)

From Stdlib Require Import ZArith Lia Relations.
From S2P Require Import Prelude Ikcp IkcpFacts IkcpMessages.
From stdpp Require Import base numbers list sorting relations.
Local Open Scope Z_scope.
Local Open Scope mach_scope.

Implicit Types (k : ikcpcb) (seg s : IKCPSEG) (d : list Z).

(** ** Histories *)

(** The fragments of all messages that were sent, in order: the one at [i] gets the number [i]. *)
Notation history := (list (Z * list Z)).
Implicit Types (H : history).

Record history_ok H : Prop := {
  ho_len : zlen H < 2 ^ 31;
  ho_parts : Forall (λ f, 0 <= fst f < 256 ∧ zlen (snd f) < 2 ^ 31 ∧ wf_bytes (snd f)) H;
}.

(** A segment of data holds what the history has at its number; the others hold nothing. *)
Record authentic H seg : Prop := {
  au_cmd : 0 <= seg_cmd seg < 256;
  au_push : seg_cmd seg = IKCP_CMD_PUSH → 0 <= seg_sn seg ∧ H !! Z.to_nat (seg_sn seg) = Some (seg_part seg);
  au_ctl : seg_cmd seg ≠ IKCP_CMD_PUSH → seg_data seg = [];
}.

Lemma authentic_ext H s s' : seg_id s' = seg_id s → authentic H s → authentic H s'.
Proof.
  intros [= Ec Em Ef En Ed] [H1 H2 H3]. split; rewrite ?Em, ?En, ?Ed; try done. unfold seg_part in *. by rewrite Ef, Ed.
Qed.

Lemma authentic_ctl H s : 0 <= seg_cmd s < 256 → seg_cmd s ≠ IKCP_CMD_PUSH → seg_data s = [] → authentic H s.
Proof. by split. Qed.

Lemma authentic_app H H' s : authentic H s → authentic (H ++ H') s.
Proof. intros [H1 H2 H3]. split; try done. intros E. destruct (H2 E). split; [done|by apply lookup_app_l_Some]. Qed.

(** ** The sender *)

Lemma numbered_authentic H c q : ∀ n, 0 <= n → zlen H < 2 ^ 31 → map seg_part q = drop (Z.to_nat n) H →
  Forall (λ i, authentic H (of_id i)) (numbered c n q).
Proof.
  induction q as [|s q IH]; intros n Hn HH Hq; cbn [numbered]; [constructor|]. cbn [map] in Hq.
  assert (Hl : H !! Z.to_nat n = Some (seg_part s)).
  { rewrite <- (Nat.add_0_r (Z.to_nat n)), <- lookup_drop, <- Hq. done. }
  pose proof (lookup_lt_Some _ _ _ Hl) as Hlt. unfold zlen in HH.
  constructor; [split; cbn; done|]. rewrite u32_small by lia. apply IH; [lia|done|].
  rewrite (drop_S H (seg_part s) _ Hl) in Hq. injection Hq as Hq. rewrite Hq. f_equal. lia.
Qed.

Lemma drop_moved H n moved q : 0 <= n → map seg_part (moved ++ q) = drop (Z.to_nat n) H →
  map seg_part q = drop (Z.to_nat (n + zlen moved)) H.
Proof.
  intros Hn Hq. rewrite map_app in Hq. unfold zlen. replace (Z.to_nat (n + Z.of_nat (length moved))) with (Z.to_nat n + length moved)%nat by lia.
  rewrite <- drop_drop, <- Hq. rewrite drop_app_length'; [done|]. by rewrite length_map.
Qed.

Record sender_ok H k : Prop := {
  so_wf : kcp_wf k;
  so_stream : stream k = 0;
  so_nxt : snd_nxt k <= zlen H;
  so_queue : map seg_part (snd_queue k) = drop (Z.to_nat (snd_nxt k)) H;
  so_buf : Forall (authentic H) (snd_buf k);
}.

(** Receiving anything does not disturb a sender. *)
Lemma sender_same H k k' : same_sender k k' → kcp_wf k' → sender_ok H k → sender_ok H k'.
Proof.
  intros (Hb & Hq & Hx & Hc & Hs & _ & _) Hk [H1 H2 H3 H4 H5]. split; rewrite ?Hq, ?Hx, ?Hs; try done.
  apply (Forall_of_id (authentic H)); [apply authentic_ext|]. eapply sublist_Forall; [exact Hb|].
  apply (Forall_of_id (authentic H)); [apply authentic_ext|done].
Qed.

Lemma sender_core H k k' : snd_core k' = snd_core k → kcp_wf k' → sender_ok H k → sender_ok H k'.
Proof. intros [= E1 E2 E3 E4 E5 E6 E7 E8 E9 E10 E11] Hk [H1 H2 H3 H4 H5]. split; rewrite ?E1, ?E2, ?E5, ?E9; done. Qed.

Lemma sender_update H k now : zlen H < 2 ^ 31 → sender_ok H k →
  ∃ k' ds, ikcp_update k now = Ok (k', ds) ∧ sender_ok H k' ∧ settings k' = settings k ∧ Forall (datagram (authentic H) (mtu k)) ds.
Proof.
  intros HH [H1 H2 H3 H4 H5]. pose proof (sw_nxt _ (proj2 H1)) as Hx.
  assert (HN : Forall (λ i, authentic H (of_id i)) (numbered (conv k) (snd_nxt k) (snd_queue k))) by (apply numbered_authentic; [lia|done|done]).
  destruct (ikcp_update_ok (authentic H) k now) as (k' & ds & moved & E & [F1 F2 F3 F4 F5 F6 F7]); try done;
    [apply authentic_ext|].
  exists k', ds. split_and!; try done. rewrite F2 in H4. pose proof (drop_moved H (snd_nxt k) moved (snd_queue k') (proj1 Hx) H4) as Hd.
  assert (Hle : snd_nxt k + zlen moved <= zlen H).
  { apply (f_equal length) in H4. rewrite length_map, length_app, length_drop in H4. unfold zlen in *. lia. }
  pose proof (zlen_nonneg moved). apply settings_eq in F5 as (_ & _ & _ & Est & _). split; try done.
  - by rewrite Est.
  - rewrite F4, u32_small; lia.
  - rewrite F4, u32_small by lia. done.
  - apply (Forall_of_id (authentic H)); [apply authentic_ext|]. rewrite F3. apply Forall_app. split.
    + apply (Forall_of_id (authentic H)); [apply authentic_ext|done].
    + destruct (numbered_prefix (conv k) (snd_nxt k) moved (snd_queue k')) as [x Ex]. rewrite F2, Ex, Forall_app in HN. apply HN.
Qed.

Lemma sender_send H k d : sender_ok H k → zlen d < 2 ^ 31 → ∀ k', ikcp_send k d = (0, k') →
  fragment_count (mss k) (zlen d) < IKCP_WND_RCV ∧ sender_ok (H ++ fragments (mss k) d) k' ∧ settings k' = settings k.
Proof.
  intros [H1 H2 H3 H4 H5] Hd k' E. destruct (ikcp_send_spec k d H1 H2 Hd) as [(Hc & k1 & E1 & Hk1 & Q)|[_ E1]]; [|congruence].
  rewrite E in E1. injection E1 as <-. destruct Q as [Q1 Q2 [Q3 Q4] Q5 Q6 Q7]. split; [done|]. split; [|done].
  pose proof (settings_eq _ _ Q6) as (_ & _ & _ & Est & _). pose proof (sw_nxt _ (proj2 H1)).
  split; rewrite ?Est, ?Q1, ?Q3, ?Q5; try done.
  - rewrite zlen_app. pose proof (zlen_nonneg (fragments (mss k) d)). lia.
  - rewrite map_app, H4, map_map, drop_app_le by (unfold zlen in H3; lia). f_equal.
    rewrite <- (map_id (fragments (mss k) d)) at 2. apply map_ext. by intros [].
  - eapply Forall_impl; [exact H5|]. intros s. apply authentic_app.
Qed.

(** ** The receiver *)

(** A segment that was received holds what the history has at its number. *)
Definition held H seg : Prop := 0 <= seg_sn seg ∧ H !! Z.to_nat (seg_sn seg) = Some (seg_part seg).

(** [c] is what the application has taken out already. *)
Record receiver_ok H (c : history) k : Prop := {
  ro_nxt : 0 <= rcv_nxt k <= zlen H;
  ro_queue : c ++ map seg_part (rcv_queue k) = take (Z.to_nat (rcv_nxt k)) H;
  ro_buf : Forall (held H) (rcv_buf k);
}.

Lemma receiver_ext H c k k' : rcv_core k' = rcv_core k → receiver_ok H c k → receiver_ok H c k'.
Proof. intros [= E1 E2 E3 E4 E5 E6] [H1 H2 H3]. split; rewrite ?E2, ?E4, ?E6; done. Qed.

Lemma receiver_app H H' c k : receiver_ok H c k → receiver_ok (H ++ H') c k.
Proof.
  intros [H1 H2 H3]. pose proof (zlen_nonneg H'). split.
  - rewrite zlen_app. lia.
  - rewrite H2, take_app_le by (unfold zlen in H1; lia). done.
  - eapply Forall_impl; [exact H3|]. intros s [? ?]. split; [done|by apply lookup_app_l_Some].
Qed.

Lemma move_ready_receiver H c buf : zlen H < 2 ^ 31 → ∀ k, receiver_ok H c (k <| rcv_buf := buf |>) → receiver_ok H c (move_ready buf k).
Proof.
  intros HH. induction buf as [|s buf IH]; intros k [H1 H2 H3]; cbn [move_ready]; [by split|].
  destruct (_ && _) eqn:E; [|by split]. apply andb_true_iff in E as [E%Z.eqb_eq _]. cbn in H1, H2, H3.
  inversion H3 as [|? ? [Hs Hl] Hb]; subst. rewrite E in Hl. pose proof (lookup_lt_Some _ _ _ Hl). unfold zlen in *.
  apply IH. split; cbn -[take]; try done.
  - rewrite u32_small by lia. unfold zlen. lia.
  - rewrite u32_small by lia. rewrite map_app, app_assoc, H2. cbn.
    replace (Z.to_nat (rcv_nxt k + 1)) with (S (Z.to_nat (rcv_nxt k))) by lia. by rewrite (take_S_r _ _ _ Hl).
Qed.

Lemma insert_receiver H c k s r n : receiver_ok H c k → held H s → insert_back (rev (rcv_buf k)) s = Some r →
  receiver_ok H c (k <| rcv_buf := rev r |> <| nrcv_buf := n |>).
Proof.
  intros [H1 H2 H3] Hs Ei. split; cbn; try done.
  eapply (insert_back_Forall (held H)) in Ei; [|done|by apply Forall_rev]. by apply Forall_rev.
Qed.

Lemma parse_data_receiver H c k s : zlen H < 2 ^ 31 → receiver_ok H c k → held H s → receiver_ok H c (ikcp_parse_data k s).
Proof.
  intros HH Hk Hs. unfold ikcp_parse_data. destruct (in_window k _); [|done].
  destruct (insert_back _ s) as [r|] eqn:Ei; apply move_ready_receiver; try done; [|by destruct Hk].
  by eapply receiver_ext; [|by eapply insert_receiver].
Qed.

(** A datagram of authentic segments carries what the history has. *)
Lemma authentic_carries H n d : history_ok H → datagram (authentic H) n d → carries (held H) d ∧ wf_bytes d.
Proof.
  intros [HH Hp] (segs & -> & Hs & _). clear n. induction Hs as [|s segs [Hc Hpush Hctl] _ [IH1 IH2]]; cbn [map concat].
  { split; [by apply carries_end|constructor]. }
  assert (Hlen : 0 <= seg_len s < 2 ^ 31 ∧ wf_bytes (seg_data s) ∧ (seg_cmd s = IKCP_CMD_PUSH → 0 <= seg_frg s < 256 ∧ seg_sn s < 2 ^ 31)).
  { destruct (decide (seg_cmd s = IKCP_CMD_PUSH)) as [E|E].
    - destruct (Hpush E) as [Hn Hl]. pose proof (lookup_lt_Some _ _ _ Hl). eapply Forall_lookup_1 in Hp as (Hf & Hd & Hw); [|exact Hl]. cbn in *.
      unfold zlen in *. split_and!; try done; [unfold seg_len; apply zlen_nonneg|lia..].
    - unfold seg_len. rewrite (Hctl E). split_and!; try done. constructor. }
  destruct Hlen as (Hlen & Hw & Hr). unfold wire at 1 3. rewrite <- !app_assoc. split.
  - eapply carries_segment; [apply decode_header_encode| |].
    + cbn [h_cmd h_len]. intros Ec _. unfold u8, uwrap in Ec. rewrite Z.mod_small in Ec by done. destruct (Hpush Ec) as [Hn Hl]. destruct (Hr Ec) as [Hf Hsn].
      unfold received_segment, held, seg_part in *. cbn -[Z.pow ztake]. rewrite (u32_small (seg_sn s)), (u32_small (seg_len s)) by lia.
      rewrite ztake_app_eq by done. unfold u8, uwrap. rewrite (Z.mod_small (seg_frg s)) by done. done.
    + cbn [h_len]. intros _. rewrite u32_small by lia. by rewrite zdrop_app_eq.
  - unfold ikcp_encode_seg, encode32u, encode16u, encode8u. rewrite !wf_bytes_app. split_and!; try done; apply le_bytes_wf.
Qed.

Lemma receiver_input H c k n d : history_ok H → kcp_wf k → receiver_ok H c k → datagram (authentic H) n d → zlen (acklist k) + zlen d < 2 ^ 31 - 1 →
  ∃ r k', ikcp_input k d = Ok (r, k') ∧ kcp_wf k' ∧ receiver_ok H c k' ∧ same_sender k k'.
Proof.
  intros HH Hk Hr Hd Hn. destruct (authentic_carries H n d HH Hd) as [Hc Hw].
  destruct (input_ok (held H) (receiver_ok H c)) with (k := k) (d := d) as (r & k' & E & ? & ? & _ & ?); try done.
  - intros ? ?. apply receiver_ext.
  - intros k1 s _ H1 _ Hs. apply parse_data_receiver; [apply HH|done..].
  - eauto 10.
Qed.

(** The history of a list of messages. *)
Definition history_of (m : Z) (msgs : list (list Z)) : history := concat (map (fragments m) msgs).

Lemma history_of_app m l l' : history_of m (l ++ l') = history_of m l ++ history_of m l'.
Proof. unfold history_of. by rewrite map_app, concat_app. Qed.

(** The whole message at the head of a queue is the next one of the history. *)
Lemma whole_fragments m msgs n k : 0 < m → msgs ≠ [] → rcv_wf k → Forall (λ d, fragment_count m (zlen d) < 256) msgs →
  map seg_part (rcv_queue k) = take n (history_of m msgs) → whole k = true →
  ∃ d msgs' rest, msgs = d :: msgs' ∧ map seg_part (rcv_queue k) = fragments m d ++ rest.
Proof.
  intros Hm Hne Hk Hf Hq Hw. destruct msgs as [|d msgs]; [done|]. exists d, msgs. inversion Hf as [|? ? Hd _]; subst.
  change (history_of m (d :: msgs)) with (fragments m d ++ history_of m msgs) in Hq.
  pose proof (fragment_count_pos m (zlen d) Hm (zlen_nonneg d)) as Hc.
  assert (Hl : length (fragments m d) = Z.to_nat (fragment_count m (zlen d))) by apply length_chunks.
  enough (Hn : (length (fragments m d) <= n)%nat).
  { rewrite take_app_ge in Hq by done. eauto. }
  assert (Hlen : (length (rcv_queue k) <= n)%nat).
  { apply (f_equal length) in Hq. rewrite length_map, length_take in Hq. lia. }
  unfold whole in Hw. rewrite (rw_nque _ Hk) in Hw. destruct (rcv_queue k) as [|s q]; [done|].
  assert (E : seg_frg s = Z.of_nat (Z.to_nat (fragment_count m (zlen d)) - 1)).
  { assert (Hlook : (map seg_part (s :: q)) !! 0%nat = Some (seg_part s)) by done. rewrite Hq in Hlook.
    apply lookup_take_Some in Hlook as [Hlook _]. rewrite lookup_app_l in Hlook by lia.
    apply chunks_lookup in Hlook. cbn in Hlook. rewrite Hlook. f_equal. lia. }
  rewrite E in Hw. rewrite orb_true_iff, Z.eqb_eq, Z.leb_le in Hw. unfold zlen in *. cbn [length] in *.
  rewrite u32_small in Hw by lia. lia.
Qed.

(** Taking a message out: it is the next one that was sent. *)
Lemma receiver_recv m sent got k len room r b k' : 0 < m → zlen (history_of m sent) < 2 ^ 31 →
  Forall (λ d, fragment_count m (zlen d) < 256) sent → got `prefix_of` sent → kcp_wf k → receiver_ok (history_of m sent) (history_of m got) k →
  zlen (bytes (rcv_queue k)) < 2 ^ 31 → 0 <= len <= room → ikcp_recv k len room = Ok (r, b, k') → 0 <= r →
  got ++ [b] `prefix_of` sent ∧ kcp_wf k' ∧ receiver_ok (history_of m sent) (history_of m (got ++ [b])) k' ∧ snd_core k' = snd_core k.
Proof.
  intros Hm HH Hf [more ->] Hk [H1 H2 H3] Hb Hl E Hr.
  pose proof (ikcp_recv_spec k len room Hk Hb Hl) as Hs. destruct (first_message (rcv_queue k)) as [msg rest] eqn:Em.
  destruct Hs as [(r' & Hr' & E' & _)|(Hw & Hle & k1 & E' & Hk1 & Ec & Es)]; rewrite E in E'; injection E'; intros; subst; [lia|].
  rewrite history_of_app in H2. pose proof H2 as H2'.
  assert (Hq : map seg_part (rcv_queue k) = take (Z.to_nat (rcv_nxt k) - length (history_of m got)) (history_of m more)).
  { rewrite take_app in H2. apply (f_equal (drop (length (history_of m got)))) in H2.
    rewrite drop_app_length in H2. rewrite H2.
    assert (Hle2 : (length (history_of m got) <= Z.to_nat (rcv_nxt k))%nat).
    { apply (f_equal length) in H2'. rewrite length_app, length_take in H2'. lia. }
    rewrite take_ge by lia. by rewrite drop_app_length. }
  assert (Hne : more ≠ []).
  { intros ->. unfold whole in Hw. destruct (rcv_queue k); [done|]. by destruct (Z.to_nat (rcv_nxt k) - _)%nat in Hq. }
  apply Forall_app in Hf as [_ Hf].
  destruct (whole_fragments m more _ k Hm Hne (proj1 Hk) Hf Hq Hw) as (d & more' & rest' & -> & Hfr).
  destruct (first_message_fragments m d (rcv_queue k) rest' Hm Hfr) as [Hbytes Hrest]. rewrite Em in Hbytes, Hrest. cbn [fst snd] in Hbytes, Hrest. subst d.
  split_and!; try done.
  - exists more'. by rewrite <- app_assoc.
  - eapply receiver_ext; [exact Ec|]. unfold taken. apply move_ready_receiver; [done|]. split; cbn; try done.
    rewrite history_of_app, <- app_assoc, Hrest. rewrite <- history_of_app in H2'. rewrite <- H2', Hfr. unfold history_of at 2. cbn [map concat].
    by rewrite app_nil_r.
Qed.

(** ** The network *)

(** The two sides, every datagram that the sender has output so far, the messages that were sent and those
    that were received. *)
Record net := mkNet { sender : ikcpcb; receiver : ikcpcb; soup : list (list Z); sent : list (list Z); got : list (list Z) }.

Definition net_init (c c' : Z) : net := mkNet (ikcp_create c) (ikcp_create c') [] [] [].

(** The machine's limits: the list of acknowledgements and the messages in a queue fit in an [int]. *)
Definition acks_fit k d : Prop := zlen (acklist k) + zlen d < 2 ^ 31 - 1.
Definition bytes_fit k : Prop := zlen (bytes (rcv_queue k)) < 2 ^ 31.

(** A datagram of the soup may arrive any number of times, in any order or never; the sender may be given
    any bytes at all.  The sender numbers fewer than 2^31 segments. *)
Inductive net_step : net → net → Prop :=
  | net_send n m a : wf_bytes m → zlen m < 2 ^ 31 → ikcp_send (sender n) m = (0, a) →
      zlen (history_of (mss (sender n)) (sent n ++ [m])) < 2 ^ 31 →
      net_step n (n <| sender := a |> <| sent := sent n ++ [m] |>)
  | net_update n now a ds : ikcp_update (sender n) now = Ok (a, ds) →
      net_step n (n <| sender := a |> <| soup := soup n ++ ds |>)
  | net_any_input n d r a : wf_bytes d → acks_fit (sender n) d → ikcp_input (sender n) d = Ok (r, a) →
      net_step n (n <| sender := a |>)
  | net_sender_recv n len room r b a : bytes_fit (sender n) → 0 <= len <= room → ikcp_recv (sender n) len room = Ok (r, b, a) →
      net_step n (n <| sender := a |>)
  | net_sender_set n nd iv rs nc sw rw : rw < 2 ^ 31 →
      net_step n (n <| sender := ikcp_wndsize (ikcp_nodelay (sender n) nd iv rs nc) sw rw |>)
  | net_deliver n d r b : d ∈ soup n → acks_fit (receiver n) d → ikcp_input (receiver n) d = Ok (r, b) →
      net_step n (n <| receiver := b |>)
  | net_recv n len room r m b : bytes_fit (receiver n) → 0 <= len <= room → ikcp_recv (receiver n) len room = Ok (r, m, b) → 0 <= r →
      net_step n (n <| receiver := b |> <| got := got n ++ [m] |>)
  | net_receiver_send n m r b : zlen m < 2 ^ 31 → ikcp_send (receiver n) m = (r, b) →
      net_step n (n <| receiver := b |>)
  | net_receiver_update n now b ds : ikcp_update (receiver n) now = Ok (b, ds) →
      net_step n (n <| receiver := b |>)
  | net_receiver_set n nd iv rs nc sw rw : rw < 2 ^ 31 →
      net_step n (n <| receiver := ikcp_wndsize (ikcp_nodelay (receiver n) nd iv rs nc) sw rw |>).

Record net_inv (m : Z) (n : net) : Prop := {
  ni_mss : 0 < m < 2 ^ 31 ∧ mss (sender n) = m;
  ni_hist : history_ok (history_of m (sent n));
  ni_count : Forall (λ d, fragment_count m (zlen d) < 256) (sent n);
  ni_sender : sender_ok (history_of m (sent n)) (sender n);
  ni_soup : Forall (λ d, ∃ l, datagram (authentic (history_of m (sent n))) l d) (soup n);
  ni_wf : kcp_wf (receiver n) ∧ stream (receiver n) = 0;
  ni_recv : receiver_ok (history_of m (sent n)) (history_of m (got n)) (receiver n);
  ni_got : got n `prefix_of` sent n;
}.

Lemma fragments_parts m d : 0 < m < 2 ^ 31 → fragment_count m (zlen d) < 256 → wf_bytes d →
  Forall (λ f, 0 <= fst f < 256 ∧ zlen (snd f) < 2 ^ 31 ∧ wf_bytes (snd f)) (fragments m d).
Proof.
  intros Hm Hc Hw. apply Forall_lookup. intros i f Hf. pose proof (lookup_lt_Some _ _ _ Hf) as Hi. unfold fragments in *.
  rewrite length_chunks in Hi. split_and!.
  - apply chunks_lookup in Hf. lia.
  - apply chunks_lookup in Hf. pose proof (fragment_count_pos m (zlen d)). pose proof (zlen_nonneg d). lia.
  - pose proof (chunks_len (Z.to_nat (fragment_count m (zlen d))) m d) as Hl. eapply Forall_lookup_1 in Hl; [|lia|exact Hf]. cbn in Hl. lia.
  - assert (Hall : ∀ n d, wf_bytes d → Forall (λ f, wf_bytes (snd f)) (chunks n m d)).
    { clear. induction n as [|n IH]; intros d Hd; cbn [chunks]; constructor; [by apply wf_bytes_ztake|by apply IH, wf_bytes_zdrop]. }
    by eapply Forall_lookup_1 in Hf; [|apply Hall].
Qed.

Lemma datagram_app H H' l d : datagram (authentic H) l d → datagram (authentic (H ++ H')) l d.
Proof. intros (segs & E & HF & Hl). exists segs. split_and!; try done. eapply Forall_impl; [exact HF|]. intros s. apply authentic_app. Qed.

(** A step of the sender that sends no message. *)
Lemma net_inv_sender m n a ds : net_inv m n → sender_ok (history_of m (sent n)) a → mss a = mss (sender n) →
  Forall (λ d, ∃ l, datagram (authentic (history_of m (sent n))) l d) ds → net_inv m (n <| sender := a |> <| soup := soup n ++ ds |>).
Proof. intros [H1 H2 H3 H4 H5 H6 H7 H8] Ha Em Hds. split; cbn; try done; [rewrite Em; done|by apply Forall_app]. Qed.

(** A step of the receiver that takes no message out. *)
Lemma net_inv_receiver m n b : net_inv m n → kcp_wf b → stream b = 0 → receiver_ok (history_of m (sent n)) (history_of m (got n)) b →
  net_inv m (n <| receiver := b |>).
Proof. intros [H1 H2 H3 H4 H5 H6 H7 H8] Hb Hs Hr. by split. Qed.

Lemma net_set n a : n <| sender := a |> = n <| sender := a |> <| soup := soup n ++ [] |>.
Proof. rewrite app_nil_r. by destruct n. Qed.

Lemma set_core k nd iv rs nc sw rw : let k' := ikcp_wndsize (ikcp_nodelay k nd iv rs nc) sw rw in
  snd_core k' = snd_core k ∧ rcv_nxt k' = rcv_nxt k ∧ rcv_queue k' = rcv_queue k ∧ rcv_buf k' = rcv_buf k.
Proof.
  destruct (ikcp_nodelay_core k nd iv rs nc) as [Hr Hs]. injection Hr as E1 E2 E3 E4 E5 E6. cbn zeta. unfold ikcp_wndsize.
  destruct (0 <? sw), (0 <? rw); cbn -[ikcp_nodelay snd_core]; rewrite <- Hs, ?E2, ?E4, ?E6; by split_and!.
Qed.

Lemma mss_of_mtu k k' : kcp_wf k → kcp_wf k' → mtu k' = mtu k → mss k' = mss k.
Proof. intros [_ Hs] [_ Hs'] E. by rewrite (sw_mss _ Hs), (sw_mss _ Hs'), E. Qed.

Lemma net_inv_send m n msg a : net_inv m n → wf_bytes msg → zlen msg < 2 ^ 31 → ikcp_send (sender n) msg = (0, a) →
  zlen (history_of m (sent n ++ [msg])) < 2 ^ 31 → net_inv m (n <| sender := a |> <| sent := sent n ++ [msg] |>).
Proof.
  intros [[Hm Em] H2 H3 H4 H5 H6 H7 H8] Hw Hl E Hh.
  destruct (sender_send _ _ _ H4 Hl _ E) as (Hc & Ha & Es). rewrite Em in Hc, Ha. apply settings_eq in Es as (_ & _ & Ems & _ & _).
  assert (Eh : history_of m (sent n ++ [msg]) = history_of m (sent n) ++ fragments m msg).
  { rewrite history_of_app. unfold history_of at 2. cbn. by rewrite app_nil_r. }
  assert (Hc' : fragment_count m (zlen msg) < 256) by (unfold IKCP_WND_RCV in Hc; lia).
  change (net_inv m (mkNet a (receiver n) (soup n) (sent n ++ [msg]) (got n))).
  split; cbn [sender receiver soup sent got]; rewrite ?Eh; try done.
  - split; [done|congruence].
  - split; [by rewrite <- Eh|]. apply Forall_app. split; [apply H2|by apply fragments_parts].
  - apply Forall_app. split; [done|by constructor].
  - eapply Forall_impl; [exact H5|]. intros d [l Hd]. exists l. by apply datagram_app.
  - by apply receiver_app.
  - by apply prefix_app_r.
Qed.

Lemma sender_recv H k len room r b k' : sender_ok H k → bytes_fit k → 0 <= len <= room → ikcp_recv k len room = Ok (r, b, k') →
  sender_ok H k' ∧ mss k' = mss k.
Proof.
  intros Hk Hb Hl E. pose proof (ikcp_recv_spec k len room (so_wf _ _ Hk) Hb Hl) as Hs. destruct (first_message _) as [msg rest].
  destruct Hs as [(r' & _ & E' & _)|(_ & _ & k1 & E' & Hk1 & _ & Es)]; rewrite E in E'; injection E'; intros; subst; [done|].
  split; [by eapply sender_core|]. by injection Es.
Qed.

Lemma net_step_inv m n n' : net_step n n' → net_inv m n → net_inv m n'.
Proof.
  intros Hstep Hn. pose proof Hn as [[Hm Em] H2 H3 H4 H5 [Hwf Hstr] H7 H8]. pose proof (so_wf _ _ H4) as Hsw.
  destruct Hstep as [n msg a Hw Hl E Hh|n now a ds E|n d r a Hd Ha E|n len room r b a Hb Hl E|n nd iv rs nc sw rw Hrw
    |n d r b Hd Ha E|n len room r msg b Hb Hl E Hr|n msg r b Hl E|n now b ds E|n nd iv rs nc sw rw Hrw].
  - rewrite Em in Hh. by apply net_inv_send.
  - destruct (sender_update _ _ now (ho_len _ H2) H4) as (a' & ds' & E' & Ha & Hset & Hds). rewrite E in E'. injection E' as <- <-.
    apply net_inv_sender; try done; [by apply settings_eq in Hset as (_ & _ & ? & _)|]. eapply Forall_impl; [exact Hds|]. eauto.
  - rewrite net_set. destruct (ikcp_input_any _ d Hsw Hd Ha) as (r' & a' & E' & Hk' & _ & Hs). rewrite E in E'. injection E' as <- <-.
    apply net_inv_sender; try done; [by eapply sender_same|]. eapply mss_of_mtu; [done..|apply Hs].
  - rewrite net_set. destruct (sender_recv _ _ _ _ _ _ _ H4 Hb Hl E). by apply net_inv_sender.
  - rewrite net_set. destruct (set_core (sender n) nd iv rs nc sw rw) as [Es _].
    apply net_inv_sender; try done; [|by injection Es]. eapply sender_core; [done| |done]. by apply ikcp_wndsize_wf, ikcp_nodelay_wf.
  - eapply Forall_forall in H5 as [l Hl]; [|exact Hd].
    destruct (receiver_input _ _ _ _ _ H2 Hwf H7 Hl Ha) as (r' & b' & E' & Hk' & Hr' & Hs). rewrite E in E'. injection E' as <- <-.
    apply net_inv_receiver; try done. destruct Hs as (_ & _ & _ & _ & Est & _). by rewrite Est.
  - destruct (receiver_recv _ _ _ _ _ _ _ _ _ (proj1 Hm) (ho_len _ H2) H3 H8 Hwf H7 Hb Hl E Hr) as (Hp & Hk' & Hr' & Es).
    split; cbn; try done. split; [done|]. injection Es as ? ? ? ? ? ? ? ? Est ? ?. by rewrite Est.
  - destruct (ikcp_send_spec _ _ Hwf Hstr Hl) as [(_ & b' & E' & Hk' & Hq)|[_ E']]; rewrite E in E'; injection E' as -> ->; [|by destruct n].
    apply qu_set, settings_eq in Hq as (_ & _ & _ & Est & Er). apply net_inv_receiver; try done; [by rewrite Est|by eapply receiver_ext].
  - destruct (ikcp_update_ok (λ _, True) (receiver n) now) as (b' & ds' & moved & E' & Hf); try done; [by apply Forall_true..|].
    rewrite E in E'. injection E' as <- <-. pose proof (fr_wf _ _ _ _ _ Hf) as Hk'.
    apply fr_set, settings_eq in Hf as (_ & _ & _ & Est & Er). apply net_inv_receiver; try done; [by rewrite Est|by eapply receiver_ext].
  - destruct (set_core (receiver n) nd iv rs nc sw rw) as (Es & E1 & E2 & E3). apply net_inv_receiver; try done.
    + by apply ikcp_wndsize_wf, ikcp_nodelay_wf.
    + injection Es as ? ? ? ? ? ? ? ? Est ? ?. by rewrite Est.
    + destruct H7. split; rewrite ?E1, ?E2, ?E3; done.
Qed.

Lemma net_init_inv c c' : net_inv (IKCP_MTU_DEF - IKCP_OVERHEAD) (net_init c c').
Proof.
  pose proof (ikcp_create_wf c). pose proof (ikcp_create_wf c').
  repeat split; try done; try constructor; try apply H; try apply H0; cbn; unfold zlen; cbn; try lia.
Qed.

Lemma net_reachable_inv c c' n : rtc net_step (net_init c c') n → net_inv (IKCP_MTU_DEF - IKCP_OVERHEAD) n.
Proof. revert n. apply rtc_ind_r; [apply net_init_inv|]. intros n n' _ Hs. by apply net_step_inv. Qed.

(** C4: Over a network that loses, repeats, delays and reorders datagrams, and whatever bytes are sent back to the
    sender, the messages that the receiver takes out are the first of those that were sent, in order: none is lost
    in between, repeated, cut or mixed with another. *)
Theorem kcp_reliable c c' n : rtc net_step (net_init c c') n → got n `prefix_of` sent n.
Proof. intros Hn. apply (ni_got _ _ (net_reachable_inv c c' n Hn)). Qed.

(** A message of two fragments; the datagram arrives twice. *)
Definition net_hello : list Z := replicate 1500 65.

Lemma kcp_reliable_witness : ∃ n, rtc net_step (net_init 7 7) n ∧ got n = [net_hello] ∧ got n `prefix_of` sent n.
Proof.
  assert (H : ∃ n, rtc net_step (net_init 7 7) n ∧ got n = [net_hello]).
  { eexists. split.
    - eapply rtc_l; [eapply (net_sender_set _ 1 10 2 1 0 0); lia|].
      eapply rtc_l; [eapply (net_send _ net_hello); [apply Forall_replicate; by compute|reflexivity|vm_compute; reflexivity|reflexivity]|].
      eapply rtc_l; [eapply (net_update _ 5); vm_compute; reflexivity|].
      eapply rtc_l; [eapply net_deliver; [right; left|reflexivity|vm_compute; reflexivity]|].
      eapply rtc_l; [eapply net_deliver; [left|reflexivity|vm_compute; reflexivity]|].
      eapply rtc_l; [eapply net_deliver; [left|reflexivity|vm_compute; reflexivity]|].
      eapply rtc_l; [eapply (net_recv _ 2000 2000); [reflexivity|lia|vm_compute; reflexivity|lia]|]. apply rtc_refl.
    - reflexivity. }
  destruct H as (n & Hn & Hg). exists n. split_and!; [done|done|]. apply (kcp_reliable 7 7 n Hn).
Defined.

(** In every state of the network each operation returns: no call reads or writes out of bounds. *)
Theorem kcp_net_safe c c' n : rtc net_step (net_init c c') n →
  (∀ now, ∃ a ds, ikcp_update (sender n) now = Ok (a, ds)) ∧
  (∀ d, wf_bytes d → acks_fit (sender n) d → ∃ r a, ikcp_input (sender n) d = Ok (r, a)) ∧
  (∀ d, d ∈ soup n → acks_fit (receiver n) d → ∃ r b, ikcp_input (receiver n) d = Ok (r, b)) ∧
  (∀ len room, bytes_fit (receiver n) → 0 <= len <= room → ∃ r m b, ikcp_recv (receiver n) len room = Ok (r, m, b)).
Proof.
  intros Hn%net_reachable_inv. pose proof Hn as [_ H2 _ H4 H5 [Hwf _] H7 _]. pose proof (so_wf _ _ H4) as Hsw. split_and!.
  - intros now. destruct (sender_update _ _ now (ho_len _ H2) H4) as (a & ds & E & _). eauto.
  - intros d Hd Ha. destruct (ikcp_input_any _ d Hsw Hd Ha) as (r & a & E & _). eauto.
  - intros d Hd Ha. eapply Forall_forall in H5 as [l Hl]; [|exact Hd].
    destruct (receiver_input _ _ _ _ _ H2 Hwf H7 Hl Ha) as (r & b & E & _). eauto.
  - intros len room Hb Hl. pose proof (ikcp_recv_spec _ len room Hwf Hb Hl) as Hs. destruct (first_message _) as [m rest].
    destruct Hs as [(r & _ & E & _)|(_ & _ & b & E & _)]; eauto.
Qed.

Lemma kcp_net_safe_witness : ∀ now, ∃ a ds, ikcp_update (sender (net_init 7 7)) now = Ok (a, ds).
Proof. apply (kcp_net_safe 7 7 (net_init 7 7)). apply rtc_refl. Defined.

(** ** Reassembly *)

(** Nothing is held back that could move on. *)
Definition settled k : Prop := ∀ s buf, rcv_buf k = s :: buf → seg_sn s = rcv_nxt k → rcv_wnd k <= nrcv_que k.

Lemma move_ready_settled buf : ∀ k, settled (move_ready buf k).
Proof.
  induction buf as [|s buf IH]; intros k; cbn [move_ready]; [by intros ? ?|]. destruct (_ && _) eqn:E; [apply IH|].
  intros s' buf' [= <- <-] Es. cbn in *. rewrite Es, Z.eqb_refl in E. by apply Z.ltb_ge in E.
Qed.

(** What has been received of the fragments [H], of which none was taken out yet. *)
Record collecting H k : Prop := {
  co_wf : rcv_wf k;
  co_ok : receiver_ok H [] k;
  co_settled : settled k;
  co_wnd : zlen H <= rcv_wnd k;
}.

(** The number has been received. *)
Definition collected k (sn : Z) : Prop := sn < rcv_nxt k ∨ ∃ s, s ∈ rcv_buf k ∧ seg_sn s = sn.

Lemma collecting_len H k : zlen H < 2 ^ 31 → receiver_ok H [] k → zlen (rcv_queue k) = rcv_nxt k.
Proof.
  intros HH [H1 H2 H3]. apply (f_equal length) in H2. cbn in H2. rewrite length_map, length_take in H2. unfold zlen in *. lia.
Qed.

Lemma collected_move H buf k sn : zlen H < 2 ^ 31 → receiver_ok H [] (k <| rcv_buf := buf |>) →
  collected (k <| rcv_buf := buf |>) sn → collected (move_ready buf k) sn.
Proof.
  intros HH Hr Hc. pose proof (move_ready_receiver H [] buf HH k Hr) as Hr'.
  destruct (move_ready_spec buf k) as (moved & Hb & Hq & Hn & Hm); [pose proof (ro_nxt _ _ _ Hr) as B; cbn in B; lia|].
  pose proof (collecting_len H _ HH Hr) as L1. pose proof (collecting_len H _ HH Hr') as L2. cbn in L1. rewrite Hq, zlen_app, L1 in L2.
  destruct Hr as [B1 _ _], Hr' as [B2 _ _]. cbn in B1. pose proof (zlen_nonneg moved).
  destruct Hc as [Hlt|(s & Hs & Es)]; cbn in *; [left; lia|].
  rewrite Hb in Hs. apply elem_of_app in Hs as [Hs|Hs]; [|right; eauto].
  apply list_elem_of_lookup in Hs as [i Hi]. pose proof (lookup_lt_Some _ _ _ Hi). unfold zlen in *.
  left. rewrite <- Es, (Hm i s Hi), u32_small; lia.
Qed.

Lemma insert_back_elem r new r' s : insert_back r new = Some r' → s = new ∨ s ∈ r → s ∈ r'.
Proof.
  revert r'. induction r as [|x r IH]; intros r'; cbn [insert_back]; [intros [= <-] [->|H]; [by left|by apply elem_of_nil in H]|].
  destruct (_ =? _); [done|]. destruct (0 <? _); [intros [= <-] [->|H]; [by left|by right]|].
  intros (r1 & E & ->)%fmap_Some [->|[->|H]%elem_of_cons]; [right; by apply IH; [|left]|by left|right; by apply IH; [|right]].
Qed.

Lemma insert_back_none r new : insert_back r new = None → ∃ s, s ∈ r ∧ seg_sn s = seg_sn new.
Proof.
  induction r as [|x r IH]; cbn [insert_back]; [done|]. destruct (Z.eqb_spec (seg_sn x) (seg_sn new)); [intros _; exists x; split; [by left|done]|].
  destruct (0 <? _); [done|]. intros (s & Hs & E)%fmap_None%IH. exists s. split; [by right|done].
Qed.

(** Receiving a fragment: it counts as received, and so does all that did before. *)
Lemma parse_data_collects H k s : zlen H < 2 ^ 31 → collecting H k → held H s →
  collecting H (ikcp_parse_data k s) ∧ collected (ikcp_parse_data k s) (seg_sn s) ∧
  ∀ sn, collected k sn → collected (ikcp_parse_data k s) sn.
Proof.
  intros HH [Hwf Hr Hst Hw] Hs. pose proof (lookup_lt_Some _ _ _ (proj2 Hs)) as Hlt. destruct Hs as [Hs0 Hs].
  pose proof (parse_data_wf k s Hwf) as Hwf'. pose proof (parse_data_receiver H [] k s HH Hr (conj Hs0 Hs)) as Hr'.
  pose proof (parse_data_snd k s) as [_ Ew]. unfold zlen in *. specialize (Hwf' ltac:(lia)).
  pose proof Hr as [B1 B2 B3]. pose proof (rw_wnd _ Hwf) as Hwnd. unfold zlen in *.
  unfold ikcp_parse_data in *. destruct (in_window k (seg_sn s)) eqn:Ewin.
  2:{ split; [by split|]. split; [|done]. left. revert Ewin. unfold in_window, itimediff.
      rewrite negb_false_iff, orb_true_iff, Z.leb_le, Z.ltb_lt. intros Hor. destruct (Z.lt_ge_cases (seg_sn s) (rcv_nxt k)); [done|]. exfalso. mach. }
  destruct (insert_back _ s) as [r|] eqn:Ei.
  - split; [split; try done; [apply move_ready_settled|unfold zlen; lia]|].
    set (k1 := k <| rcv_buf := rev r |> <| nrcv_buf := nrcv_buf k +u32 1 |>) in *.
    assert (Hk1 : receiver_ok H [] k1) by by eapply insert_receiver.
    assert (Hel : ∀ x, x = s ∨ x ∈ rcv_buf k → x ∈ rcv_buf k1).
    { intros x Hx. cbn. rewrite elem_of_rev. eapply insert_back_elem; [exact Ei|]. by rewrite elem_of_rev. }
    split; [|intros sn Hsn]; apply (collected_move H); try done.
    + right. exists s. split; [apply Hel; by left|done].
    + destruct Hsn as [Hsn|(x & Hx & Ex)]; [by left|right]. exists x. split; [apply Hel; by right|done].
  - split; [split; try done; [apply move_ready_settled|unfold zlen; lia]|].
    assert (Hk1 : receiver_ok H [] (k <| rcv_buf := rcv_buf k |>)) by by destruct Hr.
    split; [|intros sn Hsn]; apply (collected_move H); try done.
    destruct (insert_back_none _ _ Ei) as (x & Hx%elem_of_rev_1 & Ex). right. by exists x.
Qed.

Lemma parse_data_all H l : zlen H < 2 ^ 31 → Forall (held H) l → ∀ k, collecting H k →
  collecting H (fold_left ikcp_parse_data l k) ∧
  ∀ sn, collected k sn ∨ (∃ s, s ∈ l ∧ seg_sn s = sn) → collected (fold_left ikcp_parse_data l k) sn.
Proof.
  intros HH Hl. induction Hl as [|s l Hs _ IH]; intros k Hk; cbn [fold_left].
  { split; [done|]. intros sn [H1|(s & Hs & _)]; [done|]. by apply elem_of_nil in Hs. }
  destruct (parse_data_collects H k s HH Hk Hs) as (Hk' & Hsn & Hmono). destruct (IH _ Hk') as [Hk'' Hc]. split; [done|].
  intros sn [H1|(x & [->|Hx]%elem_of_cons & Ex)]; apply Hc; [left; by apply Hmono|left; by rewrite <- Ex|right; eauto].
Qed.

(** When all fragments have been received, all are in the queue, in order. *)
Lemma collected_all H k : zlen H < 2 ^ 31 → collecting H k → (∀ sn, 0 <= sn < zlen H → collected k sn) → map seg_part (rcv_queue k) = H.
Proof.
  intros HH [Hwf Hr Hst Hw] Hall. pose proof (collecting_len H k HH Hr) as Hlen. pose proof Hr as [H1 H2 H3]. cbn in H2. rewrite H2.
  destruct (Z.lt_ge_cases (rcv_nxt k) (zlen H)) as [Hlt|Hge]; [|apply take_ge; unfold zlen in *; lia]. exfalso.
  destruct (Hall (rcv_nxt k)) as [Hc|(s & Hs & Es)]; [lia|lia|].
  destruct (rcv_buf k) as [|s0 buf] eqn:Eb; [by apply elem_of_nil in Hs|].
  assert (E0 : seg_sn s0 = rcv_nxt k).
  { apply elem_of_cons in Hs as [->|Hs]; [done|]. pose proof (rw_sorted _ Hwf) as Hso. rewrite Eb in Hso.
    apply StronglySorted_inv in Hso as [_ Hf]. rewrite Forall_forall in Hf. specialize (Hf s Hs). cbn in Hf.
    rewrite (dist_self _ s Es) in Hf. pose proof (u32_range (seg_sn s0 - rcv_nxt k)). unfold dist in Hf. lia. }
  pose proof (Hst s0 buf Eb E0) as Hfull. rewrite (rw_nque _ Hwf), Hlen in Hfull. lia.
Qed.

Lemma parse_data_fold_snd l : ∀ k, snd_core (fold_left ikcp_parse_data l k) = snd_core k.
Proof. induction l as [|s l IH]; intros k; cbn; [done|]. rewrite IH. apply parse_data_snd. Qed.

(** C13: The fragments of a message that reach a new receiver in any order, each at least once, are put together
    to the message: [ikcp_recv] returns it as it was sent. *)
Theorem kcp_reassembles c m d l len room : 0 < m → fragment_count m (zlen d) < IKCP_WND_RCV → zlen d < 2 ^ 31 → zlen d <= len <= room →
  Forall (held (fragments m d)) l →
  (∀ sn, 0 <= sn < fragment_count m (zlen d) → ∃ s, s ∈ l ∧ seg_sn s = sn) →
  ∃ k', ikcp_recv (fold_left ikcp_parse_data l (ikcp_create c)) len room = Ok (zlen d, d, k') ∧ kcp_wf k'.
Proof.
  intros Hm Hc Hd Hlen Hl Hall. set (H := fragments m d) in *. set (k := fold_left _ _ _).
  pose proof (zlen_nonneg d). pose proof (fragment_count_pos m (zlen d) Hm) as Hpos. unfold IKCP_WND_RCV in Hc.
  assert (HH : zlen H = fragment_count m (zlen d)) by (unfold zlen at 1; unfold H, fragments; rewrite length_chunks; lia).
  destruct (parse_data_all H l) with (k := ikcp_create c) as [Hk Hcol]; [lia|done| |].
  { split; [apply ikcp_create_wf| |by intros ? ?|cbn; unfold IKCP_WND_RCV; lia].
    split; [cbn; pose proof (zlen_nonneg H); lia|done|constructor]. }
  fold k in Hk, Hcol. assert (Hq : map seg_part (rcv_queue k) = H).
  { apply collected_all; [lia|done|]. intros sn Hsn. apply Hcol. right. apply Hall. lia. }
  rewrite <- (app_nil_r H) in Hq. destruct (first_message_fragments m d (rcv_queue k) [] Hm Hq) as [Hb _]. rewrite app_nil_r in Hq.
  assert (Hwf : kcp_wf k).
  { split; [apply Hk|]. eapply snd_wf_ext; [apply parse_data_fold_snd|apply ikcp_create_wf]. }
  assert (Hbytes : zlen (bytes (rcv_queue k)) < 2 ^ 31).
  { rewrite bytes_parts, Hq. unfold H. by rewrite fragments_concat. }
  assert (Hw : whole k = true).
  { unfold whole. rewrite (rw_nque _ (proj1 Hwf)). destruct (rcv_queue k) as [|s q] eqn:Eq.
    - apply (f_equal zlen) in Hq. rewrite HH in Hq. change (zlen (map seg_part [])) with 0 in Hq. lia.
    - assert (Hf : H !! 0%nat = Some (seg_part s)) by by rewrite <- Hq. apply chunks_lookup in Hf. cbn in Hf.
      apply (f_equal zlen) in Hq. unfold zlen at 1 in Hq. rewrite length_map in Hq. fold (zlen (s :: q)) in Hq. rewrite HH in Hq.
      rewrite u32_small by lia. apply orb_true_iff. right. apply Z.leb_le. unfold zlen in *. lia. }
  pose proof (ikcp_recv_spec k len room Hwf Hbytes) as Hs. destruct (first_message (rcv_queue k)) as [msg rest]. cbn [fst] in Hb. rewrite Hb in Hs.
  destruct Hs as [(r & _ & _ & [E|E])|(_ & _ & k' & E & Hk' & _)]; [lia|congruence|lia|]. eauto.
Qed.

Lemma kcp_reassembles_witness : ∃ k', ikcp_recv (fold_left ikcp_parse_data
    (map (λ sn, received_segment (mkHeader 7 IKCP_CMD_PUSH (2 - sn) 0 0 sn 0 4) (nth (Z.to_nat sn) [[1;2;3;4];[5;6;7;8];[9;10]] [])) [2;0;2;1])
    (ikcp_create 7)) 16 16 = Ok (10, [1;2;3;4;5;6;7;8;9;10], k') ∧ kcp_wf k'.
Proof.
  apply (kcp_reassembles 7 4 [1;2;3;4;5;6;7;8;9;10]); try (vm_compute; congruence).
  - vm_compute. intuition congruence.
  - repeat constructor; vm_compute; congruence.
  - change (fragment_count 4 _) with 3. intros sn Hsn. assert (sn = 0 ∨ sn = 1 ∨ sn = 2) as [->|[->| ->]] by lia.
    + eexists. split; [right; left|reflexivity].
    + eexists. split; [right; right; right; left|reflexivity].
    + eexists. split; [left|reflexivity].
Defined.
