(* ===== verification/IkcpInstance.v ===== *)
(** * The KCP library as the server uses it

    The control blocks of [ikcp] keep what the KCP server relies on: they are an instance of its class [KCP], so
    that every theorem about the server holds for it with this protocol.  An operation that would fault leaves
    its control block alone here; on well-formed control blocks none does ([kcp_input_safe], [kcp_update_mtu]). *)

From Stdlib Require Import ZArith Lia.
From S2P Require Import Prelude Define SessionBuffer SessionCalls EndpointTables KcpServer.
From S2P Require Ikcp IkcpFacts IkcpMessages.
From stdpp Require Import base numbers list gmap strings.
Import Ikcp(ikcpcb, IKCPSEG, seg_data, seg_frg, rcv_queue, rcv_buf, nrcv_que).
Import IkcpMessages(bytes, first_message, first_message_app, whole, peek_loop_spec, peeksize_spec, merge_loop_spec, merge_loop_fault, seg_part).
Import IkcpFacts(kcp_wf, wire).
Local Open Scope Z_scope.

Implicit Types (k : ikcpcb).

(** The largest [int], the largest [len]. *)
Definition int_max : Z := 2147483647.

(** A destination of [len] bytes; a negative result, or a fault, is [None]. *)
Definition recv k (len : Z) : option (list Z) * ikcpcb :=
  match Ikcp.ikcp_recv k (Z.min len int_max) (Z.min len int_max) with
  | Ok (r, m, k') => if r <? 0 then (None, k) else (Some m, k')
  | Fault => (None, k)
  end.

(** The segments that a control block has received and still holds. *)
Definition segments k : nat := length (rcv_queue k) + length (rcv_buf k).

Fixpoint pending_loop (fuel : nat) k : list (list Z) :=
  match fuel with
  | O => []
  | S fuel => match recv k int_max with (Some m, k') => m :: pending_loop fuel k' | (None, _) => [] end
  end.
Definition pending k : list (list Z) := pending_loop (segments k) k.

Lemma move_ready_segments buf : ∀ k, (segments (Ikcp.move_ready buf k) = length (rcv_queue k) + length buf)%nat.
Proof.
  unfold segments. induction buf as [|s buf IH]; intros k; cbn [Ikcp.move_ready]; [done|].
  destruct (_ && _); [|done]. rewrite IH. cbn. rewrite length_app. cbn. lia.
Qed.

(** The first message of the queue, whether it is whole, and the control block without it. *)
Definition message k : list Z := bytes (fst (first_message (rcv_queue k))).
Definition ready k : bool := whole k && (zlen (message k) <=? int_max).
Definition after k : ikcpcb :=
  let '(m, rest) := first_message (rcv_queue k) in
  let recover := Ikcp.rcv_wnd k <=? nrcv_que k in
  let k := k <| rcv_queue := rest |> <| nrcv_que := u32 (nrcv_que k - zlen m) |> in
  let k := Ikcp.move_ready (rcv_buf k) k in
  if (nrcv_que k <? Ikcp.rcv_wnd k) && recover then k <| Ikcp.probe := Z.lor (Ikcp.probe k) Ikcp.IKCP_ASK_TELL |> else k.

Lemma recv_spec k len : 0 <= len → recv k len = if ready k && (zlen (message k) <=? len) then (Some (message k), after k) else (None, k).
Proof.
  intros Hlen. unfold recv, Ikcp.ikcp_recv, ready, message, after.
  rewrite (proj2 (Z.ltb_ge (Z.min len int_max) 0)) by (unfold int_max; lia).
  destruct (first_message (rcv_queue k)) as [m rest] eqn:Em. cbn [fst]. pose proof (zlen_nonneg (bytes m)) as H0.
  destruct (rcv_queue k) as [|s l] eqn:Eq; [unfold whole; by rewrite Eq|].
  destruct (Z.leb_spec (zlen (bytes m)) int_max) as [Hm|Hm].
  - pose proof (peeksize_spec k) as Hp. rewrite Eq, Em in Hp. cbn [fst] in Hp. rewrite Hp by (unfold int_max in Hm; lia). clear Hp.
    destruct (whole k); [|done]. cbn [andb]. rewrite (proj2 (Z.ltb_ge (zlen (bytes m)) 0)) by lia.
    destruct (Z.leb_spec (zlen (bytes m)) len).
    + rewrite (proj2 (Z.ltb_ge _ _)) by lia. rewrite merge_loop_spec; rewrite Em; cbn [fst snd]; [|change (zlen []) with 0; lia].
      cbn [obind app]. rewrite i32_small by (unfold int_max in Hm; lia). by rewrite (proj2 (Z.ltb_ge _ _)) by lia.
    + by rewrite (proj2 (Z.ltb_lt _ _)) by lia.
  - rewrite andb_false_r. cbn [andb]. destruct (_ <? 0); [done|]. destruct (_ <? _); [done|].
    rewrite merge_loop_fault; [done|change (zlen []) with 0; unfold int_max; lia|]. rewrite Em. cbn [fst]. change (zlen []) with 0. lia.
Qed.

Lemma after_segments k : ready k = true → (segments (after k) < segments k)%nat.
Proof.
  intros [Hw _]%andb_true_iff. unfold after. pose proof (first_message_app (rcv_queue k)) as E. unfold whole in Hw.
  destruct (rcv_queue k) as [|s l] eqn:Eq; [done|]. destruct (first_message (s :: l)) as [m rest] eqn:Em. cbn [fst snd] in E.
  assert (Hm : m ≠ []).
  { intros ->. cbn [first_message] in Em. destruct (_ =? 0); [done|]. by destruct (first_message l). }
  match goal with |- context [Ikcp.move_ready ?b ?a] => pose proof (move_ready_segments b a) as Hs; set (k1 := Ikcp.move_ready b a) in * end.
  assert (E2 : segments (if (nrcv_que k1 <? Ikcp.rcv_wnd k1) && (Ikcp.rcv_wnd k <=? nrcv_que k)
    then k1 <| Ikcp.probe := Z.lor (Ikcp.probe k1) Ikcp.IKCP_ASK_TELL |> else k1) = segments k1) by by destruct (_ && _).
  rewrite E2, Hs. unfold segments. rewrite Eq, E. cbn. rewrite length_app. destruct m; [done|]. cbn. lia.
Qed.

Lemma pending_loop_eq fuel k : (segments k <= fuel)%nat → pending_loop fuel k = if ready k then message k :: pending (after k) else [].
Proof.
  revert k. assert (Hstep : ∀ fuel k, pending_loop (S fuel) k = if ready k then message k :: pending_loop fuel (after k) else []).
  { intros f k. cbn [pending_loop]. rewrite recv_spec by done. destruct (ready k) eqn:E; cbn [andb]; [|done].
    apply andb_true_iff in E as [_ ->]. done. }
  assert (Hnone : ∀ k, segments k = 0%nat → ready k = false).
  { intros k. unfold segments, ready, whole. destruct (rcv_queue k); [done|cbn; lia]. }
  assert (Hmono : ∀ f1 f2 k, (segments k <= f1)%nat → (segments k <= f2)%nat → pending_loop f1 k = pending_loop f2 k).
  { induction f1 as [|f1 IH]; intros [|f2] k H1 H2; rewrite ?Hstep; [done| | |].
    1,2: rewrite Hnone by lia; done.
    destruct (ready k) eqn:E; [|done]. pose proof (after_segments k E). f_equal. apply IH; lia. }
  intros k Hk. destruct (ready k) eqn:E.
  - pose proof (after_segments k E). destruct fuel as [|fuel]; [lia|]. rewrite Hstep, E. unfold pending. f_equal. apply Hmono; lia.
  - destruct fuel; [done|]. by rewrite Hstep, E.
Qed.

Lemma pending_eq k : pending k = if ready k then message k :: pending (after k) else [].
Proof. by apply pending_loop_eq. Qed.

#[export] Instance ikcpcb_KCP : KCP ikcpcb.
Proof.
  refine {|
    KcpServer.ikcp_create c := Some (Ikcp.ikcp_create c);
    KcpServer.ikcp_nodelay := Ikcp.ikcp_nodelay;
    KcpServer.ikcp_wndsize := Ikcp.ikcp_wndsize;
    KcpServer.ikcp_update k now := match Ikcp.ikcp_update k now with Ok r => r | Fault => (k, []) end;
    KcpServer.ikcp_input k data := match Ikcp.ikcp_input k data with Ok (_, k') => k' | Fault => k end;
    KcpServer.ikcp_send := Ikcp.ikcp_send;
    KcpServer.ikcp_recv := recv;
    KcpServer.ikcp_pending := pending;
  |}; intros k len.
  - intros Hlen Hp. rewrite pending_eq in Hp. rewrite recv_spec by done. by destruct (ready k).
  - intros m ms Hp [Hlen Hlt]. rewrite pending_eq in Hp. rewrite recv_spec by done. destruct (ready k); [|done]. injection Hp as <- _.
    cbn [andb]. by rewrite (proj2 (Z.leb_gt _ _)).
  - intros m ms Hp Hle. rewrite pending_eq in Hp. pose proof (zlen_nonneg m). rewrite recv_spec by lia. destruct (ready k); [|done].
    injection Hp as <- Hp. cbn [andb]. by rewrite (proj2 (Z.leb_le _ _)).
Defined.

(** ** A segment on its way to the parser *)

(** A control block that has handed on all it received. *)
Record drained k : Prop := {
  dr_wf : kcp_wf k;
  dr_conv : 0 <= Ikcp.conv k < 2 ^ 32;
  dr_queue : rcv_queue k = [];
  dr_buf : rcv_buf k = [];
  dr_acks : zlen (Ikcp.acklist k) < 2 ^ 31 - 1;
}.

(** A message in one segment, the one with the number [n]. *)
Record next_segment (c n : Z) (seg : IKCPSEG) : Prop := {
  nx_conv : Ikcp.seg_conv seg = c;
  nx_cmd : Ikcp.seg_cmd seg = Ikcp.IKCP_CMD_PUSH;
  nx_frg : seg_frg seg = 0;
  nx_sn : Ikcp.seg_sn seg = n;
  nx_data : wf_bytes (seg_data seg) ∧ seg_data seg ≠ [];
}.

(** Such segments with consecutive numbers. *)
Fixpoint in_order (c n : Z) (segs : list IKCPSEG) : Prop :=
  match segs with [] => True | seg :: segs => next_segment c n seg ∧ in_order c (n +u32 1) segs end.

Lemma update_drained k t : drained k → ∃ k' ds, Ikcp.ikcp_update k t = Ok (k', ds) ∧ drained k' ∧
  Ikcp.conv k' = Ikcp.conv k ∧ Ikcp.rcv_nxt k' = Ikcp.rcv_nxt k ∧ zlen (Ikcp.acklist k') <= zlen (Ikcp.acklist k).
Proof.
  intros [H1 H2 H3 H4 H5]. destruct (IkcpFacts.ikcp_update_ok (λ _, True) k t) as (k' & ds & moved & E & Hf); try done; [by apply Forall_true..|].
  exists k', ds. split; [done|]. destruct Hf as [F1 F2 F3 F4 F5 F6 F7]. apply IkcpFacts.settings_eq in F5 as (Ec & _ & _ & _ & Er).
  injection Er as E1 E2 E3 E4 E5 E6. split_and!; try done. split; rewrite ?Ec, ?E4, ?E6; try done. lia.
Qed.

Lemma pending_single k s : rcv_queue k = [s] → rcv_buf k = [] → seg_frg s = 0 → zlen (seg_data s) < 2 ^ 31 → pending k = [seg_data s].
Proof.
  intros Hq Hb Hf Hl. rewrite pending_eq. unfold ready, whole, message, after. rewrite Hq. cbn [first_message]. rewrite Hf. cbn [Z.eqb orb andb fst].
  unfold bytes. cbn [map concat]. rewrite app_nil_r. rewrite (proj2 (Z.leb_le _ _)) by (unfold int_max; lia). f_equal.
  match goal with |- pending ?a = [] => assert (Ea : rcv_queue a = []) by (cbn; rewrite Hb; cbn; by destruct (_ && _)) end.
  rewrite pending_eq. unfold ready, whole. by rewrite Ea.
Qed.

(** Taking the only message leaves nothing behind. *)
Lemma after_single k s : kcp_wf k → rcv_queue k = [s] → rcv_buf k = [] → seg_frg s = 0 → zlen (seg_data s) < 2 ^ 31 →
  kcp_wf (after k) ∧ rcv_queue (after k) = [] ∧ rcv_buf (after k) = [] ∧ Ikcp.rcv_nxt (after k) = Ikcp.rcv_nxt k ∧
  Ikcp.conv (after k) = Ikcp.conv k ∧ Ikcp.acklist (after k) = Ikcp.acklist k.
Proof.
  intros Hk Hq Hb Hf Hl. pose proof (recv_spec k int_max ltac:(done)) as Er. unfold recv in Er. rewrite Z.min_id in Er.
  assert (Ew : whole k = true) by (unfold whole; rewrite Hq; cbn [first_message]; by rewrite Hf).
  assert (Em : message k = seg_data s).
  { unfold message, bytes. rewrite Hq. cbn [first_message]. rewrite Hf. cbn. by rewrite app_nil_r. }
  unfold ready in Er. rewrite Ew, Em, (proj2 (Z.leb_le _ _)) in Er by (unfold int_max; lia). cbn [andb] in Er.
  pose proof (IkcpMessages.ikcp_recv_spec k int_max int_max Hk) as Hs. rewrite Hq in Hs. unfold bytes in Hs. cbn [first_message map concat] in Hs.
  rewrite Hf, app_nil_r in Hs. cbn [Z.eqb] in Hs. destruct Hs as [(r & Hr & E & [?|Hc])|(_ & _ & k' & E & Hk' & Hrc & Hsc)].
  1,2: unfold int_max; lia.
  - congruence.
  - cbn [map concat] in Hc. rewrite app_nil_r in Hc. unfold int_max in Hc. lia.
  - rewrite E in Er. cbn [map concat] in Er. destruct (_ <? 0); [done|]. injection Er as _ <-.
    unfold IkcpMessages.taken in Hrc. cbn in Hrc. rewrite Hb in Hrc. cbn in Hrc. injection Hrc as _ Hn _ Hq' _ Hb'.
    injection Hsc as _ _ _ _ _ Hcv _ _ _ Hac _. done.
Qed.

(** The next segment is put in: it is the one message that can be taken, and when it has been taken and the
    control block updated, the block waits for the segment after it. *)
Lemma after_input_next k t seg : drained k → next_segment (Ikcp.conv k) (Ikcp.rcv_nxt k) seg →
  Ikcp.seg_len seg < 2 ^ 31 - Ikcp.IKCP_OVERHEAD →
  ikcp_pending (after_input k t (wire seg)) = [seg_data seg] ∧
  ∀ len t2, zlen (seg_data seg) <= len → zlen (Ikcp.acklist k) + 1 < 2 ^ 31 - 1 →
    let k' := fst (ikcp_update (recv_blocks 2 (after_input k t (wire seg)) len) t2) in
    drained k' ∧ Ikcp.conv k' = Ikcp.conv k ∧ Ikcp.rcv_nxt k' = Ikcp.rcv_nxt k +u32 1 ∧
    zlen (Ikcp.acklist k') <= zlen (Ikcp.acklist k) + 1.
Proof.
  intros Hk [N1 N2 N3 N4 [N5 _]] Hl.
  destruct (update_drained k t Hk) as (k1 & ds & E1 & [H1 H2 H3 H4 H5] & Ec & En & Ea).
  destruct (IkcpMessages.input_next k1 seg) as (k2 & s' & E2 & Hk2 & Hq & Hs & Hb & Hn2 & Hc2 & Ha2); try done; [congruence|lia|congruence|].
  assert (Ek : after_input k t (wire seg) = k2).
  { change (after_input k t (wire seg)) with
      (match Ikcp.ikcp_input (fst (match Ikcp.ikcp_update k t with Ok r => r | Fault => (k, []) end)) (wire seg) with
       Ok (_, k') => k' | Fault => fst (match Ikcp.ikcp_update k t with Ok r => r | Fault => (k, []) end) end).
    rewrite E1. cbn [fst]. by rewrite E2. }
  rewrite Ek. injection Hs as Ef Ed. unfold Ikcp.seg_len, Ikcp.IKCP_OVERHEAD in Hl. rewrite <- Ed in *.
  assert (Hf : seg_frg s' = 0) by congruence. assert (Hsz : zlen (seg_data s') < 2 ^ 31) by lia.
  assert (Hp : pending k2 = [seg_data s']) by (by apply pending_single). split; [exact Hp|].
  intros len t2 Hlen Hacks. pose proof (zlen_nonneg (seg_data s')). destruct (after_single k2 s') as (A1 & A2 & A3 & A4 & A5 & A6); [done..|].
  assert (Eb : recv_blocks 2 k2 len = after k2).
  { change (snd (recv (snd (recv k2 len)) len) = after k2). rewrite pending_eq in Hp. rewrite (recv_spec k2) by lia.
    destruct (ready k2); [|done]. injection Hp as Hm Hp. rewrite Hm, (proj2 (Z.leb_le _ _)) by lia. cbn [andb snd].
    rewrite recv_spec by lia. unfold ready, whole. by rewrite A2. }
  rewrite Eb. assert (Hd : drained (after k2)) by (split; rewrite ?A2, ?A3, ?A5, ?A6; first [done|congruence|lia]).
  destruct (update_drained (after k2) t2 Hd) as (k3 & ds3 & E3 & Hd3 & Ec3 & En3 & Ea3). cbv zeta.
  change (ikcp_update (after k2) t2) with (match Ikcp.ikcp_update (after k2) t2 with Ok r => r | Fault => (after k2, []) end).
  rewrite E3. cbn [fst]. rewrite A6 in Ea3. split_and!; [done|congruence|congruence|lia].
Qed.

(** The parser is used up by every message: it refuses it, or takes all of it. *)
Definition takes_whole (parse : parser_call) (ms : list (list Z)) : Prop :=
  ∀ b b' l, wf b → contents b ∈ ms → parse b = Ok (true, b', l) → contents b' = [].

(** The completion of a receive with a segment as its datagram, at whatever times. *)
Definition arrives {endpoint} (ep : endpoint) (parse : parser_call) (o : kcp_op endpoint) (seg : IKCPSEG) : Prop :=
  ∃ time c0 c1 c2, o = KReceive false ep (wire seg) time c0 c1 c2 parse.

Lemma segment_handled {endpoint} `{Countable endpoint} (address : endpoint → ClientIPInfo) junk
    (s : CKcpServer endpoint ikcpcb) ep id k seg time c0 c1 c2 parse :
  kcp_reachable address junk s → count_index s < 2 ^ 32 - 1 → listening s ep id k → parser_ok parse → takes_whole parse [seg_data seg] →
  drained k → zlen (Ikcp.acklist k) + 1 < 2 ^ 31 - 1 → next_segment (Ikcp.conv k) (Ikcp.rcv_nxt k) seg →
  zlen (wire seg) <= max_recv_size_ s → zlen (wire seg) < 2 ^ 31 → contents (session_recv_data_buffer_ s) = [] →
  ∃ s' b k', kcp_step address junk s (KReceive false ep (wire seg) time c0 c1 c2 parse) = Ok s' ∧
    contents b = seg_data seg ∧ calls s' = calls s ++ [handled id parse b] ∧
    count_index s' = count_index s ∧ max_recv_size_ s' = max_recv_size_ s ∧ listening s' ep id k' ∧ drained k' ∧ Ikcp.conv k' = Ikcp.conv k ∧
    Ikcp.rcv_nxt k' = Ikcp.rcv_nxt k +u32 1 ∧ zlen (Ikcp.acklist k') <= zlen (Ikcp.acklist k) + 1 ∧
    contents (session_recv_data_buffer_ s') = [].
Proof.
  intros Hr Hc Hl Hp Htake Hk Hacks Hseg Hfit H31 Hd. pose proof (IkcpFacts.zlen_wire seg) as Hz. rewrite Hz in Hfit, H31.
  destruct (nx_data _ _ _ Hseg) as [_ Hne]. assert (Hpos : 0 < zlen (seg_data seg)).
  { pose proof (zlen_nonneg (seg_data seg)). destruct (decide (zlen (seg_data seg) = 0)) as [E|]; [|lia]. by apply zlen_zero in E. }
  unfold Ikcp.seg_len, Ikcp.IKCP_OVERHEAD in *.
  assert (Hkey : wire seg ≠ kcp_key_id_create).
  { intros E. apply (f_equal zlen) in E. rewrite Hz in E. change (zlen kcp_key_id_create) with 17 in E. lia. }
  destruct (after_input_next k c1 seg Hk Hseg) as [Hpend Hnext]; [unfold Ikcp.seg_len, Ikcp.IKCP_OVERHEAD; lia|].
  destruct (kcp_reachable_inv address junk s Hr) as [Hi He]. destruct (v_recv s Hi) as [Hwf Hmr]. destruct (v_data s Hi) as [Hwd Hmd].
  pose proof (contents_len _ Hwd) as Hlen. rewrite Hd, zlen_nil in Hlen. pose proof (contents_len _ Hwf) as Hlen0. rewrite He, zlen_nil in Hlen0.
  assert (Ht : KcpServer.total [seg_data seg] = zlen (seg_data seg)) by (unfold KcpServer.total; cbn; by rewrite app_nil_r).
  destruct (messages_handled address junk s ep id k (wire seg) time c0 c1 c2 parse [seg_data seg] Hi He Hc Hl Hp Hkey)
    as (s' & E & _ & Hcalls & Hcount & Hmax & Hl' & Hleft); [rewrite get_buffer_size_wf, ?He by done; change (zlen (@nil Z)) with 0; lia|lia|done|apply Forall_singleton; lia|lia|lia|].
  rewrite <- Hlen, Ht in Hcalls, Hleft. cbn [foldl] in Hcalls, Hleft. rewrite Z.add_0_l in Hcalls, Hleft.
  set (b := mkSessionBuffer (overwrite _ _) _ _) in *. pose proof (wf_len _ Hwd).
  assert (Hwb : wf b) by (pose proof (wf_max _ Hwd); split; cbn; unfold overwrite; rewrite ?zlen_app, ?zlen_zdrop; lia).
  assert (Hcb : contents b = seg_data seg) by (by apply ztake_app_eq).
  destruct (Hnext (zlen (wire seg)) c2) as (Hk' & Hc' & Hn' & Ha'); [lia|done|].
  eexists s', b, _. split; [exact E|]. split; [done|]. split; [exact Hcalls|]. split; [exact Hcount|]. split; [exact Hmax|]. split; [exact Hl'|]. split_and!; [done..|].
  destruct (Hp b Hwb) as (ret & b1 & l & Eb & Hcons). specialize (Hleft ret b1 l Eb). destruct ret.
  - rewrite Hleft. eapply Htake; [exact Hwb| |exact Eb]. rewrite Hcb. by apply list_elem_of_singleton.
  - destruct (consumes_move b b1 Hwb Hcons) as (b2 & Em & _ & Hb2 & _). rewrite Hcb in Em. rewrite u64_small in Hleft by lia. congruence.
Qed.

(** C11: The server with the KCP library hands the messages of a connection on, one by one and in order.  A connection
    is given datagrams that each hold one segment with a message of its own, with the numbers that the control block
    waits for; the parser is given, datagram by datagram, exactly the bytes of the message, its packets go to the work
    threads under the id of the connection (or the connection is asked to close), and afterwards the server waits for the next segment as it
    did before.  Conditions: the connection is known, there is no bridge and the socket is open ([listening]);
    its control block has handed on all it received ([drained], which each datagram restores); the datagrams fit the receive
    buffer and are shorter than 2^31 bytes; the parser keeps its contract ([parser_ok]) and takes the whole of every message it accepts
    ([takes_whole]), and the data buffer is empty at first.  What the code does when bytes stay
    in the data buffer or when a datagram completes several messages is [kcp_messages_overwrite]. *)
Theorem kcp_segment_to_parser {endpoint} `{Countable endpoint} (address : endpoint → ClientIPInfo) junk ep id parse segs :
  ∀ (s : CKcpServer endpoint ikcpcb) k os,
  kcp_reachable address junk s → count_index s < 2 ^ 32 - 1 → listening s ep id k → parser_ok parse →
  takes_whole parse (map seg_data segs) → drained k → zlen (Ikcp.acklist k) + zlen segs < 2 ^ 31 - 1 →
  in_order (Ikcp.conv k) (Ikcp.rcv_nxt k) segs → Forall (λ seg, zlen (wire seg) <= max_recv_size_ s ∧ zlen (wire seg) < 2 ^ 31) segs →
  contents (session_recv_data_buffer_ s) = [] → Forall2 (arrives ep parse) os segs →
  ∃ s' bs k', kcp_run address junk s os = Ok s' ∧ map contents bs = map seg_data segs ∧
    calls s' = calls s ++ map (handled id parse) bs ∧ listening s' ep id k' ∧ drained k' ∧
    contents (session_recv_data_buffer_ s') = [].
Proof.
  induction segs as [|seg segs IH]; intros s k os Hr Hc Hl Hp Htake Hk Hacks Hord Hsz Hd Hos.
  { apply Forall2_nil_inv_r in Hos as ->. exists s, [], k. cbn. rewrite app_nil_r. done. }
  apply Forall2_cons_inv_r in Hos as (o & os' & (time & c0 & c1 & c2 & ->) & Hos & ->). destruct Hord as [Hseg Hord].
  apply Forall_cons in Hsz as [[Hsz1 Hsz2] Hsz]. rewrite zlen_cons in Hacks. pose proof (zlen_nonneg segs). cbn [kcp_run].
  destruct (segment_handled address junk s ep id k seg time c0 c1 c2 parse) as (s1 & b & k1 & E & Hb & Hcalls & Hcount & Hmax & Hl1 & Hk1 & Hc1 & Hn1 & Ha1 & Hd1);
    try done; [|lia|].
  { intros b b' l Hwb Hin%list_elem_of_singleton. apply Htake; [done|]. rewrite Hin. by left. }
  assert (Hr1 : kcp_reachable address junk s1) by (eapply reach_step; [exact Hr| |exact E]; split; [done|split; [done|apply Hl]]).
  rewrite E. cbn [obind].
  destruct (IH s1 k1 os') as (s2 & bs & k2 & E2 & Hbs & Hcalls2 & Hl2 & Hk2 & Hd2); try done.
  - by rewrite Hcount.
  - intros b0 b' l Hwb Hin. apply Htake; [done|]. by right.
  - lia.
  - by rewrite Hc1, Hn1.
  - eapply Forall_impl; [exact Hsz|]. cbn. by rewrite Hmax.
  - exists s2, (b :: bs), k2. cbn. rewrite Hcalls2, Hcalls, <- app_assoc, Hb, Hbs. done.
Qed.

(** A server that the endpoint 7 has asked for an id. *)
Definition real_start : CKcpServer nat ikcpcb := start demo_junk "127.0.0.1" 10005 64 64 ClientIPInfo_default 0 0.
Definition real_connected : CKcpServer nat ikcpcb :=
  match kcp_step demo_address demo_junk real_start (demo_receive 7 kcp_key_id_create) with Ok s => s | Fault => real_start end.
Definition real_block : ikcpcb :=
  match udp_id_2_endpoint_list_ real_connected !! 1 with Some i => default (Ikcp.ikcp_create 0) (kcpcb_ i) | None => Ikcp.ikcp_create 0 end.
Definition real_segment : IKCPSEG :=
  Ikcp.mkSeg (Ikcp.conv real_block) Ikcp.IKCP_CMD_PUSH 0 32 0 0 0 0 0 0 0 [1; 2; 3].

Lemma real_connected_reachable : kcp_reachable demo_address demo_junk real_connected.
Proof.
  apply (reach_step _ _ real_start (demo_receive 7 kcp_key_id_create)).
  - apply reach_start. split; [cbn; lia..|reflexivity].
  - split; [reflexivity|]. split; [exact kcp_demo_parse_ok|reflexivity].
  - vm_compute. reflexivity.
Qed.

Lemma real_block_drained : drained real_block.
Proof.
  let b := eval vm_compute in real_block in assert (E : real_block = b) by (vm_compute; reflexivity). rewrite E. clear E.
  repeat split; cbn; try done; try lia; try constructor.
Qed.

(** Two segments: both messages reach the parser. *)
Definition real_segments : list IKCPSEG := [real_segment; real_segment <| Ikcp.seg_sn := 1 |> <| seg_data := [4; 5] |>].

Lemma demo_parse_takes_whole ms : takes_whole demo_parse ms.
Proof.
  intros b b' l Hb _. unfold demo_parse. destruct (move b _) as [b1|] eqn:E; [|done]. cbn.
  pose proof (contents_len b Hb) as Hl. unfold get_write_size in E. rewrite <- Hl in E.
  destruct (move_contents b (zlen (contents b)) Hb) as (b2 & E2 & _ & Hc & _); [apply zlen_nonneg|]. rewrite E in E2. injection E2 as <-.
  intros [= <- _]. rewrite Hc. by apply zdrop_all.
Qed.

Lemma kcp_segment_to_parser_witness :
  ∃ s' bs k', kcp_run demo_address demo_junk real_connected (map (λ seg, demo_receive 7 (wire seg)) real_segments) = Ok s' ∧
    map contents bs = [[1; 2; 3]; [4; 5]] ∧ calls s' = calls real_connected ++ map (handled 1 demo_parse) bs ∧
    listening s' 7%nat 1 k' ∧ drained k' ∧ contents (session_recv_data_buffer_ s') = [].
Proof.
  apply (kcp_segment_to_parser demo_address demo_junk 7%nat 1 demo_parse real_segments real_connected real_block).
  - exact real_connected_reachable.
  - vm_compute. reflexivity.
  - split; vm_compute; reflexivity.
  - exact kcp_demo_parse_ok.
  - apply demo_parse_takes_whole.
  - exact real_block_drained.
  - vm_compute. reflexivity.
  - cbn [in_order real_segments]. split_and!; [split; [vm_compute; reflexivity..|split; [repeat constructor; by compute|done]]..|done].
  - repeat constructor; vm_compute; first [reflexivity|discriminate].
  - vm_compute. reflexivity.
  - repeat constructor; by eexists _, _, _, _.
Defined.
