(* ===== verification/TcpClientSession.v ===== *)
(** * TCP client sessions (src/PSS_ASIO/TcpSession/TcpClientSession.{h,cpp})

    A connection this server opens to another one: an asynchronous connect, then the same receive path as
    a TCP session and an output path with a bounded send buffer.  Work given to the I/O context
    ([io_context_->dispatch]) waits in [posted], oldest first; [in_flight] holds the writes under way,
    [sent] all that were started, with whether they were sent immediately. *)

From Stdlib Require Import ZArith Lia.
From S2P Require Import Prelude Define SessionBuffer SessionCalls.
From stdpp Require Import base numbers list strings.
Local Open Scope Z_scope.

(** A write of the session: [w_now] when it comes from [do_write_immediately]. *)
Record write := mkWrite { w_now : bool; w_connect : Z; w_data : list Z }.

Inductive posted_work :=
| PostedWrite (connect_id : Z) (data : list Z)
| PostedClose (connect_id : Z) (remote_ip : ClientIPInfo).

Record CTcpClientSession := mkClient {
  socket_open : bool;
  server_id_ : Z;                           (* uint32 *)
  connect_id_ : Z;                          (* uint32 *)
  io_bridge_connect_id_ : Z;                (* uint32 *)
  is_connect_ : bool;
  session_recv_buffer_ : CSessionBuffer;
  session_send_buffer_ : CSessionBuffer;
  remote_ip_ : ClientIPInfo;
  local_ip_ : ClientIPInfo;
  recv_data_size_ : Z;                      (* size_t *)
  send_data_size_ : Z;                      (* size_t *)
  recv_data_time_ : Z;
  io_state_ : EM_SESSION_STATE;
  (* the environment *)
  connecting : bool;
  reading : bool;
  calls : list app_call;
  posted : list posted_work;
  in_flight : list write;
  sent : list write;
}.

Implicit Types (s : CTcpClientSession).

Definition call s (l : list app_call) : CTcpClientSession := s <| calls := calls s ++ l |>.
Definition post s (p : posted_work) : CTcpClientSession := s <| posted := posted s ++ [p] |>.
Definition async_write s (w : write) : CTcpClientSession :=
  s <| in_flight := in_flight s ++ [w] |> <| sent := sent s ++ [w] |>.

(** [start]: an address that cannot be parsed, or options on a socket that could not be opened, throw;
    an error of [bind] is ignored.  Otherwise the connect is under way. *)
Definition start (junk : nat → Z) (valid_ip : string → bool) (open_ok : bool) (io_info : CConnect_IO_Info) (now : Z)
    : outcome CTcpClientSession :=
  let s := mkClient false (server_id io_info) 0 0 false (Init junk (recv_size io_info)) (Init junk (send_size io_info))
             ClientIPInfo_default ClientIPInfo_default 0 0 now SESSION_IO_LOGIC false false [] [] [] [] in
  if negb (valid_ip (server_ip io_info)) then Fault
  else if (0 <? client_port io_info) && (0 <? Z.of_nat (String.length (client_ip io_info)))
          && negb (valid_ip (client_ip io_info) && open_ok) then Fault
  else Ok (s <| local_ip_ := mkClientIPInfo (client_ip io_info) (client_port io_info) |>
             <| remote_ip_ := mkClientIPInfo (server_ip io_info) (server_port io_info) |>
             <| socket_open := true |> <| connecting := true |>).

(** [do_read]: a full buffer posts a close to the logic thread 1; the read is started anyway. *)
Definition do_read s : CTcpClientSession :=
  let s := if get_buffer_size (session_recv_buffer_ s) =? 0 then call s [PostClose 1 (connect_id_ s)] else s in
  s <| reading := true |>.

(** [handle_connect] for the pending connect: [id] comes from the connection counter, [endpoints] are the
    two ends of the socket, which throws when it is no longer connected. *)
Definition handle_connect s (ec : bool) (id now : Z) (endpoints : option (ClientIPInfo * ClientIPInfo)) : outcome CTcpClientSession :=
  if negb (connecting s) then Ok s
  else
    let s := s <| connecting := false |> in
    if ec then
      Ok (call (s <| is_connect_ := false |>)
            [FrameEvent LOGIC_CONNECT_SERVER_ERROR (server_id_ s) (m_strClientIP (remote_ip_ s)) (m_u2Port (remote_ip_ s))
               CONNECT_IO_SERVER_TCP])
    else
      let s := s <| is_connect_ := true |> <| connect_id_ := id |> <| recv_data_time_ := now |> in
      match endpoints with
      | None => Fault
      | Some (remote, local) =>
          let s := s <| remote_ip_ := remote |> <| local_ip_ := local |> in
          Ok (do_read (call s [PacketConnect id remote local; AddThreadSession id local remote]))
      end.

Definition close s (connect_id : Z) : CTcpClientSession := post s (PostedClose connect_id (remote_ip_ s)).

Definition set_write_buffer s (data : list Z) : outcome CTcpClientSession :=
  let* b := append_send_buffer (session_send_buffer_ s) data in
  Ok (s <| session_send_buffer_ := b |>).

Definition do_write_immediately s (connect_id : Z) (data : list Z) : CTcpClientSession :=
  if negb (is_connect_ s) then s else post s (PostedWrite connect_id data).

Definition do_write s (connect_id : Z) : outcome CTcpClientSession :=
  if negb (is_connect_ s) then Ok s
  else
    let* '(data, b) := take_send_buffer (session_send_buffer_ s) in
    Ok (async_write (s <| session_send_buffer_ := b |>) (mkWrite false connect_id data)).

(** The I/O context runs the oldest posted work. *)
Definition run_posted s : CTcpClientSession :=
  match posted s with
  | [] => s
  | p :: ps =>
      let s := s <| posted := ps |> in
      match p with
      | PostedWrite c data => async_write s (mkWrite true c data)
      | PostedClose c remote =>
          call s [PacketDisconnect c; DeleteThreadSession c remote CONNECT_IO_SERVER_TCP] <| socket_open := false |>
      end
  end.

Definition add_send_finish_size s (send_length : Z) : CTcpClientSession :=
  s <| send_data_size_ := send_data_size_ s +u64 send_length |>.

Definition send_write_fail_to_logic s (buf : list Z) (len : Z) : CTcpClientSession :=
  call s [AssignationEvents (connect_id_ s) [mkPacket [] (ztake len buf) LOGIC_THREAD_WRITE_IO_ERROR]].

(** The completion of one of the writes under way: with an error after [len] bytes, or of all of it. *)
Definition write_completes s (n : nat) (ec : bool) (len : Z) : CTcpClientSession :=
  match in_flight s !! n with
  | None => s
  | Some w =>
      let s := s <| in_flight := delete n (in_flight s) |> in
      if ec then send_write_fail_to_logic s (w_data w) len else add_send_finish_size s (zlen (w_data w))
  end.

(** [do_read_some] for the pending read. *)
Definition do_read_some s (ec : bool) (data : list Z) (time bridge_ret : Z) (parse : parser_call) : outcome CTcpClientSession :=
  if negb (reading s) then Ok s
  else
    let s := s <| reading := false |> in
    if ec then Ok (call s [CloseSessionEvent (connect_id_ s)] <| is_connect_ := false |>)
    else
      let s := s <| recv_data_size_ := recv_data_size_ s +u64 zlen data |> in
      let* '(_, b) := recv_into (session_recv_buffer_ s) data in
      let* r := receive_data (connect_id_ s) (io_state_ s) (io_bridge_connect_id_ s) (recv_data_time_ s) time time bridge_ret
                  parse b (zlen data) in
      Ok (do_read (call (s <| session_recv_buffer_ := rs_buffer r |> <| recv_data_time_ := rs_time r |>
                           <| io_bridge_connect_id_ := rs_bridge r |>) [rs_call r])).

Definition set_io_bridge_connect_id s (from_io_connect_id to_io_connect_id : Z) : CTcpClientSession :=
  s <| io_state_ := fst (bridge_to to_io_connect_id) |> <| io_bridge_connect_id_ := snd (bridge_to to_io_connect_id) |>.

(** The queries. *)
Definition get_remote_ip s (connect_id : Z) : ClientIPInfo := remote_ip_ s.
Definition get_io_type s : EM_CONNECT_IO_TYPE := CONNECT_IO_SERVER_TCP.
Definition get_mark_id s (connect_id : Z) : Z := server_id_ s.
Definition get_connect_id s : Z := connect_id_ s.
Definition get_recv_time s (connect_id : Z) : Z := recv_data_time_ s.
Definition is_connect s : bool := is_connect_ s.

(** ** Steps *)

Inductive client_op :=
| CConnected (ec : bool) (id now : Z) (endpoints : option (ClientIPInfo * ClientIPInfo))
| CRead (ec : bool) (data : list Z) (time bridge_ret : Z) (parse : parser_call)
| CSet (data : list Z)
| CWrite (c : Z)
| CWriteNow (c : Z) (data : list Z)
| CRunPosted
| CWriteDone (n : nat) (ec : bool) (len : Z)
| CClose (c : Z)
| CBridge (from_id to_id : Z).

Definition client_step s (o : client_op) : outcome CTcpClientSession :=
  match o with
  | CConnected ec id now ends => handle_connect s ec id now ends
  | CRead ec d t r parse => do_read_some s ec (ztake (get_buffer_size (session_recv_buffer_ s)) d) t r parse
  | CSet d => set_write_buffer s d
  | CWrite c => do_write s c
  | CWriteNow c d => Ok (do_write_immediately s c d)
  | CRunPosted => Ok (run_posted s)
  | CWriteDone n ec len => Ok (write_completes s n ec len)
  | CClose c => Ok (close s c)
  | CBridge f t => Ok (set_io_bridge_connect_id s f t)
  end.

Fixpoint client_run s (os : list client_op) : outcome CTcpClientSession :=
  match os with [] => Ok s | o :: os => let* s := client_step s o in client_run s os end.

(** ** The output *)

(** The bytes given to the socket from the send buffer, and immediately. *)
Definition bytes_of (now : bool) (l : list write) : list Z := concat (map w_data (filter (λ w, w_now w = now) l)).

Definition posted_bytes (l : list posted_work) : list Z :=
  concat (map (λ p, match p with PostedWrite _ d => d | PostedClose _ _ => [] end) l).

#[local] Arguments bytes_of : simpl never.
#[local] Arguments posted_bytes : simpl never.

Lemma bytes_of_app now l1 l2 : bytes_of now (l1 ++ l2) = bytes_of now l1 ++ bytes_of now l2.
Proof. unfold bytes_of. by rewrite filter_app, map_app, concat_app. Qed.

Lemma bytes_of_one now w : bytes_of now [w] = if bool_decide (w_now w = now) then w_data w else [].
Proof.
  unfold bytes_of. case_bool_decide as E; [rewrite filter_cons_True by done|rewrite filter_cons_False by done]; cbn; by rewrite ?app_nil_r.
Qed.

Lemma posted_bytes_app l1 l2 : posted_bytes (l1 ++ l2) = posted_bytes l1 ++ posted_bytes l2.
Proof. unfold posted_bytes. by rewrite map_app, concat_app. Qed.

(** All that the session has taken: given to the socket or still waiting. *)
Definition taken_buffered s : list Z := bytes_of false (sent s) ++ contents (session_send_buffer_ s).
Definition taken_now s : list Z := bytes_of true (sent s) ++ posted_bytes (posted s).

(** What an operation adds: buffered data only when it leaves a byte free, immediate data only when
    connected. *)
Definition adds_buffered s (o : client_op) : list Z :=
  match o with CSet d => if get_buffer_size (session_send_buffer_ s) <=? zlen d then [] else d | _ => [] end.
Definition adds_now s (o : client_op) : list Z :=
  match o with CWriteNow _ d => if is_connect_ s then d else [] | _ => [] end.

(** The same over a run. *)
Fixpoint run_adds (adds : CTcpClientSession → client_op → list Z) s (os : list client_op) : list Z :=
  match os with
  | [] => []
  | o :: os => adds s o ++ match client_step s o with Ok s => run_adds adds s os | Fault => [] end
  end.

(** ** The invariant *)

Record buffers_inv (recv_size send_size : Z) s : Prop := {
  ci_recv : wf (session_recv_buffer_ s) ∧ max_buff_size_ (session_recv_buffer_ s) = recv_size;
  ci_send : wf (session_send_buffer_ s) ∧ max_buff_size_ (session_send_buffer_ s) = send_size;
  ci_room : contents (session_send_buffer_ s) = [] ∨ zlen (contents (session_send_buffer_ s)) < send_size;
  ci_flight : in_flight s `sublist_of` sent s;
}.

Definition client_inv recv_size send_size s : Prop :=
  buffers_inv recv_size send_size s ∧ (is_connect_ s = true → reading s = true).

Definition op_ok (o : client_op) : Prop :=
  match o with
  | CConnected ec _ _ ends => ec = false → is_Some ends
  | CRead _ _ _ _ parse => parser_ok parse
  | _ => True
  end.

(** Operations that leave the output alone. *)
Record quiet s s' : Prop := {
  q_send : session_send_buffer_ s' = session_send_buffer_ s;
  q_sent : sent s' = sent s;
  q_posted : posted_bytes (posted s') = posted_bytes (posted s);
}.

#[local] Instance quiet_preorder : PreOrder quiet.
Proof. split; [by split|]. intros s1 s2 s3 [] []. split; congruence. Qed.

Lemma quiet_taken s s' : quiet s s' → taken_buffered s' = taken_buffered s ∧ taken_now s' = taken_now s.
Proof. intros [E1 E2 E3]. unfold taken_buffered, taken_now. by rewrite E1, E2, E3. Qed.

Lemma client_do_read_inv rs ss s : buffers_inv rs ss s → client_inv rs ss (do_read s).
Proof. intros []. unfold do_read. by destruct (_ =? 0). Qed.

Lemma do_read_quiet s : quiet s (do_read s).
Proof. unfold do_read. by destruct (_ =? 0). Qed.

Lemma connect_ok rs ss s ec id now ends : client_inv rs ss s → op_ok (CConnected ec id now ends) →
  ∃ s', handle_connect s ec id now ends = Ok s' ∧ client_inv rs ss s' ∧ quiet s s'.
Proof.
  intros [Hb Hr] Ho. unfold handle_connect. destruct (connecting s); cbn [negb]; [|by eexists].
  destruct ec; [eexists; split; [done|]; split; [by destruct Hb|done]|]. destruct (Ho eq_refl) as [[remote local] ->].
  eexists. split; [done|]. split; [apply client_do_read_inv; by destruct Hb|].
  etrans; [|apply do_read_quiet]. by split.
Qed.

Lemma client_read_ok rs ss s ec data t r parse : client_inv rs ss s → zlen data <= get_buffer_size (session_recv_buffer_ s) → parser_ok parse →
  ∃ s', do_read_some s ec data t r parse = Ok s' ∧ client_inv rs ss s' ∧ quiet s s'.
Proof.
  intros Hi Hd Hp. unfold do_read_some. destruct (reading s) eqn:Er; cbn [negb]; [|by exists s]. destruct Hi as [Hb Hr].
  destruct ec; [eexists; split; [done|]; split; [by destruct Hb|done]|].
  destruct Hb as [[Hw Hm] Hs Hroom Hf]. destruct (recv_into_fits _ data Hw Hd) as (b & Eb & Hb & Hcb & Hmb).
  change (recv_into _ data) with (recv_into (session_recv_buffer_ s) data). rewrite Eb. cbn [obind].
  match goal with |- context [receive_data ?c ?st ?br ?t0 ?t1 ?t2 ?re ?pa ?bu ?n] =>
    destruct (receive_data_ok c st br t0 t1 t2 re pa bu n) as (x & -> & (Hx & Hmx & _) & _); [done| |done|] end.
  { pose proof (zlen_nonneg data). rewrite get_buffer_size_wf in Hd by done. pose proof (zlen_nonneg (contents (session_recv_buffer_ s))). lia. }
  cbn [obind]. eexists. split; [done|]. split.
  - apply client_do_read_inv. split; cbn; [split; [done|congruence]|done..].
  - etrans; [|apply do_read_quiet]. by split.
Qed.

Lemma set_ok rs ss s d : client_inv rs ss s →
  ∃ s', set_write_buffer s d = Ok s' ∧ client_inv rs ss s' ∧
    taken_buffered s' = taken_buffered s ++ adds_buffered s (CSet d) ∧ taken_now s' = taken_now s.
Proof.
  intros [[Hrecv [Hw Hm] Hroom Hf] Hr]. unfold set_write_buffer.
  destruct (append_send_buffer_ok (session_send_buffer_ s) d Hw) as (b & -> & Hb & Hmb & Hc). cbn [obind]. eexists. split; [done|].
  unfold taken_buffered, adds_buffered. cbn. rewrite Hc, app_assoc. split; [|done]. split; [|done]. split; [done| | |done]; cbn.
  - split; [done|congruence].
  - rewrite Hc. destruct (_ <=? _) eqn:E; [by rewrite app_nil_r|]. rewrite get_buffer_size_wf in E by done. right. rewrite zlen_app. lia.
Qed.

Lemma write_ok rs ss s c : client_inv rs ss s →
  ∃ s', do_write s c = Ok s' ∧ client_inv rs ss s' ∧ taken_buffered s' = taken_buffered s ∧ taken_now s' = taken_now s.
Proof.
  intros [[Hrecv [Hw Hm] Hroom Hf] Hr]. unfold do_write. destruct (is_connect_ s) eqn:Ec; cbn [negb].
  2: { exists s. split; [done|]. split; [split; [split; eauto|by rewrite Ec]|done]. }
  destruct (take_send_buffer_ok (session_send_buffer_ s) Hw) as (b & -> & Hb & Hmb & Hc). cbn [obind]. eexists. split; [done|].
  unfold taken_buffered, taken_now. cbn. rewrite !bytes_of_app, !bytes_of_one, Hc, !app_nil_r. cbn.
  split; [|done]. split; [|by intros _; apply Hr]. split; cbn; [done|split; [done|congruence]|by left|].
  by apply sublist_app.
Qed.

Lemma client_step_ok rs ss s o : client_inv rs ss s → op_ok o →
  ∃ s', client_step s o = Ok s' ∧ client_inv rs ss s' ∧
    taken_buffered s' = taken_buffered s ++ adds_buffered s o ∧ taken_now s' = taken_now s ++ adds_now s o.
Proof.
  intros Hi Ho.
  assert (Hquiet : (∃ s', client_step s o = Ok s' ∧ client_inv rs ss s' ∧ quiet s s') → adds_buffered s o = [] → adds_now s o = [] →
    ∃ s', client_step s o = Ok s' ∧ client_inv rs ss s' ∧
      taken_buffered s' = taken_buffered s ++ adds_buffered s o ∧ taken_now s' = taken_now s ++ adds_now s o).
  { intros (s' & E & Hi' & [H1 H2]%quiet_taken) -> ->. exists s'. by rewrite !app_nil_r. }
  destruct o as [ec id now ends|ec d t r parse|d|c|c d| |n ec len|c|f t].
  - apply Hquiet; [by apply connect_ok|done..].
  - apply Hquiet; [|done..]. apply client_read_ok; [done| |done]. destruct Hi as [[[Hw _] _ _ _] _]. by apply fit_le.
  - destruct (set_ok rs ss s d Hi) as (s' & ? & ? & ? & ?). exists s'. cbn [adds_now]. by rewrite app_nil_r.
  - destruct (write_ok rs ss s c Hi) as (s' & ? & ? & ? & ?). exists s'. cbn [adds_now adds_buffered]. by rewrite !app_nil_r.
  - eexists. split; [done|]. cbn. unfold do_write_immediately. destruct (is_connect_ s) eqn:Ec; cbn [negb]; [|by rewrite !app_nil_r].
    split; [destruct Hi as [[] ?]; by split|]. unfold taken_buffered, taken_now. cbn. rewrite posted_bytes_app, !app_nil_r.
    unfold posted_bytes at 2. cbn. by rewrite app_nil_r, app_assoc.
  - eexists. split; [done|]. cbn. unfold run_posted. rewrite !app_nil_r. pose proof Hi as [[Hre Hse Hro Hf] Hr].
    unfold taken_now. destruct (posted s) as [|[c d|c rem] ps] eqn:Ep; [by rewrite Ep| |].
    + unfold taken_buffered. cbn. rewrite !bytes_of_app, !bytes_of_one. cbn. rewrite app_nil_r, <- app_assoc.
      split; [|done]. split; [|done]. split; try done. by apply sublist_app.
    + split; [|done]. split; [|done]. by split.
  - apply Hquiet; [|done..]. eexists. split; [done|]. unfold write_completes. destruct Hi as [[Hre Hse Hro Hf] Hr].
    destruct (in_flight s !! n) as [w|]; [|by split_and!].
    assert (Hf' : delete n (in_flight s) `sublist_of` sent s) by (etrans; [apply sublist_delete|exact Hf]).
    destruct ec; by split.
  - apply Hquiet; [|done..]. eexists. split; [done|]. split; [destruct Hi as [[] ?]; by split|]. split; [done..|]. cbn.
    by rewrite posted_bytes_app, app_nil_r.
  - apply Hquiet; [|done..]. eexists. split; [done|]. split; [destruct Hi as [[] ?]; by split|done].
Qed.

Lemma client_run_ok rs ss os : ∀ s, client_inv rs ss s → Forall op_ok os →
  ∃ s', client_run s os = Ok s' ∧ client_inv rs ss s' ∧
    taken_buffered s' = taken_buffered s ++ run_adds adds_buffered s os ∧ taken_now s' = taken_now s ++ run_adds adds_now s os.
Proof.
  induction os as [|o os IH]; intros s Hi Hos; cbn [client_run run_adds].
  { exists s. by rewrite !app_nil_r. }
  apply Forall_cons in Hos as [Ho Hos]. destruct (client_step_ok rs ss s o Hi Ho) as (s1 & -> & Hi1 & Hb & Hn). cbn [obind].
  destruct (IH s1 Hi1 Hos) as (s2 & -> & Hi2 & Hb2 & Hn2). exists s2. by rewrite Hb2, Hb, Hn2, Hn, <- !app_assoc.
Qed.

Definition config_ok (io_info : CConnect_IO_Info) : Prop :=
  0 <= recv_size io_info < 2 ^ 63 ∧ 0 <= send_size io_info < 2 ^ 63.

Lemma client_start_inv junk valid_ip ok io_info now s : config_ok io_info → start junk valid_ip ok io_info now = Ok s →
  client_inv (recv_size io_info) (send_size io_info) s ∧ taken_buffered s = [] ∧ taken_now s = [].
Proof.
  intros [Hr Hs]. unfold start. destruct (negb _); [done|]. destruct (_ && _); [done|]. intros [= <-].
  destruct (Init_wf junk (recv_size io_info) Hr) as [? _]. destruct (Init_wf junk (send_size io_info) Hs) as [? He].
  split; [|split; [exact He|done]]. split; [|done]. split; [done|done|by left|done].
Qed.


(** A connect that succeeds on a socket whose peer is gone: the handler throws, whatever the session did before. *)
Theorem tcp_client_connect_throws s id now : connecting s = true → client_step s (CConnected false id now None) = Fault.
Proof. intros Hc. cbn. unfold handle_connect. by rewrite Hc. Qed.

Definition demo_info : CConnect_IO_Info := mkConnectIOInfo 3 "127.0.0.1" 10002 "" 0 1 16 8 "" false.
Definition demo_parse : parser_call := λ b, let* b' := move b (get_write_size b) in Ok (true, b', [mkPacket [] (contents b) 0]).

Lemma client_demo_parse_ok : parser_ok demo_parse.
Proof.
  intros b Hb. unfold demo_parse, get_write_size. pose proof (wf_write b Hb).
  destruct (move_consumes b b (write_size_ b) (consumes_refl b Hb)) as (b' & -> & ?); [lia|]. cbn. eauto 6.
Qed.

(** Data set before the connection, data that does not fit, an immediate write, a read and a close. *)
Definition demo_ops : list client_op :=
  [CSet [1; 2; 3]; CWrite 0; CWriteNow 0 [9]; CConnected false 5 1 (Some (ClientIPInfo_default, ClientIPInfo_default));
   CSet [4; 5; 6; 7; 8]; CWriteNow 5 [7; 7]; CWrite 5; CRead false [1; 1] 2 0 demo_parse; CRunPosted; CSet [4]; CClose 5; CRunPosted].

Lemma client_demo_ops_ok : Forall op_ok demo_ops.
Proof. unfold demo_ops. repeat (apply Forall_cons; split; [first [apply client_demo_parse_ok|by eexists|done]|]). done. Qed.

