(* ===== verification/UdpClientSession.v ===== *)
(** * UDP client sessions (src/PSS_ASIO/UdpSession/UdpClientSession.{h,cpp})

    A connected UDP socket to another server.  Besides handing received datagrams on, the receive handler
    copies each of them into the send buffer, and neither that copy nor [set_write_buffer] asks whether
    the buffer has room.

    The session refines a small machine over byte queues, without memory: what is sent is what was set
    and what was received since the last write, and the session faults exactly when the queue outgrows
    the send buffer. *)

From Stdlib Require Import ZArith Lia.
From S2P Require Import Prelude Define SessionBuffer SessionCalls.
From stdpp Require Import base numbers list strings.
Local Open Scope Z_scope.

Inductive posted_work :=
| PostedSend (connect_id : Z) (data : list Z)
| PostedClose (connect_id : Z) (remote_ip : ClientIPInfo).

Record CUdpClientSession := mkUdpClient {
  socket_open : bool;
  peer : option (ClientIPInfo * ClientIPInfo);   (* remote and local end of the connected socket *)
  server_id_ : Z;                           (* uint32 *)
  connect_id_ : Z;                          (* uint32 *)
  io_bridge_connect_id_ : Z;                (* uint32 *)
  session_recv_buffer_ : CSessionBuffer;
  session_send_buffer_ : CSessionBuffer;
  recv_data_size_ : Z;                      (* size_t *)
  send_data_size_ : Z;                      (* size_t *)
  recv_data_time_ : Z;
  io_state_ : EM_SESSION_STATE;
  (* the environment *)
  receiving : bool;
  calls : list app_call;
  posted : list posted_work;
  in_flight : list (list Z);
  sent : list (list Z);
}.

Implicit Types (s : CUdpClientSession).

Definition call s (l : list app_call) : CUdpClientSession := s <| calls := calls s ++ l |>.
Definition post s (p : posted_work) : CUdpClientSession := s <| posted := posted s ++ [p] |>.

(** [do_receive]: a full buffer asks for the session to be closed; the receive is started anyway. *)
Definition do_receive s : CUdpClientSession :=
  let s := if get_buffer_size (session_recv_buffer_ s) =? 0 then call s [CloseSessionEvent (connect_id_ s)] else s in
  s <| receiving := true |>.

(** [start]: addresses that cannot be parsed and sockets that cannot be opened throw; [connected] is [None]
    when [connect] reports an error; [id] comes from the connection counter. *)
Definition start (junk : nat → Z) (valid_ip : string → bool) (open_ok : bool) (connected : option (ClientIPInfo * ClientIPInfo))
    (io_type : CConnect_IO_Info) (id now : Z) : outcome CUdpClientSession :=
  let s := mkUdpClient true None (server_id io_type) 0 0 (Init junk (recv_size io_type)) (Init junk (send_size io_type))
             0 0 now SESSION_IO_LOGIC false [] [] [] [] in
  if negb (valid_ip (server_ip io_type)) || negb open_ok then Fault
  else if (0 <? Z.of_nat (String.length (client_ip io_type))) && (0 <? client_port io_type) && negb (valid_ip (client_ip io_type))
  then Fault
  else match connected with
       | None => Ok s
       | Some (remote, local) =>
           let s := s <| peer := connected |> <| connect_id_ := id |> <| recv_data_time_ := now |> in
           Ok (do_receive (call s [PacketConnect id remote local; AddThreadSession id local remote]))
       end.

(** [get_remote_ip] throws on a socket that is not connected. *)
Definition get_remote_ip s (connect_id : Z) : outcome ClientIPInfo :=
  match peer s with
  | Some (remote, _) => if socket_open s then Ok remote else Fault
  | None => Fault
  end.

Definition close s (connect_id : Z) : outcome CUdpClientSession :=
  if negb (socket_open s) then Ok s
  else let* remote := get_remote_ip s connect_id in Ok (post s (PostedClose connect_id remote)).

(** [send_io_data]; [clear_write_buffer] moves the send buffer. *)
Definition send_io_data s (connect_id : Z) (data : list Z) : outcome CUdpClientSession :=
  if negb (socket_open s) then Ok s
  else
    let* b := move (session_send_buffer_ s) (zlen data) in
    Ok (post (s <| session_send_buffer_ := b |>) (PostedSend connect_id data)).

Definition do_write s (connect_id : Z) : outcome CUdpClientSession :=
  let* '(data, b) := take_send_buffer (session_send_buffer_ s) in
  send_io_data (s <| session_send_buffer_ := b |>) connect_id data.

(** [set_write_buffer]: no check for room. *)
Definition set_write_buffer s (data : list Z) : outcome CUdpClientSession :=
  let* '(_, b) := recv_into (session_send_buffer_ s) data in
  Ok (s <| session_send_buffer_ := b |>).

(** [do_write_immediately] drops what is buffered. *)
Definition do_write_immediately s (connect_id : Z) (data : list Z) : outcome CUdpClientSession :=
  let* b := move (session_send_buffer_ s) (get_write_size (session_send_buffer_ s)) in
  send_io_data (s <| session_send_buffer_ := b |>) connect_id data.

(** The I/O context runs the oldest posted work. *)
Definition run_posted s : CUdpClientSession :=
  match posted s with
  | [] => s
  | p :: ps =>
      let s := s <| posted := ps |> in
      match p with
      | PostedSend c data => s <| in_flight := in_flight s ++ [data] |> <| sent := sent s ++ [data] |>
      | PostedClose c remote =>
          call s [PacketDisconnect c; DeleteThreadSession c remote CONNECT_IO_SERVER_UDP] <| socket_open := false |>
      end
  end.

Definition add_send_finish_size s (send_length : Z) : CUdpClientSession :=
  s <| send_data_size_ := send_data_size_ s +u64 send_length |>.

(** The completion of one of the sends under way. *)
Definition send_completes s (n : nat) (ec : bool) : CUdpClientSession :=
  match in_flight s !! n with
  | None => s
  | Some d => let s := s <| in_flight := delete n (in_flight s) |> in if ec then s else add_send_finish_size s (zlen d)
  end.

(** [do_receive_from] for the pending receive. *)
Definition do_receive_from s (ec : bool) (data : list Z) (time bridge_ret : Z) (parse : parser_call) : outcome CUdpClientSession :=
  if negb (receiving s) then Ok s
  else
    let s := s <| receiving := false |> in
    if negb (socket_open s) then Ok s
    else if ec then Ok (call s [CloseSessionEvent (connect_id_ s)])
    else
      let s := s <| recv_data_size_ := recv_data_size_ s +u64 zlen data |> in
      let* '(_, b) := recv_into (session_recv_buffer_ s) data in
      let* copied := mem_read (read b) 0 (zlen data) in
      let* '(_, sb) := recv_into (session_send_buffer_ s) copied in
      let s := s <| session_send_buffer_ := sb |> in
      let* r := receive_data (connect_id_ s) (io_state_ s) (io_bridge_connect_id_ s) (recv_data_time_ s) time time bridge_ret
                  parse b (zlen data) in
      let* b := if rs_accepted r then Ok (rs_buffer r) else move (rs_buffer r) (zlen data) in
      let* b := move b (zlen data) in
      Ok (do_receive (call (s <| session_recv_buffer_ := b |> <| recv_data_time_ := rs_time r |>
                              <| io_bridge_connect_id_ := rs_bridge r |>) [rs_call r])).

Definition set_io_bridge_connect_id s (from_io_connect_id to_io_connect_id : Z) : CUdpClientSession :=
  s <| io_state_ := fst (bridge_to to_io_connect_id) |> <| io_bridge_connect_id_ := snd (bridge_to to_io_connect_id) |>.

(** The queries. *)
Definition get_io_type s : EM_CONNECT_IO_TYPE := CONNECT_IO_SERVER_UDP.
Definition get_mark_id s (connect_id : Z) : Z := server_id_ s.
Definition get_connect_id s : Z := connect_id_ s.
Definition get_recv_time s (connect_id : Z) : Z := recv_data_time_ s.

(** ** Steps *)

Inductive uclient_op :=
| UCReceive (ec : bool) (data : list Z) (time bridge_ret : Z) (parse : parser_call)
| UCSet (data : list Z)
| UCWrite (c : Z)
| UCWriteNow (c : Z) (data : list Z)
| UCRunPosted
| UCSendDone (n : nat) (ec : bool)
| UCClose (c : Z)
| UCBridge (from_id to_id : Z).

(** A datagram longer than the buffer is truncated by the socket. *)
Definition fit s (data : list Z) : list Z := ztake (get_buffer_size (session_recv_buffer_ s)) data.

Definition uclient_step s (o : uclient_op) : outcome CUdpClientSession :=
  match o with
  | UCReceive ec d t r parse => do_receive_from s ec (fit s d) t r parse
  | UCSet d => set_write_buffer s d
  | UCWrite c => do_write s c
  | UCWriteNow c d => do_write_immediately s c d
  | UCRunPosted => Ok (run_posted s)
  | UCSendDone n ec => Ok (send_completes s n ec)
  | UCClose c => close s c
  | UCBridge f t => Ok (set_io_bridge_connect_id s f t)
  end.

Fixpoint uclient_run s (os : list uclient_op) : outcome CUdpClientSession :=
  match os with [] => Ok s | o :: os => let* s := uclient_step s o in uclient_run s os end.

(** ** The queue machine *)

Record queue_state := mkQueue {
  q_open : bool;
  q_listening : bool;
  q_queue : list Z;
  q_work : list (option (list Z));     (* [None]: a close *)
  q_sent : list (list Z);
}.

Implicit Types (q : queue_state).

Definition queue_add (cap : Z) q (data : list Z) : option queue_state :=
  if zlen (q_queue q) + zlen data <=? cap then Some (q <| q_queue := q_queue q ++ data |>) else None.

(** The work is given to the I/O context while the session is open. *)
Definition queue_post q (w : option (list Z)) : queue_state := if q_open q then q <| q_work := q_work q ++ [w] |> else q.

Definition queue_step (recv_cap send_cap : Z) q (o : uclient_op) : option queue_state :=
  match o with
  | UCReceive ec d _ _ _ =>
      if negb (q_listening q) then Some q
      else if negb (q_open q) || ec then Some (q <| q_listening := false |>)
      else queue_add send_cap q (ztake recv_cap d)
  | UCSet d => queue_add send_cap q d
  | UCWrite _ => Some (queue_post q (Some (q_queue q)) <| q_queue := [] |>)
  | UCWriteNow _ d => Some (queue_post q (Some d) <| q_queue := [] |>)
  | UCRunPosted =>
      match q_work q with
      | [] => Some q
      | Some d :: ws => Some (q <| q_work := ws |> <| q_sent := q_sent q ++ [d] |>)
      | None :: ws => Some (q <| q_work := ws |> <| q_open := false |>)
      end
  | UCClose _ => Some (queue_post q None)
  | UCSendDone _ _ | UCBridge _ _ => Some q
  end.

Fixpoint queue_run (recv_cap send_cap : Z) q (os : list uclient_op) : option queue_state :=
  match os with [] => Some q | o :: os => q ← queue_step recv_cap send_cap q o; queue_run recv_cap send_cap q os end.

(** ** Refinement *)

Definition work_of (p : posted_work) : option (list Z) := match p with PostedSend _ d => Some d | PostedClose _ _ => None end.

Record refines (rc sc : Z) q s : Prop := {
  r_open : socket_open s = q_open q;
  r_listening : receiving s = q_listening q;
  r_queue : contents (session_send_buffer_ s) = q_queue q;
  r_work : map work_of (posted s) = q_work q;
  r_sent : sent s = q_sent q;
  r_peer : is_Some (peer s);
  r_send : wf (session_send_buffer_ s) ∧ max_buff_size_ (session_send_buffer_ s) = sc;
  r_recv : wf (session_recv_buffer_ s) ∧ max_buff_size_ (session_recv_buffer_ s) = rc ∧ contents (session_recv_buffer_ s) = [];
}.

Lemma do_receive_refines rc sc q s : refines rc sc (q <| q_listening := receiving s |>) s → refines rc sc (q <| q_listening := true |>) (do_receive s).
Proof. intros []. unfold do_receive. destruct (_ =? 0); by split. Qed.

(** Adding to the send buffer: within its memory exactly when the queue has room. *)
Lemma add_refines rc sc q s data : refines rc sc q s →
  match queue_add sc q data with
  | Some q' => ∃ b, recv_into (session_send_buffer_ s) data = Ok (true, b) ∧ refines rc sc q' (s <| session_send_buffer_ := b |>)
  | None => recv_into (session_send_buffer_ s) data = Fault
  end.
Proof.
  intros [H1 H2 H3 H4 H5 H6 [Hw Hm] H8]. unfold queue_add. rewrite <- H3. destruct (_ <=? _) eqn:E.
  - destruct (recv_into_fits _ data Hw) as (b & -> & Hb & Hc & Hmb); [rewrite get_buffer_size_wf by done; lia|].
    exists b. split; [done|]. split; try done. split; [done|]. cbn. congruence.
  - apply recv_into_overflow; [done|]. rewrite get_buffer_size_wf by done. lia.
Qed.

Lemma send_io_data_refines rc sc q s c data : refines rc sc q s → q_queue q = [] →
  ∃ s', send_io_data s c data = Ok s' ∧ refines rc sc (queue_post q (Some data)) s'.
Proof.
  intros [H1 H2 H3 H4 H5 H6 [Hw Hm] H8] Hq. unfold send_io_data, queue_post. rewrite H1. destruct (q_open q) eqn:Eo; cbn [negb].
  - destruct (move_contents _ (zlen data) Hw) as (b & -> & Hb & Hc & Hmb); [apply zlen_nonneg|]. cbn [obind]. eexists. split; [done|].
    split; try done; cbn; [congruence| | |].
    + rewrite Hc, H3, Hq. by unfold zdrop; rewrite drop_nil.
    + by rewrite map_app, H4.
    + split; [done|congruence].
  - eexists. split; [done|]. split; try done. congruence.
Qed.

Lemma empty_refines rc sc q s b : refines rc sc q s → wf b → max_buff_size_ b = max_buff_size_ (session_send_buffer_ s) → contents b = [] →
  refines rc sc (q <| q_queue := [] |>) (s <| session_send_buffer_ := b |>).
Proof. intros [H1 H2 H3 H4 H5 H6 [Hw Hm] H8] Hb Hmb Hc. split; try done. split; [done|]. cbn. congruence. Qed.

Lemma queue_post_empty q w : queue_post (q <| q_queue := [] |>) w = queue_post q w <| q_queue := [] |>.
Proof. by destruct q as [[] ? ? ? ?]. Qed.

Lemma receive_refines rc sc q s ec d t r parse : refines rc sc q s → parser_ok parse →
  match queue_step rc sc q (UCReceive ec d t r parse) with
  | Some q' => ∃ s', do_receive_from s ec (fit s d) t r parse = Ok s' ∧ refines rc sc q' s'
  | None => do_receive_from s ec (fit s d) t r parse = Fault
  end.
Proof.
  intros Hr Hp. pose proof Hr as [H1 H2 H3 H4 H5 H6 H7 (Hw & Hm & He)]. unfold do_receive_from. cbn [queue_step]. rewrite H2.
  destruct (q_listening q) eqn:El; cbn [negb]; [|by eauto]. cbn [socket_open]. change (socket_open (s <| receiving := false |>)) with (socket_open s).
  rewrite H1. destruct (q_open q) eqn:Eo; cbn [negb orb]; [|eexists; split; [done|]; clear -Hr; by destruct Hr].
  destruct ec; [eexists; split; [done|]; clear -Hr; by destruct Hr|].
  assert (Hfit : fit s d = ztake rc d).
  { unfold fit. rewrite get_buffer_size_wf, He, Hm by done. change (zlen (@nil Z)) with 0. by rewrite Z.sub_0_r. }
  rewrite Hfit. set (data := ztake rc d). pose proof (zlen_nonneg data).
  assert (Hlen : zlen data <= get_buffer_size (session_recv_buffer_ s)).
  { rewrite get_buffer_size_wf, He, Hm by done. change (zlen (@nil Z)) with 0. pose proof (wf_write _ Hw). unfold data.
    pose proof (zlen_ztake_le rc d). lia. }
  destruct (recv_into_fits _ data Hw Hlen) as (b & Eb & Hb & Hcb & Hmb). rewrite He in Hcb. cbn [app] in Hcb.
  change (recv_into _ data) with (recv_into (session_recv_buffer_ s) data). rewrite Eb. cbn [obind].
  pose proof (contents_len b Hb) as Hcl. rewrite Hcb in Hcl. pose proof (wf_write b Hb). pose proof (wf_len b Hb).
  rewrite mem_read_ok by (unfold read; lia). cbn [obind]. change (zdrop 0 (read b)) with (buffer_ b). rewrite Hcl. fold (contents b). rewrite Hcb.
  change (recv_into _ data) with (recv_into (session_send_buffer_ s) data).
  pose proof (add_refines rc sc q s data Hr) as Hadd. destruct (queue_add sc q data) as [q'|] eqn:Eq; [|by rewrite Hadd].
  destruct Hadd as (sb & -> & Hr'). cbn [obind]. rewrite <- Hcl.
  match goal with |- context [receive_data ?c ?st ?br ?t0 ?t1 ?t2 ?re ?pa ?bu ?n] =>
    destruct (receive_data_ok c st br t0 t1 t2 re pa bu n) as (x & -> & Hcons & _); [done|lia|done|] end.
  cbn [obind].
  assert (Hx : ∃ b1, (if rs_accepted x then Ok (rs_buffer x) else move (rs_buffer x) (zlen data)) = Ok b1 ∧ consumes b b1).
  { destruct (rs_accepted x); [by eauto|]. by apply move_consumes. }
  destruct Hx as (b1 & -> & Hcons1). cbn [obind]. destruct (consumes_move b b1 Hb Hcons1) as (b2 & Eb2 & Hb2 & Hc2 & Hm2).
  rewrite Hcb in Eb2. rewrite Eb2. cbn [obind]. eexists. split; [done|].
  assert (Hq' : q' = q' <| q_listening := true |>).
  { revert Eq. unfold queue_add. destruct (_ <=? _); [|done]. intros [= <-]. cbn. rewrite <- El. by destruct q. }
  rewrite Hq'. apply do_receive_refines. destruct Hr' as [R1 R2 R3 R4 R5 R6 R7 R8].
  split; try done. cbn. split; [done|]. split; [congruence|done].
Qed.

Definition op_ok (o : uclient_op) : Prop := match o with UCReceive _ _ _ _ parse => parser_ok parse | _ => True end.

Lemma step_refines rc sc q s o : refines rc sc q s → op_ok o →
  match queue_step rc sc q o with
  | Some q' => ∃ s', uclient_step s o = Ok s' ∧ refines rc sc q' s'
  | None => uclient_step s o = Fault
  end.
Proof.
  intros Hr Ho. destruct o as [ec d t r parse|d|c|c d| |n ec|c|f t]; cbn [uclient_step].
  - by apply receive_refines.
  - cbn [queue_step]. unfold set_write_buffer. pose proof (add_refines rc sc q s d Hr) as Hadd.
    destruct (queue_add sc q d) as [q'|]; [|by rewrite Hadd]. destruct Hadd as (b & -> & ?). cbn [obind]. by eauto.
  - cbn [queue_step]. unfold do_write. pose proof (r_send _ _ _ _ Hr) as [Hw _].
    destruct (take_send_buffer_ok _ Hw) as (b & -> & Hb & Hm & Hc). cbn [obind]. rewrite (r_queue _ _ _ _ Hr), <- queue_post_empty.
    apply send_io_data_refines; [by apply empty_refines|done].
  - cbn [queue_step]. unfold do_write_immediately. pose proof (r_send _ _ _ _ Hr) as [Hw _].
    destruct (clear_write_buffer_ok _ Hw) as (b & Eb & Hb & Hm & Hc). unfold clear_write_buffer in Eb. rewrite Eb. cbn [obind].
    rewrite <- queue_post_empty. apply send_io_data_refines; [by apply empty_refines|done].
  - destruct Hr as [H1 H2 H3 H4 H5 H6 H7 H8]. cbn [queue_step]. rewrite <- H4. unfold run_posted.
    destruct (posted s) as [|[c d|c rem] ps] eqn:Ep; cbn; eexists; (split; [done|]); split; try done; cbn; by rewrite ?Ep, ?H5.
  - eexists. split; [done|]. destruct Hr. unfold send_completes. destruct (in_flight s !! n); [|done]. by destruct ec.
  - cbn [queue_step]. unfold close, queue_post, get_remote_ip. destruct Hr as [H1 H2 H3 H4 H5 H6 H7 H8]. rewrite H1.
    destruct (q_open q) eqn:Eo; cbn [negb]; [|eexists; split; [done|]; split; congruence || done].
    destruct H6 as [[remote local] Hp]. rewrite Hp. cbn [obind]. eexists. split; [done|].
    split; cbn; rewrite ?map_app, ?H4, ?Hp; done || congruence.
  - eexists. split; [done|]. by destruct Hr.
Qed.

Lemma run_refines rc sc os : ∀ q s, refines rc sc q s → Forall op_ok os →
  match queue_run rc sc q os with
  | Some q' => ∃ s', uclient_run s os = Ok s' ∧ refines rc sc q' s'
  | None => uclient_run s os = Fault
  end.
Proof.
  induction os as [|o os IH]; intros q s Hr Hos; cbn [queue_run uclient_run]; [by eauto|].
  apply Forall_cons in Hos as [Ho Hos]. pose proof (step_refines rc sc q s o Hr Ho) as Hstep.
  destruct (queue_step rc sc q o) as [q1|]; cbn; [|by rewrite Hstep]. destruct Hstep as (s1 & -> & Hr1). cbn [obind]. by apply IH.
Qed.

Definition config_ok (io_type : CConnect_IO_Info) : Prop :=
  0 <= recv_size io_type < 2 ^ 63 ∧ 0 <= send_size io_type < 2 ^ 63.

Definition queue_new : queue_state := mkQueue true true [] [] [].

Lemma start_refines junk valid_ip ok ends io_type id now s : config_ok io_type →
  start junk valid_ip ok (Some ends) io_type id now = Ok s → refines (recv_size io_type) (send_size io_type) queue_new s.
Proof.
  intros [Hr Hs]. unfold start. destruct (_ || _); [done|]. destruct (_ && _); [done|]. destruct ends as [remote local]. intros [= <-].
  destruct (Init_wf junk (recv_size io_type) Hr) as [? ?]. destruct (Init_wf junk (send_size io_type) Hs) as [? ?].
  by apply (do_receive_refines _ _ queue_new).
Qed.


Definition demo_info : CConnect_IO_Info := mkConnectIOInfo 3 "127.0.0.1" 10003 "" 0 1 16 8 "" false.
Definition demo_parse : parser_call := λ b, let* b' := move b (get_write_size b) in Ok (true, b', [mkPacket [] (contents b) 0]).

Lemma uclient_demo_parse_ok : parser_ok demo_parse.
Proof.
  intros b Hb. unfold demo_parse, get_write_size. pose proof (wf_write b Hb).
  destruct (move_consumes b b (write_size_ b) (consumes_refl b Hb)) as (b' & -> & ?); [lia|]. cbn. eauto 6.
Qed.

Definition demo_receive (d : list Z) : uclient_op := UCReceive false d 1 0 demo_parse.


(** Closing a session whose [connect] failed throws. *)
Theorem udp_client_close_unconnected junk valid_ip io_type id now s0 c :
  start junk valid_ip true None io_type id now = Ok s0 → uclient_step s0 (UCClose c) = Fault.
Proof. unfold start. destruct (_ || _); [done|]. destruct (_ && _); [done|]. by intros [= <-]. Qed.

(** A UDP client session sends back what it receives.  After a datagram was received, the next write
    sends the datagram followed by the data set since, as long as both fit the send buffer. *)
Theorem udp_client_echoes junk valid_ip ok ends io_type id now s0 d e c t r parse :
  config_ok io_type → start junk valid_ip ok (Some ends) io_type id now = Ok s0 → parser_ok parse →
  zlen d <= recv_size io_type → zlen d + zlen e <= send_size io_type →
  ∃ s, uclient_run s0 [UCReceive false d t r parse; UCSet e; UCWrite c; UCRunPosted] = Ok s ∧ sent s = [d ++ e].
Proof.
  intros Hc Hs Hp Hd He. pose proof (zlen_nonneg e). pose proof (zlen_nonneg d).
  pose proof (run_refines _ _ [UCReceive false d t r parse; UCSet e; UCWrite c; UCRunPosted] _ _ (start_refines _ _ _ _ _ _ _ _ Hc Hs)) as Hr.
  cbn in Hr. rewrite ztake_all in Hr by done. unfold queue_add in Hr. cbn [q_queue queue_new] in Hr. change (zlen (@nil Z)) with 0 in Hr.
  rewrite (proj2 (Z.leb_le (0 + zlen d) _)) in Hr by lia. cbn in Hr. rewrite (proj2 (Z.leb_le (zlen d + zlen e) _)) in Hr by lia. cbn in Hr.
  destruct Hr as (s & E & []); [by repeat constructor|]. by exists s.
Qed.

Lemma udp_client_echoes_witness :
  ∃ s0 s, start (λ _, 0) (λ _, true) true (Some (ClientIPInfo_default, ClientIPInfo_default)) demo_info 4 0 = Ok s0 ∧
    uclient_run s0 [demo_receive [1; 2]; UCSet [3]; UCWrite 4; UCRunPosted] = Ok s ∧ sent s = [[1; 2; 3]].
Proof.
  destruct (start (λ _, 0) (λ _, true) true (Some (ClientIPInfo_default, ClientIPInfo_default)) demo_info 4 0) as [s0|] eqn:E0;
    [|discriminate].
  destruct (udp_client_echoes (λ _, 0) (λ _, true) true (ClientIPInfo_default, ClientIPInfo_default) demo_info 4 0 s0 [1; 2] [3] 4 1 0 demo_parse)
    as (s & H1 & H2).
  - split; cbn; lia.
  - exact E0.
  - exact uclient_demo_parse_ok.
  - vm_compute. discriminate.
  - vm_compute. discriminate.
  - exists s0, s. split; [reflexivity|]. split; [exact H1|exact H2].
Defined.
