(* ===== verification/TtyServer.v ===== *)
(** * Serial port sessions (src/PSS_ASIO/TTySession/TtyServer.{h,cpp})

    A session over a serial port: the receive path of a stream session and the counted output path of a
    TCP session, with a bounded send buffer and [async_write_some], which may write only a part.

    A read that is started remembers where it will put its data ([reads]); there can be more than one.
    Work given to the I/O context waits in [posted]; [in_flight] holds the writes under way. *)

From Stdlib Require Import ZArith Lia.
From S2P Require Import Prelude Define SessionBuffer SessionCalls.
From stdpp Require Import base numbers list strings.
Local Open Scope Z_scope.

Inductive posted_work :=
| PostedWrite (data : list Z)
| PostedClose (remote_ip : ClientIPInfo).

(** A write under way; [w_now] when it comes from [do_write_immediately]. *)
Record write := mkWrite { w_now : bool; w_data : list Z }.

Record CTTyServer := mkTty {
  tty_name_ : string;
  tty_port_ : Z;                            (* uint16 *)
  connect_id_ : Z;                          (* uint32 *)
  server_id_ : Z;                           (* uint32 *)
  io_bridge_connect_id_ : Z;                (* uint32 *)
  remote_ip_ : ClientIPInfo;
  local_ip_ : ClientIPInfo;
  recv_data_size_ : Z;                      (* size_t *)
  send_data_size_ : Z;                      (* size_t *)
  send_buffer_size_ : Z;                    (* size_t *)
  is_active_close_ : bool;
  recv_data_time_ : Z;
  session_recv_buffer_ : CSessionBuffer;
  session_send_buffer_ : CSessionBuffer;
  io_state_ : EM_SESSION_STATE;
  (* the environment *)
  calls : list app_call;
  reads : list (Z * Z);                     (* where to write, how much *)
  posted : list posted_work;
  in_flight : list write;
}.

Implicit Types (s : CTTyServer).

Definition call s (l : list app_call) : CTTyServer := s <| calls := calls s ++ l |>.
Definition post s (p : posted_work) : CTTyServer := s <| posted := posted s ++ [p] |>.

(** The constructor; [id] comes from the connection counter. *)
Definition CTTyServer_new (junk : nat → Z) (id max_recv_size max_send_size now : Z) : CTTyServer :=
  mkTty "" 0 id 0 0 ClientIPInfo_default ClientIPInfo_default 0 0 0 false now (Init junk max_recv_size) (Init junk max_send_size)
    SESSION_IO_LOGIC [] [] [] [].

Definition do_receive s : CTTyServer :=
  s <| reads := reads s ++ [(get_curr_write_ptr (session_recv_buffer_ s), get_buffer_size (session_recv_buffer_ s))] |>.

(** [add_serial_port]: [open_ok] says whether the port can be opened; errors of the options are ignored. *)
Definition add_serial_port s (open_ok : bool) : bool * CTTyServer :=
  if negb open_ok then
    (false, call s [FrameEvent LOGIC_LISTEN_SERVER_ERROR (server_id_ s) (m_strClientIP (local_ip_ s)) (m_u2Port (local_ip_ s))
                      CONNECT_IO_TTY])
  else (true, s).

(** [start]; [baud] is the rate the port reports, [None] when it cannot be read. *)
Definition start s (open_ok : bool) (tty_name : string) (tty_port server_id now : Z) (baud : option Z) : CTTyServer :=
  let '(ok, s) := add_serial_port s open_ok in
  if negb ok then s
  else
    let s := s <| recv_data_time_ := now |> <| server_id_ := server_id |> <| tty_name_ := tty_name |> <| tty_port_ := tty_port |> in
    match baud with
    | None => s
    | Some rate =>
        let local := (local_ip_ s) <| m_strClientIP := "tty"%string |> in
        let remote := mkClientIPInfo (tty_name_ s) (u16 rate) in
        let s := s <| local_ip_ := local |> <| remote_ip_ := remote |> in
        do_receive (call s [PacketConnect (connect_id_ s) remote local; AddThreadSession (connect_id_ s) local remote;
                            AddAccept (tty_name_ s) (tty_port_ s) CONNECT_IO_TTY])
    end.

Definition set_write_buffer s (data : list Z) : outcome CTTyServer :=
  let* b := append_send_buffer (session_send_buffer_ s) data in
  Ok (s <| session_send_buffer_ := b |>).

Definition do_write s : outcome CTTyServer :=
  let* '(data, b) := take_send_buffer (session_send_buffer_ s) in
  let s := s <| send_buffer_size_ := send_buffer_size_ s +u64 zlen data |>
             <| in_flight := in_flight s ++ [mkWrite false data] |> in
  let* b := clear_write_buffer b in
  Ok (s <| session_send_buffer_ := b |>).

Definition do_write_immediately s (data : list Z) : CTTyServer := post s (PostedWrite data).

Definition add_send_finish_size s (send_length : Z) : CTTyServer :=
  s <| send_data_size_ := send_data_size_ s +u64 send_length |>.

Definition close_immediaterly s : CTTyServer := post s (PostedClose (remote_ip_ s)).

(** The I/O context runs the oldest posted work; the port itself is never closed. *)
Definition run_posted s : outcome CTTyServer :=
  match posted s with
  | [] => Ok s
  | p :: ps =>
      let s := s <| posted := ps |> in
      match p with
      | PostedWrite data =>
          let* b := clear_write_buffer (session_send_buffer_ s) in
          Ok (s <| in_flight := in_flight s ++ [mkWrite true data] |> <| session_send_buffer_ := b |>)
      | PostedClose remote =>
          Ok (call s [PacketDisconnect (connect_id_ s); DeleteThreadSession (connect_id_ s) remote CONNECT_IO_TTY;
                      DelAccept (tty_name_ s) (tty_port_ s) CONNECT_IO_TTY])
      end
  end.

(** [send_write_fail_to_logic]: here as an ordinary message of the connection. *)
Definition send_write_fail_to_logic s (buf : list Z) (len : Z) : CTTyServer :=
  call s [AssignationMessages (connect_id_ s) [mkPacket [] (ztake len buf) LOGIC_THREAD_WRITE_IO_ERROR]].

Definition do_write_finish s (ec : bool) (buf : list Z) (len : Z) : CTTyServer :=
  if ec then
    let s := send_write_fail_to_logic s buf len in
    if is_active_close_ s then close_immediaterly s else s
  else
    let s := add_send_finish_size s len in
    if is_active_close_ s && (send_buffer_size_ s =? send_data_size_ s) then close_immediaterly s else s.

(** The completion of the oldest write after [len] bytes. *)
Definition write_completes s (ec : bool) (len : Z) : CTTyServer :=
  match in_flight s with
  | [] => s
  | w :: fl =>
      let s := s <| in_flight := fl |> in
      if w_now w then (if ec then s else add_send_finish_size s len) else do_write_finish s ec (w_data w) len
  end.

(** [close(connect_id)], and [close()]. *)
Definition close s : outcome CTTyServer :=
  if send_buffer_size_ s =? send_data_size_ s then Ok (close_immediaterly s)
  else let* s := do_write s in Ok (s <| is_active_close_ := true |>).

(** [do_read_some]; a full buffer and a refused packet start a read besides the one at the end. *)
Definition do_read_some s (length time bridge_ret : Z) (parse : parser_call) : outcome CTTyServer :=
  if 0 <? length then
    let s := s <| recv_data_size_ := recv_data_size_ s +u64 length |> in
    let* s := if get_buffer_size (session_recv_buffer_ s) =? 0 then
                let* b := move (session_recv_buffer_ s) length in
                Ok (do_receive (call (s <| session_recv_buffer_ := b |>) [CloseSessionEvent (connect_id_ s)]))
              else Ok s in
    let b := snd (set_write_data (session_recv_buffer_ s) length) in
    let* r := receive_data (connect_id_ s) (io_state_ s) (io_bridge_connect_id_ s) (recv_data_time_ s) (recv_data_time_ s) time
                bridge_ret parse b length in
    let s := s <| recv_data_time_ := rs_time r |> <| io_bridge_connect_id_ := rs_bridge r |> in
    let* s := if rs_accepted r then Ok (call (s <| session_recv_buffer_ := rs_buffer r |>) [rs_call r])
              else let* b := move (rs_buffer r) length in
                   Ok (do_receive (call (s <| session_recv_buffer_ := b |>) [rs_call r])) in
    Ok (do_receive s)
  else Ok (do_receive s).

(** The completion of the oldest read: its data lands where the read was started. *)
Definition read_completes s (ec : bool) (data : list Z) (time bridge_ret : Z) (parse : parser_call) : outcome CTTyServer :=
  match reads s with
  | [] => Ok s
  | (ptr, size) :: rs =>
      let s := s <| reads := rs |> in
      if ec then Ok (call s [FrameEvent LOGIC_LISTEN_SERVER_ERROR (server_id_ s) (tty_name_ s) (tty_port_ s) CONNECT_IO_TTY])
      else
        let data := ztake size data in
        let b := session_recv_buffer_ s in
        let* mem := mem_write (buffer_ b) ptr data in
        do_read_some (s <| session_recv_buffer_ := mkSessionBuffer mem (write_size_ b) (max_buff_size_ b) |>) (zlen data) time
          bridge_ret parse
  end.

Definition set_io_bridge_connect_id s (from_io_connect_id to_io_connect_id : Z) : CTTyServer :=
  s <| io_state_ := fst (bridge_to to_io_connect_id) |> <| io_bridge_connect_id_ := snd (bridge_to to_io_connect_id) |>.

(** The queries. *)
Definition get_remote_ip s (connect_id : Z) : ClientIPInfo := remote_ip_ s.
Definition get_io_type s : EM_CONNECT_IO_TYPE := CONNECT_IO_TTY.
Definition get_mark_id s (connect_id : Z) : Z := server_id_ s.
Definition get_connect_id s : Z := connect_id_ s.
Definition get_recv_time s (connect_id : Z) : Z := recv_data_time_ s.

(** ** Steps *)

Inductive tty_op :=
| YRead (ec : bool) (data : list Z) (time bridge_ret : Z) (parse : parser_call)
| YSet (data : list Z)
| YWrite
| YWriteNow (data : list Z)
| YRunPosted
| YWriteDone (ec : bool) (len : Z)
| YClose
| YBridge (from_id to_id : Z).

Definition tty_step s (o : tty_op) : outcome CTTyServer :=
  match o with
  | YRead ec d t r parse => read_completes s ec d t r parse
  | YSet d => set_write_buffer s d
  | YWrite => do_write s
  | YWriteNow d => Ok (do_write_immediately s d)
  | YRunPosted => run_posted s
  | YWriteDone ec len => Ok (write_completes s ec len)
  | YClose => close s
  | YBridge f t => Ok (set_io_bridge_connect_id s f t)
  end.

Fixpoint tty_run s (os : list tty_op) : outcome CTTyServer :=
  match os with [] => Ok s | o :: os => let* s := tty_step s o in tty_run s os end.

(** ** Safety *)

(** Where the pending reads write. *)
Definition reads_ok (max : Z) (rs : list (Z * Z)) : Prop := Forall (λ '(ptr, size), 0 <= ptr ∧ 0 <= size ∧ ptr + size <= max) rs.

Record tty_inv (rc sc : Z) s : Prop := {
  y_recv : wf (session_recv_buffer_ s) ∧ max_buff_size_ (session_recv_buffer_ s) = rc;
  y_send : wf (session_send_buffer_ s) ∧ max_buff_size_ (session_send_buffer_ s) = sc;
  y_reads : reads_ok rc (reads s);
}.

(** The part of the state the output is about. *)
Definition output s : Z * Z * bool * list posted_work * list write := (send_data_size_ s, send_buffer_size_ s, is_active_close_ s, posted s, in_flight s).

Definition op_ok (o : tty_op) : Prop := match o with YRead _ _ _ _ parse => parser_ok parse | _ => True end.

Lemma tty_do_receive_inv rc sc s : tty_inv rc sc s → tty_inv rc sc (do_receive s).
Proof.
  intros [[Hw Hm] Hs Hr]. split; [done..|]. cbn. apply Forall_app. split; [done|]. apply Forall_singleton.
  rewrite get_buffer_size_wf by done. unfold get_curr_write_ptr. rewrite contents_len by done. pose proof (wf_write _ Hw). lia.
Qed.

Lemma tty_set_recv_inv rc sc s b : tty_inv rc sc s → wf b → max_buff_size_ b = rc → tty_inv rc sc (s <| session_recv_buffer_ := b |>).
Proof. intros [] ? ?. by split. Qed.

Lemma tty_call_inv rc sc s l : tty_inv rc sc s → tty_inv rc sc (call s l).
Proof. by intros []. Qed.

Lemma do_read_some_ok rc sc s n t r parse : tty_inv rc sc s → 0 <= n <= rc → parser_ok parse →
  ∃ s', do_read_some s n t r parse = Ok s' ∧ tty_inv rc sc s' ∧ output s' = output s.
Proof.
  intros Hi Hn Hp. unfold do_read_some. destruct (0 <? n); [|eexists; split; [done|]; split; [by apply tty_do_receive_inv|done]].
  set (s0 := s <| recv_data_size_ := recv_data_size_ s +u64 n |>).
  assert (Hi0 : tty_inv rc sc s0) by (by destruct Hi).
  assert (H1 : ∃ s1, (if get_buffer_size (session_recv_buffer_ s0) =? 0 then
      let* b := move (session_recv_buffer_ s0) n in
      Ok (do_receive (call (s0 <| session_recv_buffer_ := b |>) [CloseSessionEvent (connect_id_ s0)])) else Ok s0) = Ok s1 ∧
      tty_inv rc sc s1 ∧ output s1 = output s).
  { destruct (_ =? 0); [|by exists s0]. destruct (y_recv _ _ _ Hi0) as [Hw Hm]. destruct (move_contents _ n Hw) as (b & -> & Hb & _ & Hmb); [lia|].
    eexists. split; [done|]. split; [|done]. apply tty_do_receive_inv, tty_call_inv, tty_set_recv_inv; [done..|congruence]. }
  destruct H1 as (s1 & -> & Hi1 & Ho1). cbn [obind]. destruct (y_recv _ _ _ Hi1) as [Hw Hm]. pose proof (wf_max _ Hw). pose proof (wf_write _ Hw).
  assert (Hb : wf (snd (set_write_data (session_recv_buffer_ s1) n)) ∧ max_buff_size_ (snd (set_write_data (session_recv_buffer_ s1) n)) = rc).
  { rewrite set_write_data_wf by (done || lia). destruct (_ <? _) eqn:E; cbn; [done|]. split; [|done]. destruct Hw. split; cbn; lia. }
  destruct Hb as [Hb Hmb].
  match goal with |- context [receive_data ?c ?st ?br ?t0 ?t1 ?t2 ?re ?pa ?bu ?k] =>
    destruct (receive_data_ok c st br t0 t1 t2 re pa bu k) as (x & -> & Hcons & _); [done|lia|done|] end.
  cbn [obind]. pose proof Hcons as (Hbx & Hmx & _).
  assert (Hi2 : ∀ b', wf b' → max_buff_size_ b' = rc →
    tty_inv rc sc (s1 <| recv_data_time_ := rs_time x |> <| io_bridge_connect_id_ := rs_bridge x |> <| session_recv_buffer_ := b' |>)).
  { intros b' ? ?. by destruct Hi1. }
  destruct (rs_accepted x); cbn [obind].
  - eexists. split; [done|]. split; [|done]. apply tty_do_receive_inv, tty_call_inv, Hi2; [done|congruence].
  - destruct (move_consumes _ (rs_buffer x) n Hcons) as (b' & -> & Hb' & Hm' & _); [lia|]. cbn [obind]. eexists. split; [done|].
    split; [|done]. apply tty_do_receive_inv, tty_do_receive_inv, tty_call_inv, Hi2; [done|congruence].
Qed.

Lemma tty_read_ok rc sc s ec d t r parse : tty_inv rc sc s → parser_ok parse →
  ∃ s', read_completes s ec d t r parse = Ok s' ∧ tty_inv rc sc s' ∧ output s' = output s.
Proof.
  intros Hi Hp. unfold read_completes. destruct (reads s) as [|[ptr size] rs] eqn:Er; [by exists s|].
  pose proof (y_reads _ _ _ Hi) as Hr. rewrite Er in Hr. apply Forall_cons in Hr as [(H1 & H2 & H3) Hr].
  destruct ec; [eexists; split; [done|]; split; [by destruct Hi|done]|]. cbv zeta.
  pose proof (zlen_ztake_le size d H2) as Hz.
  pose proof (zlen_nonneg (ztake size d)). destruct (y_recv _ _ _ Hi) as [Hw Hm]. pose proof (wf_len _ Hw).
  unfold mem_write. cbn [session_recv_buffer_ buffer_]. rewrite (proj2 (Z.leb_le 0 ptr)), (proj2 (Z.leb_le (ptr + _) _)) by (cbn; lia). cbn [andb obind].
  match goal with |- context [do_read_some ?x _ _ _ _] => destruct (do_read_some_ok rc sc x (zlen (ztake size d)) t r parse) as (s' & E & Hi' & Ho) end;
    [|lia|done|exists s'; split; [exact E|]; split; [done|by rewrite Ho]].
  split; [|by destruct Hi|done]. destruct Hw. cbn. split; [|done]. split; cbn; [|done..].
  rewrite !zlen_app, zlen_ztake, zlen_zdrop by lia. lia.
Qed.

Lemma do_write_ok rc sc s : tty_inv rc sc s →
  ∃ s', do_write s = Ok s' ∧ tty_inv rc sc s' ∧ contents (session_send_buffer_ s') = [] ∧ output s' =
    (send_data_size_ s, send_buffer_size_ s +u64 zlen (contents (session_send_buffer_ s)), is_active_close_ s, posted s,
     in_flight s ++ [mkWrite false (contents (session_send_buffer_ s))]).
Proof.
  intros [Hr [Hw Hm] Hrd]. unfold do_write. destruct (take_send_buffer_ok _ Hw) as (b & -> & Hb & Hmb & Hc). cbn [obind].
  destruct (clear_write_buffer_ok b Hb) as (b' & -> & Hb' & Hmb' & Hc'). cbn [obind]. eexists. split; [done|].
  split; [|done]. split; cbn; [done|split; [done|congruence]|done].
Qed.

Lemma tty_step_ok rc sc s o : tty_inv rc sc s → op_ok o → ∃ s', tty_step s o = Ok s' ∧ tty_inv rc sc s'.
Proof.
  intros Hi Ho. destruct o as [ec d t r parse|d| |d| |ec len| |f t]; cbn [tty_step].
  - destruct (tty_read_ok rc sc s ec d t r parse Hi Ho) as (s' & ? & ? & _). by exists s'.
  - destruct Hi as [Hr [Hw Hm] Hrd]. unfold set_write_buffer.
    destruct (append_send_buffer_ok _ d Hw) as (b & -> & Hb & Hmb & _). cbn [obind]. eexists. split; [done|].
    split; cbn; [done|split; [done|congruence]|done].
  - destruct (do_write_ok rc sc s Hi) as (s' & ? & ? & _). by exists s'.
  - eexists. split; [done|]. by destruct Hi.
  - unfold run_posted. destruct (posted s) as [|[d|rem] ps]; [by exists s| |eexists; split; [done|]; by destruct Hi].
    destruct Hi as [Hr [Hw Hm] Hrd]. destruct (clear_write_buffer_ok _ Hw) as (b & Eb & Hb & Hmb & _).
    change (clear_write_buffer _) with (clear_write_buffer (session_send_buffer_ s)). rewrite Eb. cbn [obind]. eexists. split; [done|].
    split; cbn; [done|split; [done|congruence]|done].
  - eexists. split; [done|]. unfold write_completes, do_write_finish. destruct (in_flight s) as [|[[] d] fl]; [done|..]; cbn.
    + destruct ec; by destruct Hi.
    + destruct ec; [|destruct (_ && _); by destruct Hi]. cbn. destruct (is_active_close_ s); by destruct Hi.
  - unfold close. destruct (_ =? _); [eexists; split; [done|]; by destruct Hi|].
    destruct (do_write_ok rc sc s Hi) as (s' & -> & Hi' & _). cbn [obind]. eexists. split; [done|]. by destruct Hi'.
  - eexists. split; [done|]. by destruct Hi.
Qed.

Lemma tty_run_ok rc sc os : ∀ s, tty_inv rc sc s → Forall op_ok os → ∃ s', tty_run s os = Ok s' ∧ tty_inv rc sc s'.
Proof.
  induction os as [|o os IH]; intros s Hi Hos; cbn [tty_run]; [by exists s|]. apply Forall_cons in Hos as [Ho Hos].
  destruct (tty_step_ok rc sc s o Hi Ho) as (s1 & -> & Hi1). cbn [obind]. by apply IH.
Qed.

Lemma tty_start_inv junk id rc sc now ok name port server time baud : 0 <= rc < 2 ^ 63 → 0 <= sc < 2 ^ 63 →
  tty_inv rc sc (start (CTTyServer_new junk id rc sc now) ok name port server time baud).
Proof.
  intros Hr Hs. destruct (Init_wf junk rc Hr) as [? _]. destruct (Init_wf junk sc Hs) as [? _].
  assert (Hi : tty_inv rc sc (CTTyServer_new junk id rc sc now)) by (split; [done..|constructor]).
  unfold start, add_serial_port. destruct ok; cbn -[do_receive]; [|by destruct Hi]. destruct baud; [|by destruct Hi].
  apply tty_do_receive_inv. by destruct Hi.
Qed.

(** A serial port session stays inside its buffers.  Whatever happens to a started session (reads of
    any length with parsers that keep their contract, refused packets that leave several reads pending,
    partial and failed writes, closes), no operation touches memory outside the receive and the send
    buffer, and every pending read writes inside the receive buffer. *)
Theorem tty_memory_safe junk id rc sc now ok name port server time baud os :
  0 <= rc < 2 ^ 63 → 0 <= sc < 2 ^ 63 → Forall op_ok os →
  ∃ s, tty_run (start (CTTyServer_new junk id rc sc now) ok name port server time baud) os = Ok s ∧
    zlen (contents (session_recv_buffer_ s)) <= rc ∧ zlen (contents (session_send_buffer_ s)) <= sc ∧
    Forall (λ '(ptr, size), 0 <= ptr ∧ 0 <= size ∧ ptr + size <= rc) (reads s).
Proof.
  intros Hr Hs Ho. destruct (tty_run_ok rc sc os _ (tty_start_inv junk id rc sc now ok name port server time baud Hr Hs) Ho) as (s & -> & [[W1 M1] [W2 M2] R]).
  exists s. split; [done|]. rewrite !contents_len by done. pose proof (wf_write _ W1). pose proof (wf_write _ W2). split; [lia|]. by split; [lia|].
Qed.

Definition demo_parse (accept : bool) : parser_call := λ b, Ok (accept, b, []).

Lemma tty_demo_parse_ok accept : parser_ok (demo_parse accept).
Proof. intros b Hb. unfold demo_parse. pose proof (consumes_refl b Hb). eauto 6. Qed.

Definition demo_start : CTTyServer := start (CTTyServer_new (λ _, 0) 6 8 8 0) true "/dev/ttyS0" 9600 1 0 (Some 9600).

(** A refused packet, then two chunks into the same place. *)
Definition demo_ops : list tty_op :=
  [YRead false [9; 9] 1 0 (demo_parse false); YRead false [1; 2; 3] 2 0 (demo_parse true); YRead false [4; 5] 3 0 (demo_parse true);
   YSet [7; 7]; YWrite; YWriteNow [8]; YRunPosted; YWriteDone false 1; YClose].

Lemma tty_demo_ops_ok : Forall op_ok demo_ops.
Proof. unfold demo_ops. repeat (apply Forall_cons; split; [first [apply tty_demo_parse_ok|done]|]). done. Qed.

Lemma tty_memory_safe_witness :
  ∃ s, tty_run demo_start demo_ops = Ok s ∧ zlen (contents (session_recv_buffer_ s)) <= 8 ∧
    contents (session_recv_buffer_ s) = [4; 5; 3; 0; 0] ∧ length (reads s) = 2%nat.
Proof.
  destruct (tty_memory_safe (λ _, 0) 6 8 8 0 true "/dev/ttyS0" 9600 1 0 (Some 9600) demo_ops) as (s & E & H1 & _).
  - lia.
  - lia.
  - exact tty_demo_ops_ok.
  - exists s. split; [exact E|]. split; [exact H1|]. clear H1. vm_compute in E. injection E as <-. split; reflexivity.
Defined.

(** ** Closing *)

(** The bytes under way from the send buffer. *)
Definition pending_bytes (l : list write) : Z := zlen (concat (map w_data l)).

Lemma pending_app l1 l2 : pending_bytes (l1 ++ l2) = pending_bytes l1 + pending_bytes l2.
Proof. unfold pending_bytes. by rewrite map_app, concat_app, zlen_app. Qed.

Lemma pending_cons w l : pending_bytes (w :: l) = zlen (w_data w) + pending_bytes l.
Proof. unfold pending_bytes. cbn. by rewrite zlen_app. Qed.

Lemma pending_nonneg l : 0 <= pending_bytes l.
Proof. apply zlen_nonneg. Qed.

(** Some bytes that were counted as buffered are neither written nor under way, and there are no
    immediate writes, which count as written without having been counted. *)
Record short s : Prop := {
  sh_bytes : 0 <= send_data_size_ s ∧ send_data_size_ s + pending_bytes (in_flight s) < send_buffer_size_ s < 2 ^ 64;
  sh_posted : posted s = [];
  sh_flight : Forall (λ w, w_now w = false) (in_flight s);
}.

(** Operations other than failed or immediate writes; a write may be partial, the counters do not wrap. *)
Definition plain_op s (o : tty_op) : Prop :=
  match o with
  | YRead _ _ _ _ parse => parser_ok parse
  | YWriteNow _ => False
  | YWriteDone ec len => ec = false ∧ ∀ w fl, in_flight s = w :: fl → 0 <= len <= zlen (w_data w)
  | YWrite | YClose => send_buffer_size_ s + zlen (contents (session_send_buffer_ s)) < 2 ^ 64
  | _ => True
  end.

Inductive tty_steps : CTTyServer → CTTyServer → Prop :=
| steps_refl s : tty_steps s s
| steps_more s1 o s2 s3 : plain_op s1 o → tty_step s1 o = Ok s2 → tty_steps s2 s3 → tty_steps s1 s3.

(** The calls that report the end of the session. *)
Definition closes (l : list app_call) : list app_call :=
  List.filter (λ a, match a with PacketDisconnect _ | DeleteThreadSession _ _ _ | DelAccept _ _ _ => true | _ => false end) l.

Lemma closes_app l1 l2 : closes (l1 ++ l2) = closes l1 ++ closes l2.
Proof. apply List.filter_app. Qed.

(** Reading makes no such call. *)
Lemma receive_data_closes c st br t0 t1 t2 re parse b n r : receive_data c st br t0 t1 t2 re parse b n = Ok r → closes [rs_call r] = [].
Proof.
  unfold receive_data. destruct st.
  - destruct (parse b) as [[[[] b1] l]|]; cbn; [by intros [= <-]..|done].
  - destruct (mem_read _ _ _); cbn; [|done]. destruct (move b n); cbn; [|done]. by intros [= <-].
Qed.

Lemma do_read_some_closes s n t r parse s' : do_read_some s n t r parse = Ok s' → closes (calls s') = closes (calls s).
Proof.
  unfold do_read_some. destruct (0 <? n); [|by intros [= <-]].
  set (s0 := s <| recv_data_size_ := _ |>).
  match goal with |- obind ?e _ = _ → _ => destruct e as [s1|] eqn:E1; cbn [obind]; [|discriminate] end.
  assert (H1 : closes (calls s1) = closes (calls s)).
  { revert E1. destruct (_ =? 0); [|by intros [= <-]]. destruct (move _ n); cbn; [|done]. intros [= <-]. cbn. by rewrite closes_app, app_nil_r. }
  destruct (receive_data _ _ _ _ _ _ _ _ _ _) as [x|] eqn:Ex; cbn [obind]; [|done]. apply receive_data_closes in Ex.
  destruct (rs_accepted x); cbn [obind].
  - intros [= <-]. cbn. by rewrite closes_app, Ex, app_nil_r.
  - destruct (move (rs_buffer x) n); cbn [obind]; [|discriminate]. intros [= <-]. cbn. by rewrite closes_app, Ex, app_nil_r.
Qed.

Lemma read_closes s ec d t r parse s' : read_completes s ec d t r parse = Ok s' → closes (calls s') = closes (calls s).
Proof.
  unfold read_completes. destruct (reads s) as [|[ptr size] rs]; [by intros [= <-]|].
  destruct ec; [intros [= <-]; cbn; by rewrite closes_app, app_nil_r|]. cbv zeta. destruct (mem_write _ _ _); cbn [obind]; [|done].
  by intros ->%do_read_some_closes.
Qed.

(** A close finds the counters different and writes, which changes neither side of the balance. *)
Lemma write_short rc sc s s' : tty_inv rc sc s → send_buffer_size_ s + zlen (contents (session_send_buffer_ s)) < 2 ^ 64 → short s →
  do_write s = Ok s' → short s' ∧ calls s' = calls s.
Proof.
  intros Hi Hb [[H1 H2] Hp Hf] E. pose proof E as E'. destruct (do_write_ok rc sc s Hi) as (s1 & E1 & _ & _ & Ho). rewrite E in E1. injection E1 as <-.
  injection Ho as O1 O2 O3 O4 O5. pose proof (zlen_nonneg (contents (session_send_buffer_ s))). pose proof (pending_nonneg (in_flight s)).
  rewrite u64_small in O2 by lia. split.
  - split; [|by rewrite O4|by rewrite O5; apply Forall_app; split; [|constructor]].
    rewrite O1, O2, O5, pending_app, pending_cons. change (pending_bytes []) with 0. cbn [w_data]. lia.
  - revert E'. unfold do_write. destruct (take_send_buffer _) as [[d b]|]; cbn [obind]; [|done].
    destruct (clear_write_buffer b); cbn [obind]; [|done]. by intros [= <-].
Qed.

Lemma step_short rc sc s o s' : tty_inv rc sc s → short s → plain_op s o → tty_step s o = Ok s' →
  short s' ∧ closes (calls s') = closes (calls s).
Proof.
  intros Hi Hs Ho E. pose proof Hs as [[H1 H2] Hp Hf]. destruct o as [ec d t r parse|d| |d| |ec len| |f t]; cbn [tty_step plain_op] in *.
  - destruct (tty_read_ok rc sc s ec d t r parse Hi Ho) as (s1 & E1 & _ & Hout). rewrite E in E1. injection E1 as <-.
    split; [|by eapply read_closes]. injection Hout as O1 O2 O3 O4 O5. split; by rewrite ?O1, ?O2, ?O4, ?O5.
  - revert E. unfold set_write_buffer. destruct (append_send_buffer _ _); cbn; [|done]. intros [= <-]. by split.
  - destruct (write_short rc sc s s' Hi Ho Hs E) as [? ->]. done.
  - done.
  - revert E. unfold run_posted. rewrite Hp. by intros [= <-].
  - destruct Ho as [-> Hlen]. injection E as <-. unfold write_completes. destruct (in_flight s) as [|w fl] eqn:Ef; [done|].
    apply Forall_cons in Hf as [Hw Hf]. rewrite Hw. specialize (Hlen w fl eq_refl). rewrite pending_cons in H2. pose proof (pending_nonneg fl).
    unfold do_write_finish, add_send_finish_size. cbn. rewrite u64_small by lia.
    rewrite (proj2 (Z.eqb_neq (send_buffer_size_ s) _)) by lia. rewrite andb_false_r. split; [|done]. split; cbn; [lia|done..].
  - revert E. unfold close. rewrite (proj2 (Z.eqb_neq _ _)) by (pose proof (pending_nonneg (in_flight s)); lia).
    destruct (do_write s) as [s1|] eqn:E1; cbn [obind]; [|done]. intros [= <-].
    destruct (write_short rc sc s s1 Hi Ho Hs E1) as [[] Hc]. by rewrite <- Hc.
  - injection E as <-. by split.
Qed.

(** Lost bytes keep a serial port session open.  Once the session has counted bytes as buffered that
    a partial write did not write (and nobody writes again), no sequence of reads, writes, completions
    and close requests ever reports the session as closed: the counters never meet again. *)
Theorem tty_partial_write_blocks_close rc sc s s' :
  tty_inv rc sc s → short s → tty_steps s s' → closes (calls s') = closes (calls s) ∧ posted s' = [].
Proof.
  intros Hi Hs Hsteps. revert Hi Hs. induction Hsteps as [s|s1 o s2 s3 Ho E _ IH]; intros Hi Hs; [split; [done|apply Hs]|].
  destruct (step_short rc sc s1 o s2 Hi Hs Ho E) as [Hs2 <-].
  destruct (tty_step_ok rc sc s1 o Hi) as (s2' & E' & Hi2); [by destruct o|]. rewrite E in E'. injection E' as <-. by apply IH.
Qed.

(** Two bytes are written to the port, which takes one of them. *)
Definition demo_short : CTTyServer :=
  match tty_run demo_start [YSet [7; 7]; YWrite; YWriteDone false 1] with Ok s => s | Fault => demo_start end.

Lemma demo_short_inv : tty_inv 8 8 demo_short ∧ short demo_short.
Proof.
  destruct (tty_run_ok 8 8 [YSet [7; 7]; YWrite; YWriteDone false 1] demo_start) as (s & E & Hi); [by apply tty_start_inv|by repeat constructor|].
  unfold demo_short. rewrite E. split; [done|]. clear Hi. vm_compute in E. injection E as <-. split; [cbn; split; [lia|]; split; reflexivity|reflexivity|constructor].
Qed.

Lemma tty_partial_write_blocks_close_witness :
  ∃ s, tty_run demo_short [YClose; YWriteDone false 0; YClose] = Ok s ∧ closes (calls s) = closes (calls demo_short) ∧ posted s = [].
Proof.
  destruct (tty_run demo_short [YClose; YWriteDone false 0; YClose]) as [s|] eqn:E; [|vm_compute in E; discriminate].
  exists s. split; [reflexivity|]. apply (tty_partial_write_blocks_close 8 8 demo_short s (proj1 demo_short_inv) (proj2 demo_short_inv)).
  cbn [tty_run] in E.
  destruct (tty_step demo_short YClose) as [s1|] eqn:E1; [|discriminate]. cbn [obind] in E.
  destruct (tty_step s1 (YWriteDone false 0)) as [s2|] eqn:E2; [|discriminate]. cbn [obind] in E.
  destruct (tty_step s2 YClose) as [s3|] eqn:E3; [|discriminate]. injection E as <-.
  apply (steps_more _ YClose s1); [vm_compute; reflexivity|exact E1|]. vm_compute in E1. injection E1 as <-.
  apply (steps_more _ (YWriteDone false 0) s2); [|exact E2|].
  - split; [reflexivity|]. intros w fl [= <- <-]. vm_compute. split; discriminate.
  - vm_compute in E2. injection E2 as <-. apply (steps_more _ YClose s3); [vm_compute; reflexivity|exact E3|apply steps_refl].
Defined.

(** ** A refused packet *)

Definition keeping (parse : parser_call) (ret : bool) : Prop := ∀ b, ∃ l, parse b = Ok (ret, b, l).

(** A read that completes while the parser waits for more. *)
Lemma read_keeps s ptr size rs d t r parse : wf (session_recv_buffer_ s) → reads s = (ptr, size) :: rs → io_state_ s = SESSION_IO_LOGIC →
  keeping parse true → 0 < zlen d <= size → 0 <= ptr → ptr + size <= max_buff_size_ (session_recv_buffer_ s) →
  write_size_ (session_recv_buffer_ s) + zlen d <= max_buff_size_ (session_recv_buffer_ s) →
  let b := mkSessionBuffer (ztake ptr (buffer_ (session_recv_buffer_ s)) ++ d ++ zdrop (ptr + zlen d) (buffer_ (session_recv_buffer_ s)))
             (write_size_ (session_recv_buffer_ s) + zlen d) (max_buff_size_ (session_recv_buffer_ s)) in
  ∃ s', read_completes s false d t r parse = Ok s' ∧ session_recv_buffer_ s' = b ∧ wf b ∧ io_state_ s' = SESSION_IO_LOGIC ∧
    reads s' = rs ++ [(get_curr_write_ptr b, get_buffer_size b)].
Proof.
  intros Hw Hr Hst Hk Hd H0 Hps Hfit b. pose proof Hw as [Wl Ww Wm]. unfold read_completes. rewrite Hr. cbv zeta. rewrite ztake_all by lia.
  unfold mem_write. cbn [session_recv_buffer_ buffer_]. rewrite (proj2 (Z.leb_le 0 ptr)), (proj2 (Z.leb_le (ptr + _) _)) by (cbn; lia). cbn [andb obind].
  unfold do_read_some. rewrite (proj2 (Z.ltb_lt 0 _)) by lia.
  set (mem := ztake ptr _ ++ d ++ _) in *.
  assert (Hm : zlen mem = max_buff_size_ (session_recv_buffer_ s)).
  { unfold mem. rewrite !zlen_app, zlen_ztake, zlen_zdrop by (cbn; lia). cbn. lia. }
  set (b0 := mkSessionBuffer mem (write_size_ (session_recv_buffer_ s)) (max_buff_size_ (session_recv_buffer_ s))).
  assert (Hb0 : wf b0) by (split; cbn; lia). assert (Hb : wf b) by (split; cbn; [exact Hm|lia|lia]).
  match goal with |- context [get_buffer_size ?x =? 0] => change x with b0 end.
  destruct (get_buffer_size b0 =? 0) eqn:Eb.
  { rewrite get_buffer_size_wf, contents_len in Eb by done. cbn in Eb. lia. }
  cbn [obind]. match goal with |- context [set_write_data ?x _] => change x with b0 end.
  rewrite set_write_data_wf by (done || lia). rewrite (proj2 (Z.ltb_ge _ _)) by (cbn; lia). cbn [snd].
  change (mkSessionBuffer (buffer_ b0) (write_size_ b0 + zlen d) (max_buff_size_ b0)) with b.
  unfold receive_data.
  match goal with |- context [match io_state_ ?x with _ => _ end] => change (io_state_ x) with (io_state_ s) end. rewrite Hst. destruct (Hk b) as [l ->]. cbn.
  eexists. split; [done|]. by split_and!.
Qed.

(** A refused packet leaves the buffer empty and two reads pending at its start. *)
Lemma refused_twice s d t r parse : wf (session_recv_buffer_ s) → contents (session_recv_buffer_ s) = [] →
  reads s = [(0, max_buff_size_ (session_recv_buffer_ s))] → io_state_ s = SESSION_IO_LOGIC → keeping parse false →
  0 < zlen d <= max_buff_size_ (session_recv_buffer_ s) →
  ∃ s', read_completes s false d t r parse = Ok s' ∧ wf (session_recv_buffer_ s') ∧ write_size_ (session_recv_buffer_ s') = 0 ∧
    max_buff_size_ (session_recv_buffer_ s') = max_buff_size_ (session_recv_buffer_ s) ∧ io_state_ s' = SESSION_IO_LOGIC ∧
    reads s' = [(0, max_buff_size_ (session_recv_buffer_ s)); (0, max_buff_size_ (session_recv_buffer_ s))].
Proof.
  intros Hw He Hr Hst Hk Hd. pose proof Hw as [Wl Ww Wm]. pose proof (contents_len _ Hw) as Hcl. rewrite He in Hcl. change (zlen (@nil Z)) with 0 in Hcl.
  unfold read_completes. rewrite Hr. cbv zeta. rewrite ztake_all by lia.
  destruct (recv_into_fits (session_recv_buffer_ s) d Hw) as (b & Eb & Hb & Hcb & Hmb);
    [rewrite get_buffer_size_wf, He by done; change (zlen (@nil Z)) with 0; lia|]. rewrite He in Hcb. cbn [app] in Hcb.
  unfold recv_into, get_curr_write_ptr in Eb. rewrite <- Hcl in Eb.
  match goal with |- context [mem_write ?x 0 d] => change x with (buffer_ (session_recv_buffer_ s)) end.
  destruct (mem_write (buffer_ (session_recv_buffer_ s)) 0 d) as [mem|]; [|done]. cbn [obind] in Eb |- *. injection Eb as Eb.
  unfold do_read_some. rewrite (proj2 (Z.ltb_lt 0 _)) by lia.
  set (b0 := mkSessionBuffer mem (write_size_ (session_recv_buffer_ s)) (max_buff_size_ (session_recv_buffer_ s))).
  match goal with |- context [get_buffer_size ?x =? 0] => change x with b0 end.
  assert (Hsz : get_buffer_size b0 = get_buffer_size (session_recv_buffer_ s)) by done.
  rewrite Hsz, get_buffer_size_wf, He by done. change (zlen (@nil Z)) with 0. rewrite (proj2 (Z.eqb_neq _ 0)) by lia. cbn [obind].
  match goal with |- context [set_write_data ?x _] => change x with b0 end.
  assert (Eb' : set_write_data b0 (zlen d) = (true, b)) by (unfold b0; by rewrite <- Hcl, Eb). rewrite Eb'. cbn [snd]. unfold receive_data.
  match goal with |- context [match io_state_ ?x with _ => _ end] => change (io_state_ x) with (io_state_ s) end. rewrite Hst.
  destruct (Hk b) as [l ->]. cbn [obind rs_accepted rs_buffer rs_time rs_bridge rs_call].
  destruct (consumes_move b b Hb (consumes_refl b Hb)) as (b' & Em & Hb' & Hc' & Hm'). rewrite Hcb in Em. rewrite Em. cbn [obind].
  pose proof (contents_len b' Hb') as Hcl'. rewrite Hc' in Hcl'. change (zlen (@nil Z)) with 0 in Hcl'.
  eexists. split; [done|]. cbn. split; [done|]. split; [done|]. split; [congruence|]. split; [done|].
  rewrite get_buffer_size_wf, Hc' by done. unfold get_curr_write_ptr. rewrite <- Hcl'. change (zlen (@nil Z)) with 0. by rewrite Z.sub_0_r, Hm', Hmb.
Qed.

(** After a refused packet received data is overwritten.  When the parser refuses what an idle session
    received, two reads are pending, both for the start of the buffer; of the next two chunks, which the
    parser keeps for a packet that is not complete, the second lands on the first: the buffer holds as
    many bytes as both but begins with the second one. *)
Theorem tty_refused_packet_overwrites s d0 d1 d2 t r parse0 parse :
  wf (session_recv_buffer_ s) → contents (session_recv_buffer_ s) = [] →
  reads s = [(0, max_buff_size_ (session_recv_buffer_ s))] → io_state_ s = SESSION_IO_LOGIC →
  keeping parse0 false → keeping parse true → 0 < zlen d0 <= max_buff_size_ (session_recv_buffer_ s) →
  0 < zlen d1 → 0 < zlen d2 → zlen d1 + zlen d2 <= max_buff_size_ (session_recv_buffer_ s) →
  ∃ s', tty_run s [YRead false d0 t r parse0; YRead false d1 t r parse; YRead false d2 t r parse] = Ok s' ∧
    zlen (contents (session_recv_buffer_ s')) = zlen d1 + zlen d2 ∧ ztake (zlen d2) (contents (session_recv_buffer_ s')) = d2.
Proof.
  intros Hw He Hr Hst Hk0 Hk H0 H1 H2 Hfit. cbn [tty_run tty_step].
  destruct (refused_twice s d0 t r parse0 Hw He Hr Hst Hk0 H0) as (s1 & -> & Hw1 & Hz1 & Hm1 & Hst1 & Hr1). cbn [obind].
  destruct (read_keeps s1 _ _ _ d1 t r parse Hw1 Hr1 Hst1 Hk) as (s2 & -> & Hb2 & Hw2 & Hst2 & Hr2); [lia..|]. cbn [obind].
  set (b2 := mkSessionBuffer _ _ _) in Hb2, Hw2. rewrite <- Hb2 in Hw2.
  assert (Hm2 : max_buff_size_ (session_recv_buffer_ s2) = max_buff_size_ (session_recv_buffer_ s)) by (by rewrite Hb2; cbn).
  assert (Hz2 : write_size_ (session_recv_buffer_ s2) = zlen d1) by (rewrite Hb2; cbn; lia).
  destruct (read_keeps s2 0 (max_buff_size_ (session_recv_buffer_ s)) _ d2 t r parse Hw2 Hr2 Hst2 Hk) as (s3 & -> & Hb3 & Hw3 & _); [lia..|].
  cbn [obind]. exists s3. split; [done|]. rewrite Hb3, contents_len by done. cbn [write_size_]. split; [lia|].
  unfold contents. cbn [buffer_ write_size_]. rewrite ztake_ztake by lia.
  change (ztake 0 (buffer_ (session_recv_buffer_ s2))) with (@nil Z). cbn [app]. by apply ztake_app_eq.
Qed.

Lemma tty_refused_packet_overwrites_witness :
  ∃ s', tty_run demo_start [YRead false [9; 9] 1 0 (demo_parse false); YRead false [1; 2; 3] 1 0 (demo_parse true);
      YRead false [4; 5] 1 0 (demo_parse true)] = Ok s' ∧
    zlen (contents (session_recv_buffer_ s')) = 5 ∧ ztake 2 (contents (session_recv_buffer_ s')) = [4; 5].
Proof.
  apply (tty_refused_packet_overwrites demo_start [9; 9] [1; 2; 3] [4; 5] 1 0 (demo_parse false) (demo_parse true)).
  - split; cbn; [reflexivity|lia|lia].
  - reflexivity.
  - reflexivity.
  - reflexivity.
  - intros b. by exists [].
  - intros b. by exists [].
  - split; reflexivity || (vm_compute; discriminate).
  - reflexivity.
  - reflexivity.
  - vm_compute. discriminate.
Defined.
