(* ===== verification/TlsSession.v ===== *)
(** * TLS sessions (src/PSS_ASIO/TcpSession/TcpSSLSession.{h,cpp})

    A connection accepted by the TLS listener: the receive path of a TCP session and an output path that
    keeps at most one write under way and collects further data meanwhile.  Work given to the I/O context
    waits in [posted]; [in_flight] holds the writes under way, [sent] all that were started. *)

From Stdlib Require Import ZArith Lia.
From S2P Require Import Prelude Define SessionBuffer SessionCalls.
From stdpp Require Import base numbers list strings.
Local Open Scope Z_scope.

Inductive posted_work :=
| PostedWrite (connect_id : Z) (data : list Z)
| PostedClose (connect_id : Z) (remote_ip : ClientIPInfo).

Record CTcpSSLSession := mkTls {
  socket_open : bool;
  connect_id_ : Z;                          (* uint32 *)
  io_bridge_connect_id_ : Z;                (* uint32 *)
  session_recv_buffer_ : CSessionBuffer;
  session_send_buffer_ : list Z;
  io_send_count_ : Z;                       (* uint32 *)
  recv_data_size_ : Z;                      (* size_t *)
  send_data_size_ : Z;                      (* size_t *)
  is_send_finish_ : bool;
  remote_ip_ : ClientIPInfo;
  local_ip_ : ClientIPInfo;
  recv_data_time_ : Z;
  io_state_ : EM_SESSION_STATE;
  (* the environment *)
  handshaking : bool;
  reading : bool;
  calls : list app_call;
  posted : list posted_work;
  in_flight : list (Z * list Z);            (* connection and data *)
  sent : list (list Z);
}.

Implicit Types (s : CTcpSSLSession).

Definition call s (l : list app_call) : CTcpSSLSession := s <| calls := calls s ++ l |>.
Definition post s (p : posted_work) : CTcpSSLSession := s <| posted := posted s ++ [p] |>.

(** The constructor and [open]: the session is reported before the handshake; [id] comes from the
    connection counter. *)
Definition open (junk : nat → Z) (id recv_size time : Z) (remote local : ClientIPInfo) : CTcpSSLSession :=
  let s := mkTls true id 0 (Init junk recv_size) [] 0 0 0 true remote local time SESSION_IO_LOGIC false false [] [] [] [] in
  call s [PacketConnect id remote local; AddThreadSession id local remote] <| handshaking := true |>.

Definition do_read s : CTcpSSLSession :=
  let s := if get_buffer_size (session_recv_buffer_ s) =? 0 then call s [CloseSessionEvent (connect_id_ s)] else s in
  s <| reading := true |>.

(** The completion of [do_handshake]: an error is only printed. *)
Definition handshake_completes s (ec : bool) : CTcpSSLSession :=
  if negb (handshaking s) then s
  else let s := s <| handshaking := false |> in if ec then s else do_read s.

Definition close s (connect_id : Z) : CTcpSSLSession := post s (PostedClose connect_id (remote_ip_ s)).

Definition set_write_buffer s (data : list Z) : CTcpSSLSession := s <| session_send_buffer_ := session_send_buffer_ s ++ data |>.

(** [do_write], with [clear_write_buffer]. *)
Definition do_write s (connect_id : Z) : CTcpSSLSession :=
  if negb (is_send_finish_ s) || bool_decide (session_send_buffer_ s = []) then s
  else post (s <| is_send_finish_ := false |> <| session_send_buffer_ := [] |>) (PostedWrite connect_id (session_send_buffer_ s)).

Definition do_write_immediately s (connect_id : Z) (data : list Z) : CTcpSSLSession := do_write (set_write_buffer s data) connect_id.

Definition add_send_finish_size s (send_length : Z) : CTcpSSLSession :=
  s <| send_data_size_ := send_data_size_ s +u64 send_length |> <| io_send_count_ := io_send_count_ s +u32 1 |>
    <| is_send_finish_ := true |>.

Definition send_write_fail_to_logic s (buf : list Z) (len : Z) : CTcpSSLSession :=
  call s [AssignationEvents (connect_id_ s) [mkPacket [] (ztake len buf) LOGIC_THREAD_WRITE_IO_ERROR]].

(** The I/O context runs the oldest posted work. *)
Definition run_posted s : CTcpSSLSession :=
  match posted s with
  | [] => s
  | p :: ps =>
      let s := s <| posted := ps |> in
      match p with
      | PostedWrite c data => s <| in_flight := in_flight s ++ [(c, data)] |> <| sent := sent s ++ [data] |>
      | PostedClose c remote =>
          call s [PacketDisconnect c; DeleteThreadSession c remote CONNECT_IO_SSL] <| socket_open := false |>
      end
  end.

(** The completion of a write: with an error after [len] bytes, or of all of it, and then the next one. *)
Definition write_completes s (ec : bool) (len : Z) : CTcpSSLSession :=
  match in_flight s with
  | [] => s
  | (c, d) :: fl =>
      let s := s <| in_flight := fl |> in
      if ec then send_write_fail_to_logic s d len else do_write (add_send_finish_size s (zlen d)) c
  end.

(** [do_read_some] for the pending read. *)
Definition do_read_some s (ec : bool) (data : list Z) (time bridge_ret : Z) (parse : parser_call) : outcome CTcpSSLSession :=
  if negb (reading s) then Ok s
  else
    let s := s <| reading := false |> in
    if ec then Ok (call s [CloseSessionEvent (connect_id_ s)])
    else
      let s := s <| recv_data_size_ := recv_data_size_ s +u64 zlen data |> in
      let* '(_, b) := recv_into (session_recv_buffer_ s) data in
      let* r := receive_data (connect_id_ s) (io_state_ s) (io_bridge_connect_id_ s) (recv_data_time_ s) (recv_data_time_ s) time
                  bridge_ret parse b (zlen data) in
      Ok (do_read (call (s <| session_recv_buffer_ := rs_buffer r |> <| recv_data_time_ := rs_time r |>
                           <| io_bridge_connect_id_ := rs_bridge r |>) [rs_call r])).

Definition set_io_bridge_connect_id s (from_io_connect_id to_io_connect_id : Z) : CTcpSSLSession :=
  s <| io_state_ := fst (bridge_to to_io_connect_id) |> <| io_bridge_connect_id_ := snd (bridge_to to_io_connect_id) |>.

(** The queries. *)
Definition get_remote_ip s (connect_id : Z) : ClientIPInfo := remote_ip_ s.
Definition get_io_type s : EM_CONNECT_IO_TYPE := CONNECT_IO_SSL.
Definition get_mark_id s (connect_id : Z) : Z := 0.
Definition get_connect_id s : Z := connect_id_ s.
Definition get_recv_time s (connect_id : Z) : Z := recv_data_time_ s.

(** ** Steps *)

Inductive tls_op :=
| SHandshake (ec : bool)
| SRead (ec : bool) (data : list Z) (time bridge_ret : Z) (parse : parser_call)
| SSet (data : list Z)
| SWrite (c : Z)
| SWriteNow (c : Z) (data : list Z)
| SRunPosted
| SWriteDone (ec : bool) (len : Z)
| SClose (c : Z)
| SBridge (from_id to_id : Z).

Definition tls_step s (o : tls_op) : outcome CTcpSSLSession :=
  match o with
  | SHandshake ec => Ok (handshake_completes s ec)
  | SRead ec d t r parse => do_read_some s ec (ztake (get_buffer_size (session_recv_buffer_ s)) d) t r parse
  | SSet d => Ok (set_write_buffer s d)
  | SWrite c => Ok (do_write s c)
  | SWriteNow c d => Ok (do_write_immediately s c d)
  | SRunPosted => Ok (run_posted s)
  | SWriteDone ec len => Ok (write_completes s ec len)
  | SClose c => Ok (close s c)
  | SBridge f t => Ok (set_io_bridge_connect_id s f t)
  end.

Fixpoint tls_run s (os : list tls_op) : outcome CTcpSSLSession :=
  match os with [] => Ok s | o :: os => let* s := tls_step s o in tls_run s os end.

(** ** The output *)

Definition posted_writes (l : list posted_work) : list (list Z) :=
  omap (λ p, match p with PostedWrite _ d => Some d | PostedClose _ _ => None end) l.

(** The writes that have not completed. *)
Definition outstanding s : list (list Z) := map snd (in_flight s) ++ posted_writes (posted s).

Definition op_bytes (o : tls_op) : list Z := match o with SSet d | SWriteNow _ d => d | _ => [] end.
Definition requested (os : list tls_op) : list Z := concat (map op_bytes os).

Definition op_ok (o : tls_op) : Prop := match o with SRead _ _ _ _ parse => parser_ok parse | _ => True end.
Definition write_error (o : tls_op) : Prop := match o with SWriteDone true _ => True | _ => False end.

(** The data set since a write was last asked for. *)
Definition unasked_after (u : list Z) (o : tls_op) : list Z :=
  match o with SSet d => u ++ d | SWrite _ | SWriteNow _ _ => [] | _ => u end.
Definition unasked (os : list tls_op) : list Z := foldl unasked_after [] os.

#[local] Arguments posted_writes : simpl never.

Lemma posted_writes_cons p l :
  posted_writes (p :: l) = match p with PostedWrite _ d => d :: posted_writes l | PostedClose _ _ => posted_writes l end.
Proof. by destruct p. Qed.

Lemma posted_writes_nil : posted_writes [] = [].
Proof. done. Qed.

Lemma posted_writes_app l1 l2 : posted_writes (l1 ++ l2) = posted_writes l1 ++ posted_writes l2.
Proof. apply omap_app. Qed.

(** [acc] is all that was requested; [healthy] says that no write has failed. *)
Record out_inv (healthy : bool) (acc : list Z) s : Prop := {
  o_bytes : acc = concat (sent s) ++ concat (posted_writes (posted s)) ++ session_send_buffer_ s;
  o_one : (length (outstanding s) <= 1)%nat;
  o_finish : is_send_finish_ s = true → outstanding s = [];
  o_idle : healthy = true → outstanding s = [] → is_send_finish_ s = true;
  o_recv : wf (session_recv_buffer_ s);
}.

(** What the input leaves alone. *)
Definition output s : list (list Z) * list posted_work * list Z * list (Z * list Z) * bool :=
  (sent s, posted s, session_send_buffer_ s, in_flight s, is_send_finish_ s).

Lemma output_inv h acc s s' : output s' = output s → wf (session_recv_buffer_ s') → out_inv h acc s → out_inv h acc s'.
Proof. intros [= E1 E2 E3 E4 E5] Hw [H1 H2 H3 H4 H5]. unfold outstanding in *. split; unfold outstanding; by rewrite ?E1, ?E2, ?E3, ?E4, ?E5. Qed.

Lemma do_read_output s : output (do_read s) = output s ∧ session_recv_buffer_ (do_read s) = session_recv_buffer_ s.
Proof. unfold do_read. by destruct (_ =? 0). Qed.

Lemma read_output s ec d t r parse : wf (session_recv_buffer_ s) → parser_ok parse →
  ∃ s', tls_step s (SRead ec d t r parse) = Ok s' ∧ output s' = output s ∧ wf (session_recv_buffer_ s').
Proof.
  intros Hw Hp. cbn [tls_step]. set (data := ztake _ d). unfold do_read_some. destruct (reading s); cbn [negb]; [|by exists s].
  destruct ec; [by eexists|]. pose proof (zlen_nonneg (contents (session_recv_buffer_ s))).
  assert (Hd : 0 <= zlen data <= get_buffer_size (session_recv_buffer_ s)).
  { split; [apply zlen_nonneg|by apply fit_le]. }
  destruct (recv_into_fits _ data Hw (proj2 Hd)) as (b & Eb & Hb & Hcb & Hmb).
  change (recv_into _ data) with (recv_into (session_recv_buffer_ s) data). rewrite Eb. cbn [obind]. rewrite get_buffer_size_wf in Hd by done.
  match goal with |- context [receive_data ?c ?st ?br ?t0 ?t1 ?t2 ?re ?pa ?bu ?n] =>
    destruct (receive_data_ok c st br t0 t1 t2 re pa bu n) as (x & -> & (Hx & _) & _); [done|lia|done|] end.
  cbn [obind]. eexists. split; [done|]. match goal with |- context [do_read ?x] => destruct (do_read_output x) as [-> ->] end. done.
Qed.

Lemma do_write_inv h acc s c : out_inv h acc s → out_inv h acc (do_write s c).
Proof.
  intros [H1 H2 H3 H4 H5]. unfold do_write. destruct (is_send_finish_ s) eqn:Ef; cbn [negb orb]; [|by split; rewrite ?Ef].
  case_bool_decide as Eb; [by split; rewrite ?Ef|]. specialize (H3 eq_refl). unfold outstanding in H3. apply app_eq_nil in H3 as [F P].
  split; unfold outstanding; cbn; rewrite ?posted_writes_app, ?posted_writes_cons, ?posted_writes_nil, ?P, ?F; cbn; [|lia|done|done|done].
  rewrite H1, P. cbn. by rewrite !app_nil_r.
Qed.

Lemma set_inv h acc s d : out_inv h acc s → out_inv h (acc ++ d) (set_write_buffer s d).
Proof. intros [H1 H2 H3 H4 H5]. split; try done. cbn. by rewrite H1, !app_assoc. Qed.

Lemma tls_step_inv h acc s o : out_inv h acc s → op_ok o → (h = true → ¬ write_error o) →
  ∃ s', tls_step s o = Ok s' ∧ out_inv h (acc ++ op_bytes o) s'.
Proof.
  intros Hi Ho He. destruct o as [ec|ec d t r parse|d|c|c d| |ec len|c|f t]; cbn [op_bytes]; rewrite ?app_nil_r.
  - eexists. split; [done|]. unfold handshake_completes. destruct (handshaking s); cbn [negb]; [|done].
    destruct ec; [by apply (output_inv h acc s); [|apply (o_recv _ _ _ Hi)|]|].
    match goal with |- context [do_read ?x] => destruct (do_read_output x) as [E1 E2] end.
    apply (output_inv h acc s); [by rewrite E1|by rewrite E2; apply (o_recv _ _ _ Hi)|done].
  - destruct (read_output s ec d t r parse (o_recv _ _ _ Hi) Ho) as (s' & E & E1 & E2). exists s'. split; [done|]. by eapply output_inv.
  - eexists. split; [done|]. by apply set_inv.
  - eexists. split; [done|]. by apply do_write_inv.
  - eexists. split; [done|]. by apply do_write_inv, set_inv.
  - eexists. split; [done|]. destruct Hi as [H1 H2 H3 H4 H5]. unfold run_posted, outstanding in *.
    destruct (posted s) as [|[c d|c rem] ps] eqn:Ep; [by split; unfold outstanding; rewrite ?Ep| |].
    + rewrite posted_writes_cons in *. split; unfold outstanding; cbn; rewrite ?map_app; cbn.
      * rewrite H1, concat_app. cbn. by rewrite app_nil_r, <- !app_assoc.
      * rewrite length_app in H2. cbn in H2. rewrite !length_app. cbn. lia.
      * intros Hf. destruct (app_eq_nil _ _ (H3 Hf)) as [_ ?]. done.
      * intros _ Hn. apply app_eq_nil in Hn as [Hn _]. apply app_eq_nil in Hn as [_ Hn]. done.
      * done.
    + rewrite posted_writes_cons in *. by split.
  - eexists. split; [done|]. unfold write_completes. destruct Hi as [H1 H2 H3 H4 H5]. unfold outstanding in *.
    destruct (in_flight s) as [|[c d] fl] eqn:Ef; [by split; unfold outstanding; rewrite ?Ef|]. cbn in H2. rewrite length_app, length_map in H2.
    assert (fl = []) as -> by (destruct fl; [done|cbn in H2; lia]).
    assert (P : posted_writes (posted s) = []) by (destruct (posted_writes (posted s)); [done|cbn in H2; lia]).
    destruct ec.
    + split; unfold outstanding; cbn; rewrite ?P; cbn; [by rewrite H1, P|lia|done| |done]. intros ->. by destruct (He eq_refl).
    + apply do_write_inv. split; unfold outstanding; cbn; rewrite ?P; cbn; [by rewrite H1, P|lia|done..].
  - eexists. split; [done|]. destruct Hi as [H1 H2 H3 H4 H5]. unfold outstanding in *.
    split; unfold outstanding; cbn; rewrite ?posted_writes_app, ?posted_writes_cons, ?posted_writes_nil; by rewrite ?app_nil_r.
  - eexists. split; [done|]. by apply (output_inv h acc s); [|apply (o_recv _ _ _ Hi)|].
Qed.

Lemma tls_run_inv h os : ∀ acc s, out_inv h acc s → Forall op_ok os → (h = true → Forall (λ o, ¬ write_error o) os) →
  ∃ s', tls_run s os = Ok s' ∧ out_inv h (acc ++ requested os) s'.
Proof.
  induction os as [|o os IH]; intros acc s Hi Ho He; cbn [tls_run]; [exists s; split; [done|]; by rewrite app_nil_r|].
  apply Forall_cons in Ho as [Ho Hos]. destruct (tls_step_inv h acc s o Hi Ho) as (s1 & -> & Hi1).
  { intros Hh. by apply He in Hh as [? _]%Forall_cons. }
  cbn [obind]. destruct (IH _ s1 Hi1 Hos) as (s2 & -> & Hi2); [intros Hh; by apply He in Hh as [_ ?]%Forall_cons|].
  exists s2. split; [done|]. unfold requested in *. cbn. by rewrite app_assoc.
Qed.

Lemma tls_open_inv h junk id n t remote local : 0 <= n < 2 ^ 63 → out_inv h [] (open junk id n t remote local).
Proof. intros Hn. destruct (Init_wf junk n Hn) as [? _]. split; try done. change (0 <= 1)%nat. lia. Qed.

(** A session that is ready to write has collected only data that no write was asked for. *)
Definition asked (u : list Z) s : Prop := is_send_finish_ s = true → session_send_buffer_ s `suffix_of` u.

Lemma do_write_asked s c : asked [] (do_write s c).
Proof. unfold asked, do_write. destruct (is_send_finish_ s) eqn:Ef; cbn [negb orb]; [|by rewrite Ef]. by case_bool_decide as Eb; rewrite ?Eb. Qed.

Lemma asked_nil u s : asked [] s → asked u s.
Proof. intros H Hf. apply suffix_nil_inv in H; [|done]. rewrite H. apply suffix_nil. Qed.

Lemma step_asked u s o s' : wf (session_recv_buffer_ s) → op_ok o → tls_step s o = Ok s' → asked u s → asked (unasked_after u o) s'.
Proof.
  intros Hw Ho E Hu. assert (Hout : output s' = output s → asked u s').
  { intros [= _ _ E3 _ E5]. unfold asked. by rewrite E3, E5. }
  destruct o as [ec|ec d t r parse|d|c|c d| |ec len|c|f t]; cbn [unasked_after].
  2: { apply Hout. destruct (read_output s ec d t r parse Hw Ho) as (s1 & E1 & E2 & _). congruence. }
  all: injection E as <-.
  - apply Hout. unfold handshake_completes. destruct (handshaking s); cbn [negb]; [|done]. destruct ec; [done|].
    match goal with |- context [do_read ?x] => by destruct (do_read_output x) as [-> _] end.
  - intros Hf. destruct (Hu Hf) as [l ->]. exists l. cbn. by rewrite app_assoc.
  - apply do_write_asked.
  - apply do_write_asked.
  - unfold run_posted. by destruct (posted s) as [|[] ps].
  - unfold write_completes. destruct (in_flight s) as [|[c d] fl]; [done|]. destruct ec; [done|]. apply asked_nil, do_write_asked.
  - done.
  - done.
Qed.

Lemma run_asked h os : ∀ u acc s s', out_inv h acc s → Forall op_ok os → (h = true → Forall (λ o, ¬ write_error o) os) →
  tls_run s os = Ok s' → asked u s → asked (foldl unasked_after u os) s'.
Proof.
  induction os as [|o os IH]; intros u acc s s' Hi Ho He; cbn [tls_run foldl]; [by intros [= <-]|].
  apply Forall_cons in Ho as [Ho Hos]. destruct (tls_step_inv h acc s o Hi Ho) as (s1 & E1 & Hi1).
  { intros Hh. by apply He in Hh as [? _]%Forall_cons. }
  rewrite E1. cbn [obind]. intros E Hu. eapply IH; [exact Hi1|done| |exact E|].
  - intros Hh. by apply He in Hh as [_ ?]%Forall_cons.
  - eapply step_asked; [apply (o_recv _ _ _ Hi)|exact Ho|exact E1|exact Hu].
Qed.

(** C31: a TLS session sends one write at a time and in order.  Whatever happens to an accepted session with a receive
    buffer of less than 2^63 bytes (the handshake, reads with parsers that keep their contract ([parser_ok]), writes, completions, bridge
    changes, closes), no operation leaves the buffers; at most one
    write is posted or under way; the data requested is exactly what was given to the stream, what is
    posted and what is collected, in this order; and as long as no write has failed, a session with
    nothing posted or under way is ready to write and what it has collected was set after the last [do_write]
    ([unasked]): data that a write was asked for is never left behind.  After a failed
    write nothing more is sent ([tls_failed_write_stalls]). *)
Theorem tls_output_in_order junk id n t remote local os :
  0 <= n < 2 ^ 63 → Forall op_ok os →
  ∃ s, tls_run (open junk id n t remote local) os = Ok s ∧
    requested os = concat (sent s) ++ concat (posted_writes (posted s)) ++ session_send_buffer_ s ∧
    (length (outstanding s) <= 1)%nat ∧
    (Forall (λ o, ¬ write_error o) os → outstanding s = [] →
       is_send_finish_ s = true ∧ session_send_buffer_ s `suffix_of` unasked os).
Proof.
  intros Hn Ho. destruct (tls_run_inv false os [] _ (tls_open_inv false junk id n t remote local Hn) Ho) as (s & E & [H1 H2 _ _ _]); [done|].
  exists s. split; [done|]. split; [done|]. split; [done|]. intros He Hout.
  pose proof (tls_open_inv true junk id n t remote local Hn) as Hi.
  destruct (tls_run_inv true os [] _ Hi Ho (λ _, He)) as (s' & E' & [_ _ _ H4 _]).
  rewrite E in E'. injection E' as <-. split; [by apply H4|].
  eapply run_asked; [exact Hi|exact Ho|done|exact E| |by apply H4]. by intros _.
Qed.

Definition demo_open : CTcpSSLSession := open (λ _, 0) 5 64 0 ClientIPInfo_default ClientIPInfo_default.
Definition demo_ops : list tls_op :=
  [SHandshake false; SWriteNow 5 [1; 2]; SWriteNow 5 [3]; SRunPosted; SSet [4]; SWriteDone false 0; SRunPosted; SSet [5]; SWriteDone false 0].

Lemma tls_output_in_order_witness :
  ∃ s, tls_run demo_open demo_ops = Ok s ∧
    [1; 2; 3; 4; 5] = concat (sent s) ++ concat (posted_writes (posted s)) ++ session_send_buffer_ s ∧
    sent s = [[1; 2]; [3; 4]] ∧ outstanding s = [[5]].
Proof.
  destruct (tls_output_in_order (λ _, 0) 5 64 0 ClientIPInfo_default ClientIPInfo_default demo_ops) as (s & E & H1 & _).
  - lia.
  - unfold demo_ops. repeat constructor.
  - exists s. split; [exact E|]. split; [exact H1|]. clear H1. vm_compute in E. injection E as <-. split; reflexivity.
Defined.

(** ** After a failed write *)

(** Nothing is under way and the session waits for it. *)
Definition stalled s : Prop := is_send_finish_ s = false ∧ outstanding s = [].

Lemma do_write_stalled s c : is_send_finish_ s = false → do_write s c = s.
Proof. intros H. unfold do_write. by rewrite H. Qed.

Lemma step_stalled s o : wf (session_recv_buffer_ s) → op_ok o → stalled s →
  ∃ s', tls_step s o = Ok s' ∧ stalled s' ∧ wf (session_recv_buffer_ s') ∧ sent s' = sent s ∧
    session_send_buffer_ s' = session_send_buffer_ s ++ op_bytes o.
Proof.
  intros Hw Ho [Hf Hn].
  assert (Hout : ∀ s', output s' = output s → stalled s' ∧ sent s' = sent s ∧ session_send_buffer_ s' = session_send_buffer_ s).
  { intros s' [= E1 E2 E3 E4 E5]. unfold stalled, outstanding in *. by rewrite E1, E2, E3, E4, E5. }
  pose proof (app_eq_nil _ _ Hn) as [Hfl Hp]. apply map_eq_nil in Hfl.
  destruct o as [ec|ec d t r parse|d|c|c d| |ec len|c|f t]; cbn [op_bytes]; rewrite ?app_nil_r.
  - eexists. split; [done|]. unfold handshake_completes. destruct (handshaking s); cbn [negb]; [|done].
    destruct ec; [done|]. match goal with |- context [do_read ?x] => destruct (do_read_output x) as [E1 E2] end.
    rewrite E2. destruct (Hout _ E1) as (? & -> & ->). done.
  - destruct (read_output s ec d t r parse Hw Ho) as (s' & E & E1 & E2). exists s'. destruct (Hout _ E1) as (? & -> & ->). done.
  - eexists. split; [done|]. done.
  - eexists. split; [done|]. rewrite do_write_stalled by done. done.
  - eexists. split; [done|]. unfold do_write_immediately. rewrite do_write_stalled by done. done.
  - eexists. split; [done|]. unfold run_posted, stalled, outstanding in *. rewrite Hfl in *.
    destruct (posted s) as [|[c d|c rem] ps] eqn:Ep; rewrite ?posted_writes_cons in Hp; [|done|]; cbn; rewrite ?Hfl, ?Ep; done.
  - eexists. split; [done|]. unfold write_completes. rewrite Hfl. done.
  - eexists. split; [done|]. unfold stalled, outstanding in *. cbn. rewrite posted_writes_app, posted_writes_cons, Hfl, Hp. done.
  - eexists. split; [done|]. done.
Qed.

(** A failed write stalls a TLS session for good.  When the write under way has failed, whatever
    happens afterwards no further write is started: all data requested from then on is collected and
    never sent. *)
Theorem tls_failed_write_stalls s os :
  wf (session_recv_buffer_ s) → stalled s → Forall op_ok os →
  ∃ s', tls_run s os = Ok s' ∧ sent s' = sent s ∧ session_send_buffer_ s' = session_send_buffer_ s ++ requested os.
Proof.
  intros Hw Hs Hos. revert s Hw Hs. induction Hos as [|o os Ho _ IH]; intros s Hw Hs; cbn [tls_run].
  { exists s. by rewrite app_nil_r. }
  destruct (step_stalled s o Hw Ho Hs) as (s1 & -> & Hs1 & Hw1 & E1 & E2). cbn [obind].
  destruct (IH s1 Hw1 Hs1) as (s2 & -> & E3 & E4). exists s2. rewrite E3, E4, E2. unfold requested. cbn. by rewrite <- app_assoc.
Qed.

Definition demo_fails : list tls_op := [SHandshake false; SWriteNow 5 [1; 2]; SRunPosted; SWriteDone true 0].
Definition demo_stalled : CTcpSSLSession := match tls_run demo_open demo_fails with Ok s => s | Fault => demo_open end.

Lemma tls_failed_write_stalls_witness :
  tls_run demo_open demo_fails = Ok demo_stalled ∧
  ∃ s', tls_run demo_stalled [SWriteNow 5 [3]; SRunPosted; SWriteNow 5 [4]; SRunPosted] = Ok s' ∧ sent s' = [[1; 2]] ∧
    session_send_buffer_ s' = [3; 4].
Proof.
  split; [vm_compute; reflexivity|].
  destruct (tls_failed_write_stalls demo_stalled [SWriteNow 5 [3]; SRunPosted; SWriteNow 5 [4]; SRunPosted]) as (s' & E1 & E2 & E3).
  - split; vm_compute; [reflexivity|split; discriminate|reflexivity].
  - split; vm_compute; reflexivity.
  - repeat constructor.
  - exists s'. split; [exact E1|]. split; [rewrite E2; vm_compute; reflexivity|rewrite E3; vm_compute; reflexivity].
Defined.
