(* ===== verification/TlsClientSession.v ===== *)
(** * TLS client sessions (src/PSS_ASIO/TcpSession/TcpSSLClientSession.{h,cpp})

    A TLS connection this server opens to another one: connect, handshake, then reads and writes.  After
    the parser has been called, the handler removes as many bytes from the receive buffer as were just
    read, whatever the parser left there; and a bridge is set to the id of the sender.

    Work given to the I/O context waits in [posted]; [in_flight] holds the writes under way, [sent] all
    that were started. *)

From Stdlib Require Import ZArith Lia.
From S2P Require Import Prelude Define SessionBuffer SessionCalls.
From stdpp Require Import base numbers list strings.
Local Open Scope Z_scope.

Inductive posted_work :=
| PostedWrite (data : list Z)
| PostedClose (connect_id : Z) (remote_ip : ClientIPInfo).

(** How far the connection is. *)
Inductive link := Idle | Connecting | Handshaking | Linked.

Record CTcpSSLClientSession := mkTlsClient {
  socket_open : bool;
  packet_parse_set : bool;                  (* packet_parse_interface_ is not null *)
  server_id_ : Z;                           (* uint32 *)
  connect_id_ : Z;                          (* uint32 *)
  io_bridge_connect_id_ : Z;                (* uint32 *)
  session_recv_buffer_ : CSessionBuffer;
  session_send_buffer_ : CSessionBuffer;
  remote_ip_ : ClientIPInfo;
  local_ip_ : ClientIPInfo;
  recv_data_size_ : Z;                      (* size_t *)
  send_data_size_ : Z;                      (* size_t *)
  recv_data_time_ : Z;
  io_state_ : EM_SESSION_STATE;
  (* the environment *)
  stage : link;
  reading : bool;
  calls : list app_call;
  posted : list posted_work;
  in_flight : list (list Z);
  sent : list (list Z);
}.

Implicit Types (s : CTcpSSLClientSession).

Definition call s (l : list app_call) : CTcpSSLClientSession := s <| calls := calls s ++ l |>.
Definition post s (p : posted_work) : CTcpSSLClientSession := s <| posted := posted s ++ [p] |>.
Definition async_write s (data : list Z) : CTcpSSLClientSession :=
  s <| in_flight := in_flight s ++ [data] |> <| sent := sent s ++ [data] |>.

(** [start]: [pem_ok] says whether the certificate file can be loaded; a name that cannot be resolved
    throws. *)
Definition start (junk : nat → Z) (pem_ok resolved : bool) (io_info : CConnect_IO_Info) (now : Z) : outcome (bool * CTcpSSLClientSession) :=
  let s := mkTlsClient false false (server_id io_info) 0 0 (Init junk (recv_size io_info)) (Init junk (send_size io_info))
             ClientIPInfo_default ClientIPInfo_default 0 0 now SESSION_IO_LOGIC Idle false [] [] [] [] in
  if negb pem_ok then Ok (false, s)
  else if negb resolved then Fault
  else Ok (true, s <| socket_open := true |> <| stage := Connecting |>).

(** The completion of the connect; on success the handshake is started. *)
Definition connect_completes s (ec : bool) : CTcpSSLClientSession :=
  match stage s with
  | Connecting =>
      if ec then
        call (s <| stage := Idle |>)
          [FrameEvent LOGIC_CONNECT_SERVER_ERROR (server_id_ s) (m_strClientIP (remote_ip_ s)) (m_u2Port (remote_ip_ s)) CONNECT_IO_SSL]
      else s <| stage := Handshaking |>
  | _ => s
  end.

(** [do_read]: a full buffer posts a close to the logic thread 1; the read is started anyway. *)
Definition do_read s : CTcpSSLClientSession :=
  let s := if get_buffer_size (session_recv_buffer_ s) =? 0 then call s [PostClose 1 (connect_id_ s)] else s in
  s <| reading := true |>.

(** [handshake]: [id] comes from the connection counter, [endpoints] throws when the socket is no longer
    connected; a failed handshake is only logged. *)
Definition handshake s (ec : bool) (id now : Z) (endpoints : option (ClientIPInfo * ClientIPInfo)) : outcome CTcpSSLClientSession :=
  match stage s with
  | Handshaking =>
      if ec then Ok (s <| stage := Idle |>)
      else
        let s := s <| stage := Linked |> <| connect_id_ := id |> <| recv_data_time_ := now |> <| packet_parse_set := true |> in
        match endpoints with
        | None => Fault
        | Some (remote, local) =>
            let s := s <| remote_ip_ := remote |> <| local_ip_ := local |> in
            Ok (do_read (call s [PacketConnect id remote local; AddThreadSession id local remote]))
        end
  | _ => Ok s
  end.

Definition close s (connect_id : Z) : CTcpSSLClientSession := post s (PostedClose connect_id (remote_ip_ s)).

Definition set_write_buffer s (data : list Z) : outcome CTcpSSLClientSession :=
  let* b := append_send_buffer (session_send_buffer_ s) data in
  Ok (s <| session_send_buffer_ := b |>).

Definition do_write_immediately s (data : list Z) : CTcpSSLClientSession := post s (PostedWrite data).

Definition do_write s : outcome CTcpSSLClientSession :=
  let* '(data, b) := take_send_buffer (session_send_buffer_ s) in
  Ok (async_write (s <| session_send_buffer_ := b |>) data).

(** The I/O context runs the oldest posted work; a close calls the parser without asking whether there is
    one. *)
Definition run_posted s : outcome CTcpSSLClientSession :=
  match posted s with
  | [] => Ok s
  | p :: ps =>
      let s := s <| posted := ps |> in
      match p with
      | PostedWrite data => Ok (async_write s data)
      | PostedClose c remote =>
          if negb (packet_parse_set s) then Fault
          else Ok (call s [PacketDisconnect c; DeleteThreadSession c remote CONNECT_IO_SSL] <| socket_open := false |>)
      end
  end.

Definition add_send_finish_size s (send_length : Z) : CTcpSSLClientSession :=
  s <| send_data_size_ := send_data_size_ s +u64 send_length |>.

Definition send_write_fail_to_logic s (buf : list Z) (len : Z) : CTcpSSLClientSession :=
  call s [AssignationEvents (connect_id_ s) [mkPacket [] (ztake len buf) LOGIC_THREAD_WRITE_IO_ERROR]].

(** The completion of the oldest write. *)
Definition write_completes s (ec : bool) (len : Z) : CTcpSSLClientSession :=
  match in_flight s with
  | [] => s
  | d :: fl =>
      let s := s <| in_flight := fl |> in
      if ec then send_write_fail_to_logic s d len else add_send_finish_size s (zlen d)
  end.

(** [do_read_some] for the pending read. *)
Definition do_read_some s (ec : bool) (data : list Z) (time bridge_ret : Z) (parse : parser_call) : outcome CTcpSSLClientSession :=
  if negb (reading s) then Ok s
  else
    let s := s <| reading := false |> in
    if ec then Ok (call s [CloseSessionEvent (connect_id_ s)])
    else
      let s := s <| recv_data_size_ := recv_data_size_ s +u64 zlen data |> in
      let* '(_, b) := recv_into (session_recv_buffer_ s) data in
      let* r := receive_data (connect_id_ s) (io_state_ s) (io_bridge_connect_id_ s) (recv_data_time_ s) (recv_data_time_ s) time
                  bridge_ret parse b (zlen data) in
      let* b := match io_state_ s with SESSION_IO_BRIDGE => Ok (rs_buffer r) | SESSION_IO_LOGIC => move (rs_buffer r) (zlen data) end in
      Ok (do_read (call (s <| session_recv_buffer_ := b |> <| recv_data_time_ := rs_time r |>
                           <| io_bridge_connect_id_ := rs_bridge r |>) [rs_call r])).

(** [set_io_bridge_connect_id]: the id kept is that of the sender. *)
Definition set_io_bridge_connect_id s (from_io_connect_id to_io_connect_id : Z) : CTcpSSLClientSession :=
  if 0 <? to_io_connect_id
  then s <| io_state_ := SESSION_IO_BRIDGE |> <| io_bridge_connect_id_ := from_io_connect_id |>
  else s <| io_state_ := SESSION_IO_LOGIC |> <| io_bridge_connect_id_ := 0 |>.

(** The queries. *)
Definition get_remote_ip s (connect_id : Z) : ClientIPInfo := remote_ip_ s.
Definition get_io_type s : EM_CONNECT_IO_TYPE := CONNECT_IO_SSL.
Definition get_mark_id s (connect_id : Z) : Z := server_id_ s.
Definition get_connect_id s : Z := connect_id_ s.
Definition get_recv_time s (connect_id : Z) : Z := recv_data_time_ s.

(** ** Steps *)

Inductive tlsc_op :=
| LConnected (ec : bool)
| LHandshake (ec : bool) (id now : Z) (endpoints : option (ClientIPInfo * ClientIPInfo))
| LRead (ec : bool) (data : list Z) (time bridge_ret : Z) (parse : parser_call)
| LSet (data : list Z)
| LWrite
| LWriteNow (data : list Z)
| LRunPosted
| LWriteDone (ec : bool) (len : Z)
| LClose (c : Z)
| LBridge (from_id to_id : Z).

(** A read gets at most the free part of the buffer. *)
Definition fit s (data : list Z) : list Z := ztake (get_buffer_size (session_recv_buffer_ s)) data.

Definition tlsc_step s (o : tlsc_op) : outcome CTcpSSLClientSession :=
  match o with
  | LConnected ec => Ok (connect_completes s ec)
  | LHandshake ec id now ends => handshake s ec id now ends
  | LRead ec d t r parse => do_read_some s ec (fit s d) t r parse
  | LSet d => set_write_buffer s d
  | LWrite => do_write s
  | LWriteNow d => Ok (do_write_immediately s d)
  | LRunPosted => run_posted s
  | LWriteDone ec len => Ok (write_completes s ec len)
  | LClose c => Ok (close s c)
  | LBridge f t => Ok (set_io_bridge_connect_id s f t)
  end.

Fixpoint tlsc_run s (os : list tlsc_op) : outcome CTcpSSLClientSession :=
  match os with [] => Ok s | o :: os => let* s := tlsc_step s o in tlsc_run s os end.

(** ** The receive buffer *)

Record buf_inv (recv_size : Z) s : Prop := {
  b_recv : wf (session_recv_buffer_ s) ∧ max_buff_size_ (session_recv_buffer_ s) = recv_size;
  b_empty : contents (session_recv_buffer_ s) = [];
  b_send : wf (session_send_buffer_ s);
}.

Definition op_ok (o : tlsc_op) : Prop := match o with LRead _ _ _ _ parse => parser_ok parse | _ => True end.

(** What becomes of data that was read: the bridge or the parser gets exactly it. *)
Definition handled s (data : list Z) (parse : parser_call) (b : CSessionBuffer) : app_call :=
  match io_state_ s with
  | SESSION_IO_BRIDGE => BridgeData (connect_id_ s) (io_bridge_connect_id_ s) data
  | SESSION_IO_LOGIC =>
      match parse b with Ok (true, _, l) => AssignationMessages (connect_id_ s) l | _ => CloseSessionEvent (connect_id_ s) end
  end.

Lemma read_handled n s data t r parse : buf_inv n s → 0 < n → reading s = true → parser_ok parse → zlen data <= n →
  ∃ s' b, do_read_some s false data t r parse = Ok s' ∧ buf_inv n s' ∧ reading s' = true ∧ contents b = data ∧
    calls s' = calls s ++ [handled s data parse b].
Proof.
  intros [[Hw Hm] He Hs] Hn Hr Hp Hd. unfold do_read_some. rewrite Hr. cbn [negb]. pose proof (zlen_nonneg data).
  destruct (recv_into_fits (session_recv_buffer_ s) data Hw) as (b & Eb & Hb & Hcb & Hmb);
    [rewrite get_buffer_size_wf, He by done; change (zlen (@nil Z)) with 0; lia|]. rewrite He in Hcb. cbn [app] in Hcb.
  change (recv_into _ data) with (recv_into (session_recv_buffer_ s) data). rewrite Eb. cbn [obind].
  set (s1 := s <| reading := false |> <| recv_data_size_ := _ |>).
  assert (Hrd : ∃ x b', receive_data (connect_id_ s1) (io_state_ s1) (io_bridge_connect_id_ s1) (recv_data_time_ s1) (recv_data_time_ s1) t r
      parse b (zlen data) = Ok x ∧ rs_call x = handled s data parse b ∧
      match io_state_ s1 with SESSION_IO_BRIDGE => Ok (rs_buffer x) | SESSION_IO_LOGIC => move (rs_buffer x) (zlen data) end = Ok b' ∧
      wf b' ∧ contents b' = [] ∧ max_buff_size_ b' = n).
  { unfold receive_data, handled. change (io_state_ s1) with (io_state_ s). destruct (io_state_ s).
    - destruct (Hp b Hb) as (ret & b1 & l & -> & Hcons). cbn [obind].
      destruct (consumes_move b b1 Hb Hcons) as (b2 & Em & ? & ? & ?). rewrite Hcb in Em. 
      destruct ret; (eexists _, b2; split; [done|]; cbn; rewrite Em; split_and!; done || congruence).
    - pose proof (contents_len b Hb) as Hcl. rewrite Hcb in Hcl. pose proof (wf_write b Hb). pose proof (wf_len b Hb).
      rewrite mem_read_ok by (unfold read; lia). cbn [obind]. change (zdrop 0 (read b)) with (buffer_ b).
      destruct (consumes_move b b Hb (consumes_refl b Hb)) as (b2 & Em & ? & ? & ?). rewrite Hcb in Em. rewrite Em. cbn [obind].
      eexists _, b2. split; [done|]. cbn. unfold contents in Hcb. rewrite <- Hcl in Hcb. rewrite Hcb. split_and!; done || congruence. }
  destruct Hrd as (x & b' & -> & Hcall & Eb' & Hb' & Hc' & Hm'). cbn [obind]. rewrite Eb'. cbn [obind].
  unfold do_read. cbn [session_recv_buffer_ call]. 
  match goal with |- context [get_buffer_size ?z =? 0] => change z with b' end.
  rewrite get_buffer_size_wf, Hc' by done. change (zlen (@nil Z)) with 0. rewrite (proj2 (Z.eqb_neq _ 0)) by lia.
  eexists _, b. split; [done|]. split; [by split|]. split; [done|]. split; [done|]. cbn. by rewrite Hcall.
Qed.

Lemma tlsc_do_read_inv n s : buf_inv n s → buf_inv n (do_read s).
Proof. intros []. unfold do_read. by destruct (_ =? 0). Qed.

Lemma tlsc_step_inv n s o s' : buf_inv n s → 0 < n → op_ok o → tlsc_step s o = Ok s' → buf_inv n s'.
Proof.
  intros Hi Hn Ho. destruct o as [ec|ec id now ends|ec d t r parse|d| |d| |ec len|c|f t]; cbn [tlsc_step].
  - intros [= <-]. unfold connect_completes. destruct (stage s); [done| |done..]. destruct ec; by destruct Hi.
  - unfold handshake. destruct (stage s); [by intros [= <-]..| |by intros [= <-]]. destruct ec; [intros [= <-]; by destruct Hi|].
    destruct ends as [[remote local]|]; [|done]. intros [= <-]. apply tlsc_do_read_inv. by destruct Hi.
  - intros E. destruct (reading s) eqn:Er; [|unfold do_read_some in E; rewrite Er in E; by injection E as <-].
    destruct ec; [unfold do_read_some in E; rewrite Er in E; injection E as <-; by destruct Hi|].
    destruct (read_handled n s (fit s d) t r parse Hi Hn Er Ho) as (s1 & b & E1 & Hi1 & _); [|by rewrite E in E1; injection E1 as <-].
    destruct Hi as [[Hw Hm] He Hs]. unfold fit. rewrite get_buffer_size_wf, He, Hm by done. change (zlen (@nil Z)) with 0. rewrite Z.sub_0_r.
    apply zlen_ztake_le. lia.
  - unfold set_write_buffer. destruct Hi as [H1 H2 H3]. destruct (append_send_buffer_ok _ d H3) as (b & -> & Hb & _). cbn [obind].
    intros [= <-]. by split.
  - unfold do_write. destruct Hi as [H1 H2 H3]. destruct (take_send_buffer_ok _ H3) as (b & -> & Hb & _). cbn [obind]. intros [= <-]. by split.
  - intros [= <-]. by destruct Hi.
  - unfold run_posted. destruct (posted s) as [|[d|c rem] ps]; [by intros [= <-]|intros [= <-]; by destruct Hi|].
    destruct (negb _); [done|]. intros [= <-]. by destruct Hi.
  - intros [= <-]. unfold write_completes. destruct (in_flight s); [done|]. destruct ec; by destruct Hi.
  - intros [= <-]. by destruct Hi.
  - intros [= <-]. unfold set_io_bridge_connect_id. destruct (0 <? t); by destruct Hi.
Qed.

Lemma tlsc_run_inv n os : ∀ s s', buf_inv n s → 0 < n → Forall op_ok os → tlsc_run s os = Ok s' → buf_inv n s'.
Proof.
  induction os as [|o os IH]; intros s s' Hi Hn Hos; cbn [tlsc_run]; [by intros [= <-]|]. apply Forall_cons in Hos as [Ho Hos].
  destruct (tlsc_step s o) as [s1|] eqn:E; cbn [obind]; [|done]. apply IH; [|done..]. by eapply tlsc_step_inv.
Qed.

Definition config_ok (io_info : CConnect_IO_Info) : Prop :=
  0 < recv_size io_info < 2 ^ 63 ∧ 0 <= send_size io_info < 2 ^ 63.

Lemma tlsc_start_inv junk io_info now s : config_ok io_info → start junk true true io_info now = Ok (true, s) → buf_inv (recv_size io_info) s.
Proof.
  intros [Hr Hs] [= <-]. destruct (Init_wf junk (recv_size io_info)) as [? ?]; [lia|]. destruct (Init_wf junk (send_size io_info)) as [? _]; [lia|].
  by split.
Qed.

(** A TLS client never puts a packet together from two reads.  In every state a started session can
    reach, the receive buffer is empty between reads, so the bridge or the parser gets exactly the bytes
    of one read: what the parser left of an earlier read is gone. *)
Theorem tls_client_reads_separate junk io_info now s0 os s data t r parse :
  config_ok io_info → start junk true true io_info now = Ok (true, s0) → Forall op_ok os → tlsc_run s0 os = Ok s →
  contents (session_recv_buffer_ s) = [] ∧
  (reading s = true → parser_ok parse → zlen data <= recv_size io_info →
   ∃ s' b, tlsc_step s (LRead false data t r parse) = Ok s' ∧ reading s' = true ∧ contents b = data ∧
     calls s' = calls s ++ [handled s data parse b]).
Proof.
  intros Hc Hs Ho Hrun. pose proof (tlsc_run_inv _ os s0 s (tlsc_start_inv junk io_info now s0 Hc Hs) (proj1 (proj1 Hc)) Ho Hrun) as Hi.
  split; [apply (b_empty _ _ Hi)|]. intros Hr Hp Hd.
  destruct (read_handled _ s data t r parse Hi (proj1 (proj1 Hc)) Hr Hp Hd) as (s' & b & E & _ & ? & ? & ?). exists s', b.
  split; [|done]. cbn [tlsc_step]. unfold fit. destruct Hi as [[Hw Hm] He _]. rewrite get_buffer_size_wf, He, Hm by done.
  change (zlen (@nil Z)) with 0. by rewrite Z.sub_0_r, ztake_all.
Qed.

Definition demo_info : CConnect_IO_Info := mkConnectIOInfo 3 "127.0.0.1" 10006 "" 0 1 16 8 "client.pem" false.

(** A parser for packets of four bytes. *)
Definition demo_parse : parser_call := λ b,
  if get_write_size b <? 4 then Ok (true, b, [])
  else let* b' := move b 4 in Ok (true, b', [mkPacket [] (ztake 4 (contents b)) 0]).

Lemma tlsc_demo_parse_ok : parser_ok demo_parse.
Proof.
  intros b Hb. unfold demo_parse. destruct (_ <? 4); [pose proof (consumes_refl b Hb); eauto 6|].
  destruct (move_consumes b b 4 (consumes_refl b Hb)) as (b' & -> & ?); [lia|]. cbn. eauto 6.
Qed.

Definition demo_ops : list tlsc_op :=
  [LConnected false; LHandshake false 5 1 (Some (ClientIPInfo_default, ClientIPInfo_default)); LRead false [1; 2] 2 0 demo_parse].

Definition demo_state : CTcpSSLClientSession :=
  match (let* '(_, s) := start (λ _, 0) true true demo_info 0 in tlsc_run s demo_ops) with
  | Ok s => s
  | Fault => mkTlsClient false false 0 0 0 (Init (λ _, 0) 0) (Init (λ _, 0) 0) ClientIPInfo_default ClientIPInfo_default 0 0 0 SESSION_IO_LOGIC
               Idle false [] [] [] []
  end.

(** The second half of a packet: nothing is delivered. *)
Lemma tls_client_reads_separate_witness :
  contents (session_recv_buffer_ demo_state) = [] ∧
  ∃ s' b, tlsc_step demo_state (LRead false [3; 4] 2 0 demo_parse) = Ok s' ∧ contents b = [3; 4] ∧
    calls s' = calls demo_state ++ [handled demo_state [3; 4] demo_parse b] ∧ last (calls s') = Some (AssignationMessages 5 []).
Proof.
  destruct (start (λ _, 0) true true demo_info 0) as [[ok s0]|] eqn:E0; [|discriminate].
  destruct (tls_client_reads_separate (λ _, 0) demo_info 0 s0 demo_ops demo_state [3; 4] 2 0 demo_parse) as [H1 H2].
  - split; cbn; lia.
  - rewrite E0. injection E0 as <- _. reflexivity.
  - unfold demo_ops. repeat (apply Forall_cons; split; [first [apply tlsc_demo_parse_ok|done]|]). done.
  - injection E0 as _ <-. vm_compute. reflexivity.
  - split; [exact H1|]. destruct H2 as (s' & b & E & _ & Hb & Hc); [reflexivity|exact tlsc_demo_parse_ok|vm_compute; discriminate|].
    exists s', b. split; [exact E|]. split; [exact Hb|]. split; [exact Hc|]. vm_compute in E. injection E as <-. reflexivity.
Defined.

(** A bridged TLS client forwards to the sender.  The bridge set with the ids (from, to) sends what the
    session reads to [from], the first of the two, and not to [to]. *)
Theorem tls_client_bridges_to_sender n s from_id to_id data t r parse :
  buf_inv n s → 0 < n → reading s = true → 0 < to_id → zlen data <= n → parser_ok parse →
  ∃ s', tlsc_run s [LBridge from_id to_id; LRead false data t r parse] = Ok s' ∧
    calls s' = calls s ++ [BridgeData (connect_id_ s) from_id data].
Proof.
  intros Hi Hn Hr Ht Hd Hp. cbn [tlsc_run tlsc_step obind]. unfold set_io_bridge_connect_id. rewrite (proj2 (Z.ltb_lt 0 _)) by done.
  set (s1 := s <| io_state_ := _ |> <| io_bridge_connect_id_ := _ |>). assert (Hi1 : buf_inv n s1) by (by destruct Hi).
  assert (Hfit : fit s1 data = data).
  { unfold fit. destruct Hi1 as [[Hw Hm] He _]. rewrite get_buffer_size_wf, He, Hm by done. change (zlen (@nil Z)) with 0. by rewrite Z.sub_0_r, ztake_all. }
  rewrite Hfit. destruct (read_handled n s1 data t r parse Hi1 Hn Hr Hp Hd) as (s' & b & -> & _ & _ & _ & Hc). by exists s'.
Qed.

Lemma tls_client_bridges_to_sender_witness :
  ∃ s', tlsc_run demo_state [LBridge 5 9; LRead false [7] 3 0 demo_parse] = Ok s' ∧
    calls s' = calls demo_state ++ [BridgeData 5 5 [7]].
Proof.
  apply (tls_client_bridges_to_sender 16 demo_state 5 9 [7] 3 0 demo_parse).
  - split; [split; [split; vm_compute; [reflexivity|split; discriminate|reflexivity]|reflexivity]|reflexivity|].
    split; vm_compute; [reflexivity|split; discriminate|reflexivity].
  - reflexivity.
  - reflexivity.
  - reflexivity.
  - vm_compute. discriminate.
  - exact tlsc_demo_parse_ok.
Defined.
