(* ===== verification/IoContextPool.v ===== *)
(** * The I/O context pool (src/PSS_ASIO/Common/IoContextPool.{h,cpp})

    The contexts are numbered in the order they were created.  Running a context on its thread is asio;
    what the pool itself decides is which context the next listener, session or client gets.  An index
    outside the vector is a fault. *)

From Stdlib Require Import ZArith Lia.
From S2P Require Import Prelude.
From stdpp Require Import base numbers list.
Local Open Scope Z_scope.

Record CIoContextPool := mkPool {
  io_contexts_list_ : list nat;            (* the contexts, by creation number *)
  next_io_context_ : Z;                    (* size_t *)
  works_ : list nat;                       (* the contexts that are kept running *)
  io_thread_list_ : list (nat * nat);      (* thread_id_ and the context the thread runs *)
}.

(** [init]: [io_size] contexts are added; a size of 0 throws. *)
Definition init (p : CIoContextPool) (io_size : nat) : option CIoContextPool :=
  if bool_decide (io_size = 0)%nat then None
  else
    let fresh := seq (length (io_contexts_list_ p)) io_size in
    Some (mkPool (io_contexts_list_ p ++ fresh) 0 (works_ p ++ fresh) (io_thread_list_ p)).

Definition CIoContextPool_new : CIoContextPool := mkPool [] 0 [] [].

(** [run]: a thread per context, numbered from 0; and, once all of them have been joined, the end of [run]. *)
Definition run (p : CIoContextPool) : CIoContextPool :=
  p <| io_thread_list_ := io_thread_list_ p ++ imap (λ thread_index c, (thread_index, c)) (io_contexts_list_ p) |>.
Definition run_returns (p : CIoContextPool) : CIoContextPool := p <| io_thread_list_ := [] |>.

Definition getIOContext (p : CIoContextPool) : outcome (nat * CIoContextPool) :=
  match io_contexts_list_ p !! Z.to_nat (next_io_context_ p) with
  | None => Fault
  | Some io_context =>
      let next := next_io_context_ p +u64 1 in
      let next := if next =? zlen (io_contexts_list_ p) then 1 else next in
      Ok (io_context, p <| next_io_context_ := next |>)
  end.

(** [stop]: the work guards are reset, the contexts stopped and dropped; [next_io_context_] stays. *)
Definition stop (p : CIoContextPool) : CIoContextPool :=
  p <| works_ := [] |> <| io_contexts_list_ := [] |>.

(** The contexts of [k] calls in a row. *)
Fixpoint get_many (p : CIoContextPool) (k : nat) : outcome (list nat * CIoContextPool) :=
  match k with
  | O => Ok ([], p)
  | S k => let* '(c, p) := getIOContext p in let* '(cs, p) := get_many p k in Ok (c :: cs, p)
  end.

(** ** Which context is next *)

(** The [k]-th call (from 0): the first context once, then the others in turn. *)
Definition nth_context (n k : nat) : nat := match k with O => 0 | S k => S (k mod (n - 1)) end.

(** A pool of [n] contexts after [k] calls. *)
Definition pool_after (n k : nat) (p : CIoContextPool) : Prop :=
  io_contexts_list_ p = seq 0 n ∧ next_io_context_ p = Z.of_nat (nth_context n k).

Lemma nth_context_range n k : (2 <= n)%nat → (nth_context n k < n)%nat.
Proof. intros. destruct k as [|k]; cbn; [lia|]. pose proof (Nat.mod_upper_bound k (n - 1)). lia. Qed.

Lemma nth_context_next n k : (2 <= n)%nat →
  nth_context n (S k) = if bool_decide (S (nth_context n k) = n) then 1%nat else S (nth_context n k).
Proof.
  intros Hn. destruct k as [|k]; cbn.
  { rewrite Nat.Div0.mod_0_l. case_bool_decide; lia. }
  replace (S k) with (1 + k)%nat by lia. rewrite <- (Nat.Div0.add_mod_idemp_r 1 k).
  pose proof (Nat.mod_upper_bound k (n - 1)) as Hm. case_bool_decide as E.
  - replace (1 + k mod (n - 1))%nat with (n - 1)%nat by lia. by rewrite Nat.Div0.mod_same.
  - rewrite Nat.mod_small; lia.
Qed.

#[local] Arguments nth_context : simpl never.

Lemma get_after n k p : (2 <= n)%nat → Z.of_nat n < 2 ^ 64 → pool_after n k p →
  ∃ p', getIOContext p = Ok (nth_context n k, p') ∧ pool_after n (S k) p'.
Proof.
  intros Hn Hw [Hl Hx]. unfold getIOContext. rewrite Hx, Hl, Nat2Z.id. pose proof (nth_context_range n k Hn).
  rewrite (proj2 (lookup_seq 0 n (nth_context n k) (nth_context n k))) by lia. eexists. split; [done|]. split; [done|].
  cbn. unfold zlen. rewrite length_seq, u64_small by lia. rewrite (nth_context_next n k Hn).
  case_bool_decide as E.
  - rewrite (proj2 (Z.eqb_eq _ _)) by lia. done.
  - rewrite (proj2 (Z.eqb_neq _ _)) by lia. lia.
Qed.

Lemma get_many_after n m : ∀ k p, (2 <= n)%nat → Z.of_nat n < 2 ^ 64 → pool_after n k p →
  ∃ p', get_many p m = Ok (map (nth_context n) (seq k m), p') ∧ pool_after n (k + m) p'.
Proof.
  induction m as [|m IH]; intros k p Hn Hw Hp; cbn [get_many seq map].
  { exists p. by rewrite Nat.add_0_r. }
  destruct (get_after n k p Hn Hw Hp) as (p1 & -> & Hp1). cbn [obind]. destruct (IH (S k) p1 Hn Hw Hp1) as (p2 & -> & Hp2).
  exists p2. split; [done|]. by replace (k + S m)%nat with (S k + m)%nat by lia.
Qed.

Lemma get_many_threads k : ∀ p cs p', get_many p k = Ok (cs, p') → io_thread_list_ p' = io_thread_list_ p.
Proof.
  induction k as [|k IH]; intros p cs p'; cbn [get_many]; [by intros [= _ <-]|]. unfold getIOContext at 1.
  destruct (_ !! _) as [c|]; [|done]. cbn [obind]. destruct (get_many _ k) as [[cs' p2]|] eqn:E; [|done]. intros [= _ <-].
  by rewrite (IH _ _ _ E).
Qed.

(** The contexts are given out in turn.  In a pool of at least two contexts the first call gets the
    context 0, which is never given out again, and the calls after it go round the other contexts; no
    call indexes outside the vector, however many there are. *)
Theorem io_context_round_robin n k p :
  (2 <= n)%nat → Z.of_nat n < 2 ^ 64 → init CIoContextPool_new n = Some p →
  ∃ p', get_many p k = Ok (map (nth_context n) (seq 0 k), p').
Proof.
  intros Hn Hw Hi. destruct (get_many_after n k 0 p Hn Hw) as (p' & E & _); [|by exists p'].
  revert Hi. unfold init. case_bool_decide; [done|]. intros [= <-]. by split.
Qed.

Lemma io_context_round_robin_witness :
  ∃ p p', init CIoContextPool_new 3 = Some p ∧ get_many p 6 = Ok ([0; 1; 2; 1; 2; 1], p')%nat.
Proof.
  eexists. destruct (io_context_round_robin 3 6 (mkPool [0; 1; 2] 0 [0; 1; 2] [])%nat) as (p' & E); [lia|done|reflexivity|].
  exists p'. split; [reflexivity|exact E].
Defined.

(** A pool with one context gives it out once.  On a machine with one processor the second call
    indexes outside the vector. *)
Theorem io_context_single_faults p : init CIoContextPool_new 1 = Some p → get_many p 2 = Fault.
Proof. by intros [= <-]. Qed.
