(* ===== verification/Listeners.v ===== *)
(** * Listeners (src/PSS_ASIO/Common/NetSvrManager.{h,cpp}, IoListManager.h, IoNetServer.h,
      src/PSS_ASIO/TcpSession/TcpServer.{h,cpp})

    The manager keeps a table of listeners per protocol, starts the configured ones, and starts and
    closes single ones through tasks of the logic thread 0.  A listener is known by a handle; its sessions
    are not part of this model.  A TCP listener is owned by the table (its accept handler only keeps a raw
    pointer), so a handler that runs when nothing owns the listener any more uses freed memory, a fault;
    the handlers of the other listeners own them.

    The environment decides whether an address can be bound and what becomes of an accept. *)

From Stdlib Require Import ZArith Lia Ascii.
From S2P Require Import Prelude Define SessionCalls.
From stdpp Require Import base numbers list gmap strings pretty.
Local Open Scope Z_scope.

Notation handle := nat.

Record listener := mkListener {
  l_type : EM_CONNECT_IO_TYPE;
  l_ip : string;
  l_port : Z;                              (* uint16 *)
  l_open : bool;
  l_pending : nat;                         (* accepts or receives under way *)
}.

Inductive task :=
| TaskStart (netio : CConfigNetIO)
| TaskClose (netio : CConfigNetIO).

Record CTTyIO := mkTTyIO {
  tty_name_ : string;
  tty_port_ : Z;                           (* unsigned int *)
  char_size_ : Z;
  tty_packet_parse_id_ : Z;
  tty_recv_buff_size_ : Z;
  tty_send_buff_size_ : Z;
}.

Record CNetSvrManager := mkManager {
  tcp_service_list_ : gmap string handle;
  udp_service_list_ : gmap string handle;
  kcp_service_list_ : gmap string handle;
  tty_service_list_ : gmap string handle;
  (* the environment *)
  listeners : gmap handle listener;
  next_handle : handle;
  tasks : list task;                       (* logic thread 0 *)
  held : list handle;                      (* listeners a running task still owns *)
  accepted : list handle;                  (* the listener of each accepted connection *)
  events : list app_call;
}.

Definition CNetSvrManager_new : CNetSvrManager := mkManager ∅ ∅ ∅ ∅ ∅ 0 [] [] [] [].

Implicit Types (s : CNetSvrManager) (h : handle) (netio : CConfigNetIO).

Definition io_key (ip : string) (port : Z) : string := ip +:+ "_" +:+ pretty port.

Definition set_listener s h (f : listener → listener) : CNetSvrManager := s <| listeners := alter f h (listeners s) |>.

(** ** The interface CIo_List_Manager *)

Definition add_accept_net_io_event s (io_ip : string) (io_port : Z) (em_io_net_type : EM_CONNECT_IO_TYPE) h : CNetSvrManager :=
  let key := io_key io_ip io_port in
  match em_io_net_type with
  | CONNECT_IO_TCP => s <| tcp_service_list_ := <[key := h]> (tcp_service_list_ s) |>
  | CONNECT_IO_UDP => s <| udp_service_list_ := <[key := h]> (udp_service_list_ s) |>
  | CONNECT_IO_KCP => s <| udp_service_list_ := <[key := h]> (udp_service_list_ s) |>
  | CONNECT_IO_TTY => s <| tty_service_list_ := <[key := h]> (tty_service_list_ s) |>
  | _ => s
  end.

Definition del_accept_net_io_event s (io_ip : string) (io_port : Z) (em_io_net_type : EM_CONNECT_IO_TYPE) : CNetSvrManager :=
  let key := io_key io_ip io_port in
  match em_io_net_type with
  | CONNECT_IO_TCP => s <| tcp_service_list_ := delete key (tcp_service_list_ s) |>
  | CONNECT_IO_UDP => s <| udp_service_list_ := delete key (udp_service_list_ s) |>
  | CONNECT_IO_KCP => s <| kcp_service_list_ := delete key (kcp_service_list_ s) |>
  | CONNECT_IO_TTY => s <| tty_service_list_ := delete key (tty_service_list_ s) |>
  | _ => s
  end.

(** ** Starting *)

(** A new listener of the given type; it has not started anything yet. *)
Definition new_listener s (ty : EM_CONNECT_IO_TYPE) (ip : string) (port : Z) : handle * CNetSvrManager :=
  (next_handle s, s <| listeners := <[next_handle s := mkListener ty ip port true 0]> (listeners s) |> <| next_handle := S (next_handle s) |>).

(** One more accept or receive is under way. *)
Definition start_pending s h : CNetSvrManager := set_listener s h (λ l, l <| l_pending := S (l_pending l) |>).

(** CTcpServer: the constructor catches the error of an address that cannot be bound and leaves the
    acceptor null; [start] registers the listener and uses the acceptor. *)
Definition start_tcp s netio (bound : bool) : outcome CNetSvrManager :=
  let '(h, s) := new_listener s CONNECT_IO_TCP (ip_ netio) (port_ netio) in
  let s := add_accept_net_io_event s (ip_ netio) (port_ netio) CONNECT_IO_TCP h in
  if negb bound then Fault else Ok (start_pending s h).

(** CUdpServer: the constructor catches the error of an address that cannot be bound and the listener is
    started and registered on its unbound socket all the same. *)
Definition start_udp s netio (bound : bool) : outcome CNetSvrManager :=
  let '(h, s) := new_listener s CONNECT_IO_UDP (ip_ netio) (port_ netio) in
  Ok (start_pending (add_accept_net_io_event s (ip_ netio) (port_ netio) CONNECT_IO_UDP h) h).

(** CKcpServer: the constructor of the socket throws when the address cannot be bound, and nothing
    catches the exception. *)
Definition start_kcp s netio (bound : bool) : outcome CNetSvrManager :=
  if negb bound then Fault
  else let '(h, s) := new_listener s CONNECT_IO_KCP (ip_ netio) (port_ netio) in
       Ok (start_pending (add_accept_net_io_event s (ip_ netio) (port_ netio) CONNECT_IO_KCP h) h).

(** CTTyServer: a port that cannot be opened is reported and not registered. *)
Definition start_tty s (tty : CTTyIO) (opened : bool) : CNetSvrManager :=
  let port := u16 (tty_port_ tty) in
  let '(h, s) := new_listener s CONNECT_IO_TTY (tty_name_ tty) port in
  if negb opened then
    s <| events := events s ++ [FrameEvent LOGIC_LISTEN_SERVER_ERROR 0 (m_strClientIP ClientIPInfo_default)
                                  (m_u2Port ClientIPInfo_default) CONNECT_IO_TTY] |>
  else start_pending (add_accept_net_io_event s (tty_name_ tty) port CONNECT_IO_TTY h) h.

(** CTcpSSLServer, in a build with TLS: an address that cannot be bound leaves the acceptor null, and [start] uses it.
    No table takes the listener in, so that it is gone when the loop goes on ([TlsListener]). *)
Definition start_ssl s netio (bound : bool) : outcome CNetSvrManager :=
  let s := add_accept_net_io_event s (ip_ netio) (port_ netio) CONNECT_IO_SSL (next_handle s) in
  if negb bound then Fault else Ok s.

(** A listener with all TLS settings; in a build without TLS nothing is started for it. *)
Definition is_tls netio : bool :=
  negb (bool_decide (ssl_server_password_ netio = "")%string) && negb (bool_decide (ssl_server_pem_file_ netio = "")%string)
  && negb (bool_decide (ssl_dh_pem_file_ netio = "")%string).

(** The configuration, with whether each address can be bound, and whether the build has TLS (SSL_SUPPORT). *)
Record config := mkConfig {
  ssl_support : bool;
  config_tcp_list_ : list (CConfigNetIO * bool);
  config_udp_list_ : list (CConfigNetIO * bool);
  config_kcp_list_ : list (CConfigNetIO * bool);
  config_tty_list_ : list (CTTyIO * bool);
}.

Fixpoint start_list {A} (start : CNetSvrManager → A → bool → outcome CNetSvrManager) s (l : list (A * bool)) : outcome CNetSvrManager :=
  match l with
  | [] => Ok s
  | (netio, bound) :: l => let* s := start s netio bound in start_list start s l
  end.

Definition start_default_service s (c : config) : outcome CNetSvrManager :=
  let* s := start_list (λ s netio bound, if is_tls netio then if ssl_support c then start_ssl s netio bound else Ok s
                                         else start_tcp s netio bound) s (config_tcp_list_ c) in
  let* s := start_list start_udp s (config_udp_list_ c) in
  let* s := start_list start_kcp s (config_kcp_list_ c) in
  start_list (λ s tty opened, Ok (start_tty s tty opened)) s (config_tty_list_ c).

Definition start_single_service s netio : CNetSvrManager :=
  let key := io_key (ip_ netio) (port_ netio) in
  let is_find := match protocol_type_ netio with
                 | CONNECT_IO_TCP => bool_decide (is_Some (tcp_service_list_ s !! key))
                 | CONNECT_IO_UDP => bool_decide (is_Some (udp_service_list_ s !! key))
                 | _ => false
                 end in
  if is_find then s
  else match protocol_type_ netio with
       | CONNECT_IO_TCP | CONNECT_IO_UDP => s <| tasks := tasks s ++ [TaskStart netio] |>
       | _ => s
       end.

(** ** Closing *)

Definition close_single_service s netio : CNetSvrManager :=
  match protocol_type_ netio with
  | CONNECT_IO_TCP | CONNECT_IO_UDP => s <| tasks := tasks s ++ [TaskClose netio] |>
  | _ => s
  end.

(** [close] of a listener: what is under way will complete with an error. *)
Definition close_listener s h : CNetSvrManager := set_listener s h (λ l, l <| l_open := false |>).

(** The task of [close_single_service] up to the end of its body; it owns the listener until it returns. *)
Definition run_close s netio : CNetSvrManager :=
  let key := io_key (ip_ netio) (port_ netio) in
  match protocol_type_ netio with
  | CONNECT_IO_TCP =>
      match tcp_service_list_ s !! key with
      | Some h => close_listener (s <| tcp_service_list_ := delete key (tcp_service_list_ s) |> <| held := h :: held s |>) h
      | None => s
      end
  | CONNECT_IO_UDP =>
      match udp_service_list_ s !! key with
      | Some h => close_listener (s <| udp_service_list_ := delete key (udp_service_list_ s) |> <| held := h :: held s |>) h
      | None => s
      end
  | _ => s
  end.

(** The oldest task of the logic thread 0; it starts after the task before it has returned. *)
Definition run_task s (bound : bool) : outcome CNetSvrManager :=
  match tasks s with
  | [] => Ok s
  | t :: ts =>
      let s := s <| tasks := ts |> <| held := [] |> in
      match t with
      | TaskStart netio =>
          match protocol_type_ netio with
          | CONNECT_IO_TCP => start_tcp s netio bound
          | CONNECT_IO_UDP => start_udp s netio bound
          | _ => Ok s
          end
      | TaskClose netio => Ok (run_close s netio)
      end
  end.

(** The running task returns. *)
Definition task_returns s : CNetSvrManager := s <| held := [] |>.

Definition close_accept_list s (io_listen_list : list handle) : CNetSvrManager := foldl close_listener s io_listen_list.

(** [close_all_service]; the order inside a table is that of a hash map. *)
Definition close_all_service s : CNetSvrManager :=
  let s := close_accept_list s (map snd (map_to_list (tcp_service_list_ s))) in
  let s := close_accept_list s (map snd (map_to_list (kcp_service_list_ s))) in
  let s := close_accept_list s (map snd (map_to_list (udp_service_list_ s))) in
  let s := close_accept_list s (map snd (map_to_list (tty_service_list_ s))) in
  s <| tcp_service_list_ := ∅ |> <| kcp_service_list_ := ∅ |> <| udp_service_list_ := ∅ |>.

(** ** What the I/O threads do *)

(** The completion of an accept: a connection that could be opened, one that was gone before its address
    could be asked for, or an error. *)
Inductive accept_result := Accepted | OpenThrows | AcceptError.

(** Some table or a running task owns the TCP listener. *)
Definition owned s h : bool := bool_decide (h ∈ map snd (map_to_list (tcp_service_list_ s)) ++ held s).

Definition send_accept_listen_fail s (l : listener) : CNetSvrManager :=
  del_accept_net_io_event
    (s <| events := events s ++ [FrameEvent LOGIC_LISTEN_SERVER_ERROR 0 (l_ip l) (l_port l) CONNECT_IO_TCP] |>)
    (l_ip l) (l_port l) CONNECT_IO_TCP.

(** The accept handler of CTcpServer. *)
Definition accept_completes s h (r : accept_result) : outcome CNetSvrManager :=
  match listeners s !! h with
  | Some l =>
      match l_type l, l_pending l with
      | CONNECT_IO_TCP, S n =>
          if negb (owned s h) then Fault
          else
            let s := set_listener s h (λ l, l <| l_pending := n |>) in
            match r with
            | Accepted => Ok (start_pending (s <| accepted := accepted s ++ [h] |>) h)
            | OpenThrows => Ok s
            | AcceptError => Ok (send_accept_listen_fail s l)
            end
      | _, _ => Ok s
      end
  | None => Ok s
  end.

(** The failed receive of a UDP, KCP or serial listener; only the KCP listener asks to be taken out of its table. *)
Definition receive_fails s h : CNetSvrManager :=
  match listeners s !! h with
  | Some l =>
      match l_type l, l_pending l with
      | CONNECT_IO_UDP as ty, S n | CONNECT_IO_KCP as ty, S n | CONNECT_IO_TTY as ty, S n =>
          let s := set_listener s h (λ l, l <| l_pending := n |>) in
          let s := s <| events := events s ++ [FrameEvent LOGIC_LISTEN_SERVER_ERROR 0 (l_ip l) (l_port l) ty] |> in
          match ty with CONNECT_IO_KCP => del_accept_net_io_event s (l_ip l) (l_port l) ty | _ => s end
      | _, _ => s
      end
  | None => s
  end.

(** ** Steps *)

Inductive manager_op :=
| MDefault (c : config)
| MStart (netio : CConfigNetIO)
| MClose (netio : CConfigNetIO)
| MTask (bound : bool)
| MTaskReturns
| MAccept (h : handle) (r : accept_result)
| MReceiveFails (h : handle)
| MCloseAll.

Definition manager_step s (o : manager_op) : outcome CNetSvrManager :=
  match o with
  | MDefault c => start_default_service s c
  | MStart netio => Ok (start_single_service s netio)
  | MClose netio => Ok (close_single_service s netio)
  | MTask bound => run_task s bound
  | MTaskReturns => Ok (task_returns s)
  | MAccept h r => accept_completes s h r
  | MReceiveFails h => Ok (receive_fails s h)
  | MCloseAll => Ok (close_all_service s)
  end.

Fixpoint manager_run s (os : list manager_op) : outcome CNetSvrManager :=
  match os with [] => Ok s | o :: os => let* s := manager_step s o in manager_run s os end.

(** ** Keys *)

Definition underscore : Ascii.ascii := "_"%char.

Fixpoint has_char (c : Ascii.ascii) (t : string) : bool :=
  match t with EmptyString => false | String c' t => bool_decide (c = c') || has_char c t end.

Lemma has_char_app c t1 t2 : has_char c (t1 +:+ t2) = has_char c t1 || has_char c t2.
Proof.
  induction t1 as [|c1 t1 IH]; [done|]. change (String c1 t1 +:+ t2) with (String c1 (t1 +:+ t2)). cbn [has_char]. by rewrite IH, orb_assoc.
Qed.

Lemma digit_no_underscore x : bool_decide (underscore = pretty_N_char x) = false.
Proof. unfold pretty_N_char. by repeat case_match. Qed.

Lemma pretty_N_go_no_underscore x : ∀ t, has_char underscore t = false → has_char underscore (pretty_N_go x t) = false.
Proof.
  induction (N.lt_wf_0 x) as [x _ IH]. intros t Ht. assert (x = 0 ∨ 0 < x)%N as [->|Hx] by lia; [by rewrite pretty_N_go_0|].
  rewrite pretty_N_go_step by done. apply IH; [apply N.div_lt; lia|]. cbn [has_char]. by rewrite digit_no_underscore.
Qed.

Lemma pretty_N_no_underscore (x : N) : has_char underscore (pretty x) = false.
Proof. unfold pretty, pretty_N. case_decide; [done|]. by apply pretty_N_go_no_underscore. Qed.

Lemma pretty_no_underscore (port : Z) : has_char underscore (pretty port) = false.
Proof. destruct port as [|p|p]; [done|apply (pretty_N_no_underscore (Npos p))|]. exact (pretty_N_no_underscore (Npos p)). Qed.

Lemma split_underscore t1 : ∀ t2 d1 d2, has_char underscore d1 = false → has_char underscore d2 = false →
  t1 +:+ "_" +:+ d1 = t2 +:+ "_" +:+ d2 → t1 = t2 ∧ d1 = d2.
Proof.
  induction t1 as [|c t1 IH]; intros [|c' t2] d1 d2 H1 H2 E.
  - change (String underscore d1 = String underscore d2) in E. by injection E as ->.
  - change (String underscore d1 = String c' (t2 +:+ "_" +:+ d2)) in E. injection E as _ ->. by rewrite !has_char_app, orb_true_r in H1.
  - change (String c (t1 +:+ "_" +:+ d1) = String underscore d2) in E. injection E as _ <-. by rewrite !has_char_app, orb_true_r in H2.
  - change (String c (t1 +:+ "_" +:+ d1) = String c' (t2 +:+ "_" +:+ d2)) in E. injection E as -> E. by destruct (IH t2 d1 d2 H1 H2 E) as [-> ->].
Qed.

(** Different addresses have different keys. *)
Lemma io_key_inj ip1 port1 ip2 port2 : io_key ip1 port1 = io_key ip2 port2 → ip1 = ip2 ∧ port1 = port2.
Proof.
  intros E. destruct (split_underscore ip1 ip2 (pretty port1) (pretty port2)) as [-> Hp]; [apply pretty_no_underscore..|exact E|].
  split; [done|]. by apply (inj pretty).
Qed.

(** ** The tables *)

Definition registered (ls : gmap handle listener) (tbl : gmap string handle) (P : listener → Prop) : Prop :=
  ∀ key h, tbl !! key = Some h → ∃ l, ls !! h = Some l ∧ io_key (l_ip l) (l_port l) = key ∧ P l.

Definition is_tcp (l : listener) : Prop := l_type l = CONNECT_IO_TCP.
Definition is_datagram (l : listener) : Prop := l_type l = CONNECT_IO_UDP ∨ l_type l = CONNECT_IO_KCP.
Definition is_tty (l : listener) : Prop := l_type l = CONNECT_IO_TTY.

Lemma registered_delete ls tbl P key : registered ls tbl P → registered ls (delete key tbl) P.
Proof. intros H k h [_ Hk]%lookup_delete_Some. by apply H. Qed.

Lemma registered_once ls tbl P key key' h : registered ls tbl P → tbl !! key = Some h → tbl !! key' = Some h → key = key'.
Proof. intros H Hk Hk'. destruct (H key h Hk) as (l & Hl & <- & _). destruct (H key' h Hk') as (l' & Hl' & <- & _). congruence. Qed.

Lemma registered_empty ls P : registered ls ∅ P.
Proof. intros k h Hk. by rewrite lookup_empty in Hk. Qed.

Lemma registered_insert ls tbl P key h l : registered ls tbl P → ls !! h = Some l → io_key (l_ip l) (l_port l) = key → P l →
  registered ls (<[key := h]> tbl) P.
Proof. intros H Hl Hk HP k h' [[<- <-]|[_ Hk']]%lookup_insert_Some; [by eauto|by apply H]. Qed.

(** Changes of a listener that keep its address and the property. *)
Lemma registered_alter ls tbl (P : listener → Prop) h f :
  (∀ l, ls !! h = Some l → l_ip (f l) = l_ip l ∧ l_port (f l) = l_port l ∧ (P l → P (f l))) → registered ls tbl P → registered (alter f h ls) tbl P.
Proof.
  intros Hf H k h' Hk. destruct (H k h' Hk) as (l & Hl & Hkey & HP). destruct (decide (h = h')) as [->|Hne].
  - exists (f l). rewrite lookup_alter_eq, Hl. destruct (Hf l Hl) as (-> & -> & ?). auto.
  - exists l. by rewrite lookup_alter_ne.
Qed.

(** Adding a listener under a handle that is not in use. *)
Lemma registered_new ls tbl P h l : ls !! h = None → registered ls tbl P → registered (<[h := l]> ls) tbl P.
Proof.
  intros Hn H k h' Hk. destruct (H k h' Hk) as (l' & Hl' & ?). exists l'. rewrite lookup_insert_ne; [done|]. intros ->. by rewrite Hn in Hl'.
Qed.

(** [T] is what holds of the registered TCP listeners. *)
Record manager_inv (T : listener → Prop) s : Prop := {
  m_tcp : registered (listeners s) (tcp_service_list_ s) (λ l, is_tcp l ∧ T l);
  m_udp : registered (listeners s) (udp_service_list_ s) is_datagram;
  m_tty : registered (listeners s) (tty_service_list_ s) is_tty;
  m_kcp : kcp_service_list_ s = ∅;
  m_next : ∀ h, is_Some (listeners s !! h) → (h < next_handle s)%nat;
}.

Lemma manager_fresh T s : manager_inv T s → listeners s !! next_handle s = None.
Proof. intros Hi. apply eq_None_not_Some. intros H%(m_next _ _ Hi). lia. Qed.

Lemma alter_some {A} (f : A → A) (m : gmap handle A) h h' : is_Some (alter f h m !! h') → is_Some (m !! h').
Proof. rewrite lookup_alter_is_Some. done. Qed.

Lemma set_listener_inv T s h f : manager_inv T s →
  (∀ l, l_ip (f l) = l_ip l ∧ l_port (f l) = l_port l ∧ l_type (f l) = l_type l) →
  (∀ l key, listeners s !! h = Some l → is_tcp l → T l → tcp_service_list_ s !! key = Some h → T (f l)) →
  manager_inv T (set_listener s h f).
Proof.
  intros [H1 H2 H3 H4 H5] Hf HT. split; cbn; try done.
  - intros k h' Hk. destruct (H1 k h' Hk) as (l & Hl & Hkey & Htcp & Hl'). destruct (decide (h = h')) as [->|Hne].
    + exists (f l). rewrite lookup_alter_eq, Hl. destruct (Hf l) as (-> & -> & Ht). split; [done|]. split; [done|]. split; [unfold is_tcp; by rewrite Ht|by eapply HT].
    + exists l. by rewrite lookup_alter_ne.
  - apply registered_alter; [|done]. intros l _. destruct (Hf l) as (-> & -> & Ht). unfold is_datagram. by rewrite Ht.
  - apply registered_alter; [|done]. intros l _. destruct (Hf l) as (-> & -> & Ht). unfold is_tty. by rewrite Ht.
  - intros h' Hs%alter_some. by apply H5.
Qed.

Lemma del_accept_inv T s ip port ty : manager_inv T s → manager_inv T (del_accept_net_io_event s ip port ty).
Proof. intros [H1 H2 H3 H4 H5]. destruct ty; split; cbn; try done; try (by apply registered_delete). by rewrite H4, delete_empty. Qed.

(** A listener that was started: registered, with one accept or receive under way. *)
Lemma started_inv T s ty ip port : manager_inv T s → T (mkListener ty ip port true 1) →
  ty = CONNECT_IO_TCP ∨ ty = CONNECT_IO_UDP ∨ ty = CONNECT_IO_KCP ∨ ty = CONNECT_IO_TTY →
  manager_inv T (start_pending (add_accept_net_io_event (snd (new_listener s ty ip port)) ip port ty (next_handle s)) (next_handle s)).
Proof.
  intros Hi HT Hty. pose proof (manager_fresh T s Hi) as Hfresh. destruct Hi as [H1 H2 H3 H4 H5].
  set (l := mkListener ty ip port true 1).
  assert (Hl : <[next_handle s := l]> (listeners s) !! next_handle s = Some l) by (by rewrite lookup_insert_eq).
  assert (Hnext : ∀ h, is_Some (<[next_handle s := l]> (listeners s) !! h) → (h < S (next_handle s))%nat).
  { intros h. rewrite lookup_insert_is_Some'. intros [<-|Hs]; [lia|]. apply H5 in Hs. lia. }
  destruct Hty as [->|[->|[->| ->]]]; split; cbn; rewrite ?alter_insert_eq; cbn; fold l;
    try done; try (by apply registered_new); (eapply registered_insert; [by apply registered_new|exact Hl|done|]).
  - done.
  - by left.
  - by right.
  - done.
Qed.

(** What is kept of the registered TCP listeners holds when they are started and whatever else they do. *)
Class TcpProp (T : listener → Prop) := {
  tp_started : ∀ ty ip port, T (mkListener ty ip port true 1);
  tp_close : ∀ l, T l → T (l <| l_open := false |>);
}.

Section Tables.

Context (T : listener → Prop) `{!TcpProp T}.

Lemma start_tcp_inv s netio bound s' : manager_inv T s → start_tcp s netio bound = Ok s' → manager_inv T s'.
Proof.
  intros Hi. unfold start_tcp. cbn [new_listener]. destruct bound; [|done]. intros [= <-].
  apply (started_inv T s CONNECT_IO_TCP (ip_ netio) (port_ netio)); [done|apply tp_started|tauto].
Qed.

Lemma start_udp_inv s netio bound s' : manager_inv T s → start_udp s netio bound = Ok s' → manager_inv T s'.
Proof.
  intros Hi. unfold start_udp. cbn [new_listener]. intros [= <-].
  apply (started_inv T s CONNECT_IO_UDP (ip_ netio) (port_ netio)); [done|apply tp_started|tauto].
Qed.

Lemma start_kcp_inv s netio bound s' : manager_inv T s → start_kcp s netio bound = Ok s' → manager_inv T s'.
Proof.
  intros Hi. unfold start_kcp. destruct bound; [|done]. cbn [negb new_listener]. intros [= <-].
  apply (started_inv T s CONNECT_IO_KCP (ip_ netio) (port_ netio)); [done|apply tp_started|tauto].
Qed.

Lemma start_tty_inv s tty opened : manager_inv T s → manager_inv T (start_tty s tty opened).
Proof.
  intros Hi. unfold start_tty. cbn [new_listener]. destruct opened; cbn [negb].
  { apply (started_inv T s CONNECT_IO_TTY (tty_name_ tty) (u16 (tty_port_ tty))); [done|apply tp_started|tauto]. }
  pose proof (manager_fresh T s Hi). destruct Hi as [H1 H2 H3 H4 H5]. split; cbn; try (by apply registered_new); [done|].
  intros h. rewrite lookup_insert_is_Some'. intros [<-|Hs]; [lia|]. apply H5 in Hs. lia.
Qed.

Lemma start_list_inv {A} (start : CNetSvrManager → A → bool → outcome CNetSvrManager) l : ∀ s s',
  (∀ s x b s', manager_inv T s → start s x b = Ok s' → manager_inv T s') →
  manager_inv T s → start_list start s l = Ok s' → manager_inv T s'.
Proof.
  induction l as [|[x b] l IH]; intros s s' Hst Hi; cbn [start_list]; [by intros [= <-]|].
  destruct (start s x b) as [s1|] eqn:E; cbn [obind]; [|done]. apply IH; [done|]. by eapply Hst.
Qed.

Lemma default_inv s c s' : manager_inv T s → start_default_service s c = Ok s' → manager_inv T s'.
Proof.
  intros Hi. unfold start_default_service. destruct (start_list _ s (config_tcp_list_ c)) as [s1|] eqn:E1; cbn [obind]; [|done].
  apply start_list_inv in E1; [|intros s0 x b s2 Hi0; destruct (is_tls x); [|by apply start_tcp_inv]; destruct (ssl_support c); [destruct b|]; by intros [= <-]|done].
  destruct (start_list _ s1 _) as [s2|] eqn:E2; cbn [obind]; [|done]. apply start_list_inv in E2; [|apply start_udp_inv|done].
  destruct (start_list _ s2 _) as [s3|] eqn:E3; cbn [obind]; [|done]. apply start_list_inv in E3; [|apply start_kcp_inv|done].
  intros E4. apply start_list_inv in E4; [done| |done]. intros s0 x b s4 Hi0 [= <-]. by apply start_tty_inv.
Qed.

Lemma close_listener_inv s h : manager_inv T s → manager_inv T (close_listener s h).
Proof. intros Hi. apply set_listener_inv; [done..|]. intros l key _ _ HT _. by apply tp_close. Qed.

Lemma close_accept_list_inv l : ∀ s, manager_inv T s → manager_inv T (close_accept_list s l).
Proof. induction l as [|h l IH]; intros s Hi; [done|]. apply IH. by apply close_listener_inv. Qed.

Lemma close_all_inv s : manager_inv T s → manager_inv T (close_all_service s).
Proof.
  intros Hi. unfold close_all_service.
  assert (Hclear : ∀ x, manager_inv T x →
    manager_inv T (x <| tcp_service_list_ := ∅ |> <| kcp_service_list_ := ∅ |> <| udp_service_list_ := ∅ |>)).
  { intros x []. split; cbn; try done; apply registered_empty. }
  by apply Hclear, close_accept_list_inv, close_accept_list_inv, close_accept_list_inv, close_accept_list_inv.
Qed.

Lemma run_close_inv s netio : manager_inv T s → manager_inv T (run_close s netio).
Proof.
  intros Hi. unfold run_close. destruct (protocol_type_ netio); try done.
  - destruct (tcp_service_list_ s !! _) as [h|]; [|done]. apply close_listener_inv. destruct Hi. split; try done. by apply registered_delete.
  - destruct (udp_service_list_ s !! _) as [h|]; [|done]. apply close_listener_inv. destruct Hi. split; try done. by apply registered_delete.
Qed.

Lemma run_task_inv s bound s' : manager_inv T s → run_task s bound = Ok s' → manager_inv T s'.
Proof.
  intros Hi. unfold run_task. destruct (tasks s) as [|t ts]; [by intros [= <-]|].
  assert (Hi0 : manager_inv T (s <| tasks := ts |> <| held := [] |>)) by (by destruct Hi).
  destruct t as [netio|netio]; [|intros [= <-]; by apply run_close_inv].
  destruct (protocol_type_ netio); try (by intros [= <-]); [by apply start_tcp_inv|by apply start_udp_inv].
Qed.

(** What else the environment must respect for [T]: an accept that completes leaves it. *)
Definition accept_keeps (r : accept_result) : Prop :=
  match r with
  | Accepted => ∀ l n, l_pending l = S n → T l → T (l <| l_pending := S n |>)
  | OpenThrows => ∀ l n, l_pending l = S n → T l → T (l <| l_pending := n |>)
  | AcceptError => True
  end.

Lemma accept_inv s h r s' : manager_inv T s → accept_keeps r → accept_completes s h r = Ok s' → manager_inv T s'.
Proof.
  intros Hi Hr. unfold accept_completes. destruct (listeners s !! h) as [l|] eqn:El; [|by intros [= <-]].
  destruct (l_type l) eqn:Et; try (by intros [= <-]). destruct (l_pending l) as [|n] eqn:Ep; [by intros [= <-]|].
  destruct (owned s h); cbn [negb]; [|done]. destruct r.
  - intros [= <-].
    pose proof (set_listener_inv T s h (λ l, l <| l_pending := S n |>) Hi) as Hset.
    destruct Hset as [H1 H2 H3 H4 H5]; [done| |split; try done; cbn; rewrite alter_alter_eq; [exact H1|exact H2|exact H3|exact H5]].
    intros l' key Hl' _ HT _. rewrite El in Hl'. injection Hl' as <-. by apply Hr.
  - intros [= <-]. apply set_listener_inv; [done..|]. intros l' key Hl' _ HT _. rewrite El in Hl'. injection Hl' as <-. by apply Hr.
  - intros [= <-].
    change (manager_inv T (set_listener (send_accept_listen_fail s l) h (λ l, l <| l_pending := n |>))).
    apply set_listener_inv; [|done|].
    + apply (del_accept_inv T (s <| events := _ |>) (l_ip l) (l_port l) CONNECT_IO_TCP). by destruct Hi.
    + intros l' key Hl' _ _ Hk. cbn in Hk. apply lookup_delete_Some in Hk as [Hne Hk].
      destruct (m_tcp _ _ Hi key h Hk) as (l2 & Hl2 & Hkey & _). rewrite El in Hl2. injection Hl2 as <-. done.
Qed.

Lemma receive_fails_inv s h : manager_inv T s → manager_inv T (receive_fails s h).
Proof.
  intros Hi. unfold receive_fails. destruct (listeners s !! h) as [l|] eqn:El; [|done].
  assert (Hset : ∀ n, l_type l ≠ CONNECT_IO_TCP → manager_inv T (set_listener s h (λ l, l <| l_pending := n |>))).
  { intros n Hne. apply set_listener_inv; [done..|]. intros l' key Hl' Htcp _ _. rewrite El in Hl'. by injection Hl' as <-. }
  assert (Hev : ∀ x ev, manager_inv T x → manager_inv T (x <| events := ev |>)) by (intros x ev []; by split).
  destruct (l_type l) eqn:Et; try done; (destruct (l_pending l) as [|n]; [done|]); try apply del_accept_inv; by apply Hev, Hset.
Qed.

Definition op_keeps (o : manager_op) : Prop := match o with MAccept _ r => accept_keeps r | _ => True end.

Lemma manager_step_inv s o s' : manager_inv T s → op_keeps o → manager_step s o = Ok s' → manager_inv T s'.
Proof.
  intros Hi Ho. destruct o as [c|netio|netio|bound| |h r|h|]; cbn [manager_step].
  - by apply default_inv.
  - intros [= <-]. unfold start_single_service. case_match; [done|]. case_match; try done; by destruct Hi.
  - intros [= <-]. unfold close_single_service. case_match; try done; by destruct Hi.
  - by apply run_task_inv.
  - intros [= <-]. by destruct Hi.
  - by apply accept_inv.
  - intros [= <-]. by apply receive_fails_inv.
  - intros [= <-]. by apply close_all_inv.
Qed.

Lemma manager_run_inv os : ∀ s s', manager_inv T s → Forall op_keeps os → manager_run s os = Ok s' → manager_inv T s'.
Proof.
  induction os as [|o os IH]; intros s s' Hi Hos; cbn [manager_run]; [by intros [= <-]|]. apply Forall_cons in Hos as [Ho Hos].
  destruct (manager_step s o) as [s1|] eqn:E; cbn [obind]; [|done]. apply IH; [|done]. by eapply manager_step_inv.
Qed.

Lemma new_inv : manager_inv T CNetSvrManager_new.
Proof. split; [apply registered_empty..|done|]. intros h [? Hh]. done. Qed.

End Tables.

#[export] Instance any_listener : TcpProp (λ _, True).
Proof. by split. Qed.

Definition accepting (l : listener) : Prop := l_pending l = 1%nat.

#[local] Instance accepting_listener : TcpProp accepting.
Proof. split; [done|]. by intros l. Qed.

Definition no_throw (o : manager_op) : Prop := match o with MAccept _ OpenThrows => False | _ => True end.

Lemma any_run os s : manager_run CNetSvrManager_new os = Ok s → manager_inv (λ _, True) s.
Proof.
  intros E. eapply manager_run_inv; [apply _|apply new_inv; apply _| |exact E]. apply Forall_forall. intros o _. destruct o as [| | | | |h []| |]; done.
Qed.

Lemma accepting_run os s : manager_run CNetSvrManager_new os = Ok s → Forall no_throw os → manager_inv accepting s.
Proof.
  intros E Hn. eapply manager_run_inv; [apply _|apply new_inv; apply _| |exact E]. eapply Forall_impl; [exact Hn|].
  intros o. destruct o as [| | | | |h' []| |]; try done. intros _ l n Hl HT. unfold accepting in *. cbn. congruence.
Qed.

(** C20: the tables of listeners are sound.  In every state that a sequence of starts, closes, tasks, accepts, failures and
    close_all_service leads to without a fault: every entry of the TCP table, of the UDP table and of the serial table is a listener
    that was made, of the kind of the table (the UDP table also holds the KCP listeners) and with the address that is the key of the entry, so no listener is in a
    table twice; the KCP table is always empty, in spite of its name; and as long as no
    accepted connection was gone before it could be opened, every TCP listener in the table has exactly
    one accept under way.  Nothing is said of the health of the other listeners: one whose receive failed
    stays in its table ([failed_listener_stays_listed]). *)
Theorem listener_tables_sound os s :
  manager_run CNetSvrManager_new os = Ok s →
  (∀ key h, tcp_service_list_ s !! key = Some h → ∃ l, listeners s !! h = Some l ∧ l_type l = CONNECT_IO_TCP ∧ io_key (l_ip l) (l_port l) = key) ∧
  (∀ key h, udp_service_list_ s !! key = Some h →
     ∃ l, listeners s !! h = Some l ∧ (l_type l = CONNECT_IO_UDP ∨ l_type l = CONNECT_IO_KCP) ∧ io_key (l_ip l) (l_port l) = key) ∧
  (∀ key h, tty_service_list_ s !! key = Some h → ∃ l, listeners s !! h = Some l ∧ l_type l = CONNECT_IO_TTY ∧ io_key (l_ip l) (l_port l) = key) ∧
  (∀ tbl key key' h, tbl ∈ [tcp_service_list_ s; udp_service_list_ s; tty_service_list_ s] →
     tbl !! key = Some h → tbl !! key' = Some h → key = key') ∧
  kcp_service_list_ s = ∅ ∧
  (Forall no_throw os → ∀ key h, tcp_service_list_ s !! key = Some h → l_pending <$> listeners s !! h = Some 1%nat).
Proof.
  intros E. pose proof (any_run os s E) as [H1 H2 H3 H4 H5]. split_and!.
  - intros key h Hk. destruct (H1 key h Hk) as (l & ? & ? & ? & _). eauto.
  - intros key h Hk. destruct (H2 key h Hk) as (l & ? & ? & ?). eauto.
  - intros key h Hk. destruct (H3 key h Hk) as (l & ? & ? & ?). eauto.
  - intros tbl key key' h Hin. rewrite !elem_of_cons, elem_of_nil in Hin.
    destruct Hin as [->|[->|[->|[]]]]; [eapply registered_once, H1|eapply registered_once, H2|eapply registered_once, H3].
  - done.
  - intros Hn key h Hk. pose proof (accepting_run os s E Hn) as Hi.
    destruct (m_tcp _ _ Hi key h Hk) as (l & -> & _ & _ & Hp). cbn. by rewrite Hp.
Qed.

(** ** Closing all *)

Lemma close_list_closes l : ∀ s h, h ∈ l ∨ l_open <$> listeners s !! h = Some false → is_Some (listeners s !! h) →
  l_open <$> listeners (close_accept_list s l) !! h = Some false.
Proof.
  induction l as [|h0 l IH]; intros s h Hh Hs; cbn [close_accept_list foldl].
  { destruct Hh as [Hh|Hh]; [by apply elem_of_nil in Hh|done]. }
  apply IH; cbn.
  - destruct (decide (h0 = h)) as [->|Hne].
    + right. rewrite lookup_alter_eq. by destruct Hs as [x ->].
    + rewrite lookup_alter_ne by done. destruct Hh as [[->|Hh]%elem_of_cons|Hh]; [done|by left|by right].
  - by rewrite lookup_alter_is_Some.
Qed.

Lemma close_list_known l : ∀ s h, is_Some (listeners s !! h) → is_Some (listeners (close_accept_list s l) !! h).
Proof. induction l as [|h0 l IH]; intros s h Hs; [done|]. apply IH. cbn. by rewrite lookup_alter_is_Some. Qed.

Lemma close_list_tables l : ∀ s, tcp_service_list_ (close_accept_list s l) = tcp_service_list_ s ∧
  udp_service_list_ (close_accept_list s l) = udp_service_list_ s ∧ tty_service_list_ (close_accept_list s l) = tty_service_list_ s.
Proof. induction l as [|h0 l IH]; intros s; [done|]. exact (IH (close_listener s h0)). Qed.

(** [close_all_service] closes every listener of the tables; the serial table keeps its entries. *)
Lemma close_all_closes T s : manager_inv T s →
  (∀ tbl key h, tbl ∈ [tcp_service_list_ s; udp_service_list_ s; tty_service_list_ s] → tbl !! key = Some h →
     l_open <$> listeners (close_all_service s) !! h = Some false) ∧
  tty_service_list_ (close_all_service s) = tty_service_list_ s.
Proof.
  intros [H1 H2 H3 _ _]. unfold close_all_service.
  set (s1 := close_accept_list s _). destruct (close_list_tables (map snd (map_to_list (tcp_service_list_ s))) s) as (T1 & U1 & Y1). fold s1 in T1, U1, Y1.
  set (s2 := close_accept_list s1 _). destruct (close_list_tables (map snd (map_to_list (kcp_service_list_ s1))) s1) as (T2 & U2 & Y2). fold s2 in T2, U2, Y2.
  set (s3 := close_accept_list s2 _). destruct (close_list_tables (map snd (map_to_list (udp_service_list_ s2))) s2) as (T3 & U3 & Y3). fold s3 in T3, U3, Y3.
  set (s4 := close_accept_list s3 _). destruct (close_list_tables (map snd (map_to_list (tty_service_list_ s3))) s3) as (T4 & U4 & Y4). fold s4 in T4, U4, Y4.
  split; [|cbn; congruence]. intros tbl key h Hin Hk. cbn.
  assert (Hs : is_Some (listeners s !! h)).
  { rewrite !elem_of_cons, elem_of_nil in Hin.
    destruct Hin as [->|[->|[->|[]]]]; [destruct (H1 key h Hk) as (l & -> & _)|destruct (H2 key h Hk) as (l & -> & _)|destruct (H3 key h Hk) as (l & -> & _)]; by eexists. }
  pose proof (close_list_known (map snd (map_to_list (tcp_service_list_ s))) s h Hs) as Hs1. fold s1 in Hs1.
  pose proof (close_list_known (map snd (map_to_list (kcp_service_list_ s1))) s1 h Hs1) as Hs2. fold s2 in Hs2.
  pose proof (close_list_known (map snd (map_to_list (udp_service_list_ s2))) s2 h Hs2) as Hs3. fold s3 in Hs3.
  assert (Hel : h ∈ map snd (map_to_list tbl)) by (apply list_elem_of_fmap; exists (key, h); split; [done|by apply elem_of_map_to_list]).
  rewrite !elem_of_cons, elem_of_nil in Hin.
  destruct Hin as [->|[->|[->|[]]]].
  - apply close_list_closes; [right|done]. apply close_list_closes; [right|done]. apply close_list_closes; [right|done].
    apply close_list_closes; [by left|done].
  - apply close_list_closes; [right|done]. apply close_list_closes; [left|done]. by rewrite U2, U1.
  - apply close_list_closes; [left|done]. by rewrite Y3, Y2, Y1.
Qed.

(** ** Examples *)

Definition demo_tcp : CConfigNetIO := CConfigNetIO_default <| ip_ := "0.0.0.0"%string |> <| port_ := 10002 |>.
Definition demo_udp : CConfigNetIO := CConfigNetIO_default <| ip_ := "0.0.0.0"%string |> <| port_ := 10005 |> <| protocol_type_ := CONNECT_IO_UDP |>.
Definition demo_config : config := mkConfig false [(demo_tcp, true)] [] [(demo_udp, true)] [(mkTTyIO "/dev/ttyS0" 9600 8 1 64 64, true)].
Definition demo_ops : list manager_op := [MDefault demo_config; MAccept 0 Accepted; MStart demo_udp; MReceiveFails 2; MAccept 0 Accepted].
Definition demo_state : CNetSvrManager := match manager_run CNetSvrManager_new demo_ops with Ok s => s | Fault => CNetSvrManager_new end.

Lemma listener_tables_sound_witness :
  manager_run CNetSvrManager_new demo_ops = Ok demo_state ∧
  (∀ key h, tcp_service_list_ demo_state !! key = Some h → l_pending <$> listeners demo_state !! h = Some 1%nat) ∧
  tcp_service_list_ demo_state !! io_key "0.0.0.0" 10002 = Some 0%nat ∧ accepted demo_state = [0; 0]%nat.
Proof.
  assert (E : manager_run CNetSvrManager_new demo_ops = Ok demo_state) by (vm_compute; reflexivity).
  destruct (listener_tables_sound demo_ops demo_state E) as (_ & _ & _ & _ & _ & H).
  split; [exact E|]. split; [apply H; unfold demo_ops; repeat constructor|]. split; vm_compute; reflexivity.
Defined.

(** ** A connection that is gone before it is opened *)

(** Nothing starts another accept of a listener that has none under way. *)
Definition dead h s : Prop := (h < next_handle s)%nat ∧ ∀ l, listeners s !! h = Some l → l_pending l = 0%nat.

Definition accepts_of h s : list handle := List.filter (Nat.eqb h) (accepted s).

(** Steps that only add listeners or change them without starting an accept of [h]. *)
Definition dead_step h s s' : Prop := dead h s' ∧ accepts_of h s' = accepts_of h s.

Lemma dead_refl h s : dead h s → dead_step h s s.
Proof. done. Qed.

Lemma dead_trans h s1 s2 s3 : dead_step h s1 s2 → (dead h s2 → dead_step h s2 s3) → dead_step h s1 s3.
Proof. intros [Hd E] H. destruct (H Hd) as [Hd3 E3]. split; [done|]. congruence. Qed.

Lemma dead_alter h s h' f : dead h s → (∀ l, h' = h → l_pending l = 0%nat → l_pending (f l) = 0%nat) → dead_step h s (set_listener s h' f).
Proof.
  intros [Hn Hd] Hf. split; [|done]. split; [done|]. intros l. cbn. destruct (decide (h' = h)) as [->|Hne].
  - rewrite lookup_alter_eq. destruct (listeners s !! h) as [l0|]; [|done]. intros [= <-]. apply Hf; [done|]. by apply Hd.
  - rewrite lookup_alter_ne by done. apply Hd.
Qed.

Lemma dead_started h s ty ip port : dead h s →
  dead_step h s (start_pending (add_accept_net_io_event (snd (new_listener s ty ip port)) ip port ty (next_handle s)) (next_handle s)).
Proof.
  intros [Hn Hd].
  assert (Hnew : dead_step h s (add_accept_net_io_event (snd (new_listener s ty ip port)) ip port ty (next_handle s))).
  { destruct ty; (split; [|done]); (split; [cbn; lia|]); cbn; intros l; rewrite lookup_insert_ne by lia; apply Hd. }
  eapply dead_trans; [exact Hnew|]. intros Hd'. apply dead_alter; [done|]. intros l Heq. lia.
Qed.

Lemma dead_start_list {A} h (start : CNetSvrManager → A → bool → outcome CNetSvrManager) l : ∀ s s',
  (∀ s x b s', dead h s → start s x b = Ok s' → dead_step h s s') → dead h s → start_list start s l = Ok s' → dead_step h s s'.
Proof.
  induction l as [|[x b] l IH]; intros s s' Hst Hd; cbn [start_list]; [by intros [= <-]|].
  destruct (start s x b) as [s1|] eqn:E; cbn [obind]; [|done]. intros E'. eapply dead_trans; [by eapply Hst|]. intros Hd1. by eapply IH.
Qed.

Lemma dead_start_tcp h s netio bound s' : dead h s → start_tcp s netio bound = Ok s' → dead_step h s s'.
Proof. intros Hd. unfold start_tcp. cbn [new_listener]. destruct bound; [|done]. intros [= <-]. by apply (dead_started h s CONNECT_IO_TCP). Qed.

Lemma dead_start_udp h s netio bound s' : dead h s → start_udp s netio bound = Ok s' → dead_step h s s'.
Proof. intros Hd. unfold start_udp. cbn [new_listener]. intros [= <-]. by apply (dead_started h s CONNECT_IO_UDP). Qed.

Lemma dead_start_kcp h s netio bound s' : dead h s → start_kcp s netio bound = Ok s' → dead_step h s s'.
Proof. intros Hd. unfold start_kcp. destruct bound; [|done]. cbn [negb new_listener]. intros [= <-]. by apply (dead_started h s CONNECT_IO_KCP). Qed.

Lemma dead_start_tty h s tty opened : dead h s → dead_step h s (start_tty s tty opened).
Proof.
  intros Hd. unfold start_tty. cbn [new_listener]. destruct opened; cbn [negb]; [by apply (dead_started h s CONNECT_IO_TTY)|].
  destruct Hd as [Hn Hd]. split; [|done]. split; [cbn; lia|]. intros l. cbn. rewrite lookup_insert_ne by lia. apply Hd.
Qed.

Lemma dead_default h s c s' : dead h s → start_default_service s c = Ok s' → dead_step h s s'.
Proof.
  intros Hd. unfold start_default_service. destruct (start_list _ s (config_tcp_list_ c)) as [s1|] eqn:E1; cbn [obind]; [|done].
  apply (dead_start_list h) in E1; [|intros s0 x b s2 Hd0; destruct (is_tls x); [|by apply dead_start_tcp]; destruct (ssl_support c); [destruct b|]; by intros [= <-]|done].
  destruct (start_list _ s1 _) as [s2|] eqn:E2; cbn [obind]; [|done]. apply (dead_start_list h) in E2; [|apply dead_start_udp|apply E1].
  destruct (start_list _ s2 _) as [s3|] eqn:E3; cbn [obind]; [|done]. apply (dead_start_list h) in E3; [|apply dead_start_kcp|apply E2].
  intros E4. apply (dead_start_list h) in E4; [|intros s0 x b s4 Hd0 [= <-]; by apply dead_start_tty|apply E3].
  destruct E1, E2, E3, E4. split; [done|]. congruence.
Qed.

Lemma dead_close h s h' : dead h s → dead_step h s (close_listener s h').
Proof. intros Hd. by apply dead_alter. Qed.

Lemma dead_close_list h l : ∀ s, dead h s → dead_step h s (close_accept_list s l).
Proof. induction l as [|h' l IH]; intros s Hd; [done|]. eapply dead_trans; [by apply (dead_close h s h')|apply IH]. Qed.

Lemma dead_step_step h s o s' : dead h s → manager_step s o = Ok s' → dead_step h s s'.
Proof.
  intros Hd. destruct o as [c|netio|netio|bound| |h' r|h'|]; cbn [manager_step].
  - by apply dead_default.
  - intros [= <-]. unfold start_single_service. case_match; [done|]. case_match; done.
  - intros [= <-]. unfold close_single_service. case_match; done.
  - unfold run_task. destruct (tasks s) as [|t ts]; [by intros [= <-]|].
    assert (Hd0 : dead h (s <| tasks := ts |> <| held := [] |>)) by done.
    destruct t as [netio|netio]; [destruct (protocol_type_ netio); try (by intros [= <-]); intros E|].
    { exact (dead_start_tcp h _ netio bound s' Hd0 E). }
    { exact (dead_start_udp h _ netio bound s' Hd0 E). }
    intros [= <-]. unfold run_close. destruct (protocol_type_ netio); try done; (destruct (_ !! _); [|done]);
      match goal with |- context [close_listener ?x _] => by apply (dead_close h x) end.
  - by intros [= <-].
  - unfold accept_completes. destruct (listeners s !! h') as [l|] eqn:El; [|by intros [= <-]].
    destruct (l_type l); try (by intros [= <-]). destruct (l_pending l) as [|n] eqn:Ep; [by intros [= <-]|].
    assert (Hne : h' ≠ h) by (intros ->; destruct Hd as [_ Hd]; rewrite (Hd l El) in Ep; lia).
    destruct (owned s h'); cbn [negb]; [|done].
    destruct (dead_alter h s h' (λ l, l <| l_pending := n |>) Hd) as [Hd1 Ha1]; [done|].
    destruct r; intros [= <-].
    + match goal with |- dead_step _ _ (start_pending ?x _) => destruct (dead_alter h x h' (λ l, l <| l_pending := S (l_pending l) |>)) as [Hd2 Ha2] end;
        [done|done|]. split; [done|]. etrans; [exact Ha2|]. unfold accepts_of. cbn. rewrite List.filter_app. cbn.
      rewrite (proj2 (Nat.eqb_neq h h')) by done. by rewrite app_nil_r.
    + done.
    + done.
  - intros [= <-]. unfold receive_fails. destruct (listeners s !! h') as [l|] eqn:El; [|done].
    assert (Hset : ∀ n, l_pending l = S n → dead_step h s (set_listener s h' (λ l, l <| l_pending := n |>))).
    { intros n Hn. apply dead_alter; [done|]. intros l' -> _. destruct Hd as [_ Hd]. rewrite (Hd l El) in Hn. lia. }
    destruct (l_type l); try done; (destruct (l_pending l) as [|n]; [done|]); destruct (Hset n eq_refl); by split.
  - intros [= <-]. unfold close_all_service.
    destruct (dead_close_list h (map snd (map_to_list (tcp_service_list_ s))) s Hd) as [D1 A1]. set (s1 := close_accept_list s _) in *.
    destruct (dead_close_list h (map snd (map_to_list (kcp_service_list_ s1))) s1 D1) as [D2 A2]. set (s2 := close_accept_list s1 _) in *.
    destruct (dead_close_list h (map snd (map_to_list (udp_service_list_ s2))) s2 D2) as [D3 A3]. set (s3 := close_accept_list s2 _) in *.
    destruct (dead_close_list h (map snd (map_to_list (tty_service_list_ s3))) s3 D3) as [D4 A4]. set (s4 := close_accept_list s3 _) in *.
    split; [done|]. unfold accepts_of in *. cbn. congruence.
Qed.

Lemma dead_run h os : ∀ s s', dead h s → manager_run s os = Ok s' → dead_step h s s'.
Proof.
  induction os as [|o os IH]; intros s s' Hd; cbn [manager_run]; [by intros [= <-]|].
  destruct (manager_step s o) as [s1|] eqn:E; cbn [obind]; [|done]. intros E'. eapply dead_trans; [by eapply dead_step_step|].
  intros Hd1. by apply IH.
Qed.

(** A connection that is reset at once stops its TCP listener.  When an accepted connection is gone
    before its address can be asked for, the exception ends the accept loop: the listener never accepts
    another connection, whatever else happens. *)
Theorem tcp_reset_stops_listener os h key s os' s' :
  manager_run CNetSvrManager_new os = Ok s → Forall no_throw os → tcp_service_list_ s !! key = Some h →
  manager_run s (MAccept h OpenThrows :: os') = Ok s' → accepts_of h s' = accepts_of h s.
Proof.
  intros E Hn Hk. cbn [manager_run manager_step]. unfold accept_completes.
  pose proof (accepting_run os s E Hn) as Hi. destruct (m_tcp _ _ Hi key h Hk) as (l & Hl & _ & Htcp & Hp).
  rewrite Hl, Htcp, Hp. destruct (owned s h); cbn [negb]; [|done]. cbn [obind]. intros E'.
  apply (dead_run h) in E' as [_ E']; [exact E'|]. split; [apply (m_next _ _ Hi); by rewrite Hl|].
  intros l'. cbn. rewrite lookup_alter_eq, Hl. by intros [= <-].
Qed.

Lemma tcp_reset_stops_listener_witness :
  ∃ s', manager_run demo_state [MAccept 0 OpenThrows; MAccept 0 Accepted; MAccept 0 Accepted] = Ok s' ∧
    accepts_of 0 s' = accepts_of 0 demo_state.
Proof.
  destruct (manager_run demo_state [MAccept 0 OpenThrows; MAccept 0 Accepted; MAccept 0 Accepted]) as [s'|] eqn:E; [|vm_compute in E; discriminate].
  exists s'. split; [reflexivity|].
  apply (tcp_reset_stops_listener demo_ops 0 (io_key "0.0.0.0" 10002) demo_state [MAccept 0 Accepted; MAccept 0 Accepted] s').
  - vm_compute. reflexivity.
  - unfold demo_ops. repeat constructor.
  - vm_compute. reflexivity.
  - exact E.
Defined.

(** ** Closing one listener *)

Lemma owned_other s h : manager_inv (λ _, True) s → ∀ key, tcp_service_list_ s !! key = Some h →
  h ∉ map snd (map_to_list (delete key (tcp_service_list_ s))).
Proof.
  intros Hi key Hk ([k h'] & -> & Hin)%list_elem_of_fmap. apply elem_of_map_to_list, lookup_delete_Some in Hin as [Hne Hk'].
  destruct (m_tcp _ _ Hi key h' Hk) as (l & Hl & <- & _). destruct (m_tcp _ _ Hi k h' Hk') as (l' & Hl' & <- & _).
  rewrite Hl in Hl'. by injection Hl' as <-.
Qed.

(** Closing a single TCP listener leaves its accept handler without an object.  When the task that
    closes the listener has returned, nothing owns it, and the handler of the accept that was under way,
    which completes with an error, uses freed memory; only if the handler runs before the task returns is
    the listener still there. *)
Theorem close_single_frees_listener os s h netio b :
  manager_run CNetSvrManager_new os = Ok s → Forall no_throw os → tasks s = [] → protocol_type_ netio = CONNECT_IO_TCP →
  tcp_service_list_ s !! io_key (ip_ netio) (port_ netio) = Some h →
  manager_run s [MClose netio; MTask b; MTaskReturns; MAccept h AcceptError] = Fault ∧
  ∃ s', manager_run s [MClose netio; MTask b; MAccept h AcceptError; MTaskReturns] = Ok s'.
Proof.
  intros E Hn Ht Hty Hk. pose proof (accepting_run os s E Hn) as Hi. destruct (m_tcp _ _ Hi _ h Hk) as (l & Hl & _ & Htcp & Hp).
  pose proof (owned_other s h (any_run os s E) _ Hk) as Hother.
  cbn [manager_run manager_step obind]. unfold close_single_service. rewrite Hty. cbn [obind]. unfold run_task. cbn [tasks set_field].
  change (tasks (s <| tasks := tasks s ++ [TaskClose netio] |>)) with (tasks s ++ [TaskClose netio]). rewrite Ht. cbn [app].
  unfold run_close. rewrite Hty. match goal with |- context [tcp_service_list_ ?x !! _] => change (tcp_service_list_ x) with (tcp_service_list_ s) end.
  rewrite Hk. cbn [obind].
  set (key := io_key _ _) in *. set (m := delete key (tcp_service_list_ s)) in *.
  set (s1 := close_listener _ h).
  assert (Hl1 : listeners s1 !! h = Some (l <| l_open := false |>)) by (cbn; by rewrite lookup_alter_eq, Hl).
  split.
  - unfold accept_completes. change (listeners (task_returns s1)) with (listeners s1). rewrite Hl1.
    change (l_type (l <| l_open := false |>)) with (l_type l). change (l_pending (l <| l_open := false |>)) with (l_pending l). rewrite Htcp, Hp.
    assert (Ho : owned (task_returns s1) h = false) by (apply bool_decide_eq_false_2; change (h ∉ map snd (map_to_list m) ++ []); by rewrite app_nil_r).
    rewrite Ho. done.
  - unfold accept_completes. rewrite Hl1.
    change (l_type (l <| l_open := false |>)) with (l_type l). change (l_pending (l <| l_open := false |>)) with (l_pending l). rewrite Htcp, Hp.
    assert (Ho : owned s1 h = true) by (apply bool_decide_eq_true_2; change (h ∈ map snd (map_to_list m) ++ [h]); apply elem_of_app; right; by left).
    rewrite Ho. cbn [negb obind]. by eexists.
Qed.

Lemma close_single_frees_listener_witness :
  manager_run demo_state [MClose demo_tcp; MTask true; MTaskReturns; MAccept 0 AcceptError] = Fault ∧
  ∃ s', manager_run demo_state [MClose demo_tcp; MTask true; MAccept 0 AcceptError; MTaskReturns] = Ok s'.
Proof.
  apply (close_single_frees_listener demo_ops demo_state 0 demo_tcp true).
  - vm_compute. reflexivity.
  - unfold demo_ops. repeat constructor.
  - vm_compute. reflexivity.
  - reflexivity.
  - vm_compute. reflexivity.
Defined.

(** Two starts of the same address.  The check for an existing listener is made before the task that
    creates it runs, so a second start made before that is not refused; its task finds the address in
    use and uses the acceptor that could not be made. *)
Theorem duplicate_start_faults s netio :
  protocol_type_ netio = CONNECT_IO_TCP → tasks s = [] → tcp_service_list_ s !! io_key (ip_ netio) (port_ netio) = None →
  (∃ s', manager_run s [MStart netio; MTask true; MStart netio; MTask false] = Ok s') ∧
  manager_run s [MStart netio; MStart netio; MTask true; MTask false] = Fault.
Proof.
  intros Hty Ht Hk. cbn [manager_run manager_step obind]. unfold start_single_service. rewrite Hty.
  rewrite !(bool_decide_eq_false_2 (is_Some _)) by (cbn; rewrite Hk; by intros []). cbn [obind].
  unfold run_task. cbn. rewrite Ht. cbn. rewrite Hty. cbn. split; [|by rewrite Hty].
  rewrite bool_decide_eq_true_2 by (rewrite lookup_insert_eq; by eexists). cbn. by eexists.
Qed.

(** A UDP or KCP listener that failed stays in the table and keeps its address taken: the UDP listener
    never asks to be taken out, and the KCP listener is taken out of a table it is not in. *)
Theorem failed_listener_stays_listed s h l netio :
  listeners s !! h = Some l → is_datagram l → (0 < l_pending l)%nat →
  udp_service_list_ s !! io_key (l_ip l) (l_port l) = Some h →
  protocol_type_ netio = CONNECT_IO_UDP → ip_ netio = l_ip l → port_ netio = l_port l →
  ∃ s', manager_run s [MReceiveFails h; MStart netio] = Ok s' ∧ udp_service_list_ s' !! io_key (l_ip l) (l_port l) = Some h ∧
    tasks s' = tasks s.
Proof.
  intros Hl Hty Hp Hk Hu Hip Hport. cbn [manager_run manager_step obind]. unfold receive_fails. rewrite Hl.
  destruct (l_pending l) as [|n]; [lia|]. unfold start_single_service. rewrite Hu, Hip, Hport.
  destruct Hty as [-> | ->]; cbn -[io_key]; rewrite Hk; rewrite bool_decide_eq_true_2 by (by eexists);
    cbn -[io_key]; eexists; (split; [done|]); cbn -[io_key]; by rewrite Hk.
Qed.
