(* ===== verification/TlsListener.v ===== *)
(** * The TLS listener (src/PSS_ASIO/TcpSession/TcpSSLServer.{h,cpp}, and its part of NetSvrManager.cpp)

    The listener is an object that [start_default_service] makes, starts and lets go of.  Its accept handlers keep
    a raw pointer to it: one that runs for a new connection after the object is gone uses freed memory, a fault;
    one that runs for an error only writes to the log.  The environment decides whether the address can be bound,
    whether the certificate files can be read, and when connections come. *)

From Stdlib Require Import ZArith Lia.
From S2P Require Import Prelude Define SessionCalls Listeners.
From stdpp Require Import base numbers list gmap strings.
Local Open Scope Z_scope.

Record CTcpSSLServer := mkTls {
  tls_ip_ : string;
  tls_port_ : Z;                           (* uint16 *)
  acceptor_ : option bool;                 (* null, or whether it is open *)
  alive : bool;                            (* the object has not been destroyed *)
  accepting : nat;                         (* accepts under way *)
  connected : nat;                         (* accepts that succeeded, their handlers not run yet *)
  sessions : nat;                          (* sessions opened *)
}.

Implicit Types (t : CTcpSSLServer).

(** Accepting on a null acceptor is a fault. *)
Definition do_accept t : outcome CTcpSSLServer :=
  match acceptor_ t with
  | None => Fault
  | Some _ => Ok (t <| accepting := S (accepting t) |>)
  end.

(** The constructor catches every error: an address that cannot be bound leaves the acceptor null, a certificate
    that cannot be read leaves it open without an accept. *)
Definition CTcpSSLServer_new (netio : CConfigNetIO) (bound files : bool) : outcome CTcpSSLServer :=
  if bound then
    let t := mkTls (ip_ netio) (port_ netio) (Some true) true 0 0 0 in
    if files then do_accept t else Ok t
  else Ok (mkTls "" 0 None true 0 0 0).

(** Registering with the manager, and one more accept. *)
Definition start_tls (s : CNetSvrManager) t (h : handle) : outcome (CNetSvrManager * CTcpSSLServer) :=
  let s := add_accept_net_io_event s (tls_ip_ t) (tls_port_ t) CONNECT_IO_SSL h in
  let* t := do_accept t in
  Ok (s, t).

Definition close t : outcome CTcpSSLServer :=
  match acceptor_ t with None => Fault | Some _ => Ok (t <| acceptor_ := Some false |>) end.

(** The last owner lets go: the acceptor is closed with the object. *)
Definition destroy t : CTcpSSLServer := t <| alive := false |> <| acceptor_ := (λ _, false) <$> acceptor_ t |>.

(** The object is owned by a table of the manager. *)
Definition kept (s : CNetSvrManager) (h : handle) : bool :=
  bool_decide (h ∈ map snd (map_to_list (tcp_service_list_ s)) ++ map snd (map_to_list (udp_service_list_ s)) ++
               map snd (map_to_list (kcp_service_list_ s)) ++ map snd (map_to_list (tty_service_list_ s))).

(** The body of the loop of [start_default_service] for a listener with TLS settings, up to the accepts: the
    connections that came in the meantime are those of [arrive]. *)
Definition arrive t : CTcpSSLServer :=
  match acceptor_ t, accepting t with
  | Some true, S n => t <| accepting := n |> <| connected := S (connected t) |>
  | _, _ => t
  end.

Definition start_body (s : CNetSvrManager) (h : handle) (netio : CConfigNetIO) (bound files : bool) (arrivals : nat)
    : outcome (CNetSvrManager * CTcpSSLServer) :=
  let* t := CTcpSSLServer_new netio bound files in
  let* '(s, t) := start_tls s t h in
  let t := Nat.iter arrivals arrive t in
  Ok (s, if kept s h then t else destroy t).

(** ** What the I/O threads do *)

Inductive tls_event := Arrive | HandlerConnected | HandlerError.

(** An accept fails when the acceptor is closed, or for an error of the system. *)
Definition tls_step t (e : tls_event) : outcome CTcpSSLServer :=
  match e with
  | Arrive => Ok (arrive t)
  | HandlerConnected =>
      match connected t with
      | O => Ok t
      | S n =>
          if negb (alive t) then Fault
          else do_accept (t <| connected := n |> <| sessions := S (sessions t) |>)
      end
  | HandlerError => Ok (t <| accepting := pred (accepting t) |>)
  end.

Fixpoint tls_run t (es : list tls_event) : outcome CTcpSSLServer :=
  match es with [] => Ok t | e :: es => let* t := tls_step t e in tls_run t es end.

(** ** The listener does not outlive its start *)

Lemma ssl_not_registered s ip port h : add_accept_net_io_event s ip port CONNECT_IO_SSL h = s.
Proof. done. Qed.

(** Gone, with its acceptor closed. *)
Definition gone t : Prop := alive t = false ∧ acceptor_ t = Some false.

Lemma arrive_gone t : gone t → arrive t = t.
Proof. intros [_ H]. unfold arrive. by rewrite H. Qed.

Lemma gone_run es : ∀ t t', gone t → tls_run t es = Ok t' → sessions t' = sessions t ∧ gone t'.
Proof.
  induction es as [|e es IH]; intros t t' Ht; cbn [tls_run]; [by intros [= <-]|].
  destruct e; cbn [tls_step].
  - rewrite arrive_gone by done. by apply IH.
  - destruct (connected t) eqn:E; [by apply IH|]. by rewrite (proj1 Ht).
  - cbn [obind]. intros H. apply IH in H; [done|exact Ht].
Qed.

Lemma arrivals_kept n t : acceptor_ (Nat.iter n arrive t) = acceptor_ t ∧ sessions (Nat.iter n arrive t) = sessions t.
Proof.
  assert (H : ∀ t, acceptor_ (arrive t) = acceptor_ t ∧ sessions (arrive t) = sessions t).
  { clear. intros t. unfold arrive. destruct (acceptor_ t) as [[]|] eqn:E; [|done..]. by destruct (accepting t). }
  induction n as [|n [IH1 IH2]]; [done|]. change (Nat.iter (S n) arrive t) with (arrive (Nat.iter n arrive t)). destruct (H (Nat.iter n arrive t)) as [-> ->]. done.
Qed.

(** A listener with TLS settings serves nobody.  The manager keeps no TLS listener, so the one that
    [start_default_service] made and started is destroyed, and its acceptor closed, before the next one is made:
    whatever happens later, no session is opened. *)
Theorem tls_listener_lost s h netio bound files arrivals s' t es t' : kept s h = false →
  start_body s h netio bound files arrivals = Ok (s', t) → tls_run t es = Ok t' →
  s' = s ∧ alive t = false ∧ acceptor_ t = Some false ∧ sessions t' = 0%nat.
Proof.
  intros Hk. unfold start_body, CTcpSSLServer_new, start_tls. destruct bound; [|done].
  assert (H : ∀ t0 : CTcpSSLServer, acceptor_ t0 = Some true → sessions t0 = 0%nat →
    gone (destroy (Nat.iter arrivals arrive t0)) ∧ sessions (destroy (Nat.iter arrivals arrive t0)) = 0%nat).
  { intros t0 Ha Hs. destruct (arrivals_kept arrivals t0) as [E1 E2]. split; [split; [done|]|]; cbn; [by rewrite E1, Ha|by rewrite E2]. }
  destruct files; cbn -[kept Nat.iter destroy]; rewrite Hk; intros [= <- <-] Hr;
    match type of Hr with tls_run (destroy (Nat.iter _ _ ?t0)) _ = _ => destruct (H t0) as [Hg Hs]; [done|done|] end;
    destruct (gone_run _ _ _ Hg Hr) as [E _]; rewrite E, Hs; by destruct Hg.
Qed.

(** A connection that came before, handled after: the handler uses the destroyed listener. *)
Theorem tls_accept_after_free s h netio files s' t : kept s h = false →
  start_body s h netio true files 1 = Ok (s', t) → tls_step t HandlerConnected = Fault.
Proof.
  intros Hk. unfold start_body, CTcpSSLServer_new, start_tls.
  destruct files; cbn -[kept Nat.iter destroy]; rewrite Hk; by intros [= <- <-].
Qed.

(** An address that cannot be bound ends the process. *)
Theorem tls_unbound_faults s h netio files arrivals : start_body s h netio false files arrivals = Fault.
Proof. done. Qed.

Definition tls_config : CConfigNetIO := mkConfigNetIO "127.0.0.1" 443 CONNECT_IO_TCP 1 1024 1024 "password" "server.pem" "dh.pem" NET_TYPE_POINT_TO_POINT.

Lemma tls_listener_lost_witness :
  start_body CNetSvrManager_new 0 tls_config true true 0 = Ok (CNetSvrManager_new, mkTls "127.0.0.1" 443 (Some false) false 2 0 0) ∧
  ∃ t', tls_run (mkTls "127.0.0.1" 443 (Some false) false 2 0 0) [Arrive; HandlerError; HandlerConnected; HandlerError] = Ok t' ∧ sessions t' = 0%nat.
Proof.
  split; [reflexivity|]. exists (mkTls "127.0.0.1" 443 (Some false) false 0 0 0). split; [reflexivity|].
  apply (tls_listener_lost CNetSvrManager_new 0 tls_config true true 0 CNetSvrManager_new (mkTls "127.0.0.1" 443 (Some false) false 2 0 0)
    [Arrive; HandlerError; HandlerConnected; HandlerError]); reflexivity.
Defined.
