(* ===== verification/PacketLoader.v ===== *)
(** * The packet parser loader (src/PSS_ASIO/Message/LoadPacketParse.{h,cpp})

    The table of packet parser plugins.  Opening a library is the operating system: [library] says which
    paths can be opened and which functions the library at a path has; the operating system counts how
    often each is open ([opened]).  A session keeps the entry of its parser, so a call of a parser whose
    library is no longer open is a fault. *)

From Stdlib Require Import ZArith Lia.
From S2P Require Import Prelude.
From stdpp Require Import base numbers list gmap strings.
Local Open Scope Z_scope.

Record Packet_Parse_Info := mkParseInfo {
  m_u4PacketParseID : Z;                   (* uint32 *)
  m_hModule : string;                      (* the library, by its path *)
}.

(** Calls of the plugin functions. *)
Inductive plugin_call :=
| SetOutput (path : string)
| PacketLoad (path : string)
| PacketClose (path : string).

Record CLoadPacketParse := mkLoader {
  m_objPacketParseList : gmap Z Packet_Parse_Info;
  opened : gmap string nat;
  plugin_calls : list plugin_call;
}.

Definition CLoadPacketParse_new : CLoadPacketParse := mkLoader ∅ ∅ [].

Implicit Types (s : CLoadPacketParse).

(** The functions a plugin must have, in the order they are looked up. *)
Definition required : list string :=
  ["parse_packet_from_recv_buffer"; "is_need_send_format"; "parse_packet_format_send_buffer"; "connect"; "disconnect";
   "packet_load"; "packet_close"; "set_output"]%string.

Section Loader.

Context (library : string → option (string → bool)).

Definition open_count s (path : string) : nat := default 0%nat (opened s !! path).

Definition dl_open s (path : string) : CLoadPacketParse := s <| opened := <[path := S (open_count s path)]> (opened s) |>.
Definition dl_close s (path : string) : CLoadPacketParse := s <| opened := <[path := Nat.pred (open_count s path)]> (opened s) |>.

(** The lookups one after the other: the first function that is missing closes the library. *)
Fixpoint check_symbols (has : string → bool) s (path : string) (names : list string) : bool * CLoadPacketParse :=
  match names with
  | [] => (true, s)
  | name :: names => if negb (has name) then (false, dl_close s path) else check_symbols has s path names
  end.

Definition LoadPacketInfo s (u4PacketParseID : Z) (packet_parse_path packet_parse_file : string) : bool * CLoadPacketParse :=
  let strFilePath := packet_parse_path +:+ packet_parse_file in
  match library strFilePath with
  | None => (false, s)
  | Some has =>
      let s := dl_open s strFilePath in
      let '(ok, s) := check_symbols has s strFilePath required in
      if negb ok then (false, s)
      else
        (true, s <| m_objPacketParseList := <[u4PacketParseID := mkParseInfo u4PacketParseID strFilePath]> (m_objPacketParseList s) |>
                 <| plugin_calls := plugin_calls s ++ [SetOutput strFilePath; PacketLoad strFilePath] |>)
  end.

Definition GetPacketParseInfo s (u4PacketParseID : Z) : option Packet_Parse_Info := m_objPacketParseList s !! u4PacketParseID.

(** [Close]; the order is that of a hash map. *)
Definition close_one s (info : Packet_Parse_Info) : CLoadPacketParse :=
  dl_close (s <| plugin_calls := plugin_calls s ++ [PacketClose (m_hModule info)] |>) (m_hModule info).
Definition Close s : CLoadPacketParse :=
  foldl close_one s (map snd (map_to_list (m_objPacketParseList s))) <| m_objPacketParseList := ∅ |>.

(** A session calls a function of the parser it was given. *)
Definition call_parser s (info : option Packet_Parse_Info) : outcome unit :=
  match info with
  | None => Fault
  | Some info => if bool_decide (open_count s (m_hModule info) = 0)%nat then Fault else Ok tt
  end.

Inductive loader_op :=
| PLoad (id : Z) (path file : string)
| PClose.

Definition loader_step s (o : loader_op) : CLoadPacketParse :=
  match o with
  | PLoad id path file => snd (LoadPacketInfo s id path file)
  | PClose => Close s
  end.

(** ** Open libraries *)

(** How many entries of the table use the library. *)
Definition uses (m : gmap Z Packet_Parse_Info) (path : string) : nat :=
  length (filter (λ i, m_hModule i = path) (map snd (map_to_list m))).

Lemma check_symbols_result has path names : ∀ s,
  check_symbols has s path names = if forallb has names then (true, s) else (false, dl_close s path).
Proof. induction names as [|n names IH]; intros s; cbn; [done|]. destruct (has n); cbn; [apply IH|done]. Qed.

Lemma open_count_open s path path' : open_count (dl_open s path) path' = ((if decide (path = path') then 1 else 0) + open_count s path')%nat.
Proof. unfold open_count, dl_open. cbn. destruct (decide (path = path')) as [->|]; [by rewrite lookup_insert_eq|by rewrite lookup_insert_ne]. Qed.

Lemma open_count_close s path path' :
  open_count (dl_close s path) path' = if decide (path = path') then Nat.pred (open_count s path') else open_count s path'.
Proof. unfold open_count, dl_close. cbn. destruct (decide (path = path')) as [->|]; [by rewrite lookup_insert_eq|by rewrite lookup_insert_ne]. Qed.

(** What a load does: all or nothing. *)
Lemma load_result s id path file :
  let full := path +:+ file in
  match library full with
  | Some has =>
      if forallb has required then
        fst (LoadPacketInfo s id path file) = true ∧
        (∀ p, open_count (snd (LoadPacketInfo s id path file)) p = (if decide (full = p) then 1 else 0) + open_count s p)%nat ∧
        m_objPacketParseList (snd (LoadPacketInfo s id path file)) = <[id := mkParseInfo id full]> (m_objPacketParseList s)
      else
        fst (LoadPacketInfo s id path file) = false ∧ (∀ p, open_count (snd (LoadPacketInfo s id path file)) p = open_count s p) ∧
        m_objPacketParseList (snd (LoadPacketInfo s id path file)) = m_objPacketParseList s ∧
        plugin_calls (snd (LoadPacketInfo s id path file)) = plugin_calls s
  | None => LoadPacketInfo s id path file = (false, s)
  end.
Proof.
  intros full. unfold LoadPacketInfo. fold full. destruct (library full) as [has|]; [|done]. rewrite check_symbols_result.
  destruct (forallb has required); cbn [negb fst snd].
  - split; [done|]. split; [|done]. intros p. apply (open_count_open s full p).
  - split; [done|]. split; [|done]. intros p. rewrite open_count_close, open_count_open. by destruct (decide (full = p)).
Qed.

Lemma uses_insert (m : gmap Z Packet_Parse_Info) id i path : m !! id = None →
  uses (<[id := i]> m) path = ((if decide (m_hModule i = path) then 1 else 0) + uses m path)%nat.
Proof.
  intros Hn. unfold uses.
  assert (Hp : map snd (map_to_list (<[id := i]> m)) ≡ₚ i :: map snd (map_to_list m)) by (by rewrite map_to_list_insert by done).
  rewrite (Permutation_length (filter_Permutation _ _ _ Hp)). rewrite filter_cons. by destruct (decide (m_hModule i = path)).
Qed.

Lemma close_fold l path : ∀ s, open_count (foldl close_one s l) path = (open_count s path - length (filter (λ i, m_hModule i = path) l))%nat.
Proof.
  induction l as [|i l IH]; intros s; cbn [foldl]; [cbn; lia|]. rewrite IH, filter_cons. unfold close_one. rewrite open_count_close.
  change (open_count (s <| plugin_calls := _ |>) path) with (open_count s path). destruct (decide (m_hModule i = path)); cbn [length]; lia.
Qed.

Lemma close_fold_calls l : ∀ s, plugin_calls (foldl close_one s l) = plugin_calls s ++ map (λ i, PacketClose (m_hModule i)) l.
Proof. induction l as [|i l IH]; intros s; cbn; [by rewrite app_nil_r|]. rewrite IH. cbn. by rewrite <- app_assoc. Qed.

(** Every library is open as often as the table uses it. *)
Definition balanced s : Prop := ∀ path, open_count s path = uses (m_objPacketParseList s) path.

Lemma load_balanced s id path file : balanced s → m_objPacketParseList s !! id = None → balanced (snd (LoadPacketInfo s id path file)).
Proof.
  intros Hb Hid. pose proof (load_result s id path file) as H. cbv zeta in H. destruct (library (path +:+ file)) as [has|]; [|by rewrite H].
  destruct (forallb has required).
  - destruct H as (_ & Hc & Ht). intros p. rewrite Hc, Ht, uses_insert by done. cbn. by rewrite Hb.
  - destruct H as (_ & Hc & Ht & _). intros p. by rewrite Hc, Ht.
Qed.

Lemma close_balanced s : balanced s → ∀ path, open_count (Close s) path = 0%nat.
Proof. intros Hb path. change (open_count (Close s) path) with (open_count (foldl close_one s (map snd (map_to_list (m_objPacketParseList s)))) path).
  rewrite close_fold, Hb. unfold uses. lia. Qed.

(** Loading plugins under different ids. *)
Definition load_all s (l : list (Z * string * string)) : CLoadPacketParse :=
  foldl (λ s '(id, path, file), snd (LoadPacketInfo s id path file)) s l.

Lemma load_ids s id path file id' : id ≠ id' → m_objPacketParseList (snd (LoadPacketInfo s id path file)) !! id' = m_objPacketParseList s !! id'.
Proof.
  intros Hne. pose proof (load_result s id path file) as H. cbv zeta in H. destruct (library (path +:+ file)) as [has|]; [|by rewrite H].
  destruct (forallb has required); destruct H as (_ & _ & Ht); [rewrite Ht; by rewrite lookup_insert_ne|destruct Ht as [-> _]; done].
Qed.

Lemma load_all_balanced l : ∀ s, balanced s → NoDup (map (λ '(id, _, _), id) l) →
  (∀ id path file, (id, path, file) ∈ l → m_objPacketParseList s !! id = None) → balanced (load_all s l).
Proof.
  induction l as [|[[id path] file] l IH]; intros s Hb Hnd Hn; [done|]. cbn in Hnd. apply NoDup_cons in Hnd as [Hid Hnd].
  apply IH; [apply load_balanced; [done|eapply Hn; by left]|done|]. intros id' path' file' Hin. rewrite load_ids; [eapply Hn; by right|].
  intros ->. apply Hid. apply list_elem_of_fmap. by exists (id', path', file').
Qed.

End Loader.

(** Packet parser plugins are opened and closed in balance.  After loading plugins under different ids,
    some of which may fail to open or miss a function, every library is open as often as the table has
    entries for it, and every parser of the table can be called; [Close] calls [packet_close] of each
    entry once and leaves no library open, so a session that kept its parser and still calls it faults. *)
Theorem parser_loader_balanced library l :
  NoDup (map (λ '(id, _, _), id) l) →
  let s := load_all library CLoadPacketParse_new l in
  (∀ path, open_count s path = uses (m_objPacketParseList s) path) ∧
  (∀ id info, GetPacketParseInfo s id = Some info → call_parser s (Some info) = Ok tt ∧ call_parser (Close s) (Some info) = Fault) ∧
  (∀ path, open_count (Close s) path = 0%nat) ∧
  plugin_calls (Close s) = plugin_calls s ++ map (λ i, PacketClose (m_hModule i)) (map snd (map_to_list (m_objPacketParseList s))).
Proof.
  intros Hnd s.
  assert (Hb : balanced s) by (apply load_all_balanced; [done|done|intros; apply lookup_empty]).
  split; [exact Hb|]. split; [|split; [by apply close_balanced|apply close_fold_calls]].
  intros id info Hinfo. unfold call_parser. rewrite (bool_decide_eq_true_2 (open_count (Close s) _ = _)) by (by apply close_balanced).
  split; [|done]. rewrite bool_decide_eq_false_2; [done|]. rewrite Hb. unfold uses. intros Hlen%nil_length_inv.
  assert (Hin : info ∈ filter (λ i, m_hModule i = m_hModule info) (map snd (map_to_list (m_objPacketParseList s)))).
  { apply list_elem_of_filter. split; [done|]. apply list_elem_of_fmap. exists (id, info). split; [done|]. by apply elem_of_map_to_list. }
  rewrite Hlen in Hin. by apply not_elem_of_nil in Hin.
Qed.

(** Two libraries, one of which lacks a function. *)
Definition demo_library (path : string) : option (string → bool) :=
  if bool_decide (path = "./libgood.so")%string then Some (λ _, true)
  else if bool_decide (path = "./libbad.so")%string then Some (λ name, negb (bool_decide (name = "packet_close")%string))
  else None.

Definition demo_plugins : list (Z * string * string) := [(1, "./", "libgood.so"); (2, "./", "libbad.so"); (3, "./", "none.so")]%string.

Lemma parser_loader_balanced_witness :
  let s := load_all demo_library CLoadPacketParse_new demo_plugins in
  GetPacketParseInfo s 1 = Some (mkParseInfo 1 "./libgood.so") ∧ GetPacketParseInfo s 2 = None ∧
  call_parser s (Some (mkParseInfo 1 "./libgood.so")) = Ok tt ∧ call_parser (Close s) (Some (mkParseInfo 1 "./libgood.so")) = Fault.
Proof.
  destruct (parser_loader_balanced demo_library demo_plugins) as (_ & H & _).
  - cbn. repeat constructor; set_solver.
  - split; [vm_compute; reflexivity|]. split; [vm_compute; reflexivity|]. apply (H 1). vm_compute. reflexivity.
Defined.

(** Loading a second plugin under an id leaves the library of the first open for good. *)
Theorem parser_reload_leaks library s id path1 file1 path2 file2 has1 has2 :
  balanced s → m_objPacketParseList s !! id = None → path1 +:+ file1 ≠ path2 +:+ file2 →
  library (path1 +:+ file1) = Some has1 → forallb has1 required = true →
  library (path2 +:+ file2) = Some has2 → forallb has2 required = true →
  open_count (Close (load_all library s [(id, path1, file1); (id, path2, file2)])) (path1 +:+ file1) = 1%nat.
Proof.
  intros Hb Hid Hne L1 H1 L2 H2. unfold load_all. cbn [foldl]. set (s1 := snd (LoadPacketInfo library s id path1 file1)).
  pose proof (load_result library s id path1 file1) as R1. cbv zeta in R1. rewrite L1, H1 in R1. destruct R1 as (_ & C1 & T1). fold s1 in C1, T1.
  pose proof (load_result library s1 id path2 file2) as R2. cbv zeta in R2. rewrite L2, H2 in R2. destruct R2 as (_ & C2 & T2).
  set (s2 := snd (LoadPacketInfo library s1 id path2 file2)) in *.
  change (open_count (Close s2) (path1 +:+ file1)) with
    (open_count (foldl close_one s2 (map snd (map_to_list (m_objPacketParseList s2)))) (path1 +:+ file1)).
  rewrite close_fold. fold (uses (m_objPacketParseList s2) (path1 +:+ file1)).
  rewrite C2, C1, T2, T1, Hb. rewrite decide_False by done. rewrite decide_True by done. rewrite insert_insert_eq, uses_insert by done. cbn.
  rewrite decide_False by done. lia.
Qed.
