(* ===== verification/Delivery.v ===== *)
(** * From the socket to the answer

    The TCP session, the default packet parser and the work threads put together: what a client sends
    is cut into chunks by the network, received by [TcpSession], parsed by [PacketInterface], handed to
    the work threads ([WorkThread]), executed by the thread of the connection ([Tms]) and answered by
    the plugins. *)

From Stdlib Require Import ZArith Lia.
From S2P Require Import Prelude Define SessionBuffer SessionCalls TcpSession PacketInterface.
From S2P Require Import SessionTable Iobridge Timer Tms Modules Communication WorkThread Dispatch.
From stdpp Require Import base numbers list gmap strings relations.
Local Open Scope Z_scope.

(** ** The session with the default parser *)

(** The parser plugin as a session of the given type calls it. *)
Definition plugin (ty : EM_CONNECT_IO_TYPE) : parser_call := λ b, default Fault (parse_packet_from_recv_buffer b [] ty).

(** The messages a session hands to the work threads, one list per read. *)
Definition messages (l : list app_call) : list (Z * list CMessage_Packet) :=
  omap (λ a, match a with AssignationMessages c m => Some (c, m) | _ => None end) l.

Lemma messages_app l1 l2 : messages (l1 ++ l2) = messages l1 ++ messages l2.
Proof. apply omap_app. Qed.

(** What the socket delivers. *)
Definition reads (os : list tcp_op) : list (list Z) :=
  omap (λ o, match o with TRead _ d _ _ _ => Some d | _ => None end) os.

(** Anything the session may be asked to do besides reading from a healthy socket with the default parser
    (it is not bridged). *)
Definition served (o : tcp_op) : Prop :=
  match o with
  | TRead ec _ _ _ parse => ec = false ∧ parse = plugin CONNECT_IO_TCP
  | TBridge _ _ => False
  | _ => True
  end.

(** The session [c] has received [rest] that the parser waits on. *)
Record receiving (c cap : Z) (rest : list Z) (s : CTcpSession) : Prop := {
  v_id : tconnect_id_ s = c;
  v_state : io_state_ s = SESSION_IO_LOGIC;
  v_wf : wf (session_recv_buffer_ s);
  v_cap : max_buff_size_ (session_recv_buffer_ s) = cap;
  v_rest : contents (session_recv_buffer_ s) = rest;
}.

(** The part of the state reading is about, and the messages handed over. *)
Definition same_input (s s' : CTcpSession) : Prop :=
  tconnect_id_ s' = tconnect_id_ s ∧ io_state_ s' = io_state_ s ∧ session_recv_buffer_ s' = session_recv_buffer_ s ∧
  messages (calls s') = messages (calls s).

Lemma same_receiving c cap rest s s' : same_input s s' → receiving c cap rest s → receiving c cap rest s'.
Proof. intros (E1 & E2 & E3 & _) [? ? ? ? ?]. split; by rewrite ?E1, ?E2, ?E3. Qed.

Lemma call_input s l : messages l = [] → same_input s (call s l).
Proof. intros Hl. split_and!; try done. cbn. by rewrite messages_app, Hl, app_nil_r. Qed.
Lemma close_imm_input s : same_input s (close_immediaterly s).
Proof. unfold close_immediaterly. by destruct (negb (socket_open s)). Qed.
Lemma do_read_input s : same_input s (do_read s).
Proof. unfold do_read. destruct (_ =? 0); [by apply call_input|done]. Qed.

#[local] Instance same_input_preorder : PreOrder same_input.
Proof.
  split; [by intros s; split_and!|]. intros s1 s2 s3 (? & ? & ? & ?) (? & ? & ? & ?). split_and!; congruence.
Qed.

Lemma do_write_input s : same_input s (TcpSession.do_write s).
Proof.
  unfold TcpSession.do_write. destruct (session_send_buffer_ s) as [|x l]; [done|]. destruct (is_active_close_ s); [|done].
  match goal with |- same_input s (send_write_fail_to_logic ?a _ _) => trans a; [done|] end. by apply call_input.
Qed.

Lemma completes_input s i ec len : same_input s (write_completes s i ec len).
Proof.
  unfold write_completes. destruct (in_flight s !! i) as [d|]; [|done]. unfold do_write_finish. destruct ec.
  - match goal with |- context [send_write_fail_to_logic ?a ?b ?c] => set (s1 := send_write_fail_to_logic a b c) end.
    assert (same_input s s1) by (etrans; [|by apply call_input]; done).
    destruct (is_active_close_ s1); [|done]. etrans; [done|apply close_imm_input].
  - match goal with |- context [TcpSession.add_send_finish_size ?a ?b] => set (s1 := TcpSession.add_send_finish_size a b) end.
    assert (same_input s s1) by done. destruct (_ && _); [|done]. etrans; [done|apply close_imm_input].
Qed.

Lemma other_input s o s' : (match o with TRead _ _ _ _ _ | TBridge _ _ => False | _ => True end) →
  tcp_step s o = Ok s' → same_input s s'.
Proof.
  intros Ho. destruct o; try done; cbn [tcp_step]; intros [= <-].
  - done.
  - apply do_write_input.
  - etrans; [|apply do_write_input]. done.
  - unfold TcpSession.close. destruct (_ =? _); [apply close_imm_input|]. etrans; [apply do_write_input|]. done.
  - unfold run_close. destruct (pending_close s); [done|].
    etrans; [by apply (call_input s [PacketDisconnect (tconnect_id_ s); DeleteThreadSession (tconnect_id_ s) (tremote_ip_ s) CONNECT_IO_TCP])|].
    done.
  - apply completes_input.
Qed.

(** One read: the chunk completes the frames [fs]. *)
Lemma read_frames c cap rest0 s chunk t r fs rest1 :
  receiving c cap rest0 s → cap < 2 ^ 32 → rest0 ++ chunk = concat (map frame_bytes fs) ++ rest1 → zlen (rest0 ++ chunk) <= cap →
  waiting rest1 → Forall frame_ok fs →
  ∃ s', tcp_step s (TRead false chunk t r (plugin CONNECT_IO_TCP)) = Ok s' ∧ receiving c cap rest1 s' ∧
    messages (calls s') = messages (calls s) ++ [(c, map frame_packet fs)].
Proof.
  intros [Hid Hst Hw Hm Hr] H32 Heq Hcap Hwait Hfs. cbn [tcp_step].
  assert (Hfit : zlen chunk <= get_buffer_size (session_recv_buffer_ s)).
  { rewrite get_buffer_size_wf, Hr, Hm by done. rewrite zlen_app in Hcap. lia. }
  rewrite ztake_all by done. unfold do_read_some.
  destruct (recv_into_fits _ chunk Hw Hfit) as (b1 & Eb & Hw1 & Hc1 & Hm1).
  match goal with |- context [recv_into ?b chunk] => change (recv_into b chunk) with (recv_into (session_recv_buffer_ s) chunk) end.
  rewrite Eb. cbn [obind]. rewrite Hr, Heq in Hc1.
  destruct (stream_parse_frames b1 fs rest1 [] Hw1) as (b2 & Ep & Hw2 & Hc2 & Hm2); [lia|done..|].
  assert (Eplug : plugin CONNECT_IO_TCP b1 = Ok (true, b2, map frame_packet fs)) by (unfold plugin, parse_packet_from_recv_buffer; by rewrite Ep).
  unfold receive_data. cbn -[plugin]. rewrite Hst, Eplug. cbn [obind]. eexists. split; [reflexivity|].
  match goal with |- receiving _ _ _ (do_read ?a) ∧ _ => destruct (do_read_input a) as (E1 & E2 & E3 & E4) end. rewrite E4. split.
  - split; rewrite ?E1, ?E2, ?E3; cbn; try done. congruence.
  - cbn. rewrite messages_app. cbn. by rewrite Hid.
Qed.

Lemma session_frames c cap os : Forall served os → ∀ rest0 s fs rest,
  receiving c cap rest0 s → cap < 2 ^ 32 → chunked cap rest0 (reads os) fs rest →
  ∃ s' ms, tcp_run s os = Ok s' ∧ receiving c cap rest s' ∧ messages (calls s') = messages (calls s) ++ map (pair c) ms ∧
    concat ms = map frame_packet fs.
Proof.
  induction 1 as [|o os Ho Hos IH]; intros rest0 s fs rest Hv H32 Hch; cbn [tcp_run].
  - inversion Hch; subst. exists s, []. cbn. by rewrite app_nil_r.
  - destruct o as [d| |d| | |i ec len|ec d t r parse|f t]; [..|done];
      try (match type of Hch with context [reads (?o :: _)] => pose proof (other_input s o) as Hin end;
           cbn [tcp_step] in Hin |- *; cbn [obind]; specialize (Hin _ I eq_refl);
           destruct (IH rest0 _ fs rest (same_receiving _ _ _ _ _ Hin Hv) H32 Hch) as (s' & ms & E & ? & Em & ?);
           exists s', ms; destruct Hin as (_ & _ & _ & <-); done).
    destruct Ho as [-> ->]. change (reads _) with (d :: reads os) in Hch. inversion Hch as [|? ? ? fs0 rest1 fs1 ? Heq Hcap Hw Hf Hch']; subst.
    destruct (read_frames c cap rest0 s d t r fs0 rest1) as (s1 & -> & Hv1 & Em1); try done. cbn [obind].
    destruct (IH rest1 s1 fs1 rest Hv1 H32 Hch') as (s' & ms & -> & ? & Em & Ec).
    exists s', (map frame_packet fs0 :: ms). split; [done|]. split; [done|]. split; [by rewrite Em, Em1, <- app_assoc|].
    cbn. by rewrite Ec, map_app.
Qed.

Lemma open_receiving junk c cap t remote local : 0 <= cap < 2 ^ 63 →
  receiving c cap [] (open junk c cap t remote local) ∧ messages (calls (open junk c cap t remote local)) = [].
Proof.
  intros Hcap. destruct (Init_wf junk cap Hcap). unfold open.
  match goal with |- context [do_read ?a] => destruct (do_read_input a) as (E1 & E2 & E3 & ->) end.
  split; [|done]. by split; rewrite ?E1, ?E2, ?E3.
Qed.

(** ** The work threads *)

Section Threads.

Context {W session comm : Type} `{!ISession session} `{!ICommunicationInterface comm} `{PQ : !PriorityQueue}.
Notation system := (sys W session comm).
Implicit Types (y : system) (x : session) (m : CModuleLogic W session).

(** The session hands its messages to the work threads. *)
Fixpoint hand_over y x (l : list (Z * list CMessage_Packet)) : outcome system :=
  match l with [] => Ok y | (c, m) :: l => let* y := wt_step y (WMessages c m x) in hand_over y x l end.

(** Steps of the thread [i] alone. *)
Definition thread_steps (i : Z) : nat → relation system := nsteps (λ y y', wt_step y (WThread i) = Ok y').

(** The thread [i] is open and its queue holds the messages [bs] of the connection [c]. *)
Record queued_for (i c : Z) x (p : nat) (bs : list (list CMessage_Packet)) y : Prop := {
  qf_task : ∃ t, m_mapLogicList (tms y) !! i = Some t ∧ open_task t ∧
    m_thread_queue t = map (λ l, run_message (TMessages x c l p)) bs;
}.

Definition nonempty (bs : list (list CMessage_Packet)) : list (list CMessage_Packet) := filter (λ l, l ≠ []) bs.

Lemma concat_nonempty bs : concat (nonempty bs) = concat bs.
Proof.
  induction bs as [|b bs IH]; [done|]. unfold nonempty in *. rewrite filter_cons. destruct (decide (b = [])) as [->|Hb].
  - by rewrite decide_False by tauto.
  - rewrite decide_True by done. cbn [concat]. by rewrite IH.
Qed.

(** What handing over leaves alone. *)
Definition same_core y y' : Prop :=
  plugins y' = plugins y ∧ trace y' = trace y ∧ modules y' = modules y ∧ logic y' = logic y ∧ sync y' = sync y.

#[local] Instance same_core_preorder : PreOrder same_core.
Proof.
  split; [by intros y; split_and!|].
  intros y1 y2 y3 (? & ? & ? & ? & ?) (? & ? & ? & ? & ?). split_and!; congruence.
Qed.

(** One list of messages none of which has a synchronous handler. *)
Lemma messages_step n y x c p l bs : wt_reachable n y → thread_module_list_ (logic y) !! Z.to_nat (c mod n) = Some p →
  Forall (λ q, ¬ is_sync (sync y) q) l → queued_for (c mod n) c x p bs y →
  ∃ y', wt_step y (WMessages c l x) = Ok y' ∧ wt_reachable n y' ∧ same_core y y' ∧
    queued_for (c mod n) c x p (bs ++ nonempty [l]) y'.
Proof.
  intros Hr Hp Hl [(t & Ht & Ho & Hq)]. destruct (wt_reachable_good n y Hr) as (Hw & Hn & _).
  assert (Hns : filter (is_sync (sync y)) l = []).
  { clear -Hl. induction Hl as [|q l Hq _ IH]; [done|]. by rewrite filter_cons, decide_False. }
  assert (Hna : filter (λ q, ¬ is_sync (sync y) q) l = l).
  { clear -Hl. induction Hl as [|q l Hq _ IH]; [done|]. by rewrite filter_cons, decide_True, IH. }
  assert (E : wt_step y (WMessages c l x) =
    Ok (if decide (l = []) then with_plugins y (plugins y)
        else post (with_plugins y (plugins y)) (c mod n) (TMessages x c l p))).
  { cbn [wt_step]. unfold assignation_thread_module_logic. rewrite do_sync_list_spec, Hns, Hna. cbn [run_sync foldl].
    change (0 <? zlen (pbuffer_ fresh_packet)) with false. cbn iota. destruct (decide (l = [])) as [->|Hne]; [done|].
    assert (0 <? zlen l = true) as ->. { apply Z.ltb_lt. unfold zlen. destruct l; [done|cbn; lia]. }
    unfold curr_thread_index, thread_module. pose proof (w_count _ (wf_is_core _ Hw)).
    change (logic (with_plugins y (plugins y))) with (logic y). rewrite (proj2 (Z.eqb_neq _ 0)) by lia. cbn [obind].
    rewrite Hn, Hp. done. }
  eexists. split; [exact E|]. split; [by eapply (wt_next n y (WMessages c l x))|]. unfold nonempty. rewrite filter_cons.
  destruct (decide (l = [])) as [->|Hne].
  - split; [by split_and!|]. rewrite decide_False by tauto. cbn. rewrite app_nil_r. split. by exists t.
  - split; [by split_and!|]. rewrite decide_True by done. split. exists (Put t (run_message (TMessages x c l p))).
    destruct (AddMessage_started (tms y) (c mod n) (TMessages x c l p) (c mod n) (w_start _ Hw)) as [Ha _].
    rewrite decide_True, Ht in Ha by done. split; [exact Ha|]. split; [by apply open_put|].
    unfold Put, MessageQueue.Push. cbn [m_thread_queue]. rewrite Hq, map_app. done.
Qed.

Lemma hand_over_spec n c x p ms : ∀ y bs, wt_reachable n y → thread_module_list_ (logic y) !! Z.to_nat (c mod n) = Some p →
  Forall (Forall (λ q, ¬ is_sync (sync y) q)) ms → queued_for (c mod n) c x p bs y →
  ∃ y', hand_over y x (map (pair c) ms) = Ok y' ∧ wt_reachable n y' ∧ same_core y y' ∧
    queued_for (c mod n) c x p (bs ++ nonempty ms) y'.
Proof.
  induction ms as [|l ms IH]; intros y bs Hr Hp Hms Hq; cbn [hand_over map].
  - exists y. cbn. rewrite app_nil_r. by split_and!.
  - apply Forall_cons in Hms as [Hl Hms]. destruct (messages_step n y x c p l bs Hr Hp Hl Hq) as (y1 & -> & Hr1 & Hc1 & Hq1).
    cbn [obind]. pose proof Hc1 as (_ & _ & _ & E4 & E5).
    destruct (IH y1 _ Hr1 ltac:(by rewrite E4) ltac:(by rewrite E5) Hq1) as (y' & E & Hr' & Hc' & Hq'). exists y'. split; [exact E|].
    split; [done|]. split; [by etrans|]. rewrite <- app_assoc in Hq'. change (l :: ms) with ([l] ++ ms). unfold nonempty in *.
    by rewrite filter_app.
Qed.

(** ** Answers *)

Lemma answers_app tbl source l1 l2 : ∀ (w : W), answers tbl w source (l1 ++ l2) =
  let '(r1, w1) := answers tbl w source l1 in let '(r2, w2) := answers tbl w1 source l2 in (r1 ++ r2, w2).
Proof.
  induction l1 as [|q l1 IH]; intros w; cbn [answers app]; [by destruct (answers tbl w source l2)|].
  destruct (do_module_message tbl w source q fresh_packet) as [[[? ?] ?] w1]. rewrite IH.
  destruct (answers tbl w1 source l1) as [r1 w2]. by destruct (answers tbl w2 source l2).
Qed.

(** What the work threads write to the sessions of connection [c]. *)
Definition written (c : Z) (es : list (session_effect session)) : list Z :=
  concat (omap (λ e, match e with
                     | set_write_buffer _ c' d | do_write_immediately _ c' d => if c' =? c then Some d else None
                     | _ => None
                     end) es).

Lemma written_app c es1 es2 : written c (es1 ++ es2) = written c es1 ++ written c es2.
Proof. unfold written. by rewrite omap_app, concat_app. Qed.

(** The source of a message as the module of its thread gives it to the plugins. *)
Definition task_source m x (c : Z) : CMessage_Source :=
  mkSource (ml_work_thread_id_ m) c (get_mark_id x c) (get_io_type x) ClientIPInfo_default ClientIPInfo_default.

(** A thread that is about to take a task from its queue runs it. *)
Lemma run_queued i c x p m l bs y : modules y !! p = Some m → queued_for i c x p (l :: bs) y →
  let ans := answers (modules_interface_ m) (plugins y) (task_source m x c) l in
  ∃ k y' m', thread_steps i k y y' ∧ queued_for i c x p bs y' ∧ modules y' !! p = Some m' ∧
    modules_interface_ m' = modules_interface_ m ∧ sessions_interface_ m' = sessions_interface_ m ∧
    ml_work_thread_id_ m' = ml_work_thread_id_ m ∧ plugins y' = snd ans ∧
    written c (trace y') = written c (trace y) ++ concat (map (reply_bytes (ml_get_session m c) c) (fst ans)).
Proof.
  intros Hm [(t & Ht & Ho & Hq)] ans.
  assert (∃ k y1 t1, thread_steps i k y y1 ∧ m_mapLogicList (tms y1) !! i = Some t1 ∧ open_task t1 ∧ svc_at t1 = AtPop ∧
    m_thread_queue t1 = m_thread_queue t ∧ modules y1 = modules y ∧ plugins y1 = plugins y ∧ trace y1 = trace y)
    as (k & y1 & t1 & Hk & Ht1 & Ho1 & Ha1 & Hq1 & Em & Ep & Et).
  { destruct (svc_at t) eqn:Ea; [|exists 0%nat, y, t; split_and!; try done; constructor|by destruct Ho as (_ & ? & _)].
    pose proof Ho as (Hrun & _ & Hall).
    exists 1%nat, (with_tms y (set_logic (tms y) (<[i := set_svc t (m_thread_queue t) AtPop (executed t)]> (m_mapLogicList (tms y))))),
      (set_svc t (m_thread_queue t) AtPop (executed t)). split_and!; try done.
    - eapply nsteps_once. cbn [wt_step]. unfold exec_thread, thread_step, next_task. rewrite Ht. unfold svc_step. by rewrite Ea, Hrun.
    - cbn. by rewrite lookup_insert_eq. }
  rewrite Hq in Hq1. cbn [map] in Hq1.
  set (t2 := set_svc t1 (map (λ l, run_message (TMessages x c l p)) bs) AtTest (executed t1 ++ [TMessages x c l p])).
  set (y2 := with_tms y1 (set_logic (tms y1) (<[i := t2]> (m_mapLogicList (tms y1))))).
  assert (Hm2 : modules y2 !! p = Some m) by (cbn; by rewrite Em).
  assert (E : wt_step y1 (WThread i) = do_work_thread_module_logic y2 x c l p).
  { cbn [wt_step]. unfold exec_thread, thread_step, next_task. rewrite Ht1. unfold svc_step. by rewrite Ha1, Hq1. }
  revert E. unfold do_work_thread_module_logic, get_ml. rewrite Hm2. cbn [obind]. fold (task_source m x c).
  destruct (messages_loop_spec p c (task_source m x c) l y2 m [] Hm2) as (y3 & -> & Hp3 & Ht3 & Htms3 & m' & Hm' & Hi & Hs & Hid).
  cbn [obind app]. change (plugins y2) with (plugins y1). rewrite Ep. fold ans. set (out := concat _).
  intros E. assert (Hq2 : ∀ y', tms y' = tms y3 → queued_for i c x p bs y').
  { intros y' Ey. split. exists t2. rewrite Ey, Htms3. split; [cbn; by rewrite lookup_insert_eq|]. split; [|done].
    destruct Ho1 as (? & _ & Hall). rewrite Hq1 in Hall. apply Forall_cons in Hall as [_ Hall]. by split_and!. }
  change (trace y2) with (trace y1) in Ht3. rewrite Et in Ht3. change (plugins y2) with (plugins y1) in Hp3. rewrite Ep in Hp3.
  exists (k + 1)%nat. destruct (0 <? zlen out) eqn:Ez.
  - exists (emit y3 [set_write_buffer x c out; do_write x c]), m'.
    split; [eapply nsteps_trans; [exact Hk|]; by apply nsteps_once|]. split_and!; try done; [by apply Hq2|].
    match goal with |- written _ (trace (emit _ ?a)) = _ => change (trace (emit y3 a)) with (trace y3 ++ a) end. rewrite written_app, Ht3. f_equal.
    unfold written. cbn [omap list_omap]. rewrite Z.eqb_refl. cbn [concat]. by rewrite app_nil_r.
  - exists y3, m'. split; [eapply nsteps_trans; [exact Hk|]; by apply nsteps_once|]. split_and!; try done; [by apply Hq2|].
    apply Z.ltb_ge in Ez. pose proof (zlen_nonneg out). rewrite (zlen_zero out) by lia. by rewrite Ht3, app_nil_r.
Qed.

Lemma drain_queue i c x p bs : ∀ y m, modules y !! p = Some m → queued_for i c x p bs y →
  let ans := answers (modules_interface_ m) (plugins y) (task_source m x c) (concat bs) in
  ∃ k y', thread_steps i k y y' ∧ queued_for i c x p [] y' ∧ plugins y' = snd ans ∧
    written c (trace y') = written c (trace y) ++ concat (map (reply_bytes (ml_get_session m c) c) (fst ans)).
Proof.
  induction bs as [|l bs IH]; intros y m Hm Hq; cbn [concat].
  - exists 0%nat, y. cbn. rewrite app_nil_r. split_and!; try done. constructor.
  - destruct (run_queued i c x p m l bs y Hm Hq) as (k & y1 & m' & Hk & Hq1 & Hm1 & Hi & Hs & Hid & Hp1 & Hw1).
    destruct (IH y1 m' Hm1 Hq1) as (k' & y' & Hk' & Hq' & Hp' & Hw').
    assert (Hsrc : task_source m' x c = task_source m x c) by (unfold task_source; by rewrite Hid).
    assert (Hses : ml_get_session m' c = ml_get_session m c) by (unfold ml_get_session; by rewrite Hs).
    rewrite Hi, Hsrc, Hp1 in Hp', Hw'. rewrite Hses, Hw1 in Hw'. rewrite answers_app.
    destruct (answers (modules_interface_ m) (plugins y) (task_source m x c) l) as [r1 w1]. cbn [fst snd] in *.
    destruct (answers (modules_interface_ m) w1 (task_source m x c) (concat bs)) as [r2 w2]. cbn [fst snd] in *.
    exists (k + k')%nat, y'. split_and!; try done; [by eapply nsteps_trans|]. by rewrite Hw', map_app, concat_app, app_assoc.
Qed.

End Threads.

(** ** Properties *)

(** C1: every request is answered, in order.  A client sends well-formed frames on a TCP connection; the session
    reads them without errors, through the shipped parser and without a bridge ([served]), in chunks that fit the
    receive buffer and of which none ends in the last 40 bytes of a frame whose header is complete ([chunked]: at such a cut
    the parser reads past the received data); meanwhile the session may be asked to write and close, and its writes
    complete or fail, at any points.  The work threads were started and anything may have happened to them; none of the
    frames has a command registered as synchronous, and the thread of the connection is open and idle.
    Then the session hands exactly these frames to the work threads; its thread, which then makes its own steps
    until its queue is empty again, gives each of them once and in order to the plugins; and what the work threads write
    to the connection is the concatenation of the plugins' answers to the frames, in the order the
    client sent them.  The handing over comes before the steps of the thread, and nothing else happens in
    between: other orders are the subject of [connection_affinity] and [received_messages_handled_once]. *)
Theorem requests_answered {W session comm} `{!ISession session} `{!ICommunicationInterface comm} `{!PriorityQueue} n
    (y : sys W session comm) x junk c cap time remote local os fs rest p m t :
  0 <= cap < 2 ^ 32 → Forall served os → chunked cap [] (reads os) fs rest →
  wt_reachable n y → thread_module_list_ (logic y) !! Z.to_nat (c mod n) = Some p → modules y !! p = Some m →
  m_mapLogicList (tms y) !! (c mod n) = Some t → open_task t → m_thread_queue t = [] →
  Forall (λ f, ¬ is_sync (sync y) (frame_packet f)) fs →
  ∃ s y1 k y2, tcp_run (open junk c cap time remote local) os = Ok s ∧ contents (session_recv_buffer_ s) = rest ∧
    hand_over y x (messages (calls s)) = Ok y1 ∧ thread_steps (c mod n) k y1 y2 ∧ queue_of y2 (c mod n) = Some [] ∧
    let ans := answers (modules_interface_ m) (plugins y) (task_source m x c) (map frame_packet fs) in
    plugins y2 = snd ans ∧
    written c (trace y2) = written c (trace y) ++ concat (map (reply_bytes (ml_get_session m c) c) (fst ans)).
Proof.
  intros Hcap Hos Hch Hr Hp Hm Ht Ho Hq Hfs. destruct (open_receiving junk c cap time remote local) as [Hv Hm0]; [lia|].
  destruct (session_frames c cap os Hos [] _ fs rest Hv (proj2 Hcap) Hch) as (s & ms & E & Hv' & Ems & Hms).
  rewrite Hm0 in Ems. cbn [app] in Ems. exists s.
  assert (Hall : Forall (Forall (λ q, ¬ is_sync (sync y) q)) ms).
  { apply Forall_concat. rewrite Hms. by apply Forall_map. }
  destruct (hand_over_spec n c x p ms y [] Hr Hp Hall) as (y1 & E1 & _ & (Ep & Et & Emod & _) & Hq1).
  { split. exists t. by rewrite Hq. }
  destruct (drain_queue (c mod n) c x p (nonempty ms) y1 m) as (k & y2 & Hk & Hq2 & Hp2 & Hw2); [by rewrite Emod|exact Hq1|].
  rewrite concat_nonempty, Hms, Ep, Et in *. exists y1, k, y2. rewrite Ems. split_and!; try done; [apply Hv'|].
  destruct Hq2 as [(t2 & Ht2 & _ & E2)]. unfold queue_of. rewrite Ht2. cbn. by rewrite E2.
Qed.

(** *** An example: a frame in two reads, with a write in between *)

#[local] Existing Instance sorted_queue.
#[local] Existing Instance demo_comm.

Definition demo_reads : list tcp_op :=
  [TRead false (ztake 10 (frame_bytes demo_frame)) 1 0 (plugin CONNECT_IO_TCP); TWriteNow [1; 2];
   TRead false (zdrop 10 (frame_bytes demo_frame) ++ ztake 39 (frame_bytes demo_frame)) 2 0 (plugin CONNECT_IO_TCP)].

Lemma demo_reads_chunked : chunked 1024 [] (reads demo_reads) [demo_frame] (ztake 39 (frame_bytes demo_frame)).
Proof.
  apply (chunked_cons 1024 [] _ _ [] (ztake 10 (frame_bytes demo_frame)));
    [reflexivity|vm_compute; congruence|left; reflexivity|constructor|].
  apply (chunked_cons 1024 _ _ _ [demo_frame] (ztake 39 (frame_bytes demo_frame)) []);
    [reflexivity|vm_compute; congruence|left; reflexivity
    |constructor; [apply demo_frame_ok|constructor]|constructor].
Qed.

(** The thread of connection 5 is idle, has module 1 with the session, and command 4097 is not synchronous. *)
Definition demo_idle (s : demo_sys) : bool :=
  match m_mapLogicList (tms s) !! 1, thread_module_list_ (logic s) !! 1%nat, modules s !! 1%nat, sync s !! 4097 with
  | Some t, Some 1%nat, Some m, None =>
      m_run t && match svc_at t, m_thread_queue t with Returned, _ | _, _ :: _ => false | _, [] => true end &&
      bool_decide (ml_get_session m 5 = Some tt)
  | _, _, _, _ => false
  end.

Lemma demo_is_idle : (let* s := demo_started in let* s := demo_run s demo_ops in Ok (demo_idle s)) = Ok true.
Proof. vm_compute. reflexivity. Qed.

Lemma demo_idle_facts (s : demo_sys) : demo_idle s = true →
  ∃ t m, m_mapLogicList (tms s) !! 1 = Some t ∧ open_task t ∧ m_thread_queue t = [] ∧
    thread_module_list_ (logic s) !! 1%nat = Some 1%nat ∧ modules s !! 1%nat = Some m ∧ ml_get_session m 5 = Some tt ∧
    sync s !! 4097 = None.
Proof.
  unfold demo_idle. destruct (m_mapLogicList (tms s) !! 1) as [t|]; [|done]. destruct (thread_module_list_ (logic s) !! 1%nat) as [[|[|p]]|]; try done.
  destruct (modules s !! 1%nat) as [m|]; [|done]. destruct (sync s !! 4097); [done|].
  intros [[Hr Hq]%andb_true_iff Hm%bool_decide_eq_true]%andb_true_iff. exists t, m. unfold open_task.
  destruct (svc_at t), (m_thread_queue t); try done; split_and!; try done; by constructor.
Qed.

Lemma requests_answered_witness :
  ∃ (y : demo_sys) m s y1 k y2, wt_reachable 2 y ∧ modules y !! 1%nat = Some m ∧ ml_get_session m 5 = Some tt ∧
    tcp_run (open (λ _, 0) 5 1024 0 ClientIPInfo_default ClientIPInfo_default) demo_reads = Ok s ∧
    hand_over y tt (messages (calls s)) = Ok y1 ∧ thread_steps 1 k y1 y2 ∧
    written 5 (trace y2) = written 5 (trace y) ++
      concat (map (reply_bytes (ml_get_session m 5) 5)
        (fst (answers (modules_interface_ m) (plugins y) (task_source m tt 5) [frame_packet demo_frame]))).
Proof.
  pose proof demo_is_idle as H. destruct demo_started as [s0|] eqn:E0; [|discriminate H]. cbn [obind] in H.
  destruct (demo_run s0 demo_ops) as [y|] eqn:E; [|discriminate H]. cbn [obind] in H. injection H as H.
  pose proof (demo_reachable s0 y E0 E) as Hr.
  destruct (demo_idle_facts y H) as (t & m & Ht & Ho & Hq & Hp & Hm & Hs & Hy).
  destruct (requests_answered 2 y tt (λ _, 0) 5 1024 0 ClientIPInfo_default ClientIPInfo_default demo_reads [demo_frame]
    (ztake 39 (frame_bytes demo_frame)) 1%nat m t) as (s & y1 & k & y2 & Es & _ & E1 & Hk & _ & _ & Hw).
  - lia.
  - unfold demo_reads. repeat constructor.
  - exact demo_reads_chunked.
  - exact Hr.
  - exact Hp.
  - exact Hm.
  - exact Ht.
  - exact Ho.
  - exact Hq.
  - constructor; [|constructor]. unfold is_sync. change (command_id_ (frame_packet demo_frame)) with 4097. rewrite Hy. by intros [].
  - exists y, m, s, y1, k, y2. split; [exact Hr|]. split; [exact Hm|]. split; [exact Hs|]. split; [exact Es|].
    split; [exact E1|]. split; [exact Hk|exact Hw].
Defined.
