(* ===== verification/QueueService.v ===== *)
(** * Queues between processes (src/PSS_ASIO/QueueSession/QueueService.{h,cpp}, src/third_include/shm_queue)

    [CQueueSessionManager] keeps the message queues a plugin has opened, each a [CMessage_Queue_Linux] over
    a System V message queue of the kernel.  Receiving is a thread of its own; closing sends this thread a
    message of type [MESSAGE_EXIT] and waits for it, holding the mutex of the manager.

    The kernel keeps a list of messages per key, which other processes share; a queue takes at most
    [qbytes] bytes.  A message the plugin receives may make it send one ([logic]).  An operation that waits
    (for a message, for the mutex, for a thread to end) is not possible until what it waits for happens:
    [step] is [None] then.  The system calls are given a size that counts the type of the message twice;
    the four bytes past the structure that they touch are not modelled.  The close and error functions of a
    plugin do not call the manager. *)

From Stdlib Require Import ZArith Lia.
From S2P Require Import Prelude.
From stdpp Require Import base numbers list gmap.
Local Open Scope Z_scope.

Definition MAX_MESSAGE_SIZE : Z := 100.
Definition MESSAGE_LOGIC : Z := 1.
Definition MESSAGE_EXIT : Z := 2.

Record Msg_queue_buffer := mkMsg { message_type_ : Z; len : Z; text : list Z }.
Definition Msg_queue_buffer_new : Msg_queue_buffer := mkMsg MESSAGE_LOGIC 0 (replicate 100 0).

Definition message_size : Z := MAX_MESSAGE_SIZE + 8 + 8.

(** Where the receiving thread is: before it has stored its id, in [msgrcv], in the plugin's function with
    a message, before the close function, or ended. *)
Inductive recv_pc := Starting | AtRecv | AtLogic (m : Msg_queue_buffer) | AtClose | Ended.

Record CMessage_Queue_Linux := mkQueue {
  queue_key_ : Z;
  message_max_size_ : Z;                   (* size_t *)
  message_count_ : Z;                      (* int *)
  recv_thread_is_run_ : bool;
  thread_id_ : Z;                          (* unsigned long long *)
  error_func_ : bool;                      (* set or not *)
  close_func_ : bool;
  tt_recv_ : option (Z * recv_pc);         (* the id the thread has, and where it is; [None] when it cannot be joined *)
}.

(** The calls of the plugin's functions; the receive function is given the text and the length of [m]. *)
Inductive callback := Received (key : Z) (m : Msg_queue_buffer) | Failed (key : Z) | Closed (key : Z).

Record world := mkWorld {
  queue_list_ : gmap Z CMessage_Queue_Linux;
  closing : option (list Z * bool);        (* the queues the holder of [mutex_] is closing; whether it erases them *)
  (* the environment *)
  kernel : gmap Z (list Msg_queue_buffer);
  sent : list (Z * list Z);                (* accepted messages *)
  callbacks : list callback;
}.

Definition world_new : world := mkWorld ∅ None ∅ [] [].

Section Queue.

Context (qbytes : Z) (logic : list Z → Z → option (Z * list Z)).

Implicit Types (w : world) (q : CMessage_Queue_Linux) (m : Msg_queue_buffer).

Definition pending w (key : Z) : list Msg_queue_buffer := default [] (kernel w !! key).
Definition set_kernel w (key : Z) (l : list Msg_queue_buffer) : world := w <| kernel := <[key := l]> (kernel w) |>.
Definition set_queue w (key : Z) q : world := w <| queue_list_ := <[key := q]> (queue_list_ w) |>.
Definition callback_of w (c : callback) : world := w <| callbacks := callbacks w ++ [c] |>.

(** [msgsnd] with IPC_NOWAIT: whether there was room. *)
Definition msgsnd w (key : Z) m : bool * world :=
  if (zlen (pending w key) + 1) * message_size <=? qbytes then (true, set_kernel w key (pending w key ++ [m])) else (false, w).

(** [create_instance] on a new queue; [opened] says whether [msgget] succeeds. *)
Definition create_instance (key message_size message_count : Z) (opened : bool) : bool * CMessage_Queue_Linux :=
  let q := mkQueue key message_size message_count false 0 false false None in
  if MAX_MESSAGE_SIZE <? message_size then (false, q) else (opened, q).

(** [set_proc_message]. *)
Definition set_proc_message w q (data : list Z) : outcome (bool * world) :=
  if message_max_size_ q <? zlen data then Ok (false, w)
  else if message_count_ q <? i32 (zlen (pending w (queue_key_ q))) then Ok (false, w)
  else
    let* text := mem_write (text Msg_queue_buffer_new) 0 data in
    let '(ok, w) := msgsnd w (queue_key_ q) (mkMsg MESSAGE_LOGIC (zlen data) text) in
    Ok (ok, if ok then w <| sent := sent w ++ [(queue_key_ q, data)] |> else w).

(** [recv_message]: a thread with id [tid]; assigning to a thread that can be joined ends the process. *)
Definition recv_message q (tid : Z) : outcome CMessage_Queue_Linux :=
  match tt_recv_ q with
  | Some _ => Fault
  | None => Ok (q <| recv_thread_is_run_ := true |> <| tt_recv_ := Some (tid, Starting) |>)
  end.

(** [close] up to the [join]. *)
Definition close_begin w q : world :=
  if recv_thread_is_run_ q
  then snd (msgsnd w (queue_key_ q) (mkMsg MESSAGE_EXIT (thread_id_ q) (text Msg_queue_buffer_new)))
  else w.

(** The [join]: possible once the thread has ended; joining no thread throws. *)
Definition join q : option (outcome CMessage_Queue_Linux) :=
  if recv_thread_is_run_ q then
    match tt_recv_ q with
    | None => Some Fault
    | Some (_, Ended) => Some (Ok (q <| tt_recv_ := None |>))
    | Some _ => None
    end
  else Some (Ok q).

(** One step of the receiving thread; [failed] when [msgrcv] reports an error.  The function of the plugin is
    also called for an exit message of another thread, after this was put back. *)
Definition thread_at q (tid : Z) (p : recv_pc) : CMessage_Queue_Linux := q <| tt_recv_ := Some (tid, p) |>.

Definition thread_step w (key : Z) q (tid : Z) (p : recv_pc) (failed : bool) : option world :=
  match p with
  | Starting => Some (set_queue w key (thread_at q tid AtRecv <| thread_id_ := tid |>))
  | AtRecv =>
      if failed then
        let w := set_queue w key (thread_at q tid AtClose) in
        Some (if error_func_ q then callback_of w (Failed key) else w)
      else
        match pending w (queue_key_ q) with
        | [] => None
        | m :: l =>
            let w := set_kernel w (queue_key_ q) l in
            if message_type_ m =? MESSAGE_EXIT then
              if len m =? thread_id_ q then Some (set_queue w key (thread_at q tid AtClose))
              else Some (set_queue (snd (msgsnd w (queue_key_ q) m)) key (thread_at q tid (AtLogic m)))
            else Some (set_queue w key (thread_at q tid (AtLogic m)))
        end
  | AtClose =>
      let w := set_queue w key (thread_at q tid Ended) in
      Some (if close_func_ q then callback_of w (Closed key) else w)
  | AtLogic _ | Ended => None
  end.

(** ** CQueueSessionManager *)

(** [create_queue]. *)
Definition create_queue w (key message_size message_count : Z) (opened : bool) : bool * world :=
  match queue_list_ w !! key with
  | Some _ => (true, w)
  | None =>
      let '(ok, q) := create_instance key message_size message_count opened in
      if negb ok then (false, w) else (true, set_queue w key q)
  end.

(** [send_queue_message]: the result of [set_proc_message] is dropped. *)
Definition send_queue_message w (key : Z) (data : list Z) : outcome (bool * world) :=
  match queue_list_ w !! key with
  | Some q => let* '(_, w) := set_proc_message w q data in Ok (true, w)
  | None => Ok (false, w)
  end.

(** [set_close_function], [set_error_function], [set_recv_function]. *)
Definition set_close_function w (key : Z) : bool * world :=
  match queue_list_ w !! key with
  | Some q => (true, set_queue w key (q <| close_func_ := true |>))
  | None => (false, w)
  end.
Definition set_error_function w (key : Z) : bool * world :=
  match queue_list_ w !! key with
  | Some q => (true, set_queue w key (q <| error_func_ := true |>))
  | None => (false, w)
  end.
Definition set_recv_function w (key tid : Z) : outcome (bool * world) :=
  match queue_list_ w !! key with
  | Some q => let* q := recv_message q tid in Ok (true, set_queue w key q)
  | None => Ok (false, w)
  end.

(** [close] of the queues [keys], one after the other: the exit message for the first is sent. *)
Definition start_closing w (keys : list Z) (erase : bool) : world :=
  match keys with
  | [] => w <| closing := None |>
  | key :: _ =>
      match queue_list_ w !! key with
      | Some q => close_begin w q <| closing := Some (keys, erase) |>
      | None => w <| closing := None |>
      end
  end.

(** [close()] and [close(key)] up to the first [join]. *)
Definition close_all w : world := start_closing w (map fst (map_entries (queue_list_ w))) false.
Definition close_key w (key : Z) : bool * world :=
  match queue_list_ w !! key with
  | Some _ => (true, start_closing w [key] true)
  | None => (false, w)
  end.

(** The first queue being closed has been joined. *)
Definition close_next w : option (outcome world) :=
  match closing w with
  | Some (key :: keys, erase) =>
      match queue_list_ w !! key with
      | Some q =>
          match join q with
          | Some (Ok q) =>
              let w := if erase : bool then w <| queue_list_ := delete key (queue_list_ w) |> else set_queue w key q in
              Some (Ok (start_closing w keys erase))
          | Some Fault => Some Fault
          | None => None
          end
      | None => None
      end
  | _ => None
  end.

(** ** Steps *)

Inductive queue_op :=
| QCreate (key message_size message_count : Z) (opened : bool)
| QSend (key : Z) (data : list Z)
| QSetClose (key : Z)
| QSetError (key : Z)
| QSetRecv (key tid : Z)
| QClose (key : Z)
| QCloseAll
| QJoined                                  (* the closer goes on *)
| QThread (key : Z) (failed : bool)        (* the receiving thread of a queue makes a step *)
| QOtherSend (key : Z) (m : Msg_queue_buffer)   (* another process *)
| QOtherTake (key : Z).

(** The operations of the manager wait for the mutex. *)
Definition locked w (o : outcome world) : option (outcome world) :=
  match closing w with Some _ => None | None => Some o end.

(** The receiving thread, with the function of the plugin. *)
Definition receiver w (key : Z) (failed : bool) : option (outcome world) :=
  match queue_list_ w !! key with
  | Some q =>
      match tt_recv_ q with
      | Some (tid, AtLogic m) =>
          let w1 := callback_of (set_queue w key (thread_at q tid AtRecv)) (Received key m) in
          match logic (text m) (len m) with
          | None => Some (Ok w1)
          | Some (key', data) => locked w (let* '(_, w) := send_queue_message w1 key' data in Ok w)
          end
      | Some (tid, p) => match thread_step w key q tid p failed with Some w => Some (Ok w) | None => None end
      | None => None
      end
  | None => None
  end.

Definition queue_step w (o : queue_op) : option (outcome world) :=
  match o with
  | QCreate key size count opened => locked w (Ok (snd (create_queue w key size count opened)))
  | QSend key data => locked w (let* '(_, w) := send_queue_message w key data in Ok w)
  | QSetClose key => locked w (Ok (snd (set_close_function w key)))
  | QSetError key => locked w (Ok (snd (set_error_function w key)))
  | QSetRecv key tid => locked w (let* '(_, w) := set_recv_function w key tid in Ok w)
  | QClose key => locked w (Ok (snd (close_key w key)))
  | QCloseAll => locked w (Ok (close_all w))
  | QJoined => close_next w
  | QThread key failed => receiver w key failed
  | QOtherSend key m => Some (Ok (snd (msgsnd w key m)))
  | QOtherTake key => match pending w key with m :: l => Some (Ok (set_kernel w key l)) | [] => None end
  end.

(** The states the operations of a set [P] lead to, and a given sequence of operations. *)
Definition queue_next (P : queue_op → Prop) w w' : Prop := ∃ o, P o ∧ queue_step w o = Some (Ok w').

Fixpoint queue_run w (os : list queue_op) : option (outcome world) :=
  match os with
  | [] => Some (Ok w)
  | o :: os => match queue_step w o with Some (Ok w) => queue_run w os | r => r end
  end.

(** ** The accounts of a key *)

Definition is_logic m : bool := negb (message_type_ m =? MESSAGE_EXIT).
Definition content m : list Z := ztake (len m) (text m).
Definition contents (l : list Msg_queue_buffer) : list (list Z) := content <$> List.filter is_logic l.

(** The message the receiving thread holds, what the function of the plugin was given and what was sent. *)
Definition held_of (r : option (Z * recv_pc)) : list Msg_queue_buffer :=
  match r with Some (_, AtLogic m) => [m] | _ => [] end.
Definition held w (key : Z) : list Msg_queue_buffer := held_of (queue_list_ w !! key ≫= tt_recv_).
Definition received w (key : Z) : list Msg_queue_buffer :=
  omap (λ c, match c with Received k m => if k =? key then Some m else None | _ => None end) (callbacks w).
Definition sent_to w (key : Z) : list (list Z) :=
  omap (λ x, if x.1 =? key then Some x.2 else None) (sent w).

Definition balanced w : Prop := ∀ key, sent_to w key = contents (received w key ++ held w key ++ pending w key).

Definition queue_wf (key : Z) q : Prop :=
  queue_key_ q = key ∧ message_max_size_ q <= MAX_MESSAGE_SIZE ∧ (tt_recv_ q ≠ None → recv_thread_is_run_ q = true).
Definition queues_wf w : Prop := map_Forall queue_wf (queue_list_ w).

Lemma contents_app l1 l2 : contents (l1 ++ l2) = contents l1 ++ contents l2.
Proof. unfold contents. by rewrite List.filter_app, fmap_app. Qed.

Lemma contents_exit m : message_type_ m = MESSAGE_EXIT → contents [m] = [].
Proof. intros E. unfold contents, is_logic. simpl. by rewrite E. Qed.

Lemma pending_set_kernel w k l key : pending (set_kernel w k l) key = if decide (k = key) then l else pending w key.
Proof. unfold pending, set_kernel. simpl. case_decide; subst; [by rewrite lookup_insert_eq | by rewrite lookup_insert_ne]. Qed.

Lemma held_set_queue w k q key : held (set_queue w k q) key = if decide (k = key) then held_of (tt_recv_ q) else held w key.
Proof. unfold held, set_queue. simpl. case_decide; subst; [by rewrite lookup_insert_eq | by rewrite lookup_insert_ne]. Qed.

Lemma received_callback w c key :
  received (callback_of w c) key =
  received w key ++ match c with Received k m => if decide (k = key) then [m] else [] | _ => [] end.
Proof.
  unfold received, callback_of. simpl. rewrite omap_app. f_equal. destruct c; simpl; try done.
  case_decide; [rewrite (proj2 (Z.eqb_eq _ _)) by done | rewrite (proj2 (Z.eqb_neq _ _)) by done]; done.
Qed.

Lemma queues_wf_set w k q : queues_wf w → queue_wf k q → queues_wf (set_queue w k q).
Proof. intros H Hq. by apply map_Forall_insert_2. Qed.

Lemma balanced_queue w k q : held_of (tt_recv_ q) = held w k → balanced w → balanced (set_queue w k q).
Proof.
  intros E H key. rewrite held_set_queue. specialize (H key). case_decide; subst; [rewrite E|]; apply H.
Qed.

Lemma balanced_exit w k m : message_type_ m = MESSAGE_EXIT → balanced w → balanced (snd (msgsnd w k m)).
Proof.
  intros E H key. unfold msgsnd. destruct (_ <=? _); simpl; [|apply H].
  rewrite pending_set_kernel. etrans; [apply (H key)|]. rewrite !contents_app.
  case_decide; subst; [|done]. rewrite contents_app, (contents_exit m), app_nil_r by done. done.
Qed.

Lemma balanced_callback w k : balanced w → balanced (callback_of w (Failed k)) ∧ balanced (callback_of w (Closed k)).
Proof. intros H. split; intros key; rewrite received_callback, app_nil_r; apply (H key). Qed.

Lemma balanced_take w k q m l :
  pending w k = m :: l → held w k = [] →
  contents (held_of (tt_recv_ q)) = contents [m] → balanced w → balanced (set_queue (set_kernel w k l) k q).
Proof.
  intros Hp Hh Hm H key. rewrite held_set_queue, !contents_app. specialize (H key).
  change (pending (set_queue ?w k q)) with (pending w). rewrite pending_set_kernel. case_decide; subst; [|by rewrite <- !contents_app].
  rewrite Hh, Hp, !contents_app in H. rewrite Hm. simpl in H. change (m :: l) with ([m] ++ l) in H.
  by rewrite contents_app in H.
Qed.

Lemma balanced_give w k q m :
  held w k = [m] → held_of (tt_recv_ q) = [] → balanced w →
  balanced (callback_of (set_queue w k q) (Received k m)).
Proof.
  intros Hh Hq H key. rewrite received_callback. specialize (H key). rewrite !contents_app in *.
  change (held (callback_of ?w _)) with (held w). rewrite held_set_queue. change (pending (callback_of ?w _)) with (pending w).
  case_decide; subst; [|by rewrite app_nil_r].
  rewrite Hh in H. rewrite Hq. etrans; [exact H|]. by rewrite <- app_assoc.
Qed.

Lemma balanced_sent w k m data :
  is_logic m = true → content m = data → balanced w →
  balanced (set_kernel w k (pending w k ++ [m]) <| sent := sent w ++ [(k, data)] |>).
Proof.
  intros Ht Hm H key. set (w1 := set_kernel w k (pending w k ++ [m])).
  change (sent_to (w1 <| sent := ?s |>) key) with (omap (λ x, if x.1 =? key then Some x.2 else None) s).
  change (received (w1 <| sent := _ |>)) with (received w). change (held (w1 <| sent := _ |>)) with (held w).
  change (pending (w1 <| sent := _ |>)) with (pending w1). unfold w1.
  rewrite pending_set_kernel, omap_app. fold (sent_to w key). rewrite (H key), !contents_app.
  case_decide; subst; simpl.
  - rewrite Z.eqb_refl, contents_app, !app_assoc. f_equal. unfold contents. simpl. by rewrite Ht.
  - rewrite (proj2 (Z.eqb_neq k key)) by done. by rewrite app_nil_r.
Qed.

(** [set_proc_message] is total on the queues of the manager: the copy stays within the message. *)
Lemma set_proc_message_ok w k q data :
  queue_wf k q → ∃ b w', set_proc_message w q data = Ok (b, w') ∧
    queue_list_ w' = queue_list_ w ∧ closing w' = closing w ∧ callbacks w' = callbacks w ∧ (balanced w → balanced w').
Proof.
  intros (Hk & Hmax & _). unfold set_proc_message, MAX_MESSAGE_SIZE in *.
  destruct (message_max_size_ q <? zlen data) eqn:E1; [by eauto 10|].
  destruct (message_count_ q <? _); [by eauto 10|].
  apply Z.ltb_ge in E1. unfold mem_write.
  replace (zlen (text Msg_queue_buffer_new)) with 100 by done.
  rewrite (proj2 (Z.leb_le (0 + zlen data) 100)) by lia. simpl. unfold msgsnd.
  destruct (_ <=? qbytes); simpl; [|by eauto 10]. do 2 eexists. split_and!; try done.
  intros H. apply balanced_sent; [done| |done]. unfold content. simpl. by apply ztake_app_eq.
Qed.

#[local] Arguments start_closing : simpl never.

(** Both parts of the invariant, the second for the operations of this process. *)
Definition keeps w w' : Prop := queues_wf w → queues_wf w' ∧ (balanced w → balanced w').

Lemma keeps_refl w : keeps w w.
Proof. by split. Qed.

Lemma keeps_trans w1 w2 w3 : keeps w1 w2 → keeps w2 w3 → keeps w1 w3.
Proof. intros H1 H2 Hw. destruct (H1 Hw) as [Hw2 ?]. destruct (H2 Hw2). auto. Qed.

Lemma keeps_queue w k q : queue_wf k q → held_of (tt_recv_ q) = held w k → keeps w (set_queue w k q).
Proof. intros. split; [by apply queues_wf_set | by apply balanced_queue]. Qed.

Lemma keeps_exit w k m : message_type_ m = MESSAGE_EXIT → keeps w (snd (msgsnd w k m)).
Proof. intros. split; [by unfold msgsnd; destruct (_ <=? _) | by apply balanced_exit]. Qed.

Lemma keeps_start_closing w keys e : keeps w (start_closing w keys e).
Proof.
  unfold start_closing. destruct keys as [|k keys]; [done|]. destruct (_ !! k) as [q|]; [|done].
  unfold close_begin. destruct (recv_thread_is_run_ q); [|done].
  by apply (keeps_exit w (queue_key_ q) (mkMsg MESSAGE_EXIT (thread_id_ q) (text Msg_queue_buffer_new))).
Qed.

Lemma held_lookup w k q : queue_list_ w !! k = Some q → held w k = held_of (tt_recv_ q).
Proof. unfold held. by intros ->. Qed.

Lemma queue_wf_thread k q t p : queue_wf k q → tt_recv_ q = Some t → ∀ tid, queue_wf k (thread_at q tid p).
Proof. intros (? & ? & Hr) Ht tid. split_and!; simpl; try done. intros _. apply Hr. by rewrite Ht. Qed.

Lemma send_queue_message_ok w k data :
  queues_wf w → ∃ b w', send_queue_message w k data = Ok (b, w') ∧
    queue_list_ w' = queue_list_ w ∧ closing w' = closing w ∧ callbacks w' = callbacks w ∧ keeps w w'.
Proof.
  intros Hw. unfold send_queue_message. destruct (_ !! k) as [q|] eqn:Hq; [|eauto 10 using keeps_refl].
  destruct (set_proc_message_ok w k q data) as (b & w' & E & Hl & ? & ? & ?); [by apply (Hw k)|].
  rewrite E. simpl. do 2 eexists. split_and!; eauto. split; [|done]. unfold queues_wf. by rewrite Hl.
Qed.

Lemma set_queue_msgsnd w k m k' q : set_queue (snd (msgsnd w k m)) k' q = snd (msgsnd (set_queue w k' q) k m).
Proof. unfold msgsnd. change (pending (set_queue w k' q)) with (pending w). by destruct (_ <=? _). Qed.

Lemma keeps_thread_step w k q tid p failed w' :
  queues_wf w → queue_list_ w !! k = Some q → tt_recv_ q = Some (tid, p) →
  thread_step w k q tid p failed = Some w' → keeps w w'.
Proof.
  intros Hw Hq Ht. pose proof (Hw k q Hq) as Hqw. destruct (Hqw) as (Hk & _). subst k.
  pose proof (held_lookup _ _ _ Hq) as Hh. rewrite Ht in Hh.
  assert (Hat : ∀ p', queue_wf (queue_key_ q) (thread_at q tid p')) by eauto using queue_wf_thread.
  destruct p; simpl; intros E; simplify_eq.
  - apply keeps_queue; [exact (Hat AtRecv) | done].
  - destruct failed; simplify_eq.
    { eapply keeps_trans; [by apply (keeps_queue w (queue_key_ q) (thread_at q tid AtClose))|].
      destruct (error_func_ q); [|apply keeps_refl]. split; [done|]. apply balanced_callback. }
    destruct (pending w _) as [|m l] eqn:Hp; [done|].
    assert (Hx : ∀ p', contents (held_of (Some (tid, p'))) = contents [m] →
      keeps w (set_queue (set_kernel w (queue_key_ q) l) (queue_key_ q) (thread_at q tid p'))).
    { intros p' Hm. split; [by apply queues_wf_set | by apply balanced_take with m]. }
    destruct (_ =? _) eqn:Ex; [|by simplify_eq; apply Hx]. apply Z.eqb_eq in Ex.
    destruct (_ =? _); simplify_eq; [by apply Hx; rewrite contents_exit|].
    rewrite set_queue_msgsnd. eapply keeps_trans; [by apply (Hx (AtLogic m)) | by apply keeps_exit].
  - eapply keeps_trans; [by apply (keeps_queue w (queue_key_ q) (thread_at q tid Ended))|].
    destruct (close_func_ q); [|apply keeps_refl]. split; [done|]. apply balanced_callback.
Qed.

Definition own_op (o : queue_op) : Prop := match o with QOtherSend _ _ | QOtherTake _ => False | _ => True end.

Lemma locked_inv w o w' : locked w o = Some (Ok w') → closing w = None ∧ o = Ok w'.
Proof. unfold locked. destruct (closing w); [done|]. by intros [= ->]. Qed.

Lemma keeps_receiver w k failed w' : queues_wf w → receiver w k failed = Some (Ok w') → keeps w w'.
Proof.
  intros Hw. unfold receiver. destruct (_ !! k) as [q|] eqn:Hq; [|done].
  destruct (tt_recv_ q) as [[tid p]|] eqn:Ht; [|done].
  pose proof (held_lookup _ _ _ Hq) as Hh. rewrite Ht in Hh.
  assert (Hs : ∀ w', match thread_step w k q tid p failed with Some w => Some (Ok w) | None => None end = Some (Ok w') → keeps w w').
  { intros w1. destruct (thread_step _ _ _ _ _ _) eqn:E; [|done]. intros [= <-]. by eapply keeps_thread_step. }
  destruct p as [| |m| |]; try by apply Hs.
  assert (H1 : keeps w (callback_of (set_queue w k (thread_at q tid AtRecv)) (Received k m))).
  { split; [|by apply balanced_give]. apply queues_wf_set; [done|]. eapply queue_wf_thread; [by apply (Hw k)|done]. }
  destruct (logic _ _) as [[k' data]|]; [|by intros [= <-]].
  intros [_ E]%locked_inv. destruct (H1 Hw) as [Hw1 _].
  destruct (send_queue_message_ok _ k' data Hw1) as (b & w2 & E2 & _ & _ & _ & H2).
  rewrite E2 in E. simpl in E. simplify_eq. exact (keeps_trans _ _ _ H1 H2).
Qed.

Lemma keeps_set w k q q' :
  queues_wf w → queue_list_ w !! k = Some q → (queue_wf k q → queue_wf k q') → held_of (tt_recv_ q') = held_of (tt_recv_ q) →
  keeps w (set_queue w k q').
Proof.
  intros Hw Hq Hf Hh. apply keeps_queue; [by apply Hf, (Hw k)|]. by rewrite Hh, (held_lookup _ _ _ Hq).
Qed.

Lemma keeps_close_next w w' : queues_wf w → close_next w = Some (Ok w') → keeps w w'.
Proof.
  intros Hw. unfold close_next. destruct (closing w) as [[[|k keys] erase]|]; try done.
  destruct (_ !! k) as [q|] eqn:Hq; [|done]. unfold join.
  assert (Hd : ∀ q', queue_wf k q → held_of (tt_recv_ q) = [] → (queue_wf k q → queue_wf k q') → tt_recv_ q' = None →
     keeps w (if erase : bool then w <| queue_list_ := delete k (queue_list_ w) |> else set_queue w k q')).
  { intros q' Hqw Hh Hf Hn. destruct erase; [|apply keeps_set with q; rewrite ?Hn; auto].
    split; [by apply map_Forall_delete|]. intros Hb key. unfold held. simpl.
    destruct (decide (k = key)) as [<-|]; [rewrite lookup_delete_eq | rewrite lookup_delete_ne by done; apply Hb].
    simpl. etrans; [apply Hb|]. by rewrite (held_lookup _ _ _ Hq), Hh. }
  pose proof (Hw k q Hq) as Hqw. 
  destruct (recv_thread_is_run_ q) eqn:Er.
  - destruct (tt_recv_ q) as [[tid [| | | |]]|] eqn:Ht; try done. intros E. injection E as <-.
    refine (keeps_trans _ _ _ (Hd (q <| tt_recv_ := None |>) _ _ _ _) (keeps_start_closing _ _ _)); try done.
    intros (?&?&?). by split_and!.
  - intros E. simplify_eq. eapply keeps_trans; [|apply keeps_start_closing].
    assert (tt_recv_ q = None) as Hn. { destruct Hqw as (_&_&Hr). destruct (tt_recv_ q); [|done]. by rewrite Hr in Er. }
    apply Hd; try done. by rewrite Hn.
Qed.

Lemma keeps_step w o w' : queues_wf w → own_op o → queue_step w o = Some (Ok w') → keeps w w'.
Proof.
  intros Hw Ho E. destruct o as [k size count opened|k data|k|k|k tid|k| | |k failed| |]; simpl in *; try done.
  all: try apply locked_inv in E as [_ E].
  - unfold create_queue in E. destruct (_ !! k) eqn:Hq; [by simplify_eq|]. unfold create_instance in E.
    destruct (MAX_MESSAGE_SIZE <? size) eqn:Es; [by simplify_eq|]. apply Z.ltb_ge in Es.
    destruct opened; simplify_eq; [|apply keeps_refl]. apply keeps_queue; [by split_and!|].
    unfold held. by rewrite Hq.
  - destruct (send_queue_message_ok w k data Hw) as (b & w2 & E2 & _ & _ & _ & H2). rewrite E2 in E. simpl in E. by simplify_eq.
  - unfold set_close_function in E. destruct (_ !! k) eqn:Hq; simplify_eq; [|done]. by eapply keeps_set.
  - unfold set_error_function in E. destruct (_ !! k) eqn:Hq; simplify_eq; [|done]. by eapply keeps_set.
  - unfold set_recv_function, recv_message in E. destruct (_ !! k) as [q|] eqn:Hq; [|by simpl in E; simplify_eq].
    destruct (tt_recv_ q) eqn:Ht; [done|]. simpl in E. simplify_eq. eapply keeps_set; [done|done| |by rewrite Ht].
    intros (?&?&?). by split_and!.
  - unfold close_key in E. destruct (_ !! k); injection E as <-; [apply keeps_start_closing | apply keeps_refl].
  - injection E as <-. apply keeps_start_closing.
  - by apply keeps_close_next.
  - by eapply keeps_receiver.
Qed.

Lemma queues_wf_step w o w' : queues_wf w → queue_step w o = Some (Ok w') → queues_wf w'.
Proof.
  intros Hw E. pose proof (keeps_step w o w' Hw) as Hk. destruct o as [| | | | | | | | |k m|k]; try by apply (Hk I E Hw).
  - simpl in E. simplify_eq. unfold msgsnd. by destruct (_ <=? _).
  - simpl in E. destruct (pending w k); [done|]. by simplify_eq.
Qed.

Definition any_op (o : queue_op) : Prop := True.

Lemma reachable_wf P w : rtc (queue_next P) world_new w → queues_wf w.
Proof.
  revert w. apply (rtc_ind_r _ world_new); [by apply map_Forall_empty|].
  intros w w' _ (o & _ & E) Hw. by eapply queues_wf_step.
Qed.

(** C9: nothing a plugin sends through a queue is lost, duplicated or reordered, as long as no other process
    uses the queue: at any time, and also across closing and opening it again, the messages accepted for a key
    are, in order, the contents of the data messages among those the receive function was given, then the one the
    receiving thread holds, then those in the kernel.  The exit messages which close puts into the same kernel
    queue are left out of the comparison ([is_logic]); the receive function may be given such a message too
    ([foreign_exit_redelivered]).  A message is accepted when its length and the number of
    waiting messages are within the limits of the queue and the kernel has room for it. *)
Theorem queue_fifo w :
  rtc (queue_next own_op) world_new w →
  ∀ key, sent_to w key = content <$> List.filter is_logic (received w key ++ held w key ++ pending w key).
Proof.
  intros H. assert (queues_wf w ∧ balanced w) as [_ Hb]; [|exact Hb]. revert w H.
  apply (rtc_ind_r _ world_new); [split; [by apply map_Forall_empty | done]|].
  intros w w' _ (o & Ho & E) [Hw Hb]. destruct (keeps_step _ _ _ Hw Ho E Hw). auto.
Qed.

Lemma receiver_no_fault w key failed : queues_wf w → receiver w key failed ≠ Some Fault.
Proof.
  intros Hw. unfold receiver. destruct (_ !! key) as [q|] eqn:Hq; [|done].
  destruct (tt_recv_ q) as [[tid p]|] eqn:Ht; [|done]. destruct p as [| |m| |]; try by destruct (thread_step _ _ _ _ _ _).
  destruct (logic _ _) as [[k data]|]; [|done]. unfold locked. destruct (closing w); [done|].
  set (w1 := callback_of _ _). assert (Hw1 : queues_wf w1).
  { apply queues_wf_set; [done|]. eapply queue_wf_thread; [by apply (Hw key)|done]. }
  by destruct (send_queue_message_ok w1 k data Hw1) as (? & ? & -> & _).
Qed.

Lemma queue_step_fault w o :
  queues_wf w →
  queue_step w o = Some Fault ↔
    (∃ key tid q, o = QSetRecv key tid ∧ closing w = None ∧ queue_list_ w !! key = Some q ∧ is_Some (tt_recv_ q)) ∨
    (∃ key keys e q, o = QJoined ∧ closing w = Some (key :: keys, e) ∧ queue_list_ w !! key = Some q ∧
       recv_thread_is_run_ q = true ∧ tt_recv_ q = None).
Proof.
  intros Hw. split.
  - destruct o as [k size count opened|k data|k|k|k tid|k| | |k failed|k m|k]; simpl; unfold locked; try by destruct (closing w).
    + destruct (closing w); [done|]. by destruct (send_queue_message_ok w k data Hw) as (? & ? & -> & _).
    + destruct (closing w) eqn:Hc; [done|]. unfold set_recv_function, recv_message.
      destruct (_ !! k) as [q|] eqn:Hq; [|done]. destruct (tt_recv_ q) eqn:Ht; [|done]. intros _. left. by eauto 10.
    + unfold close_next, join. destruct (closing w) as [[[|k keys] e]|] eqn:Hc; try done.
      destruct (_ !! k) as [q|] eqn:Hq; [|done]. destruct (recv_thread_is_run_ q) eqn:Hr; [|done].
      destruct (tt_recv_ q) as [[? []]|] eqn:Ht; try done. right. by eauto 10.
    + intros E. by apply receiver_no_fault in E.
    + by destruct (pending w k).
  - intros [(key & tid & q & -> & Hc & Hq & (t & Ht)) | (key & keys & e & q & -> & Hc & Hq & Hr & Ht)]; simpl.
    + unfold locked, set_recv_function, recv_message. by rewrite Hc, Hq, Ht.
    + unfold close_next, join. by rewrite Hc, Hq, Hr, Ht.
Qed.

(** *** The join that ends a close

    A queue can be joined when its thread, if it ever had one, has not been joined before.  If every close
    begins in such a state, then the join it ends with does not throw. *)
Definition joinable q : Prop := recv_thread_is_run_ q = true → is_Some (tt_recv_ q).
Definition close_pre w (o : queue_op) : Prop :=
  match o with
  | QClose key => ∀ q, queue_list_ w !! key = Some q → joinable q
  | QCloseAll => map_Forall (λ _, joinable) (queue_list_ w)
  | _ => True
  end.
Definition closing_ok w : Prop :=
  ∀ keys e, closing w = Some (keys, e) →
    NoDup keys ∧ ∀ key q, key ∈ keys → queue_list_ w !! key = Some q → joinable q.

Lemma closing_ok_none w : closing w = None → closing_ok w.
Proof. intros E keys e. by rewrite E. Qed.

Lemma msgsnd_frame w k m : queue_list_ (snd (msgsnd w k m)) = queue_list_ w ∧ closing (snd (msgsnd w k m)) = closing w.
Proof. unfold msgsnd. by destruct (_ <=? _). Qed.

Lemma start_closing_ok w keys e : NoDup keys → (∀ key q, key ∈ keys → queue_list_ w !! key = Some q → joinable q) →
  closing_ok (start_closing w keys e).
Proof.
  intros Hd Hj. unfold start_closing. destruct keys as [|k keys]; [by apply closing_ok_none|].
  destruct (queue_list_ w !! k) as [q|]; [|by apply closing_ok_none].
  intros keys' e'. cbn. intros [= <- <-]. split; [done|]. intros key q' Hk. unfold close_begin.
  destruct (recv_thread_is_run_ q); rewrite ?(proj1 (msgsnd_frame _ _ _)); by apply Hj.
Qed.

(** Changing one queue without touching its thread's being there. *)
Lemma closing_ok_queue w w' k q q' : queue_list_ w !! k = Some q → queue_list_ w' = <[k := q']> (queue_list_ w) →
  closing w' = closing w → (joinable q → joinable q') → closing_ok w → closing_ok w'.
Proof.
  intros Hq El Ec Hj Hw keys e. rewrite Ec. intros [Hd Ho]%Hw. split; [done|]. intros key q1 Hk. rewrite El.
  destruct (decide (k = key)) as [<-|]; [rewrite lookup_insert_eq; intros [= <-]; eauto|].
  rewrite lookup_insert_ne by done. eauto.
Qed.

Lemma thread_step_queue w k q tid p failed w' : thread_step w k q tid p failed = Some w' →
  closing w' = closing w ∧ ∃ q', queue_list_ w' = <[k := q']> (queue_list_ w) ∧ is_Some (tt_recv_ q').
Proof.
  destruct p; simpl; intros E; simplify_eq.
  - split; [done|]. eexists. by split.
  - destruct failed; [destruct (error_func_ q)|destruct (pending w _); [done|];
      destruct (_ =? _); [destruct (_ =? _)|]; unfold msgsnd in *; try destruct (_ <=? _)];
      simplify_eq; (split; [done|]; eexists; by split).
  - destruct (close_func_ q); (split; [done|]; eexists; by split).
Qed.

Lemma closing_ok_receiver w k failed w' : queues_wf w → closing_ok w → receiver w k failed = Some (Ok w') → closing_ok w'.
Proof.
  intros Hw Hc. unfold receiver. destruct (_ !! k) as [q|] eqn:Hq; [|done].
  destruct (tt_recv_ q) as [[tid p]|] eqn:Ht; [|done].
  assert (Hs : ∀ w', match thread_step w k q tid p failed with Some w => Some (Ok w) | None => None end = Some (Ok w') → closing_ok w').
  { intros w1. destruct (thread_step _ _ _ _ _ _) eqn:E; [|done]. intros [= <-].
    destruct (thread_step_queue _ _ _ _ _ _ _ E) as (Ec & q' & El & Hq').
    apply (closing_ok_queue w _ k q q'); try done. by intros _ _. }
  destruct p as [| |m| |]; try by apply Hs.
  destruct (logic _ _) as [[k' data]|].
  - intros [En E]%locked_inv. apply closing_ok_none.
    set (w1 := callback_of _ _) in E.
    assert (Hw1 : queues_wf w1).
    { apply queues_wf_set; [done|]. eapply queue_wf_thread; [by apply (Hw k)|done]. }
    destruct (send_queue_message_ok w1 k' data Hw1) as (b & w2 & E2 & _ & Ec2 & _). rewrite E2 in E. simpl in E. simplify_eq.
    by rewrite Ec2.
  - intros [= <-]. apply (closing_ok_queue w _ k q (thread_at q tid AtRecv)); try done. by intros _ _.
Qed.

Lemma closing_ok_next w w' : closing_ok w → close_next w = Some (Ok w') → closing_ok w'.
Proof.
  intros Hw. unfold close_next. destruct (closing w) as [[[|k keys] erase]|] eqn:Hc; try done.
  destruct (Hw _ _ Hc) as [[Hk Hd]%NoDup_cons Hj].
  destruct (_ !! k) as [q|]; [|done]. destruct (join q) as [[q'|]|]; try done. intros [= <-].
  apply start_closing_ok; [done|]. intros key q1 Hin. assert (k ≠ key) by (by intros ->).
  destruct erase; cbn; rewrite ?lookup_delete_ne, ?lookup_insert_ne by done; apply Hj; by right.
Qed.

Lemma closing_ok_step w o w' : queues_wf w → closing_ok w → close_pre w o → queue_step w o = Some (Ok w') → closing_ok w'.
Proof.
  intros Hw Hc Ho E. destruct o as [k size count opened|k data|k|k|k tid|k| | |k failed|k m|k]; simpl in E.
  all: try apply locked_inv in E as [En E].
  - apply closing_ok_none. unfold create_queue in E. destruct (_ !! k); [by simplify_eq|].
    destruct (create_instance _ _ _ _) as [[] ?]; by simplify_eq.
  - destruct (send_queue_message_ok w k data Hw) as (b & w2 & E2 & _ & Ec2 & _). rewrite E2 in E. simpl in E. simplify_eq.
    apply closing_ok_none. by rewrite Ec2.
  - apply closing_ok_none. unfold set_close_function in E. destruct (_ !! k); by simplify_eq.
  - apply closing_ok_none. unfold set_error_function in E. destruct (_ !! k); by simplify_eq.
  - apply closing_ok_none. unfold set_recv_function, recv_message in E. destruct (_ !! k) as [q|]; [|by simpl in E; simplify_eq].
    destruct (tt_recv_ q); [done|]. simpl in E. by simplify_eq.
  - unfold close_key in E. destruct (_ !! k) eqn:Hq; injection E as <-; [|by apply closing_ok_none].
    apply start_closing_ok; [by apply NoDup_singleton|]. intros key q ->%list_elem_of_singleton. apply Ho.
  - injection E as <-. apply start_closing_ok; [apply map_entries_keys_NoDup|]. intros key q _. apply Ho.
  - by eapply closing_ok_next.
  - by eapply closing_ok_receiver.
  - simplify_eq. destruct (msgsnd_frame w k m) as [El Ec]. unfold closing_ok. by rewrite El, Ec.
  - destruct (pending w k); [done|]. by simplify_eq.
Qed.

Lemma closing_ok_joins w : queues_wf w → closing_ok w → queue_step w QJoined ≠ Some Fault.
Proof.
  intros Hw Hc E. apply (queue_step_fault w QJoined Hw) in E
    as [(? & ? & ? & ? & _)|(key & keys & e & q & _ & Ec & Hq & Hr & Hn)]; [done|].
  destruct (Hc _ _ Ec) as [_ Hj]. destruct (Hj key q ltac:(by left) Hq Hr) as [? Ht]. by rewrite Hn in Ht.
Qed.

(** The operations of the manager only wait for a queue that is being closed. *)
Lemma queue_step_blocked w o :
  o ≠ QJoined → (∀ key failed, o ≠ QThread key failed) → (∀ key, o ≠ QOtherTake key) →
  queue_step w o = None → is_Some (closing w).
Proof. intros. destruct o; simpl in *; unfold locked in *; destruct (closing w); naive_solver. Qed.

(** The ways an operation of the queue manager ends the process, in any state that can be reached: only
    by setting a receive function a second time (assigning to a running [std::thread]), or by closing a queue
    whose thread was joined before (which [close()] leaves in the table).  No message, whatever its length,
    is copied beyond the message structure. *)
Theorem queue_faults w o :
  rtc (queue_next any_op) world_new w →
  queue_step w o = Some Fault ↔
    (∃ key tid q, o = QSetRecv key tid ∧ closing w = None ∧ queue_list_ w !! key = Some q ∧ is_Some (tt_recv_ q)) ∨
    (∃ key keys e q, o = QJoined ∧ closing w = Some (key :: keys, e) ∧ queue_list_ w !! key = Some q ∧
       recv_thread_is_run_ q = true ∧ tt_recv_ q = None).
Proof. intros Hw%reachable_wf. by apply queue_step_fault. Qed.

(** *** The mutex held while a thread is joined *)

Definition waits_for_itself w (key : Z) : Prop :=
  ∃ keys e q tid m x, closing w = Some (key :: keys, e) ∧ queue_list_ w !! key = Some q ∧
    recv_thread_is_run_ q = true ∧ tt_recv_ q = Some (tid, AtLogic m) ∧ logic (text m) (len m) = Some x.

Lemma thread_step_frame w k q tid p failed w' :
  thread_step w k q tid p failed = Some w' →
  closing w' = closing w ∧ ∀ k', k' ≠ k → queue_list_ w' !! k' = queue_list_ w !! k'.
Proof.
  destruct p; simpl; intros E; simplify_eq.
  - split; [done|]. intros. simpl. by rewrite lookup_insert_ne.
  - destruct failed; [destruct (error_func_ q)|destruct (pending w _); [done|];
      destruct (_ =? _); [destruct (_ =? _)|]; unfold msgsnd in *; try destruct (_ <=? _)];
      simplify_eq; (split; [done|]; intros; simpl; by rewrite lookup_insert_ne).
  - destruct (close_func_ q); (split; [done|]; intros; simpl; by rewrite lookup_insert_ne).
Qed.

Lemma waits_for_itself_step w key o w' : waits_for_itself w key → queue_step w o = Some (Ok w') → waits_for_itself w' key.
Proof.
  intros (keys & e & q & tid & m & x & Hc & Hq & Hr & Ht & Hx) E.
  destruct o as [| | | | | | | |k failed|k m'|k]; simpl in E; unfold locked in E; rewrite ?Hc in E; try done.
  - unfold close_next, join in E. by rewrite Hc, Hq, Hr, Ht in E.
  - unfold receiver in E. destruct (decide (k = key)) as [->|Hne].
    { rewrite Hq, Ht, Hx in E. unfold locked in E. destruct x. by rewrite Hc in E. }
    assert (closing w' = closing w ∧ queue_list_ w' !! key = queue_list_ w !! key) as [Ec Eq].
    { destruct (_ !! k) as [q'|]; [|done]. destruct (tt_recv_ q') as [[tid' p]|]; [|done].
      assert (Hs : ∀ p, match thread_step w k q' tid' p failed with Some w => Some (Ok w) | None => None end = Some (Ok w') →
        closing w' = closing w ∧ queue_list_ w' !! key = queue_list_ w !! key).
      { intros p'. destruct (thread_step w k q' tid' p' failed) eqn:Es; [|done]. intros [= <-].
        apply thread_step_frame in Es as [? Hl]. auto. }
      specialize (Hs p). destruct p as [| |m'| |]; try by apply (Hs E). destruct (logic (text m') _) as [[? ?]|].
      - unfold locked in E. by rewrite Hc in E.
      - simplify_eq. split; [done|]. simpl. by rewrite lookup_insert_ne. }
    exists keys, e, q, tid, m, x. by rewrite Ec, Eq.
  - simplify_eq. unfold msgsnd. destruct (_ <=? _); by exists keys, e, q, tid, m, x.
  - destruct (pending w k); simplify_eq. by exists keys, e, q, tid, m, x.
Qed.

(** A queue that is closed while its receiving thread is in a receive function which sends a message
    itself is never closed: the closer waits for the thread and the thread for the mutex the closer holds,
    whatever else happens, and no queue of the process can be used again. *)
Theorem queue_close_deadlock w key :
  waits_for_itself w key →
  ∀ w', rtc (queue_next any_op) w w' →
  is_Some (closing w') ∧ queue_step w' QJoined = None ∧ (∀ failed, queue_step w' (QThread key failed) = None) ∧
  ∀ k data, queue_step w' (QSend k data) = None.
Proof.
  intros Hs w' H. assert (waits_for_itself w' key) as (keys & e & q & tid & m & [k0 d0] & Hc & Hq & Hr & Ht & Hx).
  { induction H as [|w w1 w2 (o & _ & E) _ IH]; [done|]. apply IH. by eapply waits_for_itself_step. }
  split_and!; simpl; unfold close_next, join, receiver, locked.
  - by rewrite Hc.
  - by rewrite Hc, Hq, Hr, Ht.
  - intros. by rewrite Hq, Ht, Hx, Hc.
  - intros. by rewrite Hc.
Qed.

(** *** Closing a queue *)

Lemma queue_run_app w os1 os2 w1 : queue_run w os1 = Some (Ok w1) → queue_run w (os1 ++ os2) = queue_run w1 os2.
Proof.
  revert w. induction os1 as [|o os1 IH]; simpl; intros w E; [by simplify_eq|].
  destruct (queue_step w o) as [[w2|]|]; [by apply IH|done|done].
Qed.

(** The receiving thread takes and hands over one message in two steps. *)
Definition thread_turns (key : Z) (n : nat) : list queue_op := mjoin (replicate n [QThread key false; QThread key false]).

Lemma set_queue_same w k q : queue_list_ w !! k = Some q → set_queue w k q = w.
Proof. intros H. unfold set_queue. destruct w; cbn in *. by rewrite insert_id. Qed.

Lemma thread_at_same q tid p : tt_recv_ q = Some (tid, p) → ∀ p', thread_at (thread_at q tid p') tid p = q.
Proof. intros H p'. destruct q. simpl in *. unfold thread_at. cbn. by rewrite <- H. Qed.

Lemma set_queue_twice w k q q' : set_queue (set_queue w k q) k q' = set_queue w k q'.
Proof. unfold set_queue. destruct w. cbn. by rewrite insert_insert_eq. Qed.

Lemma thread_turn w key q tid m l :
  queue_list_ w !! key = Some q → queue_key_ q = key → tt_recv_ q = Some (tid, AtRecv) →
  pending w key = m :: l → is_logic m = true → logic (text m) (len m) = None →
  queue_run w [QThread key false; QThread key false] = Some (Ok (callback_of (set_kernel w key l) (Received key m))).
Proof.
  intros Hq Hk Ht Hp Hm Hx. cbn [queue_run queue_step]. unfold receiver at 1. rewrite Hq, Ht. simpl. rewrite Hk, Hp.
  unfold is_logic in Hm. apply negb_true_iff in Hm. rewrite Hm. unfold receiver.
  assert (E : queue_list_ (set_queue (set_kernel w key l) key (thread_at q tid (AtLogic m))) !! key = Some (thread_at q tid (AtLogic m))).
  { unfold set_queue. cbn. by rewrite lookup_insert_eq. }
  rewrite E. cbn [tt_recv_ thread_at]. simpl. rewrite Hx, set_queue_twice, thread_at_same by done.
  by rewrite set_queue_same.
Qed.

Lemma thread_drains key q tid l rest : ∀ w,
  queue_list_ w !! key = Some q → queue_key_ q = key → tt_recv_ q = Some (tid, AtRecv) →
  pending w key = l ++ rest → Forall (λ m, is_logic m = true ∧ logic (text m) (len m) = None) l →
  ∃ w', queue_run w (thread_turns key (length l)) = Some (Ok w') ∧ queue_list_ w' = queue_list_ w ∧
    closing w' = closing w ∧ pending w' key = rest ∧ received w' key = received w key ++ l.
Proof.
  induction l as [|m l IH]; intros w Hq Hk Ht Hp Hl.
  { exists w. by rewrite app_nil_r. }
  inversion Hl as [|? ? [Hm Hx] Hl']; subst.
  set (w1 := callback_of (set_kernel w (queue_key_ q) (l ++ rest)) (Received (queue_key_ q) m)).
  destruct (IH w1) as (w' & E & ? & ? & Hp' & Hr); try done.
  { change (pending w1) with (pending (set_kernel w (queue_key_ q) (l ++ rest))).
    rewrite pending_set_kernel. by case_decide. }
  exists w'. split_and!; try done.
  - change (thread_turns _ (length (m :: l))) with ([QThread (queue_key_ q) false; QThread (queue_key_ q) false] ++ thread_turns (queue_key_ q) (length l)).
    by rewrite (queue_run_app _ _ _ w1) by (by eapply thread_turn).
  - rewrite Hr. unfold w1. rewrite received_callback. by case_decide; [rewrite <- app_assoc|].
Qed.

(** C40: closing a queue hands over what is in it.  Conditions: no queue is being closed; the receiving thread waits for a
    message under the identity it stored; only data messages are in the kernel, no exit message for another thread ([foreign_exit_redelivered]);
    there is room for the exit message (in a full queue it is lost); the receive
    function sends nothing (one that does waits for the lock that the close holds, [queue_close_deadlock]); and from the call on only the
    receiving thread and the join run, to the end.  Then the close function returns; by then the
    receive function was given every message, in order, and the queue is no longer in the table. *)
Theorem queue_close_drains w key q :
  queues_wf w → closing w = None → queue_list_ w !! key = Some q →
  tt_recv_ q = Some (thread_id_ q, AtRecv) →
  Forall (λ m, is_logic m = true ∧ logic (text m) (len m) = None) (pending w key) →
  (zlen (pending w key) + 1) * message_size <= qbytes →
  ∃ w', queue_run w (QClose key :: thread_turns key (length (pending w key)) ++ [QThread key false; QThread key false; QJoined]) = Some (Ok w') ∧
    queue_list_ w' = delete key (queue_list_ w) ∧ closing w' = None ∧ pending w' key = [] ∧
    received w' key = received w key ++ pending w key.
Proof.
  intros Hw Hc Hq Ht Hl Hroom. destruct (Hw key q Hq) as (Hk & _ & Hr). rewrite Ht in Hr.
  set (m := mkMsg MESSAGE_EXIT (thread_id_ q) (text Msg_queue_buffer_new)).
  set (w1 := set_kernel w key (pending w key ++ [m]) <| closing := Some ([key], true) |>).
  destruct (thread_drains key q (thread_id_ q) (pending w key) [m] w1) as (w2 & E & Hl2 & Hc2 & Hp2 & Hr2); try done.
  { change (pending w1) with (pending (set_kernel w key (pending w key ++ [m]))). rewrite pending_set_kernel. by case_decide. }
  set (w3 := set_queue (set_kernel w2 key []) key (thread_at q (thread_id_ q) AtClose)).
  set (w4 := set_queue w3 key (thread_at q (thread_id_ q) Ended)).
  set (w5 := if close_func_ q then callback_of w4 (Closed key) else w4).
  assert (Hl5 : queue_list_ w5 = <[key := thread_at q (thread_id_ q) Ended]> (queue_list_ w)).
  { unfold w5. destruct (close_func_ q); simpl; rewrite insert_insert_eq, Hl2; done. }
  exists (start_closing (w5 <| queue_list_ := delete key (queue_list_ w5) |>) [] true). split_and!.
  - cbn [queue_run queue_step]. unfold locked. rewrite Hc. unfold close_key. rewrite Hq. simpl.
    unfold start_closing at 1. rewrite Hq. unfold close_begin. rewrite Hr by done. unfold msgsnd.
    rewrite Hk, (proj2 (Z.leb_le _ _)) by done. simpl. rewrite (queue_run_app _ _ _ w2) by exact E.
    cbn [queue_run queue_step]. unfold receiver at 1.
    assert (Hq2 : queue_list_ w2 !! key = Some q) by (by rewrite Hl2).
    rewrite Hq2, Ht. simpl. rewrite Hk, Hp2. simpl. rewrite Z.eqb_refl. fold w3. unfold receiver.
    assert (Hq3 : queue_list_ w3 !! key = Some (thread_at q (thread_id_ q) AtClose)) by apply lookup_insert_eq.
    rewrite Hq3. simpl. change (thread_at (thread_at q ?t AtClose) ?t Ended) with (thread_at q t Ended). fold w4 w5.
    unfold close_next. assert (Hc5 : closing w5 = Some ([key], true)).
    { transitivity (closing w2); [unfold w5; by destruct (close_func_ q) | by rewrite Hc2]. }
    rewrite Hc5, Hl5, lookup_insert_eq. unfold join. simpl. rewrite Hr by done. done.
  - simpl. rewrite Hl5, delete_insert_eq. done.
  - done.
  - unfold w5, pending. simpl. destruct (close_func_ q); simpl; by rewrite lookup_insert_eq.
  - transitivity (received w5 key); [done|]. transitivity (received w2 key); [|by rewrite Hr2].
    unfold w5. destruct (close_func_ q); [by rewrite received_callback, app_nil_r|done].
Qed.

(** An exit message with another identity than the thread's (one that was sent before the thread had stored
    its identity, or that a thread which failed did not take) is put back and handed to the receive function
    as if it were data: the thread is where it was before, with the function called once more. *)
Lemma foreign_exit_redelivered w key q tid m :
  queue_list_ w !! key = Some q → queue_key_ q = key → tt_recv_ q = Some (tid, AtRecv) →
  kernel w !! key = Some [m] → message_type_ m = MESSAGE_EXIT → len m ≠ thread_id_ q →
  logic (text m) (len m) = None → message_size <= qbytes →
  queue_run w [QThread key false; QThread key false] = Some (Ok (callback_of w (Received key m))).
Proof.
  intros Hq Hk Ht Hp Hm Hne Hx Hroom. cbn [queue_run queue_step]. unfold receiver at 1. rewrite Hq, Ht. simpl.
  unfold pending. rewrite Hk, Hp. simpl. rewrite Hm, (proj2 (Z.eqb_neq _ _) Hne). simpl.
  unfold msgsnd. rewrite pending_set_kernel, decide_True by done. change (zlen []) with 0.
  rewrite (proj2 (Z.leb_le ((0 + 1) * message_size) qbytes)) by lia. simpl. unfold receiver.
  unfold set_queue at 1. cbn. rewrite lookup_insert_eq. cbn. rewrite Hx. do 2 f_equal.
  unfold callback_of. cbn. rewrite !insert_insert_eq, !insert_id; [by destruct w| |]; try done.
  by rewrite Hq; f_equal; destruct q; simpl in *; rewrite Ht.
Qed.

End Queue.

(** ** Witnesses *)

(** A plugin that answers a message of one byte on the same queue. *)
Definition demo_logic (_ : list Z) (length : Z) : option (Z * list Z) := if length =? 1 then Some (7, [5; 6]) else None.
Definition demo_ops : list queue_op :=
  [QCreate 7 50 2 true; QSetClose 7; QSetRecv 7 140; QThread 7 false; QSend 7 [1; 2; 3]; QSend 7 [4]; QThread 7 false].

Lemma queue_run_reaches qbytes logic P os : Forall P os → ∀ w w',
  queue_run qbytes logic w os = Some (Ok w') → rtc (queue_next qbytes logic P) w w'.
Proof.
  induction 1 as [|o os Ho _ IH]; intros w w' E; simpl in E; [by simplify_eq|].
  destruct (queue_step qbytes logic w o) as [[w1|]|] eqn:E1; try done. eapply rtc_l; [by exists o | by apply IH].
Qed.

Definition demo_world : world :=
  Eval vm_compute in match queue_run 16384 demo_logic world_new demo_ops with Some (Ok w) => w | _ => world_new end.

Lemma queue_fifo_witness : sent_to demo_world 7 = [[1; 2; 3]; [4]] ∧
  sent_to demo_world 7 = contents (received demo_world 7 ++ held demo_world 7 ++ pending demo_world 7).
Proof.
  split; [reflexivity|]. apply (queue_fifo 16384 demo_logic).
  apply queue_run_reaches with demo_ops; [repeat constructor | vm_compute; reflexivity].
Defined.

Lemma queue_faults_witness : queue_step 16384 demo_logic demo_world (QSetRecv 7 141) = Some Fault.
Proof.
  apply (proj2 (queue_faults 16384 demo_logic demo_world (QSetRecv 7 141)
    (queue_run_reaches 16384 demo_logic any_op demo_ops ltac:(repeat constructor) world_new demo_world ltac:(vm_compute; reflexivity)))).
  left. exists 7, 141. eexists. split; [done|]. split; [done|]. split; [vm_compute; reflexivity | by eexists].
Defined.

(** The thread is given the second message, and the plugin closes the queue. *)
Definition demo_stuck : world :=
  Eval vm_compute in
  match queue_run 16384 demo_logic demo_world [QThread 7 false; QThread 7 false; QClose 7] with Some (Ok w) => w | _ => world_new end.

Lemma queue_close_deadlock_witness : queue_step 16384 demo_logic demo_stuck QJoined = None.
Proof.
  refine (proj1 (proj2 (queue_close_deadlock 16384 demo_logic demo_stuck 7 _ demo_stuck (rtc_refl _ _)))).
  do 6 eexists. split; [reflexivity|]. split; [vm_compute; reflexivity|]. repeat split.
Defined.

Definition demo_idle : world :=
  Eval vm_compute in
  match queue_run 16384 (λ _ _, None) world_new (take 5 demo_ops) with Some (Ok w) => w | _ => world_new end.

Lemma queue_close_drains_witness :
  ∃ w', queue_run 16384 (λ _ _, None) demo_idle (QClose 7 :: thread_turns 7 1 ++ [QThread 7 false; QThread 7 false; QJoined]) = Some (Ok w') ∧
    contents (received w' 7) = [[1; 2; 3]].
Proof.
  destruct (queue_close_drains 16384 (λ _ _, None) demo_idle 7 (mkQueue 7 50 2 true 140 false true (Some (140, AtRecv))))
    as (w' & E & _ & _ & _ & Hr).
  - apply (reachable_wf 16384 (λ _ _, None) any_op).
    apply queue_run_reaches with (take 5 demo_ops); [repeat constructor | vm_compute; reflexivity].
  - reflexivity.
  - vm_compute; reflexivity.
  - reflexivity.
  - repeat constructor.
  - vm_compute; discriminate.
  - exists w'. split; [exact E | rewrite Hr; reflexivity].
Defined.
