(* ===== verification/SessionService.v ===== *)
(** * What a plugin can ask for (src/PSS_ASIO/Message/SessionService.{h,cpp})

    [CSessionService] is the object every plugin is given.  It keeps the functions plugins offer to each
    other by name, checks some arguments, and passes everything else on: to the work threads
    ([WorkThread]), the bridge ([Iobridge]), the queues ([QueueService]) and the listeners ([Listeners]).

    [process] puts these components together; [service_step] is a call of a plugin, [process_step] any
    step of the process.  A call to the queues waits while a queue is being closed ([None]). *)

From Stdlib Require Import ZArith Lia.
From S2P Require Import Prelude Define SessionBuffer SessionCalls SessionTable Iobridge Timer Tms Modules Communication.
From S2P Require Import Listeners QueueService WorkThread Dispatch Delivery.
From stdpp Require Import base numbers list gmap strings relations.
Local Open Scope Z_scope.

Section SessionService.

Context {W session comm : Type} `{!ISession session} `{!ICommunicationInterface comm} `{PQ : !PriorityQueue}.
Context (qbytes : Z) (qlogic : list Z → Z → option (Z * list Z)).
Notation system := (sys W session comm).

(** [plugin_api_logic]: a function of the plugins' state; [None] is an empty [std::function]. *)
Definition plugin_api_logic : Type := option (W → string → W * string).

Record process := mkProcess {
  func_list_ : gmap string plugin_api_logic;
  work : system;                           (* App_WorkThreadLogic, App_IoBridge and what they use *)
  queues : QueueService.world;             (* App_QueueSessionManager *)
  net : CNetSvrManager;                    (* App_NetSvrManager *)
}.

Implicit Types (p : process) (s : system).

(** ** The operations with logic of their own *)

(** [get_server_listen_info]; a serial port's rate becomes a port number. *)
Definition tty_info (t : CTTyIO) : CConfigNetIO :=
  CConfigNetIO_default <| packet_parse_id_ := tty_packet_parse_id_ t |> <| port_ := u16 (tty_port_ t) |> <| ip_ := tty_name_ t |>.
Definition get_server_listen_info (c : config) (io_type : EM_CONNECT_IO_TYPE) : list CConfigNetIO :=
  match io_type with
  | CONNECT_IO_TCP => fst <$> config_tcp_list_ c
  | CONNECT_IO_UDP => fst <$> config_udp_list_ c
  | CONNECT_IO_KCP => fst <$> config_kcp_list_ c
  | CONNECT_IO_TTY => tty_info ∘ fst <$> config_tty_list_ c
  | _ => []
  end.

(** [connect_io_server], [get_connect_id]: a server id of 0 is refused. *)
Definition service_connect_io_server s (io_info : CConnect_IO_Info) (io_type : EM_CONNECT_IO_TYPE) : outcome (bool * system) :=
  if server_id io_info =? 0 then Ok (false, s) else connect_io_server s io_info io_type.
Definition service_get_connect_id s (server_id : Z) : outcome Z :=
  if server_id =? 0 then Ok 0 else wt_get_connect_id s server_id.

(** [close_io_session]: the link to the server of the connection, then the connection. *)
Definition close_io_session s (connect_id : Z) : outcome system :=
  let* server_id := get_io_server_id s connect_id in
  let* s := if 0 <? server_id then close_io_server s server_id else Ok s in
  let* x := wt_get_session_interface s connect_id in
  match x with
  | Some x => close_session_event s connect_id (Some x)
  | None => Ok s
  end.

(** [add_plugin_api], [do_plugin_api], [close()]. *)
Definition add_plugin_api (l : gmap string plugin_api_logic) (api_name : string) (func : plugin_api_logic)
  : bool * gmap string plugin_api_logic :=
  match l !! api_name with Some _ => (false, l) | None => (true, <[api_name := func]> l) end.
Definition do_plugin_api (l : gmap string plugin_api_logic) (w : W) (api_name api_func_param : string) : outcome (string * W) :=
  match l !! api_name with
  | Some (Some f) => let '(w, r) := f w api_func_param in Ok (r, w)
  | Some None => Fault
  | None => Ok (EmptyString, w)
  end.
Definition service_close p : process := p <| func_list_ := ∅ |>.

(** [add_session_io_mapping], [delete_session_io_mapping] on the bridge of the process. *)
Definition service_add_mapping s (from_io : ClientIPInfo) (from_io_type : EM_CONNECT_IO_TYPE)
    (to_io : ClientIPInfo) (to_io_type : EM_CONNECT_IO_TYPE) (bridge_type : ENUM_IO_BRIDGE_TYPE) : outcome (bool * system) :=
  let* '(r, e, b) := add_session_io_mapping (bridge s) from_io from_io_type to_io to_io_type bridge_type in
  Ok (r, with_bridge s b e).
Definition service_delete_mapping s (from_io : ClientIPInfo) (from_io_type : EM_CONNECT_IO_TYPE) : outcome (bool * system) :=
  let* '(e, b) := delete_session_io_mapping (bridge s) from_io from_io_type in Ok (true, with_bridge s b e).

(** ** Calls *)

Inductive service_call :=
| CSend (c : Z) (q : CMessage_Packet)
| CConnect (info : CConnect_IO_Info) (ty : EM_CONNECT_IO_TYPE)
| CCloseSession (c : Z)
| CFrameMessage (thread_id : Z) (tag : string) (q : CMessage_Packet) (d : CFrame_Message_Delay)
| CRunLogic (thread_id : Z) (d : CFrame_Message_Delay) (f : W → W)
| CCreateThread (thread_id tid : Z)
| CCloseThread (thread_id : Z)
| CDeleteTimer (id : Z)
| CModuleRun (name : string) (send ret : CMessage_Packet)
| CAddApi (name : string) (f : plugin_api_logic)
| CDoApi (name param : string)
| CAddMapping (from_io : ClientIPInfo) (from_ty : EM_CONNECT_IO_TYPE) (to_io : ClientIPInfo) (to_ty : EM_CONNECT_IO_TYPE) (bt : ENUM_IO_BRIDGE_TYPE)
| CDeleteMapping (io : ClientIPInfo) (ty : EM_CONNECT_IO_TYPE)
| CCreateQueue (key message_size message_count : Z) (opened : bool)
| CCloseQueue (key : Z)
| CSendQueue (key : Z) (data : list Z)
| CSetClose (key : Z)
| CSetError (key : Z)
| CSetRecv (key tid : Z)
| CStartService (netio : CConfigNetIO)
| CCloseService (netio : CConfigNetIO).

Definition on_work p (o : outcome system) : option (outcome process) := Some (let* s := o in Ok (p <| work := s |>)).
Definition dropped {A} (o : outcome (A * system)) : outcome system := let* '(_, s) := o in Ok s.
Definition on_queues p (o : queue_op) : option (outcome process) :=
  match queue_step qbytes qlogic (queues p) o with
  | Some r => Some (let* w := r in Ok (p <| queues := w |>))
  | None => None
  end.

Definition service_step p (c : service_call) : option (outcome process) :=
  let s := work p in
  match c with
  | CSend c q => on_work p (send_io_message s c q)
  | CConnect info ty => on_work p (dropped (service_connect_io_server s info ty))
  | CCloseSession c => on_work p (close_io_session s c)
  | CFrameMessage th tag q d => on_work p (dropped (send_frame_message s th tag q d))
  | CRunLogic th d f => on_work p (Ok (snd (run_work_thread_logic s th d f)))
  | CCreateThread th tid => on_work p (Ok (snd (create_frame_work_thread s th tid)))
  | CCloseThread th => on_work p (dropped (close_frame_work_thread s th))
  | CDeleteTimer id => on_work p (Ok (snd (delete_frame_message_timer s id)))
  | CModuleRun name send ret => on_work p (let* '(_, _, _, s) := module_run s name send ret in Ok s)
  | CAddApi name f => Some (Ok (p <| func_list_ := snd (add_plugin_api (func_list_ p) name f) |>))
  | CDoApi name param => on_work p (let* '(_, w) := do_plugin_api (func_list_ p) (plugins s) name param in Ok (with_plugins s w))
  | CAddMapping f fty t tty bt => on_work p (dropped (service_add_mapping s f fty t tty bt))
  | CDeleteMapping io ty => on_work p (dropped (service_delete_mapping s io ty))
  | CCreateQueue key size count opened => on_queues p (QCreate key size count opened)
  | CCloseQueue key => on_queues p (QClose key)
  | CSendQueue key data => on_queues p (QSend key data)
  | CSetClose key => on_queues p (QSetClose key)
  | CSetError key => on_queues p (QSetError key)
  | CSetRecv key tid => on_queues p (QSetRecv key tid)
  | CStartService netio => Some (Ok (p <| net := start_single_service (net p) netio |>))
  | CCloseService netio => Some (Ok (p <| net := close_single_service (net p) netio |>))
  end.

(** What a plugin must respect: a module or a function it asks for is not one that was
    registered without its code; a queue is given a receive function only while it has no
    receiving thread, and is closed only if its thread was not joined before (as it is by the
    closing of all queues). *)
Definition call_ok p (c : service_call) : Prop :=
  match c with
  | CModuleRun name _ _ => plugin_name_to_module_run_ (loader (work p)) !! name ≠ Some None
  | CDoApi name _ => func_list_ p !! name ≠ Some None
  | CSetRecv key _ => ∀ q, queue_list_ (queues p) !! key = Some q → tt_recv_ q = None
  | CCloseQueue key => close_pre (queues p) (QClose key)
  | _ => True
  end.

Inductive process_op := PCall (c : service_call) | PWork (o : @wt_op W session) | PQueue (o : queue_op) | PNet (o : manager_op).

Definition process_step p (o : process_op) : option (outcome process) :=
  match o with
  | PCall c => service_step p c
  | PWork o => on_work p (wt_step (work p) o)
  | PQueue o => on_queues p o
  | PNet o => Some (let* s := manager_step (net p) o in Ok (p <| net := s |>))
  end.

Definition process_pre p (o : process_op) : Prop :=
  match o with
  | PCall c => call_ok p c
  | PWork o => op_pre (work p) o
  | PQueue o => close_pre (queues p) o
  | PNet _ => True
  end.

(** A process whose work threads were started with [n] threads. *)
Inductive process_reachable (n : Z) : process → Prop :=
| pr_start s : wt_reachable n s → process_reachable n (mkProcess ∅ s world_new CNetSvrManager_new)
| pr_next p o p' : process_reachable n p → process_pre p o → process_step p o = Some (Ok p') → process_reachable n p'.

Record process_ok p : Prop := {
  po_work : wf_sys (work p);
  po_queues : queues_wf (queues p);
  po_net : manager_inv (λ _, True) (net p);
}.

(** ** Every step keeps the components in order *)

Lemma on_work_ok p (o : outcome system) : process_ok p → good (work p) o →
  ∃ p', on_work p o = Some (Ok p') ∧ process_ok p'.
Proof. intros [_ Hq Hn] (s & -> & Hs & _). eexists. split; [reflexivity|]. by split. Qed.

Lemma queue_op_ok p o p' : process_ok p → on_queues p o = Some (Ok p') → process_ok p'.
Proof.
  intros [Hw Hq Hn]. unfold on_queues. destruct (queue_step _ _ _ _) as [[w|]|] eqn:E; try done.
  intros [= <-]. split; try done. by eapply queues_wf_step.
Qed.

Lemma net_op_ok p o (m : CNetSvrManager) : process_ok p → manager_step (net p) o = Ok m → process_ok (p <| net := m |>).
Proof.
  intros [Hw Hq Hn] E. split; try done. eapply manager_step_inv; [apply _|exact Hn| |exact E]. by destruct o as [| | | | |? []| |].
Qed.

Lemma dropped_good {A} s (o : outcome (A * system)) :
  (∃ r s', o = Ok (r, s') ∧ wf_sys s' ∧ frame s s') → good s (dropped o).
Proof. intros (r & s' & -> & ? & ?). by apply good_ok. Qed.

Lemma close_io_session_good s c : wf_sys s → good s (close_io_session s c).
Proof.
  intros Hw. unfold close_io_session, get_io_server_id. destruct (get_comm_ok s Hw) as [cm Hc]. rewrite Hc. cbn [obind].
  apply (good_bind s s); [destruct (0 <? _); [by apply close_io_server_good | by apply good_ok]|].
  intros s' Hw' _. unfold wt_get_session_interface. destruct (thread_ok s' c Hw') as (m & E1 & E2 & _ & Hlt).
  rewrite E1. cbn [obind]. rewrite E2. cbn [obind]. destruct (get_ml_ok s' m Hlt) as (ml & E3 & _). rewrite E3. cbn [obind].
  destruct (ml_get_session ml c); [by apply close_session_event_good | by apply good_ok].
Qed.

Lemma add_mapping_good s f fty t tty bt : wf_sys s →
  good s (dropped (service_add_mapping s f fty t tty bt)).
Proof.
  intros Hw. destruct (bridge_good s (OpAdd f fty t tty bt) Hw) as (b & T & E & Hb). cbn [bridge_step] in E. unfold service_add_mapping.
  destruct (add_session_io_mapping _ _ _ _ _ _) as [[[r e] b']|]; [|done]. injection E as -> <-.
  destruct (with_bridge_good s b e Hw Hb). by apply good_ok.
Qed.

Lemma delete_mapping_good s io ty : wf_sys s →
  good s (dropped (service_delete_mapping s io ty)).
Proof.
  intros Hw. destruct (bridge_good s (OpDelete io ty) Hw) as (b & T & E & Hb). cbn [bridge_step] in E. unfold service_delete_mapping.
  destruct (delete_session_io_mapping _ _ _) as [[e b']|]; [|done]. injection E as -> <-.
  destruct (with_bridge_good s b e Hw Hb). by apply good_ok.
Qed.

Lemma queue_call_ok p o : process_ok p → 
  (∀ key tid, o = QSetRecv key tid → ∀ q, queue_list_ (queues p) !! key = Some q → tt_recv_ q = None) → o ≠ QJoined →
  match on_queues p o with Some r => ∃ p', r = Ok p' ∧ process_ok p' | None => True end.
Proof.
  intros Hp Hr Hj. destruct (on_queues p o) as [[p'|]|] eqn:E; [|exfalso|done].
  - exists p'. split; [done|]. by eapply queue_op_ok.
  - unfold on_queues in E. destruct (queue_step _ _ _ _) as [[w|]|] eqn:Eq; try done.
    apply (queue_step_fault _ _ _ _ (po_queues _ Hp)) in Eq as [(key & tid & q & -> & _ & Hq & [t Ht])|(? & ? & ? & ? & -> & _)]; [|done].
    rewrite (Hr key tid eq_refl q Hq) in Ht. done.
Qed.

(** A call of a plugin, in order and out of order. *)
Lemma service_step_ok p c : process_ok p → call_ok p c →
  match service_step p c with
  | Some r => ∃ p', r = Ok p' ∧ process_ok p'
  | None => is_Some (closing (queues p))
  end.
Proof.
  intros Hp Hc. pose proof (po_work _ Hp) as Hw.
  assert (Hwork : ∀ o, good (work p) o → match on_work p o with Some r => ∃ p', r = Ok p' ∧ process_ok p' | None => is_Some (closing (queues p)) end).
  { intros o Ho. destruct (on_work_ok p o Hp Ho) as (p' & -> & ?). eauto. }
  assert (Hqueue : ∀ o, o ≠ QJoined → (∀ key f, o ≠ QThread key f) → (∀ key, o ≠ QOtherTake key) →
    (∀ key tid, o = QSetRecv key tid → ∀ q, queue_list_ (queues p) !! key = Some q → tt_recv_ q = None) →
    match on_queues p o with Some r => ∃ p', r = Ok p' ∧ process_ok p' | None => is_Some (closing (queues p)) end).
  { intros o Hj Ht Hk Hr. pose proof (queue_call_ok p o Hp Hr Hj) as H. destruct (on_queues p o) eqn:E; [done|].
    unfold on_queues in E. destruct (queue_step _ _ _ _) eqn:Eq; [done|]. by eapply queue_step_blocked. }
  destruct c; cbn [service_step call_ok] in *; try (apply Hqueue; naive_solver); try apply Hwork.
  - by apply send_io_message_good.
  - unfold service_connect_io_server. destruct (_ =? 0); [by apply good_ok|]. by apply dropped_good, connect_io_server_good.
  - by apply close_io_session_good.
  - by apply dropped_good, send_frame_good.
  - destruct (run_logic_good (work p) thread_id d f Hw). by apply good_ok.
  - destruct (create_thread_good (work p) thread_id tid Hw). by apply good_ok.
  - by apply dropped_good, close_thread_good.
  - destruct (delete_timer_good (work p) id Hw). by apply good_ok.
  - by apply module_run_good.
  - eexists. split; [done|]. by destruct Hp.
  - unfold do_plugin_api. destruct (func_list_ p !! name) as [[f|]|]; [|done|].
    + destruct (f _ _) as [w r]. destruct (with_plugins_good (work p) w Hw). by apply good_ok.
    + destruct (with_plugins_good (work p) (plugins (work p)) Hw). by apply good_ok.
  - by apply add_mapping_good.
  - by apply delete_mapping_good.
  - eexists. split; [done|]. by apply (net_op_ok p (MStart netio)).
  - eexists. split; [done|]. by apply (net_op_ok p (MClose netio)).
Qed.

Lemma process_reachable_ok n p : process_reachable n p → process_ok p.
Proof.
  induction 1 as [s Hs|p o p' _ IH Ho E].
  - split; cbn; [apply (wt_reachable_good n s Hs) | by apply map_Forall_empty | apply new_inv; apply _].
  - destruct o as [c|o|o|o]; cbn [process_step process_pre] in *.
    + pose proof (service_step_ok p c IH Ho) as H. rewrite E in H. destruct H as (? & [= <-] & ?). done.
    + destruct (on_work_ok p _ IH (wt_step_good _ o (po_work _ IH) Ho)) as (p1 & E1 & ?). rewrite E in E1. by injection E1 as ->.
    + by eapply queue_op_ok.
    + destruct (manager_step (net p) o) eqn:En; [|done]. injection E as <-. by eapply net_op_ok.
Qed.

(** Whatever a process does, the queues that are being closed can be joined. *)
Lemma on_queues_inv p o p' : on_queues p o = Some (Ok p') → queue_step qbytes qlogic (queues p) o = Some (Ok (queues p')).
Proof. unfold on_queues. destruct (queue_step _ _ _ _) as [[w|]|]; try done. by intros [= <-]. Qed.

Lemma on_work_inv p o p' : on_work p o = Some (Ok p') → queues p' = queues p.
Proof. unfold on_work. destruct o; [|done]. by intros [= <-]. Qed.

Lemma process_reachable_closing n p : process_reachable n p → closing_ok (queues p).
Proof.
  induction 1 as [s Hs|p o p' Hp IH Ho E]; [by apply closing_ok_none|].
  pose proof (po_queues _ (process_reachable_ok n p Hp)) as Hq.
  assert (Hstep : ∀ o, close_pre (queues p) o → on_queues p o = Some (Ok p') → closing_ok (queues p')).
  { intros q Hpre Eq%on_queues_inv. by eapply closing_ok_step. }
  destruct o as [c|o|o|o]; cbn [process_step process_pre] in *.
  - destruct c; cbn [service_step call_ok] in *; try (eapply Hstep; [|exact E]; done);
      try (apply on_work_inv in E; by rewrite E); by injection E as <-.
  - apply on_work_inv in E. by rewrite E.
  - by eapply Hstep.
  - destruct (manager_step (net p) o); [|done]. by injection E as <-.
Qed.


(** A plugin that closes a connection closes both sides of it: the link to another server which the
    connection belongs to (if any) is dropped from the communication service, and the thread of the connection
    is given, after all tasks it was given before, the task to close the session that the table of the thread has
    for the connection; nothing is asked of a thread when there is no such session. *)
Theorem close_io_session_closes n s c i m :
  wt_reachable n s → thread_module_list_ (logic s) !! Z.to_nat (c mod n) = Some i → modules s !! i = Some m →
  ∃ cm s', communicate_service_ s = Some cm ∧ close_io_session s c = Ok s' ∧
    communicate_service_ s' = Some (if 0 <? comm_get_server_id cm c then comm_close_connect cm (comm_get_server_id cm c) else cm) ∧
    tms s' = match ml_get_session m c with
             | Some x => snd (AddMessage (tms s) (c mod n) (TClose c (Some x)))
             | None => tms s
             end ∧
    modules s' = modules s ∧ trace s' = trace s.
Proof.
  intros Hr Hi Hm. destruct (wt_reachable_good n s Hr) as (Hw & <- & _). destruct (w_comm _ (wf_is_core _ Hw)) as [cm Hcm].
  pose proof (w_count _ (wf_is_core _ Hw)) as Hn.
  set (cm' := if 0 <? comm_get_server_id cm c then comm_close_connect cm (comm_get_server_id cm c) else cm).
  assert (E : (if 0 <? comm_get_server_id cm c then close_io_server s (comm_get_server_id cm c) else Ok s) = Ok (with_comm s (Some cm'))).
  { unfold cm', close_io_server, get_comm. rewrite Hcm. destruct (0 <? _); [done|]. by destruct s; cbn in *; subst. }
  unfold close_io_session, get_io_server_id, get_comm. rewrite Hcm. cbn [obind]. rewrite E. cbn [obind].
  unfold wt_get_session_interface, close_session_event, curr_thread_index, thread_module, get_ml. cbn [with_comm logic modules].
  rewrite (proj2 (Z.eqb_neq _ _)) by lia. cbn [obind]. rewrite Hi. cbn [obind]. rewrite Hm. cbn [obind].
  destruct (ml_get_session m c); exists cm; eexists; (split; [done|]); (split; [reflexivity|]); by split_and!.
Qed.

(** A name belongs to the plugin that registered it first: whatever was registered, in which order,
    calling a name runs the function of the first registration under it, on the state of the plugins, and
    an unknown name returns an empty string and changes nothing. *)
Theorem plugin_api_first_wins (regs : list (string * plugin_api_logic)) (w : W) (name param : string) :
  do_plugin_api (foldl (λ l '(n, f), snd (add_plugin_api l n f)) ∅ regs) w name param =
  match snd <$> list_find (λ r, fst r = name) regs with
  | Some (_, Some f) => Ok (snd (f w param), fst (f w param))
  | Some (_, None) => Fault
  | None => Ok (EmptyString, w)
  end.
Proof.
  assert (H : ∀ l, foldl (λ l '(n, f), snd (add_plugin_api l n f)) l regs !! name =
    match l !! name with Some f => Some f | None => snd ∘ snd <$> list_find (λ r, fst r = name) regs end).
  { induction regs as [|[k f] regs IH]; intros l; cbn [foldl]; [by destruct (l !! name)|].
    rewrite IH. unfold add_plugin_api. cbn [list_find fst]. destruct (decide (k = name)) as [->|Hne].
    - destruct (l !! name) eqn:E; cbn; [by rewrite E | by rewrite lookup_insert_eq].
    - destruct (l !! k) eqn:E; cbn [snd]; [|rewrite lookup_insert_ne by done]; (destruct (l !! name); [done|]);
        by destruct (list_find _ regs) as [[? [? ?]]|]. }
  unfold do_plugin_api. rewrite H, lookup_empty. destruct (list_find _ regs) as [[? [? [f|]]]|]; cbn; try done.
  by destruct (f w param).
Qed.

End SessionService.
Arguments process : clear implicits.

(** ** Witnesses *)

#[local] Existing Instance sorted_queue.
#[local] Existing Instance demo_comm.

Notation demo_process := (process unit unit (CCommunicationService unit)).


Lemma close_io_session_closes_witness :
  ∃ (s s' : demo_sys), wt_reachable 2 s ∧ close_io_session s 5 = Ok s' ∧
    tms s' = snd (AddMessage (tms s) 1 (TClose 5 (Some tt))).
Proof.
  pose proof demo_is_idle as H. destruct demo_started as [s0|] eqn:E0; [|discriminate H]. cbn [obind] in H.
  destruct (demo_run s0 demo_ops) as [y|] eqn:E; [|discriminate H]. cbn [obind] in H. injection H as H.
  pose proof (demo_reachable s0 y E0 E) as Hr.
  destruct (demo_idle_facts y H) as (t & m & _ & _ & _ & Hp & Hm & Hs & _).
  destruct (close_io_session_closes 2 y 5 1%nat m Hr Hp Hm) as (cm & s' & _ & Ec & _ & Et & _).
  rewrite Hs in Et. exists y, s'. split; [exact Hr|]. split; [exact Ec|exact Et].
Defined.
