(* ===== verification/TestLogic.v ===== *)
(** * The example plugin (src/Module_Logic/Test_Logic)

    The plugin that comes with the server: it echoes messages, at once or through the session service, and with
    GCOV_TEST ([gcov]) calls everything the service offers.  Its state, the [W] of the other files, is the list of
    the calls it made of the service, in order; [as_call] says what they are there.  The log is left out.  The
    environment decides what [create_queue] returns. *)

From Stdlib Require Import ZArith Lia.
From S2P Require Import Prelude Define SessionBuffer SessionCalls TcpSession PacketInterface.
From S2P Require Import SessionTable Iobridge Timer Tms Modules Communication WorkThread Dispatch Delivery Listeners SessionService.
From stdpp Require Import base numbers list gmap strings relations.
Local Open Scope Z_scope.

(** ** BaseCommand.h *)

Definition COMMAND_TEST_SYNC : Z := 0x2101.
Definition COMMAND_TEST_ASYN : Z := 0x2102.
Definition COMMAND_TEST_FRAME : Z := 0x1100.
Definition COMMAND_TEST_HTTP_POST : Z := 0x1001.
Definition COMMAND_WEBSOCKET_SHARK_HAND : Z := 0x1002.
Definition COMMAND_WEBSOCKET_DATA : Z := 0x1003.
Definition plugin_test_logic_thread_id : Z := 1001.

(** What the plugin asks the session service for. *)
Inductive test_call :=
| TSend (connect_id : Z) (q : CMessage_Packet)
| TConnectServer (info : CConnect_IO_Info) (ty : EM_CONNECT_IO_TYPE)
| TCloseSession (connect_id : Z)
| TFrameMessage (thread_id : Z) (tag : string) (q : CMessage_Packet) (d : CFrame_Message_Delay)
| TRunLogic (thread_id : Z) (d : CFrame_Message_Delay)
| TCreateThread (thread_id : Z)
| TCloseThread (thread_id : Z)
| TDeleteTimer (id : Z)
| TModuleRun (name : string) (q : CMessage_Packet)
| TAddApi (name : string)
| TDoApi (name param : string)
| TAddMapping (from_io to_io : ClientIPInfo)
| TDeleteMapping (from_io : ClientIPInfo)
| TCreateQueue (key message_size message_count : Z)
| TSetRecv (key : Z)
| TSetClose (key : Z)
| TSetError (key : Z)
| TSendQueue (key : Z) (data : list Z)
| TCloseQueue (key : Z)
| TStartService (netio : CConfigNetIO)
| TCloseService (netio : CConfigNetIO).

Notation test_world := (list test_call).
Implicit Types (w : test_world) (source : CMessage_Source) (recv send : CMessage_Packet).

Section Plugin.
Context (gcov : bool).

Definition when (calls : list test_call) : list test_call := if gcov then calls else [].

(** ** BaseCommand.cpp *)

Definition local (port : Z) : ClientIPInfo := mkClientIPInfo "127.0.0.1" port.

Definition logic_connect_tcp : list test_call :=
  [TConnectServer (mkConnectIOInfo 1001 "127.0.0.1" 10004 "127.0.0.1" 10091 1 1024 1024 EmptyString false) CONNECT_IO_TCP].
Definition logic_connect_udp : list test_call :=
  [TConnectServer (mkConnectIOInfo 1002 "127.0.0.1" 10005 "127.0.0.1" 10094 1 1024 1024 EmptyString false) CONNECT_IO_UDP].
Definition test_io_2_io : list test_call := [TAddMapping (local 10102) (local 10101)].
Definition test_tcp : CConfigNetIO := CConfigNetIO_default <| ip_ := "127.0.0.1"%string |> <| port_ := 10012 |> <| packet_parse_id_ := 1 |>.
Definition test_udp : CConfigNetIO :=
  CConfigNetIO_default <| ip_ := "127.0.0.1"%string |> <| port_ := 10013 |> <| packet_parse_id_ := 1 |> <| protocol_type_ := CONNECT_IO_UDP |>.
Definition test_create_io_listen : list test_call := [TStartService test_tcp; TStartService test_udp].
Definition test_close_io_listen : list test_call := [TCloseService test_tcp; TCloseService test_udp].
Definition test_close_io_2_io_connect : list test_call := [TDeleteMapping (local 10092)].

Definition freeeyes : CMessage_Packet := mkPacket [] (bytes_of_string "freeeyes") COMMAND_TEST_FRAME.

Definition init : list test_call :=
  when ([TCreateThread plugin_test_logic_thread_id;
         TFrameMessage plugin_test_logic_thread_id "time loop" freeeyes (mkDelay 1 1001);
         TRunLogic plugin_test_logic_thread_id (mkDelay 1 1001)] ++
        logic_connect_tcp ++ test_create_io_listen ++ test_io_2_io).

Definition close : list test_call := when (test_close_io_listen ++ test_close_io_2_io_connect).

(** A handler returns its code, the packets and the calls. *)
Notation handler := (Logic_message_dispose_fn test_world).

Definition logic_connect : handler := λ w _ recv send,
  (0, recv, send, w ++ when [TModuleRun "libTest_Logic.so" (mkPacket [] [] 0x5000)]).
Definition logic_disconnect : handler := λ w _ recv send, (0, recv, send, w).

Definition with_buffer (p : CMessage_Packet) (buffer : list Z) : CMessage_Packet := mkPacket (param_arg_ p) buffer (command_id_ p).

Definition logic_test_sync : handler := λ w source recv send,
  (0, recv, with_buffer send (pbuffer_ send ++ pbuffer_ recv),
   w ++ when (match type_ source with CONNECT_IO_UDP => [TCloseSession (connect_id_ source)] | _ => [] end)).

Definition logic_test_asyn : handler := λ w source recv send,
  (0, recv, send, w ++ [TSend (connect_id_ source) (with_buffer fresh_packet (pbuffer_ recv))]).

Definition logic_test_frame : handler := λ w _ recv send,
  (0, recv, send, w ++ when [TCreateThread 1010; TRunLogic 1010 (mkDelay 5 1002); TDeleteTimer 1002; TCloseThread 1010]).

Definition logic_test_connect_error : handler := λ w _ recv send, (0, recv, send, w).
Definition logic_test_listen_error : handler := λ w _ recv send, (0, recv, send, w).
Definition logic_http_post : handler := λ w _ recv send, (0, recv, with_buffer send (pbuffer_ recv), w).
Definition logic_http_websocket_shark_hand : handler := λ w _ recv send, (0, recv, with_buffer send (pbuffer_ recv), w).
Definition logic_http_websocket_data : handler := λ w source recv send,
  (0, recv, send, w ++ [TSend (connect_id_ source) (with_buffer fresh_packet (pbuffer_ recv))]).
Definition logic_work_thread_is_lock : handler := λ w _ recv send, (0, recv, send, w).
Definition logic_io_write_error : handler := λ w _ recv send, (0, recv, send, w).

Definition do_logic_api (api_param : string) : string := api_param.

(** ** Test_Logic.cpp *)

Definition do_module_message : handler := λ w source recv send,
  let f :=
    if command_id_ recv =? LOGIC_COMMAND_CONNECT then Some logic_connect
    else if command_id_ recv =? LOGIC_COMMAND_DISCONNECT then Some logic_disconnect
    else if command_id_ recv =? LOGIC_CONNECT_SERVER_ERROR then Some logic_test_connect_error
    else if command_id_ recv =? LOGIC_LISTEN_SERVER_ERROR then Some logic_test_listen_error
    else if command_id_ recv =? COMMAND_TEST_SYNC then Some logic_test_sync
    else if command_id_ recv =? COMMAND_TEST_FRAME then Some logic_test_frame
    else if command_id_ recv =? COMMAND_TEST_HTTP_POST then Some logic_http_post
    else if command_id_ recv =? COMMAND_WEBSOCKET_SHARK_HAND then Some logic_http_websocket_shark_hand
    else if command_id_ recv =? COMMAND_WEBSOCKET_DATA then Some logic_http_websocket_data
    else if command_id_ recv =? LOGIC_THREAD_DEAD_LOCK then Some logic_work_thread_is_lock
    else if command_id_ recv =? LOGIC_THREAD_WRITE_IO_ERROR then Some logic_io_write_error
    else None in
  match f with
  | Some f => let '(_, recv, send, w) := f w source recv send in (0, recv, send, w)
  | None => (0, recv, send, w)
  end.

Definition queue_key : Z := 11111.

(** The calls after the registration; [created] is what [create_queue] returns. *)
Definition load_calls (created : bool) : list test_call :=
  init ++ [TAddApi "test_logic"; TDoApi "test_logic" "hello free eyes"; TCreateQueue queue_key 100 10] ++
  if created then [TSetRecv queue_key; TSetClose queue_key; TSetError queue_key;
                   TSendQueue queue_key (bytes_of_string "hello queue!"); TCloseQueue queue_key]
  else [].

Definition regedit (id : Z) (st : EM_LOGIC_RUN_STATE) (fo : CFrame_Object test_world) : CFrame_Object test_world := snd (Regedit_command fo id st).

Definition load_module (created : bool) (fo : CFrame_Object test_world) (module_param : string) w : Z * CFrame_Object test_world * test_world :=
  let fo := regedit LOGIC_COMMAND_CONNECT LOGIC_RUN_SYNCHRONOUS fo in
  let fo := regedit LOGIC_COMMAND_DISCONNECT LOGIC_RUN_ASYNHRONOUS fo in
  let fo := regedit LOGIC_CONNECT_SERVER_ERROR LOGIC_RUN_ASYNHRONOUS fo in
  let fo := regedit LOGIC_LISTEN_SERVER_ERROR LOGIC_RUN_ASYNHRONOUS fo in
  let fo := regedit COMMAND_TEST_SYNC LOGIC_RUN_SYNCHRONOUS fo in
  let fo := regedit COMMAND_TEST_FRAME LOGIC_RUN_ASYNHRONOUS fo in
  let fo := regedit COMMAND_TEST_HTTP_POST LOGIC_RUN_ASYNHRONOUS fo in
  let fo := regedit COMMAND_WEBSOCKET_SHARK_HAND LOGIC_RUN_ASYNHRONOUS fo in
  let fo := regedit COMMAND_WEBSOCKET_DATA LOGIC_RUN_ASYNHRONOUS fo in
  let fo := regedit LOGIC_THREAD_DEAD_LOCK LOGIC_RUN_ASYNHRONOUS fo in
  let fo := regedit LOGIC_THREAD_WRITE_IO_ERROR LOGIC_RUN_ASYNHRONOUS fo in
  let fo := snd (Regedit_command_fn fo COMMAND_TEST_ASYN logic_test_asyn LOGIC_RUN_ASYNHRONOUS) in
  (0, fo, w ++ load_calls created).

Definition unload_module w : test_world := w ++ close.
Definition module_run w send return_packet : Z * CMessage_Packet * CMessage_Packet * test_world :=
  (0, send, mkPacket (param_arg_ return_packet) (pbuffer_ send) (command_id_ send), w).
Definition module_state w : bool * Z := (true, 0).
Definition set_output w : test_world := w.

Definition test_library (created : bool) : library test_world :=
  mkLibrary (Some (load_module created)) (Some unload_module) (Some do_module_message) (Some module_state) (Some set_output) (Some module_run).

(** ** The calls as the session service knows them *)

Definition as_call (tid : Z) (opened : bool) (t : test_call) : service_call (W:=test_world) :=
  match t with
  | TSend c q => CSend c q
  | TConnectServer info ty => CConnect info ty
  | TCloseSession c => CCloseSession c
  | TFrameMessage th tag q d => CFrameMessage th tag q d
  | TRunLogic th d => CRunLogic th d (λ w, w)
  | TCreateThread th => CCreateThread th tid
  | TCloseThread th => CCloseThread th
  | TDeleteTimer id => CDeleteTimer id
  | TModuleRun name q => CModuleRun name q fresh_packet
  | TAddApi name => CAddApi name (Some (λ w p, (w, do_logic_api p)))
  | TDoApi name p => CDoApi name p
  | TAddMapping f t => CAddMapping f CONNECT_IO_TCP t CONNECT_IO_TCP IO_BRIDGE_BATH
  | TDeleteMapping f => CDeleteMapping f CONNECT_IO_TCP
  | TCreateQueue k s n => CCreateQueue k s n opened
  | TSetRecv k => CSetRecv k tid
  | TSetClose k => CSetClose k
  | TSetError k => CSetError k
  | TSendQueue k d => CSendQueue k d
  | TCloseQueue k => CCloseQueue k
  | TStartService n => CStartService n
  | TCloseService n => CCloseService n
  end.
End Plugin.

(** ** What is registered *)

Definition test_dlopen (gcov created : bool) (file : string) : option (library test_world) := Some (test_library gcov created).
Definition test_config : config_logic := mkConfigLogic "./" "libTest_Logic.so" EmptyString.

(** The two tables after the plugin was loaded: two commands are handled where they arrive, one has a function of
    its own, the others go to [do_module_message]. *)
Definition sync_table (gcov : bool) : gmap Z (Logic_message_dispose_fn test_world) :=
  list_to_map (map (λ id, (id, do_module_message gcov)) [LOGIC_COMMAND_CONNECT; COMMAND_TEST_SYNC]).
Definition work_table (gcov : bool) : gmap Z (Logic_message_dispose_fn test_world) :=
  list_to_map ((COMMAND_TEST_ASYN, logic_test_asyn) :: map (λ id, (id, do_module_message gcov))
    [LOGIC_COMMAND_DISCONNECT; LOGIC_CONNECT_SERVER_ERROR; LOGIC_LISTEN_SERVER_ERROR; COMMAND_TEST_FRAME; COMMAND_TEST_HTTP_POST;
     COMMAND_WEBSOCKET_SHARK_HAND; COMMAND_WEBSOCKET_DATA; LOGIC_THREAD_DEAD_LOCK; LOGIC_THREAD_WRITE_IO_ERROR]).

Lemma test_plugin_loads gcov created w svc path name param :
  let '(ok, s) := load_plugin_module (test_dlopen gcov created) (set_session_service (CLoadModule_new w) svc) path name param in
  ok = true ∧ command_to_session_function_ s = sync_table gcov ∧ command_to_module_function_ s = work_table gcov ∧
  world s = w ++ load_calls gcov created ∧ module_name_list_ s = [name].
Proof.
  unfold load_plugin_module, load_module_info, test_dlopen, test_library. cbn -[lookup insert load_calls list_to_map do_module_message].
  rewrite lookup_empty. cbn -[lookup insert load_calls list_to_map do_module_message logic_test_asyn]. split_and!; try done.
Qed.

(** ** A server with the plugin *)

Section Server.
Context {session comm : Type} `{!ISession session} `{!ICommunicationInterface comm} `{PQ : !PriorityQueue}.
Context (gcov : bool).
Notation system := (sys test_world session comm).
Implicit Types (y : system) (x : session).

Lemma create_threads_sync k tids : ∀ i y, sync (create_threads y tids i k) = sync y.
Proof. induction k as [|k IH]; intros i y; [done|]. cbn [create_threads new_module]. by rewrite IH. Qed.

Lemma plugin_threads_sync l tids : ∀ y, sync (create_plugin_threads y tids l) = sync y.
Proof.
  induction l as [|id l IH]; intros y; [done|]. cbn [create_plugin_threads]. destruct (plugin_work_thread_list_ _ !! id); by rewrite IH.
Qed.

Lemma new_timer_sync y d k : sync (new_timer y d k) = sync y.
Proof. unfold new_timer. by destruct (0 <? _). Qed.

Lemma replay_messages_sync l : ∀ y y', replay_messages y l = Ok y' → sync y' = sync y.
Proof.
  induction l as [|m l IH]; intros y y'; cbn [replay_messages]; [by intros [= <-]|].
  unfold do_frame_message. destruct (plugin_work_thread_list_ _ !! _); [|apply IH]. destruct (_ =? 0).
  - unfold do_plugin_thread_module_logic. destruct (get_ml _ _); [|done]. cbn [obind]. intros H%IH. by rewrite H.
  - cbn [obind]. intros H%IH. by rewrite H, new_timer_sync.
Qed.

Lemma replay_funcs_sync l : ∀ y, sync (replay_funcs y l) = sync y.
Proof.
  unfold replay_funcs. induction l as [|f l IH]; intros y; [done|]. cbn [foldl]. rewrite IH. unfold do_work_thread_logic.
  destruct (plugin_work_thread_list_ _ !! _); [|done]. destruct (_ =? 0); [done|]. apply new_timer_sync.
Qed.

Lemma init_end_sync y n ts tids y' : init_end y n ts tids = Ok y' → sync y' = command_to_session_function_ (loader y).
Proof.
  unfold init_end. match goal with |- context [replay_messages ?a ?b] => destruct (replay_messages a b) as [y1|] eqn:E end; [|done].
  cbn [obind]. intros [= <-]. apply replay_messages_sync in E. cbn -[replay_funcs create_plugin_threads create_threads] in E |- *.
  rewrite replay_funcs_sync. cbn -[create_plugin_threads create_threads]. rewrite E, plugin_threads_sync. cbn -[create_threads].
  by rewrite create_threads_sync.
Qed.

Lemma requests_loader rs : ∀ y y', module_init_finish_ (logic y) = false → do_requests y rs = Ok y' →
  loader y' = loader y ∧ module_init_finish_ (logic y') = false.
Proof.
  induction rs as [|r rs IH]; intros y y' Hf; cbn [do_requests]; [by intros [= <-]|]. destruct r; cbn [do_request].
  - unfold create_frame_work_thread. destruct (_ <? _); [by apply IH|]. rewrite Hf. cbn [negb snd obind]. intros H%IH; [exact H|done].
  - unfold send_frame_message. rewrite Hf. cbn [negb snd obind]. intros H%IH; [exact H|done].
  - unfold run_work_thread_logic. rewrite Hf. cbn [negb snd obind]. intros H%IH; [exact H|done].
Qed.

(** Started with the plugin, which makes its requests, and then run in any way. *)
Inductive echo_system (n : Z) : system → Prop :=
| echo_start created c t0 ct ts svc rs tids y y' : 0 < n < 65536 →
    do_requests (init_begin (test_dlopen gcov created) (sys_new [] c t0) n ct [test_config] svc) rs = Ok y →
    init_end y n ts tids = Ok y' → echo_system n y'
| echo_next y o y' : echo_system n y → op_pre y o → wt_step y o = Ok y' → echo_system n y'.

Lemma echo_reachable n y : echo_system n y → wt_reachable n y ∧ sync y = sync_table gcov.
Proof.
  induction 1 as [created c t0 ct ts svc rs tids y y' Hn E E'|y o y' _ [Hr Hs] Ho E].
  - split; [by eapply wt_start|]. rewrite (init_end_sync _ _ _ _ _ E'). apply requests_loader in E as [-> _]; [|done].
    pose proof (test_plugin_loads gcov created [] svc "./" "libTest_Logic.so" EmptyString) as H.
    destruct (load_plugin_module _ _ _ _ _) as [ok s] eqn:El in H. destruct H as (_ & H & _).
    change (command_to_session_function_ (load_plugin_module (test_dlopen gcov created) (set_session_service (CLoadModule_new []) svc)
      "./" "libTest_Logic.so" EmptyString).2 = sync_table gcov). by rewrite El.
  - split; [by eapply wt_next|]. destruct (wt_reachable_good n y Hr) as (Hw & _). destruct (wt_step_good y o Hw Ho) as (y1 & E1 & _ & Hf).
    rewrite E in E1. injection E1 as ->. destruct Hf as (_ & _ & _ & -> & _). done.
Qed.

(** *** Messages that are answered at once *)

Notation is_echo := (λ q, command_id_ q = COMMAND_TEST_SYNC).

Lemma sync_echo_lookup (q : CMessage_Packet) : is_echo q → sync_table gcov !! command_id_ q = Some (do_module_message gcov).
Proof. by intros ->. Qed.

Lemma do_echo w source q send : is_echo q → ∃ w', do_module_message gcov w source q send = (0, q, with_buffer send (pbuffer_ send ++ pbuffer_ q), w').
Proof. intros E. unfold do_module_message. rewrite E. cbn. eauto. Qed.

Lemma run_sync_echo source l : Forall is_echo l → ∀ send w, ∃ w',
  run_sync (sync_table gcov) source (send, w) l = (with_buffer send (pbuffer_ send ++ concat (map pbuffer_ l)), w').
Proof.
  induction 1 as [|q l Hq _ IH]; intros send w.
  - exists w. cbn. rewrite app_nil_r. by destruct send.
  - cbn [run_sync foldl]. rewrite sync_echo_lookup by done. unfold dispose. destruct (do_echo w source q send Hq) as (w1 & ->).
    destruct (IH (with_buffer send (pbuffer_ send ++ pbuffer_ q)) w1) as (w' & E). exists w'. etrans; [exact E|]. cbn. by rewrite <- app_assoc.
Qed.

Lemma written_reply x c send : written c (write_reply x c send) = pbuffer_ send.
Proof.
  unfold write_reply. destruct (Z.ltb_spec 0 (zlen (pbuffer_ send))) as [|H].
  - unfold written. cbn [omap list_omap]. rewrite Z.eqb_refl. cbn. apply app_nil_r.
  - pose proof (zlen_nonneg (pbuffer_ send)). by rewrite (zlen_zero (pbuffer_ send)) by lia.
Qed.

Lemma echo_step n y c x l : echo_system n y → Forall is_echo l →
  ∃ y', wt_step y (WMessages c l x) = Ok y' ∧ echo_system n y' ∧
    written c (trace y') = written c (trace y) ++ concat (map pbuffer_ l) ∧ ∀ i, queue_of y' i = queue_of y i.
Proof.
  intros Hy Hl. destruct (echo_reachable n y Hy) as [Hr Hs]. destruct (wt_reachable_good n y Hr) as (Hw & Hn & Hx).
  destruct (assignation_spec y c l x Hw Hx) as (y' & p & send & w & E & Er & _ & Et & _ & Hq).
  assert (sync_messages y l = l ∧ async_messages y l = []) as [E1 E2].
  { unfold sync_messages, async_messages. rewrite Hs. clear -Hl. induction Hl as [|q l H _ [IH1 IH2]]; [done|].
    assert (is_sync (sync_table gcov) q) by (exists (do_module_message gcov); by apply sync_echo_lookup).
    rewrite !filter_cons, decide_True, decide_False by tauto. by rewrite IH1, IH2. }
  exists y'. split; [exact E|]. split; [by eapply (echo_next n y (WMessages c l x))|]. split.
  - rewrite E1, Hs in Er. destruct (run_sync_echo (message_source x c) l Hl fresh_packet (plugins y)) as (w' & Ew). rewrite Ew in Er.
    injection Er as <- _. by rewrite Et, written_app, written_reply.
  - intros i. rewrite Hq, E2. by rewrite decide_False by tauto.
Qed.

Lemma echo_hand_over n c x ms : Forall (Forall is_echo) ms → ∀ y, echo_system n y →
  ∃ y', hand_over y x (map (pair c) ms) = Ok y' ∧ echo_system n y' ∧
    written c (trace y') = written c (trace y) ++ concat (map pbuffer_ (concat ms)) ∧ ∀ i, queue_of y' i = queue_of y i.
Proof.
  induction 1 as [|l ms Hl _ IH]; intros y Hy; cbn [hand_over map].
  - exists y. cbn. by rewrite app_nil_r.
  - destruct (echo_step n y c x l Hy Hl) as (y1 & -> & Hy1 & Hw1 & Hq1). cbn [obind]. destruct (IH y1 Hy1) as (y' & E & Hy' & Hw & Hq).
    exists y'. split_and!; try done; [|intros i; by rewrite Hq, Hq1]. cbn [concat]. by rewrite Hw, Hw1, map_app, concat_app, app_assoc.
Qed.

End Server.

(** C3: The echo.  A client of a server with the example plugin sends well-formed frames of the synchronous test command
    on a TCP connection; the session reads them without errors, through the shipped parser and without a bridge ([served]), in
    chunks that fit the receive buffer and of which none ends in the last 40 bytes of a frame whose header is complete
    ([chunked]: at such a cut the parser reads past the received data); meanwhile the session may be asked to write and to
    close.  Then the bytes written back to it are exactly those frames, in order, and nothing is left to the work threads. *)
Theorem frames_echoed {session comm} `{!ISession session} `{!ICommunicationInterface comm} `{!PriorityQueue} gcov n
    (y : sys test_world session comm) x junk c cap time remote local os fs rest :
  0 <= cap < 2 ^ 32 → Forall served os → chunked cap [] (reads os) fs rest → echo_system gcov n y →
  Forall (λ f, f_command f = COMMAND_TEST_SYNC) fs →
  ∃ s y1, tcp_run (open junk c cap time remote local) os = Ok s ∧ contents (session_recv_buffer_ s) = rest ∧
    hand_over y x (messages (calls s)) = Ok y1 ∧ written c (trace y1) = written c (trace y) ++ concat (map frame_bytes fs) ∧
    ∀ i, queue_of y1 i = queue_of y i.
Proof.
  intros Hcap Hos Hch Hy Hfs. destruct (open_receiving junk c cap time remote local) as [Hv Hm0]; [lia|].
  destruct (session_frames c cap os Hos [] _ fs rest Hv (proj2 Hcap) Hch) as (s & ms & E & Hv' & Ems & Hms).
  rewrite Hm0 in Ems. cbn [app] in Ems. exists s.
  assert (Hall : Forall (Forall (λ q, command_id_ q = COMMAND_TEST_SYNC)) ms) by (apply Forall_concat; rewrite Hms; by apply Forall_map).
  destruct (echo_hand_over gcov n c x ms Hall y Hy) as (y1 & E1 & _ & Hw & Hq). exists y1. rewrite Ems. split_and!; try done; [apply Hv'|].
  rewrite Hw, Hms, map_map. done.
Qed.

(** *** An example: a frame in two reads *)

#[local] Existing Instance sorted_queue.
#[local] Existing Instance demo_comm.

Definition echo_frame : PacketInterface.frame := PacketInterface.mkFrame 1 COMMAND_TEST_SYNC (replicate 32 48) [104; 105].
Lemma echo_frame_ok : frame_ok echo_frame.
Proof. unfold frame_ok. split_and!; try (vm_compute; intuition congruence); repeat constructor; unfold is_byte; lia. Qed.

Definition echo_reads : list tcp_op :=
  [TRead false (ztake 10 (frame_bytes echo_frame)) 1 0 (plugin CONNECT_IO_TCP); TWriteNow [1; 2];
   TRead false (zdrop 10 (frame_bytes echo_frame)) 2 0 (plugin CONNECT_IO_TCP)].

Lemma echo_reads_chunked : chunked 1024 [] (reads echo_reads) [echo_frame] [].
Proof.
  apply (chunked_cons 1024 [] _ _ [] (ztake 10 (frame_bytes echo_frame)));
    [reflexivity|vm_compute; congruence|left; reflexivity|constructor|].
  apply (chunked_cons 1024 _ _ _ [echo_frame] [] []);
    [reflexivity|vm_compute; congruence|left; reflexivity|constructor; [apply echo_frame_ok|constructor]|constructor].
Qed.

Notation new_service := (CCommunicationService_new (session:=unit)).

Lemma frames_echoed_witness : ∃ (y : sys test_world unit (CCommunicationService unit)) s y1, echo_system false 2 y ∧
  tcp_run (open (λ _, 0) 5 1024 0 ClientIPInfo_default ClientIPInfo_default) echo_reads = Ok s ∧
  hand_over y tt (messages (calls s)) = Ok y1 ∧ written 5 (trace y1) = written 5 (trace y) ++ frame_bytes echo_frame.
Proof.
  destruct (wt_start_good (session:=unit) 2 (test_dlopen false true) [] new_service 0 0 60 [test_config] None [] (λ i, i))
    as (y0 & y & E0 & E & _); [lia|].
  assert (Hy : echo_system false 2 y) by (eapply (echo_start false 2 true new_service 0 0 60 None []); [lia|exact E0|exact E]).
  destruct (frames_echoed false 2 y tt (λ _, 0) 5 1024 0 ClientIPInfo_default ClientIPInfo_default echo_reads [echo_frame] [])
    as (s & y1 & Es & _ & E1 & Hw & _); [lia|unfold echo_reads; repeat constructor|exact echo_reads_chunked|exact Hy|repeat constructor|].
  exists y, s, y1. split; [exact Hy|]. split; [exact Es|]. split; [exact E1|]. rewrite Hw. cbn [map concat]. by rewrite app_nil_r.
Defined.

(** The asynchronous test command: no answer, but one message sent to the connection for each frame. *)
Lemma asyn_answers gcov source fs : Forall (λ f, f_command f = COMMAND_TEST_ASYN) fs → ∀ w,
  answers (work_table gcov) w source (map frame_packet fs) =
    (map (λ _, fresh_packet) fs, w ++ map (λ f, TSend (connect_id_ source) (mkPacket [] (frame_bytes f) 0)) fs).
Proof.
  induction 1 as [|f fs Hf _ IH]; intros w; cbn [map answers]; [by rewrite app_nil_r|].
  unfold Modules.do_module_message. cbn [frame_packet command_id_]. rewrite Hf.
  change (work_table gcov !! COMMAND_TEST_ASYN) with (Some logic_test_asyn). unfold dispose, logic_test_asyn. cbn beta iota.
  rewrite IH, <- app_assoc. done.
Qed.
