(* ===== verification/ServerConfig.v ===== *)
(** * The configuration (src/PSS_ASIO/Common/serverconfig.{h,cpp}, serverconfigtype.h)

    [read_server_config_file] reads a JSON file into the lists the other components are started from.
    Only the error of an invalid text is caught: a value of the wrong type, or a value that is missing,
    throws [json::type_error], which ends the process.

    [json] is a value of nlohmann::json (src/third_include/json/json.hpp) with the operations the reader
    uses of it: access by a key, which gives null for a key that is not there; the loop over the elements
    of a value; and the conversions.  The text itself is parsed by the library; here the file is the
    value the parser gives, or nothing when it is no JSON. *)

From Stdlib Require Import ZArith Lia.
From S2P Require Import Prelude Define Listeners WorkThread.
From stdpp Require Import base numbers list gmap strings.
Local Open Scope Z_scope.

(** ** nlohmann::json *)

(** A number is an integer of 64 bits, or a floating point number given by its integral part. *)
Inductive json :=
| JNull
| JBool (b : bool)
| JInteger (z : Z)
| JFloat (integral : Z)
| JString (s : string)
| JArray (l : list json)
| JObject (l : list (string * json)).

(** A value, the [type_error] of the given number, or undefined behaviour. *)
Inductive result (A : Type) := Value (a : A) | Type_error (id : Z) | Undefined.
Arguments Value {A}.
Arguments Type_error {A}.
Arguments Undefined {A}.

Definition rbind {A B} (m : result A) (k : A → result B) : result B :=
  match m with Value a => k a | Type_error e => Type_error e | Undefined => Undefined end.
Notation "'let!' x ':=' m 'in' k" := (rbind m (fun x => k)) (at level 200, x name, m at level 100, k at level 200, right associativity).

Fixpoint collect {A B} (f : A → result B) (l : list A) : result (list B) :=
  match l with
  | [] => Value []
  | a :: l => let! b := f a in let! bs := collect f l in Value (b :: bs)
  end.

Fixpoint assoc (key : string) (l : list (string * json)) : json :=
  match l with
  | [] => JNull
  | (k, v) :: l => if String.eqb k key then v else assoc key l
  end.

(** [operator[]] with a key. *)
Definition at_key (j : json) (key : string) : result json :=
  match j with
  | JNull => Value JNull
  | JObject l => Value (assoc key l)
  | _ => Type_error 305
  end.

(** The values a loop over [j] visits; the loop over a value that is no container visits the value. *)
Definition elements (j : json) : list json :=
  match j with
  | JNull => []
  | JArray l => l
  | JObject l => map snd l
  | _ => [j]
  end.

(** The conversion to an integer type ([wrap] is the conversion between integers). *)
Definition get_number (wrap : Z → Z) (j : json) : result Z :=
  match j with
  | JInteger z => Value (wrap z)
  | JFloat t => if wrap t =? t then Value t else Undefined
  | JBool b => Value (Z.b2z b)
  | _ => Type_error 302
  end.
Definition get_string (j : json) : result string := match j with JString s => Value s | _ => Type_error 302 end.
Definition get_bool (j : json) : result bool := match j with JBool b => Value b | _ => Type_error 302 end.

Definition number_at (wrap : Z → Z) (j : json) (key : string) : result Z := let! v := at_key j key in get_number wrap v.
Definition string_at (j : json) (key : string) : result string := let! v := at_key j key in get_string v.
Definition bool_at (j : json) (key : string) : result bool := let! v := at_key j key in get_bool v.

(** ** The configuration *)

Record CConfigWorkThread := mkWorkThread {
  linux_daemonize_ : Z;                    (* int, as all of them *)
  work_thread_count_ : Z;
  work_timeout_seconds_ : Z;
  s2s_timeout_seconds_ : Z;
  client_connect_timeout_ : Z;
  logic_thread_bind_cpu_ : Z;
}.
Definition CConfigWorkThread_new : CConfigWorkThread := mkWorkThread 0 1 60 60 0 0.

Record CConfigPacketParseInfo := mkPacketParse {
  config_parse_id_ : Z;                    (* int *)
  packet_parse_path_ : string;
  packet_parse_file_name_ : string;
}.

Record CConfigConsole := mkConsole {
  file_output_ : bool;
  file_count_ : Z;                         (* int *)
  max_file_size_ : Z;                      (* int *)
  file_name_ : string;
  output_level_ : string;
}.
Definition CConfigConsole_new : CConfigConsole := mkConsole false 3 1048576 EmptyString "debug".

Record CServerConfig := mkServerConfig {
  config_packet_list_ : list CConfigPacketParseInfo;
  config_logic_list_ : list config_logic;
  tcp_list_ : list CConfigNetIO;           (* config_tcp_list_ ... config_tty_list_ *)
  udp_list_ : list CConfigNetIO;
  kcp_list_ : list CConfigNetIO;
  tty_list_ : list CTTyIO;
  config_output_ : CConfigConsole;
  config_work_thread_ : CConfigWorkThread;
}.
Definition CServerConfig_new : CServerConfig := mkServerConfig [] [] [] [] [] [] CConfigConsole_new CConfigWorkThread_new.

(** ** Reading *)

Definition read_work_thread (j : json) : result CConfigWorkThread :=
  let! count := number_at i32 j "work thread count" in
  let! timeout := number_at i32 j "work time check" in
  let! s2s := number_at i32 j "server to server time check" in
  let! connect := number_at i32 j "client connect timeout" in
  let! daemonize := number_at i32 j "linux daemonize" in
  let! bind := number_at i32 j "logic thread bind cpu" in
  Value (mkWorkThread daemonize count timeout s2s connect bind).

Definition read_packet_parse (j : json) : result CConfigPacketParseInfo :=
  let! id := number_at i32 j "packet parse id" in
  let! path := string_at j "packet parse path" in
  let! file := string_at j "packet parse file" in
  Value (mkPacketParse id path file).

Definition read_logic (j : json) : result config_logic :=
  let! path := string_at j "logic path" in
  let! file := string_at j "logic file" in
  let! param := string_at j "logic param" in
  Value (mkConfigLogic path file param).

(** The fields all listeners share. *)
Definition read_netio (ip port : string) (j : json) : result CConfigNetIO :=
  let! ip := string_at j ip in
  let! port := number_at u16 j port in
  let! id := number_at u32 j "packet parse id" in
  let! recv := number_at u32 j "recv buff size" in
  let! send := number_at u32 j "send buff size" in
  Value (CConfigNetIO_default <| ip_ := ip |> <| port_ := port |> <| packet_parse_id_ := id |>
           <| recv_buff_size_ := recv |> <| send_buff_size_ := send |>).

(** A string that may be null. *)
Definition null_or_string (v : json) : result string := match v with JNull => Value EmptyString | _ => get_string v end.
Definition optional_string (j : json) (key : string) : result string := let! v := at_key j key in null_or_string v.

Definition read_tcp (j : json) : result CConfigNetIO :=
  let! netio := read_netio "tcp ip" "tcp port" j in
  let! password := optional_string j "ssl server password" in
  let! pem := optional_string j "ssl server pem file" in
  let! dh := optional_string j "ssl dh pem file" in
  Value (netio <| ssl_server_password_ := password |> <| ssl_server_pem_file_ := pem |> <| ssl_dh_pem_file_ := dh |>).

Definition read_udp (j : json) : result CConfigNetIO :=
  let! netio := read_netio "udp ip" "udp port" j in
  let! type := at_key j "udp type" in
  match type with
  | JString s => Value (if String.eqb s "BROADCAST" then netio <| em_net_type_ := NET_TYPE_BROADCAST |> else netio)
  | _ => Value netio
  end.

Definition read_kcp (j : json) : result CConfigNetIO := read_netio "udp ip" "udp port" j.

Definition read_tty (j : json) : result CTTyIO :=
  let! name := string_at j "port name" in
  let! port := number_at u32 j "serial port" in
  let! char_size := number_at i32 j "char size" in
  let! id := number_at u32 j "packet parse id" in
  let! recv := number_at u32 j "recv buff size" in
  let! send := number_at u32 j "send buff size" in
  Value (mkTTyIO name port char_size id recv send).

Definition read_console (j : json) : result CConfigConsole :=
  let! file_output := bool_at j "file write" in
  let! count := number_at i32 j "log file count" in
  let! size := number_at u32 j "max log file size" in
  let! name := string_at j "file name" in
  let! level := string_at j "output level" in
  Value (mkConsole file_output count (i32 (u32 (size * 1024))) name level).

(** One of the lists. *)
Definition read_list {A} (read : json → result A) (j : json) (key : string) : result (list A) :=
  let! l := at_key j key in collect read (elements l).

(** [read_server_config_file]; [file] is what the JSON parser makes of the text. *)
Definition read_server_config_file (c : CServerConfig) (file : option json) : result (bool * CServerConfig) :=
  match file with
  | None => Value (false, c)
  | Some j =>
      let! work := at_key j "work thread" in
      let! work := read_work_thread work in
      let! packets := read_list read_packet_parse j "packet parse library" in
      let! logics := read_list read_logic j "logic library" in
      let! tcps := read_list read_tcp j "tcp server" in
      let! udps := read_list read_udp j "udp server" in
      let! kcps := read_list read_kcp j "kcp server" in
      let! ttys := read_list read_tty j "tty server" in
      let! output := at_key j "console output" in
      let! output := read_console output in
      Value (true, mkServerConfig (config_packet_list_ c ++ packets) (config_logic_list_ c ++ logics) (tcp_list_ c ++ tcps)
                     (udp_list_ c ++ udps) (kcp_list_ c ++ kcps) (tty_list_ c ++ ttys) output work)
  end.

(** ** What a configuration can hold *)

Definition is_int (z : Z) : Prop := i32 z = z.
Definition is_uint (z : Z) : Prop := u32 z = z.

Definition work_ok (w : CConfigWorkThread) : Prop :=
  is_int (linux_daemonize_ w) ∧ is_int (work_thread_count_ w) ∧ is_int (work_timeout_seconds_ w) ∧
  is_int (s2s_timeout_seconds_ w) ∧ is_int (client_connect_timeout_ w) ∧ is_int (logic_thread_bind_cpu_ w).
Definition netio_ok (n : CConfigNetIO) : Prop :=
  u16 (port_ n) = port_ n ∧ is_uint (packet_parse_id_ n) ∧ is_uint (recv_buff_size_ n) ∧ is_uint (send_buff_size_ n) ∧
  protocol_type_ n = CONNECT_IO_TCP.
Definition no_ssl (n : CConfigNetIO) : Prop :=
  ssl_server_password_ n = EmptyString ∧ ssl_server_pem_file_ n = EmptyString ∧ ssl_dh_pem_file_ n = EmptyString.
Definition tcp_ok (n : CConfigNetIO) : Prop := netio_ok n ∧ em_net_type_ n = NET_TYPE_POINT_TO_POINT.
Definition udp_ok (n : CConfigNetIO) : Prop := netio_ok n ∧ no_ssl n.
Definition kcp_ok (n : CConfigNetIO) : Prop := netio_ok n ∧ no_ssl n ∧ em_net_type_ n = NET_TYPE_POINT_TO_POINT.
Definition tty_ok (t : CTTyIO) : Prop :=
  is_uint (tty_port_ t) ∧ is_int (char_size_ t) ∧ is_uint (tty_packet_parse_id_ t) ∧ is_uint (tty_recv_buff_size_ t) ∧
  is_uint (tty_send_buff_size_ t).

(** The size of a log file is given in kilobytes and kept in bytes. *)
Definition console_ok (c : CConfigConsole) : Prop := is_int (file_count_ c) ∧ is_int (max_file_size_ c) ∧ max_file_size_ c mod 1024 = 0.

Record config_ok (c : CServerConfig) : Prop := {
  ok_packets : Forall (λ p, is_int (config_parse_id_ p)) (config_packet_list_ c);
  ok_tcp : Forall tcp_ok (tcp_list_ c);
  ok_udp : Forall udp_ok (udp_list_ c);
  ok_kcp : Forall kcp_ok (kcp_list_ c);
  ok_tty : Forall tty_ok (tty_list_ c);
  ok_output : console_ok (config_output_ c);
  ok_work : work_ok (config_work_thread_ c);
}.

Lemma collect_Forall {A B} (f : A → result B) (P : B → Prop) : (∀ a b, f a = Value b → P b) →
  ∀ l bs, collect f l = Value bs → Forall P bs.
Proof.
  intros H. induction l as [|a l IH]; cbn; intros bs E; [by injection E as <-|].
  destruct (f a) as [b| |] eqn:Eb; try done. cbn in E. destruct (collect f l) as [bs'| |]; try done. injection E as <-.
  constructor; [by apply H in Eb | by apply IH].
Qed.

(** ** What is read fits *)

Lemma rbind_inv {A B} (m : result A) (k : A → result B) b : rbind m k = Value b → ∃ a, m = Value a ∧ k a = Value b.
Proof. destruct m; [by eauto|done|done]. Qed.

Ltac unbind := repeat match goal with
  | H : rbind _ _ = Value _ |- _ => apply rbind_inv in H as (? & ? & H)
  | H : Value _ = Value _ |- _ => injection H as H; try subst
  end.

Class Wraps (wrap : Z → Z) := { wrap_idem z : wrap (wrap z) = wrap z; wrap_bit b : wrap (Z.b2z b) = Z.b2z b }.
#[local] Instance u16_wraps : Wraps u16.
Proof. split; [intros; apply Z.mod_mod; lia | by intros []]. Qed.
#[local] Instance u32_wraps : Wraps u32.
Proof. split; [intros; apply Z.mod_mod; lia | by intros []]. Qed.
#[local] Instance i32_wraps : Wraps i32.
Proof.
  split; [|by intros []]. intros z. unfold i32, swrap. by rewrite Z.sub_add, Z.mod_mod.
Qed.

Lemma number_fits wrap `{!Wraps wrap} j key z : number_at wrap j key = Value z → wrap z = z.
Proof.
  unfold number_at. intros H. apply rbind_inv in H as (v & _ & H). destruct v as [|b|n|t| | |]; cbn in *; try done.
  1,2: injection H as <-.
  - apply wrap_bit.
  - apply wrap_idem.
  - destruct (Z.eqb_spec (wrap t) t); [by injection H as <-|done].
Qed.

Lemma netio_fits ip port j n : read_netio ip port j = Value n → kcp_ok n.
Proof.
  unfold read_netio. intros H. unbind. split; [|done]. split_and!; cbn; [eapply number_fits; [apply _|eassumption]..|done].
Qed.

Lemma tcp_fits j n : read_tcp j = Value n → tcp_ok n.
Proof. unfold read_tcp. intros H. unbind. by destruct (netio_fits _ _ _ _ H0) as (? & _ & ?). Qed.

Lemma udp_fits j n : read_udp j = Value n → udp_ok n.
Proof.
  unfold read_udp. intros H. unbind. destruct (netio_fits _ _ _ _ H0) as (? & ? & _).
  destruct x0; unbind; try done. by destruct (String.eqb _ _).
Qed.

Lemma tty_fits j t : read_tty j = Value t → tty_ok t.
Proof. unfold read_tty. intros H. unbind. split_and!; cbn; (eapply number_fits; [apply _|eassumption]). Qed.

Lemma work_fits j w : read_work_thread j = Value w → work_ok w.
Proof. unfold read_work_thread. intros H. unbind. split_and!; cbn; (eapply number_fits; [apply _|eassumption]). Qed.

Lemma packet_fits j p : read_packet_parse j = Value p → is_int (config_parse_id_ p).
Proof. unfold read_packet_parse. intros H. unbind. eapply (number_fits i32); eassumption. Qed.

Lemma console_fits j c : read_console j = Value c → console_ok c.
Proof.
  unfold read_console. intros H. unbind. split_and!; cbn; [by eapply (number_fits i32)|apply wrap_idem|].
  unfold i32, u32, swrap, uwrap. Z.to_euclidean_division_equations. lia.
Qed.

Lemma list_fits {A} (read : json → result A) (P : A → Prop) j key l l0 :
  (∀ j a, read j = Value a → P a) → read_list read j key = Value l → Forall P l0 → Forall P (l0 ++ l).
Proof.
  intros H Hl H0. unfold read_list in Hl. unbind. apply Forall_app. split; [done|]. by eapply collect_Forall.
Qed.

(** The elements of a list of the file. *)
Definition section (file : option json) (key : string) : list json :=
  match file with Some (JObject l) => elements (assoc key l) | _ => [] end.

(** A listener has the values of its entry in the file. *)
Definition netio_of (ip port : string) (e : json) (n : CConfigNetIO) : Prop :=
  string_at e ip = Value (ip_ n) ∧ number_at u16 e port = Value (port_ n) ∧
  number_at u32 e "packet parse id" = Value (packet_parse_id_ n) ∧
  number_at u32 e "recv buff size" = Value (recv_buff_size_ n) ∧ number_at u32 e "send buff size" = Value (send_buff_size_ n).

Lemma read_netio_of ip port e n : read_netio ip port e = Value n → netio_of ip port e n.
Proof. unfold read_netio. intros H. unbind. done. Qed.

Lemma read_tcp_of e n : read_tcp e = Value n → netio_of "tcp ip" "tcp port" e n.
Proof. unfold read_tcp. intros H. unbind. by apply read_netio_of in H0. Qed.

Lemma read_udp_of e n : read_udp e = Value n → netio_of "udp ip" "udp port" e n.
Proof. unfold read_udp. intros H. unbind. apply read_netio_of in H0. destruct x0; unbind; try done. by destruct (String.eqb _ _). Qed.

Lemma list_entries {A} (read : json → result A) (P : json → A → Prop) l key new :
  (∀ e a, read e = Value a → P e a) → read_list read (JObject l) key = Value new → Forall2 P (section (Some (JObject l)) key) new.
Proof.
  intros H Hl. unfold read_list in Hl. cbn [at_key rbind] in Hl. cbn [section]. revert new Hl. induction (elements _) as [|e es IH]; intros new Hl; cbn in Hl.
  - by injection Hl as <-.
  - unbind. constructor; eauto.
Qed.

(** What reading adds to a list: an entry for every element, in the order of the file. *)
Definition appends {A} (P : json → A → Prop) (es : list json) (l l' : list A) : Prop := ∃ new, l' = l ++ new ∧ Forall2 P es new.

(** C32: what is read from a configuration file.  Whatever JSON value the file holds, and whatever was read before: when
    [read_server_config_file] returns (it throws [json::type_error] for a missing or mistyped value, which is another
    outcome), then it returns false, with nothing changed, exactly for a text that is no JSON; otherwise every list has got one entry for every
    element of its section, in the order of the file and behind what was read before, the listeners with the addresses, parser ids and sizes
    of their elements (reduced to the width of the field); and every number fits its field, the size of a log file is a multiple
    of 1024 bytes, and UDP and KCP listeners have no TLS settings. *)
Theorem config_reading_sound c file r c' :
  config_ok c → read_server_config_file c file = Value (r, c') →
  config_ok c' ∧ (r = true ↔ is_Some file) ∧ (r = false → c' = c) ∧
  appends (netio_of "tcp ip" "tcp port") (section file "tcp server") (tcp_list_ c) (tcp_list_ c') ∧
  appends (netio_of "udp ip" "udp port") (section file "udp server") (udp_list_ c) (udp_list_ c') ∧
  appends (netio_of "udp ip" "udp port") (section file "kcp server") (kcp_list_ c) (kcp_list_ c') ∧
  appends (λ e t, read_tty e = Value t) (section file "tty server") (tty_list_ c) (tty_list_ c') ∧
  appends (λ e p, read_packet_parse e = Value p) (section file "packet parse library") (config_packet_list_ c) (config_packet_list_ c') ∧
  appends (λ e l, read_logic e = Value l) (section file "logic library") (config_logic_list_ c) (config_logic_list_ c').
Proof.
  intros [H1 H2 H3 H4 H5 H6 H7] H. destruct file as [j|]; cbn [read_server_config_file] in H.
  2:{ injection H as <- <-. split_and!; try done; exists []; by rewrite app_nil_r. }
  assert (Hj : ∃ l, j = JObject l).
  { destruct j; try done. by eauto. }
  destruct Hj as [l ->]. unbind. cbn [tcp_list_ udp_list_ kcp_list_ tty_list_ config_packet_list_ config_logic_list_].
  split_and!; try done.
  2-7: eexists; (split; [reflexivity|]); eapply list_entries; [|eassumption]; eauto using read_tcp_of, read_udp_of, read_netio_of.
  split; cbn; try (by eapply list_fits; [|eassumption..]; eauto using packet_fits, tcp_fits, udp_fits, netio_fits, tty_fits).
  - by eapply console_fits.
  - by eapply work_fits.
Qed.

(** A file without the section for the work threads or the one for the output ends the process; a list that is
    missing is empty. *)
Lemma missing_section_throws c l : assoc "work thread" l = JNull → read_server_config_file c (Some (JObject l)) = Type_error 302.
Proof. intros H. cbn. by rewrite H. Qed.

(** ** Witnesses *)

Definition demo_config_file : CServerConfig :=
  mkServerConfig [mkPacketParse 1 "./" "libPacketParse_Interface.so"] [mkConfigLogic "./" "libTest_Logic.so" ""]
    [CConfigNetIO_default <| ip_ := "127.0.0.1"%string |> <| port_ := 10002 |> <| packet_parse_id_ := 1 |>] [] []
    [mkTTyIO "/dev/ttyS0" 115200 8 1 1024 1024] (mkConsole false 5 1048576 "./log/pss.log" "debug") (mkWorkThread 0 3 60 30 0 0).

Lemma demo_config_ok : config_ok demo_config_file.
Proof. split; repeat constructor. Qed.

Definition demo_work_thread : json :=
  JObject [("work thread count", JInteger 3); ("work time check", JInteger 60); ("server to server time check", JInteger 30);
           ("client connect timeout", JInteger 0); ("linux daemonize", JInteger 0); ("logic thread bind cpu", JInteger 0)]%string.
Definition demo_console : json :=
  JObject [("file write", JBool false); ("log file count", JInteger 5); ("max log file size", JInteger 1024);
           ("file name", JString "./log/pss.log"); ("output level", JString "debug")]%string.

(** A file with this configuration. *)
Definition demo_config_json : json :=
  JObject [("work thread", demo_work_thread);
    ("packet parse library", JArray [JObject [("packet parse id", JInteger 1); ("packet parse path", JString "./");
       ("packet parse file", JString "libPacketParse_Interface.so")]]);
    ("logic library", JArray [JObject [("logic path", JString "./"); ("logic file", JString "libTest_Logic.so"); ("logic param", JString "")]]);
    ("tcp server", JArray [JObject [("tcp ip", JString "127.0.0.1"); ("tcp port", JInteger 10002); ("packet parse id", JInteger 1);
       ("recv buff size", JInteger 1024); ("send buff size", JInteger 1024)]]);
    ("tty server", JArray [JObject [("port name", JString "/dev/ttyS0"); ("serial port", JInteger 115200); ("char size", JInteger 8);
       ("packet parse id", JInteger 1); ("recv buff size", JInteger 1024); ("send buff size", JInteger 1024)]]);
    ("console output", demo_console)]%string.

Lemma demo_config_read : read_server_config_file CServerConfig_new (Some demo_config_json) = Value (true, demo_config_file).
Proof. vm_compute. reflexivity. Qed.

(** A port that does not fit is reduced. *)
Definition demo_wide_port : json :=
  JObject [("work thread", demo_work_thread); ("console output", demo_console);
    ("udp server", JArray [JObject [("udp ip", JString "0.0.0.0"); ("udp port", JInteger 70000); ("packet parse id", JInteger 1);
       ("recv buff size", JInteger 1024); ("send buff size", JFloat 1024); ("udp type", JString "BROADCAST")]])]%string.

Lemma config_reading_sound_witness : ∃ c, read_server_config_file CServerConfig_new (Some demo_wide_port) = Value (true, c) ∧
  config_ok c ∧ map port_ (udp_list_ c) = [4464].
Proof.
  eexists. split; [vm_compute; reflexivity|]. split; [|reflexivity].
  eapply (config_reading_sound CServerConfig_new (Some demo_wide_port) true); [split; repeat constructor | vm_compute; reflexivity].
Defined.
