(* ===== verification/ServerService.v ===== *)
(** * Starting and stopping the server (src/PSS_ASIO/Common/ServerService.cpp, src/PSS_ASIO/PSS_ASIO.cpp)

    [init_service] reads the configuration and starts the components one after the other; [close_service]
    ends them.  A server is the process of [SessionService] with the I/O contexts and the packet parsers.

    The environment gives the file, the number of processors, the libraries, which addresses can be bound
    and which serial ports opened, and what the plugins ask for while they are loaded.  The signal handler,
    the log, the daemon mode and the timer that checks the links to other servers are not modelled; the
    plugins do not connect to other servers before they are all loaded. *)

From Stdlib Require Import ZArith Lia.
From S2P Require Import Prelude Define SessionBuffer SessionCalls SessionTable Iobridge Timer Tms Modules Communication.
From S2P Require Import IoContextPool PacketLoader Listeners QueueService WorkThread Dispatch SessionService ServerConfig.
From stdpp Require Import base numbers list gmap strings.
Local Open Scope Z_scope.

Section ServerService.

Context {W session : Type} `{!ISession session} `{PQ : !PriorityQueue}.
Context (start_client : nat → CConnect_IO_Info → EM_CONNECT_IO_TYPE → session * bool * list Z).
Context (qbytes : Z) (qlogic : list Z → Z → option (Z * list Z)).
#[local] Instance service_comm : ICommunicationInterface (CCommunicationService session) := CCommunicationService_interface start_client.
Notation comm := (CCommunicationService session).
Notation system := (sys W session comm).

Record server := mkServer {
  server_config : CServerConfig;
  pool : CIoContextPool;
  parsers : CLoadPacketParse;
  proc : process W session comm;
}.

(** What the server meets when it starts. *)
Record environment := mkEnvironment {
  file : option json;
  processors : nat;
  library : string → option (string → bool);            (* parser plugins *)
  dlopen : string → option (Modules.library W);         (* logic plugins *)
  can_bind : CConfigNetIO → bool;
  can_open : CTTyIO → bool;
  with_ssl : bool;                                       (* built with SSL_SUPPORT *)
  requests : list (@request W);                          (* made by the plugins while they are loaded *)
  tids : Z → Z;                                          (* identities of the threads *)
  start_time : Z;
  plugin_state : W;
}.

Inductive started := Refused | Threw | Running (s : server).

(** The start of the work threads, with the requests of the plugins. *)
Definition start_work (e : environment) (c : CServerConfig) : outcome system :=
  let n := work_thread_count_ (config_work_thread_ c) in
  let s := sys_new (plugin_state e) CCommunicationService_new (start_time e) in
  let* s := do_requests (init_begin (dlopen e) s n (u32 (client_connect_timeout_ (config_work_thread_ c))) (config_logic_list_ c) (Some 1))
              (requests e) in
  init_end s n (u16 (work_timeout_seconds_ (config_work_thread_ c))) (tids e).

Definition listen_config (e : environment) (c : CServerConfig) : config :=
  mkConfig (with_ssl e) (map (λ n, (n, can_bind e n)) (tcp_list_ c)) (map (λ n, (n, can_bind e n)) (udp_list_ c))
    (map (λ n, (n, can_bind e n)) (kcp_list_ c)) (map (λ t, (t, can_open e t)) (tty_list_ c)).

(** [run_server_to_server] of the communication service. *)
Definition open_links (s : system) : outcome system :=
  let* c := get_comm s in Ok (with_comm s (Some (run_server_to_server start_client c))).

Definition parser_list (c : CServerConfig) : list (Z * string * string) :=
  map (λ p, (u32 (config_parse_id_ p), packet_parse_path_ p, packet_parse_file_name_ p)) (config_packet_list_ c).

(** The I/O contexts the listeners ask for; the server asks for one itself. *)
Definition contexts_needed (e : environment) (c : CServerConfig) : nat :=
  length (List.filter (λ n, with_ssl e || negb (is_tls n)) (tcp_list_ c)) + length (udp_list_ c) + length (kcp_list_ c) + length (tty_list_ c).

Definition init_service (e : environment) : outcome started :=
  match read_server_config_file CServerConfig_new (file e) with
  | Value (false, _) => Ok Refused
  | Type_error _ => Ok Threw
  | Undefined => Fault
  | Value (true, c) =>
      match init CIoContextPool_new (processors e) with
      | None => Ok Threw
      | Some p =>
          let* '(_, p) := get_many p (S (contexts_needed e c)) in
          let l := load_all (library e) CLoadPacketParse_new (parser_list c) in
          let* s := start_work e c in
          let* m := start_default_service CNetSvrManager_new (listen_config e c) in
          let* s := open_links s in
          Ok (Running (mkServer c (IoContextPool.run p) l (mkProcess ∅ s world_new m)))
      end
  end.

(** [close_service] up to the queues, which may wait for their threads, and from there on. *)
Definition close_service_begin (v : server) : option (outcome server) :=
  let p := proc v in
  let p := p <| net := close_all_service (net p) |> <| work := with_core (work p) (Timer.Close (core_timer (work p))) |> in
  match on_queues qbytes qlogic p QCloseAll with
  | Some r => Some (let* p := r in Ok (v <| proc := p |>))
  | None => None
  end.
Definition close_service_end (v : server) : outcome server :=
  let p := service_close (proc v) in
  let* s := wt_close (work p) in
  Ok (v <| proc := p <| work := s |> |> <| parsers := PacketLoader.Close (parsers v) |>).

(** [stop_service], after [close_service] has returned. *)
Definition stop_service_end (v : server) : outcome server :=
  let* v := close_service_end v in Ok (v <| pool := stop (pool v) |>).

(** ** Starting *)

Record startable (e : environment) (c : CServerConfig) : Prop := {
  st_file : read_server_config_file CServerConfig_new (file e) = Value (true, c);
  st_processors : (2 <= processors e)%nat;
  st_processors_max : Z.of_nat (processors e) < 2 ^ 64;
  st_threads : 0 < work_thread_count_ (config_work_thread_ c) < 65536;
  st_tcp : Forall (λ n, can_bind e n = true) (tcp_list_ c);
  st_kcp : Forall (λ n, can_bind e n = true) (kcp_list_ c);
}.

Lemma start_list_ok {A} (start : CNetSvrManager → A → bool → outcome CNetSvrManager) (ok : A → bool) l :
  (∀ m a, a ∈ l → ∃ m', start m a (ok a) = Ok m') → ∀ m, ∃ m', start_list start m (map (λ a, (a, ok a)) l) = Ok m'.
Proof.
  induction l as [|a l IH]; intros H m; cbn [map start_list]; [by exists m|].
  destruct (H m a) as [m1 ->]; [by left|]. cbn [obind]. apply IH. intros. apply H. by right.
Qed.

Lemma default_service_ok e c m : startable e c → ∃ m', start_default_service m (listen_config e c) = Ok m'.
Proof.
  intros [_ _ _ _ Ht Hk]. unfold start_default_service, listen_config. cbn [ssl_support config_tcp_list_ config_udp_list_ config_kcp_list_ config_tty_list_].
  rewrite Forall_forall in Ht, Hk.
  destruct (start_list_ok (λ s netio bound, if is_tls netio then if with_ssl e then start_ssl s netio bound else Ok s
    else start_tcp s netio bound) (can_bind e) (tcp_list_ c)) with m as [m1 ->].
  { intros m0 a Ha. rewrite (Ht a Ha). destruct (is_tls a), (with_ssl e); by eexists. }
  cbn [obind]. destruct (start_list_ok start_udp (can_bind e) (udp_list_ c)) with m1 as [m2 ->]; [by eexists|].
  cbn [obind]. destruct (start_list_ok start_kcp (can_bind e) (kcp_list_ c)) with m2 as [m3 ->].
  { intros m0 a Ha. rewrite (Hk a Ha). by eexists. }
  cbn [obind]. apply (start_list_ok (λ s tty opened, Ok (start_tty s tty opened)) (can_open e)). by eexists.
Qed.


(** ** Stopping *)


End ServerService.

(** ** Witnesses *)

#[local] Existing Instance sorted_queue.

Definition demo_environment : environment (W:=unit) :=
  mkEnvironment (Some demo_config_json) 4 demo_library demo_dlopen (λ _, true) (λ _, false) false [] (λ i, i + 100) 0 tt.


