(* ===== verification/Template.v ===== *)
(** * Filling in templates (src/PSS_PLUGIN_LOGIC_MAKER/read_logic_json_info.cpp)

    [replace_all_distinct] replaces every occurrence of a string by another one, searching on from the end of each
    replacement.  The generator of plugins calls it once for each placeholder, a name in square brackets, of a
    template file.  Here the loop is shown to be the one-pass replacement [subst], and the calls one after the
    other to be the simultaneous filling of all placeholders, as long as nothing that is filled in holds a bracket
    and the template is one where no bracket of its own can become a placeholder. *)

From Stdlib Require Import Lia.
From Stdlib Require Import Ascii.
From Stdlib Require String.
From S2P Require Import Prelude.
From stdpp Require Import base numbers list strings.
Local Open Scope string_scope.
#[local] Arguments String.append : simpl nomatch.

Implicit Types (s old new name value : string) (c : Ascii.ascii).

(** ** std::string *)

(** [find] gives the first position from [pos] on. *)
Definition find s old (pos : nat) : option nat := String.index pos old s.

(** [replace] of [n] characters from [pos]. *)
Definition replace s (pos n : nat) new : string :=
  String.substring 0 pos s +:+ new +:+ String.substring (pos + n) (String.length s - (pos + n)) s.

(** ** The loop *)

Fixpoint replace_loop (fuel : nat) s old new (pos : nat) : string :=
  match fuel with
  | O => s
  | S fuel =>
      match find s old pos with
      | None => s
      | Some pos =>
          let s := replace s pos (String.length old) new in
          replace_loop fuel s old new (if Nat.ltb 0 (String.length new) then pos + String.length new else pos)%nat
      end
  end.

(** What is left to search becomes shorter with each round. *)
Definition replace_all_distinct s old new : string := replace_loop (S (String.length s)) s old new 0.

(** ** One pass *)

(** [skip] characters of an occurrence are left to pass over. *)
Fixpoint subst old new (skip : nat) s : string :=
  match s with
  | EmptyString => EmptyString
  | String c s' =>
      match skip with
      | S k => subst old new k s'
      | O => if String.prefix old s then new +:+ subst old new (pred (String.length old)) s' else String c (subst old new 0 s')
      end
  end.

(** ** Strings *)

Lemma str_app_assoc s1 s2 s3 : s1 +:+ s2 +:+ s3 = (s1 +:+ s2) +:+ s3.
Proof. induction s1 as [|c s1 IH]; [done|]. cbn. by f_equal. Qed.

Lemma str_app_nil_r s : s +:+ EmptyString = s.
Proof. induction s as [|c s IH]; [done|]. cbn. by f_equal. Qed.

Lemma str_length_app s1 s2 : String.length (s1 +:+ s2) = (String.length s1 + String.length s2)%nat.
Proof. induction s1 as [|c s1 IH]; [done|]. cbn. by f_equal. Qed.

Lemma substring_app_l s1 s2 : String.substring 0 (String.length s1) (s1 +:+ s2) = s1.
Proof. induction s1 as [|c s1 IH]; cbn; [by destruct s2|]. by rewrite IH. Qed.

Lemma substring_whole s : String.substring 0 (String.length s) s = s.
Proof. induction s as [|c s IH]; cbn; [done|by rewrite IH]. Qed.

Lemma substring_app_r s1 s2 n : String.substring (String.length s1) n (s1 +:+ s2) = String.substring 0 n s2.
Proof. induction s1 as [|c s1 IH]; cbn; [done|]. by rewrite IH. Qed.

Lemma replace_app s1 s2 old new : replace (s1 +:+ old +:+ s2) (String.length s1) (String.length old) new = s1 +:+ new +:+ s2.
Proof.
  unfold replace. rewrite substring_app_l, <- str_length_app, (str_app_assoc s1 old s2), substring_app_r. do 2 f_equal.
  rewrite (str_length_app (s1 +:+ old)), Nat.add_comm, Nat.add_sub. apply substring_whole.
Qed.

Lemma prefix_cons a b s t : String.prefix (String a s) (String b t) = Ascii.eqb a b && String.prefix s t.
Proof. cbn [String.prefix]. destruct (Ascii.ascii_dec a b) as [->|H]; [by rewrite Ascii.eqb_refl|]. by apply Ascii.eqb_neq in H as ->. Qed.

Lemma prefix_app old s : String.prefix old s = true → ∃ s', s = old +:+ s'.
Proof.
  revert s. induction old as [|c old IH]; intros s; [by exists s|]. destruct s as [|c' s]; [done|].
  rewrite prefix_cons. intros [->%Ascii.eqb_eq H]%andb_true_iff. destruct (IH _ H) as [s' ->]. by exists s'.
Qed.

Lemma app_prefix old s : String.prefix old (old +:+ s) = true.
Proof. induction old as [|c old IH]; cbn [String.append]; [by destruct s|]. by rewrite prefix_cons, Ascii.eqb_refl. Qed.

Lemma find_app s1 s2 old : find (s1 +:+ s2) old (String.length s1) = (λ p, String.length s1 + p)%nat <$> find s2 old 0.
Proof.
  unfold find. induction s1 as [|c s1 IH]; cbn; [by destruct (String.index 0 old s2)|]. rewrite IH. by destruct (String.index 0 old s2).
Qed.

(** The first occurrence: nothing before it changes. *)
Lemma subst_skip old new s1 s2 : subst old new (String.length s1) (s1 +:+ s2) = subst old new 0 s2.
Proof. by induction s1 as [|c s1 IH]. Qed.

Lemma subst_match old new s : old ≠ EmptyString → subst old new 0 (old +:+ s) = new +:+ subst old new 0 s.
Proof.
  destruct old as [|c old]; [done|]. intros _. cbn [String.append subst]. rewrite prefix_cons, Ascii.eqb_refl, app_prefix. cbn [andb]. f_equal. apply (subst_skip _ _ old).
Qed.

Lemma find_subst old new s : old ≠ EmptyString →
  match find s old 0 with
  | None => subst old new 0 s = s
  | Some p => ∃ s1 s2, s = s1 +:+ old +:+ s2 ∧ p = String.length s1 ∧ subst old new 0 s = s1 +:+ new +:+ subst old new 0 s2
  end.
Proof.
  intros Hold. unfold find. induction s as [|c s IH].
  - by destruct old.
  - cbn [String.index]. destruct (String.prefix old (String c s)) eqn:E.
    + destruct (prefix_app _ _ E) as [s2 Es]. rewrite Es. exists EmptyString, s2. split_and!; [done..|]. by rewrite subst_match.
    + destruct (String.index 0 old s) as [p|].
      * destruct IH as (s1 & s2 & -> & -> & Es). exists (String c s1), s2. split_and!; [done..|]. cbn [subst]. by rewrite E, Es.
      * cbn [subst]. by rewrite E, IH.
Qed.

Lemma replace_loop_subst fuel : ∀ old new s1 s2, old ≠ EmptyString → (String.length s2 < fuel)%nat →
  replace_loop fuel (s1 +:+ s2) old new (String.length s1) = s1 +:+ subst old new 0 s2.
Proof.
  induction fuel as [|fuel IH]; intros old new s1 s2 Hold Hlen; [lia|]. cbn [replace_loop]. rewrite find_app.
  pose proof (find_subst old new s2 Hold) as H. destruct (find s2 old 0) as [p|]; cbn [fmap option_fmap option_map].
  - destruct H as (a & b & -> & -> & ->). rewrite str_app_assoc, <- str_length_app, replace_app.
    replace (if Nat.ltb 0 (String.length new) then _ else _) with (String.length ((s1 +:+ a) +:+ new)).
    + rewrite str_app_assoc, IH; [by rewrite !str_app_assoc|done|]. rewrite !str_length_app in Hlen. destruct old; [done|]. cbn in Hlen. lia.
    + rewrite !str_length_app. destruct (Nat.ltb_spec 0 (String.length new)); lia.
  - by rewrite H.
Qed.

(** The loop is the replacement in one pass. *)
Lemma replace_all_subst s old new : old ≠ EmptyString → replace_all_distinct s old new = subst old new 0 s.
Proof. intros H. apply (replace_loop_subst (S (String.length s)) old new EmptyString s H). lia. Qed.

(** ** Templates *)

(** A template is text with placeholders in it. *)
Inductive piece := Char c | Slot name.

Definition slot name : string := String "["%char (name +:+ "]").

(** The characters of the names of placeholders: small letters and the space. *)
Definition in_name c : bool :=
  let n := Ascii.nat_of_ascii c in (Nat.leb 97 n && Nat.leb n 122) || Nat.eqb n 32.
Definition bracket c : bool := Ascii.eqb c "["%char || Ascii.eqb c "]"%char.

Fixpoint str_forall (p : Ascii.ascii → bool) s : bool :=
  match s with EmptyString => true | String c s => p c && str_forall p s end.
Definition plain s : bool := str_forall (λ c, negb (bracket c)) s.
Definition is_name name : bool := str_forall in_name name.

Fixpoint print (ps : list piece) : string :=
  match ps with
  | [] => EmptyString
  | Char c :: ps => String c (print ps)
  | Slot name :: ps => slot name +:+ print ps
  end.

(** The text of a template, with the placeholders of the given names. *)
Fixpoint parse (names : list string) (skip : nat) s : list piece :=
  match s with
  | EmptyString => []
  | String c s' =>
      match skip with
      | S k => parse names k s'
      | O =>
          match list_find (λ name, String.prefix (slot name) s = true) names with
          | Some (_, name) => Slot name :: parse names (S (String.length name)) s'
          | None => Char c :: parse names 0 s'
          end
      end
  end.

(** No bracket of the text can become part of a placeholder: between an opening one and the next closing one
    there is a character of the text that is in no name.  [open] is whether such an opening bracket came before. *)
Fixpoint closed (open : bool) (ps : list piece) : bool :=
  match ps with
  | [] => true
  | Slot name :: ps => is_name name && closed open ps
  | Char c :: ps =>
      if Ascii.eqb c "["%char then closed true ps
      else if Ascii.eqb c "]"%char then negb open && closed false ps
      else closed (open && in_name c) ps
  end.

Definition chars s : list piece := map Char (String.list_ascii_of_string s).

(** One placeholder filled in, all of them filled in. *)
Fixpoint put name value (ps : list piece) : list piece :=
  match ps with
  | [] => []
  | Slot n :: ps => if String.eqb n name then chars value ++ put name value ps else Slot n :: put name value ps
  | Char c :: ps => Char c :: put name value ps
  end.

Fixpoint value_of (σ : list (string * string)) name : string :=
  match σ with [] => slot name | (n, v) :: σ => if String.eqb n name then v else value_of σ name end.

Fixpoint fill (σ : list (string * string)) (ps : list piece) : string :=
  match ps with
  | [] => EmptyString
  | Char c :: ps => String c (fill σ ps)
  | Slot name :: ps => value_of σ name +:+ fill σ ps
  end.

(** The calls of [replace_all_distinct], one after the other. *)
Definition expand (σ : list (string * string)) s : string :=
  fold_left (λ s '(name, value), replace_all_distinct s (slot name) value) σ s.

(** ** Filling one placeholder *)

Lemma print_app ps qs : print (ps ++ qs) = print ps +:+ print qs.
Proof. induction ps as [|[c|n] ps IH]; cbn; [done|by rewrite IH|]. by rewrite IH, !str_app_assoc. Qed.

Lemma print_chars s : print (chars s) = s.
Proof. induction s as [|c s IH]; [done|]. cbn. by f_equal. Qed.

Lemma in_name_not_bracket c : in_name c = true → Ascii.eqb c "["%char = false ∧ Ascii.eqb c "]"%char = false.
Proof.
  intros H. split; [destruct (Ascii.eqb_spec c "["%char) as [->|]|destruct (Ascii.eqb_spec c "]"%char) as [->|]]; done.
Qed.

(** An open bracket of the text does not begin a placeholder. *)
Lemma open_no_slot ps : ∀ name, closed true ps = true → is_name name = true → String.prefix (name +:+ "]") (print ps) = false.
Proof.
  induction ps as [|[c|n] ps IH]; intros name Hps Hn; [by destruct name| |]; cbn [closed print] in *.
  - destruct name as [|a name]; cbn [String.append]; rewrite prefix_cons; apply andb_false_iff.
    + destruct (Ascii.eqb_spec "]" c) as [<-|]; [done|by left].
    + destruct (Ascii.eqb_spec a c) as [->|]; [right|by left]. cbn in Hn. apply andb_true_iff in Hn as [Ha Hn].
      destruct (in_name_not_bracket _ Ha) as [E1 E2]. rewrite E1, E2, Ha in Hps. by apply IH.
  - destruct name as [|a name]; unfold slot; cbn [String.append]; rewrite prefix_cons; [done|]. cbn in Hn.
    apply andb_true_iff in Hn as [Ha _]. by destruct (in_name_not_bracket _ Ha) as [-> _].
Qed.

Lemma slot_prefix name n s : is_name name = true → is_name n = true → String.prefix (slot name) (slot n +:+ s) = true → name = n.
Proof.
  intros H1 H2. unfold slot. cbn [String.append]. rewrite prefix_cons. cbn [Ascii.eqb Bool.eqb andb]. rewrite <- str_app_assoc.
  revert n H2. induction name as [|a name IH]; intros [|b n] H2; cbn [String.append is_name str_forall] in *; [done| | |]; rewrite prefix_cons.
  - apply andb_true_iff in H2 as [Hb _]. intros [<-%Ascii.eqb_eq _]%andb_true_iff. done.
  - apply andb_true_iff in H1 as [Ha _]. intros [->%Ascii.eqb_eq _]%andb_true_iff. done.
  - apply andb_true_iff in H1 as [_ H1], H2 as [_ H2]. intros [->%Ascii.eqb_eq E]%andb_true_iff. f_equal. by apply IH.
Qed.

(** No occurrence begins in text without an opening bracket. *)
Lemma subst_plain old value s : str_forall (λ c, negb (Ascii.eqb c "["%char)) s = true → ∀ s', subst (String "["%char old) value 0 (s +:+ s') = s +:+ subst (String "["%char old) value 0 s'.
Proof.
  intros H s'. induction s as [|c s IH]; [done|]. cbn in H. apply andb_true_iff in H as [Hc H].
  cbn [String.append subst]. rewrite prefix_cons, Ascii.eqb_sym. destruct (Ascii.eqb c _); [done|]. by rewrite IH.
Qed.

Lemma name_no_open name : is_name name = true → str_forall (λ c, negb (Ascii.eqb c "["%char)) (name +:+ "]") = true.
Proof.
  induction name as [|c name IH]; [done|]. cbn. intros [Hc H]%andb_true_iff. rewrite IH by done.
  by destruct (in_name_not_bracket _ Hc) as [-> _].
Qed.

Lemma subst_print name value ps : ∀ open, closed open ps = true → is_name name = true →
  subst (slot name) value 0 (print ps) = print (put name value ps).
Proof.
  induction ps as [|[c|n] ps IH]; intros open Hps Hn; [done| |].
  - cbn [print put closed subst] in *.
    assert (String.prefix (slot name) (String c (print ps)) = false ∧ ∃ open', closed open' ps = true) as [-> [open' Ho]].
    { unfold slot. rewrite prefix_cons, Ascii.eqb_sym. destruct (Ascii.eqb_spec c "["%char) as [->|Hc].
      - split; [by apply open_no_slot|by exists true].
      - split; [done|]. destruct (Ascii.eqb c "]"%char); [apply andb_true_iff in Hps as [_ Hps]|]; eauto. }
    f_equal. by apply (IH open').
  - cbn [closed] in Hps. apply andb_true_iff in Hps as [Hn' Hps]. cbn [print put]. destruct (String.eqb_spec n name) as [->|Hne].
    + rewrite print_app, print_chars, subst_match by done. by rewrite (IH open).
    + cbn [print]. unfold slot at 2. cbn [String.append subst]. destruct (String.prefix (slot name) _) eqn:E.
      * apply (slot_prefix _ n) in E; [congruence|done|done].
      * f_equal. rewrite (subst_plain (name +:+ "]")) by (by apply name_no_open). fold (slot name). by rewrite (IH open).
Qed.

(** ** Filling all of them *)

Lemma closed_false ps : closed true ps = true → closed false ps = true.
Proof.
  induction ps as [|[c|n] ps IH]; [done| |]; cbn [closed].
  - destruct (Ascii.eqb c _); [done|]. destruct (Ascii.eqb c _); [done|]. by destruct (in_name c).
  - rewrite !andb_true_iff. tauto.
Qed.

Lemma closed_open open ps : closed true ps = true → closed open ps = true.
Proof. destruct open; [done|]. apply closed_false. Qed.

Lemma closed_chars value : ∀ open ps, plain value = true → closed open ps = true → closed open (chars value ++ ps) = true.
Proof.
  induction value as [|c value IH]; intros open ps Hv Hps; [done|]. cbn in Hv |- *. apply andb_true_iff in Hv as [Hc Hv].
  apply negb_true_iff, orb_false_iff in Hc as [-> ->]. apply IH; [done|]. destruct open; [|done].
  destruct (in_name c); [done|by apply closed_false].
Qed.

Lemma closed_put name value ps : plain value = true → ∀ open, closed open ps = true → closed open (put name value ps) = true.
Proof.
  intros Hv. induction ps as [|[c|n] ps IH]; intros open; [done| |]; cbn [closed put].
  - destruct (Ascii.eqb c _); [apply IH|]. destruct (Ascii.eqb c _); [|apply IH]. rewrite !andb_true_iff. intros [? ?]. split; auto.
  - intros [Hn Hps]%andb_true_iff. destruct (String.eqb n name); [apply closed_chars; auto|]. cbn [closed]. rewrite Hn. cbn [andb]. auto.
Qed.

Lemma fill_app σ ps qs : fill σ (ps ++ qs) = fill σ ps +:+ fill σ qs.
Proof. induction ps as [|[c|n] ps IH]; cbn; [done|by rewrite IH|]. by rewrite IH, str_app_assoc. Qed.

Lemma fill_chars σ s : fill σ (chars s) = s.
Proof. induction s as [|c s IH]; [done|]. cbn. by f_equal. Qed.

Lemma fill_put name value σ ps : fill ((name, value) :: σ) ps = fill σ (put name value ps).
Proof.
  induction ps as [|[c|n] ps IH]; [done|cbn; by f_equal|]. cbn [fill put value_of]. rewrite (String.eqb_sym name n).
  destruct (String.eqb n name); [by rewrite fill_app, fill_chars, IH|]. cbn [fill]. by rewrite IH.
Qed.

Lemma fill_nil ps : fill [] ps = print ps.
Proof. induction ps as [|[c|n] ps IH]; cbn [fill print value_of]; by rewrite ?IH. Qed.

Definition fills (σ : list (string * string)) : bool := forallb (λ '(name, value), is_name name && plain value) σ.

Lemma expand_fill σ : ∀ ps, fills σ = true → closed false ps = true → expand σ (print ps) = fill σ ps.
Proof.
  induction σ as [|[name value] σ IH]; intros ps Hσ Hps; [by rewrite fill_nil|]. cbn in Hσ.
  apply andb_true_iff in Hσ as [[Hn Hv]%andb_true_iff Hσ]. rewrite fill_put. cbn [expand fold_left].
  rewrite replace_all_subst by done. rewrite (subst_print _ _ _ false) by done. apply IH; [done|]. by apply closed_put.
Qed.

Lemma print_parse names s : print (parse names 0 s) = s.
Proof.
  assert (H : ∀ s1 s2, print (parse names (String.length s1) (s1 +:+ s2)) = print (parse names 0 s2)) by (intros s1 s2; by induction s1).
  induction s as [s IH] using (induction_ltof1 _ String.length). unfold ltof in IH. destruct s as [|c s]; [done|]. cbn [parse].
  destruct (list_find _ names) as [[i name]|] eqn:E.
  - apply list_find_Some in E as (_ & Hp & _). destruct (prefix_app _ _ Hp) as [s' Es]. cbn in Es. injection Es as -> ->.
    cbn [print]. replace (S (String.length name)) with (String.length (name +:+ "]")) by (rewrite str_length_app; cbn; lia).
    rewrite H, IH; [done|]. cbn. rewrite str_length_app. lia.
  - cbn [print]. f_equal. apply IH. cbn. lia.
Qed.

(** The calls one after the other fill in a text as if at once. *)
Lemma expand_text σ s : fills σ = true → closed false (parse (map fst σ) 0 s) = true → expand σ s = fill σ (parse (map fst σ) 0 s).
Proof. intros Hσ Hs. rewrite <- (print_parse (map fst σ) s) at 1. by apply expand_fill. Qed.
