(* ===== verification/LogicMaker.v ===== *)
(** * The generator of plugins (src/PSS_PLUGIN_LOGIC_MAKER)

    A separate tool: it reads a description of the messages and commands of a plugin from a JSON file and writes the
    sources of the plugin, three of them and the build file from templates.  The files are a map from names to
    contents; different names are different files.  The environment decides whether a file can be created, what
    [mkdir] returns, and what comes in memory after the buffer of [read_template_file], which has no place for the
    terminating zero. *)

From Stdlib Require Import ZArith Lia Ascii.
From Stdlib Require String.
From S2P Require Import Prelude Define ServerConfig Template.
From stdpp Require Import base numbers list gmap strings pretty.
Local Open Scope Z_scope.
#[local] Arguments String.append : simpl nomatch.

(** ** The description (logic_maker_type.h) *)

Record CPlugin_Project_Info := mkProject { plugin_project_name : string; plugin_path : string }.

Record CLogicClass_Param_Info := mkParam {
  param_name_ : string;
  param_value_ : string;                   (* the type *)
  param_size_ : Z;                         (* int *)
}.

Record CLogicClass := mkClass { message_type_ : string; class_name_ : string; param_list_ : list CLogicClass_Param_Info }.

Record CCommandInfo := mkCommand {
  command_macro_ : string;
  command_id_ : string;
  command_function_ : string;
  message_in_ : string;
  message_out_ : string;
}.

Record Cread_logic_json_info := mkMaker {
  command_list_ : list CCommandInfo;
  class_list_ : list CLogicClass;
  plugin_project_info_ : CPlugin_Project_Info;
  asyn_message_list_ : list string;
}.
Definition Cread_logic_json_info_new : Cread_logic_json_info := mkMaker [] [] (mkProject EmptyString EmptyString) [].

Implicit Types (d : Cread_logic_json_info).

(** ** Reading it *)

(** [operator[]] of a constant value: a key that is not there is undefined behaviour. *)
Definition at_const (j : json) (key : string) : result json :=
  match j with
  | JObject l => if existsb (λ '(k, _), String.eqb k key) l then Value (ServerConfig.assoc key l) else Undefined
  | _ => Type_error 305
  end.
Definition string_at_const (j : json) (key : string) : result string := let! v := at_const j key in get_string v.

Definition read_param (j : json) : result CLogicClass_Param_Info :=
  let! name := string_at j "name" in
  let! type := string_at j "type" in
  let! size := at_key j "buffer_length" in
  match size with
  | JNull => Value (mkParam name type 0)
  | _ => let! size := get_number i32 size in Value (mkParam name type size)
  end.

Definition read_class (j : json) : result CLogicClass :=
  let! type := string_at_const j "message type" in
  let! name := string_at_const j "class name" in
  let! params := at_const j "class type" in
  let! params := collect read_param (ServerConfig.elements params) in
  Value (mkClass type name params).

Definition read_command (j : json) : result CCommandInfo :=
  let! macro := string_at_const j "command macro" in
  let! id := string_at_const j "command id" in
  let! function := string_at_const j "command function" in
  let! message_in := string_at_const j "message in" in
  let! message_out := string_at_const j "message out" in
  Value (mkCommand macro id function message_in message_out).

Definition read_asyn (j : json) : result string := string_at_const j "message out".

Definition read_json_file d (file : option json) : result (bool * Cread_logic_json_info) :=
  match file with
  | None => Value (false, d)
  | Some j =>
      let! name := string_at j "plugin project name" in
      let! path := string_at j "plugin project path" in
      let! classes := read_list read_class j "plugin class" in
      let! commands := read_list read_command j "message map" in
      let! asyn := read_list read_asyn j "asynchronous send interface" in
      Value (true, mkMaker (command_list_ d ++ commands) (class_list_ d ++ classes) (mkProject name path) (asyn_message_list_ d ++ asyn))
  end.

(** ** The files *)

Notation files := (gmap string string).
Implicit Types (fs : files).

Record env := mkEnv {
  mkdir_errno : option Z;                  (* none when the directory is made *)
  can_create : string → bool;
  beyond : string → string;                (* what is read past the buffer of a template, up to a zero *)
}.

Definition EEXIST : Z := 17.
Definition make_project_path (e : env) : bool :=
  match mkdir_errno e with None => true | Some err => err =? EEXIST end.

(** [fopen] for writing empties the file. *)
Definition create_logic_file (e : env) fs (file : string) : option files :=
  if can_create e file then Some (<[file := EmptyString]> fs) else None.

(** The contents as a string, up to a zero. *)
Fixpoint until_zero (s : string) : string :=
  match s with
  | EmptyString => EmptyString
  | String c s => if Ascii.eqb c "000"%char then EmptyString else String c (until_zero s)
  end.
Definition has_zero (s : string) : bool := negb (str_forall (λ c, negb (Ascii.eqb c "000"%char)) s).

Definition read_template_file (e : env) fs (file : string) : bool * string :=
  match fs !! file with
  | None => (false, EmptyString)
  | Some s => (true, if has_zero s then until_zero s else s +:+ beyond e file)
  end.

Definition template_h_file : string := "./template/template_Command.h".
Definition template_cpp_file : string := "./template/template_Command.cpp".
Definition template_logic_file : string := "./template/template_logic.cpp".
Definition temlpate_cmake_file : string := "./template/CMakeLists.txt".

(** ** The texts *)

Definition nl : string := String "010"%char EmptyString.
Definition tab : string := String "009"%char EmptyString.
Definition dq : string := String "034"%char EmptyString.

Definition cat (l : list string) : string := foldr String.append EmptyString l.
Definition cat_map {A} (f : A → string) (l : list A) : string := cat (map f l).

Definition project d : string := plugin_project_name (plugin_project_info_ d).
Definition project_path d : string := plugin_path (plugin_project_info_ d) +:+ project d.
Definition has (s : string) : bool := negb (String.eqb s EmptyString).

(** The classes of the messages. *)
Definition read_line (p : CLogicClass_Param_Info) : string :=
  if param_size_ p =? 0 then cat [tab; tab; "read_buffer_ >> "; param_name_ p; ";"; nl]
  else cat [tab; tab; "read_buffer_ .read_data_to_string("; param_name_ p; ", "; pretty (param_size_ p); ");"; nl].

Definition write_line (p : CLogicClass_Param_Info) : string :=
  if param_size_ p =? 0 then cat [tab; tab; "write_buffer_ << "; param_name_ p; ";"; nl]
  else cat [tab; tab; "twrite_buffer_ .write_data_from_string("; param_name_ p; ");"; nl].

Definition member_line (p : CLogicClass_Param_Info) : string := cat [tab; param_value_ p; " "; param_name_ p; ";"; nl].

Definition class_text (c : CLogicClass) : string :=
  if negb (String.eqb (message_type_ c) "Message Input") && negb (String.eqb (message_type_ c) "Message Output") then EmptyString
  else cat [
    "class "; class_name_ c; nl; "{"; nl;
    if String.eqb (message_type_ c) "Message Input" then
      cat ["public:"; nl; tab; "void read_message(const std::string* buffer)"; nl; tab; "{"; nl;
           tab; tab; "CReadBuffer read_buffer_;"; nl; tab; tab; "read_buffer_.append(buffer);"; nl;
           cat_map read_line (param_list_ c); tab; "}"; nl]
    else
      cat ["public:"; nl; tab; "void write_message(std::string* buffer)"; nl; tab; "{"; nl;
           tab; tab; "CWriteBuffer write_buffer_;"; nl; tab; tab; "write_buffer_.append(buffer);"; nl;
           cat_map write_line (param_list_ c); tab; "}"; nl];
    "public:"; nl; cat_map member_line (param_list_ c); "};"; nl; nl].

Definition make_logic_class_file (e : env) d fs : bool * files :=
  let file := cat [project_path d; "/"; project d; "_type.hpp"] in
  match create_logic_file e fs file with
  | None => (false, fs)
  | Some fs =>
      (true, <[file := cat ["#pragma once"; nl; nl; "#include <string>"; nl; "#include "; dq; "ReadBuffer.hpp"; dq; nl;
                            "#include "; dq; "WriteBuffer.hpp"; dq; nl; "#include "; dq; "define.h"; dq; nl; nl;
                            cat_map class_text (class_list_ d)]]> fs)
  end.

(** Lines that are indented from the second on. *)
Definition indented (line : CCommandInfo → string) (l : list CCommandInfo) : string :=
  fold_left (λ acc c, if String.eqb acc EmptyString then acc +:+ line c else acc +:+ tab +:+ line c) l EmptyString.

Definition parameters : string :=
  "(const CMessage_Source& source, std::shared_ptr<CMessage_Packet> recv_packet, std::shared_ptr<CMessage_Packet> send_packet)".

Definition command_id_line (c : CCommandInfo) : string :=
  if has (command_id_ c) then cat ["const uint16 "; command_macro_ c; " = "; command_id_ c; ";"; nl] else EmptyString.
Definition command_declaration (c : CCommandInfo) : string := cat ["void "; command_function_ c; parameters; ";"; nl].

Definition make_command_h_file (e : env) d fs : bool * files :=
  let file := cat [project_path d; "/"; project d; "_command.h"] in
  match create_logic_file e fs file with
  | None => (false, fs)
  | Some fs =>
      let content := (read_template_file e fs template_h_file).2 in
      let content := replace_all_distinct content "[include file]" (cat ["#include "; dq; project d; "_do_message.h"; dq]) in
      let content := replace_all_distinct content "[command id define]" (cat_map command_id_line (command_list_ d)) in
      let content := replace_all_distinct content "[command class name]" (project d +:+ "_command") in
      let content := replace_all_distinct content "[command logic function define]" (indented command_declaration (command_list_ d)) in
      let content := replace_all_distinct content "[do message logic]" (cat ["C"; project d; "_do_message do_logic;"]) in
      (true, <[file := content]> fs)
  end.

Definition command_body (c : CCommandInfo) : string :=
  if has (message_in_ c) && has (message_out_ c) then
    cat [tab; message_in_ c; " recv;"; nl; tab; message_out_ c; " send;"; nl; tab; "recv.read_message(&recv_packet->buffer_);"; nl;
         tab; "do_logic.do_message_"; command_macro_ c; "(source.connect_id_, recv_packet->command_id_, recv, send);"; nl;
         tab; "send.write_message(&send_packet->buffer_);"; nl]
  else if has (message_in_ c) && negb (has (message_out_ c)) then
    cat [tab; message_in_ c; " recv;"; nl; tab; "recv.read_message(&recv_packet->buffer_);"; nl;
         tab; "do_logic.do_message_"; command_macro_ c; "(source.connect_id_, recv_packet->command_id_, recv);"; nl]
  else EmptyString.

Definition command_definition d (c : CCommandInfo) : string :=
  cat ["void C"; project d; "_command"; "::"; command_function_ c; parameters; nl; "{"; nl; tab; "//do message logic"; nl;
       command_body c; "}"; nl; nl].

Definition make_command_cpp_file (e : env) d fs : bool * files :=
  let file := cat [project_path d; "/"; project d; "_command.cpp"] in
  match create_logic_file e fs file with
  | None => (false, fs)
  | Some fs =>
      let content := (read_template_file e fs template_cpp_file).2 in
      let content := replace_all_distinct content "[class name]" (cat ["C"; project d; "_command"]) in
      let content := replace_all_distinct content "[command logic function achieve]" (cat_map (command_definition d) (command_list_ d)) in
      let content := replace_all_distinct content "[command head file]" (project d +:+ "_command.h") in
      let content := replace_all_distinct content "[do message logic init]" "do_logic.set_frame_object(session_service);" in
      (true, <[file := content]> fs)
  end.

Definition register_line (c : CCommandInfo) : string := cat ["frame_object->Regedit_command("; command_macro_ c; ");"; nl].
Definition dispatch_line (c : CCommandInfo) : string :=
  cat ["MESSAGE_FUNCTION("; command_macro_ c; ", base_command->"; command_function_ c; ", source, recv_packet, send_packet);"; nl].

Definition make_logic_plugin_cpp (e : env) d fs : bool * files :=
  let file := cat [project_path d; "/"; project d; "_logic.cpp"] in
  match create_logic_file e fs file with
  | None => (false, fs)
  | Some fs =>
      let content := (read_template_file e fs template_logic_file).2 in
      let content := replace_all_distinct content "[include command file head file]" (project d +:+ "_command.h") in
      let content := replace_all_distinct content "[command class name]" (cat ["C"; project d; "_command"]) in
      let content := replace_all_distinct content "[register command id]" (indented register_line (command_list_ d)) in
      let content := replace_all_distinct content "[message map logic function]" (indented dispatch_line (command_list_ d)) in
      (true, <[file := content]> fs)
  end.

Definition do_message_declaration (c : CCommandInfo) : string :=
  if has (message_in_ c) && has (message_out_ c) then
    cat [tab; "void do_message_"; command_macro_ c; "(uint32 connect_id, uint32 command_id, "; message_in_ c; "& recv, "; message_out_ c; "& send);"; nl]
  else if has (message_in_ c) && negb (has (message_out_ c)) then
    cat [tab; "void do_message_"; command_macro_ c; "(uint32 connect_id, uint32 command_id, "; message_in_ c; "& recv);"; nl]
  else EmptyString.

Definition send_message_declaration (m : string) : string := cat [tab; "void send_message_"; m; "(uint32 connect_id, "; m; "& send);"; nl].

Definition make_do_message_h_file (e : env) d fs : bool * files :=
  let file := cat [project_path d; "/"; project d; "_do_message.h"] in
  match create_logic_file e fs file with
  | None => (false, fs)
  | Some fs =>
      (true, <[file := cat ["#pragma once"; nl; nl; "#include "; dq; project d; "_type.hpp"; dq; nl; "#include "; dq; "IFrameObject.h"; dq; nl; nl;
                            "class C"; project d; "_do_message"; nl; "{"; nl; "public:"; nl;
                            tab; "void set_frame_object(ISessionService* session_service);"; nl;
                            cat_map do_message_declaration (command_list_ d); cat_map send_message_declaration (asyn_message_list_ d);
                            "private:"; nl; tab; "ISessionService* session_service_ = nullptr;"; nl; "};"; nl]]> fs)
  end.

Definition do_message_definition d (c : CCommandInfo) : string :=
  if has (message_in_ c) && has (message_out_ c) then
    cat ["void C"; project d; "_do_message"; "::do_message_"; command_macro_ c; "(uint32 connect_id, uint32 command_id, "; message_in_ c; "& recv, ";
         message_out_ c; "& send)"; nl; "{"; nl; tab; "//add your logic code"; nl; "}"; nl]
  else if has (message_in_ c) && negb (has (message_out_ c)) then
    cat ["void C"; project d; "_do_message"; "::do_message_"; command_macro_ c; "(uint32 connect_id, uint32 command_id, "; message_in_ c; "& recv)"; nl;
         "{"; nl; tab; "//add your logic code"; nl; "}"; nl; nl]
  else EmptyString.

Definition send_message_definition d (m : string) : string :=
  cat ["void C"; project d; "_do_message"; "::send_message_"; m; "(uint32 connect_id, "; m; "& send)"; nl; "{"; nl;
       tab; "auto send_asyn_packet = std::make_shared<CMessage_Packet>();"; nl; tab; "send.write_message(&send_asyn_packet->buffer_);"; nl;
       tab; "session_service_->send_io_message(connect_id, send_asyn_packet);"; nl; "}"; nl; nl].

Definition make_do_message_cpp_file (e : env) d fs : bool * files :=
  let file := cat [project_path d; "/"; project d; "_do_message.cpp"] in
  match create_logic_file e fs file with
  | None => (false, fs)
  | Some fs =>
      (true, <[file := cat ["#include "; dq; project d; "_do_message.h"; dq; nl; nl;
                            cat_map (do_message_definition d) (command_list_ d); cat_map (send_message_definition d) (asyn_message_list_ d);
                            "void C"; project d; "_do_message"; "::set_frame_object(ISessionService* session_service)"; nl; "{"; nl;
                            tab; "session_service_ = session_service;"; nl; "}"; nl; nl]]> fs)
  end.

Definition make_Cmake_file (e : env) d fs : bool * files :=
  let file := project_path d +:+ "/CMakeLists.txt" in
  match create_logic_file e fs file with
  | None => (false, fs)
  | Some fs =>
      let content := (read_template_file e fs temlpate_cmake_file).2 in
      let content := replace_all_distinct content "[plugin name]" (project d) in
      (true, <[file := content]> fs)
  end.

(** The program goes on whatever the steps return. *)
Definition make_all (e : env) d fs : files :=
  let fs := (make_logic_class_file e d fs).2 in
  let fs := (make_command_h_file e d fs).2 in
  let fs := (make_command_cpp_file e d fs).2 in
  let fs := (make_logic_plugin_cpp e d fs).2 in
  let fs := (make_do_message_h_file e d fs).2 in
  let fs := (make_do_message_cpp_file e d fs).2 in
  (make_Cmake_file e d fs).2.

Definition main (e : env) (config : option json) fs : result files :=
  let! r := read_json_file Cread_logic_json_info_new config in
  match r with
  | (false, _) => Value fs
  | (true, d) => Value (make_all e d fs)
  end.

(** ** What the sources say *)

(** A function of the class that the user of the generator completes. *)
Record signature := mkSignature { sig_name : string; sig_params : list (string * string) (* type and name *) }.

Definition do_message_signature (c : CCommandInfo) : option signature :=
  if has (message_in_ c) then
    Some (mkSignature ("do_message_" +:+ command_macro_ c)
            ([("uint32", "connect_id"); ("uint32", "command_id"); (message_in_ c +:+ "&", "recv")] ++
             if has (message_out_ c) then [(message_out_ c +:+ "&", "send")] else []))%string
  else None.
Definition send_signature (m : string) : signature :=
  mkSignature ("send_message_" +:+ m) [("uint32", "connect_id"); (m +:+ "&", "send")]%string.
Definition interface d : list signature := omap do_message_signature (command_list_ d) ++ map send_signature (asyn_message_list_ d).

Fixpoint comma_list (l : list string) : string :=
  match l with [] => EmptyString | [s] => s | s :: l => s +:+ ", " +:+ comma_list l end.
Definition print_params (sg : signature) : string := comma_list (map (λ '(type, name), type +:+ " " +:+ name) (sig_params sg)).

(** Declared, defined with a body, and called with one argument for each parameter. *)
Definition declaration (sg : signature) : string := cat [tab; "void "; sig_name sg; "("; print_params sg; ");"; nl].
Definition definition d (sg : signature) (body : string) : string :=
  cat ["void C"; project d; "_do_message::"; sig_name sg; "("; print_params sg; ")"; nl; "{"; nl; body; "}"; nl].
Definition argument (name : string) : string :=
  if String.eqb name "connect_id" then "source.connect_id_" else if String.eqb name "command_id" then "recv_packet->command_id_" else name.
Definition call (sg : signature) : string :=
  cat [tab; "do_logic."; sig_name sg; "("; comma_list (map (λ '(_, name), argument name) (sig_params sg)); ");"; nl].

(** The body of the handler of a command: the parameters that are messages are its variables. *)
Definition handler_body (c : CCommandInfo) : string :=
  match do_message_signature c with
  | None => EmptyString
  | Some sg =>
      cat [tab; message_in_ c; " recv;"; nl; if has (message_out_ c) then cat [tab; message_out_ c; " send;"; nl] else EmptyString;
           tab; "recv.read_message(&recv_packet->buffer_);"; nl; call sg;
           if has (message_out_ c) then cat [tab; "send.write_message(&send_packet->buffer_);"; nl] else EmptyString]
  end.
Definition handler d (c : CCommandInfo) : string :=
  cat ["void C"; project d; "_command::"; command_function_ c; parameters; nl; "{"; nl; tab; "//do message logic"; nl; handler_body c; "}"; nl; nl].

Definition user_body : string := cat [tab; "//add your logic code"; nl].
Definition send_body : string :=
  cat [tab; "auto send_asyn_packet = std::make_shared<CMessage_Packet>();"; nl; tab; "send.write_message(&send_asyn_packet->buffer_);"; nl;
       tab; "session_service_->send_io_message(connect_id, send_asyn_packet);"; nl].

(** The definitions of the interface, in its order, each with what follows it. *)
Definition do_message_part (c : CCommandInfo) : option (signature * string * string) :=
  sg ← do_message_signature c; Some (sg, user_body, if has (message_out_ c) then EmptyString else nl).
Definition parts d : list (signature * string * string) :=
  omap do_message_part (command_list_ d) ++ map (λ m, (send_signature m, send_body, nl)) (asyn_message_list_ d).
Definition print_part d (p : signature * string * string) : string := let '(sg, body, after) := p in definition d sg body +:+ after.

(** One line after the other, indented by what the template has before the first. *)
Definition lines (line : CCommandInfo → string) (l : list CCommandInfo) : string :=
  match l with [] => EmptyString | c :: l => line c +:+ cat_map (λ c, tab +:+ line c) l end.

Definition h_values d : list (string * string) :=
  [("include file", cat ["#include "; dq; project d; "_do_message.h"; dq]);
   ("command id define", cat_map command_id_line (command_list_ d));
   ("command class name", project d +:+ "_command");
   ("command logic function define", lines command_declaration (command_list_ d));
   ("do message logic", cat ["C"; project d; "_do_message do_logic;"])]%string.
Definition cpp_values d : list (string * string) :=
  [("class name", cat ["C"; project d; "_command"]);
   ("command logic function achieve", cat_map (handler d) (command_list_ d));
   ("command head file", project d +:+ "_command.h");
   ("do message logic init", "do_logic.set_frame_object(session_service);")]%string.
Definition logic_values d : list (string * string) :=
  [("include command file head file", project d +:+ "_command.h");
   ("command class name", cat ["C"; project d; "_command"]);
   ("register command id", lines register_line (command_list_ d));
   ("message map logic function", lines dispatch_line (command_list_ d))]%string.
Definition cmake_values d : list (string * string) := [("plugin name"%string, project d)].

(** A template with its placeholders filled in at once. *)
Definition instance (σ : list (string * string)) (text : string) : string := fill σ (parse (map fst σ) 0 text).
Definition well_formed (σ : list (string * string)) (text : string) : bool :=
  closed false (parse (map fst σ) 0 text).

Record templates := mkTemplates { t_h : string; t_cpp : string; t_logic : string; t_cmake : string }.

Definition type_text d : string :=
  cat ["#pragma once"; nl; nl; "#include <string>"; nl; "#include "; dq; "ReadBuffer.hpp"; dq; nl;
       "#include "; dq; "WriteBuffer.hpp"; dq; nl; "#include "; dq; "define.h"; dq; nl; nl; cat_map class_text (class_list_ d)].
Definition do_message_h_text d : string :=
  cat ["#pragma once"; nl; nl; "#include "; dq; project d; "_type.hpp"; dq; nl; "#include "; dq; "IFrameObject.h"; dq; nl; nl;
       "class C"; project d; "_do_message"; nl; "{"; nl; "public:"; nl; tab; "void set_frame_object(ISessionService* session_service);"; nl;
       cat_map declaration (interface d); "private:"; nl; tab; "ISessionService* session_service_ = nullptr;"; nl; "};"; nl].
Definition do_message_cpp_text d : string :=
  cat ["#include "; dq; project d; "_do_message.h"; dq; nl; nl; cat_map (print_part d) (parts d);
       "void C"; project d; "_do_message::set_frame_object(ISessionService* session_service)"; nl; "{"; nl;
       tab; "session_service_ = session_service;"; nl; "}"; nl; nl].

(** The sources of the plugin. *)
Definition output d (name : string) : string := project_path d +:+ "/" +:+ name.
Definition plugin d (t : templates) : list (string * string) :=
  [(output d (project d +:+ "_type.hpp"), type_text d);
   (output d (project d +:+ "_command.h"), instance (h_values d) (t_h t));
   (output d (project d +:+ "_command.cpp"), instance (cpp_values d) (t_cpp t));
   (output d (project d +:+ "_logic.cpp"), instance (logic_values d) (t_logic t));
   (output d (project d +:+ "_do_message.h"), do_message_h_text d);
   (output d (project d +:+ "_do_message.cpp"), do_message_cpp_text d);
   (output d "CMakeLists.txt", instance (cmake_values d) (t_cmake t))].

Definition write_files (fs : files) (l : list (string * string)) : files := fold_left (λ fs '(f, s), <[f := s]> fs) l fs.

(** No name of the description holds a bracket. *)
Definition command_plain (c : CCommandInfo) : bool :=
  plain (command_macro_ c) && plain (command_id_ c) && plain (command_function_ c) && plain (message_in_ c) && plain (message_out_ c).
Definition description_plain d : bool := plain (project d) && forallb command_plain (command_list_ d).

(** [t] is what is read of the templates: the file up to a zero, or the file followed by what the memory behind the
    buffer holds up to a zero.  The templates are there, every bracket in what is read of them is that of a placeholder or closed,
    and they are not among the files written. *)
Record templates_at (e : env) fs d (t : templates) : Prop := {
  at_h : read_template_file e fs template_h_file = (true, t_h t);
  at_cpp : read_template_file e fs template_cpp_file = (true, t_cpp t);
  at_logic : read_template_file e fs template_logic_file = (true, t_logic t);
  at_cmake : read_template_file e fs temlpate_cmake_file = (true, t_cmake t);
  at_wf : well_formed (h_values d) (t_h t) && well_formed (cpp_values d) (t_cpp t) &&
          well_formed (logic_values d) (t_logic t) && well_formed (cmake_values d) (t_cmake t) = true;
  at_apart : ∀ name, output d name ∉ [template_h_file; template_cpp_file; template_logic_file; temlpate_cmake_file];
}.

(** ** The texts are those of the interface *)

Lemma cat_app l l' : cat (l ++ l') = cat l +:+ cat l'.
Proof. unfold cat. induction l as [|s l IH]; [done|]. cbn. rewrite IH. apply str_app_assoc. Qed.

Lemma cat_map_app {A} (f : A → string) l l' : cat_map f (l ++ l') = cat_map f l +:+ cat_map f l'.
Proof. unfold cat_map. by rewrite map_app, cat_app. Qed.

Lemma cat_map_ext {A} (f g : A → string) l : (∀ a, f a = g a) → cat_map f l = cat_map g l.
Proof. intros H. unfold cat_map. f_equal. by apply map_ext. Qed.

Lemma cat_map_omap {A B} (f : A → string) (g : A → option B) (h : B → string) l :
  (∀ a, f a = match g a with Some b => h b | None => EmptyString end) → cat_map f l = cat_map h (omap g l).
Proof. intros H. unfold cat_map, cat in *. induction l as [|a l IH]; [done|]. cbn. rewrite H, IH. by destruct (g a). Qed.

Lemma cat_map_map {A B} (g : A → B) (h : B → string) l : cat_map h (map g l) = cat_map (h ∘ g) l.
Proof. unfold cat_map. by rewrite map_map. Qed.

(** Texts that differ in how they are put together. *)
Ltac texts := unfold cat; cbn; repeat (progress (rewrite ?str_app_nil_r, <- ?str_app_assoc; cbn)); try done.

Lemma handler_spec d c : command_definition d c = handler d c.
Proof.
  unfold command_definition, handler. replace (command_body c) with (handler_body c); [by texts|].
  unfold handler_body, command_body, do_message_signature, call. destruct (has (message_in_ c)), (has (message_out_ c)); cbn [andb negb]; by texts.
Qed.

Lemma declarations_spec d : cat_map do_message_declaration (command_list_ d) +:+ cat_map send_message_declaration (asyn_message_list_ d) =
  cat_map declaration (interface d).
Proof.
  unfold interface. rewrite cat_map_app, cat_map_map. f_equal; [|apply cat_map_ext; intros m; unfold declaration, print_params; texts].
  apply cat_map_omap. intros c. unfold do_message_declaration, do_message_signature, declaration, print_params.
  destruct (has (message_in_ c)), (has (message_out_ c)); cbn [andb negb]; by texts.
Qed.

Lemma definitions_spec d :
  cat_map (do_message_definition d) (command_list_ d) +:+ cat_map (send_message_definition d) (asyn_message_list_ d) = cat_map (print_part d) (parts d).
Proof.
  unfold parts. rewrite cat_map_app, cat_map_map. f_equal; [|by apply cat_map_ext; intros m; unfold print_part, definition, print_params; cbn; texts].
  apply cat_map_omap. intros c. unfold do_message_definition, do_message_part, do_message_signature, definition, print_params.
  destruct (has (message_in_ c)), (has (message_out_ c)); cbn [andb negb]; try done; cbn; by texts.
Qed.

(** What is defined is what is declared. *)
Lemma parts_interface d : map (λ '(sg, _, _), sg) (parts d) = interface d.
Proof.
  unfold parts, interface. rewrite map_app, map_map. f_equal. induction (command_list_ d) as [|c l IH]; [done|].
  cbn. unfold do_message_part. destruct (do_message_signature c); cbn; [by f_equal|done].
Qed.

Lemma indented_lines line l : (∀ c, line c ≠ EmptyString) → indented line l = lines line l.
Proof.
  intros H. unfold indented. destruct l as [|c l]; [done|]. cbn. generalize (line c), (H c). clear c.
  induction l as [|c l IH]; intros s Hs; cbn; [by rewrite str_app_nil_r|]. destruct (String.eqb_spec s EmptyString); [done|].
  rewrite IH; [|by destruct s]. cbn. by rewrite <- !str_app_assoc.
Qed.

(** ** No bracket is filled in *)

Lemma plain_app s s' : plain (s +:+ s') = plain s && plain s'.
Proof. unfold plain. induction s as [|c s IH]; [done|]. cbn. by rewrite IH, andb_assoc. Qed.

Lemma plain_cat l : plain (cat l) = forallb plain l.
Proof. unfold cat. induction l as [|s l IH]; [done|]. cbn [foldr forallb]. by rewrite plain_app, IH. Qed.

Lemma plain_cat_map {A} (f : A → string) l : (∀ a, In a l → plain (f a) = true) → plain (cat_map f l) = true.
Proof.
  intros H. unfold cat_map. rewrite plain_cat. apply forallb_forall. intros s. rewrite in_map_iff. intros (a & <- & Ha). auto.
Qed.

Section Plain.
Context (d : Cread_logic_json_info) (Hd : description_plain d = true).

Lemma project_plain : plain (project d) = true.
Proof. by apply andb_true_iff in Hd as [? _]. Qed.

Lemma commands_plain c : In c (command_list_ d) → plain (command_macro_ c) = true ∧ plain (command_id_ c) = true ∧
  plain (command_function_ c) = true ∧ plain (message_in_ c) = true ∧ plain (message_out_ c) = true.
Proof.
  apply andb_true_iff in Hd as [_ H]. intros Hc. eapply forallb_forall in H; [|done]. unfold command_plain in H.
  rewrite !andb_true_iff in H. tauto.
Qed.

Ltac plain_parts := unfold cat; cbn [foldr]; rewrite ?plain_app, ?project_plain;
  repeat match goal with H : plain _ = true |- _ => rewrite !H; clear H end; done.

Lemma lines_plain line : (∀ c, In c (command_list_ d) → plain (line c) = true) → plain (lines line (command_list_ d)) = true.
Proof.
  intros H. unfold lines. destruct (command_list_ d) as [|c l]; [done|]. rewrite plain_app. apply andb_true_iff. split; [apply H; by left|].
  apply plain_cat_map. intros c' Hc'. rewrite plain_app, H; [done|by right].
Qed.

Ltac of_command := intros c (H1 & H2 & H3 & H4 & H5)%commands_plain;
  unfold command_id_line, command_declaration, register_line, dispatch_line, handler, handler_body, call, do_message_signature, parameters;
  repeat destruct (has _); cbn [sig_name sig_params map app comma_list argument String.eqb Ascii.eqb Bool.eqb]; plain_parts.
Ltac values := cbn [forallb]; rewrite !andb_true_iff; split_and!;
  first [done | plain_parts | apply plain_cat_map; of_command | apply lines_plain; of_command].

(** The four lists of values. *)
Lemma h_values_fill : fills (h_values d) = true.
Proof. unfold fills, h_values. values. Qed.
Lemma cpp_values_fill : fills (cpp_values d) = true.
Proof. unfold fills, cpp_values. values. Qed.
Lemma logic_values_fill : fills (logic_values d) = true.
Proof. unfold fills, logic_values. values. Qed.
Lemma cmake_values_fill : fills (cmake_values d) = true.
Proof. unfold fills, cmake_values. values. Qed.
End Plain.

(** ** The steps *)

Section Steps.
Context (e : env) (d : Cread_logic_json_info) (t : templates).
Context (Hplain : description_plain d = true) (Hcreate : ∀ f, can_create e f = true).

Lemma read_template_other fs file tfile s : file ≠ tfile → read_template_file e (<[file := s]> fs) tfile = read_template_file e fs tfile.
Proof. intros Hne. unfold read_template_file. by rewrite lookup_insert_ne. Qed.

(** A file made from a template. *)
Lemma from_template fs file tfile σ text : read_template_file e fs tfile = (true, text) → file ≠ tfile → well_formed σ text = true → fills σ = true →
  match create_logic_file e fs file with
  | None => (false, fs)
  | Some fs => (true, <[file := expand σ (read_template_file e fs tfile).2]> fs)
  end = (true, <[file := instance σ text]> fs).
Proof.
  intros Ht Hne Hc Hσ. unfold create_logic_file. rewrite Hcreate; cbv beta iota zeta; rewrite insert_insert_eq.
  rewrite read_template_other, Ht by done. cbn [snd]. by rewrite expand_text.
Qed.

Lemma make_type_file fs : make_logic_class_file e d fs = (true, <[output d (project d +:+ "_type.hpp") := type_text d]> fs).
Proof. unfold make_logic_class_file, create_logic_file. rewrite Hcreate; cbv beta iota zeta; rewrite insert_insert_eq. unfold output. by texts. Qed.

Lemma make_do_message_h fs : make_do_message_h_file e d fs = (true, <[output d (project d +:+ "_do_message.h") := do_message_h_text d]> fs).
Proof.
  unfold make_do_message_h_file, create_logic_file, do_message_h_text. rewrite Hcreate; cbv beta iota zeta; rewrite insert_insert_eq, <- declarations_spec. unfold output. by texts.
Qed.

Lemma make_do_message_cpp fs : make_do_message_cpp_file e d fs = (true, <[output d (project d +:+ "_do_message.cpp") := do_message_cpp_text d]> fs).
Proof.
  unfold make_do_message_cpp_file, create_logic_file, do_message_cpp_text. rewrite Hcreate; cbv beta iota zeta; rewrite insert_insert_eq, <- definitions_spec. unfold output. by texts.
Qed.

Lemma make_command_h fs : read_template_file e fs template_h_file = (true, t_h t) → (∀ name, output d name ≠ template_h_file) →
  well_formed (h_values d) (t_h t) = true →
  make_command_h_file e d fs = (true, <[output d (project d +:+ "_command.h") := instance (h_values d) (t_h t)]> fs).
Proof.
  intros Ht Hne Hw. rewrite <- (from_template fs _ template_h_file) by (done || by apply h_values_fill).
  unfold make_command_h_file, h_values. rewrite <- (indented_lines command_declaration) by done. cbn [expand fold_left slot String.append].
  replace (cat [project_path d; "/"; project d; "_command.h"]%string) with (output d (project d +:+ "_command.h")); [done|]. unfold output. by texts.
Qed.

Lemma make_command_cpp fs : read_template_file e fs template_cpp_file = (true, t_cpp t) → (∀ name, output d name ≠ template_cpp_file) →
  well_formed (cpp_values d) (t_cpp t) = true →
  make_command_cpp_file e d fs = (true, <[output d (project d +:+ "_command.cpp") := instance (cpp_values d) (t_cpp t)]> fs).
Proof.
  intros Ht Hne Hw. rewrite <- (from_template fs _ template_cpp_file) by (done || by apply cpp_values_fill).
  unfold make_command_cpp_file, cpp_values. rewrite (cat_map_ext _ _ _ (handler_spec d)). cbn [expand fold_left slot String.append].
  replace (cat [project_path d; "/"; project d; "_command.cpp"]%string) with (output d (project d +:+ "_command.cpp")); [done|]. unfold output. by texts.
Qed.

Lemma make_logic_cpp fs : read_template_file e fs template_logic_file = (true, t_logic t) → (∀ name, output d name ≠ template_logic_file) →
  well_formed (logic_values d) (t_logic t) = true →
  make_logic_plugin_cpp e d fs = (true, <[output d (project d +:+ "_logic.cpp") := instance (logic_values d) (t_logic t)]> fs).
Proof.
  intros Ht Hne Hw. rewrite <- (from_template fs _ template_logic_file) by (done || by apply logic_values_fill).
  unfold make_logic_plugin_cpp, logic_values. rewrite <- !(indented_lines _ (command_list_ d)) by done. cbn [expand fold_left slot String.append].
  replace (cat [project_path d; "/"; project d; "_logic.cpp"]%string) with (output d (project d +:+ "_logic.cpp")); [done|]. unfold output. by texts.
Qed.

Lemma make_cmake fs : read_template_file e fs temlpate_cmake_file = (true, t_cmake t) → (∀ name, output d name ≠ temlpate_cmake_file) →
  well_formed (cmake_values d) (t_cmake t) = true →
  make_Cmake_file e d fs = (true, <[output d "CMakeLists.txt" := instance (cmake_values d) (t_cmake t)]> fs).
Proof.
  intros Ht Hne Hw. rewrite <- (from_template fs _ temlpate_cmake_file) by (done || by apply cmake_values_fill).
  unfold make_Cmake_file, cmake_values. done.
Qed.

Lemma make_all_files fs : templates_at e fs d t → make_all e d fs = write_files fs (plugin d t).
Proof.
  intros [H1 H2 H3 H4 Hw Ha]. rewrite !andb_true_iff in Hw. destruct Hw as [[[W1 W2] W3] W4].
  assert (A : ∀ f, f ∈ [template_h_file; template_cpp_file; template_logic_file; temlpate_cmake_file] → ∀ name, output d name ≠ f).
  { intros f Hf name <-. by apply (Ha name). }
  unfold make_all. rewrite make_type_file. cbn [snd].
  rewrite make_command_h by (rewrite ?read_template_other; first [done | apply A; set_solver]). cbn [snd].
  rewrite make_command_cpp by (rewrite ?read_template_other; first [done | apply A; set_solver]). cbn [snd].
  rewrite make_logic_cpp by (rewrite ?read_template_other; first [done | apply A; set_solver]). cbn [snd].
  rewrite make_do_message_h. cbn [snd]. rewrite make_do_message_cpp. cbn [snd].
  rewrite make_cmake by (rewrite ?read_template_other; first [done | apply A; set_solver]). done.
Qed.
End Steps.

(** ** The files of the plugin are different ones *)

Lemma write_files_cons fs f s l : write_files fs ((f, s) :: l) = write_files (<[f := s]> fs) l.
Proof. done. Qed.

Lemma write_files_other l : ∀ fs f, f ∉ map fst l → write_files fs l !! f = fs !! f.
Proof.
  induction l as [|[f' s'] l IH]; intros fs f Hf; [done|]. cbn [map fst] in Hf. rewrite write_files_cons, IH by set_solver.
  apply lookup_insert_ne. set_solver.
Qed.

Lemma write_files_lookup l : NoDup (map fst l) → ∀ fs f s, (f, s) ∈ l → write_files fs l !! f = Some s.
Proof.
  induction l as [|[f' s'] l IH]; intros Hl fs f s Hin; [by apply elem_of_nil in Hin|]. cbn [map fst] in Hl.
  apply NoDup_cons in Hl as [Hn Hl]. rewrite write_files_cons. apply elem_of_cons in Hin as [[= -> ->]|Hin]; [|by apply IH].
  rewrite write_files_other by done. apply lookup_insert_eq.
Qed.

Fixpoint last_char (s : string) : option ascii :=
  match s with EmptyString => None | String c EmptyString => Some c | String _ s => last_char s end.

Lemma last_char_app s c s' : last_char (s +:+ String c s') = last_char (String c s').
Proof. induction s as [|a s IH]; [done|]. cbn [String.append]. rewrite <- IH. by destruct s. Qed.

Lemma app_inj_l s a b : s +:+ a = s +:+ b → a = b.
Proof. induction s as [|c s IH]; [done|]. cbn. intros [= H]. auto. Qed.

Lemma plugin_NoDup d t : NoDup (map fst (plugin d t)).
Proof.
  cut (NoDup [project d +:+ "_type.hpp"; project d +:+ "_command.h"; project d +:+ "_command.cpp"; project d +:+ "_logic.cpp";
    project d +:+ "_do_message.h"; project d +:+ "_do_message.cpp"; "CMakeLists.txt"]%string).
  { intros H. assert (Inj (=) (=) (output d)) by (intros a b E; unfold output in E; by apply app_inj_l, app_inj_l in E).
    apply (NoDup_fmap_2 (output d)) in H. exact H. }
  rewrite !NoDup_cons; split_and!; [..|apply NoDup_nil_2]; rewrite ?elem_of_cons, ?elem_of_nil; intros Hin; repeat destruct Hin as [Hin|Hin]; try done;
    first [by apply app_inj_l in Hin | by apply (f_equal last_char) in Hin; rewrite last_char_app in Hin].
Qed.

(** C33: a description gives its plugin.  Conditions: the description can be read, neither the project name nor a field of a command
    holds a bracket ([description_plain]), every file can be created, and the templates are there, with brackets that the placeholders account for, and
    apart from the files written ([templates_at]).  A template is what the generator reads of it: the code makes a string of a buffer
    without a terminating zero, so that a template without a zero is followed by whatever the memory behind the buffer holds
    ([beyond]), which must not open a bracket.  Then the generator writes the seven files of the plugin and no
    other: each template as read with its placeholders filled in at once, every command declared, defined, registered and
    dispatched to its function, the functions that the user completes declared and defined once and in the same
    order, and called with one argument for each of their parameters. *)
Theorem plugin_generated e j fs d t : read_json_file Cread_logic_json_info_new (Some j) = Value (true, d) → description_plain d = true →
  (∀ f, can_create e f = true) → templates_at e fs d t →
  ∃ fs', main e (Some j) fs = Value fs' ∧ (∀ f s, (f, s) ∈ plugin d t → fs' !! f = Some s) ∧
    (∀ f, f ∉ map fst (plugin d t) → fs' !! f = fs !! f) ∧ map (λ '(sg, _, _), sg) (parts d) = interface d.
Proof.
  intros Hr Hp Hc Ht. exists (write_files fs (plugin d t)). split; [|split; [|split]].
  - unfold main. rewrite Hr. cbn [rbind]. rewrite (make_all_files e d t) by (done || apply Ht). done.
  - apply write_files_lookup, plugin_NoDup.
  - apply write_files_other.
  - apply parts_interface.
Qed.

(** ** Errors *)

(** A class, a command or a message without one of its keys is undefined behaviour, a field without a size is not. *)
Lemma command_key_missing l : existsb (λ '(k, _), String.eqb k "command macro") l = false → read_command (JObject l) = Undefined.
Proof. intros H. unfold read_command, string_at_const, at_const. by rewrite H. Qed.

(** A file that holds no JSON writes nothing. *)
Lemma no_description e fs : main e None fs = Value fs.
Proof. done. Qed.

(** A project in the folder of the templates empties the template of the build file before it is read. *)
Lemma cmake_template_lost e d fs : project_path d = "./template"%string → (∀ f, can_create e f = true) → (∀ f, beyond e f = EmptyString) →
  (make_Cmake_file e d fs).2 !! temlpate_cmake_file = Some EmptyString.
Proof.
  intros Hp Hc Hb. unfold make_Cmake_file, create_logic_file, read_template_file. rewrite Hp, Hc. cbn -[replace_all_distinct].
  rewrite lookup_insert_eq. rewrite Hb. cbn. by rewrite lookup_insert_eq.
Qed.

(** ** The templates and the example of the repository (Build/template, Build/plugin_maker.json)

    A quote is written as a backquote. *)

Fixpoint unquote (s : string) : string :=
  match s with EmptyString => EmptyString | String c s => String (if Ascii.eqb c "`"%char then "034"%char else c) (unquote s) end.

Definition text_h : string := unquote "#pragma once
#include <iostream>

#include `IFrameObject.h`
[include file]

//define command id
[command id define]

class C[command class name]
{
public:
	void Init(ISessionService* session_service);

	[command logic function define]

private:
	ISessionService* session_service_ = nullptr;
	[do message logic]
};

".

Definition text_cpp : string := unquote "#include `[command head file]`

void [class name]::Init(ISessionService* session_service)
{
    session_service_ = session_service;
	
	[do message logic init]

    PSS_LOGGER_DEBUG(`[[class name]::Init]init.`);
}

[command logic function achieve]".

Definition text_logic : string := unquote "// Define the logic plug-in call interface

#include <iostream>

#include `IFrameObject.h`
#include `define.h`

#include `[include command file head file]`

#if PSS_PLATFORM == PLATFORM_WIN
#ifdef TEST_LOGIC_EXPORTS
#define DECLDIR extern `C` _declspec(dllexport)
#else
#define DECLDIR extern `C`__declspec(dllimport)
#endif
#else
#define DECLDIR extern `C`
#endif

using namespace std;

DECLDIR int load_module(IFrame_Object* frame_object, string module_param);
DECLDIR void unload_module();
DECLDIR int do_module_message(const CMessage_Source& source, std::shared_ptr<CMessage_Packet> recv_packet, std::shared_ptr<CMessage_Packet> send_packet);
DECLDIR int module_state();
DECLDIR int module_run(std::shared_ptr<CMessage_Packet> send_packet, std::shared_ptr<CMessage_Packet> return_packet);
DECLDIR void set_output(shared_ptr<spdlog::logger> logger);

ISessionService* session_service = nullptr;
std::shared_ptr<[command class name]> base_command = nullptr;

#define MESSAGE_FUNCTION_BEGIN(x) switch(x) {
#define MESSAGE_FUNCTION(x,y,z,h,i) case x: { y(z,h,i); break; }
#define MESSAGE_FUNCTION_END }

//Plugin loading
int load_module(IFrame_Object* frame_object, string module_param)
{
#ifdef GCOV_TEST
    //If it is a functional code coverage check, turn on this switch and let the plug-in execute all framework interface calls
    PSS_LOGGER_DEBUG(`[load_module]gcov_check is set.`);
#endif

    //Initialize the message processing class
    base_command = std::make_shared<[command class name]>();

    //Register the plugin
    [register command id]

    session_service = frame_object->get_session_service();

    base_command->Init(session_service);

    PSS_LOGGER_DEBUG(`[load_module]({0})finish.`, module_param);

    return 0;
}

//Uninstall plugin
void unload_module()
{
    PSS_LOGGER_DEBUG(`[unload_module]finish.`);
}

//Perform message processing
int do_module_message(const CMessage_Source& source, std::shared_ptr<CMessage_Packet> recv_packet, std::shared_ptr<CMessage_Packet> send_packet)
{
    //Plug-in message processing
    //PSS_LOGGER_DEBUG(`[do_module_message]command_id={0}.`, recv_packet.command_id_);

    MESSAGE_FUNCTION_BEGIN(recv_packet->command_id_);
    [message map logic function]
    MESSAGE_FUNCTION_END;

    return 0;
}

//Synchronous calls between modules
int module_run(std::shared_ptr<CMessage_Packet> send_packet, std::shared_ptr<CMessage_Packet> return_packet)
{
    //Add your logic processing code here
    PSS_LOGGER_DEBUG(`[module_run]command_id_={0}.\n`, send_packet->command_id_);
    return_packet->buffer_ = send_packet->buffer_;
    return_packet->command_id_ = send_packet->command_id_;
    return 0;
}

//Get the current plug-in status
int module_state()
{
    return 0;
}

//Set log output
void set_output(shared_ptr<spdlog::logger> logger)
{
    spdlog::set_default_logger(logger);
}

".

Definition text_cmake : string := unquote "cmake_minimum_required(VERSION 3.0)
PROJECT([plugin name])

if(UNIX)
	set(BIN_OUTPUT_DIR ${PROJECT_SOURCE_DIR}/Build/Linux/)
	set(LIB_OUTPUT_DIR ${PROJECT_SOURCE_DIR}/Build/Linux/)
else()
	set(BIN_OUTPUT_DIR ${PROJECT_SOURCE_DIR}/Build/Windows/)
	set(LIB_OUTPUT_DIR ${PROJECT_SOURCE_DIR}/Build/Windows/)
	set(CMAKE_RUNTIME_OUTPUT_DIRECTORY_DEBUG `${BIN_OUTPUT_DIR}`)
	set(CMAKE_RUNTIME_OUTPUT_DIRECTORY_RELEASE `${BIN_OUTPUT_DIR}`)
	set(CMAKE_LIBRARY_OUTPUT_DIRECTORY_DEBUG `${BIN_OUTPUT_DIR}`)
	set(CMAKE_LIBRARY_OUTPUT_DIRECTORY_RELEASE `${BIN_OUTPUT_DIR}`)
	set(CMAKE_ARCHIVE_OUTPUT_DIRECTORY_DEBUG `${BIN_OUTPUT_DIR}`)
	set(CMAKE_ARCHIVE_OUTPUT_DIRECTORY_RELEASE `${BIN_OUTPUT_DIR}`)
endif()

file(GLOB MAIN_FILES *.cpp)
source_group(`main_file` FILES ${MAIN_FILES})

include_directories(
	${PROJECT_SOURCE_DIR}/../../Common
	${PROJECT_SOURCE_DIR}/../../third_include)

ADD_LIBRARY(${PROJECT_NAME} SHARED 
	${MAIN_FILES}
	)

#ifwindows	
#__DEBUG;_USRDLL;TEST_LOGIC_EXPORTS;_WINDOWS;%(PreprocessorDefinitions)
if(WIN32)
	message(`OS is windows...`)
	if(CMAKE_BUILD_TYPE MATCHES `debug`)
		add_definitions(
		-D_DEBUG
		-D_USRDLL
		-DTEST_LOGIC_EXPORTS
		-D_WINDOWS)
	else()
		add_definitions(
		-DNDEBUG
		-D_USRDLL
		-DTEST_LOGIC_EXPORTS
		-D_WINDOWS)		
	endif()
endif()

if(gcov_check STREQUAL `1`)
	message(`[Test_Logic]set GCOV_TEST...`)
	add_definitions(-DGCOV_TEST)
endif()

if(UNIX)
	target_link_libraries(${PROJECT_NAME} -lpthread)
endif()

set_target_properties(${PROJECT_NAME} PROPERTIES 
	OUTPUT_NAME_DEBUG ${PROJECT_NAME}
	ARCHIVE_OUTPUT_DIRECTORY ${BIN_OUTPUT_DIR}
    RUNTIME_OUTPUT_DIRECTORY ${BIN_OUTPUT_DIR}
    LIBRARY_OUTPUT_DIRECTORY ${BIN_OUTPUT_DIR})
".


Definition example_description : Cread_logic_json_info :=
  (mkMaker
    [mkCommand "LOGIC_COMMAND_CONNECT" "" "logic_connect" "" "";
     mkCommand "LOGIC_COMMAND_DISCONNECT" "" "logic_disconnect" "" "";
     mkCommand "COMMAND_TEST_SYNC" "0x2101" "logic_test_sync" "Crecv_sample" "Csend_sample";
     mkCommand "COMMAND_TEST_ASYN" "0x2102" "logic_test_asyn" "Crecv_sample" ""]
    [mkClass "Message Input" "Crecv_sample"
       [mkParam "message_version_" "uint16" 0; mkParam "message_command_id_" "uint16" 0; mkParam "message_length_" "uint32" 0; mkParam "message_session_" "string" 32; mkParam "message_data_" "string" 200];
     mkClass "Message Output" "Csend_sample"
       [mkParam "message_version_" "uint16" 0; mkParam "message_command_id_" "uint16" 0; mkParam "message_length_" "uint32" 0; mkParam "message_session_" "string" 0; mkParam "message_data_" "string" 0]]
    (mkProject "example_logic" "../../Module_Logic/")
    ["Csend_sample"])%string.

(** The same, as it is in the file. *)
Definition json_param (name type : string) (size : list (string * json)) : json := JObject ([("name", JString name); ("type", JString type)]%string ++ size).
Definition json_class (type name : string) (size1 size2 : list (string * json)) : json :=
  JObject [("message type", JString type); ("class name", JString name);
    ("class type", JArray [json_param "message_version_" "uint16" []; json_param "message_command_id_" "uint16" [];
       json_param "message_length_" "uint32" []; json_param "message_session_" "string" size1; json_param "message_data_" "string" size2])]%string.
Definition json_command (macro id function message_in message_out : string) : json :=
  JObject [("command macro", JString macro); ("command id", JString id); ("command function", JString function);
    ("message in", JString message_in); ("message out", JString message_out)]%string.
Definition example_json : json :=
  JObject [("plugin project name", JString "example_logic"); ("plugin project path", JString "../../Module_Logic/");
    ("plugin class", JArray [json_class "Message Input" "Crecv_sample" [("buffer_length", JInteger 32)] [("buffer_length", JInteger 200)];
       json_class "Message Output" "Csend_sample" [] []]);
    ("message map", JArray [json_command "LOGIC_COMMAND_CONNECT" "" "logic_connect" "" "";
       json_command "LOGIC_COMMAND_DISCONNECT" "" "logic_disconnect" "" "";
       json_command "COMMAND_TEST_SYNC" "0x2101" "logic_test_sync" "Crecv_sample" "Csend_sample";
       json_command "COMMAND_TEST_ASYN" "0x2102" "logic_test_asyn" "Crecv_sample" ""]);
    ("asynchronous send interface", JArray [JObject [("message out", JString "Csend_sample")]])]%string.

(** The memory behind every template holds an exclamation mark and a zero. *)
Definition any_env : env := mkEnv (Some EEXIST) (λ _, true) (λ _, "!"%string).
Definition repository_templates : templates := mkTemplates (text_h +:+ "!") (text_cpp +:+ "!") (text_logic +:+ "!") (text_cmake +:+ "!").
Definition repository_files : files :=
  {[template_h_file := text_h; template_cpp_file := text_cpp; template_logic_file := text_logic; temlpate_cmake_file := text_cmake]}.

(** The templates of the repository are well formed for any description. *)
Lemma repository_templates_closed d : let t := repository_templates in
  well_formed (h_values d) (t_h t) = true ∧ well_formed (cpp_values d) (t_cpp t) = true ∧
  well_formed (logic_values d) (t_logic t) = true ∧ well_formed (cmake_values d) (t_cmake t) = true.
Proof. by vm_compute. Qed.

Lemma repository_templates_at : templates_at any_env repository_files example_description repository_templates.
Proof.
  split.
  1-4: by vm_compute.
  - destruct (repository_templates_closed example_description) as (H1 & H2 & H3 & H4).
    exact (f_equal2 andb (f_equal2 andb (f_equal2 andb H1 H2) H3) H4).
  - intros name. rewrite !not_elem_of_cons. split_and!; [discriminate..|apply not_elem_of_nil].
Qed.

(** The dispatch of the example, as text. *)
Example example_dispatch : value_of (logic_values example_description) "register command id" = cat
  ["frame_object->Regedit_command(LOGIC_COMMAND_CONNECT);"; nl; tab; "frame_object->Regedit_command(LOGIC_COMMAND_DISCONNECT);"; nl;
   tab; "frame_object->Regedit_command(COMMAND_TEST_SYNC);"; nl; tab; "frame_object->Regedit_command(COMMAND_TEST_ASYN);"; nl]%string.
Proof. reflexivity. Qed.

Lemma plugin_generated_witness : ∃ fs', main any_env (Some example_json) repository_files = Value fs' ∧
  fs' !! "../../Module_Logic/example_logic/CMakeLists.txt"%string = Some (instance (cmake_values example_description) (text_cmake +:+ "!")).
Proof.
  destruct (plugin_generated any_env example_json repository_files example_description repository_templates)
    as (fs' & Hm & Hf & _); [vm_compute; reflexivity|vm_compute; reflexivity|reflexivity|exact repository_templates_at|].
  exists fs'. split; [exact Hm|]. apply Hf. cbn -[instance]. do 6 right. left.
Defined.
